(* ===== verification/_CoqProject ===== *)
-Q . S2P
Prelude.v
Crc32.v
Layout.v
Sleeplock.v
Disk.v
Ide.v
Dlist.v
Bio.v
BioSpec.v
Log.v
LogImg.v
LogSpec.v
LogTxn.v
LogCrash.v
Journal.v
LogReserve.v
CString.v
Mem.v
Spinlock.v
Kalloc.v
Vm.v
VmSpec.v
VmMap.v
VmUser.v
VmKern.v
VmMain.v
Pipe.v
Fs.v
FsTx.v
FsBlock.v
FsFile.v
FsRw.v
FsInode.v
FsDir.v
FsPath.v
FsMain.v
FsName.v
FsTrans.v
Kernel.v
File.v
FileSpec.v
Syscall.v
Exec.v
Sysfile.v
Proc.v
Sysproc.v
FdInv.v
FdCalls.v
FdProc.v
ProcTree.v
Sched.v
Console.v
Kbd.v
Grep.v
Umalloc.v
Sh.v
ShRun.v
User.v
Mkfs.v
MkfsSpec.v
