(* ===== verification/Prelude.v ===== *)
(** * xv6 with an enhanced journal: a verification development

    xv6 is a Unix-like kernel for the i386 with a file system, processes and a
    small user land; this version has a journal (log.c) with a checksum per
    entry, logging of the changed slice of a block only, group commit, a write
    barrier and points where a crash can be injected.  The development is a
    shallow embedding of the C sources of src/: each function is a Rocq
    function of the same name on an explicit state.

    ** How C is modelled

    An operation is a computation of the monad [M S A] (this file): a function
    of the process (or CPU) that runs it and of the state.  It returns, panics,
    goes to sleep on a channel, or is [Undefined] where the C code would be
    undefined or a loop bound was too small.  Theorems on what an operation does
    are total: they show that the result is [Ret], so they exclude the other
    outcomes; only the invariants kept by every system call ([descriptors_counted])
    start from a call that returns.  Layers nest
    through lenses ([lift]): kernel > file system > log > buffer cache > disk
    driver.  Integers are [Z] with the wrap-around of their C type written out
    ([u8], [u16], [u32], [s32]).  Structs on disk and in memory are bytes where
    the code reads them as bytes, records elsewhere; pointers into arrays are
    indices.

    ** Parts, files and theorems

    - Checksum (log.c, [crc32]): Crc32.  The table-driven loop computes the
      CRC-32 of the bitwise definition.
    - On-disk formats (fs.h, param.h, stat.h): Layout.  Decoding inverts
      encoding.
    - Disk and drivers (buf.h, ide.c, memide.c): Disk has the interface
      [DiskDriver] that bio.c relies on, with its laws; Ide has both drivers
      and discharges the laws.
    - Buffer cache (bio.c): Dlist, Bio, BioSpec.  The cache refines a map from
      blocks to contents ([crep]).
    - Journal (log.c): Log is the code; LogImg relates commits and recovery as
      functions on disk images; LogSpec and LogTxn show that the code does
      that; LogCrash and Journal have the crash theorems: a commit cut at any
      disk command leaves, after recovery, all or nothing of the transaction,
      also on a drive with a write cache from the barrier until the first
      install; recovery can itself be cut and restarted.  LogReserve has the space
      reservation of [begin_op] for interleaved operations.
    - Memory and strings (string.c, ulib.c): CString, Mem.
    - Locks (spinlock.c, sleeplock.c): Spinlock, Sleeplock.  Mutual exclusion
      over all interleavings; a process waits for a sleep-lock only while
      another one holds it.
    - Page allocator (kalloc.c) and virtual memory (vm.c): Kalloc, Vm, VmSpec,
      VmMap, VmUser, VmKern, VmMain.  Pages are conserved, address spaces are
      confined (to pages that are neither page tables nor anybody else's), copied
      and grown as asked.
    - Pipes (pipe.c): Pipe.  First in first out, and when wakeups are lost.
    - File system (fs.c): Fs is the code; FsTx, FsBlock, FsFile, FsRw,
      FsInode, FsDir, FsPath its lemmas; FsMain the theorems on allocation,
      reading, writing, truncating, deleting and directories; FsName shows
      that [namex] finds the inode that the directories on the disk lead to,
      and gives back every lock and reference on the way; FsTrans puts the operations between [begin_op] and [end_op].
    - Kernel (file.c, syscall.c, exec.c, sysfile.c, proc.c, sysproc.c): Kernel
      has the state, File, Syscall, Exec, Sysfile, Proc and Sysproc the code.
      FileSpec has [filewrite] as a sequence of transactions; FdInv, FdCalls and
      FdProc the reference counts of files over every call on descriptors,
      fork, exit and wait, each run to its end, with the assumption that
      [kalloc] does not give out the page of a pipe in use; ProcTree
      the collection of exited processes.  For exec.c, the inode calls of
      sysfile.c and the table of sysproc.c the definitions are given; they
      have no theorem of their own.
    - Scheduler (proc.c): Sched.  Any number of CPUs, as a transition system
      over the pieces of code between context switches.
    - Console, keyboard, serial port (console.c, kbd.c, uart.c): Console, Kbd.
      The input ring refines a line discipline.
    - User programs: Grep (grep.c), Umalloc (umalloc.c), Sh and ShRun (sh.c),
      User (printf.c, wc.c, cat.c).  The matcher against a language, the
      allocator's invariant, the parser against a grammar, the descriptors of
      the programs a command line starts.
    - Image builder (mkfs.c): Mkfs is the program, with the number of blocks
      each append takes; MkfsSpec shows that the image is a well-formed file
      system with the given files.

    ** Parameters

    The device table ([devsw_read], [devsw_write]), the end of the kernel image
    ([kend], [kdata]), the calls [read] of the user programs, and whether the
    kernel grants memory to [sbrk] ([granted]) are arguments.

    ** Bounds and fuel

    A loop that is not structural takes fuel.  In kernel code the callers pass
    a bound computed from the loop itself: the length of a list, the number of
    pages, blocks, directory entries or path characters left; the theorems show
    a [Ret] result, hence that it is enough.  The string functions, [grep],
    [wc], [cat], [malloc] and [free] take the fuel as an argument and the
    theorems hold for every fuel above a stated bound ([fuel_for] for the
    allocator: the free list has at most one block for each unit of the heap).
    [open_console] has fuel for 17 calls and needs at most four: the kernel gives
    out the lowest free descriptor, so the fourth is at least 3.

    ** Where the code falls short

    [Journal.install_unbarriered], [Journal.fault_injection],
    [Journal.header_count_unchecked], [LogReserve.reservation_overrun],
    [LogReserve.batch_size_accumulates], [FsMain.freed_block_reused],
    [Pipe.pipe_lost_wakeup], [CString.umemmove_overlap],
    [Grep.grep_drops_partial], [Umalloc.malloc_wraps],
    [Umalloc.malloc_past_break], [Sh.append_same_as_write] and
    [MkfsSpec.mkfs_root_hole] are proofs of behaviour that a comment or the
    purpose of the code excludes.

    ** Not modelled

    Assembly and boot (bootasm.S, entry.S, swtch.S, ..., bootmain.c, main.c);
    the dispatch of traps (trap.c), which works on the process table, the disk
    and the console at once where the models have a state each, so that the
    clock tick and the killing of a faulting process are not covered; the
    interrupt hardware (lapic.c, ioapic.c, picirq.c, mp.c), which programs
    registers; segment descriptors and control registers (seginit and part of
    switchuvm in vm.c); the user programs that are sequences of system calls;
    the test and benchmark programs.  Messages printed by [cprintf] are left out of the kernel models.
    Operations under one lock are one step; data races outside locks and the
    memory model of the hardware are out of scope.  The states inside a system
    call that is asleep are described for pipes, sleep-locks, [begin_op], [wait]
    and the scheduler, by transition systems of their own, and not for the
    other calls. *)

From stdpp Require Export base list numbers strings functions sets gmap.

Open Scope Z_scope.

(** ** C integers

    A C integer is a [Z] kept in the range of its type; the conversions below
    are the wrap-around the language defines (unsigned) or that the compiler
    used here gives (signed). *)

Definition u8 (z : Z) : Z := z mod 2 ^ 8.
Definition u16 (z : Z) : Z := z mod 2 ^ 16.
Definition u32 (z : Z) : Z := z mod 2 ^ 32.
Definition s16 (z : Z) : Z := (z + 2 ^ 15) mod 2 ^ 16 - 2 ^ 15.
Definition s32 (z : Z) : Z := (z + 2 ^ 31) mod 2 ^ 32 - 2 ^ 31.

(** ** Outcomes and the kernel monad

    [Ret] is a normal return, [Panicked] a call of [panic], [Asleep] the point
    where the process calls [sleep] on a channel (or, with [ChNone], gives up
    the processor otherwise), and [Undefined] a behaviour
    the C standard leaves undefined (an out-of-range array access). *)

Inductive channel : Type :=
| ChLog
| ChBuf (i : nat)
| ChInode (i : nat)
| ChPipeRead (p : Z)
| ChPipeWrite (p : Z)
| ChTicks
| ChInput
| ChProc (i : nat)
| ChNone.

#[global] Instance channel_eq_dec : EqDecision channel.
Proof. solve_decision. Defined.

Inductive outcome (S A : Type) : Type :=
| Ret (a : A) (s : S)
| Panicked (msg : string) (s : S)
| Asleep (chan : channel) (s : S)
| Undefined (why : string).
Arguments Ret {S A} a s.
Arguments Panicked {S A} msg s.
Arguments Asleep {S A} chan s.
Arguments Undefined {S A} why.

(** [M S A] is kernel code run by the process whose pid is the first
    argument, on a state [S]. *)
Definition M (S A : Type) : Type := Z → S → outcome S A.

#[global] Instance M_ret S : MRet (M S) := λ A a _ s, Ret a s.
#[global] Instance M_bind S : MBind (M S) := λ A B k m pid s,
  match m pid s with
  | Ret a s' => k a pid s'
  | Panicked msg s' => Panicked msg s'
  | Asleep c s' => Asleep c s'
  | Undefined w => Undefined w
  end.

Definition get {S} : M S S := λ _ s, Ret s s.
Definition modify {S} (f : S → S) : M S unit := λ _ s, Ret tt (f s).
Definition gets {S A} (f : S → A) : M S A := λ _ s, Ret (f s) s.
Definition mypid {S} : M S Z := λ pid s, Ret pid s.
Definition panic {S A} (msg : string) : M S A := λ _ s, Panicked msg s.
Definition sleep_on {S A} (c : channel) : M S A := λ _ s, Asleep c s.
Definition undef {S A} (w : string) : M S A := λ _ _, Undefined w.
Definition when {S} (b : bool) (m : M S unit) : M S unit :=
  if b then m else mret tt.

(** A C array read: an index outside the array is undefined behaviour. *)
Definition arr {A} (l : list A) (i : Z) : option A :=
  if bool_decide (0 ≤ i) then l !! Z.to_nat i else None.
Definition aget {S A} (l : list A) (i : Z) : M S A :=
  match arr l i with
  | Some x => mret x
  | None => undef "array index"
  end.

(** [l[i] = v] *)
Definition aset {S A} (l : list A) (i : Z) (v : A) : M S (list A) :=
  match arr l i with Some _ => mret (<[Z.to_nat i := v]> l) | None => undef "array index" end.

(** [for(x in l) body]: the loops whose bounds do not change in the body. *)
Fixpoint forM {S A} (l : list A) (body : A → M S unit) : M S unit :=
  match l with
  | [] => mret tt
  | x :: l' => body x ;; forM l' body
  end.

(** ** Components of a larger state

    A component is written over its own state and used from a larger one
    through a lens; [lift] runs it there and leaves the rest alone. *)

Class Lens (S T : Type) := { lget : S → T; lput : T → S → S }.
Class LensLaws (S T : Type) `{Lens S T} := {
  lget_lput : ∀ t s, lget (lput t s) = t;
  lput_lget : ∀ s, lput (lget s) s = s;
  lput_lput : ∀ t t' s, lput t (lput t' s) = lput t s;
}.

Definition lift {S T A} `{Lens S T} (m : M T A) : M S A := λ pid s,
  match m pid (lget s) with
  | Ret a t => Ret a (lput t s)
  | Panicked msg t => Panicked msg (lput t s)
  | Asleep c t => Asleep c (lput t s)
  | Undefined w => Undefined w
  end.

(** ** Total-correctness triples

    [triple P m Q]: from a state of [P] the code returns (it does not panic,
    sleep or run into undefined behaviour) in a state of [Q]. *)
Definition triple {S A} (pid : Z) (P : S → Prop) (m : M S A) (Q : A → S → Prop) : Prop :=
  ∀ s, P s → ∃ a s', m pid s = Ret a s' ∧ Q a s'.

(** ** Byte ranges of blocks *)

(** Bytes [off, off+len) of [l]. *)
Definition slice (off len : nat) (l : list Z) : list Z := take len (drop off l).

(** [l] with the bytes from [off] replaced by [x]: what
    [memmove(l + off, x, length x)] leaves, for disjoint buffers. *)
Definition splice (off : nat) (x l : list Z) : list Z :=
  take off l ++ x ++ drop (off + length x) l.

Definition is_byte (z : Z) : Prop := 0 ≤ z < 256.
Definition bytes (l : list Z) : Prop := Forall is_byte l.

#[global] Instance is_byte_dec z : Decision (is_byte z).
Proof. unfold is_byte. apply _. Defined.

(** ** Automation *)

#[global] Arguments fn_insert : simpl never.

Create Rewrite HintDb len.
#[export] Hint Rewrite @length_app @length_take @length_drop @length_replicate
  @length_insert @length_fmap @length_seq @length_reverse : len.

Ltac len := autorewrite with len in *; simpl length in *; try lia.

(** [lia] on goals with division by constants. *)
Ltac dlia := Z.to_euclidean_division_equations; lia.

Create HintDb kernel discriminated.

(** Runs a monadic definition symbolically. *)
Ltac munfold :=
  cbv [mbind mret M_bind M_ret get modify gets mypid panic sleep_on undef when lift] in *;
  simpl in *.

(** Splits the next [match] or [if] of the goal, remembering the equation. *)
Ltac case_split :=
  match goal with
  | |- context [if ?b then _ else _] => destruct b eqn:?
  | |- context [match ?x with _ => _ end] => destruct x eqn:?
  end.

(** ** Lemmas on the monad *)

Lemma arr_lookup {A} (l : list A) (i : nat) : arr l (Z.of_nat i) = l !! i.
Proof. unfold arr. rewrite bool_decide_true by lia. by rewrite Nat2Z.id. Qed.

Section monad.
Context {S : Type}.

Lemma bind_ret {A B} (a : A) (k : A → M S B) pid s :
  (mret a ≫= k) pid s = k a pid s.
Proof. reflexivity. Qed.

Lemma bind_Ret {A B} (m : M S A) (k : A → M S B) pid s a s' :
  m pid s = Ret a s' → (m ≫= k) pid s = k a pid s'.
Proof. intros H. unfold mbind, M_bind. by rewrite H. Qed.

Lemma bind_Panicked {A B} (m : M S A) (k : A → M S B) pid s msg s' :
  m pid s = Panicked msg s' → (m ≫= k) pid s = Panicked msg s'.
Proof. intros H. unfold mbind, M_bind. by rewrite H. Qed.

Lemma bind_inv_Ret {A B} (m : M S A) (k : A → M S B) pid s b s' :
  (m ≫= k) pid s = Ret b s' →
  ∃ a s1, m pid s = Ret a s1 ∧ k a pid s1 = Ret b s'.
Proof. unfold mbind, M_bind. destruct (m pid s); naive_solver. Qed.

Lemma bind_assoc {A B C} (m : M S A) (k : A → M S B) (h : B → M S C) pid s :
  ((m ≫= k) ≫= h) pid s = (m ≫= (λ a, k a ≫= h)) pid s.
Proof. unfold mbind, M_bind. destruct (m pid s); done. Qed.

Lemma triple_ret {A} pid (a : A) (Q : A → S → Prop) :
  triple pid (Q a) (mret a) Q.
Proof. intros s H. by exists a, s. Qed.

Lemma triple_bind {A B} pid P (m : M S A) R (k : A → M S B) Q :
  triple pid P m R → (∀ a, triple pid (R a) (k a) Q) → triple pid P (m ≫= k) Q.
Proof.
  intros Hm Hk s (a & s1 & E & HR)%Hm.
  destruct (Hk a s1 HR) as (b & s2 & E' & HQ).
  exists b, s2. by rewrite (bind_Ret _ _ _ _ _ _ E).
Qed.

Lemma triple_conseq {A} pid (P P' : S → Prop) (m : M S A) (Q Q' : A → S → Prop) :
  (∀ s, P s → P' s) → (∀ a s, Q' a s → Q a s) →
  triple pid P' m Q' → triple pid P m Q.
Proof. intros HP HQ H s Hs. destruct (H s (HP s Hs)) as (a & s' & ? & ?); eauto. Qed.

(** A loop over a list keeps an invariant that its body keeps, the list done
    so far being visible to the invariant. *)
Lemma triple_forM {A} pid (I : list A → S → Prop) (body : A → M S unit) (l : list A) :
  (∀ done x rest, l = done ++ x :: rest →
     triple pid (I done) (body x) (λ _, I (done ++ [x]))) →
  triple pid (I []) (forM l body) (λ _, I l).
Proof.
  assert (∀ rest done, l = done ++ rest →
    (∀ done x rest, l = done ++ x :: rest →
       triple pid (I done) (body x) (λ _, I (done ++ [x]))) →
    triple pid (I done) (forM rest body) (λ _, I l)) as Hgen.
  { induction rest as [|x rest IH]; intros done Hl Hb; simpl.
    - rewrite app_nil_r in Hl. rewrite Hl. intros s Hs. by exists tt, s.
    - eapply triple_bind; [by eapply Hb|]. intros [].
      apply (IH (done ++ [x])); [by rewrite <- app_assoc|done]. }
  intros Hb. by apply (Hgen l []).
Qed.

(** The loop [for(i = 0; i < n; i++)], with an invariant on the index. *)
Lemma triple_forZ pid (I : nat → S → Prop) (body : Z → M S unit) n :
  (∀ i, (i < Z.to_nat n)%nat → triple pid (I i) (body (Z.of_nat i)) (λ _, I (Datatypes.S i))) →
  triple pid (I 0%nat) (forM (seqZ 0 n) body) (λ _, I (Z.to_nat n)).
Proof.
  intros Hb.
  pose proof (triple_forM pid (λ done, I (length done)) body (seqZ 0 n)) as Hf.
  cbv beta in Hf. rewrite length_seqZ in Hf. apply Hf. intros done x rest E.
  assert (seqZ 0 n !! length done = Some x) as Hx by (by rewrite E, list_lookup_middle).
  apply lookup_seqZ in Hx as [-> Hlt].
  rewrite length_app, Nat.add_1_r, Z.add_0_l. apply Hb. lia.
Qed.

Lemma lift_Ret {T A} `{Lens S T} (m : M T A) pid s a t :
  m pid (lget s) = Ret a t → lift m pid s = Ret a (lput t s).
Proof. intros E. unfold lift. by rewrite E. Qed.

Lemma lift_Panicked {T A} `{Lens S T} (m : M T A) pid s msg t :
  m pid (lget s) = Panicked msg t → lift m pid s = Panicked msg (lput t s).
Proof. intros E. unfold lift. by rewrite E. Qed.

Lemma aget_Ret {A} (l : list A) (i : nat) pid (s : S) x :
  l !! i = Some x → aget l (Z.of_nat i) pid s = Ret x s.
Proof. intros E. unfold aget. by rewrite arr_lookup, E. Qed.

Lemma aset_Ret {A} (l : list A) (i : nat) v pid (s : S) :
  (i < length l)%nat → aset l (Z.of_nat i) v pid s = Ret (<[i := v]> l) s.
Proof.
  intros Hi. unfold aset. rewrite arr_lookup, Nat2Z.id.
  by destruct (lookup_lt_is_Some_2 l i Hi) as [x ->].
Qed.

End monad.

(** [mrun H]: the next statement returns as [H] says.  [mstep]: the next
    statement is an elementary one, or runs a component as a hypothesis says. *)
Ltac mrun H := rewrite (bind_Ret _ _ _ _ _ _ H); cbv beta.
Ltac mstep :=
  lazymatch goal with
  | |- mbind _ get ?pid ?s = _ => rewrite (bind_Ret get _ pid s s s eq_refl)
  | |- mbind _ (gets ?f) ?pid ?s = _ => rewrite (bind_Ret (gets f) _ pid s (f s) s eq_refl)
  | |- mbind _ (modify ?f) ?pid ?s = _ => rewrite (bind_Ret (modify f) _ pid s tt (f s) eq_refl)
  | |- mbind _ (mret ?x) ?pid ?s = _ => rewrite bind_ret
  | |- mbind _ (lift ?m) ?pid ?s = _ =>
      erewrite (bind_Ret (lift m) _ pid s); [|apply lift_Ret; eassumption]
  | |- mbind _ (aget ?l ?i) ?pid ?s = _ =>
      erewrite (bind_Ret (aget l i) _ pid s); [|apply aget_Ret; eassumption]
  | |- mbind _ ?m ?pid ?s = _ => erewrite (bind_Ret m _ pid s); [|eassumption]
  | |- lift ?m ?pid ?s = _ => etransitivity; [apply lift_Ret; eassumption|reflexivity]
  end; cbv beta.

(** ** Lemmas on C integers *)

Lemma u32_small z : 0 ≤ z < 2 ^ 32 → u32 z = z.
Proof. intros. by apply Z.mod_small. Qed.

Lemma u32_range z : 0 ≤ u32 z < 2 ^ 32.
Proof. by apply Z.mod_pos_bound. Qed.

Lemma s32_small z : - 2 ^ 31 ≤ z < 2 ^ 31 → s32 z = z.
Proof. intros. unfold s32. rewrite Z.mod_small; lia. Qed.

Lemma s32_range z : - 2 ^ 31 ≤ s32 z < 2 ^ 31.
Proof. unfold s32. pose proof (Z.mod_pos_bound (z + 2 ^ 31) (2 ^ 32)). lia. Qed.

Lemma u8_range z : 0 ≤ u8 z < 256.
Proof. unfold u8. apply Z.mod_pos_bound. lia. Qed.

(** Bit operations on disjoint ranges are arithmetic. *)
Lemma lor_add_disjoint k a b :
  0 ≤ k → 0 ≤ a < 2 ^ k → b mod 2 ^ k = 0 → Z.lor a b = a + b.
Proof.
  intros Hk Ha Hb. rewrite <- Z.lxor_lor, <- Z.add_nocarry_lxor; [done|..].
  all: apply Z.bits_inj'; intros i Hi; rewrite Z.land_spec, Z.bits_0;
    destruct (decide (i < k)).
  all: try (rewrite <- (Z.mod_pow2_bits_low b k i), Hb, Z.bits_0, andb_false_r by lia; done).
  all: rewrite <- (Z.mod_small a (2 ^ k)), Z.mod_pow2_bits_high by lia; done.
Qed.

Lemma land_ones_mod a n : 0 ≤ n → Z.land a (2 ^ n - 1) = a mod 2 ^ n.
Proof. intros. by rewrite <- Z.land_ones, Z.ones_equiv by lia. Qed.

(** ** Lemmas on arrays and byte ranges *)

Lemma arr_Some {A} (l : list A) i :
  0 ≤ i < Z.of_nat (length l) → is_Some (arr l i).
Proof.
  intros. unfold arr. rewrite bool_decide_true by lia.
  apply lookup_lt_is_Some. lia.
Qed.

(** An update in place writes the updated element. *)
Lemma alter_Some {A} (f : A → A) (l : list A) i x : l !! i = Some x → alter f i l = <[i := f x]> l.
Proof.
  intros E. apply list_eq. intros j. destruct (decide (j = i)) as [->|Hne].
  - rewrite list_lookup_alter_eq, E. simpl. by rewrite list_lookup_insert_eq by (by eapply lookup_lt_Some).
  - by rewrite list_lookup_alter_ne, list_lookup_insert_ne.
Qed.

Lemma length_slice off len l :
  (off + len ≤ length l)%nat → length (slice off len l) = len.
Proof. intros. unfold slice. len. Qed.

Lemma length_splice off x l :
  (off + length x ≤ length l)%nat → length (splice off x l) = length l.
Proof. intros. unfold splice. len. Qed.

Lemma slice_splice_eq off x l :
  (off + length x ≤ length l)%nat → slice off (length x) (splice off x l) = x.
Proof.
  intros. unfold slice, splice.
  rewrite drop_app_length' by len. by rewrite take_app_length.
Qed.

Lemma lookup_splice off x l i :
  (off + length x ≤ length l)%nat →
  splice off x l !! i =
    if decide (off ≤ i < off + length x)%nat then x !! (i - off)%nat else l !! i.
Proof.
  intros Hl. unfold splice. case_decide as Hi.
  - rewrite lookup_app_r by len. rewrite lookup_app_l by len. f_equal. len.
  - destruct (decide (i < off)%nat).
    + rewrite lookup_app_l by len. by rewrite lookup_take_lt by lia.
    + rewrite lookup_app_r by len. rewrite lookup_app_r by len.
      rewrite lookup_drop. f_equal. len.
Qed.

Lemma lookup_slice off len l i :
  slice off len l !! i = if decide (i < len)%nat then l !! (off + i)%nat else None.
Proof.
  unfold slice. case_decide.
  - by rewrite lookup_take_lt, lookup_drop by lia.
  - by rewrite lookup_take_ge by lia.
Qed.

(** Splicing a list's own slice back into a copy that agrees elsewhere gives
    the list. *)
Lemma splice_slice_agree off n l k :
  length l = length k → (off + n ≤ length l)%nat →
  (∀ i, ¬ (off ≤ i < off + n)%nat → l !! i = k !! i) →
  splice off (slice off n l) k = l.
Proof.
  intros Hlen Hn Hag. apply list_eq. intros i.
  rewrite lookup_splice by (rewrite length_slice; lia).
  rewrite length_slice by lia. case_decide.
  - rewrite lookup_slice, decide_True by lia. f_equal. lia.
  - symmetry. by apply Hag.
Qed.

Lemma splice_splice off x y l :
  length x = length y → (off + length x ≤ length l)%nat →
  splice off x (splice off y l) = splice off x l.
Proof.
  intros Hxy Hl. apply list_eq. intros i.
  rewrite !lookup_splice; rewrite ?length_splice; try lia.
  rewrite <- Hxy. by repeat case_decide.
Qed.

Lemma bytes_slice off n l : bytes l → bytes (slice off n l).
Proof. intros. unfold slice, bytes. by apply Forall_take, Forall_drop. Qed.

Lemma bytes_splice off x l : bytes x → bytes l → bytes (splice off x l).
Proof.
  intros. unfold splice, bytes. rewrite !Forall_app.
  split_and!; auto using Forall_take, Forall_drop.
Qed.

#[export] Hint Resolve bytes_slice bytes_splice : kernel.
#[export] Hint Rewrite @length_slice @length_splice using lia : len.
