(* ===== verification/Crc32.v ===== *)
(** * The journal's checksum (log.c, lines 61-91)

    [crc32_init] and [crc32] as the source writes them, a table built once and
    a byte-at-a-time loop over it, with the static table and its ready flag as
    explicit state.  The theorems relate the table-driven loop to the bitwise
    definition of the IEEE 802.3 CRC and show that a changed byte of the
    checksummed slice always changes the checksum. *)

From S2P Require Import Prelude.

Definition CRC_POLY : Z := 0xEDB88320.
Definition CRC_MASK : Z := 0xFFFFFFFF.

(** The two static variables of log.c. *)
Record crc_state := mk_crc_state {
  crc32_table : list Z;
  crc32_ready : bool;
}.

(** Before the first use: zeroed storage. *)
Definition crc_boot : crc_state := mk_crc_state (replicate 256 0) false.

(** One turn of the inner loop of [crc32_init]. *)
Definition crc_bit (c : Z) : Z :=
  if Z.land c 1 =? 0 then Z.shiftr c 1 else Z.lxor CRC_POLY (Z.shiftr c 1).

(** The inner loop, eight turns. *)
Definition crc_bits (c : Z) : Z := Nat.iter 8 crc_bit c.
#[global] Arguments crc_bit : simpl never.
#[global] Arguments crc_bits : simpl never.

Definition crc32_init (st : crc_state) : crc_state :=
  mk_crc_state
    (foldl (λ t i, <[i := crc_bits (Z.of_nat i)]> t) (crc32_table st) (seq 0 256))
    true.

(** The body of the loop of [crc32]. *)
Definition crc_update (table : list Z) (crc b : Z) : Z :=
  Z.lxor (nth (Z.to_nat (Z.land (Z.lxor crc b) 0xFF)) table 0) (Z.shiftr crc 8).

(** [crc32(data, len)]: [data] is the [len] bytes read. *)
Definition crc32 (st : crc_state) (data : list Z) : Z * crc_state :=
  let st := if crc32_ready st then st else crc32_init st in
  (Z.lxor (foldl (crc_update (crc32_table st)) CRC_MASK data) CRC_MASK, st).

(** ** Reference definition: one bit at a time, no table *)

Definition crc_byte (crc b : Z) : Z := crc_bits (Z.lxor crc b).
Definition crc_ref (data : list Z) : Z :=
  Z.lxor (foldl crc_byte CRC_MASK data) CRC_MASK.

(** The table is either not built yet or the one [crc32_init] builds. *)
Definition crc_wf (st : crc_state) : Prop :=
  length (crc32_table st) = 256%nat ∧
  (crc32_ready st = true →
   ∀ i, (i < 256)%nat → crc32_table st !! i = Some (crc_bits (Z.of_nat i))).

Definition w32 (z : Z) : Prop := 0 ≤ z < 2 ^ 32.

(** ** Machine words *)

Lemma w32_bits z : w32 z ↔ 0 ≤ z ∧ ∀ i, 32 ≤ i → Z.testbit z i = false.
Proof.
  unfold w32. split.
  - intros Hz. split; [lia|]. intros i Hi.
    rewrite <- (Z.mod_small z (2 ^ 32)) by lia. by apply Z.mod_pow2_bits_high.
  - intros [H0 Hb]. split; [done|].
    destruct (decide (z < 2 ^ 32)); [done|].
    assert (0 < z) by lia. pose proof (Z.log2_spec z ltac:(lia)) as Hlog.
    assert (32 ≤ Z.log2 z) by (apply Z.log2_le_pow2; lia).
    pose proof (Z.bit_log2 z ltac:(lia)) as Hbit. rewrite Hb in Hbit by lia. discriminate.
Qed.

Lemma w32_lxor a b : w32 a → w32 b → w32 (Z.lxor a b).
Proof.
  rewrite !w32_bits. intros [? Ha] [? Hb]. split.
  - apply Z.lxor_nonneg. lia.
  - intros i Hi. by rewrite Z.lxor_spec, Ha, Hb by done.
Qed.

Lemma w32_shiftr a n : 0 ≤ n → w32 a → w32 (Z.shiftr a n).
Proof.
  rewrite !w32_bits. intros ? [? Ha]. split.
  - by apply Z.shiftr_nonneg.
  - intros i Hi. rewrite Z.shiftr_spec by lia. apply Ha. lia.
Qed.

Lemma w32_byte b : is_byte b → w32 b.
Proof. unfold is_byte, w32. lia. Qed.

#[export] Hint Resolve w32_lxor w32_shiftr w32_byte : kernel.

Lemma land1_testbit c : (Z.land c 1 =? 0) = negb (Z.testbit c 0).
Proof.
  change 1 with (Z.ones 1). rewrite Z.land_ones by lia.
  change (2 ^ 1) with 2. rewrite Zmod_odd, <- Z.bit0_odd.
  by destruct (Z.testbit c 0).
Qed.

Lemma crc_bit_alt c :
  crc_bit c = Z.lxor (Z.shiftr c 1) (if Z.testbit c 0 then CRC_POLY else 0).
Proof.
  unfold crc_bit. rewrite land1_testbit. destruct (Z.testbit c 0); simpl.
  - apply Z.lxor_comm.
  - by rewrite Z.lxor_0_r.
Qed.

Lemma w32_crc_bit c : w32 c → w32 (crc_bit c).
Proof.
  intros. rewrite crc_bit_alt. apply w32_lxor.
  - apply w32_shiftr; [lia|done].
  - destruct (Z.testbit c 0); unfold w32, CRC_POLY; lia.
Qed.

Lemma w32_crc_bits c : w32 c → w32 (crc_bits c).
Proof. intros. unfold crc_bits. simpl. repeat apply w32_crc_bit. done. Qed.

(** ** Linearity *)

Lemma crc_bit_lxor a b : crc_bit (Z.lxor a b) = Z.lxor (crc_bit a) (crc_bit b).
Proof.
  rewrite !crc_bit_alt, Z.shiftr_lxor, Z.lxor_spec.
  set (p := CRC_POLY).
  apply Z.bits_inj'. intros i Hi. rewrite !Z.lxor_spec.
  destruct (Z.testbit a 0), (Z.testbit b 0); simpl;
    rewrite ?Z.bits_0; destruct (Z.testbit (Z.shiftr a 1) i),
    (Z.testbit (Z.shiftr b 1) i), (Z.testbit p i); reflexivity.
Qed.

Lemma crc_bits_lxor a b : crc_bits (Z.lxor a b) = Z.lxor (crc_bits a) (crc_bits b).
Proof. unfold crc_bits. simpl. by rewrite !crc_bit_lxor. Qed.

(** A word whose low bits are zero is only shifted. *)
Lemma crc_bit_shift c : Z.testbit c 0 = false → crc_bit c = Z.shiftr c 1.
Proof. intros H. rewrite crc_bit_alt, H. by rewrite Z.lxor_0_r. Qed.

Lemma crc_iter_shift n c :
  (∀ i, 0 ≤ i < Z.of_nat n → Z.testbit c i = false) →
  Nat.iter n crc_bit c = Z.shiftr c (Z.of_nat n).
Proof.
  induction n as [|n IH]; intros H; [by rewrite Z.shiftr_0_r|].
  rewrite Nat.iter_succ, IH by (intros; apply H; lia).
  rewrite crc_bit_shift.
  - rewrite Z.shiftr_shiftr by lia. f_equal. lia.
  - rewrite Z.shiftr_spec by lia. apply H. lia.
Qed.

(** [x] is its low byte plus the rest. *)
Lemma low_high_byte x :
  x = Z.lxor (Z.land x 0xFF) (Z.shiftl (Z.shiftr x 8) 8).
Proof.
  apply Z.bits_inj'. intros i Hi. change 0xFF with (Z.ones 8).
  rewrite Z.lxor_spec, Z.land_spec.
  destruct (decide (i < 8)).
  - rewrite Z.ones_spec_low, Z.shiftl_spec_low by lia.
    by rewrite andb_true_r, xorb_false_r.
  - rewrite Z.ones_spec_high, Z.shiftl_spec, Z.shiftr_spec by lia.
    rewrite andb_false_r. simpl. f_equal. lia.
Qed.

Lemma crc_bits_table x :
  crc_bits x = Z.lxor (crc_bits (Z.land x 0xFF)) (Z.shiftr x 8).
Proof.
  rewrite (low_high_byte x) at 1. rewrite crc_bits_lxor. f_equal.
  unfold crc_bits. rewrite crc_iter_shift.
  - apply Z.bits_inj'. intros i Hi.
    rewrite Z.shiftr_spec, Z.shiftl_spec by lia. f_equal. simpl. lia.
  - intros i Hi. apply Z.shiftl_spec_low. lia.
Qed.

(** ** Injectivity *)

(** The polynomial has its top bit set, so a turn loses no information. *)
Lemma crc_bit_zero c : w32 c → crc_bit c = 0 → c = 0.
Proof.
  intros Hc H. rewrite crc_bit_alt in H.
  assert (Z.testbit (Z.shiftr c 1) 31 = false) as H31.
  { apply w32_bits in Hc as [_ Hb]. rewrite Z.shiftr_spec by lia. apply Hb. lia. }
  destruct (Z.testbit c 0) eqn:E.
  - apply (f_equal (λ z, Z.testbit z 31)) in H.
    rewrite Z.lxor_spec, H31 in H. discriminate.
  - rewrite Z.lxor_0_r in H. apply Z.bits_inj'. intros i Hi. rewrite Z.bits_0.
    destruct (decide (i = 0)) as [->|]; [done|].
    replace i with ((i - 1) + 1) by lia.
    rewrite <- Z.shiftr_spec by lia. rewrite H. apply Z.bits_0.
Qed.

Lemma crc_bit_inj a b : w32 a → w32 b → crc_bit a = crc_bit b → a = b.
Proof.
  intros Ha Hb H. apply Z.lxor_eq. apply crc_bit_zero; [by apply w32_lxor|].
  by rewrite crc_bit_lxor, H, Z.lxor_nilpotent.
Qed.

Lemma crc_bits_inj a b : w32 a → w32 b → crc_bits a = crc_bits b → a = b.
Proof.
  intros Ha Hb. unfold crc_bits. simpl. intros H.
  repeat (apply crc_bit_inj in H; [|repeat apply w32_crc_bit; done..]). done.
Qed.

Lemma lxor_inj_l a b c : Z.lxor a c = Z.lxor b c → a = b.
Proof.
  intros H. apply (f_equal (λ z, Z.lxor z c)) in H.
  by rewrite !Z.lxor_assoc, Z.lxor_nilpotent, !Z.lxor_0_r in H.
Qed.

Lemma w32_crc_fold data c : bytes data → w32 c → w32 (foldl crc_byte c data).
Proof.
  intros Hd. revert c. induction Hd; intros c Hc; simpl; [done|].
  apply IHHd. apply w32_crc_bits. auto with kernel.
Qed.

Lemma crc_fold_inj data c c' :
  bytes data → w32 c → w32 c' →
  foldl crc_byte c data = foldl crc_byte c' data → c = c'.
Proof.
  intros Hd. revert c c'. induction Hd as [|b data Hb Hd IH]; intros c c' Hc Hc'; simpl; [done|].
  intros H. apply IH in H; [|apply w32_crc_bits; auto with kernel..].
  apply crc_bits_inj in H; [|auto with kernel..]. by apply lxor_inj_l in H.
Qed.

(** ** The table *)

Lemma foldl_insert_lookup {A} (f : nat → A) (t : list A) n i :
  (n ≤ length t)%nat → (i < n)%nat →
  foldl (λ t i, <[i := f i]> t) t (seq 0 n) !! i = Some (f i).
Proof.
  intros Hn. assert (length (foldl (λ t i, <[i := f i]> t) t (seq 0 n)) = length t) as Hl.
  { clear Hn. induction n as [|n IH]; [done|].
    rewrite seq_S, foldl_app. simpl. by rewrite length_insert. }
  revert i. induction n as [|n IH]; intros i Hi; [lia|].
  rewrite seq_S, foldl_app in *. simpl in *. rewrite length_insert in Hl.
  destruct (decide (i = n)) as [->|].
  - apply list_lookup_insert_eq. lia.
  - rewrite list_lookup_insert_ne by lia. apply IH; lia.
Qed.

Lemma foldl_insert_length {A} (f : nat → A) (l : list nat) (t : list A) :
  length (foldl (λ t i, <[i := f i]> t) t l) = length t.
Proof. revert t. induction l as [|x l IH]; intros t; simpl; [done|]. by rewrite IH, length_insert. Qed.

Lemma crc_boot_wf : crc_wf crc_boot.
Proof. split; [done|]. discriminate. Qed.

Lemma crc32_init_wf st : length (crc32_table st) = 256%nat → crc_wf (crc32_init st).
Proof.
  intros H. split; cbn [crc32_init crc32_table crc32_ready].
  - by rewrite foldl_insert_length.
  - intros _ i Hi. apply (foldl_insert_lookup (λ i, crc_bits (Z.of_nat i))); lia.
Qed.

Lemma land_ff_range x : 0 ≤ Z.land x 0xFF < 256.
Proof.
  change 0xFF with (Z.ones 8). rewrite Z.land_ones by lia.
  apply Z.mod_pos_bound. lia.
Qed.

Lemma crc_update_byte st crc b :
  crc_wf st → crc32_ready st = true → is_byte b →
  crc_update (crc32_table st) crc b = crc_byte crc b.
Proof.
  intros [_ Ht] Hr Hb. unfold crc_update, crc_byte.
  set (x := Z.lxor crc b). rewrite (crc_bits_table x).
  pose proof (land_ff_range x).
  rewrite (nth_lookup_Some _ _ _ (crc_bits (Z.land x 0xFF))).
  - f_equal. unfold x. rewrite Z.shiftr_lxor.
    replace (Z.shiftr b 8) with 0; [by rewrite Z.lxor_0_r|].
    symmetry. apply Z.shiftr_eq_0_iff. unfold is_byte in Hb.
    destruct (decide (b = 0)); [auto|]. right. split; [lia|].
    apply Z.log2_lt_pow2; lia.
  - rewrite Ht by (auto; lia). by rewrite Z2Nat.id by lia.
Qed.

(** What the rest of the journal uses: whatever state the table is in, the
    checksum is the reference CRC and the table is well formed afterwards. *)
Lemma crc32_value st data :
  crc_wf st → bytes data →
  (crc32 st data).1 = crc_ref data ∧ crc_wf (crc32 st data).2.
Proof.
  intros Hwf Hd. unfold crc32, crc_ref. simpl.
  assert (crc_wf (if crc32_ready st then st else crc32_init st) ∧
          crc32_ready (if crc32_ready st then st else crc32_init st) = true) as [Hwf' Hr].
  { destruct (crc32_ready st) eqn:E; [done|]. split; [|done].
    by apply crc32_init_wf, Hwf. }
  split; [|done]. f_equal. generalize CRC_MASK.
  induction Hd as [|b data Hb Hd IH]; intros c; simpl; [done|].
  by rewrite (crc_update_byte _ _ _ Hwf' Hr Hb), IH.
Qed.

Lemma crc_ref_w32 data : bytes data → w32 (crc_ref data).
Proof.
  intros. apply w32_lxor; [|unfold w32, CRC_MASK; lia].
  apply w32_crc_fold; [done|]. unfold w32, CRC_MASK; lia.
Qed.

Lemma crc_ref_byte l1 l2 a b :
  bytes l1 → bytes l2 → is_byte a → is_byte b →
  crc_ref (l1 ++ a :: l2) = crc_ref (l1 ++ b :: l2) → a = b.
Proof.
  intros H1 H2 Ha Hb H. unfold crc_ref in H. apply lxor_inj_l in H.
  rewrite !foldl_app in H. simpl in H.
  assert (w32 (foldl crc_byte CRC_MASK l1)) as Hw.
  { apply w32_crc_fold; [done|]. unfold w32, CRC_MASK; lia. }
  apply crc_fold_inj in H; [|done|apply w32_crc_bits; auto with kernel..].
  apply crc_bits_inj in H; [|auto with kernel..].
  rewrite !(Z.lxor_comm (foldl _ _ _)) in H. by apply lxor_inj_l in H.
Qed.

(** ** Main theorems *)

(** C34. [crc32] computes CRC-32: whether or not the table has been built, the
    table-driven loop returns the remainder the bit-by-bit algorithm with the
    reflected polynomial 0xEDB88320 defines, and leaves a correct table. *)
Theorem crc32_is_crc st data :
  crc_wf st → bytes data → (crc32 st data).1 = crc_ref data ∧ crc_wf (crc32 st data).2.
Proof. apply crc32_value. Qed.

(** The check value of CRC-32, the ASCII string 123456789. *)
Lemma crc32_is_crc_witness :
  (crc32 crc_boot [49; 50; 51; 52; 53; 54; 55; 56; 57]).1 = 0xCBF43926.
Proof.
  destruct (crc32_is_crc crc_boot [49; 50; 51; 52; 53; 54; 55; 56; 57]) as [-> _].
  - apply crc_boot_wf.
  - repeat constructor; unfold is_byte; lia.
  - vm_compute. reflexivity.
Defined.

(** The checksum detects every change of a single byte: two slices that
    differ in one byte have different checksums. *)
Theorem crc32_detects_byte st l1 l2 x y :
  crc_wf st → bytes l1 → bytes l2 → is_byte x → is_byte y → x ≠ y →
  (crc32 st (l1 ++ x :: l2)).1 ≠ (crc32 st (l1 ++ y :: l2)).1.
Proof.
  intros Hw H1 H2 Hx Hy Hne E. apply Hne.
  assert (∀ z, is_byte z → bytes (l1 ++ z :: l2)) as Hb by (intros; apply Forall_app; split; [|constructor]; done).
  rewrite (proj1 (crc32_value st _ Hw (Hb x Hx))), (proj1 (crc32_value st _ Hw (Hb y Hy))) in E.
  by apply (crc_ref_byte l1 l2).
Qed.

Lemma crc32_detects_byte_witness :
  (crc32 crc_boot ([7] ++ 1 :: [9])).1 ≠ (crc32 crc_boot ([7] ++ 2 :: [9])).1.
Proof.
  apply crc32_detects_byte; [apply crc_boot_wf|..|lia];
    repeat constructor; unfold is_byte; lia.
Defined.
