(* ===== verification/Layout.v ===== *)
(** * On-disk formats and constants (param.h, fs.h, stat.h, buf.h, log.c)

    The structs the kernel lays over a 512-byte block: the super block, the
    on-disk inode, the directory entry and the log header.  A struct access is
    a little-endian read or write at the field's byte offset, as the i386 ABI
    lays the fields out.  The theorems are the encode/decode round trips and
    the frame facts the other components use. *)

From S2P Require Import Prelude.

(** ** Constants *)

Definition NPROC : Z := 64.
Definition NOFILE : Z := 16.
Definition NFILE : Z := 100.
Definition NINODE : Z := 50.
Definition NDEV : Z := 10.
Definition ROOTDEV : Z := 1.
Definition MAXOPBLOCKS : Z := 10.
Definition LOGSIZE : Z := MAXOPBLOCKS * 3.
Definition NBUF : nat := 30.
Definition FSSIZE : Z := 1000.

Definition ROOTINO : Z := 1.
Definition BSIZE : Z := 512.
Definition NDIRECT : Z := 12.
Definition NINDIRECT : Z := BSIZE / 4.
Definition MAXFILE : Z := NDIRECT + NINDIRECT.
Definition SIZEOF_DINODE : Z := 64.
Definition SIZEOF_DIRENT : Z := 16.
Definition SIZEOF_SUPERBLOCK : Z := 28.
Definition IPB : Z := BSIZE / SIZEOF_DINODE.
Definition BPB : Z := BSIZE * 8.
Definition DIRSIZ : Z := 14.

Definition B_VALID : Z := 0x2.
Definition B_DIRTY : Z := 0x4.

Definition T_DIR : Z := 1.
Definition T_FILE : Z := 2.
Definition T_DEV : Z := 3.

(** ** Blocks *)

Definition block : Type := list Z.
Definition zero_block : block := replicate (Z.to_nat BSIZE) 0.
Definition block_ok (b : block) : Prop := length b = Z.to_nat BSIZE ∧ bytes b.

(** ** Little-endian fields *)

Fixpoint le_bytes (n : nat) (z : Z) : list Z :=
  match n with
  | O => []
  | S n' => z mod 256 :: le_bytes n' (z / 256)
  end.

Fixpoint le_val (l : list Z) : Z :=
  match l with
  | [] => 0
  | b :: l' => b + 256 * le_val l'
  end.

(** A [uint] or [ushort] field at byte offset [off] of a struct. *)
Definition rd32 (off : nat) (b : list Z) : Z := le_val (slice off 4 b).
Definition wr32 (off : nat) (v : Z) (b : list Z) : list Z := splice off (le_bytes 4 v) b.
Definition rd16 (off : nat) (b : list Z) : Z := le_val (slice off 2 b).
Definition wr16 (off : nat) (v : Z) (b : list Z) : list Z := splice off (le_bytes 2 v) b.

(** ** struct superblock *)

Record superblock := mk_superblock {
  sb_size : Z;
  sb_nblocks : Z;
  sb_ninodes : Z;
  sb_nlog : Z;
  sb_logstart : Z;
  sb_inodestart : Z;
  sb_bmapstart : Z;
}.

Definition sb_decode (b : list Z) : superblock :=
  mk_superblock (rd32 0 b) (rd32 4 b) (rd32 8 b) (rd32 12 b)
    (rd32 16 b) (rd32 20 b) (rd32 24 b).

Definition sb_encode (s : superblock) : list Z :=
  le_bytes 4 (sb_size s) ++ le_bytes 4 (sb_nblocks s) ++ le_bytes 4 (sb_ninodes s) ++
  le_bytes 4 (sb_nlog s) ++ le_bytes 4 (sb_logstart s) ++
  le_bytes 4 (sb_inodestart s) ++ le_bytes 4 (sb_bmapstart s).

(** Block containing inode [i]; block of the free map containing the bit for
    block [b]. *)
Definition IBLOCK (i : Z) (sb : superblock) : Z := u32 (i / IPB + sb_inodestart sb).
Definition BBLOCK (b : Z) (sb : superblock) : Z := u32 (b / BPB + sb_bmapstart sb).

(** ** struct dinode *)

Record dinode := mk_dinode {
  di_type : Z;
  di_major : Z;
  di_minor : Z;
  di_nlink : Z;
  di_size : Z;
  di_addrs : list Z;
}.

(** The 13 words of [addrs], at byte 12 of the inode. *)
Definition addrs_decode (b : list Z) : list Z :=
  (λ i : nat, rd32 (12 + 4 * i) b) <$> seq 0 13.
Definition addrs_encode (l : list Z) : list Z := concat (le_bytes 4 <$> l).

Definition di_decode (b : list Z) : dinode :=
  mk_dinode (s16 (rd16 0 b)) (s16 (rd16 2 b)) (s16 (rd16 4 b)) (s16 (rd16 6 b))
    (rd32 8 b) (addrs_decode b).

Definition di_encode (d : dinode) : list Z :=
  le_bytes 2 (di_type d) ++ le_bytes 2 (di_major d) ++ le_bytes 2 (di_minor d) ++
  le_bytes 2 (di_nlink d) ++ le_bytes 4 (di_size d) ++ addrs_encode (di_addrs d).

Definition is_short (z : Z) : Prop := - 2 ^ 15 ≤ z < 2 ^ 15.
Definition is_uint (z : Z) : Prop := 0 ≤ z < 2 ^ 32.

Definition dinode_wf (d : dinode) : Prop :=
  is_short (di_type d) ∧ is_short (di_major d) ∧ is_short (di_minor d) ∧
  is_short (di_nlink d) ∧ is_uint (di_size d) ∧
  length (di_addrs d) = 13%nat ∧ Forall is_uint (di_addrs d).

(** ** struct dirent *)

Record dirent := mk_dirent { de_inum : Z; de_name : list Z }.

Definition de_decode (b : list Z) : dirent :=
  mk_dirent (rd16 0 b) (slice 2 (Z.to_nat DIRSIZ) b).
Definition de_encode (d : dirent) : list Z := le_bytes 2 (de_inum d) ++ de_name d.

Definition dirent_wf (d : dirent) : Prop :=
  0 ≤ de_inum d < 2 ^ 16 ∧ length (de_name d) = Z.to_nat DIRSIZ ∧ bytes (de_name d).

(** ** struct logheader *)

Definition SIZEOF_LOGHEADER : Z := 4 + 4 * (4 * LOGSIZE).
Definition LH_BLOCK : nat := 4.
Definition LH_CKSUM : nat := 124.
Definition LH_OFFSET : nat := 244.
Definition LH_LEN : nat := 364.

(** ** Lemmas *)

Lemma length_le_bytes n z : length (le_bytes n z) = n.
Proof. revert z. induction n; intros; simpl; auto. Qed.

Lemma bytes_le_bytes n z : bytes (le_bytes n z).
Proof.
  revert z. induction n; intros z; simpl; constructor; [|by apply IHn].
  apply Z.mod_pos_bound. lia.
Qed.

Lemma le_val_bytes n z : le_val (le_bytes n z) = z mod 256 ^ Z.of_nat n.
Proof.
  revert z. induction n as [|n IH]; intros z; cbn [le_bytes le_val].
  - by rewrite Z.mod_1_r.
  - rewrite IH, Nat2Z.inj_succ, Z.pow_succ_r by lia.
    by rewrite Z.rem_mul_r by lia.
Qed.

Lemma le_val_range l : bytes l → 0 ≤ le_val l < 256 ^ Z.of_nat (length l).
Proof.
  induction 1 as [|b l Hb Hl IH]; cbn [le_val length]; [by split|].
  rewrite Nat2Z.inj_succ, Z.pow_succ_r by lia. unfold is_byte in Hb. nia.
Qed.

Lemma le_bytes_val l : bytes l → le_bytes (length l) (le_val l) = l.
Proof.
  induction 1 as [|b l Hb Hl IH]; simpl; [done|]. unfold is_byte in Hb.
  f_equal.
  - rewrite Z.mul_comm, Z_mod_plus_full, Z.mod_small; lia.
  - rewrite Z.mul_comm, Z.div_add, Z.div_small by lia. done.
Qed.

Lemma le_val_zeros n : le_val (replicate n 0) = 0.
Proof. induction n as [|n IH]; cbn [replicate le_val]; lia. Qed.

#[global] Opaque le_bytes le_val.
#[export] Hint Rewrite length_le_bytes : len.
#[export] Hint Resolve bytes_le_bytes : kernel.

Lemma rd32_range off b : bytes b → (off + 4 ≤ length b)%nat → is_uint (rd32 off b).
Proof.
  intros Hb Hl. unfold rd32, is_uint.
  pose proof (le_val_range (slice off 4 b) (bytes_slice _ _ _ Hb)) as H.
  rewrite length_slice in H by lia. exact H.
Qed.

Lemma rd32_wr32_eq off v b :
  (off + 4 ≤ length b)%nat → rd32 off (wr32 off v b) = u32 v.
Proof.
  intros. unfold rd32, wr32.
  rewrite <- (length_le_bytes 4 v) at 1.
  rewrite slice_splice_eq by (rewrite length_le_bytes; lia).
  by rewrite le_val_bytes.
Qed.

(** Reading outside the bytes a splice changed. *)
Lemma slice_splice_ne off n o x l :
  (o + length x ≤ length l)%nat →
  (off + n ≤ o ∨ o + length x ≤ off)%nat →
  slice off n (splice o x l) = slice off n l.
Proof.
  intros Hl Hd. apply list_eq. intros i. rewrite !lookup_slice.
  case_decide; [|done]. rewrite lookup_splice by lia.
  rewrite decide_False by lia. done.
Qed.

Lemma rd32_wr32_ne o off v b :
  (off + 4 ≤ length b)%nat → (o + 4 ≤ off ∨ off + 4 ≤ o)%nat →
  rd32 o (wr32 off v b) = rd32 o b.
Proof.
  intros. unfold rd32, wr32. rewrite slice_splice_ne; rewrite ?length_le_bytes; auto.
Qed.

Lemma length_wr32 off v b : (off + 4 ≤ length b)%nat → length (wr32 off v b) = length b.
Proof. intros. unfold wr32. rewrite length_splice; rewrite ?length_le_bytes; lia. Qed.

Lemma bytes_wr32 off v b : bytes b → bytes (wr32 off v b).
Proof. intros. unfold wr32. auto with kernel. Qed.

Lemma block_ok_wr32 off v b :
  (off + 4 ≤ Z.to_nat BSIZE)%nat → block_ok b → block_ok (wr32 off v b).
Proof.
  intros Ho [Hl Hb]. split; [rewrite length_wr32; lia|by apply bytes_wr32].
Qed.

Lemma block_ok_splice off x b :
  (off + length x ≤ Z.to_nat BSIZE)%nat → bytes x → block_ok b → block_ok (splice off x b).
Proof.
  intros Ho Hx [Hl Hb]. split; [rewrite length_splice; lia|by apply bytes_splice].
Qed.

Lemma zero_block_ok : block_ok zero_block.
Proof.
  split; [apply length_replicate|]. apply Forall_replicate. unfold is_byte. lia.
Qed.

#[export] Hint Resolve bytes_wr32 block_ok_wr32 block_ok_splice zero_block_ok : kernel.

Lemma s16_u16 z : is_short z → s16 (z mod 256 ^ 2) = z.
Proof.
  unfold is_short, s16. change (256 ^ 2) with (2 ^ 16). intros.
  rewrite Zplus_mod_idemp_l, Z.mod_small; lia.
Qed.

(** A field read from a concatenation of fields. *)
Lemma slice_app_skip off n l1 l2 :
  length l1 = off → slice off n (l1 ++ l2) = slice 0 n l2.
Proof. intros <-. unfold slice. by rewrite drop_app_length, drop_0. Qed.

Lemma slice_app_here n l1 l2 : length l1 = n → slice 0 n (l1 ++ l2) = l1.
Proof. intros <-. unfold slice. by rewrite drop_0, take_app_length. Qed.

Lemma slice_slice_app off n l1 l2 :
  (length l1 ≤ off)%nat → slice off n (l1 ++ l2) = slice (off - length l1) n l2.
Proof.
  intros. unfold slice. rewrite drop_app, drop_ge by lia. done.
Qed.

Lemma length_addrs_encode l : length (addrs_encode l) = (4 * length l)%nat.
Proof.
  unfold addrs_encode. induction l as [|a l IH]; [done|].
  rewrite fmap_cons. cbn [concat length]. rewrite length_app, IH, length_le_bytes. lia.
Qed.

Lemma addrs_encode_slice l i a :
  l !! i = Some a → slice (4 * i) 4 (addrs_encode l) = le_bytes 4 a.
Proof.
  unfold addrs_encode. revert i. induction l as [|x l IH]; intros [|i] H; try done;
    rewrite fmap_cons; cbn [concat]; simpl in H.
  - inversion H; subst. apply slice_app_here. apply length_le_bytes.
  - rewrite slice_slice_app by (rewrite length_le_bytes; lia).
    rewrite length_le_bytes. rewrite <- (IH i H). f_equal. lia.
Qed.

(** ** Round trips *)

Lemma sb_decode_encode s :
  is_uint (sb_size s) → is_uint (sb_nblocks s) → is_uint (sb_ninodes s) →
  is_uint (sb_nlog s) → is_uint (sb_logstart s) → is_uint (sb_inodestart s) →
  is_uint (sb_bmapstart s) → ∀ rest, sb_decode (sb_encode s ++ rest) = s.
Proof.
  intros. unfold sb_decode, sb_encode, rd32. destruct s; simpl in *.
  rewrite <- !app_assoc.
  f_equal; repeat (rewrite slice_slice_app by (rewrite length_le_bytes; lia);
                   rewrite length_le_bytes; simpl Nat.sub);
    rewrite slice_app_here by (apply length_le_bytes);
    rewrite le_val_bytes; apply u32_small; done.
Qed.

Lemma length_di_encode d : dinode_wf d → length (di_encode d) = Z.to_nat SIZEOF_DINODE.
Proof.
  intros (_ & _ & _ & _ & _ & Ha & _). unfold di_encode.
  rewrite !length_app, !length_le_bytes, length_addrs_encode, Ha. done.
Qed.

Lemma bytes_di_encode d : bytes (di_encode d).
Proof.
  unfold di_encode, bytes. rewrite !Forall_app.
  split_and!; try apply bytes_le_bytes. unfold addrs_encode.
  induction (di_addrs d) as [|a l IH]; [constructor|].
  rewrite fmap_cons. cbn [concat]. rewrite Forall_app. split; [apply bytes_le_bytes|done].
Qed.

Lemma di_decode_encode d : dinode_wf d → di_decode (di_encode d) = d.
Proof.
  intros (Ht & Hma & Hmi & Hn & Hs & Hl & Ha). unfold di_decode, rd16, rd32.
  destruct d as [ty ma mi nl sz ad]; simpl in *. unfold di_encode; simpl.
  f_equal; [..|apply list_eq; intros i; unfold addrs_decode;
      rewrite list_lookup_fmap; destruct (ad !! i) as [a|] eqn:E].
  1-5: repeat (rewrite slice_slice_app by (rewrite length_le_bytes; lia);
               rewrite length_le_bytes; simpl Nat.sub);
       rewrite slice_app_here by (apply length_le_bytes);
       rewrite le_val_bytes; by (apply s16_u16 || apply u32_small).
  - assert (i < 13)%nat by (rewrite <- Hl; by eapply lookup_lt_Some).
    rewrite lookup_seq_lt by lia. cbn [fmap option_fmap option_map Nat.add]. f_equal.
    unfold rd32.
    repeat (rewrite slice_slice_app by (rewrite length_le_bytes; lia); rewrite length_le_bytes).
    match goal with |- context [slice ?o 4 (addrs_encode _)] =>
      replace o with (4 * i)%nat by lia end.
    rewrite (addrs_encode_slice _ _ _ E), le_val_bytes.
    apply u32_small. by eapply Forall_lookup_1 in Ha.
  - apply lookup_ge_None in E. by rewrite lookup_seq_ge by lia.
Qed.

Lemma de_decode_encode d : dirent_wf d → de_decode (de_encode d) = d.
Proof.
  intros (Hi & Hl & Hb). unfold de_decode, de_encode, rd16. destruct d as [n nm]; simpl in *.
  rewrite slice_app_here by (apply length_le_bytes).
  rewrite le_val_bytes, slice_app_skip by (apply length_le_bytes). f_equal.
  - apply Z.mod_small. change (256 ^ Z.of_nat 2) with (2 ^ 16). lia.
  - unfold slice. rewrite drop_0, take_ge; [done|lia].
Qed.

Lemma length_de_encode d : dirent_wf d → length (de_encode d) = Z.to_nat SIZEOF_DIRENT.
Proof.
  intros (_ & Hl & _). unfold de_encode. by rewrite length_app, length_le_bytes, Hl.
Qed.

(** ** Main theorems *)

(** An on-disk inode read back is the inode written: decoding the 64 bytes
    an inode encodes to gives its type, device numbers, link count, size and
    thirteen block addresses, for every value of the C types. *)
Theorem dinode_roundtrip d :
  dinode_wf d → length (di_encode d) = Z.to_nat SIZEOF_DINODE ∧ di_decode (di_encode d) = d.
Proof. intros. split; [by apply length_di_encode|by apply di_decode_encode]. Qed.

Lemma dinode_roundtrip_witness :
  di_decode (di_encode (mk_dinode T_FILE 0 (-1) 1 4000 (seqZ 100 13))) =
    mk_dinode T_FILE 0 (-1) 1 4000 (seqZ 100 13).
Proof.
  apply dinode_roundtrip. unfold dinode_wf, is_short, is_uint. simpl. unfold T_FILE.
  split_and!; try lia. repeat constructor; lia.
Defined.
