(* ===== verification/Sleeplock.v ===== *)
(** * Sleep locks (sleeplock.c, sleeplock.h)

    A sleep lock is the [locked] word and the pid of its holder; the spin lock
    inside it makes each of the three operations one atomic step, and the loop
    of [acquiresleep] re-runs from the top after each wakeup, so a call either
    takes the lock or goes to sleep without changing it. *)

From S2P Require Import Prelude.

Record sleeplock := mk_sleeplock { sl_locked : Z; sl_pid : Z }.

Definition initsleeplock : sleeplock := mk_sleeplock 0 0.

(** [None]: the caller sleeps on the lock. *)
Definition acquiresleep (pid : Z) (lk : sleeplock) : option sleeplock :=
  if sl_locked lk =? 0 then Some (mk_sleeplock 1 pid) else None.

Definition releasesleep (lk : sleeplock) : sleeplock := mk_sleeplock 0 0.

Definition holdingsleep (pid : Z) (lk : sleeplock) : bool :=
  negb (sl_locked lk =? 0) && (sl_pid lk =? pid).

(** ** Processes on one lock

    What each process is doing: nothing with the lock, at the test of the
    [while] loop of [acquiresleep], asleep in that loop, or between its return
    from [acquiresleep] and its call of [releasesleep]. *)
Inductive slthread := SIdle | SWant | SAsleep | SHold.

(** [wakeup(lk)], on every process. *)
Definition sl_wake (t : slthread) : slthread := match t with SAsleep => SWant | _ => t end.

Record slsys := mk_slsys { sy_lock : sleeplock; sy_thr : gmap Z slthread }.

(** [releasesleep] by [pid], with its wakeup. *)
Definition sl_do_release (pid : Z) (s : slsys) : slsys :=
  mk_slsys (releasesleep (sy_lock s)) (<[pid := SIdle]> (sl_wake <$> sy_thr s)).

(** One section under [lk->lk] of one process.  A process calls
    [releasesleep] after it has returned from [acquiresleep]; [kill] makes a
    process that sleeps run again. *)
Inductive sl_step (s : slsys) : slsys → Prop :=
| sl_call pid : sy_thr s !! pid = Some SIdle → sl_step s (mk_slsys (sy_lock s) (<[pid := SWant]> (sy_thr s)))
| sl_take pid lk : sy_thr s !! pid = Some SWant → acquiresleep pid (sy_lock s) = Some lk →
    sl_step s (mk_slsys lk (<[pid := SHold]> (sy_thr s)))
| sl_block pid : sy_thr s !! pid = Some SWant → acquiresleep pid (sy_lock s) = None →
    sl_step s (mk_slsys (sy_lock s) (<[pid := SAsleep]> (sy_thr s)))
| sl_release pid : sy_thr s !! pid = Some SHold → sl_step s (sl_do_release pid s)
| sl_kill pid : sy_thr s !! pid = Some SAsleep → sl_step s (mk_slsys (sy_lock s) (<[pid := SWant]> (sy_thr s))).

Definition sl_init (pids : gset Z) : slsys := mk_slsys initsleeplock (gset_to_gmap SIdle pids).

(** The lock says who holds it, and nobody sleeps on a lock that is free. *)
Record sl_inv (s : slsys) : Prop := mk_sl_inv {
  si_hold : ∀ pid, sy_thr s !! pid = Some SHold ↔ holdingsleep pid (sy_lock s) = true;
  si_held : sl_locked (sy_lock s) ≠ 0 → ∃ pid, sy_thr s !! pid = Some SHold;
  si_asleep : ∀ pid, sy_thr s !! pid = Some SAsleep → sl_locked (sy_lock s) ≠ 0;
}.

(** ** Lemmas *)

Lemma acquiresleep_holding pid lk lk' :
  acquiresleep pid lk = Some lk' → holdingsleep pid lk' = true.
Proof.
  unfold acquiresleep, holdingsleep. case_match; [|done]. intros [= <-]. simpl.
  by rewrite Z.eqb_refl.
Qed.

Lemma holdingsleep_unique pid pid' lk :
  holdingsleep pid lk = true → holdingsleep pid' lk = true → pid = pid'.
Proof. unfold holdingsleep. rewrite !andb_true_iff, !Z.eqb_eq. lia. Qed.

Lemma holdingsleep_locked pid lk : holdingsleep pid lk = true → sl_locked lk ≠ 0.
Proof. unfold holdingsleep. rewrite andb_true_iff, negb_true_iff, Z.eqb_neq. tauto. Qed.

Lemma sl_init_inv pids : sl_inv (sl_init pids).
Proof. split; simpl; try done; intros pid; [split; [|done]|]; by intros [_ ?]%lookup_gset_to_gmap_Some. Qed.

(** A process that neither takes nor gives up the lock moves. *)
Lemma sl_move_inv s pid t t' :
  sl_inv s → sy_thr s !! pid = Some t → t ≠ SHold → t' ≠ SHold → (t' = SAsleep → sl_locked (sy_lock s) ≠ 0) →
  sl_inv (mk_slsys (sy_lock s) (<[pid := t']> (sy_thr s))).
Proof.
  intros [H1 H2 H3] Ht Hn Hn' Ha. split; simpl.
  - intros q. rewrite <- H1. destruct (decide (q = pid)) as [->|Hne]; [rewrite lookup_insert_eq, Ht; naive_solver|by rewrite lookup_insert_ne].
  - intros (q & Hq)%H2. exists q. rewrite lookup_insert_ne; [done|]. intros <-. congruence.
  - intros q. destruct (decide (q = pid)) as [->|Hne]; [rewrite lookup_insert_eq; intros [= ->]; by apply Ha|].
    rewrite lookup_insert_ne by done. apply H3.
Qed.

Lemma sl_take_inv s pid lk : sl_inv s → acquiresleep pid (sy_lock s) = Some lk → sl_inv (mk_slsys lk (<[pid := SHold]> (sy_thr s))).
Proof.
  intros [H1 _ H3] Ha. pose proof (acquiresleep_holding _ _ _ Ha) as Hh. unfold acquiresleep in Ha.
  destruct (sl_locked (sy_lock s) =? 0) eqn:Ez; [|done]. apply Z.eqb_eq in Ez. assert (∀ q, sy_thr s !! q ≠ Some SHold) as Hno.
  { intros q Hq%H1%holdingsleep_locked. done. }
  split; simpl.
  - intros q. destruct (decide (q = pid)) as [->|Hne]; [by rewrite lookup_insert_eq|]. rewrite lookup_insert_ne by done.
    split; [by intros ?%Hno|]. intros Hq. destruct Hne. by eapply holdingsleep_unique.
  - intros _. exists pid. apply lookup_insert_eq.
  - intros q _. by eapply holdingsleep_locked.
Qed.

Lemma sl_release_inv s pid : sl_inv s → sy_thr s !! pid = Some SHold → sl_inv (sl_do_release pid s).
Proof.
  intros [H1 _ _] Hp. pose proof (proj1 (H1 pid) Hp) as Hh. split; simpl; [|done|].
  - intros q. split; [|done]. intros Hq. exfalso. destruct (decide (q = pid)) as [->|Hne]; [by rewrite lookup_insert_eq in Hq|].
    rewrite lookup_insert_ne, lookup_fmap in Hq by done. destruct (sy_thr s !! q) as [[]|] eqn:Eq; simpl in Hq; try done.
    destruct Hne. by apply (holdingsleep_unique q pid (sy_lock s)); [apply H1|].
  - intros q Hq. exfalso. destruct (decide (q = pid)) as [->|Hne]; [by rewrite lookup_insert_eq in Hq|].
    rewrite lookup_insert_ne, lookup_fmap in Hq by done. by destruct (sy_thr s !! q) as [[]|].
Qed.

Lemma sl_step_inv s s' : sl_step s s' → sl_inv s → sl_inv s'.
Proof.
  intros [pid Hp|pid lk Hp Ha|pid Hp Ha|pid Hp|pid Hp] Hi.
  - by apply (sl_move_inv s pid SIdle).
  - by apply sl_take_inv.
  - apply (sl_move_inv s pid SWant); try done. intros _. unfold acquiresleep in Ha. by destruct (sl_locked (sy_lock s) =? 0) eqn:E; [|apply Z.eqb_neq in E].
  - by apply sl_release_inv.
  - by apply (sl_move_inv s pid SAsleep).
Qed.

(** C24. A sleep-lock excludes and loses no wakeup.  In every interleaving of
    processes that acquire, sleep, are woken or killed, and release, at most
    one process is between its return from [acquiresleep] and its
    [releasesleep], and it is the one that [holdingsleep] names; the lock can
    be taken exactly when there is none; and a process sleeps on the lock only
    while another holds it, so that a [releasesleep] is still to come. *)
Theorem sleeplock_excludes pids s :
  rtc sl_step (sl_init pids) s →
  (∀ p q, sy_thr s !! p = Some SHold → sy_thr s !! q = Some SHold → p = q) ∧
  (∀ p, sy_thr s !! p = Some SHold ↔ holdingsleep p (sy_lock s) = true) ∧
  (∀ p, is_Some (acquiresleep p (sy_lock s)) ↔ ∀ q, sy_thr s !! q ≠ Some SHold) ∧
  (∀ p, sy_thr s !! p = Some SAsleep → ∃ q, q ≠ p ∧ sy_thr s !! q = Some SHold).
Proof.
  intros Hr. assert (sl_inv s) as [H1 H2 H3].
  { revert Hr. apply (rtc_ind_r sl_inv); [apply sl_init_inv|]. intros ? ? _ Hs Hi. by eapply sl_step_inv. }
  split; [intros p q Hp%H1 Hq%H1; by eapply holdingsleep_unique|]. split; [exact H1|]. split.
  - intros p. unfold acquiresleep. destruct (sl_locked (sy_lock s) =? 0) eqn:E.
    + split; [|done]. intros _ q Hq%H1%holdingsleep_locked. lia.
    + apply Z.eqb_neq in E. split; [by intros [? ?]|]. intros Hno. destruct (H2 E) as [q Hq]. by destruct (Hno q).
  - intros p Hp. destruct (H2 (H3 p Hp)) as [q Hq]. exists q. split; [|done]. intros ->. congruence.
Qed.

(** Process 3 takes the lock, 4 and 5 sleep on it, 3 releases it and 5 takes
    it, 4 sleeps again. *)
Lemma sleeplock_excludes_witness : ∃ s, sy_lock s = mk_sleeplock 1 5 ∧ sy_thr s !! 3 = Some SIdle ∧ sy_thr s !! 4 = Some SAsleep ∧
  ∃ q, q ≠ 4 ∧ sy_thr s !! q = Some SHold.
Proof.
  eassert (rtc sl_step (sl_init {[3; 4; 5]}) _) as Hr.
  { eapply rtc_l; [apply (sl_call _ 3); reflexivity|]. eapply rtc_l; [eapply (sl_take _ 3); reflexivity|].
    eapply rtc_l; [apply (sl_call _ 4); reflexivity|]. eapply rtc_l; [apply (sl_block _ 4); reflexivity|].
    eapply rtc_l; [apply (sl_call _ 5); reflexivity|]. eapply rtc_l; [apply (sl_block _ 5); reflexivity|].
    eapply rtc_l; [apply (sl_release _ 3); reflexivity|]. eapply rtc_l; [eapply (sl_take _ 5); reflexivity|].
    eapply rtc_l; [apply (sl_block _ 4); reflexivity|]. apply rtc_refl. }
  destruct (sleeplock_excludes {[3; 4; 5]} _ Hr) as (_ & _ & _ & H). eexists. split; [|split; [|split; [|exact (H 4 ltac:(vm_compute; reflexivity))]]]; vm_compute; reflexivity.
Defined.
