(* ===== verification/Disk.v ===== *)
(** * The disk, the buffer header and the driver interface (buf.h)

    A drive is modelled by the image it held at power-on and the sequence of
    commands it has completed since, so that what a power failure may leave
    on the medium can be read off the sequence.  [DiskDriver] is what bio.c
    relies on from [iderw]; ide.c and memide.c both implement it. *)

From S2P Require Import Prelude Layout Sleeplock.

(** ** The drive *)

Inductive dop : Type :=
| DWrite (b : Z) (d : block)
| DFlush.

Record disk := mk_disk { d_base : Z → block; d_ops : list dop }.

(** The content a completed command leaves. *)
Definition img_apply (img : Z → block) (o : dop) : Z → block :=
  match o with
  | DWrite b d => <[b := d]> img
  | DFlush => img
  end.
Definition img_run (img : Z → block) (ops : list dop) : Z → block :=
  foldl img_apply img ops.

(** What a read returns: the last write, whether or not it is on the medium. *)
Definition disk_img (d : disk) : Z → block := img_run (d_base d) (d_ops d).
Definition disk_do (o : dop) (d : disk) : disk := mk_disk (d_base d) (d_ops d ++ [o]).

(** ** Power failure

    [sync_crash]: a drive that writes through; a failure leaves exactly the
    writes completed so far.  [cache_crash]: a drive with a volatile write
    cache; what precedes the last FLUSH CACHE is on the medium, and each block
    written since holds either its old content or any of the later writes. *)

Definition sync_crash (base : Z → block) (ops : list dop) (img : Z → block) : Prop :=
  ∀ b, img b = img_run base ops b.

Definition is_write (o : dop) : bool :=
  match o with DWrite _ _ => true | DFlush => false end.

Inductive cache_crash (base : Z → block) (ops : list dop) (img : Z → block) : Prop :=
| cache_crash_intro durable volatile :
    ops = durable ++ volatile →
    (durable = [] ∨ ∃ p, durable = p ++ [DFlush]) →
    forallb is_write volatile = true →
    (∀ b, img b = img_run base durable b ∨
          ∃ d, In (DWrite b d) volatile ∧ img b = d) →
    cache_crash base ops img.

(** ** struct buf

    [b_prev] and [b_next] are indices into the buffer array, the list head
    being the index after the last buffer.  [qnext] is the order of the driver's queue. *)

Record buf := mk_buf {
  b_flags : Z;
  b_dev : Z;
  b_blockno : Z;
  b_lock : sleeplock;
  b_refcnt : Z;
  b_prev : nat;
  b_next : nat;
  b_data : block;
}.

Definition buf_set_flags (f : Z) (b : buf) : buf :=
  mk_buf f (b_dev b) (b_blockno b) (b_lock b) (b_refcnt b) (b_prev b) (b_next b) (b_data b).
Definition buf_set_data (d : block) (b : buf) : buf :=
  mk_buf (b_flags b) (b_dev b) (b_blockno b) (b_lock b) (b_refcnt b) (b_prev b) (b_next b) d.
Definition buf_set_lock (l : sleeplock) (b : buf) : buf :=
  mk_buf (b_flags b) (b_dev b) (b_blockno b) l (b_refcnt b) (b_prev b) (b_next b) (b_data b).
Definition buf_set_refcnt (r : Z) (b : buf) : buf :=
  mk_buf (b_flags b) (b_dev b) (b_blockno b) (b_lock b) r (b_prev b) (b_next b) (b_data b).
Definition buf_set_prev (p : nat) (b : buf) : buf :=
  mk_buf (b_flags b) (b_dev b) (b_blockno b) (b_lock b) (b_refcnt b) p (b_next b) (b_data b).
Definition buf_set_next (n : nat) (b : buf) : buf :=
  mk_buf (b_flags b) (b_dev b) (b_blockno b) (b_lock b) (b_refcnt b) (b_prev b) n (b_data b).
Definition buf_set_id (dev blockno : Z) (b : buf) : buf :=
  mk_buf (b_flags b) dev blockno (b_lock b) (b_refcnt b) (b_prev b) (b_next b) (b_data b).

Definition has_flag (f : Z) (flags : Z) : bool := negb (Z.land flags f =? 0).
Definition b_valid (b : buf) : bool := has_flag B_VALID (b_flags b).
Definition b_dirty (b : buf) : bool := has_flag B_DIRTY (b_flags b).

(** Zeroed storage, as the buffer array is before [binit]. *)
Definition buf_zero : buf := mk_buf 0 0 0 initsleeplock 0 0 0 zero_block.

(** ** The driver interface *)

Class DiskDriver (D : Type) := {
  drv_iderw : buf → M D buf;
  drv_disk : D → Z → disk;
  drv_ready : D → Prop;
  drv_selected : D → Prop;
}.

(** What bio.c relies on: on a ready driver a locked buffer that is not valid
    is filled from the disk, and a dirty one is written to it and made clean;
    either leaves the root device the selected drive. *)
Class DiskDriverOk (D : Type) `{DiskDriver D} := {
  drv_read : ∀ pid b d,
    drv_ready d → holdingsleep pid (b_lock b) = true → b_flags b = 0 →
    b_dev b = ROOTDEV → 0 ≤ b_blockno b < FSSIZE →
    ∃ d', drv_iderw b pid d =
            Ret (buf_set_flags B_VALID
                   (buf_set_data (disk_img (drv_disk d ROOTDEV) (b_blockno b)) b)) d' ∧
          drv_ready d' ∧ drv_selected d' ∧
          drv_disk d' ROOTDEV = drv_disk d ROOTDEV;
  drv_write : ∀ pid b d,
    drv_ready d → holdingsleep pid (b_lock b) = true →
    b_flags b = B_DIRTY ∨ b_flags b = Z.lor B_VALID B_DIRTY →
    b_dev b = ROOTDEV → 0 ≤ b_blockno b < FSSIZE →
    ∃ d', drv_iderw b pid d = Ret (buf_set_flags B_VALID b) d' ∧
          drv_ready d' ∧ drv_selected d' ∧
          drv_disk d' ROOTDEV = disk_do (DWrite (b_blockno b) (b_data b)) (drv_disk d ROOTDEV);
}.

(** The write barrier log.c uses; it goes to the selected drive. *)
Class DiskFlush (D : Type) `{DiskDriver D} := { drv_ideflush : M D unit }.
Class DiskFlushOk (D : Type) `{DiskFlush D} := {
  drv_flush : ∀ pid d, drv_ready d → drv_selected d →
    ∃ d', drv_ideflush pid d = Ret tt d' ∧ drv_ready d' ∧ drv_selected d' ∧
          drv_disk d' ROOTDEV = disk_do DFlush (drv_disk d ROOTDEV);
}.

(** ** Lemmas on images *)

Lemma img_run_app img o1 o2 : img_run img (o1 ++ o2) = img_run (img_run img o1) o2.
Proof. apply foldl_app. Qed.

Lemma disk_img_do o d : disk_img (disk_do o d) = img_apply (disk_img d) o.
Proof. unfold disk_img, disk_do. simpl. by rewrite img_run_app. Qed.

Lemma img_apply_eq img b d : img_apply img (DWrite b d) b = d.
Proof. apply fn_lookup_insert. Qed.

Lemma img_apply_ne img b d b' : b ≠ b' → img_apply img (DWrite b d) b' = img b'.
Proof. apply fn_lookup_insert_ne. Qed.

(** The last write wins; a block nobody wrote keeps its content. *)
Lemma img_run_not_written img ops b :
  (∀ d, ¬ In (DWrite b d) ops) → img_run img ops b = img b.
Proof.
  revert img. induction ops as [|o ops IH]; intros img H; [done|].
  change (img_run img (o :: ops)) with (img_run (img_apply img o) ops). rewrite IH.
  - destruct o as [b' d|]; [|done]. apply img_apply_ne. intros ->. eapply H. by left.
  - intros d Hd. eapply H. by right.
Qed.
