(* ===== verification/Ide.v ===== *)
(** * The disk drivers (ide.c, memide.c)

    ide.c at the level of its port writes: [idestart] programs the controller's
    registers, the controller decodes a drive, a sector and a command from
    them, and [ideintr] completes the request at the head of the queue.  A
    process waiting in [iderw] waits for disk interrupts.  memide.c keeps the
    disk in memory.  Both are instances of [DiskDriver]; only ide.c has the
    flush command. *)

From S2P Require Import Prelude Layout Sleeplock Disk.

(** ** ide.c *)

Definition SECTOR_SIZE : Z := 512.
Definition IDE_BSY : Z := 0x80.
Definition IDE_DRDY : Z := 0x40.
Definition IDE_DF : Z := 0x20.
Definition IDE_ERR : Z := 0x01.
Definition IDE_CMD_READ : Z := 0x20.
Definition IDE_CMD_WRITE : Z := 0x30.
Definition IDE_CMD_RDMUL : Z := 0xc4.
Definition IDE_CMD_WRMUL : Z := 0xc5.
Definition IDE_CMD_FLUSH_CACHE : Z := 0xE7.

(** [id_poll] is what successive reads of the status port return while the
    driver waits; [id_regs] the controller's registers (latest value first);
    [id_done] the buffers whose waiters [ideintr] has woken. *)
Record ide_state := mk_ide_state {
  idequeue : list buf;
  id_done : list buf;
  havedisk1 : bool;
  id_poll : list Z;
  id_regs : list (Z * Z);
  id_drive : Z → disk;
}.

Definition ide_set_queue q st :=
  mk_ide_state q (id_done st) (havedisk1 st) (id_poll st) (id_regs st) (id_drive st).
Definition ide_set_done d st :=
  mk_ide_state (idequeue st) d (havedisk1 st) (id_poll st) (id_regs st) (id_drive st).
Definition ide_set_havedisk1 h st :=
  mk_ide_state (idequeue st) (id_done st) h (id_poll st) (id_regs st) (id_drive st).
Definition ide_set_regs r st :=
  mk_ide_state (idequeue st) (id_done st) (havedisk1 st) (id_poll st) r (id_drive st).
Definition ide_set_drive d st :=
  mk_ide_state (idequeue st) (id_done st) (havedisk1 st) (id_poll st) (id_regs st) d.

(** The polling loop of [idewait]: the first status with BSY clear and DRDY
    set, [None] while there is none. *)
Fixpoint idewait_poll (reads : list Z) : option Z :=
  match reads with
  | [] => None
  | r :: reads' =>
      if Z.land r (Z.lor IDE_BSY IDE_DRDY) =? IDE_DRDY then Some r else idewait_poll reads'
  end.

Definition idewait (checkerr : bool) : M ide_state Z :=
  st ← get;
  match idewait_poll (id_poll st) with
  | None => undef "idewait: drive never ready"
  | Some r =>
      if checkerr && negb (Z.land r (Z.lor IDE_DF IDE_ERR) =? 0) then mret (-1) else mret 0
  end.

Definition outb (port v : Z) : M ide_state unit :=
  modify (λ st, ide_set_regs ((port, u8 v) :: id_regs st) st).

(** The controller: a register is the last byte written to its port. *)
Fixpoint reg (port : Z) (regs : list (Z * Z)) : Z :=
  match regs with
  | [] => 0
  | (p, v) :: regs' => if p =? port then v else reg port regs'
  end.

Definition ctl_drive (regs : list (Z * Z)) : Z := Z.land (Z.shiftr (reg 0x1f6 regs) 4) 1.
Definition ctl_sector (regs : list (Z * Z)) : Z :=
  Z.lor (reg 0x1f3 regs) (Z.lor (Z.shiftl (reg 0x1f4 regs) 8)
    (Z.lor (Z.shiftl (reg 0x1f5 regs) 16) (Z.shiftl (Z.land (reg 0x1f6 regs) 0x0f) 24))).

(** [outsl(0x1f0, data, BSIZE/4)] after a write command: the drive takes the
    sector. *)
Definition outsl (data : block) : M ide_state unit :=
  modify (λ st, ide_set_drive
    (<[ctl_drive (id_regs st) :=
        disk_do (DWrite (ctl_sector (id_regs st)) data) (id_drive st (ctl_drive (id_regs st)))]>
     (id_drive st)) st).

(** [insl(0x1f0, data, BSIZE/4)] after a read command: the sector. *)
Definition insl : M ide_state block :=
  gets (λ st, disk_img (id_drive st (ctl_drive (id_regs st))) (ctl_sector (id_regs st))).

Definition idestart (b : buf) : M ide_state unit :=
  if FSSIZE <=? b_blockno b then panic "incorrect blockno" else
  let sector_per_block := BSIZE / SECTOR_SIZE in
  let sector := b_blockno b * sector_per_block in
  let read_cmd := if sector_per_block =? 1 then IDE_CMD_READ else IDE_CMD_RDMUL in
  let write_cmd := if sector_per_block =? 1 then IDE_CMD_WRITE else IDE_CMD_WRMUL in
  if 7 <? sector_per_block then panic "idestart" else
  idewait false ;;
  outb 0x3f6 0 ;;
  outb 0x1f2 sector_per_block ;;
  outb 0x1f3 (Z.land sector 0xff) ;;
  outb 0x1f4 (Z.land (Z.shiftr sector 8) 0xff) ;;
  outb 0x1f5 (Z.land (Z.shiftr sector 16) 0xff) ;;
  outb 0x1f6 (Z.lor 0xe0 (Z.lor (Z.shiftl (Z.land (b_dev b) 1) 4)
                                (Z.land (Z.shiftr sector 24) 0x0f))) ;;
  if b_dirty b then outb 0x1f7 write_cmd ;; outsl (b_data b)
  else outb 0x1f7 read_cmd.

(** The interrupt handler: the head of the queue is the active request. *)
Definition ideintr : M ide_state unit :=
  st ← get;
  match idequeue st with
  | [] => mret tt
  | b :: rest =>
      modify (ide_set_queue rest) ;;
      b ← (if b_dirty b then mret b else
           r ← idewait true;
           if 0 <=? r then data ← insl; mret (buf_set_data data b) else mret b);
      let b := buf_set_flags (Z.land (Z.lor (b_flags b) B_VALID) (Z.lnot B_DIRTY)) b in
      modify (λ st, ide_set_done (id_done st ++ [b]) st) ;;
      match rest with
      | [] => mret tt
      | b' :: _ => idestart b'
      end
  end.

(** A buffer is the one a waiter sleeps on when it holds the same block. *)
Definition same_block (b b' : buf) : bool :=
  (b_dev b =? b_dev b') && (b_blockno b =? b_blockno b').

(** [while((b->flags & (B_VALID|B_DIRTY)) != B_VALID) sleep(b, &idelock)]: each
    turn waits for a disk interrupt, and the loop ends when the handler has
    completed this buffer.  A queue of [n] requests needs [n] interrupts. *)
Fixpoint iderw_wait (fuel : nat) (b : buf) : M ide_state buf :=
  match fuel with
  | O => undef "iderw: no completion"
  | S fuel' =>
      ideintr ;;
      st ← get;
      match list_find (λ b', same_block b b' = true) (id_done st) with
      | Some (i, b') => modify (ide_set_done (delete i (id_done st))) ;; mret b'
      | None => iderw_wait fuel' b
      end
  end.

Definition iderw (b : buf) : M ide_state buf :=
  pid ← mypid;
  if negb (holdingsleep pid (b_lock b)) then panic "iderw: buf not locked" else
  if Z.land (b_flags b) (Z.lor B_VALID B_DIRTY) =? B_VALID
  then panic "iderw: nothing to do" else
  st ← get;
  if negb (b_dev b =? 0) && negb (havedisk1 st)
  then panic "iderw: ide disk 1 not present" else
  let q := idequeue st in
  modify (ide_set_queue (q ++ [b])) ;;
  when (bool_decide (q = [])) (idestart b) ;;
  iderw_wait (S (length q)) b.

(** [ideinit]: disk 1 is present when one of 1000 status reads is not zero. *)
Definition ideinit (status1 : list Z) : M ide_state unit :=
  idewait false ;;
  outb 0x1f6 (Z.lor 0xe0 (Z.shiftl 1 4)) ;;
  when (existsb (λ r, negb (r =? 0)) (take 1000 status1))
    (modify (ide_set_havedisk1 true)) ;;
  outb 0x1f6 (Z.lor 0xe0 (Z.shiftl 0 4)).

(** The command acts on the selected drive: FLUSH CACHE puts its cached
    writes on the medium. *)
Definition ideflush : M ide_state unit :=
  idewait false ;;
  outb 0x1f7 IDE_CMD_FLUSH_CACHE ;;
  modify (λ st, ide_set_drive
    (<[ctl_drive (id_regs st) := disk_do DFlush (id_drive st (ctl_drive (id_regs st)))]>
     (id_drive st)) st) ;;
  idewait false ;;
  mret tt.

(** ** memide.c *)

Record mem_state := mk_mem_state { memdisk : disk; disksize : Z }.

(** [ideinit] of memide.c: the linked-in image. *)
Definition mem_ideinit (img : Z → block) (size : Z) : mem_state :=
  mk_mem_state (mk_disk img []) (size / BSIZE).

Definition mem_iderw (b : buf) : M mem_state buf :=
  pid ← mypid;
  if negb (holdingsleep pid (b_lock b)) then panic "iderw: buf not locked" else
  if Z.land (b_flags b) (Z.lor B_VALID B_DIRTY) =? B_VALID
  then panic "iderw: nothing to do" else
  if negb (b_dev b =? 1) then panic "iderw: request not for disk 1" else
  st ← get;
  if disksize st <=? b_blockno b then panic "iderw: block out of range" else
  b ← (if b_dirty b then
         let b := buf_set_flags (Z.land (b_flags b) (Z.lnot B_DIRTY)) b in
         modify (λ st, mk_mem_state (disk_do (DWrite (b_blockno b) (b_data b)) (memdisk st))
                                    (disksize st)) ;;
         mret b
       else mret (buf_set_data (disk_img (memdisk st) (b_blockno b)) b));
  mret (buf_set_flags (Z.lor (b_flags b) B_VALID) b).

(** ** The interfaces *)

Definition ide_ready (st : ide_state) : Prop :=
  idequeue st = [] ∧ id_done st = [] ∧ havedisk1 st = true ∧
  ∃ r, idewait_poll (id_poll st) = Some r ∧ Z.land r (Z.lor IDE_DF IDE_ERR) = 0.

#[global] Instance ide_driver : DiskDriver ide_state := {|
  drv_iderw := iderw;
  drv_disk st dev := id_drive st (Z.land dev 1);
  drv_ready := ide_ready;
  drv_selected st := ctl_drive (id_regs st) = 1;
|}.
#[global] Instance ide_flush : DiskFlush ide_state := {| drv_ideflush := ideflush |}.

#[global] Instance mem_driver : DiskDriver mem_state := {|
  drv_iderw := mem_iderw;
  drv_disk st _ := memdisk st;
  drv_ready st := FSSIZE ≤ disksize st;
  drv_selected _ := True;
|}.

(** ** Lemmas *)

#[global] Instance mem_driver_ok : DiskDriverOk mem_state.
Proof.
  split.
  - intros pid b d Hr Hl Hf Hd Hb. simpl in *. unfold mem_iderw. munfold.
    rewrite Hl, Hf, Hd. simpl. unfold b_dirty. rewrite Hf. simpl.
    rewrite (proj2 (Z.leb_gt _ _)) by lia. simpl. rewrite Hf. eauto.
  - intros pid b d Hr Hl Hf Hd Hb. simpl in *. unfold mem_iderw. munfold.
    rewrite Hl, Hd. simpl. unfold b_dirty.
    destruct Hf as [Hf|Hf]; rewrite Hf; simpl;
      rewrite (proj2 (Z.leb_gt _ _)) by lia; rewrite ?Hf; simpl; eauto 10.
Qed.

(** The controller decodes the drive and the sector [idestart] meant. *)
Lemma ctl_sector_regs sector dev regs cmd :
  0 ≤ sector < 2 ^ 28 →
  let regs' := (0x1f7, cmd) ::
    (0x1f6, u8 (Z.lor 0xe0 (Z.lor (Z.shiftl (Z.land dev 1) 4) (Z.land (Z.shiftr sector 24) 0x0f)))) ::
    (0x1f5, u8 (Z.land (Z.shiftr sector 16) 0xff)) ::
    (0x1f4, u8 (Z.land (Z.shiftr sector 8) 0xff)) ::
    (0x1f3, u8 (Z.land sector 0xff)) :: regs in
  ctl_sector regs' = sector ∧ ctl_drive regs' = Z.land dev 1.
Proof.
  intros Hs. unfold ctl_sector, ctl_drive, u8. simpl reg.
  set (d := Z.land dev 1). assert (0 ≤ d < 2) as Hd.
  { unfold d. change 1 with (2 ^ 1 - 1). rewrite land_ones_mod by lia. by apply Z.mod_pos_bound. }
  change 0xff with (2 ^ 8 - 1). change 0x0f with (2 ^ 4 - 1).
  rewrite !land_ones_mod by lia. rewrite !Z.shiftr_div_pow2 by lia.
  set (hi := (sector / 2 ^ 24) mod 2 ^ 4). assert (0 ≤ hi < 2 ^ 4) by (by apply Z.mod_pos_bound).
  assert (Z.lor 0xe0 (Z.lor (Z.shiftl d 4) hi) = 0xe0 + (d * 16 + hi)) as ->.
  { rewrite Z.shiftl_mul_pow2 by lia. rewrite (Z.lor_comm (d * 2 ^ 4)).
    rewrite (lor_add_disjoint 4 hi) by (try apply Z.mod_mul; lia).
    rewrite Z.lor_comm, (lor_add_disjoint 5) by (done || lia). lia. }
  rewrite !Z.shiftl_mul_pow2 by lia. 
  match goal with |- context [Z.land ?x 1] => change (Z.land x 1) with (Z.land x (2 ^ 1 - 1)) end.
  rewrite land_ones_mod by lia. rewrite !Z.mod_mod by lia. unfold hi in *. clear hi.
  change (2 ^ 28) with 268435456 in *. change (2 ^ 24) with 16777216 in *.
  change (2 ^ 16) with 65536 in *. change (2 ^ 8) with 256 in *.
  change (2 ^ 4) with 16 in *. change (2 ^ 1) with 2 in *.
  clearbody d. rewrite (Z.mod_small (224 + _) 256) by lia. split; [|dlia].
  assert ((224 + (d * 16 + (sector / 16777216) mod 16)) mod 16 = sector / 16777216)
    as -> by dlia.
  rewrite (lor_add_disjoint 24 (_ * 65536)).
  2-4: change (2 ^ 24) with 16777216; dlia.
  rewrite (lor_add_disjoint 16 (_ * 256)).
  2-4: change (2 ^ 16) with 65536; dlia.
  rewrite (lor_add_disjoint 8).
  2-4: change (2 ^ 8) with 256; dlia.
  dlia.
Qed.

(** What starting a request does to the controller and, for a write, to the
    drive. *)
Lemma idestart_spec pid b st r :
  0 ≤ b_blockno b < FSSIZE → idewait_poll (id_poll st) = Some r →
  ∃ regs',
    idestart b pid st = Ret tt (ide_set_drive
      (if b_dirty b then
         <[Z.land (b_dev b) 1 := disk_do (DWrite (b_blockno b) (b_data b))
                                   (id_drive st (Z.land (b_dev b) 1))]> (id_drive st)
       else id_drive st) (ide_set_regs regs' st)) ∧
    ctl_sector regs' = b_blockno b ∧ ctl_drive regs' = Z.land (b_dev b) 1.
Proof.
  intros Hb Hp. unfold idestart, idewait, outb, outsl.
  rewrite (proj2 (Z.leb_gt _ _)) by lia.
  change (BSIZE / SECTOR_SIZE) with 1. rewrite Z.mul_1_r.
  destruct (ctl_sector_regs (b_blockno b) (b_dev b)
    ((0x1f2, u8 1) :: (0x3f6, u8 0) :: id_regs st)
    (u8 (if b_dirty b then IDE_CMD_WRITE else IDE_CMD_READ))) as [Hs Hd];
    [unfold FSSIZE in Hb; lia|].
  eexists. split; [|exact (conj Hs Hd)].
  destruct (b_dirty b); simpl; munfold; rewrite Hp; simpl.
  - rewrite Hd, Hs. reflexivity.
  - destruct st; reflexivity.
Qed.

Lemma list_find_single {A} (P : A → Prop) `{∀ x, Decision (P x)} x :
  P x → list_find P [x] = Some (0%nat, x).
Proof. intros. simpl. by rewrite decide_True. Qed.

Lemma same_block_refl b b' :
  b_dev b' = b_dev b → b_blockno b' = b_blockno b → same_block b b' = true.
Proof. unfold same_block. intros -> ->. by rewrite !Z.eqb_refl. Qed.

(** A request on an idle driver: one start, one interrupt. *)
Lemma iderw_idle pid b st r regs' drive' :
  ide_ready st → holdingsleep pid (b_lock b) = true →
  Z.land (b_flags b) (Z.lor B_VALID B_DIRTY) ≠ B_VALID →
  0 ≤ b_blockno b < FSSIZE →
  idewait_poll (id_poll st) = Some r → Z.land r (Z.lor IDE_DF IDE_ERR) = 0 →
  idestart b pid (ide_set_queue [b] st) =
    Ret tt (ide_set_drive drive' (ide_set_regs regs' (ide_set_queue [b] st))) →
  iderw b pid st = Ret
    (buf_set_flags (Z.land (Z.lor (b_flags b) B_VALID) (Z.lnot B_DIRTY))
      (if b_dirty b then b
       else buf_set_data (disk_img (drive' (ctl_drive regs')) (ctl_sector regs')) b))
    (ide_set_drive drive' (ide_set_regs regs' st)).
Proof.
  intros (Hq & Hdn & H1 & _) Hl Hf Hb Hp Hr Hst.
  destruct st as [q dn h p rg dr]. simpl in *. subst.
  unfold iderw, mbind, M_bind, mret, M_ret, mypid, get, modify, when.
  rewrite Hl. apply Z.eqb_neq in Hf. rewrite Hf.
  cbn [negb havedisk1 idequeue app]. rewrite andb_false_r.
  rewrite bool_decide_true by done. rewrite Hst.
  cbn [length iderw_wait]. unfold ideintr. munfold.
  destruct (b_dirty b) eqn:Ed; simpl.
  - rewrite decide_True by (by apply same_block_refl). done.
  - unfold idewait. munfold. rewrite Hp, Hr. simpl. rewrite decide_True by (by apply same_block_refl). done.
Qed.

#[global] Instance ide_driver_ok : DiskDriverOk ide_state.
Proof.
  split; intros pid b d Hr Hl Hf Hd Hb; pose proof Hr as (Hq & Hdn & H1 & r & Hp & He);
    destruct (idestart_spec pid b (ide_set_queue [b] d) r Hb Hp) as (regs' & Hst & Hs & Hdr);
    (erewrite iderw_idle; [| done | done | | done | done | done | exact Hst]).
  - rewrite Hd in Hdr. assert (b_dirty b = false) as Ed by (unfold b_dirty; by rewrite Hf).
    rewrite Ed in *. rewrite Hs, Hdr, Hf. eexists. split; [reflexivity|].
    split; [by repeat (split; [done|]); eauto|done].
  - by rewrite Hf.
  - rewrite Hd in Hdr. assert (b_dirty b = true) as Ed.
    { unfold b_dirty. destruct Hf as [-> | ->]; reflexivity. }
    rewrite Ed, Hd in *. eexists. split.
    { f_equal. by destruct Hf as [-> | ->]. }
    split; [by repeat (split; [done|]); eauto|]. split; [done|].
    simpl. by rewrite fn_lookup_insert.
  - by destruct Hf as [-> | ->].
Qed.

#[global] Instance ide_flush_ok : DiskFlushOk ide_state.
Proof.
  split. intros pid d Hr Hs. pose proof Hr as (Hq & Hdn & H1 & r & Hp & He).
  simpl in Hs. unfold drv_ideflush, ide_flush, ideflush, idewait, outb. munfold.
  rewrite Hp. simpl.
  assert (ctl_drive ((503, u8 IDE_CMD_FLUSH_CACHE) :: id_regs d) = 1) as Hc by exact Hs.
  rewrite Hc. rewrite Hp. eexists. split; [reflexivity|].
  split; [by repeat (split; [done|]); eauto|]. split; [done|].
  simpl. by rewrite fn_lookup_insert.
Qed.

(** ** Main theorems *)

(** [idestart] addresses the disk correctly: for every block of the file
    system, on a drive that becomes ready, it programs the controller with the
    sector and the drive the buffer names, and for a dirty buffer sends that
    buffer's data to exactly that sector of that drive. *)
Theorem idestart_addresses pid b st r :
  0 ≤ b_blockno b < FSSIZE → idewait_poll (id_poll st) = Some r →
  ∃ regs',
    idestart b pid st = Ret tt (ide_set_drive
      (if b_dirty b then
         <[Z.land (b_dev b) 1 := disk_do (DWrite (b_blockno b) (b_data b))
                                   (id_drive st (Z.land (b_dev b) 1))]> (id_drive st)
       else id_drive st) (ide_set_regs regs' st)) ∧
    ctl_sector regs' = b_blockno b ∧ ctl_drive regs' = Z.land (b_dev b) 1.
Proof. apply idestart_spec. Qed.

Lemma idestart_addresses_witness :
  ∃ st', idestart (buf_set_id 1 999 buf_zero) 1
           (mk_ide_state [] [] true [IDE_DRDY] [] (λ _, mk_disk (λ _, zero_block) [])) = Ret tt st'.
Proof.
  destruct (idestart_addresses 1 (buf_set_id 1 999 buf_zero)
    (mk_ide_state [] [] true [IDE_DRDY] [] (λ _, mk_disk (λ _, zero_block) [])) IDE_DRDY) as (regs & E & _).
  - simpl. unfold FSSIZE. lia.
  - reflexivity.
  - eexists. exact E.
Defined.
