(* ===== verification/Dlist.v ===== *)
(** * Circular doubly linked lists

    bio.c keeps its buffers on a circular list through [prev] and [next], with
    a head node.  The lemmas say what the pointer assignments of [binit] and
    [brelse] (insert after the head, unlink) do to the list a pair of pointer
    maps represents. *)

From S2P Require Import Prelude.

Local Open Scope nat_scope.

(** [seg nx pv a l b]: following [nx] from [a] goes through [l] to [b], and
    [pv] goes back. *)
Fixpoint seg (nx pv : nat → nat) (a : nat) (l : list nat) (b : nat) : Prop :=
  match l with
  | [] => nx a = b ∧ pv b = a
  | x :: l' => nx a = x ∧ pv x = a ∧ seg nx pv x l' b
  end.

(** A circular list with head [H]. *)
Definition ring (nx pv : nat → nat) (H : nat) (l : list nat) : Prop :=
  seg nx pv H l H ∧ NoDup (H :: l).

#[global] Instance seg_dec nx pv a l b : Decision (seg nx pv a l b).
Proof. revert a. induction l; intros; simpl; apply _. Defined.
#[global] Instance ring_dec nx pv H l : Decision (ring nx pv H l).
Proof. unfold ring. apply _. Defined.

(** The four assignments that insert [x] after the head. *)
Definition link_front (H x : nat) (p : (nat → nat) * (nat → nat)) : (nat → nat) * (nat → nat) :=
  let '(nx, pv) := p in
  let nx := <[x := nx H]> nx in
  let pv := <[x := H]> pv in
  let pv := <[nx H := x]> pv in
  let nx := <[H := x]> nx in
  (nx, pv).

(** The two assignments that unlink [x]. *)
Definition unlink (x : nat) (p : (nat → nat) * (nat → nat)) : (nat → nat) * (nat → nat) :=
  let '(nx, pv) := p in
  let pv := <[nx x := pv x]> pv in
  let nx := <[pv x := nx x]> nx in
  (nx, pv).

Lemma seg_app nx pv a l1 x l2 b :
  seg nx pv a (l1 ++ x :: l2) b ↔ seg nx pv a l1 x ∧ seg nx pv x l2 b.
Proof.
  revert a. induction l1 as [|y l1 IH]; intros a; simpl; [tauto|].
  rewrite IH. tauto.
Qed.

Lemma seg_frame nx pv nx' pv' a l b :
  seg nx pv a l b →
  (∀ i, i ∈ a :: l → nx' i = nx i) → (∀ i, i ∈ l ++ [b] → pv' i = pv i) →
  seg nx' pv' a l b.
Proof.
  revert a. induction l as [|x l IH]; intros a; simpl.
  - intros [H1 H2] Hn Hp. rewrite Hn, Hp by set_solver. done.
  - intros (H1 & H2 & H3) Hn Hp. rewrite Hn, Hp by set_solver.
    split_and!; [done..|]. apply IH; [done|..]; intros i Hi; [apply Hn|apply Hp]; set_solver.
Qed.

Ltac fnmap := repeat first
  [ rewrite fn_lookup_insert | rewrite fn_lookup_insert_ne by (first [done | set_solver | congruence]) ].

Lemma link_front_ring H x nx pv l :
  ring nx pv H l → x ∉ H :: l →
  ring (link_front H x (nx, pv)).1 (link_front H x (nx, pv)).2 H (x :: l).
Proof.
  intros [Hs Hnd] Hx. unfold link_front. simpl.
  assert (x ≠ H) as HxH by set_solver.
  rewrite (fn_lookup_insert_ne _ x H) by done.
  split.
  2: { rewrite !NoDup_cons in *. set_solver. }
  destruct l as [|y l]; simpl in *.
  - destruct Hs as [H1 H2]. rewrite H1. fnmap. done.
  - destruct Hs as (H1 & H2 & H3). rewrite H1. rewrite !NoDup_cons in Hnd.
    destruct Hnd as (Hn1 & Hn2 & _).
    fnmap. split_and!; [done..|].
    eapply seg_frame; [done|..]; intros i Hi.
    + by fnmap.
    + destruct (decide (i = y)) as [->|]; [|by fnmap].
      (* the tail of the list and the head differ from [y] *)
      set_solver.
Qed.

Lemma seg_next nx pv a l b : seg nx pv a l b → nx a ∈ l ++ [b].
Proof. destruct l; simpl; intros; set_solver. Qed.

Lemma unlink_ring H x nx pv l1 l2 :
  ring nx pv H (l1 ++ x :: l2) →
  ring (unlink x (nx, pv)).1 (unlink x (nx, pv)).2 H (l1 ++ l2).
Proof.
  intros [Hs Hnd]. split.
  2: { rewrite !NoDup_cons, !NoDup_app, NoDup_cons in *. set_solver. }
  rewrite seg_app in Hs. destruct Hs as [Hs1 Hs2]. unfold unlink. simpl.
  rewrite !NoDup_cons, !NoDup_app, NoDup_cons in Hnd.
  destruct Hnd as (HH & Hn1 & Hd & Hx2 & Hn2).
  assert (x ≠ H) as HxH by set_solver.
  assert (nx x ≠ x) as Hxx.
  { intros Heq. apply seg_next in Hs2. rewrite Heq, elem_of_app, list_elem_of_singleton in Hs2.
    naive_solver. }
  rewrite (fn_lookup_insert_ne _ (nx x) x) by done.
  destruct l1 as [|p l1 _] using rev_ind; destruct l2 as [|n l2];
    rewrite ?app_nil_r, ?seg_app in *; simpl in *.
  - destruct Hs1 as [_ ->], Hs2 as [-> _]. by fnmap.
  - destruct Hs1 as [_ ->], Hs2 as (-> & _ & Hs). rewrite NoDup_cons in Hn2.
    fnmap. split_and!; [done..|].
    eapply seg_frame; [done|..]; intros i Hi; fnmap; done.
  - destruct Hs1 as (Hs & _ & ->), Hs2 as [-> _]. fnmap. split_and!; [|done..].
    rewrite NoDup_app in Hn1.
    eapply seg_frame; [done|..]; intros i Hi; fnmap; done.
  - destruct Hs1 as (Hs & _ & ->), Hs2 as (-> & _ & Hs'). fnmap.
    rewrite NoDup_app in Hn1. rewrite NoDup_cons in Hn2.
    split_and!; [|done..|]; (eapply seg_frame; [done|..]; intros i Hi; fnmap; done).
Qed.

Lemma ring_next H nx pv l : ring nx pv H l → nx H = hd H l.
Proof. intros [Hs _]. destruct l; simpl in *; tauto. Qed.

Lemma ring_prev H nx pv l : ring nx pv H l → pv H = List.last l H.
Proof.
  intros [Hs _]. destruct l as [|x l _] using rev_ind; simpl in *; [tauto|].
  rewrite seg_app in Hs. simpl in Hs. rewrite last_last. tauto.
Qed.

Lemma seg_rev nx pv a l b : seg nx pv a l b → seg pv nx b (reverse l) a.
Proof.
  revert a. induction l as [|x l IH]; intros a; simpl; [tauto|].
  intros (H1 & H2 & H3). rewrite reverse_cons. apply seg_app. split.
  - by apply IH.
  - simpl. tauto.
Qed.

Lemma ring_ext H nx pv nx' pv' l :
  ring nx pv H l → (∀ i, nx' i = nx i) → (∀ i, pv' i = pv i) → ring nx' pv' H l.
Proof. intros [Hs Hn] H1 H2. split; [|done]. eapply seg_frame; eauto. Qed.
