(* ===== verification/Bio.v ===== *)
(** * The buffer cache (bio.c)

    The thirty buffers and the list head are an array of [struct buf] linked
    through [b_prev] and [b_next]; the scans of [bget] follow the pointers.
    The code is parametric in the disk driver.  [crep] relates a cache to its
    abstract state (what each block holds, which blocks are pinned, which are
    held by the running process, and the disk underneath); the specifications
    of [bread], [bwrite] and [brelse] are stated on that abstract state, and
    are what the layers above use. *)

From S2P Require Import Prelude Layout Sleeplock Disk Dlist.

Section bio.
Context {D : Type} `{DiskDriver D}.

(** Index [NBUF] of the array is [bcache.head]. *)
Record bstate := mk_bstate { bs_bufs : list buf; bs_drv : D }.

Definition bs_alter (i : nat) (f : buf → buf) (s : bstate) : bstate :=
  mk_bstate (alter f i (bs_bufs s)) (bs_drv s).

#[global] Instance bs_drv_lens : Lens bstate D := {|
  lget := bs_drv;
  lput d s := mk_bstate (bs_bufs s) d;
|}.

(** [*b] for a buffer pointer. *)
Definition bufat (i : nat) : M bstate buf :=
  s ← get;
  match bs_bufs s !! i with
  | Some b => mret b
  | None => undef "buffer pointer"
  end.

(** The body of the loop of [binit]: insert [b] after the head. *)
Definition binit_step (bufs : list buf) (b : nat) : list buf :=
  let hn := b_next (nth NBUF bufs buf_zero) in
  let bufs := alter (buf_set_next hn) b bufs in
  let bufs := alter (buf_set_prev NBUF) b bufs in
  let bufs := alter (buf_set_lock initsleeplock) b bufs in
  let hn := b_next (nth NBUF bufs buf_zero) in
  let bufs := alter (buf_set_prev b) hn bufs in
  alter (buf_set_next b) NBUF bufs.

Definition binit (bufs : list buf) : list buf :=
  let bufs := alter (buf_set_prev NBUF) NBUF bufs in
  let bufs := alter (buf_set_next NBUF) NBUF bufs in
  foldl binit_step bufs (seq 0 NBUF).

(** The two scans of [bget], from [b] to the head.  [None]: the list does not
    come back to the head within the fuel. *)
Fixpoint bget_cached (fuel : nat) (bufs : list buf) (b : nat) (dev blockno : Z)
    : option (option nat) :=
  match fuel with
  | O => None
  | S fuel' =>
      if decide (b = NBUF) then Some None else
      match bufs !! b with
      | None => None
      | Some x =>
          if (b_dev x =? dev) && (b_blockno x =? blockno) then Some (Some b)
          else bget_cached fuel' bufs (b_next x) dev blockno
      end
  end.

Fixpoint bget_unused (fuel : nat) (bufs : list buf) (b : nat) : option (option nat) :=
  match fuel with
  | O => None
  | S fuel' =>
      if decide (b = NBUF) then Some None else
      match bufs !! b with
      | None => None
      | Some x =>
          if (b_refcnt x =? 0) && (Z.land (b_flags x) B_DIRTY =? 0) then Some (Some b)
          else bget_unused fuel' bufs (b_prev x)
      end
  end.

(** [acquiresleep(&b->lock)] *)
Definition block_lock (i : nat) : M bstate unit :=
  pid ← mypid;
  b ← bufat i;
  match acquiresleep pid (b_lock b) with
  | Some lk => modify (bs_alter i (buf_set_lock lk))
  | None => sleep_on (ChBuf i)
  end.

Definition bget (dev blockno : Z) : M bstate nat :=
  head ← bufat NBUF;
  s ← get;
  match bget_cached (S NBUF) (bs_bufs s) (b_next head) dev blockno with
  | None => undef "bcache list"
  | Some (Some i) =>
      modify (bs_alter i (λ b, buf_set_refcnt (u32 (b_refcnt b + 1)) b)) ;;
      block_lock i ;;
      mret i
  | Some None =>
      match bget_unused (S NBUF) (bs_bufs s) (b_prev head) with
      | None => undef "bcache list"
      | Some (Some i) =>
          modify (bs_alter i (λ b, buf_set_refcnt 1 (buf_set_flags 0 (buf_set_id dev blockno b)))) ;;
          block_lock i ;;
          mret i
      | Some None => panic "bget: no buffers"
      end
  end.

Definition bread (dev blockno : Z) : M bstate nat :=
  i ← bget dev blockno;
  b ← bufat i;
  (if Z.land (b_flags b) B_VALID =? 0 then
     b' ← lift (drv_iderw b);
     modify (bs_alter i (λ _, b'))
   else mret tt) ;;
  mret i.

Definition bwrite (i : nat) : M bstate unit :=
  pid ← mypid;
  b ← bufat i;
  if negb (holdingsleep pid (b_lock b)) then panic "bwrite" else
  let b := buf_set_flags (Z.lor (b_flags b) B_DIRTY) b in
  b' ← lift (drv_iderw b);
  modify (bs_alter i (λ _, b')).

(** The six pointer assignments of [brelse]. *)
Definition brelse_move (i : nat) (bufs : list buf) : list buf :=
  let at_ l := nth i l buf_zero in
  let bufs := alter (buf_set_prev (b_prev (at_ bufs))) (b_next (at_ bufs)) bufs in
  let bufs := alter (buf_set_next (b_next (at_ bufs))) (b_prev (at_ bufs)) bufs in
  let bufs := alter (buf_set_next (b_next (nth NBUF bufs buf_zero))) i bufs in
  let bufs := alter (buf_set_prev NBUF) i bufs in
  let bufs := alter (buf_set_prev i) (b_next (nth NBUF bufs buf_zero)) bufs in
  alter (buf_set_next i) NBUF bufs.

Definition brelse (i : nat) : M bstate unit :=
  pid ← mypid;
  b ← bufat i;
  if negb (holdingsleep pid (b_lock b)) then panic "brelse" else
  modify (bs_alter i (λ b, buf_set_lock (releasesleep (b_lock b)) b)) ;;
  modify (bs_alter i (λ b, buf_set_refcnt (u32 (b_refcnt b - 1)) b)) ;;
  b ← bufat i;
  when (b_refcnt b =? 0)
    (modify (λ s, mk_bstate (brelse_move i (bs_bufs s)) (bs_drv s))).

(** Reading and changing [b->data] and [b->flags] through the pointer
    [bread] returned. *)
Definition bdata (i : nat) : M bstate block := b ← bufat i; mret (b_data b).
Definition bset_data (i : nat) (d : block) : M bstate unit :=
  modify (bs_alter i (buf_set_data d)).
Definition bset_dirty (i : nat) : M bstate unit :=
  modify (bs_alter i (λ b, buf_set_flags (Z.lor (b_flags b) B_DIRTY) b)).

(** ** The abstract state *)

Record cabs := mk_cabs {
  ca_view : Z → block;        (* the current content of each block *)
  ca_dirty : gset Z;          (* blocks pinned in the cache by the log *)
  ca_held : gmap Z nat;       (* blocks held by the process, with their buffer *)
  ca_disk : disk;
}.

Definition ca_set_view b d a := mk_cabs (<[b := d]> (ca_view a)) (ca_dirty a) (ca_held a) (ca_disk a).
Definition ca_set_dirty s a := mk_cabs (ca_view a) s (ca_held a) (ca_disk a).
Definition ca_set_held h a := mk_cabs (ca_view a) (ca_dirty a) h (ca_disk a).
Definition ca_set_disk d a := mk_cabs (ca_view a) (ca_dirty a) (ca_held a) d.

(** A buffer that holds no block, and one that holds a block of the abstract
    state. *)
Definition buf_empty (b : buf) : Prop :=
  b_dev b = 0 ∧ b_flags b = 0 ∧ b_refcnt b = 0 ∧ sl_locked (b_lock b) = 0.

Definition buf_full (pid : Z) (a : cabs) (i : nat) (b : buf) : Prop :=
  b_dev b = ROOTDEV ∧ 0 ≤ b_blockno b < FSSIZE ∧
  b_flags b = (if decide (b_blockno b ∈ ca_dirty a) then Z.lor B_VALID B_DIRTY else B_VALID) ∧
  match ca_held a !! b_blockno b with
  | Some j => j = i ∧ b_refcnt b = 1 ∧ b_lock b = mk_sleeplock 1 pid
  | None => b_refcnt b = 0 ∧ sl_locked (b_lock b) = 0
  end ∧
  b_data b = ca_view a (b_blockno b).

Definition nextp (bufs : list buf) (i : nat) : nat := b_next (nth i bufs buf_zero).
Definition prevp (bufs : list buf) (i : nat) : nat := b_prev (nth i bufs buf_zero).

Record crep (pid : Z) (s : bstate) (a : cabs) : Prop := mk_crep {
  cr_len : length (bs_bufs s) = S NBUF;
  cr_lru : ∃ l, ring (nextp (bs_bufs s)) (prevp (bs_bufs s)) NBUF l ∧ l ≡ₚ seq 0 NBUF;
  cr_ready : drv_ready (bs_drv s);
  cr_disk : drv_disk (bs_drv s) ROOTDEV = ca_disk a;
  cr_buf : ∀ i b, (i < NBUF)%nat → bs_bufs s !! i = Some b → buf_empty b ∨ buf_full pid a i b;
  cr_uniq : ∀ i j bi bj, (i < NBUF)%nat → (j < NBUF)%nat →
    bs_bufs s !! i = Some bi → bs_bufs s !! j = Some bj →
    b_dev bi = ROOTDEV → b_dev bj = ROOTDEV → b_blockno bi = b_blockno bj → i = j;
  cr_pinned : ∀ n, n ∈ ca_dirty a ∪ dom (ca_held a) →
    ∃ i b, (i < NBUF)%nat ∧ bs_bufs s !! i = Some b ∧ b_dev b = ROOTDEV ∧ b_blockno b = n;
  cr_view : ∀ n, n ∉ ca_dirty a → ca_held a !! n = None → ca_view a n = disk_img (ca_disk a) n;
}.

(** A buffer can be found for one more block. *)
Definition room (a : cabs) : Prop := (size (ca_dirty a ∪ dom (ca_held a)) < NBUF)%nat.

End bio.
Arguments bstate : clear implicits.
