(* ===== verification/BioSpec.v ===== *)
(** * Specifications of the buffer cache (bio.c)

    The operations of [Bio] on the abstract state of [crep].  Each theorem is
    total: under its precondition the operation returns, with the stated
    abstract effect. *)

From S2P Require Import Prelude Layout Sleeplock Disk Ide Dlist Bio.

(** ** Pointer maps of an updated array *)

Lemma nth_alter {A} (f : A → A) (l : list A) (i j : nat) d :
  (i < length l)%nat →
  nth j (alter f i l) d = if decide (j = i) then f (nth i l d) else nth j l d.
Proof.
  intros Hi. rewrite !nth_lookup. destruct (lookup_lt_is_Some_2 l i Hi) as [x Hx].
  case_decide; subst.
  - by rewrite list_lookup_alter_eq, Hx.
  - by rewrite list_lookup_alter_ne by done.
Qed.

Section pointers.
Implicit Types (bufs : list buf) (i : nat).

Lemma nextp_set_next v i bufs j :
  (i < length bufs)%nat → nextp (alter (buf_set_next v) i bufs) j = <[i := v]> (nextp bufs) j.
Proof.
  intros Hi. unfold nextp. rewrite nth_alter by done. case_decide; subst.
  - by rewrite fn_lookup_insert.
  - by rewrite fn_lookup_insert_ne.
Qed.

Lemma prevp_set_prev v i bufs j :
  (i < length bufs)%nat → prevp (alter (buf_set_prev v) i bufs) j = <[i := v]> (prevp bufs) j.
Proof.
  intros Hi. unfold prevp. rewrite nth_alter by done. case_decide; subst.
  - by rewrite fn_lookup_insert.
  - by rewrite fn_lookup_insert_ne.
Qed.

Lemma nextp_alter f i bufs j :
  (∀ b, b_next (f b) = b_next b) → nextp (alter f i bufs) j = nextp bufs j.
Proof.
  intros Hf. unfold nextp. destruct (decide (i < length bufs)%nat).
  - rewrite nth_alter by done. case_decide; subst; auto.
  - rewrite !nth_lookup. destruct (decide (i = j)) as [->|].
    + rewrite list_lookup_alter_eq. destruct (bufs !! j); simpl; auto.
    + by rewrite list_lookup_alter_ne.
Qed.

Lemma prevp_alter f i bufs j :
  (∀ b, b_prev (f b) = b_prev b) → prevp (alter f i bufs) j = prevp bufs j.
Proof.
  intros Hf. unfold prevp. destruct (decide (i < length bufs)%nat).
  - rewrite nth_alter by done. case_decide; subst; auto.
  - rewrite !nth_lookup. destruct (decide (i = j)) as [->|].
    + rewrite list_lookup_alter_eq. destruct (bufs !! j); simpl; auto.
    + by rewrite list_lookup_alter_ne.
Qed.

Lemma ring_alter f i bufs H l :
  ring (nextp bufs) (prevp bufs) H l →
  (∀ b, b_next (f b) = b_next b) → (∀ b, b_prev (f b) = b_prev b) →
  ring (nextp (alter f i bufs)) (prevp (alter f i bufs)) H l.
Proof.
  intros Hr Hn Hp. eapply ring_ext; [done|..]; intros j.
  - by apply nextp_alter.
  - by apply prevp_alter.
Qed.

(** The array represents a pair of pointer maps. *)
Definition ptrs bufs (nx pv : nat → nat) : Prop :=
  (∀ j, nextp bufs j = nx j) ∧ (∀ j, prevp bufs j = pv j).

Lemma ptrs_set_next bufs nx pv i v w :
  (i < length bufs)%nat → ptrs bufs nx pv → v = w →
  ptrs (alter (buf_set_next v) i bufs) (<[i := w]> nx) pv.
Proof.
  intros Hi [Hn Hp] ->. split; intros j.
  - rewrite nextp_set_next by done. destruct (decide (i = j)) as [->|].
    + by rewrite !fn_lookup_insert.
    + by rewrite !fn_lookup_insert_ne.
  - by rewrite prevp_alter.
Qed.

Lemma ptrs_set_prev bufs nx pv i v w :
  (i < length bufs)%nat → ptrs bufs nx pv → v = w →
  ptrs (alter (buf_set_prev v) i bufs) nx (<[i := w]> pv).
Proof.
  intros Hi [Hn Hp] ->. split; intros j.
  - by rewrite nextp_alter.
  - rewrite prevp_set_prev by done. destruct (decide (i = j)) as [->|].
    + by rewrite !fn_lookup_insert.
    + by rewrite !fn_lookup_insert_ne.
Qed.

Lemma ptrs_unlink bufs nx pv i :
  (nx i < length bufs)%nat → (<[nx i := pv i]> pv i < length bufs)%nat → ptrs bufs nx pv →
  ptrs (alter (buf_set_next (nextp (alter (buf_set_prev (prevp bufs i)) (nextp bufs i) bufs) i))
          (prevp (alter (buf_set_prev (prevp bufs i)) (nextp bufs i) bufs) i)
          (alter (buf_set_prev (prevp bufs i)) (nextp bufs i) bufs))
    (unlink i (nx, pv)).1 (unlink i (nx, pv)).2.
Proof.
  intros Hn Hp HP. pose proof HP as [H1 H2]. rewrite H1, H2.
  pose proof (ptrs_set_prev _ _ _ _ (pv i) _ Hn HP eq_refl) as HP'.
  destruct HP' as [H1' H2'].
  rewrite (H1' i), (H2' i). unfold unlink. simpl.
  apply ptrs_set_next; [by rewrite length_alter|by split|done].
Qed.

Lemma ptrs_link_front bufs nx pv i :
  (NBUF < length bufs)%nat → (i < length bufs)%nat → (nx NBUF < length bufs)%nat → i ≠ NBUF →
  ptrs bufs nx pv →
  let bufs1 := alter (buf_set_next (nextp bufs NBUF)) i bufs in
  let bufs2 := alter (buf_set_prev NBUF) i bufs1 in
  let bufs3 := alter (buf_set_prev i) (nextp bufs2 NBUF) bufs2 in
  ptrs (alter (buf_set_next i) NBUF bufs3)
    (link_front NBUF i (nx, pv)).1 (link_front NBUF i (nx, pv)).2.
Proof.
  intros HN Hi Hh Hne HP. cbv zeta. pose proof HP as [H1 _]. rewrite H1.
  pose proof (ptrs_set_next _ _ _ i (nx NBUF) _ Hi HP eq_refl) as HP1.
  assert (i < length (alter (buf_set_next (nx NBUF)) i bufs))%nat as Hi1
    by (by rewrite length_alter).
  pose proof (ptrs_set_prev _ _ _ i NBUF _ Hi1 HP1 eq_refl) as HP2.
  pose proof HP2 as [H2 _]. rewrite H2. unfold link_front. cbn [fst snd].
  apply ptrs_set_next; [by rewrite !length_alter| |done].
  apply ptrs_set_prev; [|done|done].
  rewrite !length_alter, fn_lookup_insert_ne; done.
Qed.

(** Moving a buffer to the front of the list. *)
Lemma brelse_move_ring i bufs l1 l2 :
  length bufs = S NBUF → (∀ j, j ∈ l1 ++ i :: l2 → (j < NBUF)%nat) →
  ring (nextp bufs) (prevp bufs) NBUF (l1 ++ i :: l2) →
  ring (nextp (brelse_move i bufs)) (prevp (brelse_move i bufs)) NBUF (i :: l1 ++ l2).
Proof.
  intros Hlen Hlt Hr. pose proof (unlink_ring _ _ _ _ _ _ Hr) as Hu.
  assert (∀ j, j ∈ (l1 ++ i :: l2) ++ [NBUF] → (j < length bufs)%nat) as Hb.
  { intros j. rewrite Hlen, elem_of_app, list_elem_of_singleton.
    intros [Hj| ->]; [apply Hlt in Hj|]; lia. }
  assert (nextp bufs i < length bufs ∧ prevp bufs i < length bufs ∧ i ≠ nextp bufs i)%nat
    as (Hni & Hpi & Hnxt).
  { destruct Hr as [Hs Hnd]. rewrite seg_app in Hs. destruct Hs as [Hs1 Hs2].
    apply seg_rev in Hs1. apply seg_next in Hs1, Hs2.
    rewrite !NoDup_cons, NoDup_app, NoDup_cons in Hnd.
    split_and!; [apply Hb; set_solver..|]. intros Heq. rewrite <- Heq in Hs2. set_solver. }
  assert (i < NBUF)%nat as Hi by (apply Hlt; set_solver).
  assert (i ∉ NBUF :: l1 ++ l2) as Hnot.
  { destruct Hr as [_ Hnd]. rewrite NoDup_cons, NoDup_app, NoDup_cons in Hnd. set_solver. }
  pose proof (link_front_ring _ i _ _ _ Hu Hnot) as Hf.
  pose proof (ptrs_unlink bufs (nextp bufs) (prevp bufs) i Hni) as HP.
  rewrite fn_lookup_insert_ne in HP by done. specialize (HP Hpi (conj (λ _, eq_refl) (λ _, eq_refl))).
  eapply ptrs_link_front in HP.
  - destruct HP as [Hx Hy]. eapply ring_ext; [exact Hf|exact Hx|exact Hy].
  - rewrite !length_alter. lia.
  - rewrite !length_alter. lia.
  - rewrite !length_alter. apply ring_next in Hu. rewrite Hu.
    destruct (l1 ++ l2) as [|x l] eqn:E; simpl; [lia|]. rewrite Hlen.
    enough (x < NBUF)%nat by lia. apply Hlt.
    assert (x ∈ l1 ++ l2) by (rewrite E; set_solver). set_solver.
  - lia.
Qed.

Lemma length_brelse_move i bufs : length (brelse_move i bufs) = length bufs.
Proof. unfold brelse_move. by rewrite !length_alter. Qed.
End pointers.

(** ** The scans of [bget] *)

Section scans.
Implicit Types (bufs : list buf).

Lemma nextp_lookup bufs i b : bufs !! i = Some b → nextp bufs i = b_next b.
Proof. intros Hb. unfold nextp. by rewrite nth_lookup, Hb. Qed.
Lemma prevp_lookup bufs i b : bufs !! i = Some b → prevp bufs i = b_prev b.
Proof. intros Hb. unfold prevp. by rewrite nth_lookup, Hb. Qed.

Lemma bget_cached_scan bufs dev blockno l fuel a :
  (length l < fuel)%nat → (∀ i, i ∈ l → (i < NBUF)%nat) → (NBUF < length bufs)%nat →
  seg (nextp bufs) (prevp bufs) a l NBUF →
  (bget_cached fuel bufs (nextp bufs a) dev blockno = Some None ∧
   ∀ i b, i ∈ l → bufs !! i = Some b → ¬ (b_dev b = dev ∧ b_blockno b = blockno)) ∨
  (∃ i b, bget_cached fuel bufs (nextp bufs a) dev blockno = Some (Some i) ∧
     i ∈ l ∧ bufs !! i = Some b ∧ b_dev b = dev ∧ b_blockno b = blockno).
Proof.
  revert a fuel. induction l as [|x l IH]; intros a [|fuel] Hf Hlt Hlen Hs; simpl in *; try lia.
  - destruct Hs as [-> _]. left. split; [by rewrite decide_True|]. set_solver.
  - destruct Hs as (-> & _ & Hs). assert (x < NBUF)%nat by (apply Hlt; set_solver).
    rewrite decide_False by lia.
    destruct (lookup_lt_is_Some_2 bufs x) as [b Hb]; [lia|]. rewrite Hb.
    destruct ((b_dev b =? dev) && (b_blockno b =? blockno)) eqn:E.
    + right. exists x, b. rewrite andb_true_iff, !Z.eqb_eq in E. split_and!; set_solver.
    + rewrite <- (nextp_lookup _ _ _ Hb).
      destruct (IH x fuel) as [[-> Hno]|(i & b' & -> & Hi & ?)]; [lia|set_solver|done|done|..].
      * left. split; [done|]. intros i b' Hi Hb' [??].
        apply elem_of_cons in Hi as [->|Hi]; [|by eapply Hno].
        rewrite Hb in Hb'. injection Hb' as <-.
        rewrite andb_false_iff, !Z.eqb_neq in E. naive_solver.
      * right. exists i, b'. split; [done|]. split; [set_solver|done].
Qed.

Definition reusable (b : buf) : Prop := b_refcnt b = 0 ∧ Z.land (b_flags b) B_DIRTY = 0.

Lemma bget_unused_scan bufs l fuel a :
  (length l < fuel)%nat → (∀ i, i ∈ l → (i < NBUF)%nat) → (NBUF < length bufs)%nat →
  seg (prevp bufs) (nextp bufs) a l NBUF →
  (bget_unused fuel bufs (prevp bufs a) = Some None ∧
   ∀ i b, i ∈ l → bufs !! i = Some b → ¬ reusable b) ∨
  (∃ i b, bget_unused fuel bufs (prevp bufs a) = Some (Some i) ∧
     i ∈ l ∧ bufs !! i = Some b ∧ reusable b).
Proof.
  revert a fuel. induction l as [|x l IH]; intros a [|fuel] Hf Hlt Hlen Hs; simpl in *; try lia.
  - destruct Hs as [-> _]. left. split; [by rewrite decide_True|]. set_solver.
  - destruct Hs as (-> & _ & Hs). assert (x < NBUF)%nat by (apply Hlt; set_solver).
    rewrite decide_False by lia.
    destruct (lookup_lt_is_Some_2 bufs x) as [b Hb]; [lia|]. rewrite Hb.
    destruct ((b_refcnt b =? 0) && (Z.land (b_flags b) B_DIRTY =? 0)) eqn:E.
    + right. exists x, b. rewrite andb_true_iff, !Z.eqb_eq in E. split_and!; set_solver.
    + rewrite <- (prevp_lookup _ _ _ Hb).
      destruct (IH x fuel) as [[-> Hno]|(i & b' & -> & Hi & ?)]; [lia|set_solver|done|done|..].
      * left. split; [done|]. intros i b' Hi Hb' [??].
        apply elem_of_cons in Hi as [->|Hi]; [|by eapply Hno].
        rewrite Hb in Hb'. injection Hb' as <-.
        rewrite andb_false_iff, !Z.eqb_neq in E. naive_solver.
      * right. exists i, b'. split; [done|]. split; [set_solver|done].
Qed.
End scans.

(** ** Specifications *)

Section spec.
Context {D : Type} `{DiskDriverOk D}.
Implicit Types (s : bstate D) (a : cabs).

Lemma bufat_eq pid s i b : bs_bufs s !! i = Some b → bufat i pid s = Ret b s.
Proof. intros Hb. unfold bufat. munfold. by rewrite Hb. Qed.

(** What both scans give on a represented cache. *)
Lemma crep_cached pid s a dev blockno :
  crep pid s a →
  (bget_cached (S NBUF) (bs_bufs s) (nextp (bs_bufs s) NBUF) dev blockno = Some None ∧
   ∀ i b, (i < NBUF)%nat → bs_bufs s !! i = Some b → ¬ (b_dev b = dev ∧ b_blockno b = blockno)) ∨
  (∃ i b, bget_cached (S NBUF) (bs_bufs s) (nextp (bs_bufs s) NBUF) dev blockno = Some (Some i) ∧
     (i < NBUF)%nat ∧ bs_bufs s !! i = Some b ∧ b_dev b = dev ∧ b_blockno b = blockno).
Proof.
  intros Hc. destruct (cr_lru _ _ _ Hc) as (l & [Hs _] & Hl).
  pose proof (Permutation_length Hl) as Hlen. rewrite length_seq in Hlen.
  destruct (bget_cached_scan (bs_bufs s) dev blockno l (S NBUF) NBUF)
    as [[-> Hno]|(i & b & -> & Hi & ?)]; try done.
  - lia.
  - intros i. rewrite Hl, elem_of_seq. lia.
  - rewrite (cr_len _ _ _ Hc). lia.
  - left. split; [done|]. intros i b Hi. apply Hno. rewrite Hl, elem_of_seq. lia.
  - right. exists i, b. rewrite Hl, elem_of_seq in Hi. split; [done|]. split; [lia|done].
Qed.

Lemma crep_unused pid s a :
  crep pid s a →
  (bget_unused (S NBUF) (bs_bufs s) (prevp (bs_bufs s) NBUF) = Some None ∧
   ∀ i b, (i < NBUF)%nat → bs_bufs s !! i = Some b → ¬ reusable b) ∨
  (∃ i b, bget_unused (S NBUF) (bs_bufs s) (prevp (bs_bufs s) NBUF) = Some (Some i) ∧
     (i < NBUF)%nat ∧ bs_bufs s !! i = Some b ∧ reusable b).
Proof.
  intros Hc. destruct (cr_lru _ _ _ Hc) as (l & [Hs _] & Hl). apply seg_rev in Hs.
  pose proof (Permutation_length Hl) as Hlen. rewrite length_seq in Hlen.
  destruct (bget_unused_scan (bs_bufs s) (reverse l) (S NBUF) NBUF)
    as [[-> Hno]|(i & b & -> & Hi & ?)]; try done.
  - rewrite length_reverse. lia.
  - intros i. rewrite elem_of_reverse, Hl, elem_of_seq. lia.
  - rewrite (cr_len _ _ _ Hc). lia.
  - left. split; [done|]. intros i b Hi. apply Hno. rewrite elem_of_reverse, Hl, elem_of_seq. lia.
  - right. exists i, b. rewrite elem_of_reverse, Hl, elem_of_seq in Hi. split; [done|]. split; [lia|done].
Qed.

Lemma room_reusable pid s a :
  crep pid s a → room a →
  ∃ i b, (i < NBUF)%nat ∧ bs_bufs s !! i = Some b ∧ reusable b.
Proof.
  intros Hc Hroom. destruct (crep_unused pid s a Hc) as [[_ Hno]|(i & b & _ & ? & ? & ?)]; [|eauto].
  exfalso. (* every buffer is pinned: thirty distinct blocks *)
  assert (∀ i, (i < NBUF)%nat → ∃ n, n ∈ ca_dirty a ∪ dom (ca_held a) ∧
            ∃ b, bs_bufs s !! i = Some b ∧ b_dev b = ROOTDEV ∧ b_blockno b = n) as Hall.
  { intros i Hi. destruct (lookup_lt_is_Some_2 (bs_bufs s) i) as [b Hb].
    { rewrite (cr_len _ _ _ Hc). lia. }
    destruct (cr_buf _ _ _ Hc i b Hi Hb) as [He|(Hd & Hn & Hfl & Hh & _)].
    - destruct (Hno i b Hi Hb). destruct He as (_ & Hf & Hr & _). split; [done|]. by rewrite Hf.
    - exists (b_blockno b). split; [|eauto].
      destruct (decide (b_blockno b ∈ ca_dirty a)); [set_solver|].
      destruct (ca_held a !! b_blockno b) eqn:Eh.
      { apply elem_of_union_r, elem_of_dom. eauto. }
      destruct (Hno i b Hi Hb). split; [naive_solver|]. by rewrite Hfl. }
  assert (∀ k, (k ≤ NBUF)%nat → ∃ X : gset Z, X ⊆ ca_dirty a ∪ dom (ca_held a) ∧ size X = k ∧
            ∀ n, n ∈ X → ∃ i b, (i < k)%nat ∧ bs_bufs s !! i = Some b ∧
                                b_dev b = ROOTDEV ∧ b_blockno b = n) as Hk.
  { induction k as [|k IH]; intros Hk.
    - exists ∅. split; [set_solver|]. split; [apply size_empty|set_solver].
    - destruct IH as (X & HX & Hsz & HXi); [lia|].
      destruct (Hall k) as (n & Hn & b & Hb & Hd & Hbn); [lia|].
      assert (n ∉ X) as Hnot.
      { intros (i & b' & Hi & Hb' & Hd' & Hbn')%HXi.
        assert (i = k) by (eapply (cr_uniq _ _ _ Hc i k); eauto; try lia; congruence). lia. }
      exists ({[n]} ∪ X). split; [set_solver|]. split.
      + rewrite size_union by set_solver. rewrite size_singleton. lia.
      + intros m [->%elem_of_singleton|Hm]%elem_of_union; [by exists k, b; eauto with lia|].
        destruct (HXi m Hm) as (i & b' & ? & ?). exists i, b'. split; [lia|done]. }
  destruct (Hk NBUF) as (X & HX & Hsz & _); [done|].
  apply subseteq_size in HX. unfold room in Hroom. lia.
Qed.

(** One buffer replaced. *)
Definition bs_put (i : nat) (b : buf) s : bstate D := mk_bstate (<[i := b]> (bs_bufs s)) (bs_drv s).

Lemma bs_alter_put s i b f : bs_bufs s !! i = Some b → bs_alter i f s = bs_put i (f b) s.
Proof.
  intros Hb. unfold bs_alter, bs_put. f_equal. apply list_eq. intros j.
  destruct (decide (i = j)) as [->|].
  - rewrite list_lookup_alter_eq, Hb, list_lookup_insert_eq; [done|]. by eapply lookup_lt_Some.
  - by rewrite list_lookup_alter_ne, list_lookup_insert_ne.
Qed.

Lemma bs_put_lookup s i b b' : bs_bufs s !! i = Some b → bs_bufs (bs_put i b' s) !! i = Some b'.
Proof. intros Hb. simpl. apply list_lookup_insert_eq. by eapply lookup_lt_Some. Qed.

Lemma bs_put_put s i b b' : bs_put i b (bs_put i b' s) = bs_put i b s.
Proof. unfold bs_put. simpl. by rewrite list_insert_insert_eq. Qed.

(** A step that rewrites one buffer, and possibly the driver, keeps the
    representation. *)
Lemma crep_update pid s a i b b' d' a' :
  crep pid s a → (i < NBUF)%nat → bs_bufs s !! i = Some b →
  b_next b' = b_next b → b_prev b' = b_prev b →
  drv_ready d' → drv_disk d' ROOTDEV = ca_disk a' →
  buf_full pid a' i b' →
  (∀ j bj, j ≠ i → (j < NBUF)%nat → bs_bufs s !! j = Some bj → b_dev bj = ROOTDEV →
     b_blockno bj ≠ b_blockno b' ∧ (buf_full pid a j bj → buf_full pid a' j bj)) →
  (∀ n, n ∈ ca_dirty a' ∪ dom (ca_held a') →
     n = b_blockno b' ∨ (n ∈ ca_dirty a ∪ dom (ca_held a) ∧ (b_dev b = ROOTDEV → n ≠ b_blockno b))) →
  (∀ n, n ∉ ca_dirty a' → ca_held a' !! n = None → ca_view a' n = disk_img (ca_disk a') n) →
  crep pid (mk_bstate (<[i := b']> (bs_bufs s)) d') a'.
Proof.
  intros Hc Hi Hb Hn Hp Hrd Hdk Hfull Hoth Hpin Hview.
  pose proof (lookup_lt_Some _ _ _ Hb) as Hil.
  assert (∀ j bj, <[i:=b']> (bs_bufs s) !! j = Some bj →
    (j = i ∧ bj = b') ∨ (j ≠ i ∧ bs_bufs s !! j = Some bj)) as Hlk.
  { intros j bj. destruct (decide (i = j)) as [->|].
    - rewrite list_lookup_insert_eq by done. naive_solver.
    - rewrite list_lookup_insert_ne by done. naive_solver. }
  pose proof Hfull as (Hd' & _).
  split; simpl.
  - by rewrite length_insert, (cr_len _ _ _ Hc).
  - destruct (cr_lru _ _ _ Hc) as (l & Hr & Hl). exists l. split; [|done].
    eapply ring_ext; [exact Hr|..]; intros j; unfold nextp, prevp; rewrite !nth_lookup;
      (destruct (decide (i = j)) as [->|];
       [by rewrite list_lookup_insert_eq, Hb|by rewrite list_lookup_insert_ne]).
  - done.
  - done.
  - intros j bj Hj [[-> ->]|[Hne Hbj]]%Hlk; [by right|].
    destruct (cr_buf _ _ _ Hc j bj Hj Hbj) as [?|Hf]; [by left|].
    right. apply (Hoth j bj Hne Hj Hbj); [|done]. by destruct Hf.
  - intros j k bj bk Hj Hk [[-> ->]|[Hne Hbj]]%Hlk [[-> ->]|[Hne' Hbk]]%Hlk Hdj Hdk' Heq; [done|..].
    + destruct (Hoth k bk Hne' Hk Hbk Hdk') as [Hno _]. congruence.
    + destruct (Hoth j bj Hne Hj Hbj Hdj) as [Hno _]. congruence.
    + by eapply (cr_uniq _ _ _ Hc).
  - intros n [->|[Hn' Hnb]]%Hpin.
    + exists i, b'. split; [done|]. rewrite list_lookup_insert_eq by done. done.
    + destruct (cr_pinned _ _ _ Hc n Hn') as (j & bj & Hj & Hbj & Hdj & Hbn).
      destruct (decide (j = i)) as [->|]; [|exists j, bj; by rewrite list_lookup_insert_ne].
      rewrite Hb in Hbj. injection Hbj as <-. by destruct (Hnb Hdj).
  - done.
Qed.

(** The buffer of a held block. *)
Lemma crep_held pid s a n i :
  crep pid s a → ca_held a !! n = Some i →
  ∃ b, (i < NBUF)%nat ∧ bs_bufs s !! i = Some b ∧ b_blockno b = n ∧ b_dev b = ROOTDEV ∧
       buf_full pid a i b ∧ b_refcnt b = 1 ∧ b_lock b = mk_sleeplock 1 pid ∧ b_data b = ca_view a n.
Proof.
  intros Hc Hh. destruct (cr_pinned _ _ _ Hc n) as (j & b & Hj & Hb & Hd & Hn).
  { apply elem_of_union_r, elem_of_dom. eauto. }
  destruct (cr_buf _ _ _ Hc j b Hj Hb) as [He|Hf].
  { destruct He as [He _]. rewrite Hd in He. done. }
  pose proof Hf as (_ & _ & _ & Hx & Hdat). rewrite Hn, Hh in Hx. destruct Hx as (<- & ? & ?).
  exists b. rewrite Hn in Hdat. split_and!; done.
Qed.

Lemma other_blockno pid s a i b j bj :
  crep pid s a → (i < NBUF)%nat → bs_bufs s !! i = Some b → b_dev b = ROOTDEV →
  j ≠ i → (j < NBUF)%nat → bs_bufs s !! j = Some bj → b_dev bj = ROOTDEV →
  b_blockno bj ≠ b_blockno b.
Proof.
  intros Hc Hi Hb Hd Hne Hj Hbj Hdj Heq. apply Hne.
  eapply (cr_uniq _ _ _ Hc j i); eauto.
Qed.

(** Changes of the abstract state that leave the other blocks alone keep the
    other buffers. *)
Lemma buf_full_other pid a a' j bj :
  ca_view a' (b_blockno bj) = ca_view a (b_blockno bj) →
  (b_blockno bj ∈ ca_dirty a' ↔ b_blockno bj ∈ ca_dirty a) →
  ca_held a' !! b_blockno bj = ca_held a !! b_blockno bj →
  buf_full pid a j bj → buf_full pid a' j bj.
Proof.
  unfold buf_full. intros -> Hd -> (? & ? & Hf & ? & ?).
  do 2 (split; [done|]). split; [|done].
  rewrite Hf. by repeat case_decide; naive_solver.
Qed.

(** The fields other than the list pointers. *)
Definition buf_core (b : buf) : buf := buf_set_prev 0 (buf_set_next 0 b).

Lemma core_alter f i (bufs : list buf) j :
  (∀ b, buf_core (f b) = buf_core b) → buf_core <$> alter f i bufs !! j = buf_core <$> bufs !! j.
Proof.
  intros Hf. destruct (decide (i = j)) as [->|].
  - rewrite list_lookup_alter_eq. destruct (bufs !! j); simpl; [|done]. by rewrite Hf.
  - by rewrite list_lookup_alter_ne.
Qed.

Lemma core_brelse_move i (bufs : list buf) j :
  buf_core <$> brelse_move i bufs !! j = buf_core <$> bufs !! j.
Proof. unfold brelse_move. by rewrite !core_alter. Qed.

Lemma core_full pid a i b b' : buf_core b' = buf_core b → buf_full pid a i b → buf_full pid a i b'.
Proof.
  unfold buf_full, buf_core. destruct b, b'. simpl. intros [= -> -> -> -> -> ->]. done.
Qed.
Lemma core_empty b b' : buf_core b' = buf_core b → buf_empty b → buf_empty b'.
Proof. unfold buf_empty, buf_core. destruct b, b'. simpl. intros [= -> -> -> -> -> ->]. done. Qed.

Lemma crep_move pid s a i :
  crep pid s a → (i < NBUF)%nat → crep pid (mk_bstate (brelse_move i (bs_bufs s)) (bs_drv s)) a.
Proof.
  intros Hc Hi.
  assert (∀ j b', brelse_move i (bs_bufs s) !! j = Some b' →
    ∃ b, bs_bufs s !! j = Some b ∧ buf_core b' = buf_core b) as Hlk.
  { intros j b' Hb'. pose proof (core_brelse_move i (bs_bufs s) j) as Hcore.
    rewrite Hb' in Hcore. destruct (bs_bufs s !! j) as [b|]; [|done].
    apply (inj Some) in Hcore. eauto. }
  assert (∀ b b', buf_core b' = buf_core b → b_dev b' = b_dev b ∧ b_blockno b' = b_blockno b) as Hid.
  { intros b b' E. split; [exact (f_equal b_dev E)|exact (f_equal b_blockno E)]. }
  split; simpl.
  - by rewrite length_brelse_move, (cr_len _ _ _ Hc).
  - destruct (cr_lru _ _ _ Hc) as (l & Hr & Hl).
    assert (i ∈ l) as Hil by (rewrite Hl, elem_of_seq; lia).
    apply list_elem_of_split in Hil as (l1 & l2 & ->). exists (i :: l1 ++ l2). split.
    + apply brelse_move_ring; [apply (cr_len _ _ _ Hc)| |done].
      intros j. rewrite Hl, elem_of_seq. lia.
    + by rewrite <- Hl, Permutation_middle.
  - apply (cr_ready _ _ _ Hc).
  - apply (cr_disk _ _ _ Hc).
  - intros j b' Hj (b & Hb & Hcore)%Hlk. destruct (cr_buf _ _ _ Hc j b Hj Hb).
    + left. by eapply core_empty.
    + right. by eapply core_full.
  - intros j k bj bk Hj Hk (b & Hb & Hcj)%Hlk (b2 & Hb2 & Hck)%Hlk.
    apply Hid in Hcj as [-> ->], Hck as [-> ->]. by eapply (cr_uniq _ _ _ Hc).
  - intros n (j & b & Hj & Hb & Hd & Hn)%(cr_pinned _ _ _ Hc).
    pose proof (core_brelse_move i (bs_bufs s) j) as Hcore. rewrite Hb in Hcore.
    destruct (brelse_move i (bs_bufs s) !! j) as [b'|] eqn:Eb'; [|done]. apply (inj Some) in Hcore.
    exists j, b'. apply Hid in Hcore as [-> ->]. done.
  - apply (cr_view _ _ _ Hc).
Qed.

(** The representation depends on the content of the blocks only. *)
Definition ca_eq (a a' : cabs) : Prop :=
  (∀ n, ca_view a n = ca_view a' n) ∧ ca_dirty a = ca_dirty a' ∧
  ca_held a = ca_held a' ∧ ca_disk a = ca_disk a'.

#[global] Instance ca_eq_equiv : Equivalence ca_eq.
Proof.
  split.
  - by intros a.
  - intros a a' (? & ? & ? & ?). by repeat split.
  - intros a a' a'' (Hv & ? & ? & ?) (Hv' & ? & ? & ?).
    split; [intros n; by rewrite Hv|]. split_and!; congruence.
Qed.

#[global] Instance crep_proper pid s : Proper (ca_eq ==> iff) (crep pid s).
Proof.
  assert (∀ a a', ca_eq a a' → crep pid s a → crep pid s a') as Hx.
  { intros a a' (Hv & Hd & Hh & Hk) [Hl Hr Hrd Hdk Hb Hu Hp Hvw].
    split; try done; try congruence.
    - intros i b Hi Hbi. destruct (Hb i b Hi Hbi) as [|(? & ? & ? & ? & ?)]; [by left|right].
      unfold buf_full. rewrite <- Hd, <- Hh, <- Hv. done.
    - rewrite <- Hd, <- Hh. exact Hp.
    - intros n. rewrite <- Hd, <- Hh, <- Hk, <- Hv. apply Hvw. }
  intros a a' E. split; apply Hx; [done|by symmetry].
Qed.

Lemma bdata_spec pid s a n i :
  crep pid s a → ca_held a !! n = Some i → bdata i pid s = Ret (ca_view a n) s.
Proof.
  intros Hc Hh. destruct (crep_held _ _ _ _ _ Hc Hh) as (b & Hi & Hb & _ & _ & _ & _ & _ & Hd).
  unfold bdata. rewrite (bind_Ret _ _ _ _ _ _ (bufat_eq _ _ _ _ Hb)). munfold. by rewrite Hd.
Qed.

Lemma bset_data_spec pid s a n i d :
  crep pid s a → ca_held a !! n = Some i →
  ∃ s', bset_data i d pid s = Ret tt s' ∧ crep pid s' (ca_set_view n d a) ∧ bs_drv s' = bs_drv s.
Proof.
  intros Hc Hh. destruct (crep_held _ _ _ _ _ Hc Hh) as (b & Hi & Hb & Hn & Hd & Hf & Hr & Hl & Hdat).
  exists (bs_put i (buf_set_data d b) s). split.
  { unfold bset_data. munfold. by rewrite (bs_alter_put _ _ _ _ Hb). }
  split; [|done]. eapply crep_update; eauto using cr_ready; [apply (cr_disk _ _ _ Hc)|..].
  - pose proof Hf as (? & ? & Hfl & Hh' & _). unfold buf_full. simpl. rewrite Hn in *.
    by rewrite fn_lookup_insert.
  - intros j bj Hne Hj Hbj Hdj.
    pose proof (other_blockno _ _ _ _ _ _ _ Hc Hi Hb Hd Hne Hj Hbj Hdj) as Hx. simpl.
    split; [done|]. apply buf_full_other; simpl; try done.
    rewrite fn_lookup_insert_ne by congruence. done.
  - intros m Hm. simpl. destruct (decide (m = n)) as [->|]; [by left|].
    right. split; [done|]. congruence.
  - intros m Hm Hhm. simpl in *. rewrite fn_lookup_insert_ne by (intros ->; congruence).
    by apply (cr_view _ _ _ Hc).
Qed.

Lemma bset_dirty_spec pid s a n i :
  crep pid s a → ca_held a !! n = Some i →
  ∃ s', bset_dirty i pid s = Ret tt s' ∧
        crep pid s' (ca_set_dirty ({[n]} ∪ ca_dirty a) a) ∧ bs_drv s' = bs_drv s.
Proof.
  intros Hc Hh. destruct (crep_held _ _ _ _ _ Hc Hh) as (b & Hi & Hb & Hn & Hd & Hf & Hr & Hl & Hdat).
  eexists (bs_put i _ s). split.
  { unfold bset_dirty. munfold. by rewrite (bs_alter_put _ _ _ _ Hb). }
  split; [|done]. eapply crep_update; eauto using cr_ready; [apply (cr_disk _ _ _ Hc)|..].
  - pose proof Hf as (? & ? & Hfl & Hh' & ?). unfold buf_full. simpl. rewrite Hn in *.
    do 2 (split; [done|]). split; [|done].
    rewrite decide_True by set_solver. rewrite Hfl. by case_decide.
  - intros j bj Hne Hj Hbj Hdj.
    pose proof (other_blockno _ _ _ _ _ _ _ Hc Hi Hb Hd Hne Hj Hbj Hdj) as Hx. simpl.
    split; [done|]. apply buf_full_other; simpl; try done. rewrite Hn in Hx. set_solver.
  - intros m Hm. simpl in *. destruct (decide (m = n)) as [->|]; [by left|].
    right. split; [set_solver|]. congruence.
  - intros m Hm Hhm. simpl in *. apply (cr_view _ _ _ Hc); set_solver.
Qed.

Lemma holding_mine pid : holdingsleep pid (mk_sleeplock 1 pid) = true.
Proof. unfold holdingsleep. simpl. by rewrite Z.eqb_refl. Qed.

Lemma bwrite_spec pid s a n i :
  crep pid s a → ca_held a !! n = Some i →
  ∃ s', bwrite i pid s = Ret tt s' ∧
        crep pid s' (ca_set_dirty (ca_dirty a ∖ {[n]})
          (ca_set_disk (disk_do (DWrite n (ca_view a n)) (ca_disk a)) a)) ∧
        drv_selected (bs_drv s').
Proof.
  intros Hc Hh. destruct (crep_held _ _ _ _ _ Hc Hh) as (b & Hi & Hb & Hn & Hd & Hf & Hr & Hl & Hdat).
  pose proof Hf as (_ & Hrange & Hfl & Hh' & _).
  set (b1 := buf_set_flags (Z.lor (b_flags b) B_DIRTY) b).
  destruct (drv_write pid b1 (bs_drv s)) as (d' & He & Hrd & Hsel & Hdk); try done.
  { apply (cr_ready _ _ _ Hc). }
  { simpl. rewrite Hl. apply holding_mine. }
  { simpl. right. rewrite Hfl. by case_decide. }
  exists (mk_bstate (<[i := buf_set_flags B_VALID b1]> (bs_bufs s)) d'). split_and!.
  - unfold bwrite. rewrite bind_Ret with (a := pid) (s' := s) by done.
    rewrite (bind_Ret _ _ _ _ _ _ (bufat_eq _ _ _ _ Hb)). rewrite Hl, holding_mine.
    cbn [negb]. rewrite bind_Ret with (a := buf_set_flags B_VALID b1) (s' := mk_bstate (bs_bufs s) d').
    + munfold. erewrite bs_alter_put by exact Hb. done.
    + unfold lift. simpl. fold b1. by rewrite He.
  - eapply crep_update; eauto; simpl.
    + rewrite Hdk, (cr_disk _ _ _ Hc). unfold b1. simpl. by rewrite Hn, Hdat.
    + unfold buf_full. simpl. rewrite Hn in *.
      rewrite decide_False by set_solver. done.
    + intros j bj Hne Hj Hbj Hdj.
      pose proof (other_blockno _ _ _ _ _ _ _ Hc Hi Hb Hd Hne Hj Hbj Hdj) as Hx.
      split; [done|]. apply buf_full_other; simpl; try done. rewrite Hn in Hx. set_solver.
    + intros m Hm. destruct (decide (m = n)) as [->|]; [by left|].
      right. split; [set_solver|]. congruence.
    + intros m Hm Hhm. assert (m ≠ n) by (intros ->; congruence).
      rewrite disk_img_do, img_apply_ne by done. apply (cr_view _ _ _ Hc); set_solver.
  - done.
Qed.

(** The buffer [brelse] leaves, before it is moved. *)
Definition buf_released (b : buf) : buf := buf_set_refcnt 0 (buf_set_lock (mk_sleeplock 0 0) b).

Lemma brelse_run pid s a n i b :
  crep pid s a → ca_held a !! n = Some i → bs_bufs s !! i = Some b →
  brelse i pid s = Ret tt (mk_bstate (brelse_move i (bs_bufs (bs_put i (buf_released b) s))) (bs_drv s)).
Proof.
  intros Hc Hh Hb. destruct (crep_held _ _ _ _ _ Hc Hh) as (b' & Hi & Hb' & _ & _ & _ & Hr & Hl & _).
  rewrite Hb in Hb'. injection Hb' as <-.
  unfold brelse. rewrite bind_Ret with (a := pid) (s' := s) by done.
  rewrite (bind_Ret _ _ _ _ _ _ (bufat_eq _ _ _ _ Hb)). rewrite Hl, holding_mine. cbn [negb].
  munfold. rewrite (bs_alter_put _ _ _ _ Hb).
  erewrite bs_alter_put by (by eapply bs_put_lookup). rewrite bs_put_put. simpl.
  rewrite Hr. change (u32 (1 - 1)) with 0.
  change (buf_set_refcnt 0 (buf_set_lock (releasesleep (b_lock b)) b)) with (buf_released b).
  unfold bufat. munfold. rewrite (list_lookup_insert_eq (bs_bufs s)); [done|].
  by eapply lookup_lt_Some.
Qed.

Lemma brelse_spec pid s a n i :
  crep pid s a → ca_held a !! n = Some i →
  n ∈ ca_dirty a ∨ ca_view a n = disk_img (ca_disk a) n →
  ∃ s', brelse i pid s = Ret tt s' ∧
        crep pid s' (ca_set_held (delete n (ca_held a)) a) ∧ bs_drv s' = bs_drv s.
Proof.
  intros Hc Hh Hco.
  destruct (crep_held _ _ _ _ _ Hc Hh) as (b & Hi & Hb & Hn & Hd & Hf & Hr & Hl & Hdat).
  set (b1 := buf_released b).
  assert (crep pid (bs_put i b1 s) (ca_set_held (delete n (ca_held a)) a)) as Hc1.
  { eapply crep_update; eauto using cr_ready; simpl; [apply (cr_disk _ _ _ Hc)|..].
    - pose proof Hf as (? & ? & Hfl & Hh' & _). unfold buf_full. simpl. rewrite Hn in *.
      rewrite lookup_delete_eq. done.
    - intros j bj Hne Hj Hbj Hdj.
      pose proof (other_blockno _ _ _ _ _ _ _ Hc Hi Hb Hd Hne Hj Hbj Hdj) as Hx.
      split; [done|]. apply buf_full_other; simpl; try done.
      by rewrite lookup_delete_ne by congruence.
    - intros m Hm. destruct (decide (m = n)) as [->|]; [by left|].
      right. split; [set_solver|]. congruence.
    - intros m Hm Hhm. destruct (decide (m = n)) as [->|]; [naive_solver|].
      rewrite lookup_delete_ne in Hhm by done. by apply (cr_view _ _ _ Hc). }
  exists (mk_bstate (brelse_move i (bs_bufs (bs_put i b1 s))) (bs_drv s)). split_and!.
  - by apply (brelse_run pid s a n).
  - by apply (crep_move pid (bs_put i b1 s)).
  - done.
Qed.

Lemma nextp_head pid s hd_ : bs_bufs s !! NBUF = Some hd_ →
  bufat NBUF pid s = Ret hd_ s ∧ b_next hd_ = nextp (bs_bufs s) NBUF ∧
  b_prev hd_ = prevp (bs_bufs s) NBUF.
Proof.
  intros Hb. split; [by apply bufat_eq|].
  by rewrite (nextp_lookup _ _ _ Hb), (prevp_lookup _ _ _ Hb).
Qed.

Lemma block_lock_free pid s i b :
  bs_bufs s !! i = Some b → sl_locked (b_lock b) = 0 →
  block_lock i pid s = Ret tt (bs_put i (buf_set_lock (mk_sleeplock 1 pid) b) s).
Proof.
  intros Hb Hl. unfold block_lock. rewrite bind_Ret with (a := pid) (s' := s) by done.
  rewrite (bind_Ret _ _ _ _ _ _ (bufat_eq _ _ _ _ Hb)). unfold acquiresleep. rewrite Hl. simpl.
  munfold. by rewrite (bs_alter_put _ _ _ _ Hb).
Qed.

(** [bget] on a block that is in the cache and not in use. *)
Lemma bget_hit pid s a n i b :
  crep pid s a → ca_held a !! n = None → (i < NBUF)%nat →
  bs_bufs s !! i = Some b → b_dev b = ROOTDEV → b_blockno b = n →
  bget_cached (S NBUF) (bs_bufs s) (nextp (bs_bufs s) NBUF) ROOTDEV n = Some (Some i) →
  let b' := buf_set_lock (mk_sleeplock 1 pid) (buf_set_refcnt 1 b) in
  bget ROOTDEV n pid s = Ret i (bs_put i b' s) ∧
  crep pid (bs_put i b' s) (ca_set_held (<[n := i]> (ca_held a)) a).
Proof.
  intros Hc Hh Hi Hb Hd Hn Hscan b'.
  destruct (cr_buf _ _ _ Hc i b Hi Hb) as [[He _]|Hf]; [by rewrite Hd in He|].
  pose proof Hf as (_ & Hrange & Hfl & Hx & Hdat). rewrite Hn, Hh in Hx. destruct Hx as [Hr Hl].
  destruct (lookup_lt_is_Some_2 (bs_bufs s) NBUF) as [hd_ Hhd]; [rewrite (cr_len _ _ _ Hc); lia|].
  destruct (nextp_head pid s hd_ Hhd) as (Hbh & Hnh & _). split.
  - unfold bget. rewrite (bind_Ret _ _ _ _ _ _ Hbh), Hnh.
    rewrite bind_Ret with (a := s) (s' := s) by done. rewrite Hscan.
    rewrite bind_Ret with (a := tt) (s' := bs_put i (buf_set_refcnt 1 b) s).
    2: { munfold. rewrite (bs_alter_put _ _ _ _ Hb), Hr. done. }
    erewrite bind_Ret.
    2: { apply block_lock_free; [by eapply bs_put_lookup|done]. }
    munfold. by rewrite bs_put_put.
  - eapply crep_update; eauto using cr_ready; simpl; [apply (cr_disk _ _ _ Hc)|..].
    + unfold buf_full. simpl. rewrite Hn in *. rewrite lookup_insert_eq. done.
    + intros j bj Hne Hj Hbj Hdj.
      pose proof (other_blockno _ _ _ _ _ _ _ Hc Hi Hb Hd Hne Hj Hbj Hdj) as Hx.
      split; [done|]. apply buf_full_other; simpl; try done.
      by rewrite lookup_insert_ne by congruence.
    + intros m Hm. destruct (decide (m = n)) as [->|]; [by left|].
      right. split; [set_solver|]. congruence.
    + intros m Hm Hhm. destruct (decide (m = n)) as [->|].
      { by rewrite lookup_insert_eq in Hhm. }
      rewrite lookup_insert_ne in Hhm by done. by apply (cr_view _ _ _ Hc).
Qed.

(** [bread] of a block that is not in the cache: an unused buffer is filled
    from the disk. *)
Lemma bread_miss pid s a n i b :
  crep pid s a → 0 ≤ n < FSSIZE → ca_held a !! n = None →
  (∀ i b, (i < NBUF)%nat → bs_bufs s !! i = Some b → ¬ (b_dev b = ROOTDEV ∧ b_blockno b = n)) →
  (i < NBUF)%nat → bs_bufs s !! i = Some b → reusable b →
  bget_cached (S NBUF) (bs_bufs s) (nextp (bs_bufs s) NBUF) ROOTDEV n = Some None →
  bget_unused (S NBUF) (bs_bufs s) (prevp (bs_bufs s) NBUF) = Some (Some i) →
  ∃ s', bread ROOTDEV n pid s = Ret i s' ∧
        crep pid s' (ca_set_held (<[n := i]> (ca_held a)) a).
Proof.
  intros Hc Hrange Hh Hno Hi Hb [Hr Hnd] Hs1 Hs2.
  assert (n ∉ ca_dirty a) as Hndirty.
  { intros Hin. destruct (cr_pinned _ _ _ Hc n) as (j & bj & ? & ? & ?); [set_solver|].
    by eapply Hno. }
  assert (sl_locked (b_lock b) = 0 ∧
    (b_dev b = ROOTDEV → b_blockno b ∉ ca_dirty a ∪ dom (ca_held a))) as [Hl Hfree].
  { destruct (cr_buf _ _ _ Hc i b Hi Hb) as [(He & _ & _ & ?)|(Hd & _ & Hfl & Hx & _)].
    - split; [done|]. rewrite He. done.
    - destruct (ca_held a !! b_blockno b) eqn:E; [destruct Hx as (_ & Hx & _); congruence|].
      split; [naive_solver|]. intros _ [Hin|Hin]%elem_of_union.
      + rewrite decide_True in Hfl by done. rewrite Hfl in Hnd. done.
      + apply elem_of_dom in Hin. rewrite E in Hin. by destruct Hin. }
  destruct (lookup_lt_is_Some_2 (bs_bufs s) NBUF) as [hd_ Hhd]; [rewrite (cr_len _ _ _ Hc); lia|].
  destruct (nextp_head pid s hd_ Hhd) as (Hbh & Hnh & Hph).
  set (b1 := buf_set_lock (mk_sleeplock 1 pid)
               (buf_set_refcnt 1 (buf_set_flags 0 (buf_set_id ROOTDEV n b)))).
  destruct (drv_read pid b1 (bs_drv s)) as (d' & He & Hrd & Hsel & Hdk); try done.
  { apply (cr_ready _ _ _ Hc). }
  { apply holding_mine. }
  set (b2 := buf_set_flags B_VALID
    (buf_set_data (disk_img (drv_disk (bs_drv s) ROOTDEV) n) b1)).
  exists (mk_bstate (<[i := b2]> (bs_bufs s)) d'). split.
  - unfold bread. rewrite bind_Ret with (a := i) (s' := bs_put i b1 s).
    2: { unfold bget. rewrite (bind_Ret _ _ _ _ _ _ Hbh), Hnh, Hph.
         rewrite bind_Ret with (a := s) (s' := s) by done. rewrite Hs1, Hs2.
         erewrite bind_Ret; [|munfold; by rewrite (bs_alter_put _ _ _ _ Hb)].
         erewrite bind_Ret; [|apply block_lock_free; [by eapply bs_put_lookup|done]].
         munfold. by rewrite bs_put_put. }
    rewrite bind_Ret with (a := b1) (s' := bs_put i b1 s).
    2: { apply bufat_eq. by eapply bs_put_lookup. }
    rewrite bind_Ret with (a := tt) (s' := mk_bstate (<[i := b2]> (bs_bufs s)) d'); [done|].
    change (Z.land (b_flags b1) B_VALID =? 0) with true. cbv iota.
    rewrite bind_Ret with (a := b2) (s' := mk_bstate (<[i := b1]> (bs_bufs s)) d').
    2: { unfold lift. simpl. by rewrite He. }
    munfold. erewrite (bs_alter_put (mk_bstate (<[i := b1]> (bs_bufs s)) d')).
    2: { simpl. apply list_lookup_insert_eq. by eapply lookup_lt_Some. }
    unfold bs_put. simpl. by rewrite list_insert_insert_eq.
  - eapply crep_update; eauto; simpl.
    + by rewrite Hdk, (cr_disk _ _ _ Hc).
    + unfold buf_full. simpl. rewrite decide_False by done. rewrite lookup_insert_eq.
      rewrite (cr_view _ _ _ Hc) by done. by rewrite (cr_disk _ _ _ Hc).
    + intros j bj Hne Hj Hbj Hdj. assert (b_blockno bj ≠ n) by (intros ?; by eapply (Hno j bj)).
      split; [done|]. apply buf_full_other; simpl; try done.
      by rewrite lookup_insert_ne by congruence.
    + intros m Hm. destruct (decide (m = n)) as [->|]; [by left|].
      right. split; [set_solver|]. intros Hd ->. apply (Hfree Hd). set_solver.
    + intros m Hm Hhm. destruct (decide (m = n)) as [->|].
      { by rewrite lookup_insert_eq in Hhm. }
      rewrite lookup_insert_ne in Hhm by done. by apply (cr_view _ _ _ Hc).
Qed.

Lemma bread_spec pid s a n :
  crep pid s a → 0 ≤ n < FSSIZE → ca_held a !! n = None →
  n ∈ ca_dirty a ∨ room a →
  ∃ i s', bread ROOTDEV n pid s = Ret i s' ∧
          crep pid s' (ca_set_held (<[n := i]> (ca_held a)) a) ∧ (i < NBUF)%nat.
Proof.
  intros Hc Hrange Hh Hroom.
  destruct (crep_cached pid s a ROOTDEV n Hc) as [[Hscan Hno]|(i & b & Hscan & Hi & Hb & Hd & Hn)].
  - assert (room a) as Hr.
    { destruct Hroom as [Hin|]; [|done].
      destruct (cr_pinned _ _ _ Hc n) as (j & bj & ? & ? & ?); [set_solver|]. by destruct (Hno j bj). }
    destruct (crep_unused pid s a Hc) as [[_ Hnone]|(i & b & Hs2 & Hi & Hb & Hre)].
    + destruct (room_reusable pid s a Hc Hr) as (i & b & ? & ? & ?). by destruct (Hnone i b).
    + destruct (bread_miss pid s a n i b) as (s' & ? & ?); eauto.
  - destruct (bget_hit pid s a n i b) as [Hg Hc']; auto.
    exists i. eexists. split; [|by split].
    unfold bread. rewrite (bind_Ret _ _ _ _ _ _ Hg).
    erewrite bind_Ret; [|apply bufat_eq; by eapply bs_put_lookup]. simpl.
    destruct (cr_buf _ _ _ Hc i b Hi Hb) as [[He _]|(_ & _ & Hfl & _)]; [by rewrite Hd in He|].
    rewrite Hfl. by case_decide.
Qed.

(** ** Boot *)

#[global] Instance buf_empty_dec b : Decision (buf_empty b).
Proof. unfold buf_empty. apply _. Defined.

(** The abstract state of an empty cache on a disk. *)
Definition ca_boot (d : disk) : cabs := mk_cabs (disk_img d) ∅ ∅ d.

Definition binit_bufs : list buf := binit (replicate (S NBUF) buf_zero).

Lemma binit_empty : Forall buf_empty binit_bufs.
Proof. apply (bool_decide_unpack _). vm_compute. exact I. Qed.

Lemma binit_length : length binit_bufs = S NBUF.
Proof. vm_compute. reflexivity. Qed.

Lemma binit_ring : ring (nextp binit_bufs) (prevp binit_bufs) NBUF (reverse (seq 0 NBUF)).
Proof. apply (bool_decide_unpack _). vm_compute. exact I. Qed.

Lemma binit_crep pid (d : D) :
  drv_ready d → crep pid (mk_bstate binit_bufs d) (ca_boot (drv_disk d ROOTDEV)).
Proof.
  intros Hd. pose proof binit_length as Hl. pose proof binit_ring as Hr.
  pose proof binit_empty as Hf. revert Hl Hr Hf. generalize binit_bufs. intros bufs Hl Hr Hf.
  assert (∀ i b, bufs !! i = Some b → buf_empty b) as He by (intros i b Hi; by eapply Forall_lookup_1 in Hf).
  split; try done.
  - exists (reverse (seq 0 NBUF)). split; [done|]. by rewrite reverse_Permutation.
  - intros i b _ Hb. left. by eapply He.
  - intros i j bi bj _ _ Hbi _ Hdi. destruct (He i bi Hbi) as [E _]. rewrite E in Hdi. done.
Qed.

(** ** Main theorems *)

(** C33. [bread] returns the block: for a block the process does not already
    hold, when the block is pinned or some buffer is free to recycle, it
    returns a buffer of the cache, locked by the caller, that holds the current
    content of that block, and leaves every other block as it was. *)
Theorem bread_returns_block pid s a n :
  crep pid s a → 0 ≤ n < FSSIZE → ca_held a !! n = None → n ∈ ca_dirty a ∨ room a →
  ∃ i s' b, bread ROOTDEV n pid s = Ret i s' ∧
    crep pid s' (ca_set_held (<[n := i]> (ca_held a)) a) ∧
    bs_bufs s' !! i = Some b ∧ b_dev b = ROOTDEV ∧ b_blockno b = n ∧
    holdingsleep pid (b_lock b) = true ∧ b_data b = ca_view a n.
Proof.
  intros Hc Hr Hh Hro. destruct (bread_spec pid s a n Hc Hr Hh Hro) as (i & s' & E & Hc' & _).
  destruct (crep_held pid s' _ n i Hc') as (b & _ & Hb & Hn & Hd & _ & _ & Hl & Hdat).
  { simpl. apply lookup_insert_eq. }
  exists i, s', b. rewrite Hl, holding_mine. done.
Qed.

(** [brelse] keeps the list in recency order: releasing a buffer nobody
    else wants unlinks it from its place in the doubly linked list and puts it
    at the front, the others keeping their order, and the block it held stays
    cached for the next [bread]. *)
Theorem brelse_most_recent pid s a n i l1 l2 :
  crep pid s a → ca_held a !! n = Some i → n ∈ ca_dirty a ∨ ca_view a n = disk_img (ca_disk a) n →
  ring (nextp (bs_bufs s)) (prevp (bs_bufs s)) NBUF (l1 ++ i :: l2) → l1 ++ i :: l2 ≡ₚ seq 0 NBUF →
  ∃ s', brelse i pid s = Ret tt s' ∧ crep pid s' (ca_set_held (delete n (ca_held a)) a) ∧
    ring (nextp (bs_bufs s')) (prevp (bs_bufs s')) NBUF (i :: l1 ++ l2).
Proof.
  intros Hc Hh Hsy Hr Hp. destruct (brelse_spec pid s a n i Hc Hh Hsy) as (s' & E & Hc' & _).
  destruct (crep_held _ _ _ _ _ Hc Hh) as (b & _ & Hb & _).
  exists s'. split; [done|]. split; [done|]. rewrite (brelse_run pid s a n i b Hc Hh Hb) in E.
  injection E as <-. simpl. apply brelse_move_ring.
  - simpl. rewrite length_insert. apply Hc.
  - intros j Hj. rewrite Hp in Hj. apply elem_of_seq in Hj. lia.
  - pose proof (f_equal bs_bufs (bs_alter_put s i b buf_released Hb)) as E. simpl in E.
    rewrite <- E. by apply ring_alter.
Qed.

End spec.

#[global] Opaque binit_bufs.

(** ** Instances: a fresh cache over memide.c *)

Definition ex_mem : mem_state := mem_ideinit (λ _, zero_block) (FSSIZE * BSIZE).

Lemma ex_mem_crep : crep 1 (mk_bstate binit_bufs ex_mem) (ca_boot (drv_disk ex_mem ROOTDEV)).
Proof. apply (binit_crep 1 ex_mem). vm_compute. done. Qed.

Lemma ca_boot_room d : room (ca_boot d).
Proof. unfold room, ca_boot. simpl. rewrite dom_empty_L, union_empty_r_L, size_empty. unfold NBUF. lia. Qed.

Lemma bread_returns_block_witness :
  ∃ i s', bread ROOTDEV 7 1 (mk_bstate binit_bufs ex_mem) = Ret i s'.
Proof.
  destruct (bread_returns_block 1 _ _ 7 ex_mem_crep) as (i & s' & b & E & _).
  - unfold FSSIZE. lia.
  - reflexivity.
  - right. apply ca_boot_room.
  - exists i, s'. exact E.
Defined.

Lemma brelse_most_recent_witness : ∃ i (s s' : bstate mem_state), brelse i 1 s = Ret tt s'.
Proof.
  destruct (bread_spec 1 _ _ 7 ex_mem_crep) as (i & s & _ & Hc & Hi);
    [unfold FSSIZE; lia|reflexivity|right; apply ca_boot_room|].
  destruct (cr_lru _ _ _ Hc) as (l & Hr & Hp).
  assert (i ∈ l) as Hin by (rewrite Hp; apply elem_of_seq; lia).
  apply list_elem_of_split in Hin as (l1 & l2 & ->).
  destruct (brelse_most_recent 1 s _ 7 i l1 l2 Hc) as (s' & E & _).
  - apply lookup_insert_eq.
  - right. reflexivity.
  - exact Hr.
  - exact Hp.
  - exists i, s, s'. exact E.
Defined.
