(* ===== verification/Log.v ===== *)
(** * The journal (log.c, journalstat.h; [readsb] of fs.c)

    The in-memory log, the statistics and the journal operations, over the
    buffer cache of [Bio].  Sleeping on the log and waking its sleepers are
    kept as the list of processes asleep on it. *)

From S2P Require Import Prelude Layout Sleeplock Disk Bio Crc32.

(** ** struct logheader, struct journal_stats, struct log *)

Record logheader := mk_logheader {
  lh_n : Z;
  lh_block : list Z;
  lh_cksum : list Z;
  lh_offset : list Z;
  lh_len : list Z;
}.

Definition lh_set_n n lh :=
  mk_logheader n (lh_block lh) (lh_cksum lh) (lh_offset lh) (lh_len lh).
Definition lh_set_block b lh :=
  mk_logheader (lh_n lh) b (lh_cksum lh) (lh_offset lh) (lh_len lh).
Definition lh_set_cksum c lh :=
  mk_logheader (lh_n lh) (lh_block lh) c (lh_offset lh) (lh_len lh).
Definition lh_set_offset o lh :=
  mk_logheader (lh_n lh) (lh_block lh) (lh_cksum lh) o (lh_len lh).
Definition lh_set_len l lh :=
  mk_logheader (lh_n lh) (lh_block lh) (lh_cksum lh) (lh_offset lh) l.

Record journal_stats := mk_journal_stats {
  total_commits : Z;
  total_recoveries : Z;
  checksum_errors : Z;
  blocks_written : Z;
  blocks_installed : Z;
  bytes_logged : Z;
  group_commit_batches : Z;
  flush_barriers : Z;
  max_batch_size : Z;
  total_ops_batched : Z;
}.

Definition jstats_zero : journal_stats := mk_journal_stats 0 0 0 0 0 0 0 0 0 0.

Definition js_recovery js := mk_journal_stats (total_commits js) (s32 (total_recoveries js + 1))
  (checksum_errors js) (blocks_written js) (blocks_installed js) (bytes_logged js)
  (group_commit_batches js) (flush_barriers js) (max_batch_size js) (total_ops_batched js).
Definition js_checksum_error js := mk_journal_stats (total_commits js) (total_recoveries js)
  (s32 (checksum_errors js + 1)) (blocks_written js) (blocks_installed js) (bytes_logged js)
  (group_commit_batches js) (flush_barriers js) (max_batch_size js) (total_ops_batched js).
Definition js_written len js := mk_journal_stats (total_commits js) (total_recoveries js)
  (checksum_errors js) (s32 (blocks_written js + 1)) (blocks_installed js) (s32 (bytes_logged js + len))
  (group_commit_batches js) (flush_barriers js) (max_batch_size js) (total_ops_batched js).
Definition js_installed js := mk_journal_stats (total_commits js) (total_recoveries js)
  (checksum_errors js) (blocks_written js) (s32 (blocks_installed js + 1)) (bytes_logged js)
  (group_commit_batches js) (flush_barriers js) (max_batch_size js) (total_ops_batched js).
Definition js_flush js := mk_journal_stats (total_commits js) (total_recoveries js)
  (checksum_errors js) (blocks_written js) (blocks_installed js) (bytes_logged js)
  (group_commit_batches js) (s32 (flush_barriers js + 1)) (max_batch_size js) (total_ops_batched js).

(** The statistics at the end of [commit], for a batch of [batch] operations. *)
Definition js_commit batch js := mk_journal_stats (s32 (total_commits js + 1)) (total_recoveries js)
  (checksum_errors js) (blocks_written js) (blocks_installed js) (bytes_logged js)
  (if 1 <? batch then s32 (group_commit_batches js + 1) else group_commit_batches js)
  (flush_barriers js)
  (if max_batch_size js <? batch then batch else max_batch_size js)
  (s32 (total_ops_batched js + batch)).

(** Copies of a byte range of a block, with the bounds C requires. *)
Definition in_block (off len : Z) : bool := (0 <=? off) && (off + len <=? BSIZE).

(** [len] bytes read from [data + off]; a length below one reads nothing. *)
Definition mslice (off len : Z) (data : block) : option (list Z) :=
  if len <=? 0 then Some []
  else if in_block off len then Some (slice (Z.to_nat off) (Z.to_nat len) data) else None.

(** [memmove(dst + off, src + off, len)] on two blocks; the length is taken
    as unsigned. *)
Definition mmove (off len : Z) (dst src : block) : option block :=
  if (0 <=? len) && in_block off len
  then Some (splice (Z.to_nat off) (slice (Z.to_nat off) (Z.to_nat len) src) dst) else None.

Definition orundef {S A} (o : option A) : M S A :=
  match o with Some x => mret x | None => undef "out of bounds" end.

Section log.
Context {D : Type} `{DiskFlush D}.

Record lstate := mk_lstate {
  l_bio : bstate D;
  l_crc : crc_state;
  l_start : Z;
  l_size : Z;
  l_outstanding : Z;
  l_committing : Z;
  l_dev : Z;
  l_batch_size : Z;
  l_lh : logheader;
  jstats : journal_stats;
  crash_at_phase : Z;
  l_sleepers : list Z;
}.

Definition l_set_bio b s := mk_lstate b (l_crc s) (l_start s) (l_size s) (l_outstanding s)
  (l_committing s) (l_dev s) (l_batch_size s) (l_lh s) (jstats s) (crash_at_phase s) (l_sleepers s).
Definition l_set_crc c s := mk_lstate (l_bio s) c (l_start s) (l_size s) (l_outstanding s)
  (l_committing s) (l_dev s) (l_batch_size s) (l_lh s) (jstats s) (crash_at_phase s) (l_sleepers s).
Definition l_set_geom start size dev s := mk_lstate (l_bio s) (l_crc s) start size (l_outstanding s)
  (l_committing s) dev (l_batch_size s) (l_lh s) (jstats s) (crash_at_phase s) (l_sleepers s).
Definition l_set_outstanding o s := mk_lstate (l_bio s) (l_crc s) (l_start s) (l_size s) o
  (l_committing s) (l_dev s) (l_batch_size s) (l_lh s) (jstats s) (crash_at_phase s) (l_sleepers s).
Definition l_set_committing c s := mk_lstate (l_bio s) (l_crc s) (l_start s) (l_size s) (l_outstanding s)
  c (l_dev s) (l_batch_size s) (l_lh s) (jstats s) (crash_at_phase s) (l_sleepers s).
Definition l_set_batch_size b s := mk_lstate (l_bio s) (l_crc s) (l_start s) (l_size s) (l_outstanding s)
  (l_committing s) (l_dev s) b (l_lh s) (jstats s) (crash_at_phase s) (l_sleepers s).
Definition l_set_lh lh s := mk_lstate (l_bio s) (l_crc s) (l_start s) (l_size s) (l_outstanding s)
  (l_committing s) (l_dev s) (l_batch_size s) lh (jstats s) (crash_at_phase s) (l_sleepers s).
Definition l_set_jstats js s := mk_lstate (l_bio s) (l_crc s) (l_start s) (l_size s) (l_outstanding s)
  (l_committing s) (l_dev s) (l_batch_size s) (l_lh s) js (crash_at_phase s) (l_sleepers s).
Definition l_set_crash p s := mk_lstate (l_bio s) (l_crc s) (l_start s) (l_size s) (l_outstanding s)
  (l_committing s) (l_dev s) (l_batch_size s) (l_lh s) (jstats s) p (l_sleepers s).
Definition l_set_sleepers l s := mk_lstate (l_bio s) (l_crc s) (l_start s) (l_size s) (l_outstanding s)
  (l_committing s) (l_dev s) (l_batch_size s) (l_lh s) (jstats s) (crash_at_phase s) l.

#[global] Instance l_bio_lens : Lens lstate (bstate D) := {| lget := l_bio; lput := l_set_bio |}.

Definition lh_upd (f : logheader → logheader) : M lstate unit :=
  modify (λ s, l_set_lh (f (l_lh s)) s).
Definition js_upd (f : journal_stats → journal_stats) : M lstate unit :=
  modify (λ s, l_set_jstats (f (jstats s)) s).

(** [crc32] on bytes already read. *)
Definition log_crc32 (data : list Z) : M lstate Z :=
  s ← get;
  let '(c, st) := crc32 (l_crc s) data in
  modify (l_set_crc st) ;; mret c.

(** [sleep(&log, &log.lock)] and [wakeup(&log)]. *)
Definition sleep_log {A} : M lstate A :=
  pid ← mypid;
  modify (λ s, l_set_sleepers (pid :: l_sleepers s) s) ;;
  sleep_on ChLog.
Definition wakeup_log : M lstate unit := modify (l_set_sleepers []).

(** Read the super block (fs.c). *)
Definition readsb (dev : Z) : M (bstate D) superblock :=
  bp ← bread dev 1;
  d ← bdata bp;
  let sb := sb_decode d in
  brelse bp ;;
  mret sb.

(** ** install_trans *)

Definition install_one (tail : Z) : M lstate unit :=
  s ← get;
  lbuf ← lift (bread (l_dev s) (u32 (l_start s + tail + 1)));
  dst ← aget (lh_block (l_lh s)) tail;
  dbuf ← lift (bread (l_dev s) (u32 dst));
  off ← aget (lh_offset (l_lh s)) tail;
  len ← aget (lh_len (l_lh s)) tail;
  cksum ← aget (lh_cksum (l_lh s)) tail;
  ldata ← lift (bdata lbuf);
  sl ← orundef (mslice off len ldata);
  computed ← log_crc32 sl;
  if negb (computed =? cksum) then
    js_upd js_checksum_error ;;
    lift (brelse lbuf) ;;
    lift (brelse dbuf)
  else
    ddata ← lift (bdata dbuf);
    nd ← orundef (mmove off len ddata ldata);
    lift (bset_data dbuf nd) ;;
    lift (bwrite dbuf) ;;
    js_upd js_installed ;;
    lift (brelse lbuf) ;;
    lift (brelse dbuf).

Definition install_trans : M lstate unit :=
  s ← get;
  forM (seqZ 0 (lh_n (l_lh s))) install_one.

(** ** read_head, write_head *)

(** The log header as it is laid out in its block. *)
Definition hd_n (b : block) : Z := s32 (rd32 0 b).
Definition hd_block (b : block) (i : Z) : Z := s32 (rd32 (LH_BLOCK + 4 * Z.to_nat i) b).
Definition hd_cksum (b : block) (i : Z) : Z := rd32 (LH_CKSUM + 4 * Z.to_nat i) b.
Definition hd_offset (b : block) (i : Z) : Z := s32 (rd32 (LH_OFFSET + 4 * Z.to_nat i) b).
Definition hd_len (b : block) (i : Z) : Z := s32 (rd32 (LH_LEN + 4 * Z.to_nat i) b).

Definition read_head_one (data : block) (i : Z) : M lstate unit :=
  lh ← gets l_lh;
  bl ← aset (lh_block lh) i (hd_block data i);
  ck ← aset (lh_cksum lh) i (hd_cksum data i);
  os ← aset (lh_offset lh) i (hd_offset data i);
  ls ← aset (lh_len lh) i (hd_len data i);
  lh_upd (λ lh, mk_logheader (lh_n lh) bl ck os ls).

Definition read_head : M lstate unit :=
  s ← get;
  buf ← lift (bread (l_dev s) (u32 (l_start s)));
  data ← lift (bdata buf);
  lh_upd (lh_set_n (hd_n data)) ;;
  forM (seqZ 0 (hd_n data)) (read_head_one data) ;;
  lift (brelse buf).

(** The stores of [write_head] for entry [i]. *)
Definition write_head_one (buf : nat) (i : Z) : M lstate unit :=
  lh ← gets l_lh;
  bl ← aget (lh_block lh) i;
  ck ← aget (lh_cksum lh) i;
  os ← aget (lh_offset lh) i;
  ls ← aget (lh_len lh) i;
  d ← lift (bdata buf);
  lift (bset_data buf
    (wr32 (LH_LEN + 4 * Z.to_nat i) ls
      (wr32 (LH_OFFSET + 4 * Z.to_nat i) os
        (wr32 (LH_CKSUM + 4 * Z.to_nat i) ck
          (wr32 (LH_BLOCK + 4 * Z.to_nat i) bl d))))).

Definition write_head : M lstate unit :=
  s ← get;
  buf ← lift (bread (l_dev s) (u32 (l_start s)));
  d ← lift (bdata buf);
  lift (bset_data buf (wr32 0 (lh_n (l_lh s)) d)) ;;
  forM (seqZ 0 (lh_n (l_lh s))) (write_head_one buf) ;;
  lift (bwrite buf) ;;
  lift (brelse buf).

(** ** Recovery *)

Definition recover_from_log : M lstate unit :=
  read_head ;;
  s ← get;
  when (0 <? lh_n (l_lh s)) (js_upd js_recovery) ;;
  install_trans ;;
  lh_upd (lh_set_n 0) ;;
  write_head.

Definition initlog (dev : Z) : M lstate unit :=
  if BSIZE <=? SIZEOF_LOGHEADER then panic "initlog: logheader too large for one block" else
  sb ← lift (readsb dev);
  modify (l_set_geom (s32 (sb_logstart sb)) (s32 (sb_nlog sb)) dev) ;;
  modify (λ s, l_set_crc (crc32_init (l_crc s)) s) ;;
  js_upd (λ _, jstats_zero) ;;
  recover_from_log.

(** ** Transactions *)

Definition begin_op : M lstate unit :=
  s ← get;
  if negb (l_committing s =? 0) then sleep_log
  else if LOGSIZE <? lh_n (l_lh s) + (l_outstanding s + 1) * MAXOPBLOCKS then sleep_log
  else
    modify (λ s, l_set_outstanding (l_outstanding s + 1) s) ;;
    modify (λ s, l_set_batch_size (s32 (l_batch_size s + 1)) s).

(** ** commit *)

Definition write_log_one (tail : Z) : M lstate unit :=
  s ← get;
  to ← lift (bread (l_dev s) (u32 (l_start s + tail + 1)));
  src ← aget (lh_block (l_lh s)) tail;
  from ← lift (bread (l_dev s) (u32 src));
  off ← aget (lh_offset (l_lh s)) tail;
  len ← aget (lh_len (l_lh s)) tail;
  tdata ← lift (bdata to);
  fdata ← lift (bdata from);
  nd ← orundef (mmove off len tdata fdata);
  lift (bset_data to nd) ;;
  sl ← orundef (mslice off len nd);
  c ← log_crc32 sl;
  cks ← aset (lh_cksum (l_lh s)) tail c;
  lh_upd (lh_set_cksum cks) ;;
  lift (bwrite to) ;;
  js_upd (js_written len) ;;
  lift (brelse from) ;;
  lift (brelse to).

Definition write_log : M lstate unit :=
  s ← get;
  forM (seqZ 0 (lh_n (l_lh s))) write_log_one.

(** The fault injection of crash phase 3. *)
Definition corrupt_log : M lstate unit :=
  s ← get;
  badbuf ← lift (bread (l_dev s) (u32 (l_start s + 1)));
  d ← lift (bdata badbuf);
  b0 ← aget d 0;
  lift (bset_data badbuf (<[0%nat := Z.lxor b0 0xFF]> d)) ;;
  lift (bwrite badbuf) ;;
  lift (brelse badbuf).

Definition commit : M lstate unit :=
  s ← get;
  if 0 <? lh_n (l_lh s) then
    write_log ;;
    lift (lift drv_ideflush) ;;
    js_upd js_flush ;;
    (if crash_at_phase s =? 1 then panic "crash test: Phase 1 (pre-commit)" else mret tt) ;;
    write_head ;;
    (if crash_at_phase s =? 2 then panic "crash test: Phase 2 (post-commit)" else mret tt) ;;
    (if crash_at_phase s =? 3 then
       corrupt_log ;;
       panic "crash test: Phase 3 (Fault Injection - Corrupted Log Data)"
     else mret tt) ;;
    install_trans ;;
    lh_upd (lh_set_n 0) ;;
    write_head ;;
    batch ← gets l_batch_size;
    js_upd (js_commit batch) ;;
    modify (l_set_batch_size 0)
  else mret tt.

Definition end_op : M lstate unit :=
  modify (λ s, l_set_outstanding (l_outstanding s - 1) s) ;;
  s ← get;
  if negb (l_committing s =? 0) then panic "log.committing" else
  if l_outstanding s =? 0 then
    modify (l_set_committing 1) ;;
    commit ;;
    modify (l_set_committing 0) ;;
    wakeup_log
  else wakeup_log.

(** ** log_write *)

(** The absorption loop: the first entry for the block, if there is one. *)
Fixpoint find_entry (blocks : list Z) (n : nat) (blockno : Z) (i : nat) : option nat :=
  match n with
  | O => None
  | S n' =>
      match blocks with
      | [] => None
      | b :: blocks' =>
          if u32 b =? blockno then Some i else find_entry blocks' n' blockno (S i)
      end
  end.

Definition log_write (bp : nat) (offset len : Z) : M lstate unit :=
  s ← get;
  let lh := l_lh s in
  if (LOGSIZE <=? lh_n lh) || (l_size s - 1 <=? lh_n lh)
  then panic "log_write: transaction too large" else
  if l_outstanding s <? 1 then panic "log_write: called outside of a transaction" else
  b ← lift (bufat bp);
  (match find_entry (lh_block lh) (Z.to_nat (lh_n lh)) (b_blockno b) 0 with
   | Some i =>
       ooff ← aget (lh_offset lh) (Z.of_nat i);
       olen ← aget (lh_len lh) (Z.of_nat i);
       let old_end := ooff + olen in
       let new_end := offset + len in
       let min_off := if ooff <? offset then ooff else offset in
       let max_end := if new_end <? old_end then old_end else new_end in
       os ← aset (lh_offset lh) (Z.of_nat i) min_off;
       ls ← aset (lh_len lh) (Z.of_nat i) (max_end - min_off);
       lh_upd (λ lh, lh_set_len ls (lh_set_offset os lh))
   | None =>
       bs ← aset (lh_block lh) (lh_n lh) (s32 (b_blockno b));
       os ← aset (lh_offset lh) (lh_n lh) offset;
       ls ← aset (lh_len lh) (lh_n lh) len;
       lh_upd (λ lh, lh_set_n (lh_n lh + 1) (lh_set_len ls (lh_set_offset os (lh_set_block bs lh))))
   end) ;;
  lift (bset_dirty bp).

Definition get_journal_stats : M lstate journal_stats := gets jstats.

End log.
Arguments lstate : clear implicits.
