(* ===== verification/LogImg.v ===== *)
(** * The journal on disk images

    What the journal code writes and what recovery does, as functions on disk
    images.  [LogSpec] shows that the code performs exactly these commands;
    here they are related to each other: the header survives its encoding,
    recovery completes or ignores a commit wherever it was cut, and recovery
    may itself be cut and repeated. *)

From S2P Require Import Prelude Layout Disk Crc32 Log.

#[local] Arguments img_apply : simpl never.

(** One entry of the log header. *)
Record lent := mk_lent { e_block : Z; e_off : Z; e_len : Z; e_cksum : Z }.

(** The entries of a header block. *)
Definition hdr_ent (b : block) (i : nat) : lent :=
  mk_lent (hd_block b (Z.of_nat i)) (hd_offset b (Z.of_nat i))
    (hd_len b (Z.of_nat i)) (hd_cksum b (Z.of_nat i)).
Definition hdr_entries (b : block) : list lent := hdr_ent b <$> seq 0 (Z.to_nat (hd_n b)).

(** The bytes of [src] an entry covers, and those bytes copied into [dst]. *)
Definition eslice (e : lent) (src : block) : list Z :=
  slice (Z.to_nat (e_off e)) (Z.to_nat (e_len e)) src.
Definition esplice (e : lent) (src dst : block) : block :=
  splice (Z.to_nat (e_off e)) (eslice e src) dst.

(** A block that differs from [v] at most in the bytes of the entry. *)
Definition agree (e : lent) (v x : block) : Prop :=
  ∀ i : nat, ¬ (e_off e ≤ Z.of_nat i < e_off e + e_len e) → v !! i = x !! i.

Definition log_area (start size b : Z) : Prop := start ≤ b < start + size.

Definition ent_range (e : lent) : Prop := 0 ≤ e_off e ∧ 0 ≤ e_len e ∧ e_off e + e_len e ≤ BSIZE.
Definition ent_ok (start size : Z) (e : lent) : Prop :=
  0 ≤ e_block e < FSSIZE ∧ ¬ log_area start size (e_block e) ∧ ent_range e.

Definition img_ok (img : Z → block) : Prop := ∀ b, block_ok (img b).

(** ** What the code writes *)

(** [install_trans], from entry [i]: an entry whose checksum does not match is
    skipped. *)
Definition crc_ok (e : lent) (lb : block) : bool := crc_ref (eslice e lb) =? e_cksum e.
Definition install_op (start : Z) (i : nat) (e : lent) (img : Z → block) : list dop :=
  let lb := img (start + Z.of_nat i + 1) in
  if crc_ok e lb then [DWrite (e_block e) (esplice e lb (img (e_block e)))] else [].
Fixpoint install_ops (start : Z) (i : nat) (es : list lent) (img : Z → block) : list dop :=
  match es with
  | [] => []
  | e :: es' =>
      let o := install_op start i e img in
      o ++ install_ops start (S i) es' (img_run img o)
  end.

(** [write_head] with [n = 0]. *)
Definition clear_head (start : Z) (img : Z → block) : dop := DWrite start (wr32 0 0 (img start)).

(** [recover_from_log] *)
Definition recover_ops (start : Z) (img : Z → block) : list dop :=
  install_ops start 0 (hdr_entries (img start)) img ++ [clear_head start img].
Definition recover_img (start : Z) (img : Z → block) : Z → block :=
  img_run img (recover_ops start img).

(** [write_log], from entry [i]. *)
Fixpoint wl_ops (start : Z) (view : Z → block) (i : nat) (es : list lent) : list dop :=
  match es with
  | [] => []
  | e :: es' =>
      DWrite (start + Z.of_nat i + 1)
        (esplice e (view (e_block e)) (view (start + Z.of_nat i + 1)))
      :: wl_ops start view (S i) es'
  end.

(** The entry with the checksum [write_log] stores in it. *)
Definition seal (view : Z → block) (e : lent) : lent :=
  mk_lent (e_block e) (e_off e) (e_len e) (crc_ref (eslice e (view (e_block e)))).

(** [write_head] *)
Definition put_ent (i : nat) (e : lent) (d : block) : block :=
  wr32 (LH_LEN + 4 * i) (e_len e)
    (wr32 (LH_OFFSET + 4 * i) (e_off e)
      (wr32 (LH_CKSUM + 4 * i) (e_cksum e)
        (wr32 (LH_BLOCK + 4 * i) (e_block e) d))).
Fixpoint put_ents (i : nat) (es : list lent) (d : block) : block :=
  match es with
  | [] => d
  | e :: es' => put_ents (S i) es' (put_ent i e d)
  end.
Definition hdr_encode (es : list lent) (d : block) : block :=
  put_ents 0 es (wr32 0 (Z.of_nat (length es)) d).

(** [commit] *)
Definition home_ops (view : Z → block) (es : list lent) : list dop :=
  (λ e, DWrite (e_block e) (view (e_block e))) <$> es.
Definition commit_ops (start : Z) (view : Z → block) (es : list lent) : list dop :=
  let hd := hdr_encode (seal view <$> es) (view start) in
  wl_ops start view 0 es ++ [DFlush; DWrite start hd] ++
  home_ops view es ++ [DWrite start (wr32 0 0 hd)].

(** ** Entries and byte ranges *)

Lemma length_eslice e b : ent_range e → block_ok b → length (eslice e b) = Z.to_nat (e_len e).
Proof. intros (? & ? & ?) [Hl _]. unfold eslice. apply length_slice. unfold BSIZE in *. lia. Qed.

Lemma bytes_eslice e b : block_ok b → bytes (eslice e b).
Proof. intros [_ ?]. by apply bytes_slice. Qed.

Lemma esplice_ok e src dst : ent_range e → block_ok src → block_ok dst → block_ok (esplice e src dst).
Proof.
  intros He Hs Hd. apply block_ok_splice; auto using bytes_eslice.
  rewrite length_eslice by done. unfold ent_range in He. lia.
Qed.

Lemma lookup_esplice e src dst i :
  ent_range e → block_ok src → block_ok dst →
  esplice e src dst !! i =
    if decide (e_off e ≤ Z.of_nat i < e_off e + e_len e) then src !! i else dst !! i.
Proof.
  intros He Hs Hd. pose proof He as (? & ? & ?). pose proof Hd as [Hl _].
  unfold esplice. rewrite lookup_splice, length_eslice by (rewrite ?length_eslice by done; lia || done).
  repeat case_decide; try lia; [|done].
  unfold eslice. rewrite lookup_slice, decide_True by lia. f_equal. lia.
Qed.

Lemma agree_refl e v : agree e v v.
Proof. by intros i _. Qed.

Lemma esplice_agree e v src dst :
  ent_range e → block_ok v → block_ok src → block_ok dst →
  eslice e src = eslice e v → agree e v dst → esplice e src dst = v.
Proof.
  intros He Hv Hs Hd Hsl Ha. pose proof He as (? & ? & ?).
  unfold esplice. rewrite Hsl. fold (esplice e v dst). apply list_eq. intros i.
  rewrite lookup_esplice by done. case_decide; [done|]. symmetry. by apply Ha.
Qed.

Lemma eslice_esplice e src dst :
  ent_range e → block_ok src → block_ok dst → eslice e (esplice e src dst) = eslice e src.
Proof.
  intros He Hs Hd. unfold esplice. unfold eslice at 1.
  rewrite <- (length_eslice e src) by done. apply slice_splice_eq.
  rewrite length_eslice by done. destruct Hd as [-> _]. unfold ent_range in He. lia.
Qed.

#[export] Hint Resolve esplice_ok bytes_eslice agree_refl : kernel.

(** ** The header *)

Ltac lh := unfold LH_BLOCK, LH_CKSUM, LH_OFFSET, LH_LEN in *.

Lemma length_put_ent i e d : (i < 30)%nat → length d = 512%nat → length (put_ent i e d) = 512%nat.
Proof. intros. unfold put_ent. lh. rewrite !length_wr32; rewrite ?length_wr32; rewrite ?length_wr32; rewrite ?length_wr32; lia. Qed.

Lemma put_ent_ok i e d : (i < 30)%nat → block_ok d → block_ok (put_ent i e d).
Proof.
  intros. unfold put_ent. lh.
  repeat (apply block_ok_wr32; [change (Z.to_nat BSIZE) with 512%nat; lia|]). done.
Qed.

(** Writing an entry does not change the other words of the header. *)
Lemma rd32_put_ent o i e d :
  (i < 30)%nat → length d = 512%nat →
  (∀ f, f ∈ [LH_BLOCK; LH_CKSUM; LH_OFFSET; LH_LEN] →
        (o + 4 ≤ f + 4 * i ∨ f + 4 * i + 4 ≤ o)%nat) →
  rd32 o (put_ent i e d) = rd32 o d.
Proof.
  intros Hi Hl Hf. unfold put_ent.
  pose proof (Hf LH_BLOCK ltac:(set_solver)). pose proof (Hf LH_CKSUM ltac:(set_solver)).
  pose proof (Hf LH_OFFSET ltac:(set_solver)). pose proof (Hf LH_LEN ltac:(set_solver)).
  lh. rewrite !rd32_wr32_ne; rewrite ?length_wr32; rewrite ?length_wr32; rewrite ?length_wr32; lia.
Qed.

Definition ent_words (e : lent) : Prop :=
  - 2 ^ 31 ≤ e_block e < 2 ^ 31 ∧ - 2 ^ 31 ≤ e_off e < 2 ^ 31 ∧
  - 2 ^ 31 ≤ e_len e < 2 ^ 31 ∧ 0 ≤ e_cksum e < 2 ^ 32.

Lemma s32_u32 z : - 2 ^ 31 ≤ z < 2 ^ 31 → s32 (u32 z) = z.
Proof. intros. unfold s32, u32. rewrite Zplus_mod_idemp_l, Z.mod_small; lia. Qed.

Lemma hdr_ent_put_eq i e d :
  (i < 30)%nat → length d = 512%nat → ent_words e → hdr_ent (put_ent i e d) i = e.
Proof.
  intros Hi Hl (? & ? & ? & ?). unfold hdr_ent, hd_block, hd_offset, hd_len, hd_cksum, put_ent.
  rewrite Nat2Z.id. lh.
  rewrite rd32_wr32_eq by (rewrite !length_wr32; rewrite ?length_wr32; rewrite ?length_wr32; lia).
  rewrite !(rd32_wr32_ne (4 + 4 * i)) by (rewrite ?length_wr32; rewrite ?length_wr32; rewrite ?length_wr32; lia).
  rewrite !(rd32_wr32_ne (244 + 4 * i)) by (rewrite ?length_wr32; rewrite ?length_wr32; rewrite ?length_wr32; lia).
  rewrite !(rd32_wr32_ne (124 + 4 * i)) by (rewrite ?length_wr32; rewrite ?length_wr32; rewrite ?length_wr32; lia).
  rewrite !rd32_wr32_eq by (rewrite ?length_wr32; rewrite ?length_wr32; lia).
  rewrite !s32_u32, u32_small by done. by destruct e.
Qed.

Lemma hdr_ent_put_ne i j e d :
  (i < 30)%nat → (j < 30)%nat → i ≠ j → length d = 512%nat →
  hdr_ent (put_ent i e d) j = hdr_ent d j.
Proof.
  intros. unfold hdr_ent, hd_block, hd_offset, hd_len, hd_cksum. rewrite Nat2Z.id.
  rewrite !rd32_put_ent; try done; intros f Hf; lh;
    rewrite !elem_of_cons in Hf; destruct Hf as [->|[->|[->|[->|Hf]]]]; try lia; by inversion Hf.
Qed.

Lemma hd_n_put_ent i e d : (i < 30)%nat → length d = 512%nat → hd_n (put_ent i e d) = hd_n d.
Proof.
  intros. unfold hd_n. rewrite rd32_put_ent; try done. intros f Hf. lh.
  rewrite !elem_of_cons in Hf. destruct Hf as [->|[->|[->|[->|Hf]]]]; try lia; by inversion Hf.
Qed.

Lemma put_ents_ok es i d : (i + length es ≤ 30)%nat → block_ok d → block_ok (put_ents i es d).
Proof.
  revert i d. induction es as [|e es IH]; intros i d Hi Hd; simpl in *; [done|].
  apply IH; [lia|]. apply put_ent_ok; [lia|done].
Qed.

Lemma put_ents_snoc es e i d : put_ents i (es ++ [e]) d = put_ent (i + length es) e (put_ents i es d).
Proof.
  revert i d. induction es as [|e' es IH]; intros i d; simpl; [by rewrite Nat.add_0_r|].
  by rewrite IH, Nat.add_succ_r.
Qed.

Lemma hd_n_put_ents es i d :
  (i + length es ≤ 30)%nat → length d = 512%nat → hd_n (put_ents i es d) = hd_n d.
Proof.
  revert i d. induction es as [|e es IH]; intros i d Hi Hd; simpl in *; [done|].
  rewrite IH; [|lia|apply length_put_ent; lia]. apply hd_n_put_ent; lia.
Qed.

Lemma hdr_ent_put_ents es i j d :
  (i + length es ≤ 30)%nat → (j < 30)%nat → length d = 512%nat → Forall ent_words es →
  hdr_ent (put_ents i es d) j =
    if decide (i ≤ j < i + length es)%nat then default (hdr_ent d j) (es !! (j - i)%nat) else hdr_ent d j.
Proof.
  revert i d. induction es as [|e es IH]; intros i d Hi Hj Hd Hw; simpl in *.
  { by repeat case_decide. }
  inversion Hw; subst. rewrite IH; [|lia|done|apply length_put_ent; lia|done].
  destruct (decide (j = i)) as [->|Hne].
  - rewrite decide_False by lia. rewrite decide_True by lia. rewrite Nat.sub_diag. simpl.
    apply hdr_ent_put_eq; [lia|done|done].
  - rewrite (hdr_ent_put_ne i j) by lia. repeat case_decide; try lia; try done.
    replace (j - i)%nat with (S (j - S i)) by lia. done.
Qed.

(** The header written is the header read. *)
Lemma hdr_entries_encode es d :
  (length es ≤ 30)%nat → block_ok d → Forall ent_words es →
  hd_n (hdr_encode es d) = Z.of_nat (length es) ∧ hdr_entries (hdr_encode es d) = es.
Proof.
  intros Hl [Hd _] Hw. change (Z.to_nat BSIZE) with 512%nat in Hd. unfold hdr_encode.
  assert (length (wr32 0 (Z.of_nat (length es)) d) = 512%nat) as Hd' by (rewrite length_wr32; lia).
  assert (hd_n (put_ents 0 es (wr32 0 (Z.of_nat (length es)) d)) = Z.of_nat (length es)) as Hn.
  { rewrite hd_n_put_ents by (done || lia). unfold hd_n. rewrite rd32_wr32_eq by lia.
    apply s32_u32. lia. }
  split; [done|]. unfold hdr_entries. rewrite Hn, Nat2Z.id.
  apply list_eq. intros i. rewrite list_lookup_fmap.
  destruct (decide (i < length es)%nat) as [Hi|Hi].
  - rewrite lookup_seq_lt by done. simpl.
    rewrite hdr_ent_put_ents by (done || lia). rewrite decide_True by lia.
    rewrite Nat.sub_0_r. destruct (lookup_lt_is_Some_2 es i Hi) as [e ->]. done.
  - rewrite lookup_seq_ge by lia. rewrite lookup_ge_None_2 by lia. done.
Qed.

Lemma hdr_encode_ok es d : (length es ≤ 30)%nat → block_ok d → block_ok (hdr_encode es d).
Proof.
  intros. apply put_ents_ok; [lia|]. apply block_ok_wr32; [|done].
  change (Z.to_nat BSIZE) with 512%nat. lia.
Qed.

Lemma hd_n_clear d : block_ok d → hd_n (wr32 0 0 d) = 0.
Proof.
  intros [Hl _]. unfold hd_n. rewrite rd32_wr32_eq; [done|].
  rewrite Hl. change (Z.to_nat BSIZE) with 512%nat. lia.
Qed.

Lemma hdr_entries_0 d : hd_n d = 0 → hdr_entries d = [].
Proof. intros E. unfold hdr_entries. by rewrite E. Qed.

(** ** Installing entries *)

Lemma img_run_cons img o ops : img_run img (o :: ops) = img_run (img_apply img o) ops.
Proof. done. Qed.

Lemma install_op_other start i e img b :
  b ≠ e_block e → img_run img (install_op start i e img) b = img b.
Proof.
  intros. unfold install_op. case_match; [|done]. rewrite img_run_cons. simpl.
  by apply img_apply_ne.
Qed.

Lemma install_op_here start i e img :
  img_run img (install_op start i e img) (e_block e) =
    (if crc_ok e (img (start + Z.of_nat i + 1))
     then esplice e (img (start + Z.of_nat i + 1)) (img (e_block e)) else img (e_block e)).
Proof. unfold install_op. case_match; [|done]. apply img_apply_eq. Qed.

Lemma install_other start i es img b :
  b ∉ e_block <$> es → img_run img (install_ops start i es img) b = img b.
Proof.
  revert i img. induction es as [|e es IH]; intros i img Hb; [done|].
  rewrite fmap_cons, not_elem_of_cons in Hb. destruct Hb as [Hne Hb]. cbn [install_ops].
  rewrite img_run_app, IH by done. by apply install_op_other.
Qed.

(** Each entry installs its own block, from the log block as it was. *)
Lemma install_entry start size i es img j e :
  Forall (ent_ok start size) es → NoDup (e_block <$> es) →
  Z.of_nat (i + length es) < size →
  es !! j = Some e →
  img_run img (install_ops start i es img) (e_block e) =
    (let lb := img (start + Z.of_nat (i + j) + 1) in
     if crc_ok e lb then esplice e lb (img (e_block e)) else img (e_block e)).
Proof.
  revert i img j. induction es as [|e0 es IH]; intros i img j Hok Hnd Hs Hj; [done|].
  inversion Hok as [|? ? (? & Hla & _) Hok']; subst.
  rewrite fmap_cons in Hnd. apply NoDup_cons in Hnd as [Hni Hnd].
  cbn [install_ops]. rewrite img_run_app. destruct j as [|j]; simpl in Hj.
  - injection Hj as ->. rewrite install_other by done. rewrite Nat.add_0_r. apply install_op_here.
  - simpl in Hs. rewrite (IH (S i) _ j) by (done || lia). rewrite Nat.add_succ_comm. cbv zeta.
    rewrite install_op_other.
    2:{ unfold log_area in Hla. apply lookup_lt_Some in Hj. lia. }
    rewrite install_op_other; [done|]. intros E. apply Hni. rewrite <- E.
    apply list_elem_of_fmap. exists e. split; [done|]. by eapply list_elem_of_lookup_2.
Qed.

(** A prefix of the writes installs a prefix of the entries. *)
Lemma take_install_ops k start i es img :
  ∃ j, take k (install_ops start i es img) = install_ops start i (take j es) img.
Proof.
  revert k i img. induction es as [|e es IH]; intros k i img; [exists 0%nat; apply take_nil|].
  cbn [install_ops]. unfold install_op at 1 2. case_match eqn:E.
  - destruct k as [|k]; [by exists 0%nat|]. simpl.
    edestruct (IH k (S i)) as [j Hj]. exists (S j). cbn [take install_ops].
    unfold install_op. rewrite E. simpl. f_equal. exact Hj.
  - simpl. destruct (IH k (S i) img) as [j Hj]. exists (S j). cbn [take install_ops].
    unfold install_op. rewrite E. simpl. exact Hj.
Qed.

(** ** Writing the log *)

Lemma wl_other start view i es img b :
  (∀ j, (j < length es)%nat → b ≠ start + Z.of_nat (i + j) + 1) →
  img_run img (wl_ops start view i es) b = img b.
Proof.
  revert i img. induction es as [|e es IH]; intros i img Hb; [done|].
  cbn [wl_ops]. rewrite img_run_cons, IH.
  - apply img_apply_ne. specialize (Hb 0%nat ltac:(simpl; lia)). rewrite Nat.add_0_r in Hb. done.
  - intros j Hj. specialize (Hb (S j) ltac:(simpl; lia)).
    replace (i + S j)%nat with (S i + j)%nat in Hb by lia. done.
Qed.

Lemma wl_entry start view i es img j e :
  es !! j = Some e →
  img_run img (wl_ops start view i es) (start + Z.of_nat (i + j) + 1) =
    esplice e (view (e_block e)) (view (start + Z.of_nat (i + j) + 1)).
Proof.
  revert i img j. induction es as [|e0 es IH]; intros i img j Hj; [done|].
  cbn [wl_ops]. rewrite img_run_cons. destruct j as [|j]; simpl in Hj.
  - injection Hj as ->. rewrite wl_other by lia. rewrite Nat.add_0_r. apply img_apply_eq.
  - replace (i + S j)%nat with (S i + j)%nat by lia. by apply IH.
Qed.

Lemma length_wl_ops start view i es : length (wl_ops start view i es) = length es.
Proof. revert i. induction es; intros; simpl; auto. Qed.

Lemma wl_ops_app start view i es es' :
  wl_ops start view i (es ++ es') = wl_ops start view i es ++ wl_ops start view (i + length es) es'.
Proof.
  revert i. induction es as [|e es IH]; intros i; simpl; [by rewrite Nat.add_0_r|].
  by rewrite IH, Nat.add_succ_r.
Qed.

Lemma take_wl_ops k start view i es :
  take k (wl_ops start view i es) = wl_ops start view i (take k es).
Proof. revert k i. induction es; intros [|k] i; simpl; f_equal; auto. Qed.

(** ** Images stay well formed *)

Lemma img_ok_write img n d : img_ok img → block_ok d → img_ok (img_apply img (DWrite n d)).
Proof.
  intros Hi Hd b. destruct (decide (n = b)) as [<-|]; [by rewrite img_apply_eq|].
  by rewrite img_apply_ne.
Qed.

Lemma img_ok_wl start size view i es img :
  img_ok view → img_ok img → Forall (ent_ok start size) es → img_ok (img_run img (wl_ops start view i es)).
Proof.
  intros Hv. revert i img. induction es as [|e es IH]; intros i img Hi He; [done|].
  inversion He as [|? ? (_ & _ & ?) ?]; subst. cbn [wl_ops]. rewrite img_run_cons.
  apply IH; [|done]. apply img_ok_write; [done|]. by apply esplice_ok.
Qed.

Lemma img_ok_install_op start size i e img :
  img_ok img → ent_ok start size e → img_ok (img_run img (install_op start i e img)).
Proof.
  intros Hi (_ & _ & He). unfold install_op. case_match; [|done].
  apply img_ok_write; [done|]. by apply esplice_ok.
Qed.

Lemma img_ok_install start size i es img :
  img_ok img → Forall (ent_ok start size) es → img_ok (img_run img (install_ops start i es img)).
Proof.
  revert i img. induction es as [|e es IH]; intros i img Hi He; [done|].
  inversion He; subst. cbn [install_ops]. rewrite img_run_app. apply IH; [|done].
  by eapply img_ok_install_op.
Qed.

Lemma install_ops_snoc start i es e img :
  install_ops start i (es ++ [e]) img =
    install_ops start i es img ++
    install_op start (i + length es) e (img_run img (install_ops start i es img)).
Proof.
  revert i img. induction es as [|e' es IH]; intros i img; cbn [install_ops app].
  - by rewrite Nat.add_0_r, app_nil_r.
  - rewrite IH, img_run_app, <- app_assoc. simpl. by rewrite Nat.add_succ_r.
Qed.

(** ** Commit and recovery *)

(** The disk and the cached contents when [commit] starts: the log is empty on
    disk, and a block differs from its home copy only where an entry says. *)
Record txn_ok (start size : Z) (view img : Z → block) (es : list lent) : Prop := mk_txn_ok {
  tx_view : img_ok view;
  tx_img : img_ok img;
  tx_ents : Forall (ent_ok start size) es;
  tx_nodup : NoDup (e_block <$> es);
  tx_fits : Z.of_nat (length es) < size;
  tx_max : (length es ≤ 30)%nat;
  tx_agree : ∀ e, e ∈ es → agree e (view (e_block e)) (img (e_block e));
  tx_same : ∀ b, b ∉ e_block <$> es → view b = img b;
  tx_clean : hd_n (img start) = 0;
}.

(** A disk that holds a complete, committed transaction, installed to some
    extent. *)
Record logged (start size : Z) (view img : Z → block) (es : list lent) : Prop := mk_logged {
  lg_hdr : hdr_entries (img start) = seal view <$> es;
  lg_log : ∀ i e, es !! i = Some e →
    img (start + Z.of_nat i + 1) = esplice e (view (e_block e)) (view (start + Z.of_nat i + 1));
  lg_agree : ∀ e, e ∈ es → agree e (view (e_block e)) (img (e_block e)) ∧ block_ok (img (e_block e));
  lg_same : ∀ b, b ∉ e_block <$> es → ¬ log_area start size b → img b = view b;
}.

Definition same_outside (start size : Z) (img img' : Z → block) : Prop :=
  ∀ b, ¬ log_area start size b → img b = img' b.

Lemma home_lookup view es img b :
  img_run img (home_ops view es) b = if decide (b ∈ e_block <$> es) then view b else img b.
Proof.
  unfold home_ops. revert img. induction es as [|e es IH]; intros img; [done|].
  rewrite fmap_cons, img_run_cons, IH, fmap_cons.
  destruct (decide (e_block e = b)) as [<-|Hne].
  - rewrite img_apply_eq, (decide_True (P := _ ∈ _ :: _)) by set_solver. by case_decide.
  - rewrite img_apply_ne by done. repeat case_decide; set_solver.
Qed.

Section atomicity.
Context (start size : Z) (view img0 : Z → block) (es : list lent).
Context (Htx : txn_ok start size view img0 es).

Lemma fmap_block_seal : e_block <$> (seal view <$> es) = e_block <$> es.
Proof. by rewrite <- list_fmap_compose. Qed.

Lemma ent_ok_seal : Forall (ent_ok start size) (seal view <$> es).
Proof. apply Forall_fmap. eapply Forall_impl; [apply Htx|]. by intros e. Qed.

Lemma seal_words : Forall ent_words (seal view <$> es).
Proof.
  apply Forall_fmap. eapply Forall_impl; [apply Htx|]. intros e (? & _ & Hr).
  assert (w32 (crc_ref (eslice e (view (e_block e))))) as Hw.
  { apply crc_ref_w32, bytes_eslice, Htx. }
  unfold ent_words, w32, FSSIZE, ent_range, BSIZE in *. simpl in *. lia.
Qed.

Lemma start_in_log : log_area start size start.
Proof. pose proof (tx_fits _ _ _ _ _ Htx). unfold log_area. lia. Qed.

Lemma not_ent b : log_area start size b → b ∉ e_block <$> es.
Proof.
  intros Hb. rewrite list_elem_of_fmap. intros (e & -> & He).
  destruct (proj1 (Forall_forall _ _) (tx_ents _ _ _ _ _ Htx) e He) as (_ & ? & _). done.
Qed.

Lemma recover_clean img b :
  hd_n (img start) = 0 → b ≠ start → recover_img start img b = img b.
Proof.
  intros Hn Hb. unfold recover_img, recover_ops. rewrite hdr_entries_0 by done.
  by apply img_apply_ne.
Qed.

(** Recovery of a committed transaction installs all of it. *)
Lemma recover_logged img :
  logged start size view img es → same_outside start size (recover_img start img) view.
Proof.
  intros Hlg b Hb. unfold recover_img, recover_ops. rewrite img_run_app. unfold clear_head.
  rewrite img_run_cons. simpl. rewrite img_apply_ne by (intros <-; by apply Hb, start_in_log).
  rewrite (lg_hdr _ _ _ _ _ Hlg).
  destruct (decide (b ∈ e_block <$> es)) as [Hin|Hin].
  2:{ rewrite install_other by (by rewrite fmap_block_seal). by apply Hlg. }
  apply list_elem_of_fmap in Hin as (e & -> & He).
  apply list_elem_of_lookup_1 in He as [i Hi].
  rewrite (install_entry start size 0 _ _ i (seal view e)).
  - simpl. rewrite (lg_log _ _ _ _ _ Hlg i e Hi).
    assert (e ∈ es) as He by by eapply list_elem_of_lookup_2.
    destruct (proj1 (Forall_forall _ _) (tx_ents _ _ _ _ _ Htx) e He) as (_ & _ & Hr).
    pose proof (tx_view _ _ _ _ _ Htx) as Hv. destruct (lg_agree _ _ _ _ _ Hlg e He) as [Ha Hk].
    set (lb := esplice e _ _).
    assert (eslice e lb = eslice e (view (e_block e))) as Hlb by (by apply eslice_esplice).
    unfold crc_ok. change (eslice (seal view e) lb) with (eslice e lb). rewrite Hlb. simpl.
    rewrite Z.eqb_refl. change (esplice (seal view e) lb) with (esplice e lb).
    apply esplice_agree; auto. by apply esplice_ok.
  - apply ent_ok_seal.
  - rewrite fmap_block_seal. apply Htx.
  - rewrite length_fmap. apply Htx.
  - by rewrite list_lookup_fmap, Hi.
Qed.

(** The disk once the header is written. *)
Definition committed_img : Z → block :=
  img_run img0 (wl_ops start view 0 es ++
    [DFlush; DWrite start (hdr_encode (seal view <$> es) (view start))]).

Lemma committed_other b : ¬ log_area start size b → committed_img b = img0 b.
Proof.
  intros Hb. unfold committed_img. rewrite img_run_app, !img_run_cons. simpl.
  rewrite img_apply_ne by (intros <-; by apply Hb, start_in_log).
  apply wl_other. intros j Hj ->. apply Hb. pose proof (tx_fits _ _ _ _ _ Htx).
  unfold log_area. lia.
Qed.

Lemma committed_logged : logged start size view committed_img es.
Proof.
  split.
  - assert (committed_img start = hdr_encode (seal view <$> es) (view start)) as ->.
    { unfold committed_img. rewrite img_run_app, !img_run_cons. apply img_apply_eq. }
    apply hdr_entries_encode; [rewrite length_fmap; apply Htx|apply Htx|apply seal_words].
  - intros i e Hi. unfold committed_img. rewrite img_run_app, !img_run_cons. simpl.
    rewrite img_apply_ne by lia. by apply (wl_entry start view 0).
  - intros e He.
    assert (¬ log_area start size (e_block e)).
    { intros Hla. apply (not_ent _ Hla). by apply list_elem_of_fmap_2. }
    rewrite committed_other by done. split; [by apply Htx|apply Htx].
  - intros b Hb Hla. rewrite committed_other by done. symmetry. by apply Htx.
Qed.

(** Installing any of the blocks, in any order, keeps the disk recoverable. *)
Lemma logged_home img es' :
  logged start size view img es → es' ⊆ es → logged start size view (img_run img (home_ops view es')) es.
Proof.
  revert img. induction es' as [|e es' IH]; intros img Hlg Hsub; [done|].
  unfold home_ops. rewrite fmap_cons, img_run_cons. apply IH; [|set_solver].
  assert (e ∈ es) as He by set_solver.
  assert (∀ b, log_area start size b → e_block e ≠ b) as Hne.
  { intros b Hb <-. apply (not_ent _ Hb). by apply list_elem_of_fmap_2. }
  pose proof (tx_fits _ _ _ _ _ Htx).
  split.
  - rewrite img_apply_ne by apply Hne, start_in_log. apply Hlg.
  - intros i e' Hi. pose proof (lookup_lt_Some _ _ _ Hi).
    rewrite img_apply_ne; [by apply Hlg|]. apply Hne. unfold log_area. lia.
  - intros e' He'. destruct (decide (e_block e = e_block e')) as [E|E].
    + rewrite E, img_apply_eq. split; [apply agree_refl|apply Htx].
    + rewrite img_apply_ne by done. by apply Hlg.
  - intros b Hb Hla. rewrite img_apply_ne; [by apply Hlg|].
    intros <-. apply Hb. by apply list_elem_of_fmap_2.
Qed.

(** In [commit] the cached blocks are current: installing writes them home. *)
Lemma install_home l i img :
  Forall (ent_ok start size) l →
  (∀ j e, l !! j = Some e → img (start + Z.of_nat (i + j) + 1) =
     esplice e (view (e_block e)) (view (start + Z.of_nat (i + j) + 1))) →
  (∀ b, ¬ log_area start size b → img b = view b) → Z.of_nat (i + length l) < size →
  install_ops start i (seal view <$> l) img = home_ops view l.
Proof.
  pose proof (tx_view _ _ _ _ _ Htx) as Hv.
  revert i img. induction l as [|e l IH]; intros i img Hok Hlog Hsame Hs; [done|].
  inversion Hok as [|? ? (_ & Hla & Hr) Hok']; subst.
  pose proof (Hlog 0%nat e eq_refl) as Hl0. rewrite Nat.add_0_r in Hl0. simpl in Hs.
  set (lb := esplice e _ _) in Hl0.
  assert (eslice e lb = eslice e (view (e_block e))) as Hlb by (by apply eslice_esplice).
  assert (esplice e lb (view (e_block e)) = view (e_block e)) as Hsp.
  { apply esplice_agree; auto with kernel. by apply esplice_ok. }
  rewrite fmap_cons. cbn [install_ops]. unfold install_op, crc_ok. rewrite Hl0.
  change (eslice (seal view e) lb) with (eslice e lb). rewrite Hlb. simpl. rewrite Z.eqb_refl. simpl.
  change (esplice (seal view e) lb) with (esplice e lb). rewrite Hsame, Hsp by done.
  f_equal. apply IH; [done|..|lia].
  - intros j e' He'. pose proof (lookup_lt_Some _ _ _ He').
    rewrite img_apply_ne by (intros E; apply Hla; rewrite E; unfold log_area; lia).
    replace (S i + j)%nat with (i + S j)%nat by lia. by apply Hlog.
  - intros b Hb. destruct (decide (e_block e = b)) as [<-|]; [by rewrite img_apply_eq|].
    rewrite img_apply_ne by done. by apply Hsame.
Qed.

(** Recovery gives the old or the new contents of the blocks outside the log,
    wherever the writes of [commit] stopped; the new ones from the header on. *)
Lemma commit_ops_atomic k :
  let img := img_run img0 (take k (commit_ops start view es)) in
  same_outside start size (recover_img start img)
    (if decide (length es + 2 ≤ k)%nat then view else img0).
Proof.
  cbv zeta. unfold commit_ops. set (hd := hdr_encode _ _).
  rewrite app_assoc. set (pre := wl_ops start view 0 es ++ [DFlush; DWrite start hd]).
  assert (length pre = (length es + 2)%nat) as Hpre by (unfold pre; len; by rewrite length_wl_ops).
  case_decide as Hk.
  - rewrite take_app_ge by lia. rewrite img_run_app.
    change (img_run img0 pre) with committed_img. rewrite Hpre.
    set (k' := (k - (length es + 2))%nat).
    destruct (decide (k' ≤ length es)%nat) as [Hk'|Hk'].
    + rewrite take_app_le by (unfold home_ops; len). unfold home_ops. rewrite <- fmap_take.
      apply recover_logged, logged_home; [apply committed_logged|apply subseteq_take].
    + rewrite take_ge by (unfold home_ops; len). rewrite img_run_app. intros b Hb.
      assert (b ≠ start) by (intros ->; by apply Hb, start_in_log).
      rewrite recover_clean; [|rewrite img_run_cons; simpl; rewrite img_apply_eq; apply hd_n_clear|done].
      * rewrite img_run_cons. simpl. rewrite img_apply_ne by done. rewrite home_lookup.
        case_decide; [done|]. rewrite committed_other by done. symmetry. by apply Htx.
      * apply hdr_encode_ok; [rewrite length_fmap; apply Htx|apply Htx].
  - rewrite take_app_le by lia. unfold pre.
    assert (∃ ops, img_run img0 (take k (wl_ops start view 0 es ++ [DFlush; DWrite start hd])) =
                   img_run img0 (wl_ops start view 0 ops) ∧ (length ops ≤ length es)%nat) as (ops & -> & Hops).
    { destruct (decide (k ≤ length es)%nat).
      - exists (take k es). rewrite take_app_le by (rewrite length_wl_ops; lia).
        rewrite take_wl_ops. split; [done|]. len.
      - exists es. rewrite take_app_ge by (rewrite length_wl_ops; lia). rewrite length_wl_ops.
        replace (k - length es)%nat with 1%nat by lia. rewrite img_run_app. done. }
    pose proof (tx_fits _ _ _ _ _ Htx).
    intros b Hb. rewrite recover_clean; [..|intros ->; by apply Hb, start_in_log].
    + apply wl_other. intros j Hj ->. apply Hb. unfold log_area. lia.
    + rewrite wl_other by lia. apply Htx.
Qed.

End atomicity.

(** ** Interrupted recovery *)

(** A header recovery can work from. *)
Record hdr_ok (start size : Z) (h : block) : Prop := mk_hdr_ok {
  ho_n : 0 ≤ hd_n h ≤ 30;
  ho_fits : hd_n h < size;
  ho_ents : Forall (ent_ok start size) (hdr_entries h);
  ho_nodup : NoDup (e_block <$> hdr_entries h);
}.

Lemma length_hdr_entries h : length (hdr_entries h) = Z.to_nat (hd_n h).
Proof. unfold hdr_entries. by rewrite length_fmap, length_seq. Qed.

Lemma install_ext start es i img img' :
  (∀ b, img b = img' b) →
  install_ops start i es img = install_ops start i es img'.
Proof.
  revert i img img'. induction es as [|e es IH]; intros i img img' E; [done|]. cbn [install_ops].
  unfold install_op. rewrite !E. case_match; simpl; [f_equal|]; apply IH; [|done].
  intros b. unfold img_apply.
  destruct (decide (e_block e = b)) as [<-|]; [by rewrite !fn_lookup_insert|].
  by rewrite !fn_lookup_insert_ne.
Qed.

Lemma img_run_ext ops img img' :
  (∀ b, img b = img' b) → ∀ b, img_run img ops b = img_run img' ops b.
Proof.
  revert img img'. induction ops as [|o ops IH]; intros img img' E b; [apply E|].
  rewrite !img_run_cons. apply IH. clear b. intros b. destruct o as [b' d|]; [|apply E].
  destruct (decide (b' = b)) as [<-|]; [by rewrite !img_apply_eq|]. by rewrite !img_apply_ne.
Qed.

Lemma recover_ext start img img' :
  (∀ b, img b = img' b) → ∀ b, recover_img start img b = recover_img start img' b.
Proof.
  intros E b. unfold recover_img, recover_ops, clear_head. rewrite !E.
  rewrite (install_ext _ _ _ _ _ E). by apply img_run_ext.
Qed.

Lemma wr32_wr32 o v w d : (o + 4 ≤ length d)%nat → wr32 o v (wr32 o w d) = wr32 o v d.
Proof. intros. unfold wr32. apply splice_splice; rewrite !length_le_bytes; lia. Qed.

Lemma esplice_idem e src dst :
  ent_range e → block_ok src → block_ok dst → esplice e src (esplice e src dst) = esplice e src dst.
Proof.
  intros. unfold esplice. apply splice_splice; [done|].
  rewrite length_eslice by done. unfold block_ok, ent_range in *. lia.
Qed.

Lemma hdr_log_block start size h i :
  hdr_ok start size h → (i < length (hdr_entries h))%nat → log_area start size (start + Z.of_nat i + 1).
Proof.
  intros Ho Hi. rewrite length_hdr_entries in Hi. pose proof (ho_fits _ _ _ Ho).
  pose proof (ho_n _ _ _ Ho). unfold log_area. lia.
Qed.

Lemma hdr_not_ent start size h b :
  hdr_ok start size h → log_area start size b → b ∉ e_block <$> hdr_entries h.
Proof.
  intros Ho Hb. rewrite list_elem_of_fmap. intros (e & -> & He).
  by destruct (proj1 (Forall_forall _ _) (ho_ents _ _ _ Ho) e He) as (_ & ? & _).
Qed.

Lemma not_elem_take {A} (l : list A) k x : x ∉ l → x ∉ take k l.
Proof. intros H Hx. apply H. by apply (subseteq_take k). Qed.

(** After a prefix of the entries. *)
Lemma install_take start size es img j i e :
  Forall (ent_ok start size) es → NoDup (e_block <$> es) → Z.of_nat (length es) < size →
  es !! i = Some e →
  img_run img (install_ops start 0 (take j es) img) (e_block e) =
    (let lb := img (start + Z.of_nat i + 1) in
     if decide (i < j)%nat then
       (if crc_ok e lb then esplice e lb (img (e_block e)) else img (e_block e))
     else img (e_block e)).
Proof.
  intros Hes Hnd Hsz Hi. case_decide as Hij.
  - apply (install_entry start size 0 (take j es) img i e).
    + by apply Forall_take.
    + rewrite fmap_take. eapply sublist_NoDup; [apply Hnd|apply sublist_take].
    + len.
    + by rewrite lookup_take_lt.
  - apply install_other. rewrite fmap_take.
    intros Hx. apply list_elem_of_lookup_1 in Hx as [x Hx]. apply lookup_take_Some in Hx as [Hx ?].
    assert (x = i); [|lia]. eapply NoDup_lookup; [apply Hnd|exact Hx|]. by rewrite list_lookup_fmap, Hi.
Qed.

(** Installing an already partly installed log gives what installing it at
    once gives. *)
Lemma install_prefix start size img j b :
  let es := hdr_entries (img start) in
  hdr_ok start size (img start) → img_ok img →
  let img1 := img_run img (install_ops start 0 (take j es) img) in
  img1 start = img start ∧
  img_run img1 (install_ops start 0 es img1) b = img_run img (install_ops start 0 es img) b.
Proof.
  intros es Ho Hk img1.
  assert (Forall (ent_ok start size) es) as Hes by apply Ho.
  assert (NoDup (e_block <$> es)) as Hnd by apply Ho.
  assert (Z.of_nat (length es) < size) as Hsz.
  { unfold es. rewrite length_hdr_entries. pose proof (ho_fits _ _ _ Ho). pose proof (ho_n _ _ _ Ho). lia. }
  assert (∀ b, log_area start size b → img1 b = img b) as Hlog.
  { intros c Hc. apply install_other. rewrite fmap_take.
    apply not_elem_take. by apply (hdr_not_ent start size). }
  split; [apply Hlog; unfold log_area; lia|].
  destruct (decide (b ∈ e_block <$> es)) as [Hin|Hin].
  2:{ rewrite !install_other by done. apply install_other. rewrite fmap_take. by apply not_elem_take. }
  apply list_elem_of_fmap in Hin as (e & -> & He). apply list_elem_of_lookup_1 in He as [i Hi].
  assert (ent_ok start size e) as (_ & _ & Hr) by (by eapply Forall_lookup_1 in Hes).
  rewrite !(install_entry start size 0 es _ i e) by done. cbv zeta. simpl.
  rewrite Hlog by (apply (hdr_log_block start size (img start)); [done|by eapply lookup_lt_Some]).
  unfold img1. rewrite (install_take start size) with (i := i) by done. cbv zeta.
  destruct (decide (i < j)%nat); case_match eqn:Ec; rewrite ?Ec; auto. by apply esplice_idem.
Qed.

Lemma recover_cut start size img k b :
  hdr_ok start size (img start) → img_ok img →
  recover_img start (img_run img (take k (recover_ops start img))) b = recover_img start img b.
Proof.
  intros Ho Hk. unfold recover_ops. set (es := hdr_entries (img start)).
  set (ins := install_ops start 0 es img).
  assert (img_run img ins start = img start) as Hst.
  { apply install_other, (hdr_not_ent start size); [done|].
    pose proof (ho_n _ _ _ Ho). pose proof (ho_fits _ _ _ Ho). unfold log_area. lia. }
  destruct (decide (k ≤ length ins)%nat) as [Hkl|Hkl].
  - rewrite take_app_le by done. unfold ins.
    destruct (take_install_ops k start 0 es img) as [j ->].
    set (img1 := img_run img _).
    destruct (install_prefix start size img j b Ho Hk) as [E1 E2]. fold es img1 in E1, E2.
    unfold recover_img, recover_ops, clear_head. rewrite E1. fold es. rewrite !img_run_app, !img_run_cons.
    simpl. destruct (decide (start = b)) as [<-|]; [by rewrite !img_apply_eq|].
    by rewrite !img_apply_ne.
  - rewrite take_ge by (len). rewrite img_run_app. unfold clear_head.
    change (recover_img start img b) with (img_run img (ins ++ [clear_head start img]) b).
    rewrite img_run_app. set (img1 := img_run (img_run img ins) _).
    assert (img1 start = wr32 0 0 (img start)) as E1 by apply img_apply_eq.
    unfold recover_img, recover_ops. rewrite E1, hdr_entries_0 by (by apply hd_n_clear).
    unfold clear_head. cbn [install_ops app]. rewrite !img_run_cons. simpl.
    destruct (decide (start = b)) as [<-|].
    + rewrite !img_apply_eq, E1. apply wr32_wr32. destruct (Hk start) as [-> _].
      change (Z.to_nat BSIZE) with 512%nat. lia.
    + by rewrite !img_apply_ne.
Qed.

(** ** A drive with a write cache *)

Lemma snoc_flush_unique (p q v w : list dop) :
  forallb is_write v = true → forallb is_write w = true →
  (p ++ [DFlush]) ++ v = (q ++ [DFlush]) ++ w → p = q ∧ v = w.
Proof.
  revert w. induction v as [|o v IH] using rev_ind; intros w Hv Hw E.
  - destruct w as [|o w _] using rev_ind; [rewrite !app_nil_r in E; by simplify_list_eq|].
    rewrite app_nil_r, (app_assoc (q ++ [DFlush])) in E. simplify_list_eq.
    rewrite forallb_app in Hw. simpl in Hw. by rewrite andb_false_r in Hw.
  - destruct w as [|o' w _] using rev_ind.
    + rewrite app_nil_r, (app_assoc (p ++ [DFlush])) in E. simplify_list_eq.
      rewrite forallb_app in Hv. simpl in Hv. by rewrite andb_false_r in Hv.
    + rewrite !(app_assoc (_ ++ [DFlush])) in E. apply app_inj_tail in E as [E ->].
      rewrite forallb_app in Hv, Hw. apply andb_true_iff in Hv as [Hv _].
      apply andb_true_iff in Hw as [Hw _]. destruct (IH w Hv Hw E) as [-> ->]. done.
Qed.

(** A crash between the barrier and the first install, on a drive that
    reorders the writes it has not been told to flush. *)
Lemma barrier_cut start size view es base hist img k :
  txn_ok start size view (img_run base hist) es →
  (length es + 1 ≤ k ≤ length es + 2)%nat →
  cache_crash base (hist ++ take k (commit_ops start view es)) img →
  ∃ k', ∀ b, img b = img_run (img_run base hist) (take k' (commit_ops start view es)) b.
Proof.
  intros Htx Hk [durable volatile Hops Hd Hv Himg].
  set (hd := hdr_encode (seal view <$> es) (view start)).
  set (wl := wl_ops start view 0 es).
  assert (hist ++ take k (commit_ops start view es) =
          ((hist ++ wl) ++ [DFlush]) ++ (if decide (k = length es + 2)%nat then [DWrite start hd] else [])) as E.
  { unfold commit_ops. fold hd wl. rewrite take_app_ge by (unfold wl; rewrite length_wl_ops; lia).
    unfold wl at 2. rewrite length_wl_ops. rewrite <- !app_assoc. do 2 f_equal. case_decide.
    - by replace (k - length es)%nat with 2%nat by lia.
    - by replace (k - length es)%nat with 1%nat by lia. }
  destruct Hd as [->|[p ->]].
  { simpl in Hops. rewrite <- Hops, E, !forallb_app in Hv. simpl in Hv.
    by rewrite !andb_false_r in Hv. }
  rewrite E in Hops. symmetry in Hops. apply snoc_flush_unique in Hops as [-> ->]; [|done|by case_decide].
  destruct (Himg start) as [Hs|(d & Hin & Hs)].
  - exists (length es). intros b. unfold commit_ops. fold wl.
    rewrite take_app_length' by (by unfold wl; rewrite length_wl_ops).
    rewrite <- img_run_app. destruct (Himg b) as [Hb|(d & Hin & Hb)].
    + rewrite Hb, img_run_app. done.
    + case_decide; [|done]. destruct Hin as [[= <- <-]|[]]. by rewrite Hs, img_run_app.
  - exists (length es + 2)%nat. intros b. case_decide; [|done].
    destruct Hin as [[= <-]|[]]. unfold commit_ops. fold wl hd.
    rewrite app_assoc, take_app_length' by (len; unfold wl; rewrite length_wl_ops; lia).
    rewrite <- img_run_app, app_assoc.
    rewrite (img_run_app _ (hist ++ wl)), !img_run_cons.
    change (img_run ?i []) with i. simpl.
    destruct (decide (start = b)) as [<-|Hne]; [by rewrite img_apply_eq|].
    rewrite img_apply_ne by done. destruct (Himg b) as [Hb|(d & [[= <- <-]|[]] & Hb)]; [|done].
    rewrite Hb, img_run_app. done.
Qed.

(** ** Recovery of a damaged log *)

(** The image after crash phase 3: committed, and byte 0 of the first log
    block inverted. *)
Definition flip0 (d : list Z) : list Z := <[0%nat := Z.lxor (nth 0 d 0) 0xFF]> d.

Lemma flip0_ok d : block_ok d → block_ok (flip0 d).
Proof.
  intros [Hl Hb]. unfold flip0. split; [by rewrite length_insert|].
  apply Forall_insert; [done|]. destruct d as [|x d]; [done|]. inversion Hb; subst. simpl.
  unfold is_byte in *. pose proof (Z.lxor_nonneg x 255). split; [lia|].
  destruct (decide (Z.lxor x 255 = 0)) as [->|]; [lia|].
  apply (Z.log2_lt_pow2 _ 8); [lia|]. eapply Z.le_lt_trans; [apply Z.log2_lxor; lia|].
  apply Z.max_lub_lt; [|done]. destruct (decide (x = 0)) as [->|]; [done|].
  apply (Z.log2_lt_pow2 x 8); lia.
Qed.

Lemma flip0_ne d : block_ok d → ∃ x y r, d = x :: r ∧ flip0 d = y :: r ∧ x ≠ y.
Proof.
  intros [Hl Hb]. destruct d as [|x d]; [done|]. exists x, (Z.lxor x 255), d.
  split; [done|]. split; [done|]. intros E.
  assert (Z.testbit x 0 = Z.testbit (Z.lxor x 255) 0) as Ht by congruence.
  rewrite Z.lxor_spec in Ht. change (Z.testbit 255 0) with true in Ht. by destruct (Z.testbit x 0).
Qed.

(** The checksum sees the damage exactly when the entry covers byte 0. *)
Lemma eslice_flip0 e d :
  ent_range e → block_ok d →
  (0 < e_off e ∨ e_len e = 0 → eslice e (flip0 d) = eslice e d) ∧
  (e_off e = 0 → 0 < e_len e → crc_ref (eslice e (flip0 d)) ≠ crc_ref (eslice e d)).
Proof.
  intros (Ho & Hl & Hs) Hd. destruct (flip0_ne d Hd) as (x & y & r & Ed & Ef & Hne). split.
  - intros Hc. unfold eslice, slice. destruct Hc as [Hc| ->]; [|done]. f_equal.
    rewrite Ef, Ed. replace (Z.to_nat (e_off e)) with (S (Z.to_nat (e_off e - 1))) by lia. done.
  - intros E0 Hlen Hcrc. unfold eslice, slice in Hcrc. rewrite E0, Ef, Ed in Hcrc.
    replace (Z.to_nat (e_len e)) with (S (Z.to_nat (e_len e - 1))) in Hcrc by lia. simpl in Hcrc.
    pose proof (flip0_ok d Hd) as [_ Hfb]. destruct Hd as [_ Hdb]. rewrite Ed in Hdb. rewrite Ef in Hfb.
    inversion Hdb; inversion Hfb; subst. apply Hne. symmetry.
    eapply (crc_ref_byte []); [constructor|apply Forall_take; done|done|done|]. exact Hcrc.
Qed.

(** What recovery makes of each entry, whatever is in the log blocks. *)
Lemma recover_entry start size view img0 es img i e :
  txn_ok start size view img0 es → hdr_entries (img start) = seal view <$> es → es !! i = Some e →
  recover_img start img (e_block e) =
    (let lb := img (start + Z.of_nat i + 1) in
     if crc_ok (seal view e) lb then esplice e lb (img (e_block e)) else img (e_block e)).
Proof.
  intros Htx Hh Hi. unfold recover_img, recover_ops. rewrite img_run_app. unfold clear_head.
  change (img_run ?x [?o]) with (img_apply x o). rewrite img_apply_ne.
  - rewrite Hh. apply (install_entry start size 0 _ _ i (seal view e)).
    + by eapply ent_ok_seal.
    + rewrite fmap_block_seal. apply Htx.
    + rewrite length_fmap. apply Htx.
    + by rewrite list_lookup_fmap, Hi.
  - intros E. apply (not_ent start size _ _ _ Htx start); [by eapply start_in_log|].
    rewrite E. apply list_elem_of_fmap_2. by eapply list_elem_of_lookup_2.
Qed.

Lemma recover_other start size view img0 es img b :
  txn_ok start size view img0 es → hdr_entries (img start) = seal view <$> es →
  b ∉ e_block <$> es → b ≠ start → recover_img start img b = img b.
Proof.
  intros Htx Hh Hb Hs. unfold recover_img, recover_ops. rewrite img_run_app. unfold clear_head.
  change (img_run ?x [?o]) with (img_apply x o). rewrite img_apply_ne by done.
  rewrite Hh. apply install_other. by rewrite fmap_block_seal.
Qed.

(** Recovery after the fault injection: the first entry's block is left at its
    old content when the entry covers byte 0, every other block is updated. *)
Lemma recover_flip0 start size view img0 e0 es b :
  txn_ok start size view img0 (e0 :: es) → ¬ log_area start size b →
  let img := committed_img start view img0 (e0 :: es) in
  recover_img start (img_apply img (DWrite (start + 1) (flip0 (img (start + 1))))) b =
    if decide (b = e_block e0 ∧ e_off e0 = 0 ∧ 0 < e_len e0) then img0 b else view b.
Proof.
  intros Htx Hb img. set (img3 := img_apply img _).
  pose proof (committed_logged start size view img0 _ Htx) as Hlg. fold img in Hlg.
  pose proof (tx_view _ _ _ _ _ Htx) as Hv. pose proof (tx_fits _ _ _ _ _ Htx) as Hf.
  assert (∀ n, n ≠ start + 1 → img3 n = img n) as H3 by (intros n Hn; by apply img_apply_ne).
  assert (hdr_entries (img3 start) = seal view <$> (e0 :: es)) as Hh.
  { rewrite H3 by lia. apply Hlg. }
  assert (∀ n, ¬ log_area start size n → img3 n = img0 n) as Hout.
  { intros n Hn. rewrite H3 by (intros ->; apply Hn; unfold log_area; simpl in *; lia).
    by apply (committed_other start size view img0 _ Htx). }
  destruct (decide (b ∈ e_block <$> e0 :: es)) as [Hin|Hin].
  2:{ rewrite (recover_other _ _ _ _ _ _ _ Htx Hh Hin), Hout by (done || intros ->; by apply Hb, (start_in_log _ _ _ _ _ Htx)).
      rewrite decide_False; [symmetry; by apply Htx|]. intros [-> _]. apply Hin. rewrite fmap_cons. set_solver. }
  apply list_elem_of_fmap in Hin as (e & -> & He). pose proof He as He'.
  apply list_elem_of_lookup_1 in He as [i Hi].
  destruct (proj1 (Forall_forall _ _) (tx_ents _ _ _ _ _ Htx) e He') as (_ & _ & Hr).
  rewrite (recover_entry _ _ _ _ _ _ i e Htx Hh Hi). cbv zeta. rewrite (Hout (e_block e)) by done.
  pose proof (lg_log _ _ _ _ _ Hlg i e Hi) as Hlb. set (lb := esplice e _ _) in Hlb.
  assert (block_ok lb) as Hlok by (by apply esplice_ok).
  assert (eslice e lb = eslice e (view (e_block e))) as Hsl by (by apply eslice_esplice).
  pose proof (tx_agree _ _ _ _ _ Htx e He') as Hag. pose proof (tx_img _ _ _ _ _ Htx (e_block e)) as Hi0.
  unfold crc_ok. cbn [e_cksum seal]. destruct i as [|i].
  - simpl in Hi. injection Hi as ->. replace (start + Z.of_nat 0 + 1) with (start + 1) in * by lia.
    replace (img3 (start + 1)) with (flip0 lb) by (unfold img3; rewrite img_apply_eq; by rewrite Hlb).
    change (eslice (seal view e) ?x) with (eslice e x).
    destruct (eslice_flip0 e lb Hr Hlok) as [Hsame Hdiff]. case_decide as Hc.
    + rewrite (proj2 (Z.eqb_neq _ _)); [done|]. rewrite <- Hsl. apply Hdiff; apply Hc.
    + destruct Hr as (? & ? & ?). rewrite Hsame, Hsl, Z.eqb_refl by lia.
      apply esplice_agree; auto using flip0_ok; [by split_and!|]. by rewrite Hsame, Hsl by lia.
  - rewrite H3 by lia. rewrite Hlb. change (eslice (seal view e) ?x) with (eslice e x).
    rewrite Hsl, Z.eqb_refl. rewrite decide_False; [by apply esplice_agree|].
    intros [E _]. pose proof (tx_nodup _ _ _ _ _ Htx) as Hnd. rewrite fmap_cons in Hnd.
    apply NoDup_cons in Hnd as [Hni _]. apply Hni. rewrite <- E.
    apply list_elem_of_fmap_2. simpl in Hi. by eapply list_elem_of_lookup_2.
Qed.

(** An interrupted recovery leaves a disk recovery can start from. *)
Lemma recover_cut_other start size img k b :
  hdr_ok start size (img start) → b ∉ e_block <$> hdr_entries (img start) → b ≠ start →
  img_run img (take k (recover_ops start img)) b = img b.
Proof.
  intros Ho Hb Hne. unfold recover_ops. set (ins := install_ops _ _ _ _).
  destruct (decide (k ≤ length ins)%nat) as [Hk|Hk].
  - rewrite take_app_le by done. unfold ins.
    destruct (take_install_ops k start 0 (hdr_entries (img start)) img) as [j ->].
    apply install_other. rewrite fmap_take. by apply not_elem_take.
  - rewrite take_ge by len. rewrite img_run_app. unfold clear_head.
    change (img_run ?x [?o]) with (img_apply x o). rewrite img_apply_ne by done. by apply install_other.
Qed.

Lemma recover_cut_ok start size img k :
  hdr_ok start size (img start) → img_ok img →
  img_ok (img_run img (take k (recover_ops start img))) ∧
  hdr_ok start size (img_run img (take k (recover_ops start img)) start).
Proof.
  intros Ho Hk. pose proof (ho_n _ _ _ Ho). pose proof (ho_fits _ _ _ Ho).
  unfold recover_ops. set (ins := install_ops _ _ _ _).
  assert (start ∉ e_block <$> hdr_entries (img start)) as Hst.
  { apply (hdr_not_ent start size); [done|]. unfold log_area. lia. }
  destruct (decide (k ≤ length ins)%nat).
  - rewrite take_app_le by done. unfold ins.
    destruct (take_install_ops k start 0 (hdr_entries (img start)) img) as [j ->]. split.
    + apply (img_ok_install start size); [done|]. apply Forall_take, Ho.
    + rewrite install_other; [done|]. rewrite fmap_take. by apply not_elem_take.
  - rewrite take_ge by len. rewrite img_run_app. unfold clear_head.
    change (img_run ?x [?o]) with (img_apply x o).
    assert (block_ok (wr32 0 0 (img start))).
    { apply block_ok_wr32; [|done]. change (Z.to_nat BSIZE) with 512%nat. lia. }
    split.
    + apply img_ok_write; [|done]. apply (img_ok_install start size); [done|apply Ho].
    + rewrite img_apply_eq. split; rewrite ?hd_n_clear, ?hdr_entries_0 by (done || by apply hd_n_clear); try lia; constructor.
Qed.

(** ** Main theorems *)

(** The log header survives the disk: the block [write_head] writes for a
    list of entries decodes, as [read_head] reads it, to the same entry count
    and the same entries, whatever the rest of the block held. *)
Theorem header_roundtrip es d :
  (length es ≤ 30)%nat → block_ok d → Forall ent_words es →
  hd_n (hdr_encode es d) = Z.of_nat (length es) ∧ hdr_entries (hdr_encode es d) = es.
Proof. apply hdr_entries_encode. Qed.

Lemma header_roundtrip_witness :
  hdr_entries (hdr_encode [mk_lent 100 8 4 0xCBF43926] zero_block) = [mk_lent 100 8 4 0xCBF43926].
Proof.
  apply header_roundtrip; [simpl; lia|apply zero_block_ok|].
  repeat constructor; simpl; lia.
Defined.
