(* ===== verification/LogSpec.v ===== *)
(** * What the journal code does

    Each operation of [Log] run on a cache described by [crep]: it returns, and
    the disk commands it issues and the state it leaves are those of [LogImg]. *)

From S2P Require Import Prelude Layout Sleeplock Disk Bio BioSpec Crc32 Log LogImg.

#[local] Arguments img_apply : simpl never.

Section logspec.
Context {D : Type} `{DiskFlushOk D} `{!DiskDriverOk D}.
Implicit Types (s : lstate D) (b : bstate D) (a : cabs).

(** The abstract cache after writing blocks through to the disk. *)
Definition op_blocks (ops : list dop) : gset Z :=
  list_to_set (omap (λ o, match o with DWrite n _ => Some n | DFlush => None end) ops).
Definition ca_writes (ops : list dop) (a : cabs) : cabs :=
  mk_cabs (img_run (ca_view a) ops) (ca_dirty a ∖ op_blocks ops) (ca_held a)
    (mk_disk (d_base (ca_disk a)) (d_ops (ca_disk a) ++ ops)).

Lemma op_blocks_app o1 o2 : op_blocks (o1 ++ o2) = op_blocks o1 ∪ op_blocks o2.
Proof. unfold op_blocks. by rewrite omap_app, list_to_set_app_L. Qed.

Lemma ca_writes_nil a : ca_writes [] a = a.
Proof.
  unfold ca_writes. destruct a as [v d h [base ops]]. simpl. rewrite app_nil_r.
  f_equal. set_solver.
Qed.

Lemma ca_writes_app o1 o2 a : ca_writes (o1 ++ o2) a = ca_writes o2 (ca_writes o1 a).
Proof.
  unfold ca_writes. simpl. rewrite img_run_app, app_assoc, op_blocks_app. f_equal. set_solver.
Qed.

Lemma disk_img_writes ops a : disk_img (ca_disk (ca_writes ops a)) = img_run (disk_img (ca_disk a)) ops.
Proof. unfold disk_img, ca_writes. simpl. by rewrite img_run_app. Qed.

Lemma ca_set_view_twice n d d' a : ca_eq (ca_set_view n d a) (ca_set_view n d (ca_set_view n d' a)).
Proof.
  split; [|done]. intros m. simpl. destruct (decide (n = m)) as [<-|].
  - by rewrite !fn_lookup_insert.
  - by rewrite !fn_lookup_insert_ne.
Qed.

(** A block may be released: it is pinned, or the disk has its content. *)
Definition ca_sync a (n : Z) : Prop := n ∈ ca_dirty a ∨ ca_view a n = disk_img (ca_disk a) n.

Lemma crep_sync pid b a n : crep pid b a → ca_held a !! n = None → ca_sync a n.
Proof.
  intros Hc Hn. destruct (decide (n ∈ ca_dirty a)); [by left|right]. by apply (cr_view _ _ _ Hc).
Qed.

Lemma ca_sync_write a n d m : m = n ∨ ca_sync a m → ca_sync (ca_writes [DWrite n d] a) m.
Proof.
  intros Hm. destruct (decide (m = n)) as [->|Hne].
  - right. rewrite disk_img_writes. simpl. by rewrite !img_apply_eq.
  - destruct Hm as [|[Hm|Hm]]; [done|left|right].
    + unfold ca_writes, op_blocks. simpl. set_solver.
    + rewrite disk_img_writes. simpl. by rewrite !img_apply_ne.
Qed.

(** ** Two blocks at a time

    [write_log] and [install_trans] hold a log block and a home block. *)

Lemma bread2_spec pid b a n1 n2 :
  crep pid b a → ca_held a = ∅ → 0 ≤ n1 < FSSIZE → 0 ≤ n2 < FSSIZE → n1 ≠ n2 →
  (size ({[n2]} ∪ ca_dirty a) < NBUF)%nat →
  ∃ i1 b1 i2 b2, bread ROOTDEV n1 pid b = Ret i1 b1 ∧ bread ROOTDEV n2 pid b1 = Ret i2 b2 ∧
    crep pid b2 (ca_set_held (<[n2 := i2]> {[n1 := i1]}) a).
Proof.
  intros Hc Hh Hr1 Hr2 Hne Hsz.
  assert (size (ca_dirty a) ≤ size ({[n2]} ∪ ca_dirty a))%nat by (apply subseteq_size; set_solver).
  destruct (bread_spec pid b a n1) as (i1 & b1 & E1 & Hc1 & _); try done.
  { by rewrite Hh. }
  { right. unfold room. rewrite Hh, dom_empty_L, union_empty_r_L. lia. }
  rewrite Hh in Hc1.
  destruct (bread_spec pid b1 _ n2 Hc1) as (i2 & b2 & E2 & Hc2 & _); simpl; try done.
  { by rewrite lookup_insert_ne. }
  { destruct (decide (n2 ∈ ca_dirty a)) as [|Hn2]; [by left|right]. unfold room. simpl.
    rewrite dom_insert_L, dom_empty_L, union_empty_r_L.
    rewrite size_union, size_singleton in Hsz by set_solver.
    pose proof (size_union_alt (ca_dirty a) {[n1]}).
    assert (size ({[n1]} ∖ ca_dirty a) ≤ size ({[n1]} : gset Z))%nat as Hle by (apply subseteq_size; set_solver).
    rewrite size_singleton in Hle. lia. }
  eexists _, _, _, _. split; [exact E1|]. split; [exact E2|]. exact Hc2.
Qed.

(** Releasing both, the first one last. *)
Lemma brelse2_spec pid b a n1 n2 i1 i2 :
  crep pid b a → n1 ≠ n2 → ca_held a = <[n2 := i2]> {[n1 := i1]} →
  ca_sync a n1 → ca_sync a n2 →
  (∃ b1 b2, brelse i1 pid b = Ret tt b1 ∧ brelse i2 pid b1 = Ret tt b2 ∧
     crep pid b2 (ca_set_held ∅ a) ∧ bs_drv b2 = bs_drv b) ∧
  (∃ b1 b2, brelse i2 pid b = Ret tt b1 ∧ brelse i1 pid b1 = Ret tt b2 ∧
     crep pid b2 (ca_set_held ∅ a) ∧ bs_drv b2 = bs_drv b).
Proof.
  intros Hc Hne Hh C1 C2. split.
  - destruct (brelse_spec pid b a n1 i1) as (b1 & E1 & Hc1 & Hd1); try done.
    { by rewrite Hh, lookup_insert_ne, lookup_singleton_eq. }
    rewrite Hh, delete_insert_ne, delete_singleton_eq in Hc1 by done.
    destruct (brelse_spec pid b1 _ n2 i2 Hc1) as (b2 & E2 & Hc2 & Hd2); simpl; try done.
    { by rewrite lookup_insert_eq. }
    simpl in Hc2. rewrite delete_insert_eq, delete_empty in Hc2.
    exists b1, b2. rewrite Hd2, Hd1. done.
  - destruct (brelse_spec pid b a n2 i2) as (b1 & E1 & Hc1 & Hd1); try done.
    { by rewrite Hh, lookup_insert_eq. }
    rewrite Hh, delete_insert_id in Hc1 by (by rewrite lookup_singleton_ne).
    destruct (brelse_spec pid b1 _ n1 i1 Hc1) as (b2 & E2 & Hc2 & Hd2); simpl; try done.
    { by rewrite lookup_singleton_eq. }
    simpl in Hc2. rewrite delete_singleton_eq in Hc2.
    exists b1, b2. rewrite Hd2, Hd1. done.
Qed.

(** Changing a held block and writing it. *)
Lemma put_block_spec pid b a n i d :
  crep pid b a → ca_held a !! n = Some i →
  ∃ b1 b2, bset_data i d pid b = Ret tt b1 ∧ bwrite i pid b1 = Ret tt b2 ∧
    crep pid b2 (ca_writes [DWrite n d] a) ∧
    drv_selected (bs_drv b2).
Proof.
  intros Hc Hh. destruct (bset_data_spec pid b a n i d Hc Hh) as (b1 & E1 & Hc1 & _).
  destruct (bwrite_spec pid b1 _ n i Hc1 Hh) as (b2 & E2 & Hc2 & Hs).
  exists b1, b2. split; [done|]. split; [done|]. split; [|done].
  simpl in Hc2. rewrite fn_lookup_insert in Hc2.
  replace (ca_writes _ a) with (ca_set_dirty (ca_dirty a ∖ {[n]})
    (ca_set_disk (disk_do (DWrite n d) (ca_disk a)) (ca_set_view n d a))); [exact Hc2|].
  unfold ca_writes, op_blocks. simpl. by rewrite union_empty_r_L.
Qed.

(** ** The in-memory header *)

Record lh_rep (lh : logheader) (es : list lent) : Prop := mk_lh_rep {
  lr_n : lh_n lh = Z.of_nat (length es);
  lr_max : (length es ≤ 30)%nat;
  lr_lens : length (lh_block lh) = 30%nat ∧ length (lh_cksum lh) = 30%nat ∧
            length (lh_offset lh) = 30%nat ∧ length (lh_len lh) = 30%nat;
  lr_ents : ∀ i e, es !! i = Some e →
    lh_block lh !! i = Some (e_block e) ∧ lh_offset lh !! i = Some (e_off e) ∧
    lh_len lh !! i = Some (e_len e) ∧ lh_cksum lh !! i = Some (e_cksum e);
}.

Lemma lh_rep_clear lh es : lh_rep lh es → lh_rep (lh_set_n 0 lh) [].
Proof. intros [_ _ Hl _]. split; simpl; try done; lia. Qed.

Lemma lh_rep_cksum lh es i e c :
  lh_rep lh es → es !! i = Some e →
  lh_rep (lh_set_cksum (<[i := c]> (lh_cksum lh)) lh)
    (<[i := mk_lent (e_block e) (e_off e) (e_len e) c]> es).
Proof.
  intros [Hn Hm (? & Hc & ? & ?) He] Hi. split; simpl; rewrite ?length_insert; auto.
  intros j e'. destruct (decide (i = j)) as [<-|Hne].
  - rewrite list_lookup_insert_eq by (by eapply lookup_lt_Some). intros [= <-]. simpl.
    destruct (He i e Hi) as (? & ? & ? & ?).
    rewrite list_lookup_insert_eq; [done|]. rewrite Hc. apply lookup_lt_Some in Hi. lia.
  - rewrite !list_lookup_insert_ne by done. apply He.
Qed.

(** ** Configuration and frame *)

(** What the disk-moving operations leave alone. *)
Definition lcfg s :=
  (l_start s, l_size s, l_outstanding s, l_committing s, l_dev s, l_batch_size s,
   crash_at_phase s, l_sleepers s).

Record geom s (start lsize : Z) : Prop := mk_geom {
  ge_start : l_start s = start;
  ge_size : l_size s = lsize;
  ge_dev : l_dev s = ROOTDEV;
  ge_lo : 0 ≤ start;
  ge_hi : start + lsize ≤ FSSIZE;
}.

Lemma geom_cfg s s' start lsize : lcfg s' = lcfg s → geom s start lsize → geom s' start lsize.
Proof. unfold lcfg. intros E [? ? ? ? ?]. injection E. intros. split; congruence. Qed.

Lemma geom_block s start lsize i :
  geom s start lsize → Z.of_nat i < lsize - 1 →
  u32 (l_start s + Z.of_nat i + 1) = start + Z.of_nat i + 1 ∧ 0 ≤ start + Z.of_nat i + 1 < FSSIZE.
Proof.
  intros [Hs _ _ Hlo Hhi] Hi. rewrite Hs. unfold FSSIZE in *. split; [apply u32_small|]; lia.
Qed.

Lemma mmove_ent e dst src :
  ent_range e → mmove (e_off e) (e_len e) dst src = Some (esplice e src dst).
Proof.
  intros (? & ? & ?). unfold mmove, in_block.
  replace (0 <=? e_len e) with true by lia. replace (0 <=? e_off e) with true by lia.
  by replace (e_off e + e_len e <=? BSIZE) with true by lia.
Qed.

Lemma mslice_ent e x : ent_range e → mslice (e_off e) (e_len e) x = Some (eslice e x).
Proof.
  intros (? & ? & ?). unfold mslice, in_block. destruct (Z.leb_spec (e_len e) 0).
  - unfold eslice, slice. replace (Z.to_nat (e_len e)) with 0%nat by lia. by rewrite take_0.
  - replace (0 <=? e_off e) with true by lia.
    by replace (e_off e + e_len e <=? BSIZE) with true by lia.
Qed.

Lemma log_crc32_spec pid s data :
  crc_wf (l_crc s) → bytes data →
  ∃ c, log_crc32 data pid s = Ret (crc_ref data) (l_set_crc c s) ∧ crc_wf c.
Proof.
  intros Hw Hb. destruct (crc32_value _ _ Hw Hb) as [E Hw'].
  exists (crc32 (l_crc s) data).2. split; [|done].
  unfold log_crc32. munfold. destruct (crc32 (l_crc s) data). simpl in *. by rewrite E.
Qed.

Lemma orundef_Some {S A} (o : option A) x pid (s : S) : o = Some x → orundef o pid s = Ret x s.
Proof. by intros ->. Qed.

(** ** write_log *)

Lemma write_log_one_spec pid s a start lsize es i e :
  geom s start lsize → crep pid (l_bio s) a → crc_wf (l_crc s) → lh_rep (l_lh s) es →
  es !! i = Some e → ent_ok start lsize e → Z.of_nat (length es) < lsize →
  ca_held a = ∅ → (size ({[e_block e]} ∪ ca_dirty a) < NBUF)%nat → img_ok (ca_view a) →
  let n := start + Z.of_nat i + 1 in
  let nd := esplice e (ca_view a (e_block e)) (ca_view a n) in
  ∃ s', write_log_one (Z.of_nat i) pid s = Ret tt s' ∧ lcfg s' = lcfg s ∧
    crep pid (l_bio s') (ca_writes [DWrite n nd] a) ∧ crc_wf (l_crc s') ∧
    lh_rep (l_lh s') (<[i := seal (ca_view a) e]> es) ∧
    jstats s' = js_written (e_len e) (jstats s) ∧ drv_selected (bs_drv (l_bio s')).
Proof.
  intros Hg Hc Hw Hr Hi (Hb & Hla & He) Hsz Hh Hroom Hok n nd.
  pose proof (lookup_lt_Some _ _ _ Hi) as Hlt.
  destruct (geom_block s start lsize i Hg) as [Eu Hn]; [lia|]. fold n in Eu, Hn.
  assert (n ≠ e_block e) as Hne by (intros E; apply Hla; rewrite <- E; unfold log_area; lia).
  destruct (bread2_spec pid (l_bio s) a n (e_block e)) as (i1 & b1 & i2 & b2 & E1 & E2 & Hc2); try done.
  set (a2 := ca_set_held _ a) in Hc2.
  assert (ca_held a2 !! n = Some i1) as Hh1 by (simpl; by rewrite lookup_insert_ne, lookup_singleton_eq).
  assert (ca_held a2 !! e_block e = Some i2) as Hh2 by (simpl; by rewrite lookup_insert_eq).
  pose proof (bdata_spec _ _ _ _ _ Hc2 Hh1) as D1. pose proof (bdata_spec _ _ _ _ _ Hc2 Hh2) as D2.
  destruct (put_block_spec pid b2 a2 n i1 nd Hc2 Hh1) as (b3 & b4 & E3 & E4 & Hc4 & Hsel).
  set (a4 := ca_writes _ _) in Hc4.
  destruct (brelse2_spec pid b4 a4 n (e_block e) i1 i2) as [_ (b5 & b6 & E5 & E6 & Hc6 & Hd6)]; try done.
  { apply ca_sync_write. by left. }
  { apply ca_sync_write. right. apply (crep_sync pid _ a _ Hc). by rewrite Hh. }
  assert (eslice e nd = eslice e (ca_view a (e_block e))) as Hs by (by apply eslice_esplice).
  destruct (lr_ents _ _ Hr i e Hi) as (L1 & L2 & L3 & L4).
  destruct (log_crc32_spec pid (l_set_bio b3 (l_set_bio b2 (l_set_bio b1 s))) (eslice e nd)) as (c & Ec & Hwc);
    [done|apply bytes_eslice, esplice_ok; done|].
  destruct (lr_lens _ _ Hr) as (_ & Hck & _). pose proof (lr_max _ _ Hr).
  eexists. split.
  { unfold write_log_one. mstep. rewrite (ge_dev _ _ _ Hg), Eu. mstep. mstep.
    rewrite (u32_small (e_block e)) by (unfold FSSIZE in Hb; lia). do 5 mstep.
    rewrite (mmove_ent e) by done. cbn [orundef]. do 2 mstep.
    rewrite (mslice_ent e) by done. cbn [orundef]. do 2 mstep.
    mrun (aset_Ret (lh_cksum (l_lh s)) i (crc_ref (eslice e nd)) pid
      (l_set_crc c (l_set_bio b3 (l_set_bio b2 (l_set_bio b1 s)))) ltac:(lia)).
    unfold lh_upd, js_upd. do 4 mstep. mstep. }
  simpl. split; [done|]. split.
  { by rewrite <- Hh in Hc6. }
  split; [done|]. split; [rewrite Hs; by apply lh_rep_cksum|]. split; [done|]. by rewrite Hd6.
Qed.

(** There is a buffer for each entry's block beside the pinned ones. *)
Definition fits (es : list lent) a : Prop :=
  ∀ e, e ∈ es → (size ({[e_block e]} ∪ ca_dirty a) < NBUF)%nat.

Lemma fits_one es a ops e :
  fits es a → e ∈ es → (size ({[e_block e]} ∪ ca_dirty (ca_writes ops a)) < NBUF)%nat.
Proof.
  intros Hf He. eapply Nat.le_lt_trans; [apply subseteq_size|by apply (Hf e)]. simpl. set_solver.
Qed.

Definition js_log (es : list lent) (js : journal_stats) : journal_stats :=
  foldl (λ js e, js_written (e_len e) js) js es.

Section loops.
Context (pid start lsize : Z) (s0 : lstate D) (a : cabs) (es : list lent).
Context (Hg : geom s0 start lsize) (Hok : img_ok (ca_view a)) (Hh : ca_held a = ∅).
Context (Hes : Forall (ent_ok start lsize) es) (Hsz : Z.of_nat (length es) < lsize).
Context (Hfit : fits es a).

Definition wl_inv (i : nat) s : Prop :=
  lcfg s = lcfg s0 ∧ crep pid (l_bio s) (ca_writes (wl_ops start (ca_view a) 0 (take i es)) a) ∧
  crc_wf (l_crc s) ∧ lh_rep (l_lh s) ((seal (ca_view a) <$> take i es) ++ drop i es) ∧
  jstats s = js_log (take i es) (jstats s0) ∧
  (i = 0%nat ∨ drv_selected (bs_drv (l_bio s))).

Lemma wl_step i : (i < length es)%nat → triple pid (wl_inv i) (write_log_one (Z.of_nat i)) (λ _, wl_inv (S i)).
Proof.
  intros Hi s (Hcf & Hc & Hw & Hr & Hj & _).
  destruct (lookup_lt_is_Some_2 es i Hi) as [e He].
  assert (ent_ok start lsize e) as Heo by (by eapply Forall_lookup_1 in Hes).
  set (ai := ca_writes _ a) in Hc.
  assert (ca_view ai (e_block e) = ca_view a (e_block e)) as V1.
  { apply wl_other. intros j Hj' E. destruct Heo as (_ & Hla & _). apply Hla.
    rewrite length_take in Hj'. unfold log_area. lia. }
  assert (ca_view ai (start + Z.of_nat i + 1) = ca_view a (start + Z.of_nat i + 1)) as V2.
  { apply wl_other. intros j Hj'. rewrite length_take in Hj'. lia. }
  assert (length (seal (ca_view a) <$> take i es) = i) as Hlen by len.
  destruct (write_log_one_spec pid s ai start lsize _ i e (geom_cfg _ _ _ _ Hcf Hg) Hc Hw Hr)
    as (s' & E & Hcf' & Hc' & Hw' & Hr' & Hj' & Hs'); try done.
  { rewrite lookup_app_r by lia. rewrite lookup_drop. rewrite <- He. f_equal. lia. }
  { len. }
  { apply (fits_one es); [done|]. by eapply list_elem_of_lookup_2. }
  { apply (img_ok_wl start lsize); [done|done|]. by apply Forall_take. }
  exists tt, s'. split; [done|]. unfold wl_inv. rewrite Hcf'. split; [done|].
  rewrite (take_S_r _ _ _ He). split.
  { rewrite wl_ops_app, ca_writes_app. rewrite V1, V2 in Hc'.
    rewrite length_take, Nat.min_l by lia. exact Hc'. }
  split; [done|]. split.
  { replace (seal (ca_view ai) e) with (seal (ca_view a) e) in Hr' by (unfold seal; by rewrite V1).
    rewrite fmap_app, <- app_assoc. rewrite insert_app_r_alt in Hr' by lia.
    rewrite Hlen, Nat.sub_diag, (drop_S _ _ _ He) in Hr'. exact Hr'. }
  split; [|by right]. rewrite Hj', Hj. unfold js_log. by rewrite foldl_app.
Qed.

Lemma write_log_spec :
  crep pid (l_bio s0) a → crc_wf (l_crc s0) → lh_rep (l_lh s0) es →
  ∃ s', write_log pid s0 = Ret tt s' ∧ lcfg s' = lcfg s0 ∧
    crep pid (l_bio s') (ca_writes (wl_ops start (ca_view a) 0 es) a) ∧ crc_wf (l_crc s') ∧
    lh_rep (l_lh s') (seal (ca_view a) <$> es) ∧ jstats s' = js_log es (jstats s0) ∧
    (es = [] ∨ drv_selected (bs_drv (l_bio s'))).
Proof.
  intros Hc Hw Hr.
  destruct (triple_forZ pid wl_inv write_log_one (lh_n (l_lh s0))) with (s := s0) as ([] & s' & E & Hinv).
  { intros i Hi. apply wl_step. rewrite (lr_n _ _ Hr) in Hi. lia. }
  { unfold wl_inv. rewrite take_0, drop_0. simpl. rewrite ca_writes_nil. auto 10. }
  exists s'. split; [unfold write_log; mstep; exact E|].
  rewrite (lr_n _ _ Hr), Nat2Z.id in Hinv. unfold wl_inv in Hinv.
  rewrite firstn_all, drop_all, app_nil_r in Hinv.
  destruct Hinv as (? & ? & ? & ? & ? & Hsel). split_and!; try done.
  destruct Hsel as [Hn|]; [left; by apply nil_length_inv|by right].
Qed.

End loops.

(** ** install_trans *)

Definition js_install (ok : bool) (js : journal_stats) : journal_stats :=
  if ok then js_installed js else js_checksum_error js.

Lemma install_one_spec pid s a start lsize es i e :
  geom s start lsize → crep pid (l_bio s) a → crc_wf (l_crc s) → lh_rep (l_lh s) es →
  es !! i = Some e → ent_ok start lsize e → Z.of_nat (length es) < lsize →
  ca_held a = ∅ → (size ({[e_block e]} ∪ ca_dirty a) < NBUF)%nat → img_ok (ca_view a) →
  ∃ s', install_one (Z.of_nat i) pid s = Ret tt s' ∧ lcfg s' = lcfg s ∧
    crep pid (l_bio s') (ca_writes (install_op start i e (ca_view a)) a) ∧ crc_wf (l_crc s') ∧
    l_lh s' = l_lh s ∧
    jstats s' = js_install (crc_ok e (ca_view a (start + Z.of_nat i + 1))) (jstats s).
Proof.
  intros Hg Hc Hw Hr Hi (Hb & Hla & He) Hsz Hh Hroom Hok.
  pose proof (lookup_lt_Some _ _ _ Hi) as Hlt. set (n := start + Z.of_nat i + 1).
  destruct (geom_block s start lsize i Hg) as [Eu Hn]; [lia|]. fold n in Eu, Hn.
  assert (n ≠ e_block e) as Hne by (intros E; apply Hla; rewrite <- E; unfold log_area; lia).
  destruct (bread2_spec pid (l_bio s) a n (e_block e)) as (i1 & b1 & i2 & b2 & E1 & E2 & Hc2); try done.
  set (a2 := ca_set_held _ a) in Hc2.
  assert (ca_held a2 !! n = Some i1) as Hh1 by (simpl; by rewrite lookup_insert_ne, lookup_singleton_eq).
  assert (ca_held a2 !! e_block e = Some i2) as Hh2 by (simpl; by rewrite lookup_insert_eq).
  pose proof (bdata_spec _ _ _ _ _ Hc2 Hh1) as D1. pose proof (bdata_spec _ _ _ _ _ Hc2 Hh2) as D2.
  assert (∀ m, ca_sync a2 m) as Hsync by (intros m; apply (crep_sync pid _ a m Hc); by rewrite Hh).
  destruct (lr_ents _ _ Hr i e Hi) as (L1 & L2 & L3 & L4).
  destruct (log_crc32_spec pid (l_set_bio b2 (l_set_bio b1 s)) (eslice e (ca_view a n))) as (c & Ec & Hwc);
    [done|apply bytes_eslice, Hok|].
  unfold install_op, crc_ok. fold n. set (nd := esplice e (ca_view a n) (ca_view a (e_block e))).
  destruct (crc_ref (eslice e (ca_view a n)) =? e_cksum e) eqn:Ek.
  - destruct (put_block_spec pid b2 a2 (e_block e) i2 nd Hc2 Hh2) as (b3 & b4 & E3 & E4 & Hc4 & _).
    destruct (brelse2_spec pid b4 _ n (e_block e) i1 i2 Hc4) as [(b5 & b6 & E5 & E6 & Hc6 & _) _];
      try done; [apply ca_sync_write; by auto..|].
    eexists. split.
    { unfold install_one. mstep. rewrite (ge_dev _ _ _ Hg), Eu. mstep. mstep.
      rewrite (u32_small (e_block e)) by (unfold FSSIZE in Hb; lia). do 5 mstep.
      rewrite (mslice_ent e) by done. cbn [orundef]. do 2 mstep. rewrite Ek. cbn [negb]. mstep.
      rewrite (mmove_ent e) by done. cbn [orundef]. unfold js_upd. do 6 mstep. }
    simpl. rewrite <- Hh in Hc6. done.
  - destruct (brelse2_spec pid b2 a2 n (e_block e) i1 i2) as [(b5 & b6 & E5 & E6 & Hc6 & _) _]; try done.
    eexists. split.
    { unfold install_one. mstep. rewrite (ge_dev _ _ _ Hg), Eu. mstep. mstep.
      rewrite (u32_small (e_block e)) by (unfold FSSIZE in Hb; lia). do 5 mstep.
      rewrite (mslice_ent e) by done. cbn [orundef]. do 2 mstep. rewrite Ek. cbn [negb].
      unfold js_upd. do 3 mstep. }
    simpl. rewrite ca_writes_nil. rewrite <- Hh in Hc6. split; [done|]. split; [|done].
    by destruct a.
Qed.

Fixpoint install_js (start : Z) (i : nat) (es : list lent) (img : Z → block)
    (js : journal_stats) : journal_stats :=
  match es with
  | [] => js
  | e :: es' =>
      install_js start (S i) es' (img_run img (install_op start i e img))
        (js_install (crc_ok e (img (start + Z.of_nat i + 1))) js)
  end.

Lemma install_js_snoc start i es e img js :
  install_js start i (es ++ [e]) img js =
    js_install (crc_ok e (img_run img (install_ops start i es img) (start + Z.of_nat (i + length es) + 1)))
      (install_js start i es img js).
Proof.
  revert i img js. induction es as [|e' es IH]; intros i img js; cbn [install_js install_ops app length].
  - by rewrite Nat.add_0_r.
  - by rewrite IH, img_run_app, Nat.add_succ_r.
Qed.

Section install_loop.
Context (pid start lsize : Z) (s0 : lstate D) (a : cabs) (es : list lent).
Context (Hg : geom s0 start lsize) (Hok : img_ok (ca_view a)) (Hh : ca_held a = ∅).
Context (Hes : Forall (ent_ok start lsize) es) (Hsz : Z.of_nat (length es) < lsize).
Context (Hfit : fits es a) (Hr : lh_rep (l_lh s0) es).

Definition inst_inv (i : nat) s : Prop :=
  lcfg s = lcfg s0 ∧ crep pid (l_bio s) (ca_writes (install_ops start 0 (take i es) (ca_view a)) a) ∧
  crc_wf (l_crc s) ∧ l_lh s = l_lh s0 ∧
  jstats s = install_js start 0 (take i es) (ca_view a) (jstats s0).

Lemma inst_step i : (i < length es)%nat → triple pid (inst_inv i) (install_one (Z.of_nat i)) (λ _, inst_inv (S i)).
Proof.
  intros Hi s (Hcf & Hc & Hw & Hl & Hj).
  destruct (lookup_lt_is_Some_2 es i Hi) as [e He].
  assert (ent_ok start lsize e) as Heo by (by eapply Forall_lookup_1 in Hes).
  set (ai := ca_writes _ a) in Hc. rewrite <- Hl in Hr.
  destruct (install_one_spec pid s ai start lsize es i e (geom_cfg _ _ _ _ Hcf Hg) Hc Hw Hr)
    as (s' & E & Hcf' & Hc' & Hw' & Hl' & Hj'); try done.
  { apply (fits_one es); [done|]. by eapply list_elem_of_lookup_2. }
  { apply (img_ok_install start lsize); [done|]. by apply Forall_take. }
  exists tt, s'. split; [done|]. unfold inst_inv. rewrite Hcf', Hl'. split; [done|].
  rewrite (take_S_r _ _ _ He), install_ops_snoc, install_js_snoc, ca_writes_app.
  rewrite length_take, Nat.min_l by lia. rewrite <- Hj. done.
Qed.

Lemma install_trans_spec :
  crep pid (l_bio s0) a → crc_wf (l_crc s0) →
  ∃ s', install_trans pid s0 = Ret tt s' ∧ lcfg s' = lcfg s0 ∧
    crep pid (l_bio s') (ca_writes (install_ops start 0 es (ca_view a)) a) ∧ crc_wf (l_crc s') ∧
    l_lh s' = l_lh s0 ∧ jstats s' = install_js start 0 es (ca_view a) (jstats s0).
Proof.
  intros Hc Hw.
  destruct (triple_forZ pid inst_inv install_one (lh_n (l_lh s0))) with (s := s0) as ([] & s' & E & Hinv).
  { intros i Hi. apply inst_step. rewrite (lr_n _ _ Hr) in Hi. lia. }
  { unfold inst_inv. rewrite take_0. simpl. rewrite ca_writes_nil. auto 10. }
  exists s'. split; [unfold install_trans; mstep; exact E|].
  rewrite (lr_n _ _ Hr), Nat2Z.id in Hinv. unfold inst_inv in Hinv.
  by rewrite firstn_all in Hinv.
Qed.

End install_loop.

(** ** write_head, read_head *)

Lemma lh_rep_arr lh es i : lh_rep lh es → (i < length es)%nat →
  ∃ e, es !! i = Some e ∧ lh_block lh !! i = Some (e_block e) ∧ lh_offset lh !! i = Some (e_off e) ∧
    lh_len lh !! i = Some (e_len e) ∧ lh_cksum lh !! i = Some (e_cksum e).
Proof.
  intros Hr Hi. destruct (lookup_lt_is_Some_2 es i Hi) as [e He]. exists e. split; [done|].
  by apply Hr.
Qed.

(** One entry stored in the held header block. *)
Lemma write_head_one_spec pid s a es n i k e :
  lh_rep (l_lh s) es → es !! k = Some e → crep pid (l_bio s) a → ca_held a !! n = Some i →
  ∃ b', write_head_one i (Z.of_nat k) pid s = Ret tt (l_set_bio b' s) ∧
    crep pid b' (ca_set_view n (put_ent k e (ca_view a n)) a).
Proof.
  intros Hr He Hc Hh. destruct (lr_ents _ _ Hr k e He) as (L1 & L2 & L3 & L4).
  pose proof (bdata_spec _ _ _ _ _ Hc Hh) as Dn.
  destruct (bset_data_spec pid (l_bio s) a n i (put_ent k e (ca_view a n)) Hc Hh) as (b' & Eb & Hb & _).
  exists b'. split; [|done].
  unfold write_head_one. do 6 mstep. rewrite Nat2Z.id. etransitivity; [apply lift_Ret, Eb|done].
Qed.

Lemma write_head_spec pid s a start lsize es :
  geom s start lsize → 0 < lsize → crep pid (l_bio s) a → lh_rep (l_lh s) es →
  ca_held a = ∅ → (size (ca_dirty a) < NBUF)%nat →
  ∃ b', write_head pid s = Ret tt (l_set_bio b' s) ∧
    crep pid b' (ca_writes [DWrite start (hdr_encode es (ca_view a start))] a) ∧
    drv_selected (bs_drv b').
Proof.
  intros Hg Hls Hc Hr Hh Hsz.
  assert (0 ≤ start < FSSIZE) as Hst by (destruct Hg; lia).
  assert (u32 (l_start s) = start) as Eu.
  { rewrite (ge_start _ _ _ Hg). apply u32_small. unfold FSSIZE in Hst. lia. }
  destruct (bread_spec pid (l_bio s) a start) as (i & b1 & E1 & Hc1 & _); try done.
  { by rewrite Hh. }
  { right. unfold room. rewrite Hh, dom_empty_L, union_empty_r_L. done. }
  set (a1 := ca_set_held _ a) in Hc1.
  assert (ca_held a1 !! start = Some i) as Hh1 by (simpl; by rewrite lookup_insert_eq).
  pose proof (bdata_spec _ _ _ _ _ Hc1 Hh1) as D1.
  set (d0 := wr32 0 (lh_n (l_lh s)) (ca_view a start)).
  destruct (bset_data_spec pid b1 a1 start i d0 Hc1 Hh1) as (b2 & E2 & Hc2 & _).
  set (inv k (s' : lstate D) := ∃ b, s' = l_set_bio b s ∧
    crep pid b (ca_set_view start (put_ents 0 (take k es) d0) a1)).
  destruct (triple_forZ pid inv (write_head_one i) (lh_n (l_lh s))) with (s := l_set_bio b2 s)
    as ([] & s3 & E3 & b3 & -> & Hc3).
  { intros k Hk s' (b & -> & Hb). rewrite (lr_n _ _ Hr), Nat2Z.id in Hk.
    destruct (lookup_lt_is_Some_2 es k Hk) as [e He].
    destruct (write_head_one_spec pid (l_set_bio b s) _ es start i k e Hr He Hb Hh1) as (b' & Eb' & Hb').
    exists tt, (l_set_bio b' s). split; [exact Eb'|]. exists b'. split; [done|].
    rewrite (take_S_r _ _ _ He), put_ents_snoc, length_take, Nat.min_l by lia.
    simpl in Hb' |- *. rewrite fn_lookup_insert in Hb'. revert Hb'.
    apply crep_proper, ca_set_view_twice. }
  { exists b2. split; [done|]. exact Hc2. }
  rewrite (lr_n _ _ Hr), Nat2Z.id, firstn_all in Hc3.
  destruct (bwrite_spec pid b3 _ start i Hc3 Hh1) as (b4 & E4 & Hc4 & Hsel).
  simpl in Hc4. rewrite fn_lookup_insert in Hc4.
  set (a4 := ca_set_dirty _ _) in Hc4.
  destruct (brelse_spec pid b4 a4 start i Hc4) as (b5 & E5 & Hc5 & Hd5); [done|..].
  { right. simpl. rewrite disk_img_do, img_apply_eq. apply fn_lookup_insert. }
  exists b5. split.
  { unfold write_head. mstep. rewrite (ge_dev _ _ _ Hg), Eu. do 3 mstep. do 2 mstep. mstep. }
  rewrite Hd5. split; [|done]. revert Hc5. apply crep_proper. unfold a4, a1. simpl.
  rewrite Hh, insert_empty, delete_singleton_eq. unfold hdr_encode. rewrite <- (lr_n _ _ Hr).
  split_and!; try done.
  unfold op_blocks. simpl. set_solver.
Qed.

(** The header in memory after [k] entries have been read. *)
Definition lh_upto (h : block) (k : nat) (lh : logheader) : Prop :=
  lh_n lh = hd_n h ∧
  (length (lh_block lh) = 30%nat ∧ length (lh_cksum lh) = 30%nat ∧
   length (lh_offset lh) = 30%nat ∧ length (lh_len lh) = 30%nat) ∧
  ∀ j, (j < k)%nat →
    lh_block lh !! j = Some (hd_block h (Z.of_nat j)) ∧ lh_offset lh !! j = Some (hd_offset h (Z.of_nat j)) ∧
    lh_len lh !! j = Some (hd_len h (Z.of_nat j)) ∧ lh_cksum lh !! j = Some (hd_cksum h (Z.of_nat j)).

Lemma lh_upto_rep h lh : 0 ≤ hd_n h ≤ 30 → lh_upto h (Z.to_nat (hd_n h)) lh → lh_rep lh (hdr_entries h).
Proof.
  intros Hn (En & Hl & He). split; rewrite ?length_hdr_entries; try done; try lia.
  intros i e Hi. unfold hdr_entries in Hi. rewrite list_lookup_fmap in Hi.
  destruct (seq 0 (Z.to_nat (hd_n h)) !! i) as [j|] eqn:Ej; [|done]. simpl in Hi.
  apply lookup_seq in Ej as [-> ?]. injection Hi as <-. apply He. lia.
Qed.

Lemma read_head_one_spec pid s h k :
  (k < 30)%nat → lh_upto h k (l_lh s) →
  ∃ lh', read_head_one h (Z.of_nat k) pid s = Ret tt (l_set_lh lh' s) ∧ lh_upto h (S k) lh'.
Proof.
  intros Hk (En & (L1 & L2 & L3 & L4) & He). eexists. split.
  { unfold read_head_one. mstep.
    mrun (aset_Ret (lh_block (l_lh s)) k (hd_block h (Z.of_nat k)) pid s ltac:(lia)).
    mrun (aset_Ret (lh_cksum (l_lh s)) k (hd_cksum h (Z.of_nat k)) pid s ltac:(lia)).
    mrun (aset_Ret (lh_offset (l_lh s)) k (hd_offset h (Z.of_nat k)) pid s ltac:(lia)).
    mrun (aset_Ret (lh_len (l_lh s)) k (hd_len h (Z.of_nat k)) pid s ltac:(lia)).
    reflexivity. }
  split; [done|]. simpl. rewrite !length_insert. split; [done|]. intros j Hj.
  destruct (decide (k = j)) as [<-|].
  - rewrite !list_lookup_insert_eq by lia. done.
  - rewrite !list_lookup_insert_ne by done. apply He. lia.
Qed.

Definition lh_arrays (lh : logheader) : Prop :=
  length (lh_block lh) = 30%nat ∧ length (lh_cksum lh) = 30%nat ∧
  length (lh_offset lh) = 30%nat ∧ length (lh_len lh) = 30%nat.

Lemma read_head_spec pid s a start lsize :
  geom s start lsize → 0 < lsize → crep pid (l_bio s) a → lh_arrays (l_lh s) →
  ca_held a = ∅ → (size (ca_dirty a) < NBUF)%nat → 0 ≤ hd_n (ca_view a start) ≤ 30 →
  ∃ b' lh', read_head pid s = Ret tt (l_set_bio b' (l_set_lh lh' s)) ∧ crep pid b' a ∧
    lh_rep lh' (hdr_entries (ca_view a start)).
Proof.
  intros Hg Hls Hc Hl Hh Hsz Hn.
  assert (0 ≤ start < FSSIZE) as Hst by (destruct Hg; lia).
  assert (u32 (l_start s) = start) as Eu.
  { rewrite (ge_start _ _ _ Hg). apply u32_small. unfold FSSIZE in Hst. lia. }
  destruct (bread_spec pid (l_bio s) a start) as (i & b1 & E1 & Hc1 & _); try done.
  { by rewrite Hh. }
  { right. unfold room. rewrite Hh, dom_empty_L, union_empty_r_L. done. }
  set (a1 := ca_set_held _ a) in Hc1. set (h := ca_view a start) in *.
  assert (ca_held a1 !! start = Some i) as Hh1 by (simpl; by rewrite lookup_insert_eq).
  pose proof (bdata_spec _ _ _ _ _ Hc1 Hh1 : bdata i pid b1 = Ret h b1) as D1.
  destruct (brelse_spec pid b1 a1 start i Hc1 Hh1) as (b2 & E2 & Hc2 & _).
  { apply (crep_sync pid (l_bio s) a start Hc). by rewrite Hh. }
  set (s1 := l_set_lh (lh_set_n (hd_n h) (l_lh s)) (l_set_bio b1 s)).
  set (inv k (s' : lstate D) := ∃ lh', s' = l_set_lh lh' (l_set_bio b1 s) ∧ lh_upto h k lh').
  destruct (triple_forZ pid inv (read_head_one h) (hd_n h)) with (s := s1)
    as ([] & s3 & E3 & lh' & -> & Hu).
  { intros k Hk s' (lh' & -> & Hu).
    destruct (read_head_one_spec pid (l_set_lh lh' (l_set_bio b1 s)) h k) as (lh2 & E & Hu'); [lia|done|].
    exists tt. eexists. split; [exact E|]. by exists lh2. }
  { exists (lh_set_n (hd_n h) (l_lh s)). split; [done|]. split; [done|]. split; [exact Hl|]. lia. }
  exists b2, lh'. split.
  { unfold read_head, lh_upd. mstep. rewrite (ge_dev _ _ _ Hg), Eu. do 5 mstep. }
  split; [|by apply lh_upto_rep]. simpl in Hc2.
  rewrite Hh, insert_empty, delete_singleton_eq, <- Hh in Hc2. by destruct a.
Qed.

(** ** Recovery *)

Definition js_recover (h : block) (js : journal_stats) : journal_stats :=
  if 0 <? hd_n h then js_recovery js else js.

Lemma recover_spec pid s a start lsize :
  geom s start lsize → crep pid (l_bio s) a → crc_wf (l_crc s) → lh_arrays (l_lh s) →
  ca_held a = ∅ → ca_dirty a = ∅ → img_ok (ca_view a) → hdr_ok start lsize (ca_view a start) →
  ∃ s', recover_from_log pid s = Ret tt s' ∧ lcfg s' = lcfg s ∧
    crep pid (l_bio s') (ca_writes (recover_ops start (ca_view a)) a) ∧ crc_wf (l_crc s') ∧
    lh_rep (l_lh s') [] ∧
    jstats s' = install_js start 0 (hdr_entries (ca_view a start)) (ca_view a)
                  (js_recover (ca_view a start) (jstats s)).
Proof.
  intros Hg Hc Hw Hl Hh Hd Hok Ho. set (h := ca_view a start) in *.
  pose proof (ho_n _ _ _ Ho) as Hn. pose proof (ho_fits _ _ _ Ho) as Hf.
  assert (∀ ops, size (ca_dirty (ca_writes ops a)) < NBUF)%nat as Hsz.
  { intros ops. simpl. rewrite Hd. replace (∅ ∖ _) with (∅ : gset Z) by set_solver.
    rewrite size_empty. unfold NBUF. lia. }
  destruct (read_head_spec pid s a start lsize) as (b1 & lh1 & E1 & Hc1 & Hr1); try done; try lia.
  { rewrite <- (ca_writes_nil a). apply Hsz. }
  fold h in Hr1. set (s1 := l_set_jstats (js_recover h (jstats s)) (l_set_bio b1 (l_set_lh lh1 s))).
  destruct (install_trans_spec pid start lsize s1 a (hdr_entries h)) as (s2 & E2 & Hcf & Hc2 & Hw2 & Hl2 & Hj2);
    try done; [by apply (geom_cfg s)|apply Ho|rewrite length_hdr_entries; lia|..].
  { intros e _. rewrite Hd, union_empty_r_L, size_singleton. unfold NBUF. lia. }
  set (s3 := l_set_lh (lh_set_n 0 (l_lh s2)) s2).
  destruct (write_head_spec pid s3 _ start lsize [] (geom_cfg s s3 _ _ Hcf Hg) ltac:(lia) Hc2)
    as (b4 & E4 & Hc4 & _); try done.
  { eapply lh_rep_clear. by rewrite Hl2. }
  exists (l_set_bio b4 s3). split.
  { unfold recover_from_log. do 2 mstep.
    assert (when (0 <? lh_n lh1) (js_upd js_recovery) pid (l_set_bio b1 (l_set_lh lh1 s)) = Ret tt s1) as Ew.
    { rewrite (lr_n _ _ Hr1), length_hdr_entries, Z2Nat.id by lia. unfold s1, js_recover, when.
      destruct (0 <? hd_n h); [done|]. by destruct s. }
    mrun Ew. unfold lh_upd. do 2 mstep. exact E4. }
  split; [done|]. split.
  { unfold recover_ops, clear_head. fold h. rewrite ca_writes_app. simpl in Hc4 |- *.
    rewrite install_other in Hc4; [exact Hc4|].
    apply (hdr_not_ent start lsize); [done|]. unfold log_area. lia. }
  split; [done|]. split; [|exact Hj2]. eapply lh_rep_clear. by rewrite Hl2.
Qed.

(** ** commit *)

(** The barrier. *)
Lemma flush_spec pid b a :
  crep pid b a → drv_selected (bs_drv b) →
  ∃ b', lift drv_ideflush pid b = Ret tt b' ∧ crep pid b' (ca_writes [DFlush] a).
Proof.
  intros Hc Hs.
  destruct (drv_flush pid (bs_drv b) (cr_ready _ _ _ Hc) Hs) as (d' & E & Hrd & _ & Hdk).
  exists (lput d' b). split; [by apply lift_Ret|].
  assert (ca_dirty a ∖ op_blocks [DFlush] = ca_dirty a) as Hdd by set_solver.
  destruct Hc as [Hl Hr Hrd0 Hdk0 Hb Hu Hp Hvw].
  split; simpl; rewrite ?Hdd; try done.
  - by rewrite Hdk, Hdk0.
  - intros i bf Hi Hbf. destruct (Hb i bf Hi Hbf) as [|Hf]; [by left|right].
    unfold buf_full in *. simpl. rewrite Hdd. done.
  - intros n Hn Hn'. change (img_apply (ca_view a) DFlush n) with (ca_view a n).
    rewrite (Hvw n Hn Hn'). unfold disk_img. simpl. by rewrite img_run_app.
Qed.

(** The journal between two operations of a transaction. *)
Record lrep (pid : Z) s a (start lsize : Z) (es : list lent) : Prop := mk_lrep {
  lp_geom : geom s start lsize;
  lp_crep : crep pid (l_bio s) a;
  lp_crc : crc_wf (l_crc s);
  lp_lh : lh_rep (l_lh s) es;
  lp_txn : txn_ok start lsize (ca_view a) (disk_img (ca_disk a)) es;
  lp_held : ca_held a = ∅;
  lp_dirty : ca_dirty a ⊆ list_to_set (e_block <$> es);
  lp_room : (length es < NBUF)%nat;
}.

Lemma lrep_fits pid s a start lsize es : lrep pid s a start lsize es → fits es a.
Proof.
  intros Hl e He. eapply Nat.le_lt_trans; [|apply (lp_room _ _ _ _ _ _ Hl)].
  rewrite <- (length_fmap e_block), <- (size_list_to_set (C := gset Z)).
  - apply subseteq_size. pose proof (lp_dirty _ _ _ _ _ _ Hl).
    assert (e_block e ∈ e_block <$> es) by (by apply list_elem_of_fmap_2). set_solver.
  - apply (tx_nodup _ _ _ _ _ (lp_txn _ _ _ _ _ _ Hl)).
Qed.

Lemma lrep_dirty_size pid s a start lsize es ops :
  lrep pid s a start lsize es → (size (ca_dirty (ca_writes ops a)) < NBUF)%nat.
Proof.
  intros Hl. eapply Nat.le_lt_trans; [|apply (lp_room _ _ _ _ _ _ Hl)].
  rewrite <- (length_fmap e_block), <- (size_list_to_set (C := gset Z)).
  - apply subseteq_size. pose proof (lp_dirty _ _ _ _ _ _ Hl). simpl. set_solver.
  - apply (tx_nodup _ _ _ _ _ (lp_txn _ _ _ _ _ _ Hl)).
Qed.

Section commit.
Context (pid : Z) (s : lstate D) (a : cabs) (start lsize : Z) (es : list lent).
Context (Hl : lrep pid s a start lsize es) (Hne : es ≠ []).

Let wl := wl_ops start (ca_view a) 0 es.
Let hd := hdr_encode (seal (ca_view a) <$> es) (ca_view a start).

(** The first two phases. *)
Lemma commit_front :
  ∃ s1 b2 b3,
    let s2 := l_set_jstats (js_flush (jstats s1)) (l_set_bio b2 s1) in
    write_log pid s = Ret tt s1 ∧ lift drv_ideflush pid (l_bio s1) = Ret tt b2 ∧
    write_head pid s2 = Ret tt (l_set_bio b3 s2) ∧
    lcfg s1 = lcfg s ∧ crc_wf (l_crc s1) ∧ lh_rep (l_lh s1) (seal (ca_view a) <$> es) ∧
    jstats s1 = js_log es (jstats s) ∧
    crep pid b2 (ca_writes (wl ++ [DFlush]) a) ∧
    crep pid b3 (ca_writes ((wl ++ [DFlush]) ++ [DWrite start hd]) a).
Proof.
  pose proof (lp_txn _ _ _ _ _ _ Hl) as Htx. pose proof (lp_geom _ _ _ _ _ _ Hl) as Hg.
  destruct (write_log_spec pid start lsize s a es) as (s1 & E1 & Hcf & Hc1 & Hw1 & Hr1 & Hj1 & Hsel);
    try apply Hl; try apply Htx; [by eapply lrep_fits|].
  destruct Hsel as [|Hsel]; [done|].
  destruct (flush_spec pid _ _ Hc1 Hsel) as (b2 & E2 & Hc2). rewrite <- ca_writes_app in Hc2.
  set (s2 := l_set_jstats (js_flush (jstats s1)) (l_set_bio b2 s1)).
  destruct (write_head_spec pid s2 _ start lsize (seal (ca_view a) <$> es) (geom_cfg _ s2 _ _ Hcf Hg)
    ltac:(pose proof (tx_fits _ _ _ _ _ Htx); lia) Hc2 Hr1 (lp_held _ _ _ _ _ _ Hl)
    (lrep_dirty_size _ _ _ _ _ _ _ Hl)) as (b3 & E3 & Hc3 & _).
  exists s1, b2, b3. split_and!; try done.
  rewrite ca_writes_app. simpl in Hc3. rewrite img_run_app in Hc3. simpl in Hc3.
  unfold img_apply in Hc3 at 1. rewrite wl_other in Hc3 by lia. exact Hc3.
Qed.

Lemma commit_home :
  install_ops start 0 (seal (ca_view a) <$> es)
    (img_run (ca_view a) ((wl ++ [DFlush]) ++ [DWrite start hd])) = home_ops (ca_view a) es.
Proof.
  pose proof (lp_txn _ _ _ _ _ _ Hl) as Htx. pose proof (tx_fits _ _ _ _ _ Htx).
  apply (install_home start lsize _ (disk_img (ca_disk a)) es Htx); [apply Htx|..|done].
  - intros j e Hj. rewrite <- app_assoc, img_run_app. simpl. rewrite img_apply_ne by lia.
    by apply (wl_entry start (ca_view a) 0).
  - intros b Hb. rewrite <- app_assoc, img_run_app. simpl.
    rewrite img_apply_ne by (intros <-; apply Hb; unfold log_area; lia).
    apply (wl_other start (ca_view a) 0). intros j Hj ->. apply Hb. unfold log_area. lia.
Qed.

Lemma img_ok_front : img_ok (img_run (ca_view a) ((wl ++ [DFlush]) ++ [DWrite start hd])).
Proof.
  pose proof (lp_txn _ _ _ _ _ _ Hl) as Htx. rewrite <- app_assoc, img_run_app.
  apply img_ok_write.
  - apply (img_ok_wl start lsize); apply Htx.
  - apply hdr_encode_ok; [rewrite length_fmap; apply Htx|apply Htx].
Qed.

(** A commit that is not interrupted. *)
Lemma commit_spec :
  crash_at_phase s ∉ [1; 2; 3] →
  ∃ s', commit pid s = Ret tt s' ∧
    lcfg s' = lcfg (l_set_batch_size 0 s) ∧
    crep pid (l_bio s') (ca_writes (commit_ops start (ca_view a) es) a) ∧ crc_wf (l_crc s') ∧
    lh_rep (l_lh s') [] ∧
    jstats s' = js_commit (l_batch_size s)
      (install_js start 0 (seal (ca_view a) <$> es)
        (img_run (ca_view a) ((wl ++ [DFlush]) ++ [DWrite start hd]))
        (js_flush (js_log es (jstats s)))).
Proof.
  intros Hph. pose proof (lp_txn _ _ _ _ _ _ Hl) as Htx. pose proof (lp_geom _ _ _ _ _ _ Hl) as Hg.
  pose proof (tx_fits _ _ _ _ _ Htx) as Hf.
  destruct commit_front as (s1 & b2 & b3 & E1 & E2 & E3 & Hcf & Hw1 & Hr1 & Hj1 & _ & Hc3).
  set (s2 := l_set_jstats (js_flush (jstats s1)) (l_set_bio b2 s1)) in *.
  set (front := (wl ++ [DFlush]) ++ [DWrite start hd]) in *.
  destruct (install_trans_spec pid start lsize (l_set_bio b3 s2) (ca_writes front a) (seal (ca_view a) <$> es)
    (geom_cfg _ (l_set_bio b3 s2) _ _ Hcf Hg)) as (s4 & E4 & Hcf4 & Hc4 & Hw4 & Hl4 & Hj4); try done.
  { apply img_ok_front. }
  { apply Hl. }
  { eapply ent_ok_seal, Htx. }
  { by rewrite length_fmap. }
  { intros e (e0 & -> & He0)%list_elem_of_fmap. apply (fits_one es a _ e0); [by eapply lrep_fits|done]. }
  simpl in Hc4, Hj4. unfold front in Hc4 at 1. rewrite commit_home, <- ca_writes_app in Hc4.
  set (s5 := l_set_lh (lh_set_n 0 (l_lh s4)) s4).
  destruct (write_head_spec pid s5 _ start lsize []
    (geom_cfg _ s5 _ _ (eq_trans Hcf4 Hcf) Hg) ltac:(lia) Hc4) as (b6 & E6 & Hc6 & _).
  { eapply lh_rep_clear. rewrite Hl4. exact Hr1. }
  { apply Hl. }
  { by eapply lrep_dirty_size. }
  eexists. split.
  { unfold commit, js_upd, lh_upd. mstep. rewrite (proj2 (Z.ltb_lt _ _)) by (rewrite (lr_n _ _ (lp_lh _ _ _ _ _ _ Hl)); destruct es; simpl; [done|lia]).
    mstep. erewrite (bind_Ret (lift _)); [|apply lift_Ret, E2]. mstep.
    rewrite (proj2 (Z.eqb_neq _ 1)), (proj2 (Z.eqb_neq _ 2)), (proj2 (Z.eqb_neq _ 3)) by set_solver.
    mstep. fold s2. do 5 mstep. do 3 mstep. reflexivity. }
  simpl. split; [|split; [|split; [done|split]]].
  - unfold lcfg in *. simpl in *. congruence.
  - unfold commit_ops. fold wl hd. replace (wl ++ [DFlush; DWrite start hd] ++ _) with
      ((front ++ home_ops (ca_view a) es) ++ [DWrite start (wr32 0 0 hd)])
      by (unfold front; by rewrite <- !app_assoc).
    rewrite ca_writes_app. simpl in Hc6. rewrite img_run_app in Hc6.
    rewrite home_lookup, decide_False in Hc6 by (apply (not_ent start lsize _ _ _ Htx), start_in_log with (1 := Htx)).
    unfold front in Hc6 at 1. rewrite img_run_app in Hc6. simpl in Hc6. rewrite img_apply_eq in Hc6. exact Hc6.
  - eapply lh_rep_clear. rewrite Hl4. exact Hr1.
  - rewrite Hj4, Hj1. unfold lcfg in Hcf, Hcf4. simpl in Hcf4. by replace (l_batch_size s4) with (l_batch_size s) by congruence.
Qed.

End commit.

End logspec.
