(* ===== verification/LogTxn.v ===== *)
(** * Transactions

    [log_write] inside a transaction, [begin_op] and [end_op].  [lop] is the
    journal in the middle of an operation: [O] is the set of blocks changed in
    the cache and not yet handed to [log_write]; for every other block the
    cached content differs from the home copy only where the log says so. *)

From S2P Require Import Prelude Layout Sleeplock Disk Bio BioSpec Crc32 Log LogImg LogSpec.

#[local] Arguments img_apply : simpl never.

(** The cached content [v] of block [b] differs from its home copy [d] only in
    the bytes the entries record. *)
Definition covers (es : list lent) (b : Z) (v d : block) : Prop :=
  (∀ e, e ∈ es → e_block e = b → agree e v d) ∧ (b ∉ e_block <$> es → v = d).

(** ** The entries after a [log_write] *)

(** The bounding range of an entry and a further write. *)
Definition e_merge (e : lent) (offset len : Z) : lent :=
  let lo := Z.min (e_off e) offset in
  mk_lent (e_block e) lo (Z.max (e_off e + e_len e) (offset + len) - lo) (e_cksum e).

Definition log_add (es : list lent) (b offset len c : Z) : list lent :=
  match list_find (λ e, e_block e = b) es with
  | Some (i, e) => <[i := e_merge e offset len]> es
  | None => es ++ [mk_lent b offset len c]
  end.

Definition range_ok (offset len : Z) : Prop := 0 ≤ offset ∧ 0 ≤ len ∧ offset + len ≤ BSIZE.

Lemma e_merge_range e offset len : ent_range e → range_ok offset len → ent_range (e_merge e offset len).
Proof. unfold ent_range, range_ok, e_merge. simpl. lia. Qed.

Lemma find_entry_list_find (l : list Z) es b i :
  (∀ j e, es !! j = Some e → l !! j = Some (e_block e)) →
  Forall (λ e, 0 ≤ e_block e < 2 ^ 32) es →
  find_entry l (length es) b i =
    (λ p, (i + p.1)%nat) <$> list_find (λ e, e_block e = b) es.
Proof.
  revert l i. induction es as [|e es IH]; intros l i Hl Hw; [by destruct l|].
  inversion Hw; subst. pose proof (Hl 0%nat e eq_refl) as H0. destruct l as [|x l]; [done|].
  injection H0 as ->. cbn [find_entry length list_find]. rewrite u32_small by done.
  destruct (decide (e_block e = b)) as [->|Hne].
  - rewrite Z.eqb_refl. simpl. by rewrite Nat.add_0_r.
  - rewrite (proj2 (Z.eqb_neq _ _)) by done. rewrite (IH l (S i)).
    + destruct (list_find _ es) as [[j e']|]; simpl; [|done]. f_equal. lia.
    + intros j e' Hj. by apply (Hl (S j)).
    + done.
Qed.

(** Every block keeps its cover; the block written is covered again. *)
Lemma covers_add_other es b offset len c b' v d :
  b ≠ b' → covers es b' v d → covers (log_add es b offset len c) b' v d.
Proof.
  intros Hne [Ha Hs]. unfold log_add. destruct (list_find _ es) as [[i e]|] eqn:Ef.
  - apply list_find_Some in Ef as (Hi & He & _). split.
    + intros e' Hin Hb'. apply list_elem_of_lookup_1 in Hin as [j Hj].
      destruct (decide (i = j)) as [<-|Hij].
      * rewrite list_lookup_insert_eq in Hj by (by eapply lookup_lt_Some).
        injection Hj as <-. simpl in Hb'. congruence.
      * rewrite list_lookup_insert_ne in Hj by done. apply Ha; [|done]. by eapply list_elem_of_lookup_2.
    + intros Hb'. apply Hs. intros Hin. apply Hb'. rewrite list_fmap_insert. simpl.
      rewrite list_insert_id; [done|]. by rewrite list_lookup_fmap, Hi.
  - split.
    + intros e' [Hin|Hin]%elem_of_app Hb'; [by apply Ha|].
      apply list_elem_of_singleton in Hin as ->. simpl in Hb'. congruence.
    + intros Hb'. apply Hs. intros Hin. apply Hb'. rewrite fmap_app. set_solver.
Qed.

Lemma covers_add_here es b offset len c v0 v d :
  NoDup (e_block <$> es) → 0 ≤ len → (∀ e, e ∈ es → 0 ≤ e_len e) →
  covers es b v0 d → (∀ i : nat, ¬ (offset ≤ Z.of_nat i < offset + len) → v !! i = v0 !! i) →
  covers (log_add es b offset len c) b v d.
Proof.
  intros Hnd Hlen Hlens [Ha Hs] Hv. unfold log_add. destruct (list_find _ es) as [[i e]|] eqn:Ef.
  - apply list_find_Some in Ef as (Hi & He & _).
    assert (e ∈ es) as Hes by by eapply list_elem_of_lookup_2. split.
    + intros e' Hin Hb'. apply list_elem_of_lookup_1 in Hin as [j Hj].
      destruct (decide (i = j)) as [<-|Hij].
      * rewrite list_lookup_insert_eq in Hj by (by eapply lookup_lt_Some).
        injection Hj as <-. intros k Hk. unfold e_merge in Hk. simpl in Hk.
        pose proof (Hlens e Hes). rewrite Hv by lia. apply (Ha e); [done|done|lia].
      * rewrite list_lookup_insert_ne in Hj by done. destruct Hij.
        eapply NoDup_lookup; [exact Hnd|by rewrite list_lookup_fmap, Hi|].
        rewrite list_lookup_fmap, Hj. simpl. congruence.
    + intros []. rewrite list_fmap_insert. simpl. rewrite list_insert_id.
      * apply list_elem_of_fmap. by exists e.
      * by rewrite list_lookup_fmap, Hi.
  - apply list_find_None in Ef. split.
    + intros e' [Hin|Hin]%elem_of_app Hb'.
      { by eapply Forall_forall in Ef. }
      apply list_elem_of_singleton in Hin as ->. intros k Hk. simpl in Hk. rewrite Hv by done.
      f_equal. apply Hs. intros (e' & -> & Hin)%list_elem_of_fmap. by eapply Forall_forall in Ef.
    + intros []. rewrite fmap_app. simpl. set_solver.
Qed.

Lemma log_add_blocks es b offset len c :
  NoDup (e_block <$> es) →
  NoDup (e_block <$> log_add es b offset len c) ∧
  (∀ x, x ∈ e_block <$> log_add es b offset len c ↔ x = b ∨ x ∈ e_block <$> es).
Proof.
  intros Hnd. unfold log_add. destruct (list_find _ es) as [[i e]|] eqn:Ef.
  - apply list_find_Some in Ef as (Hi & He & _).
    rewrite list_fmap_insert. simpl. rewrite list_insert_id by (by rewrite list_lookup_fmap, Hi).
    split; [done|]. intros x. split; [by right|]. intros [->|]; [|done].
    apply list_elem_of_fmap. exists e. split; [done|]. by eapply list_elem_of_lookup_2.
  - apply list_find_None in Ef. rewrite fmap_app. simpl. split; [|set_solver].
    apply NoDup_app. split_and!; [done| |apply NoDup_singleton].
    intros x Hx Hb. apply list_elem_of_singleton in Hb as ->.
    apply list_elem_of_fmap in Hx as (e & E & He). by eapply Forall_forall in Ef.
Qed.

Lemma log_add_ents start lsize es b offset len c :
  Forall (ent_ok start lsize) es → 0 ≤ b < FSSIZE → ¬ log_area start lsize b → range_ok offset len →
  Forall (ent_ok start lsize) (log_add es b offset len c).
Proof.
  intros Hes Hb Hla Hr. unfold log_add. destruct (list_find _ es) as [[i e]|] eqn:Ef.
  - apply list_find_Some in Ef as (Hi & He & _).
    assert (ent_ok start lsize e) as (? & ? & ?) by (by eapply Forall_lookup_1 in Hes).
    apply Forall_insert; [done|]. split; [done|]. split; [done|]. by apply e_merge_range.
  - apply Forall_app. split; [done|]. constructor; [|done]. split; [done|]. split; [done|]. exact Hr.
Qed.

(** ** Home writes *)

Lemma img_ok_home view es img : img_ok view → img_ok img → img_ok (img_run img (home_ops view es)).
Proof. intros Hv Hi b. rewrite home_lookup. by case_decide. Qed.

Lemma op_blocks_home view es : op_blocks (home_ops view es) = list_to_set (e_block <$> es).
Proof.
  unfold op_blocks, home_ops. f_equal. induction es as [|e es IH]; [done|].
  simpl. f_equal. exact IH.
Qed.

(** What a whole commit leaves on an image. *)
Lemma commit_ops_run start lsize view img0 es img b :
  txn_ok start lsize view img0 es → img_ok img →
  img_ok (img_run img (commit_ops start view es)) ∧
  hd_n (img_run img (commit_ops start view es) start) = 0 ∧
  (¬ log_area start lsize b →
   img_run img (commit_ops start view es) b = if decide (b ∈ e_block <$> es) then view b else img b).
Proof.
  intros Htx Hi. pose proof (tx_fits _ _ _ _ _ Htx). unfold commit_ops. set (hd := hdr_encode _ _).
  assert (block_ok hd) by (apply hdr_encode_ok; [rewrite length_fmap; apply Htx|apply Htx]).
  rewrite !img_run_app. cbn [img_run foldl].
  assert (block_ok (wr32 0 0 hd)).
  { apply block_ok_wr32; [|done]. change (Z.to_nat BSIZE) with 512%nat. lia. }
  split; [|split].
  - apply img_ok_write; [|done]. apply img_ok_home; [apply Htx|]. apply img_ok_write; [|done].
    apply (img_ok_wl start lsize); [apply Htx|done|apply Htx].
  - rewrite img_apply_eq. by apply hd_n_clear.
  - intros Hb. rewrite img_apply_ne by (intros <-; apply Hb; unfold log_area; lia).
    rewrite home_lookup. case_decide; [done|].
    rewrite img_apply_ne by (intros <-; apply Hb; unfold log_area; lia).
    apply wl_other. intros j Hj ->. apply Hb. unfold log_area. lia.
Qed.

Section txn.
Context {D : Type} `{DiskFlushOk D} `{!DiskDriverOk D}.
Implicit Types (s : lstate D) (b : bstate D) (a : cabs).

Record lop (pid : Z) s a (start lsize : Z) (es : list lent) (O : gset Z) : Prop := mk_lop {
  lo_geom : geom s start lsize;
  lo_crep : crep pid (l_bio s) a;
  lo_crc : crc_wf (l_crc s);
  lo_lh : lh_rep (l_lh s) es;
  lo_view : img_ok (ca_view a);
  lo_img : img_ok (disk_img (ca_disk a));
  lo_ents : Forall (ent_ok start lsize) es;
  lo_nodup : NoDup (e_block <$> es);
  lo_fits : Z.of_nat (length es) < lsize;
  lo_room : (length es < NBUF)%nat;
  lo_clean : hd_n (disk_img (ca_disk a) start) = 0;
  lo_dirty : ca_dirty a ⊆ list_to_set (e_block <$> es);
  lo_open : ∀ n, n ∈ O → is_Some (ca_held a !! n);
  lo_covers : ∀ n, n ∉ O → covers es n (ca_view a n) (disk_img (ca_disk a) n);
  lo_sync : ∀ n, n ∉ O → ca_sync a n;
}.

(** Between operations, with nothing held, this is the state [commit] takes. *)
Lemma lop_lrep pid s a start lsize es :
  lop pid s a start lsize es ∅ → ca_held a = ∅ → lrep pid s a start lsize es.
Proof.
  intros [] Hh. split; try done. split; try done.
  - unfold NBUF in *. lia.
  - intros e He. apply lo_covers0; [set_solver|done|done].
  - intros n Hn. apply lo_covers0; [set_solver|done].
Qed.

Lemma lrep_lop pid s a start lsize es :
  lrep pid s a start lsize es → lop pid s a start lsize es ∅.
Proof.
  intros Hl. pose proof Hl as [? ? ? ? [] Hh ? ?]. split; try done.
  - intros n _. split; [intros e He <-; auto|auto].
  - intros n _. apply (crep_sync pid (l_bio s)); [done|]. by rewrite Hh.
Qed.

(** ** log_write *)

Lemma lh_rep_add lh es bn offset len :
  lh_rep lh es → (length es < 30)%nat → list_find (λ e, e_block e = bn) es = None →
  ∃ c, lh_rep (lh_set_n (lh_n lh + 1) (lh_set_len (<[length es := len]> (lh_len lh))
         (lh_set_offset (<[length es := offset]> (lh_offset lh))
           (lh_set_block (<[length es := bn]> (lh_block lh)) lh))))
         (log_add es bn offset len c).
Proof.
  intros [Hn Hm (L1 & L2 & L3 & L4) He] Hlt Hf.
  destruct (lookup_lt_is_Some_2 (lh_cksum lh) (length es)) as [c Hc]; [lia|].
  exists c. unfold log_add. rewrite Hf. split; simpl; rewrite ?length_app, ?length_insert; simpl; try lia; try done.
  intros i e Hi. destruct (decide (i = length es)) as [->|Hne].
  - rewrite list_lookup_middle in Hi by done. injection Hi as <-. simpl.
    rewrite !list_lookup_insert_eq by lia. done.
  - rewrite lookup_app_l in Hi by (apply lookup_lt_Some in Hi; rewrite length_app in Hi; simpl in Hi; lia).
    rewrite !list_lookup_insert_ne by done. by apply He.
Qed.

Lemma lh_rep_merge lh es i e offset len :
  lh_rep lh es → es !! i = Some e →
  lh_rep (lh_set_len (<[i := e_len (e_merge e offset len)]> (lh_len lh))
            (lh_set_offset (<[i := e_off (e_merge e offset len)]> (lh_offset lh)) lh))
         (<[i := e_merge e offset len]> es).
Proof.
  intros [Hn Hm (L1 & L2 & L3 & L4) He] Hi. pose proof (lookup_lt_Some _ _ _ Hi) as Hlt.
  split; simpl; rewrite ?length_insert; try done.
  intros j e'. destruct (decide (i = j)) as [<-|Hne].
  - rewrite list_lookup_insert_eq by done. intros [= <-]. destruct (He i e Hi) as (? & ? & ? & ?).
    rewrite !list_lookup_insert_eq by lia. done.
  - rewrite !list_lookup_insert_ne by done. apply He.
Qed.

Lemma if_min x y : (if x <? y then x else y) = Z.min x y.
Proof. destruct (Z.ltb_spec x y); lia. Qed.
Lemma if_max x y : (if y <? x then x else y) = Z.max x y.
Proof. destruct (Z.ltb_spec y x); lia. Qed.

(** What [log_write] does to the in-memory log, on both branches. *)
Lemma log_write_lh pid s es bp bb offset len :
  lh_rep (l_lh s) es → (length es < 30)%nat → Z.of_nat (length es) < l_size s - 1 →
  1 ≤ l_outstanding s → Forall (λ e, 0 ≤ e_block e < 2 ^ 32) es →
  bufat bp pid (l_bio s) = Ret bb (l_bio s) → 0 ≤ b_blockno bb < 2 ^ 31 →
  ∃ lh' c, log_write bp offset len pid s = lift (bset_dirty bp) pid (l_set_lh lh' s) ∧
    lh_rep lh' (log_add es (b_blockno bb) offset len c).
Proof.
  intros Hr Hm Hsz Hout Hw Eb Hbb.
  pose proof (lr_n _ _ Hr) as Hn. destruct (lr_lens _ _ Hr) as (L1 & L2 & L3 & L4).
  assert (((LOGSIZE <=? lh_n (l_lh s)) || (l_size s - 1 <=? lh_n (l_lh s))) = false) as G1.
  { rewrite Hn. change LOGSIZE with 30. apply orb_false_iff. lia. }
  assert ((l_outstanding s <? 1) = false) as G2 by lia.
  assert (find_entry (lh_block (l_lh s)) (Z.to_nat (lh_n (l_lh s))) (b_blockno bb) 0 =
    fst <$> list_find (λ e, e_block e = b_blockno bb) es) as Ef.
  { rewrite Hn, Nat2Z.id. rewrite (find_entry_list_find _ es); [|intros; by apply Hr|done].
    by destruct (list_find _ es) as [[]|]. }
  destruct (list_find (λ e, e_block e = b_blockno bb) es) as [[i e]|] eqn:El.
  - pose proof El as (Hi & _ & _)%list_find_Some. pose proof (lookup_lt_Some _ _ _ Hi).
    destruct (lr_ents _ _ Hr i e Hi) as (_ & O1 & O2 & _).
    eexists _, 0. split.
    + unfold log_write. mstep. cbv zeta. rewrite G1, G2. mstep. rewrite Ef. cbn [fmap option_fmap option_map fst].
      rewrite bind_assoc. mstep. rewrite bind_assoc. mstep. rewrite if_min, if_max, bind_assoc.
      mrun (aset_Ret (lh_offset (l_lh s)) i (e_off (e_merge e offset len)) pid (lput (l_bio s) s) ltac:(lia)).
      rewrite bind_assoc.
      mrun (aset_Ret (lh_len (l_lh s)) i (e_len (e_merge e offset len)) pid (lput (l_bio s) s) ltac:(lia)).
      unfold lh_upd. mstep. reflexivity.
    + unfold log_add. rewrite El. simpl. by apply lh_rep_merge.
  - destruct (lh_rep_add (l_lh s) es (b_blockno bb) offset len Hr Hm El) as [c Hc].
    eexists _, c. split; [|exact Hc].
    unfold log_write. mstep. cbv zeta. rewrite G1, G2. mstep. rewrite Ef. cbn [fmap option_fmap option_map].
    rewrite Hn, s32_small by lia.
    rewrite bind_assoc. mrun (aset_Ret (lh_block (l_lh s)) (length es) (b_blockno bb) pid (lput (l_bio s) s) ltac:(lia)).
    rewrite bind_assoc. mrun (aset_Ret (lh_offset (l_lh s)) (length es) offset pid (lput (l_bio s) s) ltac:(lia)).
    rewrite bind_assoc. mrun (aset_Ret (lh_len (l_lh s)) (length es) len pid (lput (l_bio s) s) ltac:(lia)).
    unfold lh_upd. mstep. simpl. by rewrite Hn.
Qed.

Lemma crep_bufat pid b a n i :
  crep pid b a → ca_held a !! n = Some i →
  ∃ x, bufat i pid b = Ret x b ∧ b_blockno x = n ∧ 0 ≤ n < FSSIZE.
Proof.
  intros Hc Hh. destruct (crep_held _ _ _ _ _ Hc Hh) as (x & Hi & Hx & Hn & _ & (_ & Hr & _) & _).
  exists x. split; [by apply bufat_eq|]. rewrite Hn in Hr. done.
Qed.

(** A change of [len] bytes at [offset] of a held block, recorded by
    [log_write], closes the block. *)
Lemma log_write_spec pid s a start lsize es O n i offset len v0 :
  lop pid s a start lsize es O → ca_held a !! n = Some i → ¬ log_area start lsize n →
  range_ok offset len → (length es < 29)%nat → Z.of_nat (length es) < lsize - 1 → 1 ≤ l_outstanding s →
  covers es n v0 (disk_img (ca_disk a) n) →
  (∀ k : nat, ¬ (offset ≤ Z.of_nat k < offset + len) → ca_view a n !! k = v0 !! k) →
  ∃ s' lh' b' c, log_write i offset len pid s = Ret tt s' ∧ s' = l_set_bio b' (l_set_lh lh' s) ∧
    lop pid s' (ca_set_dirty ({[n]} ∪ ca_dirty a) a) start lsize (log_add es n offset len c) (O ∖ {[n]}).
Proof.
  intros Hl Hh Hla Hr Hm Hsz Hout Hcov Hch.
  destruct (crep_bufat _ _ _ _ _ (lo_crep _ _ _ _ _ _ _ Hl) Hh) as (x & Ex & Hxn & Hn).
  destruct (log_write_lh pid s es i x offset len) as (lh' & c & E & Hrep); try done.
  { apply Hl. }
  { lia. }
  { by rewrite (ge_size _ _ _ (lo_geom _ _ _ _ _ _ _ Hl)). }
  { eapply Forall_impl; [apply Hl|]. intros e (? & _). unfold FSSIZE in *. lia. }
  { rewrite Hxn. unfold FSSIZE in *. lia. }
  rewrite Hxn in Hrep.
  destruct (bset_dirty_spec pid (l_bio s) a n i) as (b' & Eb & Hc' & _); [apply Hl|done|].
  exists (l_set_bio b' (l_set_lh lh' s)), lh', b', c.
  split; [rewrite E; exact (lift_Ret _ _ (l_set_lh lh' s) _ _ Eb)|]. split; [done|].
  destruct (log_add_blocks es n offset len c (lo_nodup _ _ _ _ _ _ _ Hl)) as [Hnd Hbl].
  assert (length (log_add es n offset len c) ≤ S (length es))%nat as Hlen.
  { unfold log_add. case_match; [case_match; rewrite length_insert; lia|]. rewrite length_app. simpl. lia. }
  pose proof Hl as []. split; simpl; try done.
  - by apply (geom_cfg s).
  - by apply log_add_ents.
  - lia.
  - unfold NBUF. lia.
  - intros m Hm'. apply elem_of_list_to_set, Hbl. pose proof (lo_dirty _ _ _ _ _ _ _ Hl) as Hd.
    apply elem_of_union in Hm' as [->%elem_of_singleton|Hm']; [by left|right].
    apply Hd in Hm'. by apply elem_of_list_to_set in Hm'.
  - intros m Hm'. apply (lo_open _ _ _ _ _ _ _ Hl). set_solver.
  - intros m Hm'. destruct (decide (n = m)) as [<-|Hne].
    + eapply covers_add_here; [apply Hl|apply Hr| |exact Hcov|exact Hch].
      intros e He. destruct (proj1 (Forall_forall _ _) (lo_ents _ _ _ _ _ _ _ Hl) e He) as (_ & _ & ? & ? & ?). done.
    + apply covers_add_other; [done|]. apply Hl. set_solver.
  - intros m Hm'. destruct (decide (n = m)) as [<-|Hne]; [left; simpl; set_solver|].
    destruct (lo_sync _ _ _ _ _ _ _ Hl m) as [|]; [set_solver|left; simpl; set_solver|by right].
Qed.

(** ** The cache operations inside a transaction *)

Lemma lop_bread pid s a start lsize es O n :
  lop pid s a start lsize es O → 0 ≤ n < FSSIZE → ca_held a !! n = None → room a →
  ∃ i b', lift (bread ROOTDEV n) pid s = Ret i (l_set_bio b' s) ∧
    lop pid (l_set_bio b' s) (ca_set_held (<[n := i]> (ca_held a)) a) start lsize es O.
Proof.
  intros Hl Hn Hh Hr.
  destruct (bread_spec pid (l_bio s) a n) as (i & b' & E & Hc & _); [apply Hl|done|done|by right|].
  exists i, b'. split; [exact (lift_Ret _ _ s _ _ E)|].
  destruct Hl. split; try done; [by apply (geom_cfg s)|]. simpl. intros m Hm. destruct (decide (n = m)) as [<-|].
  - rewrite lookup_insert_eq. eauto.
  - rewrite lookup_insert_ne by done. by apply lo_open0.
Qed.

Lemma lop_bdata pid s a start lsize es O n i :
  lop pid s a start lsize es O → ca_held a !! n = Some i →
  lift (bdata i) pid s = Ret (ca_view a n) s.
Proof.
  intros Hl Hh. etransitivity; [apply lift_Ret, (bdata_spec _ _ _ _ _ (lo_crep _ _ _ _ _ _ _ Hl) Hh)|].
  by destruct s.
Qed.

Lemma lop_set_data pid s a start lsize es O n i d :
  lop pid s a start lsize es O → ca_held a !! n = Some i → block_ok d →
  ∃ b', lift (bset_data i d) pid s = Ret tt (l_set_bio b' s) ∧
    lop pid (l_set_bio b' s) (ca_set_view n d a) start lsize es ({[n]} ∪ O).
Proof.
  intros Hl Hh Hd. destruct (bset_data_spec pid (l_bio s) a n i d) as (b' & E & Hc & _); [apply Hl|done|].
  exists b'. split; [exact (lift_Ret _ _ s _ _ E)|].
  destruct Hl. split; try done; [by apply (geom_cfg s)|..]; simpl.
  - by apply img_ok_write.
  - intros m [->%elem_of_singleton|]%elem_of_union; [eauto|auto].
  - intros m Hm. rewrite fn_lookup_insert_ne by set_solver. apply lo_covers0. set_solver.
  - intros m Hm. unfold ca_sync. simpl. rewrite fn_lookup_insert_ne by set_solver.
    apply lo_sync0. set_solver.
Qed.

Lemma lop_brelse pid s a start lsize es O n i :
  lop pid s a start lsize es O → ca_held a !! n = Some i → n ∉ O →
  ∃ b', lift (brelse i) pid s = Ret tt (l_set_bio b' s) ∧
    lop pid (l_set_bio b' s) (ca_set_held (delete n (ca_held a)) a) start lsize es O.
Proof.
  intros Hl Hh Hn.
  destruct (brelse_spec pid (l_bio s) a n i) as (b' & E & Hc & _); [apply Hl|done|by apply Hl|].
  exists b'. split; [exact (lift_Ret _ _ s _ _ E)|].
  destruct Hl. split; try done; [by apply (geom_cfg s)|..]; simpl.
  intros m Hm. rewrite lookup_delete_ne by (intros ->; done). by apply lo_open0.
Qed.

(** Writing a block home inside the transaction, as [writei] does for the data
    of regular files. *)
Lemma lop_bwrite pid s a start lsize es O n i :
  lop pid s a start lsize es O → ca_held a !! n = Some i → ¬ log_area start lsize n →
  ∃ b', lift (bwrite i) pid s = Ret tt (l_set_bio b' s) ∧
    lop pid (l_set_bio b' s)
      (ca_set_dirty (ca_dirty a ∖ {[n]})
        (ca_set_disk (disk_do (DWrite n (ca_view a n)) (ca_disk a)) a)) start lsize es (O ∖ {[n]}).
Proof.
  intros Hl Hh Hla. destruct (bwrite_spec pid (l_bio s) a n i) as (b' & E & Hc & _); [apply Hl|done|].
  exists b'. split; [exact (lift_Ret _ _ s _ _ E)|].
  destruct Hl. split; try done; [by apply (geom_cfg s)|..]; simpl.
  - rewrite disk_img_do. by apply img_ok_write.
  - rewrite disk_img_do, img_apply_ne; [done|]. intros <-. apply Hla. unfold log_area. lia.
  - set_solver.
  - intros m Hm. apply lo_open0. set_solver.
  - intros m Hm. rewrite disk_img_do. destruct (decide (n = m)) as [<-|Hne].
    + rewrite img_apply_eq. split; [intros; apply agree_refl|done].
    + rewrite img_apply_ne by done. apply lo_covers0. set_solver.
  - intros m Hm. unfold ca_sync. simpl. rewrite disk_img_do. destruct (decide (n = m)) as [<-|Hne].
    + right. by rewrite img_apply_eq.
    + rewrite img_apply_ne by done. destruct (lo_sync0 m) as [|]; [set_solver|left; set_solver|by right].
Qed.

(** ** begin_op *)

Lemma begin_op_eq pid s :
  begin_op pid s =
    if negb (l_committing s =? 0) || (LOGSIZE <? lh_n (l_lh s) + (l_outstanding s + 1) * MAXOPBLOCKS)
    then Asleep ChLog (l_set_sleepers (pid :: l_sleepers s) s)
    else Ret tt (l_set_batch_size (s32 (l_batch_size s + 1)) (l_set_outstanding (l_outstanding s + 1) s)).
Proof. unfold begin_op, sleep_log. munfold. by repeat case_split. Qed.

(** ** The state a commit leaves *)

Lemma commit_lrep pid s a start lsize es s' :
  lrep pid s a start lsize es → geom s' start lsize →
  crep pid (l_bio s') (ca_writes (commit_ops start (ca_view a) es) a) → crc_wf (l_crc s') →
  lh_rep (l_lh s') [] →
  lrep pid s' (ca_writes (commit_ops start (ca_view a) es) a) start lsize [] ∧
  ∀ b : Z, ¬ log_area start lsize b →
    ca_view (ca_writes (commit_ops start (ca_view a) es) a) b = ca_view a b ∧
    disk_img (ca_disk (ca_writes (commit_ops start (ca_view a) es) a)) b = ca_view a b.
Proof.
  intros Hl Hg Hc Hw Hr. pose proof (lp_txn _ _ _ _ _ _ Hl) as Htx.
  pose proof (lp_held _ _ _ _ _ _ Hl) as Hh.
  set (a' := ca_writes _ a) in *. pose proof (tx_fits _ _ _ _ _ Htx) as Hf.
  pose proof (λ img (b : Z), commit_ops_run start lsize _ _ es img b Htx) as Hrun.
  assert (ca_dirty a' = ∅) as Hd0.
  { unfold a'. simpl. pose proof (lp_dirty _ _ _ _ _ _ Hl). unfold commit_ops.
    rewrite !op_blocks_app, op_blocks_home. set_solver. }
  assert (∀ b : Z, ca_view a' b = disk_img (ca_disk a') b) as Hvd.
  { intros b. apply (cr_view _ _ _ Hc); [by rewrite Hd0|]. unfold a'. simpl. by rewrite Hh. }
  assert (∀ b : Z, ¬ log_area start lsize b → ca_view a' b = ca_view a b) as Hva.
  { intros b Hb. destruct (Hrun (ca_view a) b (tx_view _ _ _ _ _ Htx)) as (_ & _ & E).
    unfold a'. simpl. rewrite E by done. by case_decide. }
  split.
  - split; try done; [|rewrite Hd0; set_solver|unfold NBUF; simpl; lia].
    split; simpl; try done; try lia.
    + apply Hrun; [exact 0|apply Htx].
    + intros b. rewrite <- Hvd. apply Hrun; [exact 0|apply Htx].
    + constructor.
    + intros e He. by apply elem_of_nil in He.
    + intros b _. apply Hvd.
    + unfold disk_img. simpl. rewrite img_run_app. apply Hrun; [exact 0|apply Htx].
  - intros b Hb. rewrite <- Hvd. auto.
Qed.

End txn.
