(* ===== verification/LogCrash.v ===== *)
(** * Crashes, recovery at boot, and the whole commit

    The journal code from [end_op] to the disk and back through [initlog]:
    what a commit cut at any of its disk commands leaves, and what the next
    boot makes of it. *)

From S2P Require Import Prelude Layout Sleeplock Disk Bio BioSpec Crc32 Log LogImg LogSpec LogTxn.

#[local] Arguments img_apply : simpl never.

(** The log's static storage at boot. *)
Definition lh_zero : logheader :=
  mk_logheader 0 (replicate 30 0) (replicate 30 0) (replicate 30 0) (replicate 30 0).
Definition log_boot {D} (b : bstate D) : lstate D :=
  mk_lstate b crc_boot 0 0 0 0 0 0 lh_zero jstats_zero 0 [].

(** The image a commit cut after [k] disk commands leaves. *)
Definition cut_img (start : Z) (view img : Z → block) (es : list lent) (k : nat) : Z → block :=
  img_run img (take k (commit_ops start view es)).

Lemma take_commit_ops start view es k :
  take k (commit_ops start view es) =
    (let hd := hdr_encode (seal view <$> es) (view start) in
     if decide (k ≤ length es)%nat then wl_ops start view 0 (take k es)
     else if decide (k = length es + 1)%nat then wl_ops start view 0 es ++ [DFlush]
     else (wl_ops start view 0 es ++ [DFlush; DWrite start hd]) ++
       (if decide (k ≤ 2 * length es + 2)%nat then home_ops view (take (k - (length es + 2)) es)
        else home_ops view es ++ [DWrite start (wr32 0 0 hd)])).
Proof.
  cbv zeta. unfold commit_ops. set (hd := hdr_encode _ _). case_decide as H1; [|case_decide as H2].
  - rewrite take_app_le by (rewrite length_wl_ops; lia). apply take_wl_ops.
  - rewrite take_app_ge by (rewrite length_wl_ops; lia). rewrite length_wl_ops.
    by replace (k - length es)%nat with 1%nat by lia.
  - rewrite app_assoc. rewrite take_app_ge by (rewrite length_app, length_wl_ops; simpl; lia).
    rewrite length_app, length_wl_ops. cbn [length]. f_equal. case_decide.
    + rewrite take_app_le by (unfold home_ops; rewrite length_fmap; lia).
      unfold home_ops. by rewrite fmap_take.
    + rewrite take_ge; [done|]. rewrite length_app. unfold home_ops. rewrite length_fmap. simpl. lia.
Qed.

(** Whatever the cut, the disk is one recovery can start from. *)
Lemma cut_img_ok start lsize view img es k :
  txn_ok start lsize view img es →
  img_ok (cut_img start view img es k) ∧ hdr_ok start lsize (cut_img start view img es k start).
Proof.
  intros Htx. pose proof (tx_fits _ _ _ _ _ Htx) as Hf. pose proof (tx_max _ _ _ _ _ Htx) as Hm.
  assert (∀ h, hd_n h = 0 → hdr_ok start lsize h) as Hz.
  { intros h E. split; rewrite ?E, ?hdr_entries_0 by done; try lia; constructor. }
  unfold cut_img. rewrite take_commit_ops. cbv zeta. set (hd := hdr_encode _ _).
  assert (block_ok hd) as Hhd by (apply hdr_encode_ok; [rewrite length_fmap; apply Htx|apply Htx]).
  assert (∀ l, Forall (ent_ok start lsize) l → (length l ≤ length es)%nat →
    img_ok (img_run img (wl_ops start view 0 l)) ∧
    img_run img (wl_ops start view 0 l) start = img start) as Hwl.
  { intros l Hl Hle. split; [apply (img_ok_wl start lsize); [apply Htx|apply Htx|done]|]. apply wl_other. lia. }
  case_decide; [|case_decide].
  - destruct (Hwl (take k es)) as [? E]; [apply Forall_take, Htx|len|]. split; [done|].
    rewrite E. apply Hz, Htx.
  - rewrite img_run_app. destruct (Hwl es) as [? E]; [apply Htx|done|]. split; [done|].
    change (img_run ?i [DFlush]) with i. rewrite E. apply Hz, Htx.
  - rewrite (img_run_app _ (_ ++ _)).
    change (img_run img (wl_ops start view 0 es ++ [DFlush; DWrite start hd])) with (committed_img start view img es).
    assert (img_ok (committed_img start view img es)) as Hc.
    { unfold committed_img. rewrite img_run_app. apply img_ok_write; [|done]. apply Hwl; [apply Htx|done]. }
    assert (committed_img start view img es start = hd) as Hs.
    { unfold committed_img. rewrite img_run_app. apply img_apply_eq. }
    case_decide.
    + split; [by apply img_ok_home; [apply Htx|]|]. rewrite home_lookup, decide_False, Hs.
      * destruct (hdr_entries_encode (seal view <$> es) (view start)) as [En Ee];
          [rewrite length_fmap; apply Htx|apply Htx|eapply seal_words, Htx|]. fold hd in En, Ee.
        rewrite length_fmap in En. split; rewrite ?En, ?Ee; [lia|lia|eapply ent_ok_seal, Htx|].
        rewrite fmap_block_seal. apply Htx.
      * rewrite fmap_take. apply not_elem_take, (not_ent start lsize _ _ _ Htx). unfold log_area. lia.
    + rewrite img_run_app. change (img_run ?i [?o]) with (img_apply i o). split.
      * apply img_ok_write; [by apply img_ok_home; [apply Htx|]|].
        apply block_ok_wr32; [|done]. change (Z.to_nat BSIZE) with 512%nat. lia.
      * rewrite img_apply_eq. apply Hz. by apply hd_n_clear.
Qed.

Section crash.
Context {D : Type} `{DiskFlushOk D} `{!DiskDriverOk D}.
Implicit Types (s : lstate D) (b : bstate D) (a : cabs).

(** ** initlog *)

Lemma readsb_spec pid b a :
  crep pid b a → ca_held a = ∅ → (size (ca_dirty a) < NBUF)%nat →
  ∃ b', readsb ROOTDEV pid b = Ret (sb_decode (ca_view a 1)) b' ∧ crep pid b' a.
Proof.
  intros Hc Hh Hsz. destruct (bread_spec pid b a 1) as (i & b1 & E1 & Hc1 & _); try done.
  { by rewrite Hh. }
  { right. unfold room. rewrite Hh, dom_empty_L, union_empty_r_L. done. }
  set (a1 := ca_set_held _ a) in Hc1.
  assert (ca_held a1 !! 1 = Some i) as Hh1 by (simpl; by rewrite lookup_insert_eq).
  pose proof (bdata_spec _ _ _ _ _ Hc1 Hh1) as D1.
  destruct (brelse_spec pid b1 a1 1 i Hc1 Hh1) as (b2 & E2 & Hc2 & _).
  { apply (crep_sync pid b a 1 Hc). by rewrite Hh. }
  exists b2. split; [unfold readsb; do 2 mstep; cbv zeta; by mstep|]. simpl in Hc2.
  rewrite Hh, insert_empty, delete_singleton_eq, <- Hh in Hc2. by destruct a.
Qed.

(** Boot on a disk whose superblock names the log: the journal is recovered
    and the cache starts from the recovered image. *)
Lemma initlog_spec pid b dk start lsize :
  crep pid b (ca_boot dk) → img_ok (disk_img dk) →
  sb_logstart (sb_decode (disk_img dk 1)) = start → sb_nlog (sb_decode (disk_img dk 1)) = lsize →
  0 ≤ start → start + lsize ≤ FSSIZE → hdr_ok start lsize (disk_img dk start) →
  ∃ s', initlog ROOTDEV pid (log_boot b) = Ret tt s' ∧
    lrep pid s' (ca_writes (recover_ops start (disk_img dk)) (ca_boot dk)) start lsize [] ∧
    l_outstanding s' = 0 ∧ l_committing s' = 0 ∧ l_sleepers s' = [] ∧
    jstats s' = install_js start 0 (hdr_entries (disk_img dk start)) (disk_img dk)
                  (js_recover (disk_img dk start) jstats_zero).
Proof.
  intros Hc Hok Hs Hn Hlo Hhi Ho.
  pose proof (ho_n _ _ _ Ho). pose proof (ho_fits _ _ _ Ho).
  destruct (readsb_spec pid b _ Hc) as (b1 & E1 & Hc1); [done|change (ca_dirty (ca_boot dk)) with (∅ : gset Z); rewrite size_empty; unfold NBUF; lia|].
  set (s1 := l_set_jstats jstats_zero (l_set_crc (crc32_init crc_boot)
    (l_set_geom start lsize ROOTDEV (l_set_bio b1 (log_boot b))))).
  destruct (recover_spec pid s1 (ca_boot dk) start lsize) as (s2 & E2 & Hcf & Hc2 & Hw2 & Hl2 & Hj2); try done.
  { by apply crc32_init_wf. }
  assert (geom s2 start lsize) as Hg2 by (by apply (geom_cfg s1)).
  assert (l_outstanding s2 = 0 ∧ l_committing s2 = 0 ∧ l_sleepers s2 = []) as (? & ? & ?)
    by (unfold lcfg in Hcf; simpl in Hcf; split_and!; congruence).
  exists s2. split; [|split; [|done]].
  - unfold initlog. change (BSIZE <=? SIZEOF_LOGHEADER) with false. cbv iota. mstep.
    unfold js_upd. do 2 mstep.
    change (ca_view (ca_boot dk) 1) with (disk_img dk 1). rewrite Hs, Hn.
    unfold FSSIZE in Hhi. rewrite !s32_small by lia. mstep. exact E2.
  - assert (ca_dirty (ca_writes (recover_ops start (disk_img dk)) (ca_boot dk)) = ∅) as Hd.
    { unfold ca_writes, ca_boot. simpl. set_solver. }
    assert (∀ n : Z, ca_view (ca_writes (recover_ops start (disk_img dk)) (ca_boot dk)) n =
            disk_img (ca_disk (ca_writes (recover_ops start (disk_img dk)) (ca_boot dk))) n) as Hv.
    { intros n. apply (cr_view _ _ _ Hc2); [|done]. simpl in *. by rewrite Hd. }
    split; try done.
    + assert (img_ok (img_run (disk_img dk) (recover_ops start (disk_img dk))) ∧
        hd_n (img_run (disk_img dk) (recover_ops start (disk_img dk)) start) = 0) as [Hok' Hn'].
      { unfold recover_ops. rewrite img_run_app. split.
        - apply img_ok_write; [apply (img_ok_install start lsize); [done|apply Ho]|].
          apply block_ok_wr32; [|done]. change (Z.to_nat BSIZE) with 512%nat. lia.
        - change (img_run ?i [?o]) with (img_apply i o). unfold clear_head. rewrite img_apply_eq. by apply hd_n_clear. }
      split; try done; try (simpl; lia).
      * intros n. rewrite <- Hv. apply Hok'.
      * constructor.
      * intros e He. by apply elem_of_nil in He.
      * rewrite <- Hv. exact Hn'.
    + rewrite Hd. set_solver.
    + unfold NBUF. simpl. lia.
Qed.

(** A drive the boot finds: [img] is on the medium. *)
Definition boots (d : D) (img : Z → block) : Prop :=
  drv_ready d ∧ disk_img (drv_disk d ROOTDEV) = img.

(** [binit] and [initlog], as the boot runs them. *)
Definition boot_log (pid : Z) (d : D) : outcome (lstate D) unit :=
  initlog ROOTDEV pid (log_boot (mk_bstate binit_bufs d)).

Lemma boot_log_spec pid d img start lsize :
  boots d img → img_ok img →
  sb_logstart (sb_decode (img 1)) = start → sb_nlog (sb_decode (img 1)) = lsize →
  0 ≤ start → start + lsize ≤ FSSIZE → hdr_ok start lsize (img start) →
  ∃ s' a', boot_log pid d = Ret tt s' ∧ lrep pid s' a' start lsize [] ∧
    (∀ n, ca_view a' n = recover_img start img n) ∧
    (∀ n, disk_img (ca_disk a') n = recover_img start img n) ∧
    l_outstanding s' = 0 ∧ l_committing s' = 0 ∧ l_sleepers s' = [] ∧
    jstats s' = install_js start 0 (hdr_entries (img start)) img (js_recover (img start) jstats_zero).
Proof.
  intros [Hr <-] Hok Hs Hn Hlo Hhi Ho.
  destruct (initlog_spec pid _ _ start lsize (binit_crep pid d Hr) Hok Hs Hn Hlo Hhi Ho)
    as (s' & E & Hl & ? & ? & ? & ?).
  exists s'. eexists. split; [exact E|]. split; [exact Hl|]. split; [intros n; reflexivity|].
  split; [intros n; by rewrite disk_img_writes|]. split_and!; assumption.
Qed.

(** ** The injected crashes *)

Section phases.
Context (pid : Z) (s : lstate D) (a : cabs) (start lsize : Z) (es : list lent).
Context (Hl : lrep pid s a start lsize es) (Hne : es ≠ []).

Lemma commit_nonempty : (0 <? lh_n (l_lh s)) = true.
Proof.
  rewrite (lr_n _ _ (lp_lh _ _ _ _ _ _ Hl)). apply Z.ltb_lt. destruct es; [done|].
  cbn [length]. lia.
Qed.

Lemma commit_phase1 :
  crash_at_phase s = 1 →
  ∃ s', commit pid s = Panicked "crash test: Phase 1 (pre-commit)" s' ∧
    crep pid (l_bio s') (ca_writes (take (length es + 1) (commit_ops start (ca_view a) es)) a).
Proof.
  intros Hp. destruct (commit_front pid s a start lsize es Hl Hne) as (s1 & b2 & b3 & E1 & E2 & _ & _ & _ & _ & _ & Hc & _).
  eexists. split.
  { unfold commit, js_upd. mstep. rewrite commit_nonempty. mstep.
    erewrite (bind_Ret (lift _)); [|apply lift_Ret, E2]. mstep. rewrite Hp. reflexivity. }
  rewrite take_commit_ops. cbv zeta. rewrite decide_False, decide_True by lia. exact Hc.
Qed.

Lemma commit_phase2 :
  crash_at_phase s = 2 →
  ∃ s', commit pid s = Panicked "crash test: Phase 2 (post-commit)" s' ∧
    crep pid (l_bio s') (ca_writes (take (length es + 2) (commit_ops start (ca_view a) es)) a).
Proof.
  intros Hp. destruct (commit_front pid s a start lsize es Hl Hne) as (s1 & b2 & b3 & E1 & E2 & E3 & _ & _ & _ & _ & _ & Hc).
  eexists. split.
  { unfold commit, js_upd. mstep. rewrite commit_nonempty. mstep.
    erewrite (bind_Ret (lift _)); [|apply lift_Ret, E2]. mstep. rewrite Hp. cbn [Z.eqb Pos.eqb]. mstep. mstep. reflexivity. }
  rewrite take_commit_ops. cbv zeta. rewrite !decide_False by lia. rewrite decide_True by lia.
  replace (length es + 2 - (length es + 2))%nat with 0%nat by lia.
  rewrite take_0. cbn [home_ops fmap list_fmap]. rewrite app_nil_r, <- app_assoc in *. exact Hc.
Qed.

Lemma corrupt_log_spec pid0 s0 a0 :
  geom s0 start lsize → 1 < lsize → crep pid0 (l_bio s0) a0 → ca_held a0 = ∅ →
  (size (ca_dirty a0) < NBUF)%nat → img_ok (ca_view a0) →
  ∃ s', corrupt_log pid0 s0 = Ret tt s' ∧
    crep pid0 (l_bio s') (ca_writes [DWrite (start + 1) (flip0 (ca_view a0 (start + 1)))] a0).
Proof.
  intros Hg Hls Hc Hh Hsz Hok. set (n := start + 1).
  assert (0 ≤ n < FSSIZE) as Hn by (destruct Hg; unfold n; lia).
  assert (u32 (l_start s0 + 1) = n) as Eu.
  { rewrite (ge_start _ _ _ Hg). apply u32_small. unfold FSSIZE in Hn. lia. }
  destruct (bread_spec pid0 (l_bio s0) a0 n) as (i & b1 & E1 & Hc1 & _); try done.
  { by rewrite Hh. }
  { right. unfold room. rewrite Hh, dom_empty_L, union_empty_r_L. done. }
  set (a1 := ca_set_held _ a0) in Hc1.
  assert (ca_held a1 !! n = Some i) as Hh1 by (simpl; by rewrite lookup_insert_eq).
  pose proof (bdata_spec _ _ _ _ _ Hc1 Hh1) as D1.
  destruct (put_block_spec pid0 b1 a1 n i (flip0 (ca_view a0 n)) Hc1 Hh1) as (b2 & b3 & E2 & E3 & Hc3 & _).
  destruct (brelse_spec pid0 b3 _ n i Hc3 Hh1) as (b4 & E4 & Hc4 & _); [apply ca_sync_write; by left|].
  assert (ca_view a0 n !! 0%nat = Some (nth 0 (ca_view a0 n) 0)) as H0'.
  { destruct (Hok n) as [Hlen _]. destruct (ca_view a0 n); [done|]. done. }
  exists (l_set_bio b4 s0). split.
  { unfold corrupt_log. mstep. rewrite (ge_dev _ _ _ Hg), Eu. do 2 mstep.
    erewrite (bind_Ret (aget _ _)); [|exact (aget_Ret _ 0 _ _ _ H0')]. mstep. mstep. mstep. }
  simpl in Hc4 |- *. rewrite Hh, insert_empty, delete_singleton_eq in Hc4. by rewrite <- Hh in Hc4.
Qed.

Lemma commit_phase3 :
  crash_at_phase s = 3 →
  let img := img_run (ca_view a) (take (length es + 2) (commit_ops start (ca_view a) es)) in
  ∃ s', commit pid s = Panicked "crash test: Phase 3 (Fault Injection - Corrupted Log Data)" s' ∧
    crep pid (l_bio s') (ca_writes (take (length es + 2) (commit_ops start (ca_view a) es) ++
      [DWrite (start + 1) (flip0 (img (start + 1)))]) a).
Proof.
  intros Hp img. destruct (commit_front pid s a start lsize es Hl Hne) as (s1 & b2 & b3 & E1 & E2 & E3 & Hcf & _ & _ & _ & _ & Hc).
  set (s2 := l_set_bio b3 (l_set_jstats (js_flush (jstats s1)) (l_set_bio b2 s1))).
  pose proof (lp_txn _ _ _ _ _ _ Hl) as Htx. pose proof (tx_fits _ _ _ _ _ Htx).
  assert (take (length es + 2) (commit_ops start (ca_view a) es) =
    (wl_ops start (ca_view a) 0 es ++ [DFlush]) ++ [DWrite start (hdr_encode (seal (ca_view a) <$> es) (ca_view a start))]) as Et.
  { rewrite take_commit_ops. cbv zeta. rewrite !decide_False by lia. rewrite decide_True by lia.
    replace (length es + 2 - (length es + 2))%nat with 0%nat by lia.
    rewrite take_0. cbn [home_ops fmap list_fmap]. by rewrite app_nil_r, <- app_assoc. }
  unfold img. rewrite Et.
  destruct (corrupt_log_spec pid s2 _ (geom_cfg s s2 _ _ Hcf (lp_geom _ _ _ _ _ _ Hl))
    ltac:(destruct es; simpl in *; [done|lia]) Hc) as (s3 & E4 & Hc4).
  { apply Hl. }
  { by eapply lrep_dirty_size. }
  { by eapply img_ok_front. }
  eexists. split.
  { unfold commit, js_upd. mstep. rewrite commit_nonempty. mstep.
    erewrite (bind_Ret (lift _)); [|apply lift_Ret, E2]. mstep. rewrite Hp. cbn [Z.eqb Pos.eqb]. mstep. mstep. mstep.
    rewrite bind_assoc. mstep. reflexivity. }
  rewrite ca_writes_app. exact Hc4.
Qed.

End phases.

(** ** end_op *)

(** The counters, flags and sleepers are not part of the representation. *)
Lemma lrep_frame pid s s' a start lsize es :
  lrep pid s a start lsize es →
  (l_bio s', l_crc s', l_lh s', l_start s', l_size s', l_dev s') =
  (l_bio s, l_crc s, l_lh s, l_start s, l_size s, l_dev s) →
  lrep pid s' a start lsize es.
Proof.
  intros [[] ? ? ? ? ? ? ?] E. injection E as E1 E2 E3 E4 E5 E6.
  split; rewrite ?E1, ?E2, ?E3; try done. split; congruence.
Qed.

Lemma end_op_last pid s a start lsize es :
  lrep pid s a start lsize es → l_outstanding s = 1 → l_committing s = 0 → crash_at_phase s ∉ [1; 2; 3] →
  ∃ s' a', end_op pid s = Ret tt s' ∧ lrep pid s' a' start lsize [] ∧
    l_outstanding s' = 0 ∧ l_committing s' = 0 ∧ l_sleepers s' = [] ∧
    (∀ n : Z, ¬ log_area start lsize n → ca_view a' n = ca_view a n ∧ disk_img (ca_disk a') n = ca_view a n) ∧
    d_ops (ca_disk a') = d_ops (ca_disk a) ++ (if decide (es = []) then [] else commit_ops start (ca_view a) es).
Proof.
  intros Hl Ho Hcm Hph.
  set (s1 := l_set_committing 1 (l_set_outstanding 0 s)).
  assert (lrep pid s1 a start lsize es) as Hl1 by (by apply (lrep_frame pid s)).
  assert (∀ s2, commit pid s1 = Ret tt s2 →
    end_op pid s = Ret tt (l_set_sleepers [] (l_set_committing 0 s2))) as Hrun.
  { intros s2 E. unfold end_op, wakeup_log. mstep. mstep. cbn [l_committing l_set_outstanding l_outstanding].
    rewrite Hcm, Ho. change (1 - 1) with 0. cbn [Z.eqb negb]. mstep. fold s1. mstep. mstep. reflexivity. }
  destruct (decide (es = [])) as [->|Hne].
  - exists (l_set_sleepers [] (l_set_committing 0 s1)), a. split.
    { apply Hrun. unfold commit. mstep. cbn [l_lh s1 l_set_committing l_set_outstanding].
      rewrite (lr_n _ _ (lp_lh _ _ _ _ _ _ Hl)). done. }
    split; [by apply (lrep_frame pid s)|].
    split; [done|]. split; [done|]. split; [done|]. split; [|by rewrite app_nil_r].
    intros n _. split; [done|]. symmetry. apply (tx_same _ _ _ _ _ (lp_txn _ _ _ _ _ _ Hl)). set_solver.
  - destruct (commit_spec pid s1 a start lsize es Hl1 Hne Hph) as (s2 & E & Hcf & Hc & Hw & Hr & _).
    destruct (commit_lrep pid s1 a start lsize es (l_set_sleepers [] (l_set_committing 0 s2)) Hl1)
      as [Hl2 Hv]; try done.
    { unfold lcfg in Hcf. simpl in Hcf. injection Hcf as ? ? ? ? ? ? ? ?.
      destruct (lp_geom _ _ _ _ _ _ Hl). split; simpl; congruence. }
    eexists _, _. split; [by apply Hrun|]. split; [exact Hl2|].
    split; [unfold lcfg in Hcf; simpl in Hcf; simpl; congruence|]. done.
Qed.

End crash.

(** Blocks a commit does not write. *)
Lemma cut_other start lsize view img es k n :
  txn_ok start lsize view img es → ¬ log_area start lsize n → n ∉ e_block <$> es →
  cut_img start view img es k n = img n.
Proof.
  intros Htx Hn Hb. pose proof (tx_fits _ _ _ _ _ Htx) as Hf. unfold cut_img.
  assert (n ≠ start) by (intros ->; apply Hn; unfold log_area; lia).
  assert (∀ l i', (length l ≤ length es)%nat → img_run i' (wl_ops start view 0 l) n = i' n) as Hwl.
  { intros l i' Hl. apply wl_other. intros j Hj ->. apply Hn. unfold log_area. lia. }
  assert (∀ i', img_run i' (home_ops view es) n = i' n) as Hho.
  { intros i'. by rewrite home_lookup, decide_False. }
  rewrite take_commit_ops. cbv zeta. repeat case_decide.
  - apply Hwl. len.
  - rewrite img_run_app. by apply Hwl.
  - rewrite !img_run_app. rewrite home_lookup, decide_False by (rewrite fmap_take; by apply not_elem_take).
    cbn [img_run foldl]. rewrite img_apply_ne by done. by apply Hwl.
  - rewrite !img_run_app. cbn [img_run foldl]. rewrite img_apply_ne by done.
    rewrite Hho. cbn [img_run foldl]. rewrite img_apply_ne by done. by apply Hwl.
Qed.
