(* ===== verification/Journal.v ===== *)
(** * The journal: main theorems

    The statements about log.c as a whole, each with an instance on the layout
    mkfs gives the disk, and the places where the code falls short of what its
    comments say. *)

From S2P Require Import Prelude Layout Sleeplock Disk Ide Bio BioSpec Crc32 Log LogImg LogSpec LogTxn LogCrash.

#[local] Arguments img_apply : simpl never.

(** ** A running example: the disk mkfs makes, and one open transaction *)

Definition ex_sb : superblock := mk_superblock 1000 941 200 30 2 32 58.
Definition ex_sb_block : block := sb_encode ex_sb ++ replicate 484 0.
Definition ex_img (n : Z) : block := if n =? 1 then ex_sb_block else zero_block.
Definition ex_ide (img : Z → block) : ide_state :=
  mk_ide_state [] [] true [IDE_DRDY] [] (λ _, mk_disk img []).

Lemma ex_boots img : boots (ex_ide img) img.
Proof. split; [|done]. split_and!; try done. by exists IDE_DRDY. Qed.

Lemma ex_sb_block_ok : block_ok ex_sb_block.
Proof.
  split; [by vm_compute|]. unfold ex_sb_block, sb_encode, bytes. rewrite !Forall_app.
  split_and!; try apply bytes_le_bytes. apply Forall_replicate. unfold is_byte. lia.
Qed.

Lemma ex_img_ok : img_ok ex_img.
Proof. intros n. unfold ex_img. case_match; [apply ex_sb_block_ok|apply zero_block_ok]. Qed.

Lemma ex_sb_decode : sb_decode (ex_img 1) = ex_sb.
Proof. apply sb_decode_encode; unfold is_uint; simpl; lia. Qed.

Lemma hd_n_zero : hd_n zero_block = 0.
Proof. by vm_compute. Qed.

Lemma hdr_ok_zero start lsize : 0 < lsize → hdr_ok start lsize zero_block.
Proof.
  intros. split; rewrite ?hd_n_zero, ?hdr_entries_0 by apply hd_n_zero; try lia; constructor.
Qed.

(** Bytes 8 to 12 of block 100 set to one. *)
Definition ex_data : block := splice 8 [1; 1; 1; 1] zero_block.

Lemma ex_data_ok : block_ok ex_data.
Proof.
  apply block_ok_splice; [simpl; change (Z.to_nat BSIZE) with 512%nat; lia| |apply zero_block_ok].
  repeat constructor; lia.
Qed.

(** Boot, [begin_op], and a change of block 100 in the cache. *)
Lemma ex_open phase :
  ∃ (s : lstate ide_state) a i, lop 1 s a 2 30 [] {[100]} ∧ crash_at_phase s = phase ∧
    l_outstanding s = 1 ∧ l_committing s = 0 ∧ ca_held a = {[100 := i]} ∧ ca_dirty a = ∅ ∧
    ca_view a 100 = ex_data ∧ disk_img (ca_disk a) 100 = zero_block ∧ ca_view a 1 = ex_img 1.
Proof.
  destruct (boot_log_spec 1 (ex_ide ex_img) ex_img 2 30) as (s0 & a0 & _ & Hl0 & Hv0 & Hd0 & Ho0 & Hc0 & _ & _);
    try (rewrite ex_sb_decode; done); try done; [apply ex_boots|apply ex_img_ok|by apply hdr_ok_zero|].
  assert (∀ n, n ≠ 2 → ca_view a0 n = ex_img n ∧ disk_img (ca_disk a0) n = ex_img n) as Hv.
  { intros n Hn. rewrite Hv0, Hd0. by split; apply recover_clean. }
  set (s1 := l_set_crash phase (l_set_batch_size (s32 (l_batch_size s0 + 1)) (l_set_outstanding (l_outstanding s0 + 1) s0))).
  assert (lrep 1 s1 a0 2 30 []) as Hl1 by (by apply (lrep_frame 1 s0)).
  pose proof (lp_held _ _ _ _ _ _ Hl1) as Hh1. pose proof (lp_dirty _ _ _ _ _ _ Hl1) as Hd1.
  assert (ca_dirty a0 = ∅) as Hd1' by set_solver.
  destruct (lop_bread 1 s1 a0 2 30 [] ∅ 100 (lrep_lop _ _ _ _ _ _ Hl1)) as (i & b2 & _ & Hl2); try done.
  { by rewrite Hh1. }
  { unfold room. rewrite Hd1', Hh1, dom_empty_L, union_empty_l_L, size_empty. unfold NBUF. lia. }
  rewrite Hh1, insert_empty in Hl2. set (a2 := ca_set_held _ a0) in Hl2.
  assert (ca_held a2 !! 100 = Some i) as Hh2 by apply lookup_singleton_eq.
  destruct (lop_set_data 1 _ a2 2 30 [] ∅ 100 i ex_data Hl2 Hh2 ex_data_ok) as (b3 & _ & Hl3).
  rewrite union_empty_r_L in Hl3. eexists _, _, i. split; [exact Hl3|]. simpl.
  rewrite Ho0, Hc0, fn_lookup_insert, fn_lookup_insert_ne by done.
  split_and!; try done; by apply Hv.
Qed.

Lemma ex_data_change (k : nat) : ¬ (8 ≤ Z.of_nat k < 8 + 4) → ex_data !! k = zero_block !! k.
Proof.
  intros Hk. unfold ex_data.
  rewrite lookup_splice by (destruct zero_block_ok as [-> _]; change (Z.to_nat BSIZE) with 512%nat; cbn [length]; lia).
  rewrite decide_False; [done|]. simpl. lia.
Qed.

Lemma ex_covers n : covers [] n zero_block zero_block.
Proof. split; [intros e He; by apply elem_of_nil in He|done]. Qed.

(** The change handed to [log_write] and the block released. *)
Lemma ex_txn phase :
  ∃ (s : lstate ide_state) a e, lrep 1 s a 2 30 [e] ∧ crash_at_phase s = phase ∧
    l_outstanding s = 1 ∧ l_committing s = 0 ∧
    e_block e = 100 ∧ e_off e = 8 ∧ e_len e = 4 ∧ ca_view a 1 = ex_img 1.
Proof.
  destruct (ex_open phase) as (s3 & a3 & i & Hl3 & Hp & Ho & Hc & Hh & Hd & Hv & Hk & H1).
  destruct (log_write_spec 1 s3 a3 2 30 [] _ 100 i 8 4 zero_block Hl3) as (s4 & lh4 & b4 & c & _ & E4 & Hl4);
    try done; simpl; try lia.
  { rewrite Hh. apply lookup_singleton_eq. }
  { unfold log_area. lia. }
  { rewrite Hk. apply ex_covers. }
  { intros k. rewrite Hv. apply ex_data_change. }
  set (a4 := ca_set_dirty _ _) in Hl4. change (log_add [] 100 8 4 c) with [mk_lent 100 8 4 c] in Hl4.
  assert ({[100]} ∖ {[100]} = (∅ : gset Z)) as EO by set_solver. rewrite EO in Hl4.
  destruct (lop_brelse 1 s4 a4 2 30 _ ∅ 100 i Hl4) as (b5 & _ & Hl5); [|set_solver|].
  { simpl. rewrite Hh. apply lookup_singleton_eq. }
  eexists _, _, (mk_lent 100 8 4 c). split.
  { apply (lop_lrep _ _ _ _ _ _ Hl5). unfold a4. simpl. rewrite Hh. apply delete_singleton_eq. }
  simpl. rewrite E4. done.
Qed.

(** ** Commit and crash *)

Section main.
Context {D : Type} `{DiskFlushOk D} `{!DiskDriverOk D}.
Implicit Types (s : lstate D).

(** The superblock names the log, and the transaction leaves it alone. *)
Definition sb_names (img : Z → block) (start lsize : Z) (es : list lent) : Prop :=
  sb_logstart (sb_decode (img 1)) = start ∧ sb_nlog (sb_decode (img 1)) = lsize ∧
  ¬ log_area start lsize 1 ∧ 1 ∉ e_block <$> es.

(** The next boot on the image of a commit cut after [k] commands. *)
Lemma boot_after_cut pid s a start lsize es k pid' (d : D) :
  lrep pid s a start lsize es → sb_names (ca_view a) start lsize es →
  boots d (cut_img start (ca_view a) (disk_img (ca_disk a)) es k) →
  ∃ s' a', boot_log pid' d = Ret tt s' ∧ lrep pid' s' a' start lsize [] ∧
    same_outside start lsize (ca_view a')
      (if decide (length es + 2 ≤ k)%nat then ca_view a else disk_img (ca_disk a)).
Proof.
  intros Hl (Hs & Hn & Hla & H1n) Hb. pose proof (lp_txn _ _ _ _ _ _ Hl) as Htx.
  destruct (cut_img_ok _ _ _ _ _ k Htx) as [Hok Ho].
  assert (cut_img start (ca_view a) (disk_img (ca_disk a)) es k 1 = ca_view a 1) as E1.
  { rewrite (cut_other start lsize) by done. symmetry. by apply Htx. }
  destruct (boot_log_spec pid' d _ start lsize Hb Hok) as (s' & a' & E & Hl' & Hv & _);
    [by rewrite E1..|apply (lp_geom _ _ _ _ _ _ Hl)|apply (lp_geom _ _ _ _ _ _ Hl)|done|].
  exists s', a'. split; [done|]. split; [done|]. intros n Hn'. rewrite Hv.
  by apply (commit_ops_atomic start lsize _ _ es Htx k).
Qed.

(** C1. Crash atomicity of the journal.  From any state between operations with
    a pending transaction, [commit] returns; and if power fails after any
    number [k] of the disk commands it issued, then booting from what is on
    the disk ([binit], [initlog]) succeeds and every block outside the log has
    either its content of before the transaction or its content of after it,
    the latter exactly when the header had been written. *)
Theorem journal_crash_atomic pid s a start lsize es :
  lrep pid s a start lsize es → es ≠ [] → crash_at_phase s = 0 →
  sb_names (ca_view a) start lsize es →
  ∃ s' ops, commit pid s = Ret tt s' ∧
    drv_disk (bs_drv (l_bio s')) ROOTDEV = mk_disk (d_base (ca_disk a)) (d_ops (ca_disk a) ++ ops) ∧
    ∀ k pid' (d : D), boots d (img_run (disk_img (ca_disk a)) (take k ops)) →
      ∃ s2 a2, boot_log pid' d = Ret tt s2 ∧ lrep pid' s2 a2 start lsize [] ∧
        same_outside start lsize (ca_view a2)
          (if decide (length es + 2 ≤ k)%nat then ca_view a else disk_img (ca_disk a)).
Proof.
  intros Hl Hne Hp Hsb.
  destruct (commit_spec pid s a start lsize es Hl Hne) as (s' & E & _ & Hc & _); [rewrite Hp; set_solver|].
  exists s', (commit_ops start (ca_view a) es). split; [done|].
  split; [apply (cr_disk _ _ _ Hc)|]. intros k pid' d Hb. by eapply boot_after_cut.
Qed.

(** The crash tests of sys_crash behave as documented: with phase 1 armed a
    commit panics and the reboot finds the old contents; with phase 2 armed it
    panics and the reboot finds the new ones. *)
Theorem crash_phases pid s a start lsize es :
  lrep pid s a start lsize es → es ≠ [] → crash_at_phase s = 1 ∨ crash_at_phase s = 2 →
  sb_names (ca_view a) start lsize es →
  ∃ msg s', commit pid s = Panicked msg s' ∧
    ∀ pid' (d : D), boots d (disk_img (drv_disk (bs_drv (l_bio s')) ROOTDEV)) →
      ∃ s2 a2, boot_log pid' d = Ret tt s2 ∧ lrep pid' s2 a2 start lsize [] ∧
        same_outside start lsize (ca_view a2)
          (if decide (crash_at_phase s = 2) then ca_view a else disk_img (ca_disk a)).
Proof.
  intros Hl Hne Hp Hsb. destruct Hp as [Hp|Hp].
  - destruct (commit_phase1 pid s a start lsize es Hl Hne Hp) as (s' & E & Hc).
    eexists _, s'. split; [exact E|]. intros pid' d Hb. rewrite Hp, decide_False by lia.
    rewrite (cr_disk _ _ _ Hc), disk_img_writes in Hb.
    destruct (boot_after_cut pid s a start lsize es (length es + 1) pid' d Hl Hsb Hb) as (s2 & a2 & ? & ? & Hs).
    exists s2, a2. rewrite decide_False in Hs by lia. auto.
  - destruct (commit_phase2 pid s a start lsize es Hl Hne Hp) as (s' & E & Hc).
    eexists _, s'. split; [exact E|]. intros pid' d Hb. rewrite Hp, decide_True by lia.
    rewrite (cr_disk _ _ _ Hc), disk_img_writes in Hb.
    destruct (boot_after_cut pid s a start lsize es (length es + 2) pid' d Hl Hsb Hb) as (s2 & a2 & ? & ? & Hs).
    exists s2, a2. rewrite decide_True in Hs by lia. auto.
Qed.

(** C2. Recovery can itself be interrupted: boot on any disk with a well-formed
    header, cut the recovery after any number of its disk commands and boot
    again; the second boot succeeds and finds every block as an uninterrupted
    recovery leaves it. *)
Theorem recovery_restartable pid (d d' : D) img start lsize k :
  boots d img → img_ok img → 0 ≤ start → start + lsize ≤ FSSIZE → ¬ log_area start lsize 1 →
  sb_logstart (sb_decode (img 1)) = start → sb_nlog (sb_decode (img 1)) = lsize →
  hdr_ok start lsize (img start) → 1 ∉ e_block <$> hdr_entries (img start) →
  ∃ s a ops, boot_log pid d = Ret tt s ∧ lrep pid s a start lsize [] ∧ ca_disk a = mk_disk (d_base (ca_disk a)) (d_ops (drv_disk d ROOTDEV) ++ ops) ∧
    (boots d' (img_run img (take k ops)) →
     ∃ s' a', boot_log pid d' = Ret tt s' ∧ lrep pid s' a' start lsize [] ∧
       ∀ n, ca_view a' n = ca_view a n).
Proof.
  intros Hb Hok Hlo Hhi Hla Hs Hn Ho H1n.
  destruct Hb as [Hr Hb]. set (dk := drv_disk d ROOTDEV) in Hb.
  destruct (initlog_spec pid (mk_bstate binit_bufs d) dk start lsize) as (s & E & Hl & _);
    rewrite ?Hb; try assumption; [by apply binit_crep|].
  rewrite Hb in Hl.
  exists s. eexists. exists (recover_ops start img). split; [exact E|]. split; [exact Hl|]. split; [done|].
  intros Hb'. destruct (recover_cut_ok start lsize img k Ho Hok) as [Hok' Ho'].
  assert (img_run img (take k (recover_ops start img)) 1 = img 1) as E1.
  { apply (recover_cut_other start lsize); [assumption|assumption|]. intros <-. apply Hla.
    pose proof (ho_n _ _ _ Ho). pose proof (ho_fits _ _ _ Ho). unfold log_area. lia. }
  destruct (boot_log_spec pid d' _ start lsize Hb' Hok') as (s' & a' & E' & Hl' & Hv & _);
    rewrite ?E1; try assumption.
  exists s', a'. split; [exact E'|]. split; [exact Hl'|]. intros n. rewrite Hv.
  rewrite (recover_cut start lsize) by assumption. unfold recover_img. simpl. by rewrite Hb.
Qed.

(** C3. [end_op] of the last outstanding operation commits: it returns with the
    log empty, the counters reset and every sleeper woken; every block outside
    the log keeps its cached content, which is now also the content on disk;
    and the disk commands it issued are those of one commit, or none when the
    transaction wrote nothing. *)
Theorem end_op_commits pid s a start lsize es :
  lrep pid s a start lsize es → l_outstanding s = 1 → l_committing s = 0 → crash_at_phase s ∉ [1; 2; 3] →
  ∃ s' a', end_op pid s = Ret tt s' ∧ lrep pid s' a' start lsize [] ∧
    l_outstanding s' = 0 ∧ l_committing s' = 0 ∧ l_sleepers s' = [] ∧
    (∀ n : Z, ¬ log_area start lsize n → ca_view a' n = ca_view a n ∧ disk_img (ca_disk a') n = ca_view a n) ∧
    d_ops (ca_disk a') = d_ops (ca_disk a) ++ (if decide (es = []) then [] else commit_ops start (ca_view a) es).
Proof. apply end_op_last. Qed.

(** C4. [log_write] records a change: if a held block was covered by the log
    and its caller has since changed only bytes [offset, offset+len), then
    [log_write] returns, pins the block, and the log covers the new content;
    an entry the block already has grows to the bounding range, otherwise one
    entry is added. *)
Theorem log_write_records pid s a start lsize es O n i offset len v0 :
  lop pid s a start lsize es O → ca_held a !! n = Some i → ¬ log_area start lsize n →
  range_ok offset len → (length es < 29)%nat → Z.of_nat (length es) < lsize - 1 → 1 ≤ l_outstanding s →
  covers es n v0 (disk_img (ca_disk a) n) →
  (∀ k : nat, ¬ (offset ≤ Z.of_nat k < offset + len) → ca_view a n !! k = v0 !! k) →
  ∃ s' c, log_write i offset len pid s = Ret tt s' ∧
    lop pid s' (ca_set_dirty ({[n]} ∪ ca_dirty a) a) start lsize (log_add es n offset len c) (O ∖ {[n]}).
Proof.
  intros Hl Hh Hla Hr Hm Hsz Ho Hc Hv.
  destruct (log_write_spec pid s a start lsize es O n i offset len v0 Hl Hh Hla Hr Hm Hsz Ho Hc Hv)
    as (s' & lh & b & c & E & _ & Hl'). eauto.
Qed.

(** C39. The fault injection of crash phase 3 (byte 0 of the first log block is
    inverted after the header is written, then the machine panics): the reboot
    succeeds; when the first entry covers byte 0 its checksum fails and that
    block keeps its old content; in every other case the damage is not seen;
    all other blocks get their new content. *)
Theorem fault_injection pid s a start lsize e0 es :
  lrep pid s a start lsize (e0 :: es) → crash_at_phase s = 3 →
  sb_names (ca_view a) start lsize (e0 :: es) →
  ∃ msg s', commit pid s = Panicked msg s' ∧
    ∀ pid' (d : D), boots d (disk_img (drv_disk (bs_drv (l_bio s')) ROOTDEV)) →
      ∃ s2 a2, boot_log pid' d = Ret tt s2 ∧ lrep pid' s2 a2 start lsize [] ∧
        ∀ n, ¬ log_area start lsize n → ca_view a2 n =
          if decide (n = e_block e0 ∧ e_off e0 = 0 ∧ 0 < e_len e0)
          then disk_img (ca_disk a) n else ca_view a n.
Proof.
  intros Hl Hp (Hs & Hn & Hla & H1n). pose proof (lp_txn _ _ _ _ _ _ Hl) as Htx.
  destruct (commit_phase3 pid s a start lsize (e0 :: es) Hl ltac:(done) Hp) as (s' & E & Hc).
  eexists _, s'. split; [exact E|]. intros pid' d Hb.
  rewrite (cr_disk _ _ _ Hc), disk_img_writes, img_run_app in Hb.
  set (ops := take _ _) in Hb.
  assert (img_run (disk_img (ca_disk a)) ops = committed_img start (ca_view a) (disk_img (ca_disk a)) (e0 :: es)) as Ec.
  { unfold ops. rewrite take_commit_ops. cbv zeta. rewrite !decide_False by lia. rewrite decide_True by lia.
    rewrite Nat.sub_diag, take_0. cbn [home_ops fmap list_fmap]. by rewrite app_nil_r. }
  assert (img_run (ca_view a) ops (start + 1) = img_run (disk_img (ca_disk a)) ops (start + 1)) as E1.
  { rewrite Ec. unfold ops. rewrite take_commit_ops. cbv zeta. rewrite !decide_False by lia. rewrite decide_True by lia.
    rewrite Nat.sub_diag, take_0. cbn [home_ops fmap list_fmap]. rewrite app_nil_r. unfold committed_img.
    rewrite !img_run_app. cbn [img_run foldl]. rewrite !img_apply_ne by lia.
    replace (start + 1) with (start + Z.of_nat (0 + 0) + 1) by lia. 
    etransitivity; [|symmetry]; apply (wl_entry start (ca_view a) 0 (e0 :: es) _ 0 e0 eq_refl). }
  cbv zeta in Hb. rewrite E1, Ec in Hb. change (img_run ?x [?o]) with (img_apply x o) in Hb.
  set (img := img_apply _ _) in Hb.
  destruct (cut_img_ok start lsize _ _ _ (S (length es) + 2) Htx) as [Hok Ho].
  change (cut_img start (ca_view a) (disk_img (ca_disk a)) (e0 :: es) (S (length es) + 2))
    with (img_run (disk_img (ca_disk a)) ops) in Hok, Ho. rewrite Ec in Hok, Ho.
  assert (0 < lsize - 1) as Hls by (pose proof (tx_fits _ _ _ _ _ Htx) as Hf; simpl in Hf; lia).
  assert (img 1 = ca_view a 1) as Ev.
  { unfold img. rewrite img_apply_ne by (intros E2; apply Hla; unfold log_area; lia).
    rewrite (committed_other start lsize _ _ _ Htx) by done. symmetry. by apply Htx. }
  destruct (boot_log_spec pid' d img start lsize Hb) as (s2 & a2 & Eb & Hl2 & Hv & _);
    rewrite ?Ev; try assumption; try apply (lp_geom _ _ _ _ _ _ Hl).
  { apply img_ok_write; [done|]. by apply flip0_ok. }
  { unfold img. by rewrite img_apply_ne by lia. }
  exists s2, a2. split; [exact Eb|]. split; [exact Hl2|]. intros n Hn'. rewrite Hv.
  by apply (recover_flip0 start lsize).
Qed.

(** The header a commit writes names its entries. *)
Lemma commit_header_entries start lsize view img es :
  txn_ok start lsize view img es →
  hd_n (hdr_encode (seal view <$> es) (view start)) = Z.of_nat (length es) ∧
  hdr_entries (hdr_encode (seal view <$> es) (view start)) = seal view <$> es.
Proof.
  intros Htx. rewrite <- (length_fmap (seal view) es).
  apply hdr_entries_encode; [rewrite length_fmap; apply Htx|apply Htx|eapply seal_words, Htx].
Qed.

(** Where the header write stands among the commands of a commit, and what
    comes after it. *)
Lemma commit_ops_header start view es :
  ∃ hd, commit_ops start view es !! (length es + 1)%nat = Some (DWrite start hd) ∧
    hd_n hd = hd_n (hdr_encode (seal view <$> es) (view start)).
Proof.
  eexists. split; [|reflexivity]. unfold commit_ops.
  rewrite lookup_app_r by (rewrite length_wl_ops; lia). rewrite length_wl_ops.
  by replace (length es + 1 - length es)%nat with 1%nat by lia.
Qed.

Lemma wl_ops_above start view i es o :
  o ∈ wl_ops start view i es → ∃ b v, o = DWrite b v ∧ start < b.
Proof.
  revert i. induction es as [|e es IH]; intros i; cbn [wl_ops]; [by intros ?%elem_of_nil|].
  intros [->|Ho]%elem_of_cons; [|by eapply IH]. eexists _, _. split; [done|lia].
Qed.

Lemma commit_ops_before start view es i v :
  (i < length es + 1)%nat → commit_ops start view es !! i ≠ Some (DWrite start v).
Proof.
  intros Hi E. unfold commit_ops in E. destruct (decide (i < length es)%nat).
  - rewrite lookup_app_l in E by (rewrite length_wl_ops; lia).
    apply list_elem_of_lookup_2, wl_ops_above in E as (b & w & [= <- _] & Hb). lia.
  - rewrite lookup_app_r in E by (rewrite length_wl_ops; lia). rewrite length_wl_ops in E.
    replace (i - length es)%nat with 0%nat in E by lia. done.
Qed.

(** The block installed first leaves the log area. *)
Lemma commit_ops_install start lsize view img es k :
  txn_ok start lsize view img es → es ≠ [] →
  (∀ b v, DWrite b v ∈ take k (commit_ops start view es) → log_area start lsize b) →
  (k ≤ length es + 2)%nat.
Proof.
  intros Htx Hne Hin. destruct (decide (k ≤ length es + 2)%nat); [done|exfalso].
  destruct es as [|e es]; [done|]. apply (not_ent start lsize _ _ _ Htx (e_block e)); [|by left].
  eapply (Hin _ (view (e_block e))). apply (list_elem_of_lookup_2 _ (length (e :: es) + 2)).
  rewrite lookup_take_lt by lia. unfold commit_ops.
  rewrite lookup_app_r by (rewrite length_wl_ops; lia). rewrite length_wl_ops.
  by replace (length (e :: es) + 2 - length (e :: es))%nat with 2%nat by lia.
Qed.

(** The next boot after a power failure between barrier and first install. *)
Lemma boot_after_cache_crash pid s a start lsize es k img pid' (d : D) :
  lrep pid s a start lsize es → sb_names (ca_view a) start lsize es →
  (length es + 1 ≤ k ≤ length es + 2)%nat →
  cache_crash (d_base (ca_disk a)) (d_ops (ca_disk a) ++ take k (commit_ops start (ca_view a) es)) img →
  boots d img →
  ∃ s2 a2, boot_log pid' d = Ret tt s2 ∧ lrep pid' s2 a2 start lsize [] ∧
    (same_outside start lsize (ca_view a2) (disk_img (ca_disk a)) ∨
     same_outside start lsize (ca_view a2) (ca_view a)).
Proof.
  intros Hl (Hs & Hn & Hla & H1n) Hk Hcr Hb. pose proof (lp_txn _ _ _ _ _ _ Hl) as Htx.
  destruct (barrier_cut start lsize _ es _ _ img k Htx Hk Hcr) as [k' Hk'].
  assert (∀ n, img n = cut_img start (ca_view a) (disk_img (ca_disk a)) es k' n) as Hi by exact Hk'.
  destruct (cut_img_ok start lsize _ _ _ k' Htx) as [Hok Ho].
  assert (img 1 = ca_view a 1) as E1.
  { rewrite Hi, (cut_other start lsize) by done. symmetry. by apply Htx. }
  destruct (boot_log_spec pid' d img start lsize Hb) as (s2 & a2 & Eb & Hl2 & Hv & _);
    try apply (lp_geom _ _ _ _ _ _ Hl); rewrite ?E1, ?Hi; try assumption.
  { intros n. by rewrite Hi. }
  exists s2, a2. split; [exact Eb|]. split; [exact Hl2|].
  pose proof (commit_ops_atomic start lsize _ _ es Htx k') as Hat. cbv zeta in Hat.
  case_decide; [right|left]; intros n Hn'; rewrite Hv, (recover_ext _ _ _ Hk'); by apply Hat.
Qed.

(** C6. The write barrier of [commit] does its work.  [commit] returns; its
    first write of the log header is its [j]-th disk command; and if power
    fails at any moment from just before that write until the first write
    outside the log area, on a drive whose write cache keeps any of the writes
    issued since the last FLUSH CACHE and loses the others, then the reboot
    finds either the old contents of every block outside the log or the new
    ones. *)
Theorem barrier_protects_log pid s a start lsize es :
  lrep pid s a start lsize es → es ≠ [] → crash_at_phase s = 0 →
  sb_names (ca_view a) start lsize es →
  ∃ s' ops j hd, commit pid s = Ret tt s' ∧
    drv_disk (bs_drv (l_bio s')) ROOTDEV = mk_disk (d_base (ca_disk a)) (d_ops (ca_disk a) ++ ops) ∧
    ops !! j = Some (DWrite start hd) ∧ hd_n hd = Z.of_nat (length es) ∧
    (∀ i v, (i < j)%nat → ops !! i ≠ Some (DWrite start v)) ∧
    ∀ k img pid' (d : D), (j ≤ k)%nat →
      (∀ b v, DWrite b v ∈ take k ops → log_area start lsize b) →
      cache_crash (d_base (ca_disk a)) (d_ops (ca_disk a) ++ take k ops) img → boots d img →
      ∃ s2 a2, boot_log pid' d = Ret tt s2 ∧ lrep pid' s2 a2 start lsize [] ∧
        (same_outside start lsize (ca_view a2) (disk_img (ca_disk a)) ∨
         same_outside start lsize (ca_view a2) (ca_view a)).
Proof.
  intros Hl Hne Hp Hsb. pose proof (lp_txn _ _ _ _ _ _ Hl) as Htx.
  destruct (commit_spec pid s a start lsize es Hl Hne) as (s' & E & _ & Hc & _); [rewrite Hp; set_solver|].
  destruct (commit_ops_header start (ca_view a) es) as (hd & Ehd & Hn).
  exists s', (commit_ops start (ca_view a) es), (length es + 1)%nat, hd.
  split; [exact E|]. split; [apply (cr_disk _ _ _ Hc)|]. split; [exact Ehd|]. split.
  { rewrite Hn. destruct (commit_header_entries _ _ _ _ _ Htx) as [-> _]. done. }
  split; [intros i v Hi; by apply commit_ops_before|]. intros k img pid' d Hk Hin Hcr Hb.
  eapply boot_after_cache_crash; eauto. split; [done|]. by eapply commit_ops_install.
Qed.

End main.

(** ** Instances *)

Lemma ex_sb_names a e : ca_view a 1 = ex_img 1 → e_block e = 100 → sb_names (ca_view a) 2 30 [e].
Proof.
  intros E Hb. unfold sb_names. rewrite E, ex_sb_decode. split_and!; try done.
  - unfold log_area. lia.
  - rewrite list_fmap_singleton, Hb. set_solver.
Qed.

Lemma journal_crash_atomic_witness : ∃ (s s' : lstate ide_state), commit 1 s = Ret tt s'.
Proof.
  destruct (ex_txn 0) as (s & a & e & Hl & Hp & _ & _ & Hb & _ & _ & Hv).
  destruct (journal_crash_atomic 1 s a 2 30 [e] Hl ltac:(done) Hp (ex_sb_names _ _ Hv Hb)) as (s' & _ & E & _).
  exists s, s'. exact E.
Defined.

Lemma crash_phases_witness : ∃ (s s' : lstate ide_state) msg, commit 1 s = Panicked msg s'.
Proof.
  destruct (ex_txn 2) as (s & a & e & Hl & Hp & _ & _ & Hb & _ & _ & Hv).
  destruct (crash_phases 1 s a 2 30 [e] Hl ltac:(done) (or_intror Hp) (ex_sb_names _ _ Hv Hb)) as (msg & s' & E & _).
  exists s, s', msg. exact E.
Defined.

Lemma recovery_restartable_witness :
  ∃ img s, hd_n (img 2) = 1 ∧ boot_log 1 (ex_ide img) = Ret tt s.
Proof.
  destruct (ex_txn 0) as (s0 & a & e & Hl & _ & _ & _ & Hb & _ & _ & Hv).
  pose proof (lp_txn _ _ _ _ _ _ Hl) as Htx. destruct (ex_sb_names _ _ Hv Hb) as (Hs & Hn & Hla & H1n).
  set (img := cut_img 2 (ca_view a) (disk_img (ca_disk a)) [e] 3).
  destruct (cut_img_ok 2 30 _ _ _ 3 Htx) as [Hok Ho]. fold img in Hok, Ho.
  assert (img 1 = ca_view a 1) as E1.
  { unfold img. rewrite (cut_other 2 30) by done. symmetry. by apply Htx. }
  assert (hd_n (img 2) = 1 ∧ hdr_entries (img 2) = seal (ca_view a) <$> [e]) as [En Ee].
  { unfold img, cut_img. rewrite take_commit_ops. cbv zeta. rewrite !decide_False by (simpl; lia).
    rewrite decide_True by (simpl; lia). cbn [Nat.sub Nat.add length take home_ops fmap list_fmap].
    rewrite app_nil_r, img_run_app. cbn [img_run foldl]. rewrite img_apply_eq.
    apply (commit_header_entries _ _ _ _ _ Htx). }
  destruct (recovery_restartable 1 (ex_ide img) (ex_ide (img_run img [])) img 2 30 0) as (s & _ & _ & E & _).
  - apply ex_boots.
  - exact Hok.
  - lia.
  - unfold FSSIZE. lia.
  - exact Hla.
  - by rewrite E1.
  - by rewrite E1.
  - exact Ho.
  - rewrite Ee. cbn. rewrite Hb. set_solver.
  - exists img, s. split; [exact En|exact E].
Defined.

Lemma end_op_commits_witness : ∃ (s s' : lstate ide_state), end_op 1 s = Ret tt s' ∧ l_outstanding s' = 0.
Proof.
  destruct (ex_txn 0) as (s & a & e & Hl & Hp & Ho & Hc & _).
  destruct (end_op_commits 1 s a 2 30 [e] Hl Ho Hc) as (s' & _ & E & _ & Ho' & _); [rewrite Hp; set_solver|].
  exists s, s'. split; [exact E|exact Ho'].
Defined.

Lemma fault_injection_witness : ∃ (s s' : lstate ide_state) msg, commit 1 s = Panicked msg s'.
Proof.
  destruct (ex_txn 3) as (s & a & e & Hl & Hp & _ & _ & Hb & _ & _ & Hv).
  destruct (fault_injection 1 s a 2 30 e [] Hl Hp (ex_sb_names _ _ Hv Hb)) as (msg & s' & E & _).
  exists s, s', msg. exact E.
Defined.

Lemma log_write_records_witness : ∃ (s s' : lstate ide_state) i, log_write i 8 4 1 s = Ret tt s'.
Proof.
  destruct (ex_open 0) as (s & a & i & Hl & _ & Ho & _ & Hh & _ & Hv & Hk & _).
  destruct (log_write_records 1 s a 2 30 [] {[100]} 100 i 8 4 zero_block Hl) as (s' & _ & E & _).
  - rewrite Hh. apply lookup_singleton_eq.
  - unfold log_area. lia.
  - unfold range_ok, BSIZE. lia.
  - simpl. lia.
  - simpl. lia.
  - lia.
  - rewrite Hk. apply ex_covers.
  - intros k. rewrite Hv. apply ex_data_change.
  - exists s, s', i. exact E.
Defined.

Lemma barrier_protects_log_witness :
  ∃ (s s' : lstate ide_state) s2 d, commit 1 s = Ret tt s' ∧ boot_log 1 (d : ide_state) = Ret tt s2.
Proof.
  destruct (ex_txn 0) as (s & a & e & Hl & Hp & _ & _ & Hb & _ & _ & Hv).
  destruct (barrier_protects_log 1 s a 2 30 [e] Hl ltac:(done) Hp (ex_sb_names _ _ Hv Hb))
    as (s' & ops & j & hd & E & Ed & Ej & _ & Hj & Hcut).
  destruct (commit_spec 1 s a 2 30 [e] Hl ltac:(done)) as (s1 & E1 & _ & Hc & _); [rewrite Hp; clear; set_solver|].
  rewrite E in E1. injection E1 as <-.
  pose proof (cr_disk _ _ _ Hc) as Ed'. rewrite Ed in Ed'. injection Ed' as Eo. apply app_inv_head in Eo.
  subst ops. set (ops := d_ops (ca_disk a) ++ take 2 (commit_ops 2 (ca_view a) [e])).
  assert (j ≤ 2)%nat as Hj2.
  { destruct (decide (j ≤ 2)%nat); [done|]. exfalso.
    eapply (Hj 2%nat); [lia|]. reflexivity. }
  destruct (Hcut 2%nat (img_run (d_base (ca_disk a)) ops) 1 (ex_ide (img_run (d_base (ca_disk a)) ops)) Hj2)
    as (s2 & _ & E2 & _).
  - intros b v Hin. apply elem_of_cons in Hin as [[= -> _]|Hin]; [unfold log_area; lia|].
    apply elem_of_cons in Hin as [?|Hin]; [done|by apply elem_of_nil in Hin].
  - apply (cache_crash_intro _ _ _ ops []); [by rewrite app_nil_r| |done|by left].
    right. unfold ops. eexists (_ ++ [_]). rewrite <- app_assoc. reflexivity.
  - apply ex_boots.
  - eexists s, s', s2, _. split; [exact E|exact E2].
Defined.

(** ** Where the code falls short *)

(** Two blocks whose first byte a transaction sets. *)
Definition two_view (n : Z) : block :=
  if (n =? 100) || (n =? 101) then splice 0 [1] zero_block else zero_block.
Definition two_ents : list lent := [mk_lent 100 0 1 0; mk_lent 101 0 1 0].

Lemma two_block_ok : block_ok (splice 0 [1] zero_block).
Proof.
  apply block_ok_splice; [change (Z.to_nat BSIZE) with 512%nat; simpl; lia| |apply zero_block_ok].
  repeat constructor; lia.
Qed.

Lemma two_txn : txn_ok 2 30 two_view (λ _, zero_block) two_ents.
Proof.
  split.
  - intros n. unfold two_view. case_match; [apply two_block_ok|apply zero_block_ok].
  - intros n. apply zero_block_ok.
  - repeat constructor; simpl; unfold FSSIZE, BSIZE, log_area; lia.
  - simpl. repeat constructor; set_solver.
  - simpl. lia.
  - simpl. lia.
  - assert (∀ c b, agree (mk_lent b 0 1 c) (splice 0 [1] zero_block) zero_block) as Ha.
    { intros c b i Hi. simpl in Hi. rewrite lookup_splice; [|destruct zero_block_ok as [-> _]; change (Z.to_nat BSIZE) with 512%nat; simpl; lia].
      rewrite decide_False; [done|]. simpl. lia. }
    intros e He. unfold two_ents in He. apply elem_of_cons in He as [->|He]; [apply Ha|].
    apply list_elem_of_singleton in He as ->. apply Ha.
  - intros b Hb. unfold two_view. simpl in Hb. rewrite !not_elem_of_cons in Hb. destruct Hb as (H1 & H2 & _).
    rewrite (proj2 (Z.eqb_neq _ _) H1), (proj2 (Z.eqb_neq _ _) H2). done.
  - apply hd_n_zero.
Qed.

(** One barrier is not enough: on a drive with a volatile write cache the
    commands [commit] issues after its only barrier (the header, the installs,
    the cleared header) may reach the medium in any order, and a power failure
    can leave a disk from which recovery restores neither the old nor the new
    contents, half of the transaction being installed. *)
Theorem install_unbarriered :
  ∃ start size view img0 es img,
    txn_ok start size view img0 es ∧ cache_crash img0 (commit_ops start view es) img ∧
    ¬ same_outside start size (recover_img start img) img0 ∧
    ¬ same_outside start size (recover_img start img) view.
Proof.
  set (img := <[100 := splice 0 [1] zero_block]> (img_run (λ _, zero_block) (wl_ops 2 two_view 0 two_ents))).
  assert (img 2 = zero_block) as Hz by (unfold img; by rewrite fn_lookup_insert_ne).
  assert (∀ n, n ≠ 2 → recover_img 2 img n = img n) as Hrec.
  { intros n Hn. apply recover_clean; [|done]. rewrite Hz. apply hd_n_zero. }
  exists 2, 30, two_view, (λ _, zero_block), two_ents, img. split; [apply two_txn|]. split; [|split].
  - unfold commit_ops. rewrite (app_assoc _ [DFlush; _]).
    apply (cache_crash_intro _ _ _ (wl_ops 2 two_view 0 two_ents ++ [DFlush])
      ([DWrite 2 (hdr_encode (seal two_view <$> two_ents) (two_view 2))] ++ home_ops two_view two_ents ++
       [DWrite 2 (wr32 0 0 (hdr_encode (seal two_view <$> two_ents) (two_view 2)))])).
    + by rewrite <- !app_assoc.
    + right. eauto.
    + done.
    + intros b. destruct (decide (100 = b)) as [<-|Hne].
      * right. exists (splice 0 [1] zero_block). split; [right; left; done|]. unfold img. apply fn_lookup_insert.
      * left. unfold img. rewrite fn_lookup_insert_ne by done. by rewrite img_run_app.
  - intros Hs. specialize (Hs 100 ltac:(unfold log_area; lia)). rewrite Hrec in Hs by done.
    unfold img in Hs. rewrite fn_lookup_insert in Hs. done.
  - intros Hs. specialize (Hs 101 ltac:(unfold log_area; lia)). rewrite Hrec in Hs by done.
    unfold img in Hs. rewrite fn_lookup_insert_ne in Hs by done. done.
Qed.

(** A header that claims 31 entries. *)
Definition bad_img (n : Z) : block := if n =? 2 then wr32 0 31 zero_block else ex_img n.

(** Recovery trusts the entry count on the disk: a header block that claims
    more than [LOGSIZE] entries makes [read_head] write past the end of the
    in-memory log. *)
Theorem header_count_unchecked :
  (initlog ROOTDEV) 1 (log_boot (mk_bstate (binit (replicate (S NBUF) buf_zero)) (ex_ide bad_img))) =
    Undefined "array index".
Proof. vm_compute. reflexivity. Qed.
