(* ===== verification/LogReserve.v ===== *)
(** * Log space reservation

    [begin_op] admits an operation only if the log has room for [MAXOPBLOCKS]
    more blocks for it and for every other operation in progress.  The
    processes inside operations, each with the number of new blocks it may
    still log, are a transition system over the journal code; its invariant
    bounds the number of entries. *)

From S2P Require Import Prelude Layout Sleeplock Disk Ide Bio BioSpec Crc32 Log LogImg LogSpec LogTxn LogCrash Journal.

(** ** Code that leaves a part of the state alone *)

Definition keeps {S A B} (f : S → B) (m : M S A) : Prop :=
  ∀ pid s a s', m pid s = Ret a s' → f s' = f s.

Create HintDb keeps discriminated.

Section keeps.
Context {S B : Type} (f : S → B).

Lemma keeps_bind {A C} (m : M S A) (k : A → M S C) :
  keeps f m → (∀ a, keeps f (k a)) → keeps f (m ≫= k).
Proof.
  intros Hm Hk pid s c s' (a & s1 & E1 & E2)%bind_inv_Ret.
  rewrite (Hk a _ _ _ _ E2). by eapply Hm.
Qed.

Lemma keeps_ret {A} (a : A) : keeps f (mret a).
Proof. intros pid s a' s' E. by injection E as _ <-. Qed.
Lemma keeps_get : keeps f get.
Proof. intros pid s a' s' E. by injection E as _ <-. Qed.
Lemma keeps_gets {A} (g : S → A) : keeps f (gets g).
Proof. intros pid s a' s' E. by injection E as _ <-. Qed.
Lemma keeps_mypid : keeps f mypid.
Proof. by intros pid s a s' [= _ <-]. Qed.
Lemma keeps_sleep_on {A} c : keeps f (sleep_on (A := A) c).
Proof. by intros pid s a s' E. Qed.
Lemma keeps_panic {A} msg : keeps f (panic (A := A) msg).
Proof. by intros pid s a' s' E. Qed.
Lemma keeps_undef {A} msg : keeps f (undef (A := A) msg).
Proof. by intros pid s a' s' E. Qed.
Lemma keeps_modify g : (∀ s, f (g s) = f s) → keeps f (modify g).
Proof. intros Hg pid s a' s' E. inversion E; subst. apply Hg. Qed.

Lemma keeps_aget {A} (l : list A) i : keeps f (aget l i).
Proof. unfold aget. case_match; [apply keeps_ret|apply keeps_undef]. Qed.
Lemma keeps_aset {A} (l : list A) i v : keeps f (aset l i v).
Proof. unfold aset. case_match; [apply keeps_ret|apply keeps_undef]. Qed.
Lemma keeps_orundef {A} (o : option A) : keeps f (orundef o).
Proof. unfold orundef. case_match; [apply keeps_ret|apply keeps_undef]. Qed.

Lemma keeps_forM {A} (l : list A) (body : A → M S unit) :
  (∀ x, keeps f (body x)) → keeps f (forM l body).
Proof.
  intros Hb. induction l as [|x l IH]; simpl; [apply keeps_ret|].
  apply keeps_bind; [apply Hb|]. by intros [].
Qed.

Lemma keeps_lift {T A} `{Lens S T} (m : M T A) : (∀ t s, f (lput t s) = f s) → keeps f (lift m).
Proof.
  intros Hf pid s a s' E. unfold lift in E. destruct (m pid (lget s)); try done.
  injection E as _ <-. apply Hf.
Qed.
End keeps.

#[export] Hint Resolve keeps_ret keeps_get keeps_gets keeps_mypid keeps_sleep_on keeps_panic keeps_undef keeps_aget
  keeps_aset keeps_orundef : keeps.
Ltac keeps :=
  repeat (intros; first
    [ solve [auto with keeps] | apply keeps_bind | apply keeps_forM
    | apply keeps_lift; reflexivity | apply keeps_modify; reflexivity | case_match ]).

(** Code without a panic. *)
Definition quiet {S A} (m : M S A) : Prop := ∀ pid s msg s', m pid s ≠ Panicked msg s'.

Lemma quiet_bind {S A B} (m : M S A) (k : A → M S B) : quiet m → (∀ a, quiet (k a)) → quiet (m ≫= k).
Proof.
  intros Hm Hk pid s msg s'. unfold mbind, M_bind. pose proof (Hm pid s) as Hp.
  destruct (m pid s) eqn:E; try done; [apply Hk|]. intros [= -> ->]. by apply (Hp msg s').
Qed.
Lemma quiet_lift {S T A} `{Lens S T} (m : M T A) : quiet m → quiet (lift (S := S) m).
Proof.
  intros Hm pid s msg s' E. unfold lift in E. pose proof (Hm pid (lget s)) as Hp.
  destruct (m pid (lget s)); try done. by eapply Hp.
Qed.
Ltac quiet :=
  repeat (intros; first
    [ done | apply quiet_bind | apply quiet_lift | case_match
    | progress unfold aget, aset, bset_dirty, lh_upd ]).

Section reserve.
Context {D : Type} `{DiskFlush D}.
Implicit Types (s : lstate D).

(** The counters [begin_op] decides on. *)
Definition counters s : Z * Z := (lh_n (l_lh s), l_outstanding s).

Lemma keeps_write_log : keeps counters (write_log (D := D)).
Proof. unfold write_log, write_log_one, log_crc32, lh_upd, js_upd. keeps. Qed.
Lemma keeps_write_head : keeps counters (write_head (D := D)).
Proof. unfold write_head, write_head_one. keeps. Qed.
Lemma keeps_install_trans : keeps counters (install_trans (D := D)).
Proof. unfold install_trans, install_one, log_crc32, lh_upd, js_upd. keeps. Qed.
Lemma keeps_corrupt_log : keeps counters (corrupt_log (D := D)).
Proof. unfold corrupt_log. keeps. Qed.
#[local] Hint Resolve keeps_write_log keeps_write_head keeps_install_trans keeps_corrupt_log : keeps.

Lemma keeps_js_upd g : keeps counters (js_upd (D := D) g).
Proof. unfold js_upd. keeps. Qed.
#[local] Hint Resolve keeps_js_upd : keeps.

(** Replaces the run of code that keeps the counters by their equality. *)
Ltac keep_counters :=
  repeat match goal with
  | E : ?m ?pid ?x = Ret ?r ?y |- _ =>
      let K := fresh "K" in
      assert (keeps counters m) as K by keeps; apply K in E; clear K
  end.

(** [commit] empties the log, or leaves an empty one. *)
Lemma commit_counters pid s s' :
  commit pid s = Ret tt s' →
  l_outstanding s' = l_outstanding s ∧ (lh_n (l_lh s') = 0 ∨ lh_n (l_lh s') = lh_n (l_lh s)).
Proof.
  intros E. unfold commit in E. rewrite (bind_Ret get _ pid s s s eq_refl) in E.
  destruct (0 <? lh_n (l_lh s)); [|injection E as <-; auto].
  repeat (apply bind_inv_Ret in E as (? & ? & ? & E)).
  match goal with Hz : lh_upd (lh_set_n 0) pid ?x = Ret _ ?y |- _ => inversion Hz; subst; clear Hz end.
  keep_counters. unfold counters in *. simpl in *. simplify_eq. split; [congruence|left; congruence].
Qed.

Lemma end_op_counters pid s s' :
  end_op pid s = Ret tt s' →
  l_outstanding s' = l_outstanding s - 1 ∧ (lh_n (l_lh s') = 0 ∨ lh_n (l_lh s') = lh_n (l_lh s)).
Proof.
  intros E. unfold end_op, wakeup_log in E. munfold. revert E.
  case_match; [done|]. case_match.
  - destruct (commit pid _) as [[] s1| | |] eqn:Ec; try done. intros [= <-]. simpl.
    apply commit_counters in Ec. simpl in Ec. done.
  - intros [= <-]. simpl. auto.
Qed.

Lemma log_write_counters bp offset len pid s s' :
  log_write bp offset len pid s = Ret tt s' →
  l_outstanding s' = l_outstanding s ∧
  (lh_n (l_lh s') = lh_n (l_lh s) ∨ lh_n (l_lh s') = lh_n (l_lh s) + 1).
Proof.
  intros E. unfold log_write in E. rewrite (bind_Ret get _ pid s s s eq_refl) in E. cbv zeta in E.
  case_match; [done|]. case_match; [done|].
  apply bind_inv_Ret in E as (b & s1 & E1 & E). apply bind_inv_Ret in E as ([] & s2 & E2 & E).
  keep_counters. unfold counters in *. case_match.
  - repeat (apply bind_inv_Ret in E2 as (? & ? & ? & E2)). inversion E2; subst. clear E2.
    keep_counters. unfold counters in *. simpl in *. simplify_eq. split; [congruence|left; congruence].
  - repeat (apply bind_inv_Ret in E2 as (? & ? & ? & E2)). inversion E2; subst. clear E2.
    keep_counters. unfold counters in *. simpl in *. simplify_eq. split; [congruence|right; congruence].
Qed.

(** ** Operations in progress *)

(** The journal, and for each process inside an operation the number of new
    blocks it may still log. *)
Definition rsv : Type := lstate D * list (Z * Z).

Inductive rsv_step : rsv → rsv → Prop :=
| rsv_begin pid s s' ops :
    begin_op pid s = Ret tt s' → rsv_step (s, ops) (s', (pid, MAXOPBLOCKS) :: ops)
| rsv_write pid s s' bp offset len k o1 o2 :
    log_write bp offset len pid s = Ret tt s' → lh_n (l_lh s') - lh_n (l_lh s) ≤ k →
    rsv_step (s, o1 ++ (pid, k) :: o2) (s', o1 ++ (pid, k - (lh_n (l_lh s') - lh_n (l_lh s))) :: o2)
| rsv_end pid s s' k o1 o2 :
    end_op pid s = Ret tt s' → rsv_step (s, o1 ++ (pid, k) :: o2) (s', o1 ++ o2)
| rsv_cache s b ops : rsv_step (s, ops) (l_set_bio b s, ops).

Definition rsv_init (r : rsv) : Prop := counters r.1 = (0, 0) ∧ r.2 = [].

Definition total (ops : list (Z * Z)) : Z := foldr (λ o n, o.2 + n) 0 ops.

Definition rsv_inv (r : rsv) : Prop :=
  0 ≤ lh_n (l_lh r.1) ∧ l_outstanding r.1 = Z.of_nat (length r.2) ∧
  Forall (λ o, 0 ≤ o.2 ≤ MAXOPBLOCKS) r.2 ∧ lh_n (l_lh r.1) + total r.2 ≤ LOGSIZE.

Lemma total_cons o ops : total (o :: ops) = o.2 + total ops.
Proof. done. Qed.
#[local] Arguments total : simpl never.

Lemma total_app o1 o2 : total (o1 ++ o2) = total o1 + total o2.
Proof. induction o1; simpl; rewrite ?total_cons; unfold total in *; simpl in *; lia. Qed.

Lemma total_bounds ops :
  Forall (λ o, 0 ≤ o.2 ≤ MAXOPBLOCKS) ops → 0 ≤ total ops ≤ MAXOPBLOCKS * Z.of_nat (length ops).
Proof. induction 1; simpl; rewrite ?total_cons; [done|]. lia. Qed.

Lemma rsv_step_inv r r' : rsv_step r r' → rsv_inv r → rsv_inv r'.
Proof.
  intros Hs (Hn & Ho & Hf & Ht). unfold rsv_inv. destruct Hs as [pid s s' ops E|pid s s' bp off len k o1 o2 E Hk|pid s s' k o1 o2 E|s b ops]; simpl in *.
  - rewrite begin_op_eq in E. case_match eqn:G; [done|]. injection E as <-. simpl.
    apply orb_false_iff in G as [_ G]. pose proof (total_bounds _ Hf).
    split; [done|]. split; [lia|]. split; [constructor; [simpl; unfold MAXOPBLOCKS; lia|done]|].
    rewrite total_cons. simpl. unfold MAXOPBLOCKS, LOGSIZE in *. lia.
  - apply log_write_counters in E as [Eo En]. rewrite Eo. rewrite total_app, total_cons in *. simpl in *.
    rewrite length_app in *. simpl in *. apply Forall_app in Hf as [Hf1 Hf2]. inversion Hf2; subst. simpl in *.
    split; [lia|]. split; [done|]. split; [|lia].
    apply Forall_app. split; [done|]. constructor; [simpl; lia|done].
  - apply end_op_counters in E as [Eo En]. rewrite Eo, total_app in *. rewrite total_cons in *. simpl in *.
    rewrite length_app in *. simpl in *. apply Forall_app in Hf as [Hf1 Hf2]. inversion Hf2; subst. simpl in *.
    pose proof (total_bounds _ Hf1). pose proof (total_bounds o2 ltac:(done)).
    split; [lia|]. split; [lia|]. split; [by apply Forall_app|]. lia.
  - done.
Qed.

Lemma rsv_reach_inv r0 r : rsv_init r0 → rtc rsv_step r0 r → rsv_inv r.
Proof.
  intros [Hc He] Hr. assert (rsv_inv r0) as Hi.
  { unfold counters in Hc. injection Hc as E1 E2. unfold rsv_inv. rewrite He, E1, E2.
    split; [lia|]. split; [done|]. split; [constructor|]. done. }
  clear Hc He. induction Hr; [done|]. eauto using rsv_step_inv.
Qed.

(** C5. The reservation of [begin_op] is sound: in every state the journal
    reaches by operations that each log at most [MAXOPBLOCKS] new blocks, an
    operation that has not used up its share finds room in the in-memory log;
    and when the log on disk has a block for every entry beside the header,
    its [log_write] never panics with "transaction too large". *)
Theorem reservation_sound r0 s ops pid k bp offset len :
  rsv_init r0 → rtc rsv_step r0 (s, ops) → (pid, k) ∈ ops → 0 < k →
  lh_n (l_lh s) < LOGSIZE ∧
  (LOGSIZE < l_size s → ∀ s', log_write bp offset len pid s ≠ Panicked "log_write: transaction too large" s').
Proof.
  intros Hi Hr Hin Hk. destruct (rsv_reach_inv _ _ Hi Hr) as (Hn & Ho & Hf & Ht). simpl in *.
  assert (lh_n (l_lh s) < LOGSIZE) as Hlt.
  { apply list_elem_of_split in Hin as (o1 & o2 & ->). rewrite total_app, total_cons in Ht. simpl in Ht.
    apply Forall_app in Hf as [Hf1 Hf2]. inversion Hf2; subst.
    pose proof (total_bounds _ Hf1). pose proof (total_bounds o2 ltac:(done)). lia. }
  split; [done|]. intros Hsz s' E. unfold log_write in E.
  rewrite (bind_Ret get _ pid s s s eq_refl) in E. cbv zeta in E.
  replace (LOGSIZE <=? lh_n (l_lh s)) with false in E by lia.
  replace (l_size s - 1 <=? lh_n (l_lh s)) with false in E by lia. simpl in E.
  case_match; [done|]. revert E. apply quiet_bind; [apply quiet_lift; unfold bufat; quiet|].
  intros b. quiet.
Qed.

End reserve.

(** Boot with a log of 31 blocks, one operation begun. *)
Lemma reservation_sound_witness :
  let s0 := l_set_geom 2 31 ROOTDEV (log_boot (mk_bstate binit_bufs (ex_ide ex_img))) in
  ∃ s1, begin_op 1 s0 = Ret tt s1 ∧ lh_n (l_lh s1) < LOGSIZE ∧
    ∀ s', log_write 0 0 4 1 s1 ≠ Panicked "log_write: transaction too large" s'.
Proof.
  intros s0. set (s1 := l_set_batch_size 1 (l_set_outstanding 1 s0)).
  exists s1. split; [reflexivity|].
  destruct (reservation_sound (s0, []) s1 [(1, MAXOPBLOCKS)] 1 MAXOPBLOCKS 0 0 4) as [Hn Hp].
  - split; reflexivity.
  - eapply rtc_l; [apply (rsv_begin 1); reflexivity|apply rtc_refl].
  - set_solver.
  - reflexivity.
  - split; [exact Hn|]. apply Hp. reflexivity.
Defined.

(** ** Where the reservation falls short *)

(** Change block [n] inside an operation. *)
Definition ex_write (n : Z) : M (lstate ide_state) unit :=
  i ← lift (bread ROOTDEV n);
  log_write i 0 4 ;;
  lift (brelse i).

(** Boot the disk mkfs makes and run [m]. *)
Definition ex_run {A} (m : M (lstate ide_state) A) : outcome (lstate ide_state) A :=
  (initlog ROOTDEV ;; m) 1 (log_boot (mk_bstate (binit (replicate (S NBUF) buf_zero)) (ex_ide ex_img))).

Definition panics_with {S A} (msg : string) (o : outcome S A) : bool :=
  match o with Panicked m _ => bool_decide (m = msg) | _ => false end.
Definition returns {S A} (o : outcome S A) (P : S → bool) : bool :=
  match o with Ret _ s => P s | _ => false end.

(** With the 30-block log mkfs makes, the reservation admits more than the
    log holds: three operations are admitted together and each logs
    [MAXOPBLOCKS] blocks, as [begin_op] allows; twenty-nine of the writes
    return and the thirtieth panics the kernel. *)
Theorem reservation_overrun :
  returns (ex_run (begin_op ;; begin_op ;; begin_op ;;
             forM (seqZ 100 10) ex_write ;; forM (seqZ 110 10) ex_write ;; forM (seqZ 120 9) ex_write))
    (λ s, lh_n (l_lh s) =? 29) = true ∧
  panics_with "log_write: transaction too large"
    (ex_run (begin_op ;; begin_op ;; begin_op ;;
             forM (seqZ 100 10) ex_write ;; forM (seqZ 110 10) ex_write ;; forM (seqZ 120 10) ex_write)) = true.
Proof. split; vm_compute; reflexivity. Qed.

(** The batch statistics do not measure concurrency: two operations that
    never overlap, the first of which only reads, are reported as one group
    commit of a batch of two, because a commit with nothing to write does not
    reset [batch_size]. *)
Theorem batch_size_accumulates :
  returns (ex_run (begin_op ;; end_op ;; begin_op ;; ex_write 100 ;; end_op))
    (λ s, (max_batch_size (jstats s) =? 2) && (group_commit_batches (jstats s) =? 1) &&
          (total_commits (jstats s) =? 1)) = true.
Proof. vm_compute. reflexivity. Qed.
