(* ===== verification/CString.v ===== *)
(** * Memory and string routines (string.c, ulib.c, stosb/stosl of x86.h)

    Memory is a function from addresses to bytes.  The routines that move
    memory run on it, so that overlapping regions behave as in the C loops;
    the routines that only read strings take the reader of a string, a
    function from offsets to bytes, which is a region of memory or an array. *)

From S2P Require Import Prelude Layout.

Notation mem := (Z → Z) (only parsing).

(** ** stosb, stosl, memset *)

Fixpoint stosb (addr data : Z) (cnt : nat) (m : mem) : mem :=
  match cnt with
  | O => m
  | S cnt' => stosb (addr + 1) data cnt' (<[addr := u8 data]> m)
  end.

(** A 32-bit store, least significant byte first. *)
Definition store32 (addr data : Z) (m : mem) : mem :=
  <[addr + 3 := u8 (Z.shiftr data 24)]>
    (<[addr + 2 := u8 (Z.shiftr data 16)]>
      (<[addr + 1 := u8 (Z.shiftr data 8)]> (<[addr := u8 data]> m))).

Fixpoint stosl (addr data : Z) (cnt : nat) (m : mem) : mem :=
  match cnt with
  | O => m
  | S cnt' => stosl (addr + 4) data cnt' (store32 addr data m)
  end.

Definition memset (dst c n : Z) (m : mem) : mem :=
  if (dst mod 4 =? 0) && (n mod 4 =? 0) then
    let c := Z.land c 0xFF in
    stosl dst (Z.lor (Z.lor (Z.lor (Z.shiftl c 24) (Z.shiftl c 16)) (Z.shiftl c 8)) c)
      (Z.to_nat (n / 4)) m
  else stosb dst c (Z.to_nat n) m.

(** [memset] of ulib.c *)
Definition umemset (dst c n : Z) (m : mem) : mem := stosb dst c (Z.to_nat n) m.

(** ** memmove *)

(** [while(n-- > 0) *d++ = *s++] *)
Fixpoint copy_fwd (d s : Z) (n : nat) (m : mem) : mem :=
  match n with
  | O => m
  | S n' => copy_fwd (d + 1) (s + 1) n' (<[d := m s]> m)
  end.

(** [while(n-- > 0) *--d = *--s] *)
Fixpoint copy_bwd (d s : Z) (n : nat) (m : mem) : mem :=
  match n with
  | O => m
  | S n' => copy_bwd (d - 1) (s - 1) n' (<[d - 1 := m (s - 1)]> m)
  end.

Definition memmove (dst src n : Z) (m : mem) : mem :=
  if (src <? dst) && (dst <? src + n)
  then copy_bwd (dst + n) (src + n) (Z.to_nat n) m
  else copy_fwd dst src (Z.to_nat n) m.

Definition memcpy (dst src n : Z) (m : mem) : mem := memmove dst src n m.

(** [memmove] of ulib.c *)
Definition umemmove (dst src n : Z) (m : mem) : mem := copy_fwd dst src (Z.to_nat n) m.

(** ** memcmp *)

Fixpoint memcmp (s1 s2 : nat → Z) (n : nat) : Z :=
  match n with
  | O => 0
  | S n' =>
      if negb (s1 0%nat =? s2 0%nat) then s1 0%nat - s2 0%nat
      else memcmp (λ i, s1 (S i)) (λ i, s2 (S i)) n'
  end.

(** ** Strings *)

Fixpoint strncmp (p q : nat → Z) (n : nat) : Z :=
  match n with
  | O => 0
  | S n' =>
      if negb (p 0%nat =? 0) && (p 0%nat =? q 0%nat)
      then strncmp (λ i, p (S i)) (λ i, q (S i)) n'
      else u8 (p 0%nat) - u8 (q 0%nat)
  end.

(** The bytes [strncpy(s, t, n)] stores. *)
Fixpoint strncpy (t : nat → Z) (n : nat) : list Z :=
  match n with
  | O => []
  | S n' =>
      let c := t 0%nat in
      c :: (if c =? 0 then replicate n' 0 else strncpy (λ i, t (S i)) n')
  end.

(** The bytes [safestrcpy(s, t, n)] stores: the copy loop for [n - 1] bytes,
    then the terminating NUL. *)
Fixpoint safestrcpy_loop (t : nat → Z) (n : nat) : list Z :=
  match n with
  | O => [0]
  | S n' =>
      let c := t 0%nat in
      c :: (if c =? 0 then [0] else safestrcpy_loop (λ i, t (S i)) n')
  end.
Definition safestrcpy (t : nat → Z) (n : Z) : list Z :=
  if n <=? 0 then [] else safestrcpy_loop t (Z.to_nat (n - 1)).

(** [strlen], with fuel: the length of the string when a NUL is found. *)
Fixpoint strlen (fuel : nat) (s : nat → Z) : option Z :=
  match fuel with
  | O => None
  | S fuel' =>
      if s 0%nat =? 0 then Some 0 else n ← strlen fuel' (λ i, s (S i)); Some (n + 1)
  end.

(** [strcmp] of ulib.c *)
Fixpoint strcmp (fuel : nat) (p q : nat → Z) : option Z :=
  match fuel with
  | O => None
  | S fuel' =>
      if negb (p 0%nat =? 0) && (p 0%nat =? q 0%nat)
      then strcmp fuel' (λ i, p (S i)) (λ i, q (S i))
      else Some (u8 (p 0%nat) - u8 (q 0%nat))
  end.

(** The bytes [strcpy(s, t)] of ulib.c stores. *)
Fixpoint strcpy (fuel : nat) (t : nat → Z) : option (list Z) :=
  match fuel with
  | O => None
  | S fuel' =>
      if t 0%nat =? 0 then Some [0]
      else l ← strcpy fuel' (λ i, t (S i)); Some (t 0%nat :: l)
  end.

(** [strchr] of ulib.c: the offset of the first occurrence. *)
Fixpoint strchr (fuel : nat) (s : nat → Z) (c : Z) : option (option nat) :=
  match fuel with
  | O => None
  | S fuel' =>
      if s 0%nat =? 0 then Some None
      else if s 0%nat =? c then Some (Some 0%nat)
      else r ← strchr fuel' (λ i, s (S i)) c; Some (option_map S r)
  end.

(** [atoi] of ulib.c, on 32-bit integers. *)
Fixpoint atoi_loop (fuel : nat) (s : nat → Z) (n : Z) : option Z :=
  match fuel with
  | O => None
  | S fuel' =>
      if (48 <=? s 0%nat) && (s 0%nat <=? 57)
      then atoi_loop fuel' (λ i, s (S i)) (s32 (n * 10 + s 0%nat - 48))
      else Some n
  end.
Definition atoi (fuel : nat) (s : nat → Z) : option Z := atoi_loop fuel s 0.

(** [gets] of ulib.c ([ugets] here): [input] is what successive one-byte reads of descriptor 0
    return, [None] for a result below one. *)
Fixpoint gets_loop (room : nat) (input : list (option Z)) : list Z * list (option Z) :=
  match room with
  | O => ([0], input)
  | S room' =>
      match input with
      | Some c :: input' =>
          if (c =? 10) || (c =? 13) then ([c; 0], input')
          else let '(l, rest) := gets_loop room' input' in (c :: l, rest)
      | None :: input' => ([0], input')
      | [] => ([0], [])
      end
  end.
Definition ugets (max : Z) (input : list (option Z)) : list Z * list (option Z) :=
  gets_loop (Z.to_nat (max - 1)) input.

(** ** Reference definitions *)

(** The string at a reader: [l], without NUL, then a NUL. *)
Definition cstr (s : nat → Z) (l : list Z) : Prop :=
  (∀ i c, l !! i = Some c → s i = c ∧ c ≠ 0) ∧ s (length l) = 0.

(** The characters before the first NUL among the first [n]. *)
Fixpoint cprefix (s : nat → Z) (n : nat) : list Z :=
  match n with
  | O => []
  | S n' => if s 0%nat =? 0 then [] else s 0%nat :: cprefix (λ i, s (S i)) n'
  end.

Definition uchars (s : nat → Z) : Prop := ∀ i, 0 ≤ s i < 256.

(** ** memset *)

Lemma stosb_spec addr data cnt m a :
  stosb addr data cnt m a =
    if decide (addr ≤ a < addr + Z.of_nat cnt) then u8 data else m a.
Proof.
  revert addr m. induction cnt as [|cnt IH]; intros addr m; cbn [stosb].
  - rewrite decide_False by lia. done.
  - rewrite IH. destruct (decide (a = addr)) as [->|Hne].
    + rewrite decide_False, decide_True by lia. apply fn_lookup_insert.
    + rewrite fn_lookup_insert_ne by done. repeat case_decide; try done; lia.
Qed.

Lemma stosl_spec addr data cnt m a :
  0 ≤ data →
  stosl addr data cnt m a =
    if decide (addr ≤ a < addr + 4 * Z.of_nat cnt)
    then u8 (Z.shiftr data (8 * ((a - addr) mod 4))) else m a.
Proof.
  intros Hd. revert addr m. induction cnt as [|cnt IH]; intros addr m; cbn [stosl].
  - rewrite decide_False by lia. done.
  - rewrite IH. unfold store32.
    destruct (decide (addr ≤ a < addr + 4)) as [Hin|Hout].
    + rewrite decide_False, decide_True by lia.
      assert (a = addr ∨ a = addr + 1 ∨ a = addr + 2 ∨ a = addr + 3) as Hc by lia.
      destruct Hc as [->|[->|[->| ->]]];
        rewrite ?fn_lookup_insert_ne by lia; rewrite fn_lookup_insert.
      * rewrite Z.sub_diag. done.
      * by replace (addr + 1 - addr) with 1 by lia.
      * by replace (addr + 2 - addr) with 2 by lia.
      * by replace (addr + 3 - addr) with 3 by lia.
    + rewrite !fn_lookup_insert_ne by lia. repeat case_decide; try done; try lia.
      do 3 f_equal. replace (a - addr) with ((a - (addr + 4)) + 1 * 4) by lia.
      by rewrite Z_mod_plus_full.
Qed.

(** The word [memset] builds has the byte in each position. *)
Lemma memset_word c k :
  0 ≤ c < 256 → k = 0 ∨ k = 1 ∨ k = 2 ∨ k = 3 →
  u8 (Z.shiftr (Z.lor (Z.lor (Z.lor (Z.shiftl c 24) (Z.shiftl c 16)) (Z.shiftl c 8)) c) (8 * k)) = c.
Proof.
  intros Hc Hk. rewrite !Z.shiftl_mul_pow2, Z.shiftr_div_pow2 by lia.
  assert (Z.lor (c * 2 ^ 24) (c * 2 ^ 16) = c * 2 ^ 16 + c * 2 ^ 24) as ->.
  { rewrite Z.lor_comm. apply (lor_add_disjoint 24); dlia. }
  assert (Z.lor (c * 2 ^ 16 + c * 2 ^ 24) (c * 2 ^ 8) = c * 2 ^ 8 + (c * 2 ^ 16 + c * 2 ^ 24)) as ->.
  { rewrite Z.lor_comm. apply (lor_add_disjoint 16); dlia. }
  rewrite Z.lor_comm, (lor_add_disjoint 8) by dlia.
  unfold u8. destruct Hk as [->|[->|[->| ->]]]; simpl Z.mul; dlia.
Qed.

Lemma memset_spec dst c n m a :
  0 ≤ n → memset dst c n m a = if decide (dst ≤ a < dst + n) then u8 c else m a.
Proof.
  intros Hn. unfold memset. case_match eqn:E.
  - apply andb_true_iff in E as [_ E]. apply Z.eqb_eq in E.
    assert (0 ≤ Z.land c 255 < 256) as Hc.
    { change 255 with (2 ^ 8 - 1). rewrite land_ones_mod by lia. dlia. }
    rewrite stosl_spec.
    2:{ rewrite !Z.lor_nonneg, !Z.shiftl_nonneg. lia. }
    assert (4 * Z.of_nat (Z.to_nat (n / 4)) = n) as -> by dlia.
    case_decide; [|done]. rewrite memset_word; [|done|dlia].
    change 255 with (2 ^ 8 - 1). by rewrite land_ones_mod by lia.
  - rewrite stosb_spec. by replace (Z.of_nat (Z.to_nat n)) with n by lia.
Qed.

(** ** memmove *)

Lemma copy_fwd_spec d s n m a :
  d ≤ s ∨ s + Z.of_nat n ≤ d →
  copy_fwd d s n m a = if decide (d ≤ a < d + Z.of_nat n) then m (s + (a - d)) else m a.
Proof.
  revert d s m. induction n as [|n IH]; intros d s m Hov; cbn [copy_fwd].
  - rewrite decide_False by lia. done.
  - rewrite IH by lia. destruct (decide (a = d)) as [->|Hne].
    + rewrite decide_False, decide_True by lia. rewrite fn_lookup_insert. f_equal. lia.
    + rewrite (fn_lookup_insert_ne m d a) by done.
      destruct (decide (d + 1 ≤ a < d + 1 + Z.of_nat n)).
      * rewrite decide_True by lia. rewrite fn_lookup_insert_ne by lia. f_equal. lia.
      * rewrite decide_False by lia. done.
Qed.

Lemma copy_bwd_spec d s n m a :
  s ≤ d →
  copy_bwd d s n m a = if decide (d - Z.of_nat n ≤ a < d) then m (s - (d - a)) else m a.
Proof.
  revert d s m. induction n as [|n IH]; intros d s m Hov; cbn [copy_bwd].
  - rewrite decide_False by lia. done.
  - rewrite IH by lia. destruct (decide (a = d - 1)) as [->|Hne].
    + rewrite decide_False, decide_True by lia. rewrite fn_lookup_insert. f_equal. lia.
    + rewrite (fn_lookup_insert_ne m (d - 1) a) by done.
      destruct (decide (d - 1 - Z.of_nat n ≤ a < d - 1)).
      * rewrite decide_True by lia. rewrite fn_lookup_insert_ne by lia. f_equal. lia.
      * rewrite decide_False by lia. done.
Qed.

Lemma memmove_spec dst src n m a :
  0 ≤ n → memmove dst src n m a = if decide (dst ≤ a < dst + n) then m (src + (a - dst)) else m a.
Proof.
  intros Hn. unfold memmove. assert (Z.of_nat (Z.to_nat n) = n) as En by lia.
  destruct (_ && _) eqn:E.
  - apply andb_true_iff in E as [E1 E2]. rewrite copy_bwd_spec by lia. rewrite En.
    replace (dst + n - n) with dst by lia. case_decide; [|done]. f_equal. lia.
  - apply andb_false_iff in E. rewrite copy_fwd_spec by lia. by rewrite En.
Qed.

(** ** Strings *)

Lemma uchars_shift s : uchars s → uchars (λ i, s (S i)).
Proof. intros H i. apply H. Qed.

Lemma u8_uchar s i : uchars s → u8 (s i) = s i.
Proof. intros H. unfold u8. apply Z.mod_small, H. Qed.

(** [strncmp] decides equality of the strings cut at [n]. *)
Lemma strncmp_zero p q n :
  uchars p → uchars q → strncmp p q n = 0 ↔ cprefix p n = cprefix q n.
Proof.
  revert p q. induction n as [|n IH]; intros p q Hp Hq; cbn [strncmp cprefix]; [done|].
  rewrite !u8_uchar by done.
  destruct (Z.eqb_spec (p 0%nat) 0) as [Ep|Ep], (Z.eqb_spec (q 0%nat) 0) as [Eq|Eq],
    (Z.eqb_spec (p 0%nat) (q 0%nat)) as [E|E]; simpl; try lia; try (split; [lia|done]); try (split; [done|lia]).
  - rewrite E, IH by auto using uchars_shift. split; [congruence|]. by intros [= ?].
  - split; [lia|]. intros [= ? _]. congruence.
Qed.

Lemma length_strncpy t n : length (strncpy t n) = n.
Proof.
  revert t. induction n as [|n IH]; intros t; simpl; [done|]. f_equal.
  case_match; [apply length_replicate|apply IH].
Qed.

Lemma cprefix_ext s t n : (∀ i, (i < n)%nat → s i = t i) → cprefix s n = cprefix t n.
Proof.
  revert s t. induction n as [|n IH]; intros s t E; cbn [cprefix]; [done|].
  rewrite E by lia. case_match; [done|]. f_equal. apply IH. intros i Hi. apply E. lia.
Qed.

(** The copy compares equal to its source. *)
Lemma cprefix_strncpy t n : cprefix (λ i, nth i (strncpy t n) 0) n = cprefix t n.
Proof.
  revert t. induction n as [|n IH]; intros t; cbn [strncpy cprefix nth]; [done|].
  case_match; [done|]. f_equal. apply IH.
Qed.

Lemma bytes_strncpy t n : uchars t → bytes (strncpy t n).
Proof.
  revert t. induction n as [|n IH]; intros t Ht; cbn [strncpy]; constructor; [apply Ht|].
  case_match; [apply Forall_replicate; unfold is_byte; lia|]. by apply IH, uchars_shift.
Qed.

Lemma cstr_cons s c l : cstr s (c :: l) ↔ s 0%nat = c ∧ c ≠ 0 ∧ cstr (λ i, s (S i)) l.
Proof.
  unfold cstr. split.
  - intros [H E]. destruct (H 0%nat c eq_refl). split; [done|]. split; [done|]. split; [|done].
    intros i c' Hi. by apply (H (S i)).
  - intros (E0 & Hc & H & E). split; [|done]. intros [|i] c' Hi; [by injection Hi as <-|by apply H].
Qed.

Lemma strlen_spec s l fuel :
  cstr s l → (length l < fuel)%nat → strlen fuel s = Some (Z.of_nat (length l)).
Proof.
  revert s fuel. induction l as [|c l IH]; intros s fuel Hs Hf; destruct fuel; simpl in Hf; try lia; simpl.
  - destruct Hs as [_ E]. simpl in E. by rewrite E.
  - apply cstr_cons in Hs as (E & Hc & Hs). rewrite E. replace (c =? 0) with false by lia.
    rewrite (IH _ fuel Hs) by lia. simpl. f_equal. lia.
Qed.

Lemma cprefix_cstr s l n : cstr s l → cprefix s n = take n l.
Proof.
  revert s n. induction l as [|c l IH]; intros s [|n] Hs; try done.
  - destruct Hs as [_ E]. simpl in *. by rewrite E.
  - apply cstr_cons in Hs as (E & Hc & Hs). simpl. rewrite E. replace (c =? 0) with false by lia.
    f_equal. by apply IH.
Qed.

(** [safestrcpy] stores at most [n] bytes, the last of them the NUL after a
    prefix of the source. *)
Lemma safestrcpy_loop_spec s l n :
  cstr s l → ∃ k, safestrcpy_loop s n = take n l ++ replicate (S k) 0 ∧
    (length (safestrcpy_loop s n) ≤ S n)%nat.
Proof.
  revert s n. induction l as [|c l IH]; intros s n Hs; destruct n as [|n]; simpl.
  - exists 0%nat. split; [done|]. simpl. lia.
  - destruct Hs as [_ E]. simpl in E. rewrite E. simpl. exists 1%nat. split; [done|]. simpl. lia.
  - exists 0%nat. split; [done|]. simpl. lia.
  - apply cstr_cons in Hs as (E & Hc & Hs). rewrite E. replace (c =? 0) with false by lia.
    destruct (IH _ n Hs) as (k & Ek & Hk). exists k. simpl. rewrite Ek in *. split; [done|]. lia.
Qed.

(** The value of a string of digits. *)
Definition digits_val (l : list Z) : Z := foldl (λ n c, n * 10 + (c - 48)) 0 l.
Definition is_digit (c : Z) : Prop := 48 ≤ c ≤ 57.

Lemma digits_mono l n : 0 ≤ n → Forall is_digit l → n ≤ foldl (λ n c, n * 10 + (c - 48)) n l.
Proof.
  intros Hn Hl. revert n Hn. induction Hl as [|c l Hc _ IH]; intros n Hn; simpl; [lia|].
  unfold is_digit in Hc. specialize (IH (n * 10 + (c - 48))). lia.
Qed.

Lemma atoi_loop_spec s l rest n fuel :
  cstr s (l ++ rest) → Forall is_digit l → match rest with [] => True | c :: _ => ¬ is_digit c end →
  0 ≤ n → foldl (λ n c, n * 10 + (c - 48)) n l < 2 ^ 31 → (length l < fuel)%nat →
  atoi_loop fuel s n = Some (foldl (λ n c, n * 10 + (c - 48)) n l).
Proof.
  revert s n fuel. induction l as [|c l IH]; intros s n fuel Hs Hl Hr Hn Hb Hf;
    destruct fuel as [|fuel]; simpl in Hf; try lia; cbn [atoi_loop].
  - assert (¬ is_digit (s 0%nat)) as Hnd.
    { destruct rest as [|c rest]; simpl in Hs.
      - destruct Hs as [_ E]. simpl in E. rewrite E. unfold is_digit. lia.
      - apply cstr_cons in Hs as (-> & _). done. }
    unfold is_digit in Hnd. destruct (_ && _) eqn:E; [|done].
    apply andb_true_iff in E as [E1 E2]. lia.
  - simpl in Hs. apply cstr_cons in Hs as (E & Hc & Hs). apply Forall_cons in Hl as [Hd Hl'].
    rewrite E in *. unfold is_digit in Hd. replace ((48 <=? c) && (c <=? 57)) with true by lia.
    simpl in Hb |- *. pose proof (digits_mono l (n * 10 + (c - 48)) ltac:(lia) Hl').
    rewrite s32_small by lia. replace (n * 10 + c - 48) with (n * 10 + (c - 48)) by lia.
    apply IH; try done; lia.
Qed.

(** ** Main theorems *)

(** [memmove] moves: for any two regions, overlapping in either direction or
    not, the destination ends up with the bytes the source held before the
    call and no other byte changes. *)
Theorem memmove_moves dst src n m a :
  0 ≤ n → memmove dst src n m a = if decide (dst ≤ a < dst + n) then m (src + (a - dst)) else m a.
Proof. apply memmove_spec. Qed.

(** Six bytes moved two places up, over themselves. *)
Lemma memmove_moves_witness : memmove 12 10 6 (λ a, a) 17 = 15.
Proof. rewrite memmove_moves by lia. reflexivity. Defined.

(** [memset] fills: on both its paths, the one that stores 32-bit words and
    the one that stores bytes, exactly the [n] bytes at [dst] get the value. *)
Theorem memset_fills dst c n m a :
  0 ≤ n → memset dst c n m a = if decide (dst ≤ a < dst + n) then u8 c else m a.
Proof. apply memset_spec. Qed.

Lemma memset_fills_witness : memset 16 (-1) 8 (λ _, 0) 23 = 255 ∧ memset 17 (-1) 7 (λ _, 0) 24 = 0.
Proof. split; rewrite memset_fills by lia; reflexivity. Defined.

(** Directory names survive the directory: for every name, the fixed-size
    field [strncpy] fills compares equal to the name under [strncmp], and to
    another name only if the two agree up to the field's length. *)
Theorem strncpy_strncmp t t' n :
  uchars t → uchars t' →
  length (strncpy t n) = n ∧
  (strncmp t' (λ i, nth i (strncpy t n) 0) n = 0 ↔ cprefix t' n = cprefix t n).
Proof.
  intros Ht Ht'. split; [apply length_strncpy|]. rewrite <- (cprefix_strncpy t n).
  apply strncmp_zero; [done|]. intros i.
  destruct (decide (i < length (strncpy t n))%nat) as [Hi|Hi].
  - pose proof (bytes_strncpy t n Ht) as Hb. rewrite nth_lookup.
    destruct (strncpy t n !! i) as [c|] eqn:E; simpl; [|lia].
    by apply (Forall_lookup_1 _ _ _ _ Hb E).
  - rewrite nth_overflow by lia. lia.
Qed.

Lemma strncpy_strncmp_witness :
  strncmp (λ i, nth i [97; 98] 0) (λ i, nth i (strncpy (λ i, nth i [97; 98] 0) 14) 0) 14 = 0.
Proof.
  assert (uchars (λ i, nth i [97; 98] 0)) as Hu by (intros [|[|[|i]]]; simpl; lia).
  apply (strncpy_strncmp (λ i, nth i [97; 98] 0) (λ i, nth i [97; 98] 0) 14 Hu Hu). reflexivity.
Defined.

(** The [memmove] of the user library is not one: it always copies upwards,
    so when the destination overlaps the source from above the bytes still to
    be copied are overwritten first. *)
Theorem umemmove_overlap :
  ∃ m, umemmove 12 10 6 m 16 ≠ m 14 ∧ memmove 12 10 6 m 16 = m 14.
Proof. exists (λ a, a). split; vm_compute; [done|done]. Qed.
