(* ===== verification/Mem.v ===== *)
(** * Memory words and layout (memlayout.h, mmu.h)

    32-bit loads and stores on the byte memory of [CString], page arithmetic
    and the kernel's view of physical memory. *)

From S2P Require Import Prelude CString.

Definition EXTMEM : Z := 0x100000.
Definition PHYSTOP : Z := 0xE000000.
Definition DEVSPACE : Z := 0xFE000000.
Definition KERNBASE : Z := 0x80000000.
Definition KERNLINK : Z := KERNBASE + EXTMEM.
Definition V2P (a : Z) : Z := u32 (a - KERNBASE).
Definition P2V (a : Z) : Z := u32 (a + KERNBASE).

Definition PGSIZE : Z := 4096.
Definition PGROUNDUP (sz : Z) : Z := Z.land (u32 (sz + PGSIZE - 1)) (Z.lnot (PGSIZE - 1)).
Definition PGROUNDDOWN (a : Z) : Z := Z.land a (Z.lnot (PGSIZE - 1)).

(** A 32-bit load, least significant byte first. *)
Definition load32 (m : mem) (a : Z) : Z :=
  m a + 2 ^ 8 * m (a + 1) + 2 ^ 16 * m (a + 2) + 2 ^ 24 * m (a + 3).

(** ** Lemmas *)

Lemma load32_store32 a v m : load32 (store32 a v m) a = u32 v.
Proof.
  unfold load32, store32.
  repeat (rewrite fn_lookup_insert || rewrite fn_lookup_insert_ne by lia).
  unfold u8, u32. rewrite !Z.shiftr_div_pow2 by lia. dlia.
Qed.

Lemma store32_other a v m b : ¬ (a ≤ b < a + 4) → store32 a v m b = m b.
Proof. intros Hb. unfold store32. by rewrite !fn_lookup_insert_ne by lia. Qed.

Lemma load32_ext m m' a : (∀ b, a ≤ b < a + 4 → m b = m' b) → load32 m a = load32 m' a.
Proof. intros E. unfold load32. rewrite !E by lia. done. Qed.

Lemma load32_other a v m b : b + 4 ≤ a ∨ a + 4 ≤ b → load32 (store32 a v m) b = load32 m b.
Proof. intros Hb. apply load32_ext. intros c Hc. apply store32_other. lia. Qed.

Lemma land_lnot_pages a : 0 ≤ a → Z.land a (Z.lnot (PGSIZE - 1)) = a - a mod PGSIZE.
Proof.
  intros Ha. change (PGSIZE - 1) with (Z.ones 12). rewrite <- Z.ldiff_land, Z.ldiff_ones_r by lia.
  rewrite Z.shiftl_mul_pow2, Z.shiftr_div_pow2 by lia. change (2 ^ 12) with PGSIZE. unfold PGSIZE. dlia.
Qed.

Lemma PGROUNDDOWN_spec a : 0 ≤ a → PGROUNDDOWN a = a - a mod PGSIZE.
Proof. apply land_lnot_pages. Qed.

Lemma PGROUNDUP_spec a :
  0 ≤ a → a + PGSIZE - 1 < 2 ^ 32 → PGROUNDUP a mod PGSIZE = 0 ∧ a ≤ PGROUNDUP a < a + PGSIZE.
Proof.
  intros Ha Hb. unfold PGROUNDUP. rewrite u32_small by (unfold PGSIZE in *; lia).
  rewrite land_lnot_pages by (unfold PGSIZE; lia). unfold PGSIZE in *. dlia.
Qed.

Lemma V2P_P2V p : 0 ≤ p < 2 ^ 31 → V2P (P2V p) = p.
Proof. intros. unfold V2P, P2V, u32, KERNBASE. rewrite Zminus_mod_idemp_l. replace (p + _ - _) with p by lia. by rewrite Z.mod_small by lia. Qed.
