(* ===== verification/Spinlock.v ===== *)
(** * Spin locks (spinlock.c, spinlock.h; struct cpu of proc.h)

    One lock and the CPUs that use it.  The CPU that runs a piece of code is
    the first argument of the monad; the parts of [acquire] and [release]
    between which other CPUs can run are definitions of their own, and the
    composition of CPUs is a transition system over them. *)

From S2P Require Import Prelude CString Mem.

Definition FL_IF : Z := 0x200.

(** [locked], the CPU that holds the lock ([None] is the null pointer) and the
    call stack recorded for debugging. *)
Record spinlock := mk_spinlock { lk_locked : Z; lk_cpu : option Z; lk_pcs : list Z }.

(** What a CPU has to do with locks; [c_if] is the interrupt flag of its
    EFLAGS register. *)
Record cpu := mk_cpu { c_ncli : Z; c_intena : Z; c_if : bool }.

Record spstate := mk_spstate { sp_lk : spinlock; sp_cpus : list cpu }.

Definition sp_set_lk l s := mk_spstate l (sp_cpus s).
Definition sp_set_cpus c s := mk_spstate (sp_lk s) c.

Definition initlock (lk : spinlock) : spinlock := mk_spinlock 0 None (lk_pcs lk).

(** [mycpu()] and an update of it. *)
Definition mycpu : M spstate cpu := c ← mypid; s ← get; aget (sp_cpus s) c.
Definition cpu_set (f : cpu → cpu) : M spstate unit :=
  c ← mypid; modify (λ s, sp_set_cpus (alter f (Z.to_nat c) (sp_cpus s)) s).

(** [readeflags() & FL_IF], [cli], [sti] *)
Definition eflags_if (c : cpu) : Z := if c_if c then FL_IF else 0.
Definition set_if (b : bool) (c : cpu) : cpu := mk_cpu (c_ncli c) (c_intena c) b.
Definition set_ncli (n : Z) (c : cpu) : cpu := mk_cpu n (c_intena c) (c_if c).
Definition set_intena (n : Z) (c : cpu) : cpu := mk_cpu (c_ncli c) n (c_if c).

Definition pushcli : M spstate unit :=
  c ← mycpu;
  let eflags := eflags_if c in
  cpu_set (set_if false) ;;
  c ← mycpu;
  when (c_ncli c =? 0) (cpu_set (set_intena eflags)) ;;
  cpu_set (λ c, set_ncli (c_ncli c + 1) c).

Definition popcli : M spstate unit :=
  c ← mycpu;
  if negb (eflags_if c =? 0) then panic "popcli - interruptible" else
  cpu_set (λ c, set_ncli (c_ncli c - 1) c) ;;
  c ← mycpu;
  if c_ncli c <? 0 then panic "popcli" else
  when ((c_ncli c =? 0) && negb (c_intena c =? 0)) (cpu_set (set_if true)).

Definition holding : M spstate bool :=
  pushcli ;;
  c ← mypid;
  s ← get;
  let r := negb (lk_locked (sp_lk s) =? 0) && bool_decide (lk_cpu (sp_lk s) = Some c) in
  popcli ;;
  mret r.

(** [getcallerpcs]: the return addresses up the chain of frame pointers, in
    a memory of words; at most ten, padded with zeros. *)
Fixpoint pcs_loop (mem : Z → Z) (ebp : Z) (n : nat) : list Z :=
  match n with
  | O => []
  | S n' =>
      if (ebp =? 0) || (ebp <? KERNBASE) || (ebp =? 0xffffffff) then replicate n 0
      else mem (ebp + 4) :: pcs_loop mem (mem ebp) n'
  end.
Definition getcallerpcs (mem : Z → Z) (v : Z) : list Z := pcs_loop mem (u32 (v - 8)) 10.

(** [acquire] up to the loop; one round of the loop; and what follows it. *)
Definition acquire_enter : M spstate unit :=
  pushcli ;;
  h ← holding;
  if (h : bool) then panic "acquire" else mret tt.
Definition acquire_xchg : M spstate bool :=
  s ← get;
  modify (λ s, sp_set_lk (mk_spinlock 1 (lk_cpu (sp_lk s)) (lk_pcs (sp_lk s))) s) ;;
  mret (lk_locked (sp_lk s) =? 0).
Definition acquire_record (pcs : list Z) : M spstate unit :=
  c ← mypid;
  modify (λ s, sp_set_lk (mk_spinlock (lk_locked (sp_lk s)) (Some c) pcs) s).

(** [release] up to the store that frees the lock, and that store. *)
Definition release_enter : M spstate unit :=
  h ← holding;
  if negb (h : bool) then panic "release" else
  modify (λ s, sp_set_lk (mk_spinlock (lk_locked (sp_lk s)) None (<[0%nat := 0]> (lk_pcs (sp_lk s)))) s).
Definition release_store : M spstate unit :=
  modify (λ s, sp_set_lk (mk_spinlock 0 (lk_cpu (sp_lk s)) (lk_pcs (sp_lk s))) s) ;;
  popcli.

(** The whole calls, when no other CPU comes in between. *)
Definition acquire (pcs : list Z) : M spstate unit :=
  acquire_enter ;;
  got ← acquire_xchg;
  if (got : bool) then acquire_record pcs else undef "acquire: spins".
Definition release : M spstate unit := release_enter ;; release_store.

(** ** Several CPUs *)

(** Where a CPU is with respect to the lock. *)
Inductive mode := Out | Spinning | Got | Inside | Leaving.

#[global] Instance mode_eq_dec : EqDecision mode.
Proof. solve_decision. Defined.

Inductive sp_step : spstate * list mode → spstate * list mode → Prop :=
| sp_enter s s' ms (c : nat) :
    ms !! c = Some Out → acquire_enter (Z.of_nat c) s = Ret tt s' →
    sp_step (s, ms) (s', <[c := Spinning]> ms)
| sp_xchg s s' ms (c : nat) got :
    ms !! c = Some Spinning → acquire_xchg (Z.of_nat c) s = Ret got s' →
    sp_step (s, ms) (s', <[c := if got then Got else Spinning]> ms)
| sp_record s s' ms (c : nat) pcs :
    ms !! c = Some Got → acquire_record pcs (Z.of_nat c) s = Ret tt s' →
    sp_step (s, ms) (s', <[c := Inside]> ms)
| sp_leave s s' ms (c : nat) :
    ms !! c = Some Inside → release_enter (Z.of_nat c) s = Ret tt s' →
    sp_step (s, ms) (s', <[c := Leaving]> ms)
| sp_store s s' ms (c : nat) :
    ms !! c = Some Leaving → release_store (Z.of_nat c) s = Ret tt s' →
    sp_step (s, ms) (s', <[c := Out]> ms).

(** Holding the lock, in the sense of the lock word. *)
Definition owns (m : mode) : Prop := m = Got ∨ m = Inside ∨ m = Leaving.

#[global] Instance owns_dec m : Decision (owns m).
Proof. unfold owns. apply _. Defined.

(** What is known of a CPU in each mode. *)
Definition cpu_ok (m : mode) (c : cpu) : Prop :=
  match m with
  | Out => c_ncli c = 0
  | _ => c_ncli c = 1 ∧ c_if c = false
  end.

Record sp_inv (s : spstate) (ms : list mode) : Prop := mk_sp_inv {
  si_len : length ms = length (sp_cpus s);
  si_cpu : ∀ c m k, ms !! c = Some m → sp_cpus s !! c = Some k → cpu_ok m k;
  si_one : ∀ c d m n, ms !! c = Some m → ms !! d = Some n → owns m → owns n → c = d;
  si_locked : (∃ c m, ms !! c = Some m ∧ owns m) ↔ lk_locked (sp_lk s) ≠ 0;
  si_owner : ∀ c : nat, lk_cpu (sp_lk s) = Some (Z.of_nat c) ↔ ms !! c = Some Inside;
}.

(** ** Lemmas *)

Definition sp_put (c : nat) (k : cpu) (s : spstate) : spstate := sp_set_cpus (<[c := k]> (sp_cpus s)) s.

Definition push (k : cpu) : cpu :=
  mk_cpu (c_ncli k + 1) (if c_ncli k =? 0 then eflags_if k else c_intena k) false.
Definition pop (k : cpu) : cpu :=
  mk_cpu (c_ncli k - 1) (c_intena k) ((c_ncli k - 1 =? 0) && negb (c_intena k =? 0)).

Section ops.
Context (c : nat) (s : spstate) (k : cpu) (Hc : sp_cpus s !! c = Some k).

Lemma mycpu_run : mycpu (Z.of_nat c) s = Ret k s.
Proof. unfold mycpu. cbv [mypid mbind M_bind get]. by apply aget_Ret. Qed.

Lemma sp_put_lookup k' : sp_cpus (sp_put c k' s) !! c = Some k'.
Proof. simpl. apply list_lookup_insert_eq. by eapply lookup_lt_Some. Qed.

Lemma cpu_set_run f : cpu_set f (Z.of_nat c) s = Ret tt (sp_put c (f k) s).
Proof.
  unfold cpu_set. cbv [mypid mbind M_bind modify]. rewrite Nat2Z.id. by rewrite (alter_Some f _ _ _ Hc).
Qed.
End ops.

Lemma sp_put_put c k1 k2 s : sp_put c k2 (sp_put c k1 s) = sp_put c k2 s.
Proof. unfold sp_put, sp_set_cpus. simpl. by rewrite list_insert_insert_eq. Qed.

Lemma sp_put_id c k s : sp_cpus s !! c = Some k → sp_put c k s = s.
Proof. intros Hc. unfold sp_put, sp_set_cpus. rewrite list_insert_id by done. by destruct s. Qed.

Lemma pushcli_run c s k : sp_cpus s !! c = Some k → pushcli (Z.of_nat c) s = Ret tt (sp_put c (push k) s).
Proof.
  intros Hc. unfold pushcli. mrun (mycpu_run c s k Hc). mrun (cpu_set_run c s k Hc (set_if false)).
  pose proof (sp_put_lookup c s k Hc (set_if false k)) as Hc1. mrun (mycpu_run c _ _ Hc1). simpl c_ncli.
  unfold push. destruct (c_ncli k =? 0) eqn:E; cbn [when].
  - mrun (cpu_set_run c _ _ Hc1 (set_intena (eflags_if k))). rewrite sp_put_put.
    rewrite (cpu_set_run c _ _ (sp_put_lookup c s k Hc _)). by rewrite sp_put_put.
  - mstep. rewrite (cpu_set_run c _ _ Hc1). by rewrite sp_put_put.
Qed.

Lemma popcli_run c s k :
  sp_cpus s !! c = Some k → c_if k = false → 1 ≤ c_ncli k → popcli (Z.of_nat c) s = Ret tt (sp_put c (pop k) s).
Proof.
  intros Hc Hif Hn. unfold popcli. mrun (mycpu_run c s k Hc). unfold eflags_if. rewrite Hif. cbn [negb Z.eqb].
  mrun (cpu_set_run c s k Hc (λ c, set_ncli (c_ncli c - 1) c)).
  pose proof (sp_put_lookup c s k Hc (set_ncli (c_ncli k - 1) k)) as Hc1. mrun (mycpu_run c _ _ Hc1). simpl.
  rewrite (proj2 (Z.ltb_ge _ _)) by lia. unfold pop. destruct (_ && _) eqn:E; cbn [when].
  - rewrite (cpu_set_run c _ _ Hc1). by rewrite sp_put_put.
  - unfold mret, M_ret, set_ncli. by rewrite Hif.
Qed.

Lemma pop_push k : c_if k = false → 1 ≤ c_ncli k → pop (push k) = k.
Proof.
  intros Hif Hn. destruct k as [n i b]. unfold pop, push. simpl in *. subst b.
  rewrite (proj2 (Z.eqb_neq n 0)) by lia. replace (n + 1 - 1) with n by lia. rewrite (proj2 (Z.eqb_neq n 0)) by lia. done.
Qed.

Definition held_by (c : nat) (s : spstate) : bool :=
  negb (lk_locked (sp_lk s) =? 0) && bool_decide (lk_cpu (sp_lk s) = Some (Z.of_nat c)).

Lemma holding_run c s k :
  sp_cpus s !! c = Some k → c_if k = false → 1 ≤ c_ncli k → holding (Z.of_nat c) s = Ret (held_by c s) s.
Proof.
  intros Hc Hif Hn. unfold holding. mrun (pushcli_run c s k Hc). cbv [mypid]. rewrite (bind_Ret _ _ _ _ (Z.of_nat c) _ eq_refl). cbv beta.
  mstep. pose proof (sp_put_lookup c s k Hc (push k)) as Hc1.
  mrun (popcli_run c _ _ Hc1 eq_refl ltac:(simpl; lia)). rewrite sp_put_put, pop_push, (sp_put_id c k s Hc) by done. done.
Qed.

Lemma acquire_enter_run c s k :
  sp_cpus s !! c = Some k → 0 ≤ c_ncli k → held_by c s = false →
  acquire_enter (Z.of_nat c) s = Ret tt (sp_put c (push k) s).
Proof.
  intros Hc Hn Hh. unfold acquire_enter. mrun (pushcli_run c s k Hc). pose proof (sp_put_lookup c s k Hc (push k)) as Hc1.
  mrun (holding_run c _ _ Hc1 eq_refl ltac:(simpl; lia)). change (held_by c (sp_put c (push k) s)) with (held_by c s). by rewrite Hh.
Qed.

Lemma release_enter_run c s k :
  sp_cpus s !! c = Some k → c_if k = false → 1 ≤ c_ncli k → held_by c s = true →
  release_enter (Z.of_nat c) s =
    Ret tt (sp_set_lk (mk_spinlock (lk_locked (sp_lk s)) None (<[0%nat := 0]> (lk_pcs (sp_lk s)))) s).
Proof. intros Hc Hif Hn Hh. unfold release_enter. mrun (holding_run c s k Hc Hif Hn). by rewrite Hh. Qed.

Lemma release_store_run c s k :
  sp_cpus s !! c = Some k → c_if k = false → 1 ≤ c_ncli k →
  release_store (Z.of_nat c) s =
    Ret tt (sp_put c (pop k) (sp_set_lk (mk_spinlock 0 (lk_cpu (sp_lk s)) (lk_pcs (sp_lk s))) s)).
Proof. intros Hc Hif Hn. unfold release_store. mstep. by apply popcli_run. Qed.

Lemma acquire_run c s k pcs :
  sp_cpus s !! c = Some k → 0 ≤ c_ncli k → lk_locked (sp_lk s) = 0 →
  acquire pcs (Z.of_nat c) s = Ret tt (sp_put c (push k) (sp_set_lk (mk_spinlock 1 (Some (Z.of_nat c)) pcs) s)).
Proof.
  intros Hc Hn Hl. unfold acquire. assert (held_by c s = false) as Hh by (unfold held_by; by rewrite Hl).
  mrun (acquire_enter_run c s k Hc Hn Hh). unfold acquire_xchg. munfold. simpl. by rewrite Hl.
Qed.

Lemma release_run c s k :
  sp_cpus s !! c = Some k → c_if k = false → 1 ≤ c_ncli k → held_by c s = true →
  release (Z.of_nat c) s = Ret tt (sp_put c (pop k) (sp_set_lk (mk_spinlock 0 None (<[0%nat := 0]> (lk_pcs (sp_lk s)))) s)).
Proof.
  intros Hc Hif Hn Hh. unfold release. mrun (release_enter_run c s k Hc Hif Hn Hh). by rewrite (release_store_run c _ k) by done.
Qed.

(** One CPU changes mode; the others are as they were. *)
Lemma sp_inv_update s ms (c : nat) m m' s' :
  sp_inv s ms → ms !! c = Some m →
  length (sp_cpus s') = length (sp_cpus s) → (∀ d, d ≠ c → sp_cpus s' !! d = sp_cpus s !! d) →
  (∀ k, sp_cpus s' !! c = Some k → cpu_ok m' k) →
  (owns m' → owns m ∨ lk_locked (sp_lk s) = 0) →
  (lk_locked (sp_lk s') ≠ 0 ↔ owns m' ∨ (lk_locked (sp_lk s) ≠ 0 ∧ ¬ owns m)) →
  (lk_cpu (sp_lk s') = Some (Z.of_nat c) ↔ m' = Inside) →
  (∀ d, d ≠ c → lk_cpu (sp_lk s') = Some (Z.of_nat d) ↔ lk_cpu (sp_lk s) = Some (Z.of_nat d)) →
  sp_inv s' (<[c := m']> ms).
Proof.
  intros [Hl Hcpu H1 Hlk Ho] Hm Hlen Hcpus Hk Hown Hlocked Hin Hout.
  assert (c < length ms)%nat as Hlt by (by eapply lookup_lt_Some).
  assert (∀ d n, <[c := m']> ms !! d = Some n → (d = c ∧ n = m') ∨ (d ≠ c ∧ ms !! d = Some n)) as Hcase.
  { intros d n Hd. apply list_lookup_insert_Some in Hd as [(-> & -> & _)|[Hne Hd]]; auto. }
  split.
  - rewrite length_insert. congruence.
  - intros d n k [[-> ->]|[Hne Hd]]%Hcase Hdk; [by apply Hk|]. rewrite Hcpus in Hdk by done. by eapply Hcpu.
  - assert (owns m' → ∀ d n, d ≠ c → ms !! d = Some n → ¬ owns n) as Hx.
    { intros Hw d n Hne Hd Hn. destruct (Hown Hw) as [Hom|Hz]; [by apply Hne, (H1 d c n m)|].
      apply Hlk; [|done]. eauto. }
    intros d e n n' [[-> ->]|[Hd1 Hd]]%Hcase [[-> ->]|[He1 He]]%Hcase On On'; try done.
    + by destruct (Hx On e n').
    + by destruct (Hx On' d n).
    + by apply (H1 d e n n').
  - rewrite Hlocked. split.
    + intros (d & n & [[-> ->]|[Hne Hd]]%Hcase & On); [by left|]. right. split; [apply Hlk; eauto|].
      intros Om. apply Hne. by apply (H1 d c n m).
    + intros [On|[(d & n & Hd & On)%Hlk Om]].
      * exists c, m'. by rewrite list_lookup_insert_eq.
      * assert (d ≠ c) by congruence. exists d, n. by rewrite list_lookup_insert_ne.
  - intros d. destruct (decide (d = c)) as [->|Hne].
    + rewrite Hin, list_lookup_insert_eq by done. naive_solver.
    + rewrite Hout, list_lookup_insert_ne by done. apply Ho.
Qed.

Lemma sp_inv_lookup s ms c m : sp_inv s ms → ms !! c = Some m → ∃ k, sp_cpus s !! c = Some k ∧ cpu_ok m k.
Proof.
  intros Hi Hm. destruct (lookup_lt_is_Some_2 (sp_cpus s) c) as [k Hk].
  - rewrite <- (si_len _ _ Hi). by eapply lookup_lt_Some.
  - exists k. split; [done|]. by eapply si_cpu.
Qed.

Lemma held_by_inside s ms c m :
  sp_inv s ms → ms !! c = Some m → held_by c s = bool_decide (m = Inside).
Proof.
  intros Hi Hm. unfold held_by. rewrite (bool_decide_ext _ (m = Inside)) by (rewrite (si_owner _ _ Hi c), Hm; naive_solver).
  case_bool_decide as E; [|apply andb_false_r]. rewrite andb_true_r. apply negb_true_iff, Z.eqb_neq, (si_locked _ _ Hi).
  exists c, m. split; [done|]. subst. unfold owns. auto.
Qed.

(** No call panics: from every mode the next part of the call returns. *)
Lemma sp_progress s ms c m :
  sp_inv s ms → ms !! c = Some m →
  match m with
  | Out => ∃ s', acquire_enter (Z.of_nat c) s = Ret tt s'
  | Spinning => ∃ got s', acquire_xchg (Z.of_nat c) s = Ret got s'
  | Got => ∀ pcs, ∃ s', acquire_record pcs (Z.of_nat c) s = Ret tt s'
  | Inside => ∃ s', release_enter (Z.of_nat c) s = Ret tt s'
  | Leaving => ∃ s', release_store (Z.of_nat c) s = Ret tt s'
  end.
Proof.
  intros Hi Hm. destruct (sp_inv_lookup _ _ _ _ Hi Hm) as (k & Hk & Hok).
  pose proof (held_by_inside _ _ _ _ Hi Hm) as Hh. destruct m; simpl in Hok.
  - eexists. eapply acquire_enter_run; [done|lia|done].
  - by eexists _, _.
  - intros pcs. by eexists.
  - destruct Hok as [Hn Hf]. eexists. eapply release_enter_run; [done..|lia|done].
  - destruct Hok as [Hn Hf]. eexists. eapply release_store_run; [done..|lia].
Qed.

(** The lock's own record when a CPU that owns it is not inside. *)
Lemma no_owner s ms c m d :
  sp_inv s ms → ms !! c = Some m → owns m → lk_cpu (sp_lk s) = Some (Z.of_nat d) → d = c.
Proof.
  intros Hi Hm Ho Hd%(si_owner _ _ Hi). apply (si_one _ _ Hi d c Inside m); try done. unfold owns. auto.
Qed.

Lemma owned_locked s ms c m : sp_inv s ms → ms !! c = Some m → owns m → lk_locked (sp_lk s) ≠ 0.
Proof. intros Hi Hm Ho. apply (si_locked _ _ Hi). eauto. Qed.

Lemma put_cpus_other c k s d : d ≠ c → sp_cpus (sp_put c k s) !! d = sp_cpus s !! d.
Proof. intros. simpl. by rewrite list_lookup_insert_ne. Qed.

Lemma sp_step_inv s ms s' ms' : sp_inv s ms → sp_step (s, ms) (s', ms') → sp_inv s' ms'.
Proof.
  intros Hi Hs. inversion Hs as [a b d c Hm E|a b d c got Hm E|a b d c pcs Hm E|a b d c Hm E|a b d c Hm E]; subst.
  all: destruct (sp_inv_lookup _ _ _ _ Hi Hm) as (k & Hk & Hok); pose proof (held_by_inside _ _ _ _ Hi Hm) as Hh;
    pose proof (si_owner _ _ Hi c) as Ho; rewrite Hm in Ho; simpl in Hok.
  - rewrite (acquire_enter_run c s k Hk ltac:(lia) Hh) in E. injection E as <-.
    eapply sp_inv_update; try done.
    + simpl. by rewrite length_insert.
    + apply put_cpus_other.
    + intros k' Hk'. rewrite sp_put_lookup with (k := k) in Hk' by done. injection Hk' as <-. simpl. lia.
    + by intros [|[|]].
    + unfold owns. simpl. naive_solver.
    + simpl. rewrite Ho. done.
  - unfold acquire_xchg in E. cbv [mbind M_bind get modify mret M_ret] in E. injection E as <- <-.
    eapply sp_inv_update; try done; simpl.
    + intros k' Hk'. assert (k' = k) as -> by congruence. by case_match.
    + destruct (_ =? 0) eqn:Ez; [right; lia|]. by intros [|[|]].
    + split; [intros _|lia]. destruct (_ =? 0) eqn:Ez; [left; unfold owns; auto|right]. split; [lia|]. by intros [|[|]].
    + rewrite Ho. by case_match.
  - unfold acquire_record in E. cbv [mbind M_bind mypid modify] in E. injection E as <-.
    assert (owns Got) as Hg by (unfold owns; auto). eapply sp_inv_update; try done; simpl.
    + intros k' Hk'. by assert (k' = k) as -> by congruence.
    + by left.
    + split; [intros _; left; unfold owns; auto|intros _; by eapply owned_locked].
    + intros d Hne. split; [intros [= ?]; lia|]. intros Hd. destruct Hne. by eapply no_owner.
  - destruct Hok as [Hn Hf]. rewrite (release_enter_run c s k Hk Hf ltac:(lia) Hh) in E. injection E as <-.
    assert (owns Inside) as Hg by (unfold owns; auto). eapply sp_inv_update; try done; simpl.
    + intros k' Hk'. by assert (k' = k) as -> by congruence.
    + by left.
    + split; [intros _; left; unfold owns; auto|intros _; by eapply owned_locked].
    + intros d Hne. split; [done|]. intros Hd. destruct Hne. by eapply no_owner.
  - destruct Hok as [Hn Hf]. rewrite (release_store_run c s k Hk Hf ltac:(lia)) in E. injection E as <-.
    assert (owns Leaving) as Hg by (unfold owns; auto). eapply sp_inv_update; try done.
    + simpl. by rewrite length_insert.
    + intros d Hne. simpl. by rewrite list_lookup_insert_ne.
    + intros k' Hk'. rewrite sp_put_lookup with (k := k) in Hk' by done. injection Hk' as <-. simpl. lia.
    + by intros [|[|]].
    + simpl. unfold owns. split; [done|]. naive_solver.
    + simpl. rewrite Ho. done.
Qed.

Lemma sp_run_inv s ms s' ms' : sp_inv s ms → rtc sp_step (s, ms) (s', ms') → sp_inv s' ms'.
Proof.
  intros Hi Hr. remember (s, ms) as x eqn:Ex. remember (s', ms') as y eqn:Ey. revert s ms Ex Hi.
  induction Hr as [|x [s1 ms1] y Hs Hr IH]; intros s ms -> Hi; [by injection Ey as <- <-|].
  apply (IH Ey s1 ms1 eq_refl). by eapply sp_step_inv.
Qed.

(** All CPUs outside and the lock free. *)
Definition sp_init (cpus : list cpu) : spstate := mk_spstate (mk_spinlock 0 None (replicate 10 0)) cpus.

Lemma sp_init_inv cpus : Forall (λ k, c_ncli k = 0) cpus → sp_inv (sp_init cpus) (replicate (length cpus) Out).
Proof.
  intros H. split; simpl.
  - by rewrite length_replicate.
  - intros c m k [-> _]%lookup_replicate Hk. by apply (Forall_lookup_1 _ _ _ _ H Hk).
  - intros c d m n [-> _]%lookup_replicate _ Hc _. by destruct Hc as [|[|]].
  - split; [|done]. intros (c & m & [-> _]%lookup_replicate & Hc). by destruct Hc as [|[|]].
  - intros c. split; [done|]. by intros [? _]%lookup_replicate.
Qed.

(** ** Main theorem *)

(** C23. Spin locks exclude: however the CPUs interleave, never two of them own
    the lock; the owner runs with its interrupts off; and neither [acquire]
    nor [release] panics. *)
Theorem spinlock_excludes cpus s ms c m :
  Forall (λ k, c_ncli k = 0) cpus →
  rtc sp_step (sp_init cpus, replicate (length cpus) Out) (s, ms) → ms !! c = Some m →
  (∀ d n, ms !! d = Some n → owns m → owns n → d = c) ∧
  (owns m → ∃ k, sp_cpus s !! c = Some k ∧ c_if k = false) ∧
  match m with
  | Out => ∃ s', acquire_enter (Z.of_nat c) s = Ret tt s'
  | Spinning => ∃ got s', acquire_xchg (Z.of_nat c) s = Ret got s'
  | Got => ∀ pcs, ∃ s', acquire_record pcs (Z.of_nat c) s = Ret tt s'
  | Inside => ∃ s', release_enter (Z.of_nat c) s = Ret tt s'
  | Leaving => ∃ s', release_store (Z.of_nat c) s = Ret tt s'
  end.
Proof.
  intros H0 Hr Hm. pose proof (sp_run_inv _ _ _ _ (sp_init_inv cpus H0) Hr) as Hi. split_and!.
  - intros d n Hd Om On. by apply (si_one _ _ Hi d c n m).
  - intros Om. destruct (sp_inv_lookup _ _ _ _ Hi Hm) as (k & Hk & Hok). exists k. split; [done|].
    destruct Om as [-> | [-> | ->]]; apply Hok.
  - by apply sp_progress with (ms := ms).
Qed.

(** Two CPUs: the first has taken the lock, the second spins. *)
Lemma two_cpus : ∃ s, rtc sp_step (sp_init [mk_cpu 0 0 true; mk_cpu 0 0 true], [Out; Out]) (s, [Got; Spinning]).
Proof.
  eexists. eapply rtc_l. { by eapply (sp_enter _ _ _ 0). } eapply rtc_l. { by eapply (sp_enter _ _ _ 1). }
  eapply rtc_l. { by eapply (sp_xchg _ _ _ 0 true). } eapply rtc_l. { by eapply (sp_xchg _ _ _ 1 false). } apply rtc_refl.
Qed.

Lemma spinlock_excludes_witness : ∃ s k, sp_cpus s !! 0%nat = Some k ∧ c_if k = false.
Proof.
  destruct two_cpus as [s Hr]. exists s.
  apply (spinlock_excludes [mk_cpu 0 0 true; mk_cpu 0 0 true] s [Got; Spinning] 0 Got); [by repeat constructor|exact Hr|done|].
  unfold owns. auto.
Defined.
