(* ===== verification/Kalloc.v ===== *)
(** * Physical page allocator (kalloc.c, memlayout.h)

    Free pages are linked through their first word.  Memory is the byte memory
    of [CString], addressed by kernel virtual addresses; the lock makes each
    call one step. *)

From S2P Require Import Prelude CString Mem.

Section kalloc.
(** [end]: the first address after the kernel. *)
Context (kend : Z).

(** [kmem] and the memory; the null pointer is 0. *)
Record kmem := mk_kmem { km_mem : mem; km_use_lock : Z; km_freelist : Z }.

Definition kfree (v : Z) : M kmem unit :=
  if negb (v mod PGSIZE =? 0) || (v <? kend) || (PHYSTOP <=? V2P v) then panic "kfree" else
  modify (λ s, mk_kmem (memset v 1 PGSIZE (km_mem s)) (km_use_lock s) (km_freelist s)) ;;
  modify (λ s, mk_kmem (store32 v (km_freelist s) (km_mem s)) (km_use_lock s) v).

Definition kalloc : M kmem Z :=
  s ← get;
  let r := km_freelist s in
  when (negb (r =? 0)) (modify (λ s, mk_kmem (km_mem s) (km_use_lock s) (load32 (km_mem s) r))) ;;
  mret r.

(** [for(; p + PGSIZE <= vend; p += PGSIZE) kfree(p)] *)
Fixpoint freerange_loop (fuel : nat) (p vend : Z) : M kmem unit :=
  match fuel with
  | O => undef "freerange fuel"
  | S fuel' =>
      if u32 (p + PGSIZE) <=? vend then kfree p ;; freerange_loop fuel' (u32 (p + PGSIZE)) vend
      else mret tt
  end.
Definition freerange (vstart vend : Z) : M kmem unit :=
  freerange_loop (S (Z.to_nat (vend / PGSIZE))) (PGROUNDUP vstart) vend.

Definition kinit1 (vstart vend : Z) : M kmem unit :=
  modify (λ s, mk_kmem (km_mem s) 0 (km_freelist s)) ;;
  freerange vstart vend.
Definition kinit2 (vstart vend : Z) : M kmem unit :=
  freerange vstart vend ;;
  modify (λ s, mk_kmem (km_mem s) 1 (km_freelist s)).

(** ** The free list *)

(** A page [kfree] accepts. *)
Definition page_ok (p : Z) : Prop := p mod PGSIZE = 0 ∧ kend ≤ p ∧ KERNBASE ≤ p < KERNBASE + PHYSTOP.

(** The pages linked from address [a]. *)
Fixpoint chain (m : mem) (a : Z) (l : list Z) : Prop :=
  match l with
  | [] => a = 0
  | p :: l' => a = p ∧ page_ok p ∧ chain m (load32 m p) l'
  end.

Definition in_page (p a : Z) : Prop := p ≤ a < p + PGSIZE.

(** ** Lemmas *)

Lemma page_ok_V2P p : page_ok p → V2P p < PHYSTOP ∧ V2P p mod PGSIZE = 0.
Proof.
  intros (Ha & _ & Hr). unfold V2P. rewrite u32_small by (unfold KERNBASE, PHYSTOP in *; lia).
  unfold KERNBASE, PGSIZE, PHYSTOP in *. dlia.
Qed.

Lemma kfree_guard v : page_ok v → negb (v mod PGSIZE =? 0) || (v <? kend) || (PHYSTOP <=? V2P v) = false.
Proof. intros Hp. destruct (page_ok_V2P v Hp). destruct Hp as (Ha & Hk & _). rewrite Ha. simpl. lia. Qed.

Lemma chain_pages m a l : chain m a l → Forall page_ok l.
Proof. revert a. induction l as [|p l IH]; intros a; [constructor|]. intros (_ & Hp & Hc). constructor; eauto. Qed.

(** Distinct pages do not overlap. *)
Lemma pages_apart p q a : page_ok p → page_ok q → p ≠ q → in_page p a → ¬ in_page q a.
Proof. intros (Hp & _) (Hq & _) Hne Ha Hb. unfold in_page, PGSIZE in *. apply Hne. dlia. Qed.

(** The list does not see changes outside its pages. *)
Lemma chain_ext m m' a l :
  (∀ p b, p ∈ l → in_page p b → m b = m' b) → chain m a l → chain m' a l.
Proof.
  revert a. induction l as [|p l IH]; intros a Hm; [done|]. intros (-> & Hp & Hc). split; [done|]. split; [done|].
  rewrite <- (load32_ext m m' p).
  - apply IH; [|done]. intros q b Hq. apply Hm. by right.
  - intros b Hb. apply (Hm p); [by left|]. unfold in_page, PGSIZE. lia.
Qed.

Lemma chain_unique m a l l' : chain m a l → chain m a l' → (∀ p, p ∈ l ++ l' → p ≠ 0) → l = l'.
Proof.
  revert a l'. induction l as [|p l IH]; intros a [|q l'] Hc Hc' Hz; simpl in *; try done.
  - destruct Hc' as (<- & _). destruct (Hz a); [set_solver|done].
  - destruct Hc as (<- & _). destruct (Hz a); [set_solver|done].
  - destruct Hc as (-> & _ & Hc), Hc' as (<- & _ & Hc'). f_equal. apply (IH _ _ Hc Hc'). intros x Hx. apply Hz. set_solver.
Qed.

Lemma page_nonzero p : page_ok p → p ≠ 0.
Proof. intros (_ & _ & H). unfold KERNBASE in H. lia. Qed.

(** The memory after [kfree]: junk, and the link. *)
Definition freed_mem (v next : Z) (m : mem) : mem := store32 v next (memset v 1 PGSIZE m).

Lemma kfree_run pid s v :
  page_ok v → kfree v pid s = Ret tt (mk_kmem (freed_mem v (km_freelist s) (km_mem s)) (km_use_lock s) v).
Proof. intros Hp. unfold kfree. rewrite kfree_guard by done. by destruct s. Qed.

Lemma freed_mem_other v next m a : ¬ in_page v a → freed_mem v next m a = m a.
Proof.
  unfold in_page, PGSIZE. intros Ha. unfold freed_mem. rewrite store32_other by lia.
  rewrite memset_spec by (unfold PGSIZE; lia). unfold PGSIZE. by rewrite decide_False by lia.
Qed.

Lemma freed_mem_junk v next m a : v + 4 ≤ a < v + PGSIZE → freed_mem v next m a = 1.
Proof.
  unfold PGSIZE. intros Ha. unfold freed_mem. rewrite store32_other by lia.
  rewrite memset_spec by (unfold PGSIZE; lia). unfold PGSIZE. by rewrite decide_True by lia.
Qed.

Lemma chain_kfree m a v l :
  0 ≤ a < 2 ^ 32 → page_ok v → v ∉ l → chain m a l → chain (freed_mem v a m) v (v :: l).
Proof.
  intros Ha Hv Hn Hc. split; [done|]. split; [done|].
  assert (load32 (freed_mem v a m) v = a) as ->.
  { unfold freed_mem. rewrite load32_store32. by apply u32_small. }
  eapply chain_ext; [|exact Hc]. intros p b Hp Hb. symmetry. apply freed_mem_other.
  apply chain_pages in Hc. eapply pages_apart; [|done| |done].
  - by eapply Forall_forall in Hc.
  - intros ->. done.
Qed.

(** ** Pages in use and free

    [A] is the set of pages handed out.  Their users write to them, and call
    [kalloc] and [kfree]; [kstep] is one such action. *)
Record kinv (s : kmem) (l A : list Z) : Prop := mk_kinv {
  ki_chain : chain (km_mem s) (km_freelist s) l;
  ki_pages : Forall page_ok A;
  ki_nodup : NoDup (l ++ A);
}.

Inductive kstep : kmem * list Z → kmem * list Z → Prop :=
| k_alloc pid s s' A r :
    kalloc pid s = Ret r s' → kstep (s, A) (s', if r =? 0 then A else r :: A)
| k_free pid s s' A1 p A2 :
    kfree p pid s = Ret tt s' → kstep (s, A1 ++ p :: A2) (s', A1 ++ A2)
| k_write s A p a x :
    p ∈ A → in_page p a → kstep (s, A) (mk_kmem (<[a := x]> (km_mem s)) (km_use_lock s) (km_freelist s), A).

Lemma chain_range m a l : chain m a l → 0 ≤ a < 2 ^ 32.
Proof. destruct l as [|p l]; [intros ->; lia|]. intros (-> & (_ & _ & H) & _). unfold KERNBASE, PHYSTOP in H. lia. Qed.

Lemma kstep_inv s A s' A' l :
  kinv s l A → kstep (s, A) (s', A') → ∃ l', kinv s' l' A' ∧ Permutation (l' ++ A') (l ++ A).
Proof.
  intros [Hc Hp Hn] Hs. inversion Hs as [pid ? ? ? r E|pid ? ? A1 p A2 E|? ? p a x Hin Ha]; subst.
  - unfold kalloc in E. destruct l as [|p l]; simpl in Hc.
    + rewrite (bind_Ret get _ pid s s s eq_refl) in E. rewrite Hc in E. simpl in E. cbv [mbind M_bind mret M_ret] in E.
      injection E as <- <-. exists []. simpl. split; [|done]. by split.
    + destruct Hc as (E0 & Hpk & Hc). pose proof (page_nonzero p Hpk) as Hz.
      rewrite (bind_Ret get _ pid s s s eq_refl) in E. cbv beta in E. rewrite E0, (proj2 (Z.eqb_neq _ _)) in E by done.
      cbv [negb when modify mbind M_bind mret M_ret] in E. injection E as <- <-. rewrite (proj2 (Z.eqb_neq _ _)) by done.
      exists l. split; [|symmetry; apply Permutation_middle]. split; simpl.
      * done.
      * by constructor.
      * by rewrite <- Permutation_middle.
  - assert (page_ok p) as Hpk by (by apply Forall_app in Hp as [_ [Hp _]%Forall_cons]).
    rewrite (kfree_run pid s p Hpk) in E. injection E as <-. exists (p :: l).
    assert (Permutation ((p :: l) ++ A1 ++ A2) (l ++ A1 ++ p :: A2)) as HP by solve_Permutation.
    split; [|done]. split; simpl.
    + pose proof (chain_kfree (km_mem s) (km_freelist s) p l (chain_range _ _ _ Hc) Hpk) as Hk. apply Hk; [|done].
      intros Hin. apply NoDup_app in Hn as (_ & Hd & _). apply (Hd p Hin). set_solver.
    + apply Forall_app in Hp as [H1 [_ H2]%Forall_cons]. by apply Forall_app.
    + rewrite app_comm_cons. by rewrite HP.
  - exists l. split; [|done]. split; simpl; [|done|done]. eapply chain_ext; [|exact Hc]. intros q b Hq Hb.
    rewrite fn_lookup_insert_ne; [done|]. intros ->. apply chain_pages in Hc as Hl.
    apply NoDup_app in Hn as (_ & Hd & _). assert (q ≠ p) as Hne by (intros ->; by apply (Hd p)).
    apply (pages_apart q p b); try done.
    + by eapply Forall_forall in Hl.
    + by eapply Forall_forall in Hp.
Qed.

(** ** Filling the list at boot *)

(** The whole pages in [p, vend), [p] a page boundary. *)
Definition pages_in (p vend : Z) : list Z := (λ k, p + PGSIZE * k) <$> seqZ 0 ((vend - p) / PGSIZE).

Lemma pages_in_cons p vend : p + PGSIZE ≤ vend → pages_in p vend = p :: pages_in (p + PGSIZE) vend.
Proof.
  intros H. unfold pages_in. assert (0 < (vend - p) / PGSIZE) as Hn by (unfold PGSIZE in *; dlia).
  rewrite seqZ_cons by done. rewrite fmap_cons. f_equal; [lia|].
  replace ((vend - (p + PGSIZE)) / PGSIZE) with (Z.pred ((vend - p) / PGSIZE)) by (unfold PGSIZE in *; dlia).
  rewrite <- (fmap_add_seqZ 1 0), <- list_fmap_compose. apply list_fmap_ext. intros _ k _. simpl. lia.
Qed.

Lemma pages_in_nil p vend : vend < p + PGSIZE → pages_in p vend = [].
Proof. intros H. unfold pages_in. rewrite seqZ_nil; [done|]. unfold PGSIZE in *. dlia. Qed.

Lemma freerange_loop_run pid vend fuel : ∀ s p l,
  p mod PGSIZE = 0 → kend ≤ p → KERNBASE ≤ p ≤ KERNBASE + PHYSTOP → vend ≤ KERNBASE + PHYSTOP →
  (Z.to_nat ((vend - p) / PGSIZE) < fuel)%nat →
  chain (km_mem s) (km_freelist s) l → Forall (λ q, q ∉ l) (pages_in p vend) →
  ∃ s', freerange_loop fuel p vend pid s = Ret tt s' ∧ km_use_lock s' = km_use_lock s ∧
    chain (km_mem s') (km_freelist s') (reverse (pages_in p vend) ++ l) ∧
    ∀ a, ¬ (p ≤ a < vend) → km_mem s' a = km_mem s a.
Proof.
  induction fuel as [|fuel IH]; intros s p l Hp Hk Hb Hv Hf Hc Hn; [lia|]. cbn [freerange_loop].
  destruct (decide (p + PGSIZE ≤ vend)) as [Hle|Hgt].
  - assert (page_ok p) as Hpk by (unfold page_ok, PGSIZE, KERNBASE, PHYSTOP in *; lia).
    assert (u32 (p + PGSIZE) = p + PGSIZE) as Hu by (apply u32_small; unfold KERNBASE, PHYSTOP, PGSIZE in *; lia).
    rewrite Hu, (proj2 (Z.leb_le _ _)) by done. rewrite (pages_in_cons p vend Hle) in Hn |- *. apply Forall_cons in Hn as [Hnp Hn].
    destruct (IH (mk_kmem (freed_mem p (km_freelist s) (km_mem s)) (km_use_lock s) p) (p + PGSIZE) (p :: l)) as (s' & E & El & Hc' & Hm).
    + unfold PGSIZE in *. dlia.
    + unfold PGSIZE. lia.
    + unfold PGSIZE in *. lia.
    + done.
    + unfold PGSIZE in *. dlia.
    + apply chain_kfree; try done. by eapply chain_range.
    + apply Forall_forall. intros q Hq. rewrite not_elem_of_cons. split; [|by eapply Forall_forall in Hn].
      intros ->. unfold pages_in in Hq. apply list_elem_of_fmap in Hq as (k & Ek & Hk'%elem_of_seqZ). unfold PGSIZE in *. lia.
    + exists s'. split; [mrun (kfree_run pid s p Hpk); exact E|]. split; [exact El|].
      split; [rewrite reverse_cons, <- app_assoc; exact Hc'|].
      intros a Ha. rewrite Hm by (unfold PGSIZE in *; lia). apply freed_mem_other. unfold in_page, PGSIZE in *. lia.
  - rewrite (pages_in_nil p vend) by lia. rewrite (proj2 (Z.leb_gt _ _)); [by exists s|].
    rewrite u32_small; [lia|]. unfold KERNBASE, PHYSTOP, PGSIZE in *. lia.
Qed.

Lemma pages_in_ok p vend :
  p mod PGSIZE = 0 → kend ≤ p → KERNBASE ≤ p → vend ≤ KERNBASE + PHYSTOP → NoDup (pages_in p vend) ∧ Forall page_ok (pages_in p vend).
Proof.
  intros Hp Hk Hb Hv. split.
  - apply NoDup_fmap_2; [|apply NoDup_seqZ]. intros i j. unfold PGSIZE. lia.
  - apply Forall_forall. intros q Hq. unfold pages_in in Hq. apply list_elem_of_fmap in Hq as (k & -> & Hk'%elem_of_seqZ).
    unfold page_ok, PGSIZE in *. dlia.
Qed.

(** [kinit1] on an empty list puts every whole page of its range on it. *)
Lemma kinit1_run pid s vstart vend :
  km_freelist s = 0 → kend ≤ vstart → KERNBASE ≤ vstart → vstart ≤ vend → vend ≤ KERNBASE + PHYSTOP →
  ∃ s', kinit1 vstart vend pid s = Ret tt s' ∧ kinv s' (reverse (pages_in (PGROUNDUP vstart) vend)) [].
Proof.
  intros Hz Hk Hb Hle Hv.
  destruct (PGROUNDUP_spec vstart) as [Hp Hr]; [unfold KERNBASE in *; lia|unfold KERNBASE, PHYSTOP, PGSIZE in *; lia|].
  destruct (freerange_loop_run pid vend (S (Z.to_nat (vend / PGSIZE))) (mk_kmem (km_mem s) 0 (km_freelist s)) (PGROUNDUP vstart) [])
    as (s' & E & _ & Hc & _); try done; try lia.
  - unfold PGSIZE, KERNBASE, PHYSTOP in *. dlia.
  - unfold PGSIZE, KERNBASE in *. dlia.
  - apply Forall_forall. intros q _. apply not_elem_of_nil.
  - exists s'. split; [unfold kinit1; mstep; exact E|]. rewrite app_nil_r in Hc. split; [done|constructor|].
    rewrite app_nil_r, reverse_Permutation. apply pages_in_ok; unfold PGSIZE in *; lia.
Qed.

(** Every run of the users of the allocator. *)
Lemma kstep_run s A s' A' l :
  kinv s l A → rtc kstep (s, A) (s', A') → ∃ l', kinv s' l' A' ∧ Permutation (l' ++ A') (l ++ A).
Proof.
  intros Hi Hr. remember (s, A) as x eqn:Ex. remember (s', A') as y eqn:Ey. revert s A l Ex Hi.
  induction Hr as [|x [s1 A1] y Hs Hr IH]; intros s A l -> Hi; [injection Ey as <- <-; eauto|].
  destruct (kstep_inv _ _ _ _ _ Hi Hs) as (l1 & Hi1 & HP1). destruct (IH Ey s1 A1 l1 eq_refl Hi1) as (l' & Hi' & HP').
  exists l'. split; [done|]. by rewrite HP'.
Qed.

(** C22. The page allocator neither loses nor duplicates pages: after boot, in
    every sequence of [kalloc], [kfree] of pages in use and writes to pages in
    use, the pages in use and the pages on the free list are together exactly
    the whole pages of the range given to [kinit1], each once; and [kalloc]
    then returns one that is not in use, or 0 when all are. *)
Theorem kalloc_conserves pid s0 s1 vstart vend s A :
  km_freelist s0 = 0 → kend ≤ vstart → KERNBASE ≤ vstart → vstart ≤ vend → vend ≤ KERNBASE + PHYSTOP →
  kinit1 vstart vend pid s0 = Ret tt s1 → rtc kstep (s1, []) (s, A) →
  ∃ l, chain (km_mem s) (km_freelist s) l ∧ NoDup (l ++ A) ∧ Permutation (l ++ A) (pages_in (PGROUNDUP vstart) vend) ∧
    ∃ r s', kalloc pid s = Ret r s' ∧ match l with [] => r = 0 | p :: _ => r = p ∧ r ∉ A end.
Proof.
  intros Hz Hk Hb Hle Hv E Hr. destruct (kinit1_run pid s0 vstart vend) as (s1' & E' & Hi); try done.
  rewrite E in E'. injection E' as <-. destruct (kstep_run _ _ _ _ _ Hi Hr) as (l & [Hc HpA Hn] & HP).
  rewrite app_nil_r in HP. exists l. split; [done|]. split; [done|]. split; [by rewrite HP, reverse_Permutation|].
  unfold kalloc. destruct l as [|p l]; simpl in Hc.
  - exists 0, s. split; [|done]. mstep. by rewrite Hc.
  - destruct Hc as (E0 & Hpk & _). pose proof (page_nonzero p Hpk). eexists p, _. split.
    + mstep. rewrite E0, (proj2 (Z.eqb_neq _ _)) by done. simpl. reflexivity.
    + split; [done|]. apply NoDup_cons in Hn as [Hn _]. set_solver.
Qed.

End kalloc.

Lemma kalloc_conserves_witness : ∃ s p l, chain 0 (km_mem s) (km_freelist s) l ∧ p ∉ l ∧
  Permutation (l ++ [p]) (pages_in (PGROUNDUP KERNLINK) (KERNLINK + 3 * PGSIZE)).
Proof.
  set (s0 := mk_kmem (λ _, 0) 0 0). set (top := KERNLINK + 3 * PGSIZE).
  destruct (kinit1_run 0 1 s0 KERNLINK top) as (s1 & E & _); try done.
  destruct (kalloc_conserves 0 1 s0 s1 KERNLINK top s1 []) as (l & Hc & _ & HP & r & s2 & E2 & Hr); try done.
  destruct l as [|p l]; [apply Permutation_nil_l in HP; by vm_compute in HP|]. destruct Hr as [-> _].
  destruct Hc as (_ & Hpk & _). pose proof (page_nonzero 0 p Hpk) as Hz.
  destruct (kalloc_conserves 0 1 s0 s1 KERNLINK top s2 [p]) as (l2 & Hc2 & Hn & HP2 & _); try done.
  { pose proof (rtc_once _ _ (k_alloc 0 1 s1 s2 [] p E2)) as Hs. by rewrite (proj2 (Z.eqb_neq _ _) Hz) in Hs. }
  exists s2, p, l2. split; [exact Hc2|]. split; [|exact HP2]. apply NoDup_app in Hn as (_ & Hn & _). intros Hin. apply (Hn p Hin). by left.
Defined.
