(* ===== verification/Vm.v ===== *)
(** * Page tables (vm.c, mmu.h)

    A page table lives in pages of the memory of [Kalloc]: a directory of 1024
    32-bit entries, each naming a page of 1024 entries.  Pointers are kernel
    virtual addresses, 0 the null pointer. *)

From S2P Require Import Prelude Layout CString Mem Kalloc.

Definition PTXSHIFT : Z := 12.
Definition PDXSHIFT : Z := 22.
Definition PDX (va : Z) : Z := Z.land (Z.shiftr va PDXSHIFT) 0x3FF.
Definition PTX (va : Z) : Z := Z.land (Z.shiftr va PTXSHIFT) 0x3FF.
Definition PGADDR (d t o : Z) : Z := u32 (Z.lor (Z.lor (Z.shiftl d PDXSHIFT) (Z.shiftl t PTXSHIFT)) o).
Definition NPDENTRIES : Z := 1024.

Definition PTE_P : Z := 0x001.
Definition PTE_W : Z := 0x002.
Definition PTE_U : Z := 0x004.
Definition PTE_ADDR (pte : Z) : Z := Z.land pte (Z.lnot 0xFFF).
Definition PTE_FLAGS (pte : Z) : Z := Z.land pte 0xFFF.
Definition pte_has (pte flag : Z) : bool := negb (Z.land pte flag =? 0).

(** Loads and stores through kernel pointers. *)
Definition kload (a : Z) : M kmem Z := gets (λ s, load32 (km_mem s) a).
Definition k_upd (f : mem → mem) : M kmem unit :=
  modify (λ s, mk_kmem (f (km_mem s)) (km_use_lock s) (km_freelist s)).
Definition kstore (a v : Z) : M kmem unit := k_upd (store32 a v).

(** A copy from a buffer outside the modelled memory. *)
Fixpoint write_bytes (a : Z) (l : list Z) (m : mem) : mem :=
  match l with
  | [] => m
  | c :: l' => write_bytes (a + 1) l' (<[a := c]> m)
  end.

(** Rows of [kmap]. *)
Record kmap_row := mk_kmap { km_virt : Z; km_phys_start : Z; km_phys_end : Z; km_perm : Z }.

Section vm.
(** Symbols of the linker script: the end of the kernel and of its read-only
    part. *)
Context (kend kdata : Z).

Definition walkpgdir (pgdir va alloc : Z) : M kmem Z :=
  let pde := pgdir + 4 * PDX va in
  e ← kload pde;
  if pte_has e PTE_P then mret (P2V (PTE_ADDR e) + 4 * PTX va)
  else if alloc =? 0 then mret 0 else
    pgtab ← kalloc;
    if pgtab =? 0 then mret 0 else
    k_upd (memset pgtab 0 PGSIZE) ;;
    kstore pde (Z.lor (Z.lor (Z.lor (V2P pgtab) PTE_P) PTE_W) PTE_U) ;;
    mret (pgtab + 4 * PTX va).

(** The [for(;;)] of [mappages], from [a] and [pa]. *)
Fixpoint mappages_loop (fuel : nat) (pgdir a last pa perm : Z) : M kmem Z :=
  match fuel with
  | O => undef "mappages fuel"
  | S fuel' =>
      pte ← walkpgdir pgdir a 1;
      if pte =? 0 then mret (-1) else
      e ← kload pte;
      if pte_has e PTE_P then panic "remap" else
      kstore pte (Z.lor (Z.lor pa perm) PTE_P) ;;
      if a =? last then mret 0
      else mappages_loop fuel' pgdir (u32 (a + PGSIZE)) last (u32 (pa + PGSIZE)) perm
  end.
Definition mappages (pgdir va size pa perm : Z) : M kmem Z :=
  let a := PGROUNDDOWN va in
  let last := PGROUNDDOWN (u32 (va + size - 1)) in
  mappages_loop (S (Z.to_nat (u32 (last - a) / PGSIZE))) pgdir a last pa perm.

(** The loop of [deallocuvm]. *)
Fixpoint dealloc_loop (fuel : nat) (pgdir a oldsz : Z) : M kmem unit :=
  match fuel with
  | O => undef "deallocuvm fuel"
  | S fuel' =>
      if a <? oldsz then
        pte ← walkpgdir pgdir a 0;
        if pte =? 0 then
          dealloc_loop fuel' pgdir (u32 (u32 (PGADDR (PDX a + 1) 0 0 - PGSIZE) + PGSIZE)) oldsz
        else
          e ← kload pte;
          (if pte_has e PTE_P then
             let pa := PTE_ADDR e in
             if pa =? 0 then panic "kfree" else
             kfree kend (P2V pa) ;;
             kstore pte 0
           else mret tt) ;;
          dealloc_loop fuel' pgdir (u32 (a + PGSIZE)) oldsz
      else mret tt
  end.
Definition deallocuvm (pgdir oldsz newsz : Z) : M kmem Z :=
  if oldsz <=? newsz then mret oldsz else
  dealloc_loop (S (S (Z.to_nat (oldsz / PGSIZE)))) pgdir (PGROUNDUP newsz) oldsz ;;
  mret newsz.

(** The loop of [freevm] over the directory. *)
Definition freevm_one (pgdir i : Z) : M kmem unit :=
  e ← kload (pgdir + 4 * i);
  if pte_has e PTE_P then kfree kend (P2V (PTE_ADDR e)) else mret tt.
Definition freevm (pgdir : Z) : M kmem unit :=
  if pgdir =? 0 then panic "freevm: no pgdir" else
  deallocuvm pgdir KERNBASE 0 ;;
  forM (seqZ 0 NPDENTRIES) (freevm_one pgdir) ;;
  kfree kend pgdir.

Definition kmap : list kmap_row :=
  [ mk_kmap KERNBASE 0 EXTMEM PTE_W;
    mk_kmap KERNLINK (V2P KERNLINK) (V2P kdata) 0;
    mk_kmap kdata (V2P kdata) PHYSTOP PTE_W;
    mk_kmap DEVSPACE DEVSPACE 0 PTE_W ].

(** The loop of [setupkvm]. *)
Fixpoint setupkvm_loop (pgdir : Z) (l : list kmap_row) : M kmem Z :=
  match l with
  | [] => mret pgdir
  | k :: l' =>
      r ← mappages pgdir (km_virt k) (u32 (km_phys_end k - km_phys_start k)) (km_phys_start k) (km_perm k);
      if r <? 0 then freevm pgdir ;; mret 0 else setupkvm_loop pgdir l'
  end.
Definition setupkvm : M kmem Z :=
  pgdir ← kalloc;
  if pgdir =? 0 then mret 0 else
  k_upd (memset pgdir 0 PGSIZE) ;;
  if DEVSPACE <? P2V PHYSTOP then panic "PHYSTOP too high" else
  setupkvm_loop pgdir kmap.

(** [inituvm] does not test the result of [kalloc]. *)
Definition inituvm (pgdir : Z) (init : list Z) (sz : Z) : M kmem unit :=
  if PGSIZE <=? sz then panic "inituvm: more than a page" else
  mem ← kalloc;
  if mem =? 0 then undef "inituvm: null page" else
  k_upd (memset mem 0 PGSIZE) ;;
  mappages pgdir 0 PGSIZE (V2P mem) (Z.lor PTE_W PTE_U) ;;
  k_upd (write_bytes mem (take (Z.to_nat sz) init)).

(** The loop of [allocuvm], from [a]. *)
Fixpoint alloc_loop (fuel : nat) (pgdir a oldsz newsz : Z) : M kmem Z :=
  match fuel with
  | O => undef "allocuvm fuel"
  | S fuel' =>
      if a <? newsz then
        mem ← kalloc;
        if mem =? 0 then deallocuvm pgdir newsz oldsz ;; mret 0 else
        k_upd (memset mem 0 PGSIZE) ;;
        r ← mappages pgdir a PGSIZE (V2P mem) (Z.lor PTE_W PTE_U);
        if r <? 0 then deallocuvm pgdir newsz oldsz ;; kfree kend mem ;; mret 0
        else alloc_loop fuel' pgdir (u32 (a + PGSIZE)) oldsz newsz
      else mret newsz
  end.
Definition allocuvm (pgdir oldsz newsz : Z) : M kmem Z :=
  if KERNBASE <=? newsz then mret 0 else
  if newsz <? oldsz then mret oldsz else
  alloc_loop (S (S (Z.to_nat (newsz / PGSIZE)))) pgdir (PGROUNDUP oldsz) oldsz newsz.

Definition clearpteu (pgdir uva : Z) : M kmem unit :=
  pte ← walkpgdir pgdir uva 0;
  if pte =? 0 then panic "clearpteu" else
  e ← kload pte;
  kstore pte (Z.land e (Z.lnot PTE_U)).

(** The loop of [copyuvm]; [false] is [goto bad]. *)
Fixpoint copy_loop (fuel : nat) (pgdir d i sz : Z) : M kmem bool :=
  match fuel with
  | O => undef "copyuvm fuel"
  | S fuel' =>
      if i <? sz then
        pte ← walkpgdir pgdir i 0;
        if pte =? 0 then panic "copyuvm: pte should exist" else
        e ← kload pte;
        if negb (pte_has e PTE_P) then panic "copyuvm: page not present" else
        let pa := PTE_ADDR e in
        let flags := PTE_FLAGS e in
        mem ← kalloc;
        if mem =? 0 then mret false else
        k_upd (memmove mem (P2V pa) PGSIZE) ;;
        r ← mappages d i PGSIZE (V2P mem) flags;
        if r <? 0 then kfree kend mem ;; mret false
        else copy_loop fuel' pgdir d (u32 (i + PGSIZE)) sz
      else mret true
  end.
Definition copyuvm (pgdir sz : Z) : M kmem Z :=
  d ← setupkvm;
  if d =? 0 then mret 0 else
  ok ← copy_loop (S (S (Z.to_nat (sz / PGSIZE)))) pgdir d 0 sz;
  if (ok : bool) then mret d else freevm d ;; mret 0.

(** [uva2ka] reads [*pte] also where [walkpgdir] returns null. *)
Definition uva2ka (pgdir uva : Z) : M kmem Z :=
  pte ← walkpgdir pgdir uva 0;
  if pte =? 0 then undef "uva2ka: null pte" else
  e ← kload pte;
  if negb (pte_has e PTE_P) then mret 0 else
  if negb (pte_has e PTE_U) then mret 0 else
  mret (P2V (PTE_ADDR e)).

(** [copyout] of the bytes [buf]. *)
Fixpoint copyout_loop (fuel : nat) (pgdir va : Z) (buf : list Z) (len : Z) : M kmem Z :=
  match fuel with
  | O => undef "copyout fuel"
  | S fuel' =>
      if 0 <? len then
        let va0 := PGROUNDDOWN va in
        pa0 ← uva2ka pgdir va0;
        if pa0 =? 0 then mret (-1) else
        let n := PGSIZE - (va - va0) in
        let n := if len <? n then len else n in
        k_upd (write_bytes (pa0 + (va - va0)) (take (Z.to_nat n) buf)) ;;
        copyout_loop fuel' pgdir (u32 (va0 + PGSIZE)) (drop (Z.to_nat n) buf) (len - n)
      else mret 0
  end.
Definition copyout (pgdir va : Z) (buf : list Z) (len : Z) : M kmem Z :=
  copyout_loop (S (Z.to_nat len)) pgdir va buf len.

End vm.
