(* ===== verification/VmSpec.v ===== *)
(** * Page tables: representation and elementary steps

    [vmrep] relates the memory to an address space: the directory, the tables
    it names, and the entry of each of the 2^20 virtual pages.  The pages of
    the table, the other pages in use and the free list are disjoint, so that
    each elementary step of vm.c changes one of them and keeps the others. *)

From S2P Require Import Prelude Layout CString Mem Kalloc Vm.

(** ** Bits of entries and addresses *)

Lemma PDX_div va : 0 ≤ va < 2 ^ 32 → PDX va = va / PGSIZE / 1024 ∧ 0 ≤ PDX va < 1024.
Proof.
  intros Hv. unfold PDX, PDXSHIFT, PGSIZE. change 0x3FF with (2 ^ 10 - 1).
  rewrite land_ones_mod, Z.shiftr_div_pow2 by lia. dlia.
Qed.

Lemma PTX_div va : 0 ≤ va < 2 ^ 32 → PTX va = (va / PGSIZE) mod 1024 ∧ 0 ≤ PTX va < 1024.
Proof.
  intros Hv. unfold PTX, PTXSHIFT, PGSIZE. change 0x3FF with (2 ^ 10 - 1).
  rewrite land_ones_mod, Z.shiftr_div_pow2 by lia. dlia.
Qed.

Lemma pte_addr_mod x : 0 ≤ x → PTE_ADDR x = x - x mod PGSIZE.
Proof. intros Hx. unfold PTE_ADDR. change 0xFFF with (PGSIZE - 1). by apply land_lnot_pages. Qed.

Lemma pte_flags_mod x : PTE_FLAGS x = x mod PGSIZE.
Proof. unfold PTE_FLAGS. change 0xFFF with (2 ^ 12 - 1). by rewrite land_ones_mod by lia. Qed.

Lemma pte_has_P x : pte_has x PTE_P = negb (x mod 2 =? 0).
Proof. unfold pte_has, PTE_P. change 1 with (2 ^ 1 - 1). by rewrite land_ones_mod by lia. Qed.

(** Entry [pa | perm | PTE_P] of an aligned frame. *)
Definition pte_val (pa perm : Z) : Z := Z.lor (Z.lor pa perm) PTE_P.

Lemma lor_small k a b : 0 ≤ k → 0 ≤ a < 2 ^ k → 0 ≤ b < 2 ^ k → 0 ≤ Z.lor a b < 2 ^ k.
Proof.
  intros Hk Ha Hb. split; [by apply Z.lor_nonneg; lia|].
  destruct (decide (Z.lor a b = 0)) as [->|]; [lia|]. apply Z.log2_lt_pow2; [pose proof (proj2 (Z.lor_nonneg a b)); lia|].
  rewrite Z.log2_lor by lia. destruct (decide (a = 0)) as [->|]; destruct (decide (b = 0)) as [->|].
  - simpl. assert (k ≠ 0) by (intros ->; rewrite Z.lor_0_r in *; lia). lia.
  - rewrite Z.max_r by (apply Z.log2_nonneg). apply Z.log2_lt_pow2; lia.
  - rewrite Z.max_l by (apply Z.log2_nonneg). apply Z.log2_lt_pow2; lia.
  - apply Z.max_lub_lt; apply Z.log2_lt_pow2; lia.
Qed.

Lemma pte_val_eq pa perm :
  pa mod PGSIZE = 0 → 0 ≤ perm < PGSIZE → pte_val pa perm = pa + Z.lor perm PTE_P.
Proof.
  intros Hpa Hp. unfold pte_val, PTE_P. rewrite <- Z.lor_assoc, Z.lor_comm.
  rewrite (lor_add_disjoint 12); [lia|lia| |exact Hpa]. apply lor_small; unfold PGSIZE in *; lia.
Qed.

Lemma lor_P perm : 0 ≤ perm < PGSIZE → 0 ≤ Z.lor perm PTE_P < PGSIZE ∧ Z.lor perm PTE_P mod 2 = 1.
Proof.
  intros Hp. split; [apply (lor_small 12); unfold PTE_P; lia || exact Hp|].
  rewrite <- Z.bit0_mod. rewrite Z.lor_spec. unfold PTE_P. change (Z.testbit 1 0) with true. by rewrite orb_true_r.
Qed.

Lemma pte_val_spec pa perm :
  0 ≤ pa < 2 ^ 32 → pa mod PGSIZE = 0 → 0 ≤ perm < PGSIZE →
  0 ≤ pte_val pa perm < 2 ^ 32 ∧ PTE_ADDR (pte_val pa perm) = pa ∧
  PTE_FLAGS (pte_val pa perm) = Z.lor perm PTE_P ∧ pte_has (pte_val pa perm) PTE_P = true.
Proof.
  intros Hr Hpa Hp. destruct (lor_P perm Hp) as [Hl Ho]. rewrite pte_has_P, pte_flags_mod, (pte_val_eq pa perm) by done.
  rewrite pte_addr_mod by lia. set (x := Z.lor perm PTE_P) in *. unfold PGSIZE in *. split; [dlia|]. split; [dlia|]. split; [dlia|].
  assert ((pa + x) mod 2 = 1) as -> by dlia. done.
Qed.

Lemma pte_has_0 flag : pte_has 0 flag = false.
Proof. done. Qed.

Lemma kload_run pid s a : kload a pid s = Ret (load32 (km_mem s) a) s.
Proof. done. Qed.

(** ** Representation *)

Section rep.
Context (kend : Z).
Implicit Types (s : kmem) (l R : list Z) (tabs : gmap Z Z) (f : Z → Z).

(** Pages of the tables. *)
Definition tpages tabs : list Z := (map_to_list tabs).*2.

Record vmrep s l (pgdir : Z) tabs f R : Prop := mk_vmrep {
  vr_inv : kinv kend s l (pgdir :: tpages tabs ++ R);
  vr_dom : ∀ d t, tabs !! d = Some t → 0 ≤ d < 1024;
  vr_pde : ∀ d, 0 ≤ d < 1024 → load32 (km_mem s) (pgdir + 4 * d) =
    match tabs !! d with Some t => V2P t + 7 | None => 0 end;
  vr_pte : ∀ v, 0 ≤ v < 2 ^ 20 → f v =
    match tabs !! (v / 1024) with Some t => load32 (km_mem s) (t + 4 * (v mod 1024)) | None => 0 end;
}.

(** The memory of a page is the same. *)
Definition page_same (m m' : mem) (p : Z) : Prop := ∀ a, in_page p a → m' a = m a.

Lemma tpages_elem tabs t : t ∈ tpages tabs ↔ ∃ d, tabs !! d = Some t.
Proof.
  unfold tpages. rewrite list_elem_of_fmap. split.
  - intros ([d t'] & -> & Hd%elem_of_map_to_list). eauto.
  - intros [d Hd]. exists (d, t). by rewrite elem_of_map_to_list.
Qed.

Lemma tpages_insert tabs d p : tabs !! d = None → Permutation (tpages (<[d := p]> tabs)) (p :: tpages tabs).
Proof. intros Hd. unfold tpages. by rewrite map_to_list_insert. Qed.

Lemma page_ok_addr p : page_ok kend p → P2V (V2P p) = p ∧ 0 ≤ V2P p < PHYSTOP ∧ V2P p mod PGSIZE = 0.
Proof.
  intros Hp. destruct (page_ok_V2P kend p Hp) as [H1 H2]. destruct Hp as (_ & _ & Hr). split; [|].
  - unfold P2V, V2P, u32. rewrite Zplus_mod_idemp_l. replace (p - KERNBASE + KERNBASE) with p by lia.
    apply Z.mod_small. unfold KERNBASE, PHYSTOP in *. lia.
  - split; [|done]. split; [apply u32_range|done].
Qed.

Lemma in_page_word p k : 0 ≤ k < 1024 → ∀ b, p + 4 * k ≤ b < p + 4 * k + 4 → in_page p b.
Proof. unfold in_page, PGSIZE. lia. Qed.

Lemma load_page_same m m' p k : page_same m m' p → 0 ≤ k < 1024 → load32 m' (p + 4 * k) = load32 m (p + 4 * k).
Proof. intros Hs Hk. apply load32_ext. intros b Hb. apply Hs. by eapply in_page_word. Qed.

(** The address space does not see changes outside its pages. *)
Lemma vmrep_frame s s' l l' pgdir tabs f R R' :
  vmrep s l pgdir tabs f R → kinv kend s' l' (pgdir :: tpages tabs ++ R') →
  page_same (km_mem s) (km_mem s') pgdir → (∀ t, t ∈ tpages tabs → page_same (km_mem s) (km_mem s') t) →
  vmrep s' l' pgdir tabs f R'.
Proof.
  intros [Hi Hd Hpde Hpte] Hi' Hs Ht. split; [done|done| |].
  - intros d Hr. rewrite <- Hpde by done. by apply load_page_same.
  - intros v Hv. rewrite Hpte by done. destruct (tabs !! (v / 1024)) as [t|] eqn:E; [|done]. symmetry.
    apply load_page_same; [|dlia]. apply Ht, tpages_elem. eauto.
Qed.

Lemma vmrep_nodup s l pgdir tabs f R : vmrep s l pgdir tabs f R → NoDup (l ++ pgdir :: tpages tabs ++ R).
Proof. intros [[_ _ H] _ _ _]. exact H. Qed.

Lemma vmrep_page s l pgdir tabs f R p : vmrep s l pgdir tabs f R → p ∈ pgdir :: tpages tabs ++ R → page_ok kend p.
Proof. intros [[_ H _] _ _ _] Hp. by eapply Forall_forall in H. Qed.

Lemma vmrep_tab s l pgdir tabs f R d t : vmrep s l pgdir tabs f R → tabs !! d = Some t → page_ok kend t.
Proof. intros Hr Ht. eapply vmrep_page; [done|]. right. apply elem_of_app. left. apply tpages_elem. eauto. Qed.

(** A table belongs to one directory entry. *)
Lemma vmrep_inj s l pgdir tabs f R d d' t :
  vmrep s l pgdir tabs f R → tabs !! d = Some t → tabs !! d' = Some t → d = d'.
Proof.
  intros Hr%vmrep_nodup Hd Hd'. destruct (decide (d = d')) as [|Hne]; [done|exfalso].
  apply NoDup_app in Hr as (_ & _ & [_ Hn]%NoDup_cons). apply NoDup_app in Hn as [Hn _].
  rewrite <- (insert_delete_id tabs d t), (tpages_insert (delete d tabs) d t) in Hn by (done || apply lookup_delete_eq).
  apply NoDup_cons in Hn as [Hn _]. apply Hn, tpages_elem. exists d'. by rewrite lookup_delete_ne.
Qed.

(** ** Elementary steps *)

Definition km_set (m : mem) s : kmem := mk_kmem m (km_use_lock s) (km_freelist s).

(** [m'] differs from [m] in page [p] only. *)
Definition only_page (m m' : mem) (p : Z) : Prop := ∀ a, ¬ in_page p a → m' a = m a.

Lemma only_page_same m m' p q : only_page m m' p → page_ok kend p → page_ok kend q → p ≠ q → page_same m m' q.
Proof. intros Ho Hp Hq Hne a Ha. apply Ho. intros Hb. by apply (pages_apart kend p q a). Qed.

Lemma kinv_upd s l A p m' :
  kinv kend s l A → p ∈ A → only_page (km_mem s) m' p → kinv kend (km_set m' s) l A.
Proof.
  intros [Hc Hp Hn] Hin Ho. split; [|done|done]. simpl. eapply chain_ext; [|exact Hc]. intros q b Hq Hb.
  symmetry. apply (only_page_same (km_mem s) m' p q); try done.
  - by eapply Forall_forall in Hp.
  - apply chain_pages in Hc. by eapply Forall_forall in Hc.
  - intros ->. apply NoDup_app in Hn as (_ & Hd & _). by apply (Hd q).
Qed.

Lemma kinv_perm s l A A' : kinv kend s l A → Permutation A A' → kinv kend s l A'.
Proof. intros [Hc Hp Hn] HP. split; [done|by rewrite <- HP|by rewrite <- HP]. Qed.

Lemma kalloc_run s p l A pid :
  kinv kend s (p :: l) A →
  kalloc pid s = Ret p (mk_kmem (km_mem s) (km_use_lock s) (load32 (km_mem s) p)) ∧ p ≠ 0 ∧ page_ok kend p ∧
  kinv kend (mk_kmem (km_mem s) (km_use_lock s) (load32 (km_mem s) p)) l (p :: A).
Proof.
  intros [(E & Hpk & Hc) Hp Hn]. pose proof (page_nonzero kend p Hpk) as Hz. split; [|split; [done|split; [done|]]].
  - unfold kalloc. mstep. rewrite E, (proj2 (Z.eqb_neq _ _)) by done. cbn [negb when]. mstep. done.
  - split; [done|by constructor|]. simpl in Hn. by rewrite <- Permutation_middle.
Qed.

Lemma kalloc_empty s A pid : kinv kend s [] A → kalloc pid s = Ret 0 s.
Proof. intros [Hc _ _]. simpl in Hc. unfold kalloc. mstep. by rewrite Hc. Qed.

Lemma kfree_inv s l A p pid :
  kinv kend s l (p :: A) → ∃ s', kfree kend p pid s = Ret tt s' ∧ kinv kend s' (p :: l) A ∧ only_page (km_mem s) (km_mem s') p.
Proof.
  intros [Hc Hp Hn]. apply Forall_cons in Hp as [Hpk Hp].
  eexists. split; [by apply kfree_run|]. split; [|intros a Ha; by apply freed_mem_other].
  rewrite <- Permutation_middle in Hn. split; [|done|done].
  apply chain_kfree; try done; [by eapply chain_range|]. apply NoDup_cons in Hn as [Hn _]. set_solver.
Qed.

(** The directory, the tables and the other pages are different pages. *)
Lemma vmrep_distinct s l pgdir tabs f R :
  vmrep s l pgdir tabs f R → pgdir ∉ tpages tabs ∧ pgdir ∉ R ∧ (∀ t, t ∈ tpages tabs → t ∉ R).
Proof.
  intros Hr%vmrep_nodup. apply NoDup_app in Hr as (_ & _ & [Hn1 Hn2]%NoDup_cons).
  apply NoDup_app in Hn2 as (_ & Hd & _). set_solver.
Qed.

Lemma vm_upd s l pgdir tabs f R p m' :
  vmrep s l pgdir tabs f R → p ∈ R → only_page (km_mem s) m' p → vmrep (km_set m' s) l pgdir tabs f R.
Proof.
  intros Hr Hp Ho. destruct (vmrep_distinct _ _ _ _ _ _ Hr) as (_ & H1 & H2).
  assert (∀ q, q ∈ pgdir :: tpages tabs ++ R → page_ok kend q) as Hok by (intros q; by eapply vmrep_page).
  apply (vmrep_frame s _ l l pgdir tabs f R R Hr).
  - eapply kinv_upd; [apply Hr| |done]. set_solver.
  - apply (only_page_same _ _ p); [done|apply Hok; set_solver|apply Hok; set_solver|set_solver].
  - intros t Ht. apply (only_page_same _ _ p); [done|apply Hok; set_solver|apply Hok; set_solver|set_solver].
Qed.

(** Storing an entry. *)
Lemma vm_set_pte s l pgdir tabs f R v t x :
  vmrep s l pgdir tabs f R → 0 ≤ v < 2 ^ 20 → tabs !! (v / 1024) = Some t → 0 ≤ x < 2 ^ 32 →
  vmrep (km_set (store32 (t + 4 * (v mod 1024)) x (km_mem s)) s) l pgdir tabs (<[v := x]> f) R ∧
  only_page (km_mem s) (store32 (t + 4 * (v mod 1024)) x (km_mem s)) t.
Proof.
  intros Hr Hv Ht Hx. assert (0 ≤ v mod 1024 < 1024) as Hm by dlia.
  assert (only_page (km_mem s) (store32 (t + 4 * (v mod 1024)) x (km_mem s)) t) as Ho.
  { intros a Ha. apply store32_other. intros Hb. apply Ha. by eapply in_page_word. }
  split; [|done]. assert (t ∈ tpages tabs) as Htp by (apply tpages_elem; eauto).
  destruct (vmrep_distinct _ _ _ _ _ _ Hr) as (H0 & H1 & H2).
  assert (∀ q, q ∈ pgdir :: tpages tabs ++ R → page_ok kend q) as Hok by (intros q; by eapply vmrep_page).
  split.
  - eapply kinv_upd; [apply Hr| |done]. set_solver.
  - apply Hr.
  - intros d Hd. rewrite <- (vr_pde _ _ _ _ _ _ Hr) by done. apply load_page_same; [|done].
    apply (only_page_same _ _ t); [done|apply Hok; set_solver|apply Hok; set_solver|set_solver].
  - intros w Hw. cbn [km_set km_mem]. destruct (decide (w = v)) as [->|Hne].
    + rewrite fn_lookup_insert, Ht, load32_store32. by rewrite u32_small.
    + rewrite fn_lookup_insert_ne by done. rewrite (vr_pte _ _ _ _ _ _ Hr) by done.
      destruct (tabs !! (w / 1024)) as [t'|] eqn:E; [|done]. destruct (decide (t' = t)) as [->|Hnt].
      * assert (w / 1024 = v / 1024) as Eq by (by eapply vmrep_inj). symmetry. apply load32_other. dlia.
      * symmetry. apply load_page_same; [|dlia]. assert (t' ∈ tpages tabs) by (apply tpages_elem; eauto).
        apply (only_page_same _ _ t); [done|apply Hok; set_solver|apply Hok; set_solver|done].
Qed.

End rep.
