(* ===== verification/VmMap.v ===== *)
(** * Page tables: mapping pages

    [walkpgdir] and [mappages] on the representation of [VmSpec]. *)

From S2P Require Import Prelude Layout CString Mem Kalloc Vm VmSpec.

(** Entries [v, v + n) set to consecutive frames from [pa]. *)
Definition mapped_to (f : Z → Z) (v n pa perm : Z) : Z → Z :=
  λ w, if decide (v ≤ w < v + n) then pte_val (pa + (w - v) * PGSIZE) perm else f w.

(** [tabs'] has the tables of [tabs] and others for entries [d0, d1]. *)
Definition more_tabs (tabs tabs' : gmap Z Z) (d0 d1 : Z) : Prop :=
  ∀ d t, tabs' !! d = Some t → tabs !! d = Some t ∨ d0 ≤ d ≤ d1.

Section map.
Context (kend : Z).
Implicit Types (s : kmem) (l R : list Z) (tabs : gmap Z Z) (f : Z → Z).
#[local] Notation vmrep := (vmrep kend).

(** Entry 7 of a table page: present, writable, user. *)
Lemma pde_bits t : page_ok kend t → pte_has (V2P t + 7) PTE_P = true ∧ P2V (PTE_ADDR (V2P t + 7)) = t ∧
  Z.lor (Z.lor (Z.lor (V2P t) PTE_P) PTE_W) PTE_U = V2P t + 7.
Proof.
  intros Ht. destruct (page_ok_addr kend t Ht) as (E & Hr & Hm). unfold PGSIZE in *. split; [|split].
  - rewrite pte_has_P. assert ((V2P t + 7) mod 2 = 1) as -> by dlia. done.
  - rewrite pte_addr_mod by lia. replace (V2P t + 7 - (V2P t + 7) mod PGSIZE) with (V2P t) by (unfold PGSIZE; dlia). done.
  - rewrite <- !Z.lor_assoc. change (Z.lor PTE_P (Z.lor PTE_W PTE_U)) with 7. rewrite Z.lor_comm.
    rewrite (lor_add_disjoint 12); [lia|lia|lia|done].
Qed.

Lemma walk_hit pid s l pgdir tabs f R va alloc t :
  vmrep s l pgdir tabs f R → 0 ≤ va < 2 ^ 32 → tabs !! (va / PGSIZE / 1024) = Some t →
  walkpgdir pgdir va alloc pid s = Ret (t + 4 * ((va / PGSIZE) mod 1024)) s.
Proof.
  intros Hr Hv Ht. destruct (PDX_div va Hv) as [Ed Hd], (PTX_div va Hv) as [Ex _]. unfold walkpgdir, kload. mstep.
  rewrite (vr_pde _ _ _ _ _ _ _ Hr) by done. rewrite Ed, Ht.
  destruct (pde_bits t) as (H1 & H2 & _); [by eapply vmrep_tab|].
  rewrite H1, H2, Ex. done.
Qed.

Lemma walk_none pid s l pgdir tabs f R va :
  vmrep s l pgdir tabs f R → 0 ≤ va < 2 ^ 32 → tabs !! (va / PGSIZE / 1024) = None → walkpgdir pgdir va 0 pid s = Ret 0 s.
Proof.
  intros Hr Hv Ht. destruct (PDX_div va Hv) as [Ed Hd]. unfold walkpgdir, kload. mstep.
  rewrite (vr_pde _ _ _ _ _ _ _ Hr) by done. by rewrite Ed, Ht.
Qed.

(** The page a new table takes: all its entries are zero. *)
Lemma zero_word m p k : 0 ≤ k < 1024 → load32 (memset p 0 PGSIZE m) (p + 4 * k) = 0.
Proof.
  intros Hk. unfold load32. rewrite !memset_spec by (unfold PGSIZE; lia). rewrite !decide_True by (unfold PGSIZE; lia). done.
Qed.

Lemma memset_only p m : only_page m (memset p 0 PGSIZE m) p.
Proof. intros a Ha. rewrite memset_spec by (unfold PGSIZE; lia). rewrite decide_False; [done|]. exact Ha. Qed.

Lemma vm_new_table s l pgdir tabs f R d p :
  vmrep s l pgdir tabs f (p :: R) → 0 ≤ d < 1024 → tabs !! d = None →
  vmrep (km_set (store32 (pgdir + 4 * d) (V2P p + 7) (memset p 0 PGSIZE (km_mem s))) s) l pgdir (<[d := p]> tabs) f R ∧
  ∀ q, q ∈ R → page_same (km_mem s) (store32 (pgdir + 4 * d) (V2P p + 7) (memset p 0 PGSIZE (km_mem s))) q.
Proof.
  intros Hr Hd Ht. destruct (vmrep_distinct _ _ _ _ _ _ _ Hr) as (H0 & H1 & H2).
  assert (∀ q, q ∈ pgdir :: tpages tabs ++ p :: R → page_ok kend q) as Hok by (intros q; by eapply vmrep_page).
  pose proof (vmrep_nodup _ _ _ _ _ _ _ Hr) as Hn.
  apply NoDup_app in Hn as (_ & _ & [_ Hn]%NoDup_cons). apply NoDup_app in Hn as (_ & _ & [HpR _]%NoDup_cons).
  assert (page_ok kend p) as Hpk by (apply Hok; set_solver). assert (page_ok kend pgdir) as Hdk by (apply Hok; set_solver).
  destruct (page_ok_addr kend p Hpk) as (_ & Hvr & _).
  set (m1 := memset p 0 PGSIZE (km_mem s)). set (m2 := store32 (pgdir + 4 * d) (V2P p + 7) m1).
  pose proof (memset_only p (km_mem s)) as Ho1. fold m1 in Ho1.
  assert (only_page m1 m2 pgdir) as Ho2.
  { intros a Ha. apply store32_other. intros Hb. apply Ha. by eapply in_page_word. }
  assert (∀ q, q ≠ p → q ≠ pgdir → page_ok kend q → page_same (km_mem s) m2 q) as Hsame.
  { intros q Hp Hg Hq a Ha. rewrite (only_page_same kend _ _ pgdir q Ho2) by done. by apply (only_page_same kend _ _ p q Ho1). }
  assert (page_same m1 m2 p) as Hp2 by (apply (only_page_same kend _ _ pgdir); [done|done|done|set_solver]).
  split; [|intros q Hq; apply Hsame; [set_solver|set_solver|apply Hok; set_solver]].
  pose proof (vm_upd kend _ _ _ _ _ _ p m1 Hr ltac:(set_solver) Ho1) as Hr1. split.
  - eapply kinv_perm; [apply (kinv_upd kend _ _ _ pgdir m2 (vr_inv _ _ _ _ _ _ _ Hr1)); [set_solver|done]|].
    rewrite tpages_insert by done. cbn [app]. by rewrite <- Permutation_middle.
  - intros d' t Ht'. apply lookup_insert_Some in Ht' as [[<- _]|[_ Ht']]; [done|by eapply Hr].
  - intros d' Hd'. cbn [km_set km_mem]. destruct (decide (d' = d)) as [->|Hne].
    + rewrite lookup_insert_eq. unfold m2. rewrite load32_store32. apply u32_small. unfold PHYSTOP in *. lia.
    + rewrite lookup_insert_ne by done. unfold m2. rewrite load32_other by lia. exact (vr_pde _ _ _ _ _ _ _ Hr1 d' Hd').
  - intros v Hv. cbn [km_set km_mem]. rewrite (vr_pte _ _ _ _ _ _ _ Hr) by done.
    destruct (decide (v / 1024 = d)) as [E|Hne].
    + rewrite E, lookup_insert_eq, Ht. rewrite (load_page_same m1 m2 p) by (done || dlia). symmetry. apply zero_word. dlia.
    + rewrite lookup_insert_ne by done. destruct (tabs !! (v / 1024)) as [t|] eqn:Et; [|done]. symmetry.
      assert (t ∈ tpages tabs) by (apply tpages_elem; eauto).
      apply load_page_same; [|dlia]. apply Hsame; [set_solver|set_solver|apply Hok; set_solver].
Qed.

Lemma vm_kalloc s p l pgdir tabs f R pid :
  vmrep s (p :: l) pgdir tabs f R → ∃ s', kalloc pid s = Ret p s' ∧ p ≠ 0 ∧ km_mem s' = km_mem s ∧ vmrep s' l pgdir tabs f (p :: R).
Proof.
  intros Hr. destruct (kalloc_run kend s p l _ pid (vr_inv _ _ _ _ _ _ _ Hr)) as (E & Hz & Hpk & Hi).
  eexists. split; [done|]. split; [done|]. split; [done|]. eapply vmrep_frame; [exact Hr| |done|done].
  eapply kinv_perm; [exact Hi|]. solve_Permutation.
Qed.

(** [walkpgdir(pgdir, va, 1)]: the entry, in a new table if there was none;
    null when a table is needed and no page is free. *)
Lemma walk_alloc pid s l pgdir tabs f R va :
  vmrep s l pgdir tabs f R → 0 ≤ va < 2 ^ 32 →
  (l = [] ∧ walkpgdir pgdir va 1 pid s = Ret 0 s) ∨
  ∃ s' T l' tabs' t, walkpgdir pgdir va 1 pid s = Ret (t + 4 * ((va / PGSIZE) mod 1024)) s' ∧
    tabs' !! (va / PGSIZE / 1024) = Some t ∧ vmrep s' l' pgdir tabs' f R ∧ l = T ++ l' ∧
    (length T ≤ 1)%nat ∧ more_tabs tabs tabs' (va / PGSIZE / 1024) (va / PGSIZE / 1024) ∧
    Permutation (tpages tabs') (T ++ tpages tabs) ∧ (∀ q, q ∈ R → page_same (km_mem s) (km_mem s') q).
Proof.
  intros Hr Hv. destruct (PDX_div va Hv) as [Ed Hd], (PTX_div va Hv) as [Ex _].
  destruct (tabs !! (va / PGSIZE / 1024)) as [t|] eqn:Et.
  - right. exists s, [], l, tabs, t. split; [by eapply walk_hit|]. split_and!; try done; [simpl; lia|]. intros d' t'. by left.
  - assert (∀ r s', ((pgtab ← kalloc; if pgtab =? 0 then mret 0 else
      k_upd (memset pgtab 0 PGSIZE) ;; kstore (pgdir + 4 * PDX va) (Z.lor (Z.lor (Z.lor (V2P pgtab) PTE_P) PTE_W) PTE_U) ;;
      mret (pgtab + 4 * PTX va)) pid s = Ret r s') → walkpgdir pgdir va 1 pid s = Ret r s') as Hrun.
    { intros r s' E. unfold walkpgdir, kload. mstep. rewrite (vr_pde _ _ _ _ _ _ _ Hr) by done. rewrite Ed, Et. simpl.
      rewrite <- Ed. exact E. }
    destruct l as [|p l]; [left; split; [done|]|right].
    + apply Hrun. mrun (kalloc_empty kend s _ pid (vr_inv _ _ _ _ _ _ _ Hr)). done.
    + destruct (vm_kalloc s p l pgdir tabs f R pid Hr) as (s1 & E1 & Hz & Hm & Hr1).
      assert (page_ok kend p) as Hpk by (eapply vmrep_page; [exact Hr1|set_solver]).
      destruct (pde_bits p Hpk) as (_ & _ & E7).
      destruct (vm_new_table s1 l pgdir tabs f R (PDX va) p Hr1 Hd) as [Hr2 Hs2]; [by rewrite Ed|].
      eexists _, [p], l, _, p. split.
      { apply Hrun. mrun E1. rewrite (proj2 (Z.eqb_neq _ _)) by done. unfold kstore, k_upd. mstep. mstep. rewrite E7, Ex. reflexivity. }
      rewrite <- Ed. split; [by rewrite lookup_insert_eq|]. split; [exact Hr2|]. split; [done|].
      split; [simpl; lia|]. split; [intros d' t' [[<- _]|[_ Ht']]%lookup_insert_Some; [by right|by left]|].
      split; [apply tpages_insert; by rewrite Ed|]. cbn [km_mem]. rewrite <- Hm. exact Hs2.
Qed.

Lemma vmrep_ext s l pgdir tabs f f' R : (∀ v, 0 ≤ v < 2 ^ 20 → f v = f' v) → vmrep s l pgdir tabs f R → vmrep s l pgdir tabs f' R.
Proof. intros E [H1 H2 H3 H4]. split; try done. intros v Hv. rewrite <- E by done. by apply H4. Qed.

Lemma page_same_trans m1 m2 m3 p : page_same m1 m2 p → page_same m2 m3 p → page_same m1 m3 p.
Proof. intros H1 H2 a Ha. by rewrite H2, H1. Qed.

(** One turn of the loop of [mappages]. *)
Lemma map_one pid s l pgdir tabs f R v pa perm fuel last :
  vmrep s l pgdir tabs f R → 0 ≤ v < 2 ^ 20 → 0 ≤ pa < 2 ^ 32 → pa mod PGSIZE = 0 → 0 ≤ perm < PGSIZE →
  pte_has (f v) PTE_P = false →
  (l = [] ∧ mappages_loop (S fuel) pgdir (v * PGSIZE) last pa perm pid s = Ret (-1) s) ∨
  ∃ s' T l' tabs', vmrep s' l' pgdir tabs' (<[v := pte_val pa perm]> f) R ∧ l = T ++ l' ∧
    (length T ≤ 1)%nat ∧ more_tabs tabs tabs' (v / 1024) (v / 1024) ∧ Permutation (tpages tabs') (T ++ tpages tabs) ∧ (∀ q, q ∈ R → page_same (km_mem s) (km_mem s') q) ∧
    mappages_loop (S fuel) pgdir (v * PGSIZE) last pa perm pid s =
      (if v * PGSIZE =? last then mret 0
       else mappages_loop fuel pgdir (u32 (v * PGSIZE + PGSIZE)) last (u32 (pa + PGSIZE)) perm) pid s'.
Proof.
  intros Hr Hv Hpa Hal Hperm Hnp. assert (0 ≤ v * PGSIZE < 2 ^ 32) as Hva by (unfold PGSIZE; lia).
  destruct (pte_val_spec pa perm Hpa Hal Hperm) as (Hpr & _).
  destruct (walk_alloc pid s l pgdir tabs f R (v * PGSIZE) Hr Hva) as [[-> E]|(s1 & T & l1 & tabs1 & t & E & Ht & Hr1 & El & HT & Hmt & HP & Hs)].
  - left. split; [done|]. cbn [mappages_loop]. mrun E. done.
  - right. replace (v * PGSIZE / PGSIZE) with v in * by (unfold PGSIZE; dlia).
    destruct (vm_set_pte kend s1 l1 pgdir tabs1 f R v t (pte_val pa perm) Hr1 Hv Ht Hpr) as [Hr2 Ho].
    pose proof (vmrep_tab kend _ _ _ _ _ _ _ _ Hr1 Ht) as Htk.
    exists (km_set (store32 (t + 4 * (v mod 1024)) (pte_val pa perm) (km_mem s1)) s1), T, l1, tabs1.
    split; [done|]. split; [done|]. split; [done|]. split; [done|]. split; [done|]. split.
    + intros q Hq. eapply page_same_trans; [by apply Hs|]. destruct (vmrep_distinct _ _ _ _ _ _ _ Hr1) as (_ & _ & Hd).
      apply (only_page_same kend _ _ t); [done|done|eapply vmrep_page; [exact Hr1|set_solver]|].
      intros ->. apply (Hd q); [|done]. apply tpages_elem. eauto.
    + cbn [mappages_loop]. mrun E. assert (0 ≤ v mod 1024) by dlia.
      rewrite (proj2 (Z.eqb_neq _ _)) by (pose proof (page_nonzero kend t Htk); destruct Htk as (_ & _ & Hk); unfold KERNBASE in Hk; lia).
      unfold kload. mstep. pose proof (vr_pte _ _ _ _ _ _ _ Hr1 v Hv) as Ef. rewrite Ht in Ef. rewrite <- Ef, Hnp.
      unfold kstore, k_upd. mstep. done.
Qed.

Lemma map_loop_run pid pgdir perm R (n : nat) : ∀ s l tabs f v pa,
  vmrep s l pgdir tabs f R → 0 ≤ v → v + Z.of_nat (S n) ≤ 2 ^ 20 → 0 ≤ pa → pa mod PGSIZE = 0 →
  pa + Z.of_nat n * PGSIZE < 2 ^ 32 → 0 ≤ perm < PGSIZE →
  (∀ w, v ≤ w < v + Z.of_nat (S n) → pte_has (f w) PTE_P = false) →
  ∃ k s' T l' tabs', 0 ≤ k ≤ Z.of_nat (S n) ∧ (k < Z.of_nat (S n) → l' = []) ∧ l = T ++ l' ∧ Z.of_nat (length T) ≤ k ∧
    more_tabs tabs tabs' (v / 1024) ((v + Z.of_nat n) / 1024) ∧ Permutation (tpages tabs') (T ++ tpages tabs) ∧
    mappages_loop (S n) pgdir (v * PGSIZE) ((v + Z.of_nat n) * PGSIZE) pa perm pid s =
      Ret (if k =? Z.of_nat (S n) then 0 else -1) s' ∧
    vmrep s' l' pgdir tabs' (mapped_to f v k pa perm) R ∧ (∀ q, q ∈ R → page_same (km_mem s) (km_mem s') q).
Proof.
  induction n as [|n IH]; intros s l tabs f v pa Hr Hv0 Hv Hpa Hal Hpr Hperm Hnp.
  - destruct (map_one pid s l pgdir tabs f R v pa perm 0 ((v + Z.of_nat 0) * PGSIZE))
      as [[-> E]|(s' & T & l' & tabs' & Hr' & El & HT & Hmt & HP & Hs & E)]; try done; try lia; [apply Hnp; lia|..].
    + exists 0, s, [], [], tabs. split_and!; try done; try lia; [by intros d t; left|]. eapply vmrep_ext; [|exact Hr].
      intros w _. unfold mapped_to. by rewrite decide_False by lia.
    + exists 1, s', T, l', tabs'. rewrite Z.add_0_r, Z.eqb_refl in E. rewrite Z.add_0_r. split_and!; try done; try lia.
      eapply vmrep_ext; [|exact Hr']. intros w _. unfold mapped_to. case_decide as Hw.
      * assert (w = v) as -> by lia. rewrite fn_lookup_insert. f_equal. lia.
      * by rewrite fn_lookup_insert_ne by lia.
  - destruct (map_one pid s l pgdir tabs f R v pa perm (S n) ((v + Z.of_nat (S n)) * PGSIZE))
      as [[-> E]|(s1 & T1 & l1 & tabs1 & Hr1 & El & HT1 & Hmt1 & HP1 & Hs & E)]; try done; try (unfold PGSIZE in *; lia); [apply Hnp; lia|..].
    + exists 0, s, [], [], tabs. split_and!; try done; try lia; [by intros d t; left|]. eapply vmrep_ext; [|exact Hr].
      intros w _. unfold mapped_to. by rewrite decide_False by lia.
    + rewrite (proj2 (Z.eqb_neq _ _)) in E by (unfold PGSIZE; lia). rewrite !u32_small in E by (unfold PGSIZE in *; lia).
      replace (v * PGSIZE + PGSIZE) with ((v + 1) * PGSIZE) in E by lia.
      destruct (IH s1 l1 tabs1 (<[v := pte_val pa perm]> f) (v + 1) (pa + PGSIZE))
        as (k & s' & T & l' & tabs' & Hk & Hl' & El1 & HT & Hmt & HP & E' & Hr' & Hs'); try done; try (unfold PGSIZE in *; dlia).
      { intros w Hw. rewrite fn_lookup_insert_ne by lia. apply Hnp. lia. }
      exists (k + 1), s', (T1 ++ T), l', tabs'. split; [lia|]. split; [intros; apply Hl'; lia|].
      split; [by rewrite El, El1, app_assoc|]. split; [rewrite length_app; lia|].
      split; [intros d t [[?|?]%Hmt1|?]%Hmt; [by left|right; dlia..]|].
      split; [rewrite HP, HP1; solve_Permutation|]. split.
      { rewrite E. replace (v + Z.of_nat (S n)) with (v + 1 + Z.of_nat n) by lia. rewrite E'.
        destruct (decide (k = Z.of_nat (S n))) as [->|Hne]; [rewrite Z.eqb_refl, (proj2 (Z.eqb_eq _ _)) by lia; done|].
        by rewrite (proj2 (Z.eqb_neq _ _)), (proj2 (Z.eqb_neq _ _)) by lia. }
      split; [|intros q Hq; eapply page_same_trans; eauto].
      eapply vmrep_ext; [|exact Hr']. intros w _. unfold mapped_to. destruct (decide (w = v)) as [->|Hne].
      * rewrite decide_False, decide_True, fn_lookup_insert by lia. f_equal. lia.
      * rewrite fn_lookup_insert_ne by done. destruct (decide (v + 1 ≤ w < v + 1 + k)).
        -- rewrite (decide_True (P := v ≤ w < v + (k + 1))) by lia. f_equal. lia.
        -- by rewrite decide_False by lia.
Qed.

(** [mappages] of the pages [v, v + n): it maps them all, or runs out of free
    pages after the first [k] and returns -1. *)
Lemma mappages_run pid s l pgdir tabs f R v n pa perm :
  vmrep s l pgdir tabs f R → 0 ≤ v → 0 < n → v + n ≤ 2 ^ 20 → 0 ≤ pa → pa mod PGSIZE = 0 →
  pa + n * PGSIZE ≤ 2 ^ 32 → 0 ≤ perm < PGSIZE →
  (∀ w, v ≤ w < v + n → pte_has (f w) PTE_P = false) →
  ∃ k s' T l' tabs', 0 ≤ k ≤ n ∧ (k < n → l' = []) ∧ l = T ++ l' ∧ Z.of_nat (length T) ≤ k ∧
    more_tabs tabs tabs' (v / 1024) ((v + n - 1) / 1024) ∧ Permutation (tpages tabs') (T ++ tpages tabs) ∧
    mappages pgdir (v * PGSIZE) (n * PGSIZE) pa perm pid s = Ret (if k =? n then 0 else -1) s' ∧
    vmrep s' l' pgdir tabs' (mapped_to f v k pa perm) R ∧ (∀ q, q ∈ R → page_same (km_mem s) (km_mem s') q).
Proof.
  intros Hr Hv Hn Hvn Hpa Hal Hpr Hperm Hnp. unfold mappages.
  rewrite (PGROUNDDOWN_spec (v * PGSIZE)) by (unfold PGSIZE; lia).
  rewrite (u32_small (_ - 1)) by (unfold PGSIZE in *; lia). rewrite PGROUNDDOWN_spec by (unfold PGSIZE; lia).
  replace (v * PGSIZE - (v * PGSIZE) mod PGSIZE) with (v * PGSIZE) by (unfold PGSIZE; dlia).
  replace (v * PGSIZE + n * PGSIZE - 1 - _) with ((v + (n - 1)) * PGSIZE) by (unfold PGSIZE; dlia).
  rewrite (u32_small (_ - _)) by (unfold PGSIZE in *; lia).
  replace (((v + (n - 1)) * PGSIZE - v * PGSIZE) / PGSIZE) with (n - 1) by (unfold PGSIZE; dlia).
  destruct (map_loop_run pid pgdir perm R (Z.to_nat (n - 1)) s l tabs f v pa) as (k & s' & T & l' & tabs' & Hk & Hl' & El & HT & Hmt & HP & E & Hr' & Hs');
    try done; try (unfold PGSIZE in *; lia).
  { intros w Hw. apply Hnp. lia. }
  replace (Z.of_nat (S (Z.to_nat (n - 1)))) with n in * by lia. rewrite Z2Nat.id in E, Hmt by lia.
  replace (v + (n - 1)) with (v + n - 1) in Hmt by lia.
  exists k, s', T, l', tabs'. done.
Qed.

End map.
