(* ===== verification/VmUser.v ===== *)
(** * Page tables: user memory

    The user half of an address space owns the pages it maps.  [allocuvm] and
    [deallocuvm] move pages between it and the free list. *)

From S2P Require Import Prelude Layout CString Mem Kalloc Vm VmSpec VmMap.

(** Number of the first page of the kernel half. *)
Definition KPAGE : Z := KERNBASE / PGSIZE.

Lemma KPAGE_val : KPAGE = 524288.
Proof. reflexivity. Qed.

(** User pages with numbers in [v, w) removed. *)
Definition ucut (v w : Z) (u : gmap Z Z) : gmap Z Z := filter (λ kp, ¬ (v ≤ kp.1 < w)) u.

(** The number of pages [sz] bytes take. *)
Definition npages (sz : Z) : Z := (sz + PGSIZE - 1) / PGSIZE.

Section user.
(** The kernel is linked above [KERNLINK]. *)
Context (kend : Z) (Hend : KERNLINK ≤ kend).
Implicit Types (s : kmem) (l R : list Z) (tabs u : gmap Z Z) (f : Z → Z).
#[local] Notation vmrep := (vmrep kend).

(** [u] gives the page behind each user page number. *)
Record uvm s l pgdir tabs f u R : Prop := mk_uvm {
  uv_rep : vmrep s l pgdir tabs f (tpages u ++ R);
  uv_dom : ∀ v p, u !! v = Some p → 0 ≤ v < KPAGE;
  uv_pte : ∀ v p, u !! v = Some p → ∃ perm, 0 ≤ perm < PGSIZE ∧ f v = pte_val (V2P p) perm;
  uv_none : ∀ v, 0 ≤ v < KPAGE → u !! v = None → pte_has (f v) PTE_P = false;
}.

Lemma uvm_page s l pgdir tabs f u R v p : uvm s l pgdir tabs f u R → u !! v = Some p → page_ok kend p.
Proof.
  intros Hu Hp. eapply vmrep_page; [apply Hu|]. right. apply elem_of_app. right. apply elem_of_app. left. apply tpages_elem. eauto.
Qed.

Lemma uvm_entry s l pgdir tabs f u R v p :
  uvm s l pgdir tabs f u R → u !! v = Some p → pte_has (f v) PTE_P = true ∧ PTE_ADDR (f v) = V2P p ∧ P2V (V2P p) = p ∧ V2P p ≠ 0 ∧
    ∃ t, tabs !! (v / 1024) = Some t.
Proof.
  intros Hu Hp. destruct (uv_pte _ _ _ _ _ _ _ Hu v p Hp) as (perm & Hperm & E).
  pose proof (uvm_page _ _ _ _ _ _ _ _ _ Hu Hp) as Hpk. destruct (page_ok_addr kend p Hpk) as (E2 & Hr & Hm).
  destruct (pte_val_spec (V2P p) perm) as (_ & H1 & _ & H2); try done; [unfold PHYSTOP in Hr; lia|].
  rewrite E. split; [done|]. split; [done|]. split; [done|]. split.
  - unfold V2P. rewrite u32_small by (destruct Hpk as (_ & _ & Hk); unfold KERNBASE, PHYSTOP in Hk |- *; lia).
    destruct Hpk as (_ & Hk & _). unfold KERNLINK, EXTMEM in Hend. lia.
  - pose proof (vr_pte _ _ _ _ _ _ _ (uv_rep _ _ _ _ _ _ _ Hu) v) as Ef. pose proof (uv_dom _ _ _ _ _ _ _ Hu v p Hp) as Hv.
    rewrite KPAGE_val in Hv. specialize (Ef ltac:(lia)).
    destruct (tabs !! (v / 1024)) as [t|]; [eauto|]. rewrite Ef in E. rewrite <- E in H2. done.
Qed.

Lemma tpages_delete u v p : u !! v = Some p → Permutation (tpages u) (p :: tpages (delete v u)).
Proof. intros Hp. rewrite <- (insert_delete_id u v p) at 1 by done. apply tpages_insert, lookup_delete_eq. Qed.

(** Unmapping and freeing a user page. *)
Lemma uvm_free_page pid s l pgdir tabs f u R v p t :
  uvm s l pgdir tabs f u R → u !! v = Some p → tabs !! (v / 1024) = Some t →
  ∃ s', (kfree kend p ;; kstore (t + 4 * (v mod 1024)) 0) pid s = Ret tt s' ∧
    uvm s' (p :: l) pgdir tabs (<[v := 0]> f) (delete v u) R ∧
    (∀ q, q ∈ tpages (delete v u) ++ R → page_same (km_mem s) (km_mem s') q).
Proof.
  intros Hu Hp Ht. pose proof (uv_rep _ _ _ _ _ _ _ Hu) as Hr. pose proof (uv_dom _ _ _ _ _ _ _ Hu v p Hp) as Hv.
  assert (0 ≤ v < 2 ^ 20) as Hv' by (rewrite KPAGE_val in Hv; lia).
  assert (Permutation (pgdir :: tpages tabs ++ tpages u ++ R) (p :: pgdir :: tpages tabs ++ tpages (delete v u) ++ R)) as HP.
  { rewrite (tpages_delete u v p Hp). solve_Permutation. }
  destruct (kfree_inv kend s l (pgdir :: tpages tabs ++ tpages (delete v u) ++ R) p pid) as (s1 & E1 & Hi1 & Ho1).
  { eapply kinv_perm; [apply Hr|done]. }
  pose proof (uvm_page _ _ _ _ _ _ _ _ _ Hu Hp) as Hpk.
  assert (∀ q, q ∈ pgdir :: tpages tabs ++ tpages (delete v u) ++ R → page_same (km_mem s) (km_mem s1) q) as Hs1.
  { intros q Hq. apply (only_page_same kend _ _ p); [done|done| |].
    - eapply vmrep_page; [exact Hr|]. rewrite HP. by right.
    - intros <-. pose proof (vmrep_nodup _ _ _ _ _ _ _ Hr) as Hn. rewrite HP in Hn.
      apply NoDup_app in Hn as (_ & _ & [Hn _]%NoDup_cons). done. }
  assert (vmrep s1 (p :: l) pgdir tabs f (tpages (delete v u) ++ R)) as Hr1.
  { eapply vmrep_frame; [exact Hr|done|apply Hs1; set_solver|]. intros q Hq. apply Hs1. set_solver. }
  destruct (vm_set_pte kend s1 (p :: l) pgdir tabs f _ v t 0 Hr1 Hv' Ht) as [Hr2 Ho2]; [lia|].
  eexists. split; [mrun E1; unfold kstore, k_upd; reflexivity|]. split.
  - split; [exact Hr2|..].
    + intros w q Hq. apply lookup_delete_Some in Hq as [_ Hq]. by eapply Hu.
    + intros w q Hq. apply lookup_delete_Some in Hq as [Hne Hq]. rewrite fn_lookup_insert_ne by done. by eapply Hu.
    + intros w Hw Hq. destruct (decide (w = v)) as [->|Hne]; [by rewrite fn_lookup_insert|].
      rewrite fn_lookup_insert_ne by done. rewrite lookup_delete_ne in Hq by done. by eapply Hu.
  - intros q Hq. eapply page_same_trans; [apply Hs1; set_solver|].
    destruct (vmrep_distinct _ _ _ _ _ _ _ Hr1) as (_ & _ & Hd).
    apply (only_page_same kend _ _ t); [done|by eapply vmrep_tab|eapply vmrep_page; [exact Hr1|set_solver]|].
    intros ->. apply (Hd q); [|done]. apply tpages_elem. eauto.
Qed.

Lemma ucut_lookup v w u k : ucut v w u !! k = if decide (v ≤ k < w) then None else u !! k.
Proof.
  unfold ucut. case_decide as Hd.
  - apply map_lookup_filter_None. right. simpl. naive_solver.
  - destruct (u !! k) eqn:E; [by apply map_lookup_filter_Some|]. apply map_lookup_filter_None. by left.
Qed.

Lemma ucut_skip v v' w u : v ≤ v' → (∀ k, v ≤ k < v' → u !! k = None) → ucut v w u = ucut v' w u.
Proof.
  intros Hv Hn. apply map_eq. intros k. rewrite !ucut_lookup.
  destruct (decide (v ≤ k < w)), (decide (v' ≤ k < w)); try done; [|lia]. symmetry. apply Hn. lia.
Qed.

Lemma ucut_delete v w u : v < w → ucut v w u = ucut (v + 1) w (delete v u).
Proof.
  intros Hv. apply map_eq. intros k. rewrite !ucut_lookup. destruct (decide (k = v)) as [->|Hne].
  - rewrite decide_True, decide_False, lookup_delete_eq by lia. done.
  - rewrite lookup_delete_ne by done. by destruct (decide (v ≤ k < w)), (decide (v + 1 ≤ k < w)); try lia.
Qed.

Lemma ucut_nil v w u : w ≤ v → ucut v w u = u.
Proof. intros Hv. apply map_eq. intros k. by rewrite ucut_lookup, decide_False by lia. Qed.

Lemma npages_lt sz v : v * PGSIZE < sz ↔ v < npages sz.
Proof. unfold npages, PGSIZE. split; intros; dlia. Qed.

(** The jump over a missing table. *)
Lemma next_table v : 0 ≤ v < KPAGE →
  u32 (u32 (PGADDR (PDX (v * PGSIZE) + 1) 0 0 - PGSIZE) + PGSIZE) = (v / 1024 + 1) * 1024 * PGSIZE.
Proof.
  rewrite KPAGE_val. unfold PGSIZE. intros Hv.
  destruct (PDX_div (v * 4096)) as [-> Hd]; [lia|]. unfold PGSIZE. replace (v * 4096 / 4096) with v in * by dlia.
  unfold PGADDR, PDXSHIFT, PTXSHIFT. rewrite Z.shiftl_0_l, !Z.lor_0_r, Z.shiftl_mul_pow2 by lia.
  rewrite (u32_small ((v / 1024 + 1) * 2 ^ 22)) by dlia. rewrite (u32_small (_ - _)) by dlia. rewrite u32_small by dlia. dlia.
Qed.

Definition same_outside f f' (v w : Z) : Prop := ∀ k, ¬ (v ≤ k < w) → f' k = f k.

(** [deallocuvm] from page [v] on. *)
Lemma dealloc_loop_run pid pgdir tabs R oldsz fuel : ∀ s l f u v,
  uvm s l pgdir tabs f u R → 0 ≤ v → 0 ≤ oldsz ≤ KERNBASE → (Z.to_nat (npages oldsz - v) < fuel)%nat →
  ∃ s' l' f', dealloc_loop kend fuel pgdir (v * PGSIZE) oldsz pid s = Ret tt s' ∧
    uvm s' l' pgdir tabs f' (ucut v (npages oldsz) u) R ∧
    Permutation (l' ++ tpages (ucut v (npages oldsz) u)) (l ++ tpages u) ∧
    same_outside f f' v (npages oldsz) ∧
    (∀ q, q ∈ tpages (ucut v (npages oldsz) u) ++ R → page_same (km_mem s) (km_mem s') q).
Proof.
  induction fuel as [|fuel IH]; intros s l f u v Hu Hv Hsz Hf; [lia|]. cbn [dealloc_loop].
  destruct (v * PGSIZE <? oldsz) eqn:Elt.
  2: { assert (npages oldsz ≤ v) as Hle by (pose proof (npages_lt oldsz v); lia). rewrite ucut_nil by done.
       exists s, l, f. split_and!; done. }
  apply Z.ltb_lt in Elt. pose proof Elt as Hlt. rewrite npages_lt in Hlt.
  assert (npages oldsz ≤ KPAGE) as HW by (rewrite KPAGE_val; unfold npages, KERNBASE, PGSIZE in *; dlia).
  assert (0 ≤ v < 2 ^ 20 ∧ 0 ≤ v * PGSIZE < 2 ^ 32) as [Hv20 Hva] by (rewrite KPAGE_val in HW; unfold PGSIZE in *; lia).
  assert (v * PGSIZE / PGSIZE = v) as Ev by (unfold PGSIZE; dlia).
  destruct (tabs !! (v / 1024)) as [t|] eqn:Et.
  - assert (walkpgdir pgdir (v * PGSIZE) 0 pid s = Ret (t + 4 * (v mod 1024)) s) as Ew.
    { rewrite <- Ev at 2. eapply walk_hit; [apply Hu|done|]. by rewrite Ev. }
    mrun Ew. pose proof (vmrep_tab kend _ _ _ _ _ _ _ _ (uv_rep _ _ _ _ _ _ _ Hu) Et) as (_ & _ & Htk).
    rewrite (proj2 (Z.eqb_neq _ _)) by (unfold KERNBASE in Htk; dlia). mrun (kload_run pid s (t + 4 * (v mod 1024))).
    pose proof (vr_pte _ _ _ _ _ _ _ (uv_rep _ _ _ _ _ _ _ Hu) v Hv20) as Ef. rewrite Et in Ef. rewrite <- Ef.
    replace (u32 (v * PGSIZE + PGSIZE)) with ((v + 1) * PGSIZE) by (rewrite KPAGE_val in HW; rewrite u32_small; unfold PGSIZE in *; lia).
    destruct (u !! v) as [p|] eqn:Ep.
    + destruct (uvm_entry _ _ _ _ _ _ _ _ _ Hu Ep) as (H1 & H2 & H3 & H4 & _). rewrite H1, H2, (proj2 (Z.eqb_neq _ _)), H3 by done.
      destruct (uvm_free_page pid s l pgdir tabs f u R v p t Hu Ep Et) as (s1 & E1 & Hu1 & Hs1). mrun E1.
      destruct (IH s1 (p :: l) (<[v := 0]> f) (delete v u) (v + 1) Hu1) as (s' & l' & f' & E' & Hu' & HP & Hf' & Hs'); try lia.
      rewrite (ucut_delete v) by done. exists s', l', f'. split; [done|]. split; [done|]. split.
      { rewrite HP, (tpages_delete u v p Ep). cbn [app]. by rewrite Permutation_middle. }
      split.
      * intros k Hk. rewrite Hf' by lia. by rewrite fn_lookup_insert_ne by lia.
      * intros q Hq. eapply page_same_trans; [|by apply Hs']. apply Hs1. apply elem_of_app in Hq as [Hq|Hq]; [|set_solver].
        apply elem_of_app. left. apply tpages_elem in Hq as [k Hk]. rewrite ucut_lookup in Hk. case_decide; [done|].
        apply tpages_elem. eauto.
    + rewrite (uv_none _ _ _ _ _ _ _ Hu v) by (done || lia). rewrite bind_ret.
      destruct (IH s l f u (v + 1) Hu) as (s' & l' & f' & E' & Hu' & HP & Hf' & Hs'); try lia.
      rewrite (ucut_skip v (v + 1)) by (lia || (intros k Hk; by replace k with v by lia)).
      exists s', l', f'. split_and!; try done. intros k Hk. apply Hf'. lia.
  - assert (walkpgdir pgdir (v * PGSIZE) 0 pid s = Ret 0 s) as Ew.
    { eapply walk_none; [apply Hu|done|]. by rewrite Ev. }
    mrun Ew. rewrite Z.eqb_refl, next_table by lia.
    destruct (IH s l f u ((v / 1024 + 1) * 1024) Hu) as (s' & l' & f' & E' & Hu' & HP & Hf' & Hs'); try dlia.
    rewrite (ucut_skip v ((v / 1024 + 1) * 1024)).
    + exists s', l', f'. split_and!; try done. intros k Hk. apply Hf'. dlia.
    + dlia.
    + intros k Hk. destruct (u !! k) as [p|] eqn:Ek; [|done]. destruct (uvm_entry _ _ _ _ _ _ _ _ _ Hu Ek) as (_ & _ & _ & _ & t & Hk').
      replace (k / 1024) with (v / 1024) in Hk' by dlia. congruence.
Qed.

Lemma npages_round sz : 0 ≤ sz → sz + PGSIZE - 1 < 2 ^ 32 → PGROUNDUP sz = npages sz * PGSIZE.
Proof.
  intros H1 H2. destruct (PGROUNDUP_spec sz H1 H2) as [Hm Hr]. unfold npages, PGSIZE in *. dlia.
Qed.

Lemma deallocuvm_run pid s l pgdir tabs f u R oldsz newsz :
  uvm s l pgdir tabs f u R → 0 ≤ newsz < oldsz → oldsz ≤ KERNBASE →
  ∃ s' l' f', deallocuvm kend pgdir oldsz newsz pid s = Ret newsz s' ∧
    uvm s' l' pgdir tabs f' (ucut (npages newsz) (npages oldsz) u) R ∧
    Permutation (l' ++ tpages (ucut (npages newsz) (npages oldsz) u)) (l ++ tpages u) ∧
    same_outside f f' (npages newsz) (npages oldsz) ∧
    (∀ q, q ∈ tpages (ucut (npages newsz) (npages oldsz) u) ++ R → page_same (km_mem s) (km_mem s') q).
Proof.
  intros Hu Hn Ho. unfold deallocuvm. rewrite (proj2 (Z.leb_gt _ _)) by lia.
  rewrite npages_round by (unfold KERNBASE, PGSIZE in *; lia).
  destruct (dealloc_loop_run pid pgdir tabs R oldsz (S (S (Z.to_nat (oldsz / PGSIZE)))) s l f u (npages newsz) Hu)
    as (s' & l' & f' & E & H1); try (unfold npages, PGSIZE in *; dlia).
  exists s', l', f'. split; [by mrun E|done].
Qed.

Lemma uvm_swap s l pgdir tabs f u R p : uvm s l pgdir tabs f u (p :: R) ↔
  vmrep s l pgdir tabs f (p :: tpages u ++ R) ∧ (∀ v q, u !! v = Some q → 0 ≤ v < KPAGE) ∧
  (∀ v q, u !! v = Some q → ∃ perm, 0 ≤ perm < PGSIZE ∧ f v = pte_val (V2P q) perm) ∧
  (∀ v, 0 ≤ v < KPAGE → u !! v = None → pte_has (f v) PTE_P = false).
Proof.
  assert (Permutation (pgdir :: tpages tabs ++ p :: tpages u ++ R) (pgdir :: tpages tabs ++ tpages u ++ p :: R)) as HP by solve_Permutation.
  split.
  - intros [[H1 H2 H3 H4] H5 H6 H7]. split_and!; try done. split; try done. eapply kinv_perm; [exact H1|]. by symmetry.
  - intros ([H1 H2 H3 H4] & H5 & H6 & H7). split; try done. split; try done. by eapply kinv_perm.
Qed.

(** Mapping one more user page, onto a page [p] in use. *)
Lemma uvm_map_page pid s l pgdir tabs f u R v p perm :
  uvm s l pgdir tabs f u (p :: R) → 0 ≤ v < KPAGE → u !! v = None → 0 ≤ perm < PGSIZE →
  (∃ s' tabs', mappages pgdir (v * PGSIZE) PGSIZE (V2P p) perm pid s = Ret (-1) s' ∧ uvm s' [] pgdir tabs' f u (p :: R) ∧
     l = [] ∧ Permutation (tpages tabs') (tpages tabs) ∧ (∀ q, q ∈ tpages u ++ p :: R → page_same (km_mem s) (km_mem s') q)) ∨
  (∃ s' T l' tabs', mappages pgdir (v * PGSIZE) PGSIZE (V2P p) perm pid s = Ret 0 s' ∧
     uvm s' l' pgdir tabs' (<[v := pte_val (V2P p) perm]> f) (<[v := p]> u) R ∧ l = T ++ l' ∧
     (length T ≤ 1)%nat ∧ Permutation (tpages tabs') (T ++ tpages tabs) ∧ (∀ q, q ∈ tpages u ++ p :: R → page_same (km_mem s) (km_mem s') q)).
Proof.
  intros Hu Hv Hn Hperm. pose proof KPAGE_val as HK. assert (page_ok kend p) as Hpk by (eapply vmrep_page; [apply Hu|set_solver]).
  destruct (page_ok_addr kend p Hpk) as (_ & Hpr & Hpm).
  destruct (mappages_run kend pid s l pgdir tabs f (tpages u ++ p :: R) v 1 (V2P p) perm)
    as (k & s' & T & l' & tabs' & Hk & Hl' & El & HT & _ & HP & E & Hr' & Hs'); try done; try (unfold PHYSTOP, PGSIZE in *; lia); [apply Hu| |].
  { intros w Hw. apply (uv_none _ _ _ _ _ _ _ Hu); [lia|]. by replace w with v by lia. }
  rewrite Z.mul_1_l in E. destruct (decide (k = 0)) as [->|Hne]; [left|right; assert (k = 1) as -> by lia].
  - assert (T = []) as -> by (apply length_zero_iff_nil; lia). rewrite (Hl' ltac:(lia)) in *. subst l. exists s', tabs'.
    split; [done|]. split; [|done].
    split; try apply Hu. eapply vmrep_ext; [|exact Hr']. intros w _. unfold mapped_to. by rewrite decide_False by lia.
  - exists s', T, l', tabs'. split; [done|]. split; [|split_and!; try done; lia].
    assert (vmrep s' l' pgdir tabs' (<[v := pte_val (V2P p) perm]> f) (tpages u ++ p :: R)) as Hr2.
    { eapply vmrep_ext; [|exact Hr']. intros w _. unfold mapped_to. case_decide.
      - assert (w = v) as -> by lia. rewrite fn_lookup_insert. f_equal. lia.
      - by rewrite fn_lookup_insert_ne by lia. }
    split.
    + destruct Hr2 as [H1 H2 H3 H4]. split; try done. eapply kinv_perm; [exact H1|].
      rewrite (tpages_insert u v p Hn). solve_Permutation.
    + intros w q Hq. apply lookup_insert_Some in Hq as [[<- _]|[_ Hq]]; [done|by eapply Hu].
    + intros w q Hq. apply lookup_insert_Some in Hq as [[<- <-]|[Hw Hq]].
      * exists perm. by rewrite fn_lookup_insert.
      * rewrite fn_lookup_insert_ne by done. by eapply Hu.
    + intros w Hw Hq. apply lookup_insert_None in Hq as [Hq Hne']. rewrite fn_lookup_insert_ne by done. by eapply Hu.
Qed.

Lemma uvm_kalloc pid s p l pgdir tabs f u R :
  uvm s (p :: l) pgdir tabs f u R →
  ∃ s', kalloc pid s = Ret p s' ∧ p ≠ 0 ∧ km_mem s' = km_mem s ∧ uvm s' l pgdir tabs f u (p :: R).
Proof.
  intros Hu. destruct (vm_kalloc kend s p l pgdir tabs f _ pid (uv_rep _ _ _ _ _ _ _ Hu)) as (s' & E & Hz & Hm & Hr).
  exists s'. split; [done|]. split; [done|]. split; [done|]. apply uvm_swap. split; [exact Hr|]. split_and!; apply Hu.
Qed.

Lemma uvm_kfree pid s p l pgdir tabs f u R :
  uvm s l pgdir tabs f u (p :: R) →
  ∃ s', kfree kend p pid s = Ret tt s' ∧ uvm s' (p :: l) pgdir tabs f u R ∧
    (∀ q, q ∈ tpages u ++ R → page_same (km_mem s) (km_mem s') q).
Proof.
  intros Hu. apply uvm_swap in Hu as (Hr & H1 & H2 & H3).
  assert (Permutation (pgdir :: tpages tabs ++ p :: tpages u ++ R) (p :: pgdir :: tpages tabs ++ tpages u ++ R)) as HP by solve_Permutation.
  destruct (kfree_inv kend s l (pgdir :: tpages tabs ++ tpages u ++ R) p pid) as (s' & E & Hi & Ho).
  { eapply kinv_perm; [apply Hr|done]. }
  assert (∀ q, q ∈ pgdir :: tpages tabs ++ tpages u ++ R → page_same (km_mem s) (km_mem s') q) as Hs.
  { intros q Hq. apply (only_page_same kend _ _ p); [done|eapply vmrep_page; [exact Hr|set_solver]|eapply vmrep_page; [exact Hr|set_solver]|].
    intros <-. pose proof (vmrep_nodup _ _ _ _ _ _ _ Hr) as Hn. rewrite HP in Hn. apply NoDup_app in Hn as (_ & _ & [Hn _]%NoDup_cons). done. }
  exists s'. split; [done|]. split; [|intros q Hq; apply Hs; set_solver]. split; try done.
  eapply vmrep_frame; [exact Hr|exact Hi|apply Hs; set_solver|intros t Ht; apply Hs; set_solver].
Qed.

(** Writing to a page in use that is not part of the address space. *)
Lemma uvm_upd s l pgdir tabs f u R p m' :
  uvm s l pgdir tabs f u (p :: R) → only_page (km_mem s) m' p → uvm (km_set m' s) l pgdir tabs f u (p :: R).
Proof. intros Hu Ho. split; try apply Hu. eapply vm_upd; [apply Hu| |done]. set_solver. Qed.

Lemma uvm_upd_same s l pgdir tabs f u R p m' q :
  uvm s l pgdir tabs f u (p :: R) → only_page (km_mem s) m' p → q ∈ tpages u ++ R → page_same (km_mem s) m' q.
Proof.
  intros Hu Ho Hq. apply (only_page_same kend _ _ p); [done|eapply vmrep_page; [apply Hu|set_solver]|eapply vmrep_page; [apply Hu|set_solver]|].
  intros <-. apply uvm_swap in Hu as (Hr & _). pose proof (vmrep_nodup _ _ _ _ _ _ _ Hr) as Hn.
  apply NoDup_app in Hn as (_ & _ & [_ Hn]%NoDup_cons). apply NoDup_app in Hn as (_ & _ & [Hn _]%NoDup_cons). done.
Qed.

Definition PTE_WU : Z := Z.lor PTE_W PTE_U.

(** User pages [v, w) are mapped by [f] onto pages of zeros. *)
Definition zeroed s f u (v w : Z) : Prop :=
  ∀ k, v ≤ k < w → ∃ p, u !! k = Some p ∧ f k = pte_val (V2P p) PTE_WU ∧ ∀ a, in_page p a → km_mem s a = 0.

(** What [allocuvm] leaves on success: the pages from [v0] on. *)
Record grown_to s l tabs f u s' l' tabs' f' u' (v w : Z) R : Prop := mk_grown_to {
  gt_zero : zeroed s' f' u' v w;
  gt_old : ∀ k, ¬ (v ≤ k < w) → u' !! k = u !! k;
  gt_pte : same_outside f f' v w;
  gt_left : (length l ≤ length l' + 2 * Z.to_nat (w - v))%nat;
  gt_pages : Permutation (l' ++ tpages tabs' ++ tpages u') (l ++ tpages tabs ++ tpages u);
  gt_same : ∀ q, q ∈ tpages u ++ R → page_same (km_mem s) (km_mem s') q;
}.

(** What it leaves on failure: the address space as it was before the call,
    apart from tables that map nothing. *)
Record undone s l tabs f u s' l' tabs' f' (v w : Z) R : Prop := mk_undone {
  ud_pte : same_outside f f' v w;
  ud_pages : Permutation (l' ++ tpages tabs' ++ tpages (ucut v w u)) (l ++ tpages tabs ++ tpages u);
  ud_same : ∀ q, q ∈ tpages (ucut v w u) ++ R → page_same (km_mem s) (km_mem s') q;
}.

Lemma ucut_pages v w u R q : q ∈ tpages (ucut v w u) ++ R → q ∈ tpages u ++ R.
Proof.
  intros [Hq|Hq]%elem_of_app; [|set_solver]. apply tpages_elem in Hq as [k Hk]. rewrite ucut_lookup in Hk.
  case_decide; [done|]. apply elem_of_app. left. apply tpages_elem. eauto.
Qed.

(** One turn of the loop of [allocuvm]: it maps a page of zeros at page [v],
    or gives up. *)
Lemma alloc_one pid pgdir R oldsz newsz fuel s l tabs f u v :
  uvm s l pgdir tabs f u R → 0 ≤ oldsz ≤ newsz → newsz < KERNBASE → npages oldsz ≤ v < npages newsz → u !! v = None →
  (∃ s' l' tabs' f', alloc_loop kend (S fuel) pgdir (v * PGSIZE) oldsz newsz pid s = Ret 0 s' ∧
     uvm s' l' pgdir tabs' f' (ucut (npages oldsz) (npages newsz) u) R ∧
     undone s l tabs f u s' l' tabs' f' (npages oldsz) (npages newsz) R ∧ (length l ≤ 1)%nat) ∨
  (∃ p s' l' tabs', uvm s' l' pgdir tabs' (<[v := pte_val (V2P p) PTE_WU]> f) (<[v := p]> u) R ∧
     alloc_loop kend (S fuel) pgdir (v * PGSIZE) oldsz newsz pid s = alloc_loop kend fuel pgdir ((v + 1) * PGSIZE) oldsz newsz pid s' ∧
     grown_to s l tabs f u s' l' tabs' (<[v := pte_val (V2P p) PTE_WU]> f) (<[v := p]> u) v (v + 1) R).
Proof.
  intros Hu Ho Hn Hv Hnone. cbn [alloc_loop]. pose proof KPAGE_val as HK.
  assert (0 ≤ npages oldsz) as Hv0 by (unfold npages, PGSIZE; dlia).
  assert (npages newsz ≤ KPAGE) as HW by (rewrite HK; unfold npages, KERNBASE, PGSIZE in *; dlia).
  rewrite (proj2 (Z.ltb_lt _ _)) by (apply npages_lt; lia). assert (oldsz < newsz) as Hlt' by (unfold npages, PGSIZE in *; dlia).
  destruct l as [|p l].
  - left. mrun (kalloc_empty kend s _ pid (vr_inv _ _ _ _ _ _ _ (uv_rep _ _ _ _ _ _ _ Hu))). rewrite Z.eqb_refl.
    destruct (deallocuvm_run pid s [] pgdir tabs f u R newsz oldsz Hu) as (s' & l' & f' & E & Hu' & HP & Hs & Hp); [lia|lia|].
    exists s', l', tabs, f'. split; [by mrun E|]. split; [done|]. split; [|simpl; lia]. split; [done| |done].
    rewrite (app_assoc l'), (Permutation_app_comm l'), <- app_assoc, HP. solve_Permutation.
  - destruct (uvm_kalloc pid s p l pgdir tabs f u R Hu) as (s1 & E1 & Hz & Em1 & Hu1). mrun E1.
    rewrite (proj2 (Z.eqb_neq _ _)) by done. rewrite (bind_Ret (k_upd _) _ pid s1 tt (km_set (memset p 0 PGSIZE (km_mem s1)) s1) eq_refl).
    pose proof (memset_only p (km_mem s1)) as Ho1. pose proof (uvm_upd _ _ _ _ _ _ _ _ _ Hu1 Ho1) as Hu2.
    set (s2 := km_set _ s1) in *. change (Z.lor PTE_W PTE_U) with PTE_WU.
    assert (∀ q, q ∈ tpages u ++ R → page_same (km_mem s) (km_mem s2) q) as Hs2.
    { intros q Hq. rewrite <- Em1. by eapply uvm_upd_same. }
    destruct (uvm_map_page pid s2 l pgdir tabs f u R v p PTE_WU Hu2) as [(s3 & tabs3 & E3 & Hu3 & -> & HP3 & Hs3)|(s3 & T & l3 & tabs3 & E3 & Hu3 & El & HT & HP3 & Hs3)];
      try done; try (rewrite HK in *; lia); mrun E3; cbn [Z.ltb Z.compare].
    + left. destruct (deallocuvm_run pid s3 [] pgdir tabs3 f u (p :: R) newsz oldsz Hu3) as (s4 & l4 & f4 & E4 & Hu4 & HP4 & Hf4 & Hs4); [lia|lia|].
      destruct (uvm_kfree pid s4 p l4 pgdir tabs3 f4 _ R Hu4) as (s5 & E5 & Hu5 & Hs5).
      exists s5, (p :: l4), tabs3, f4. split; [mrun E4; mrun E5; done|]. split; [done|]. split; [|simpl; lia]. split; [done| |].
      * cbn [app]. rewrite (app_assoc l4), (Permutation_app_comm l4), <- app_assoc, HP4, HP3. solve_Permutation.
      * intros q Hq. pose proof (ucut_pages _ _ _ _ _ Hq). eapply page_same_trans; [by apply Hs2|].
        eapply page_same_trans; [apply Hs3; set_solver|]. eapply page_same_trans; [apply Hs4; set_solver|]. by apply Hs5.
    + right. exists p, s3, l3, tabs3. split; [done|]. rewrite u32_small by (rewrite HK in HW; unfold PGSIZE in *; lia).
      replace (v * PGSIZE + PGSIZE) with ((v + 1) * PGSIZE) by lia. split; [done|]. split.
      * intros k Hk. assert (k = v) as -> by lia. exists p. rewrite lookup_insert_eq, fn_lookup_insert. split; [done|]. split; [done|].
        intros a Ha. rewrite (Hs3 p ltac:(set_solver) a Ha). cbn [s2 km_set km_mem].
        rewrite memset_spec by (unfold PGSIZE; lia). by rewrite decide_True by done.
      * intros k Hk. by rewrite lookup_insert_ne by lia.
      * intros k Hk. by rewrite fn_lookup_insert_ne by lia.
      * rewrite El. cbn [length]. rewrite length_app. lia.
      * rewrite tpages_insert, HP3, El by done. solve_Permutation.
      * intros q Hq. eapply page_same_trans; [by apply Hs2|]. apply Hs3. set_solver.
Qed.

Lemma alloc_loop_run pid pgdir R oldsz newsz fuel : ∀ s l tabs f u v,
  uvm s l pgdir tabs f u R → 0 ≤ oldsz ≤ newsz → newsz < KERNBASE → npages oldsz ≤ v →
  (∀ k, v ≤ k < npages newsz → u !! k = None) → (Z.to_nat (npages newsz - v) < fuel)%nat →
  (∃ s' l' tabs' f' u', alloc_loop kend fuel pgdir (v * PGSIZE) oldsz newsz pid s = Ret newsz s' ∧
     uvm s' l' pgdir tabs' f' u' R ∧ grown_to s l tabs f u s' l' tabs' f' u' v (npages newsz) R) ∨
  (∃ s' l' tabs' f', alloc_loop kend fuel pgdir (v * PGSIZE) oldsz newsz pid s = Ret 0 s' ∧
     uvm s' l' pgdir tabs' f' (ucut (npages oldsz) (npages newsz) u) R ∧
     undone s l tabs f u s' l' tabs' f' (npages oldsz) (npages newsz) R ∧
     (length l < 2 * Z.to_nat (npages newsz - v))%nat).
Proof.
  induction fuel as [|fuel IH]; intros s l tabs f u v Hu Ho Hn Hv Hnone Hf; [lia|].
  destruct (decide (v < npages newsz)) as [Hlt|Hge].
  2: { left. exists s, l, tabs, f, u. cbn [alloc_loop]. rewrite (proj2 (Z.ltb_ge _ _)) by (pose proof (npages_lt newsz v); lia).
       split; [done|]. split; [done|]. split; try done; [intros k Hk|]; lia. }
  destruct (alloc_one pid pgdir R oldsz newsz fuel s l tabs f u v Hu Ho Hn) as [(s' & l' & tabs' & f' & E' & Hu' & Hud & Hl1)|(p & s1 & l1 & tabs1 & Hu1 & E1 & [G1 G2 G3 GL G4 G5])];
    [lia|apply Hnone; lia|right; exists s', l', tabs', f'; split_and!; try done; lia|]. rewrite E1.
  assert (ucut (npages oldsz) (npages newsz) (<[v := p]> u) = ucut (npages oldsz) (npages newsz) u) as Ecut.
  { apply map_eq. intros k. rewrite !ucut_lookup. case_decide; [done|]. by rewrite lookup_insert_ne by lia. }
  assert (∀ q, q ∈ tpages u ++ R → q ∈ tpages (<[v := p]> u) ++ R) as Hin.
  { intros q Hq. rewrite tpages_insert by (apply Hnone; lia). set_solver. }
  destruct (IH s1 l1 tabs1 _ _ (v + 1) Hu1) as [(s' & l' & tabs' & f' & u' & E' & Hu' & [K1 K2 K3 KL K4 K5])|(s' & l' & tabs' & f' & E' & Hu' & [K1 K2 K3] & K4)];
    try done; try lia.
  - intros k Hk. rewrite lookup_insert_ne by lia. apply Hnone. lia.
  - left. exists s', l', tabs', f', u'. split; [done|]. split; [done|]. split.
    + intros k Hk. destruct (decide (k = v)) as [->|Hne]; [|apply K1; lia].
      destruct (G1 v) as (q & Eq & Ef & Hzero); [lia|]. exists q. rewrite K2, K3 by lia. split; [done|]. split; [done|].
      intros a Ha. rewrite (K5 q); [by apply Hzero| |done]. apply elem_of_app. left. apply tpages_elem. eauto.
    + intros k Hk. rewrite K2 by lia. by apply G2; lia.
    + intros k Hk. rewrite K3 by lia. apply G3. lia.
    + lia.
    + by rewrite K4, G4.
    + intros q Hq. eapply page_same_trans; [by apply G5|]. apply K5. by apply Hin.
  - right. rewrite Ecut in *. exists s', l', tabs', f'. split; [done|]. split; [done|]. split; [|lia]. split.
    + intros k Hk. rewrite K1 by done. apply G3. lia.
    + by rewrite K2, G4.
    + intros q Hq. eapply page_same_trans; [apply G5; by eapply ucut_pages|]. by apply K3.
Qed.

(** [allocuvm]: the new pages, or no change of the address space. *)
Lemma allocuvm_run pid s l pgdir tabs f u R oldsz newsz :
  uvm s l pgdir tabs f u R → 0 ≤ oldsz ≤ newsz → newsz < KERNBASE → (∀ k, npages oldsz ≤ k → u !! k = None) →
  (∃ s' l' tabs' f' u', allocuvm kend pgdir oldsz newsz pid s = Ret newsz s' ∧
     uvm s' l' pgdir tabs' f' u' R ∧ grown_to s l tabs f u s' l' tabs' f' u' (npages oldsz) (npages newsz) R) ∨
  (∃ s' l' tabs' f', allocuvm kend pgdir oldsz newsz pid s = Ret 0 s' ∧ uvm s' l' pgdir tabs' f' u R ∧
     undone s l tabs f u s' l' tabs' f' (npages oldsz) (npages newsz) R ∧
     (length l < 2 * Z.to_nat (npages newsz - npages oldsz))%nat).
Proof.
  intros Hu Ho Hn Hnone. unfold allocuvm. rewrite (proj2 (Z.leb_gt _ _)), (proj2 (Z.ltb_ge _ _)) by lia.
  rewrite npages_round by (unfold KERNBASE, PGSIZE in *; lia).
  assert (ucut (npages oldsz) (npages newsz) u = u) as Ecut.
  { apply map_eq. intros k. rewrite ucut_lookup. case_decide; [|done]. symmetry. apply Hnone. lia. }
  pose proof (alloc_loop_run pid pgdir R oldsz newsz (S (S (Z.to_nat (newsz / PGSIZE)))) s l tabs f u (npages oldsz) Hu Ho Hn) as HL.
  rewrite Ecut in HL. apply HL; [done|intros k Hk; apply Hnone; lia|]. unfold npages, PGSIZE. dlia.
Qed.

End user.
