(* ===== verification/VmKern.v ===== *)
(** * Page tables: creating, copying and freeing address spaces

    [freevm], [setupkvm], [copyuvm] and [copyout]. *)

From S2P Require Import Prelude Layout CString Mem Kalloc Vm VmSpec VmMap VmUser.

Section kern.
Context (kend : Z) (Hend : KERNLINK ≤ kend).
Implicit Types (s : kmem) (l R : list Z) (tabs u : gmap Z Z) (f : Z → Z).
#[local] Notation vmrep := (vmrep kend).
#[local] Notation uvm := (uvm kend).

(** ** freevm *)

Lemma npages_0 : npages 0 = 0.
Proof. reflexivity. Qed.
Lemma npages_kern : npages KERNBASE = KPAGE.
Proof. reflexivity. Qed.

(** [kfree] of a page in use, wherever it is in the list. *)
Lemma kfree_any pid s l A B p :
  kinv kend s l A → Permutation A (p :: B) →
  ∃ s', kfree kend p pid s = Ret tt s' ∧ kinv kend s' (p :: l) B ∧ only_page (km_mem s) (km_mem s') p ∧ page_ok kend p ∧ p ∉ B ∧
    (∀ q, q ∈ B → page_same (km_mem s) (km_mem s') q).
Proof.
  intros Hi HP. pose proof (kinv_perm kend _ _ _ _ Hi HP) as Hi'. destruct (kfree_inv kend s l B p pid Hi') as (s' & E & Hk & Ho).
  destruct Hi' as [_ Hp Hn]. apply Forall_cons in Hp as [Hpk Hp]. apply NoDup_app in Hn as (_ & _ & [HpB _]%NoDup_cons).
  exists s'. split_and!; try done. intros q Hq. apply (only_page_same kend _ _ p); try done; [by eapply Forall_forall in Hp|].
  intros ->. done.
Qed.

(** The tables left after directory entries below [i]. *)
Lemma freevm_tables pid s l pgdir tabs f R :
  vmrep s l pgdir tabs f R →
  ∃ s' l', forM (seqZ 0 NPDENTRIES) (freevm_one kend pgdir) pid s = Ret tt s' ∧ kinv kend s' l' (pgdir :: R) ∧
    Permutation l' (l ++ tpages tabs) ∧ (∀ q, q ∈ R → page_same (km_mem s) (km_mem s') q).
Proof.
  intros Hr. destruct (triple_forZ pid (λ i s', ∃ l', kinv kend s' l' (pgdir :: tpages (ucut 0 (Z.of_nat i) tabs) ++ R) ∧
      Permutation (l' ++ tpages (ucut 0 (Z.of_nat i) tabs)) (l ++ tpages tabs) ∧
      (∀ q, q ∈ pgdir :: R → page_same (km_mem s) (km_mem s') q)) (freevm_one kend pgdir) NPDENTRIES) with (s := s)
    as ([] & s' & E & l' & Hi & HP & Hs).
  - intros i Hi s1 (l1 & Hk1 & HP1 & Hs1). assert (0 ≤ Z.of_nat i < 1024) as Hi' by (unfold NPDENTRIES in Hi; lia).
    assert (load32 (km_mem s1) (pgdir + 4 * Z.of_nat i) = match tabs !! Z.of_nat i with Some t => V2P t + 7 | None => 0 end) as Epde.
    { rewrite <- (vr_pde _ _ _ _ _ _ _ Hr) by done. apply load_page_same; [apply Hs1; set_solver|done]. }
    unfold freevm_one. rewrite (bind_Ret (kload _) _ pid s1 _ s1 eq_refl), Epde.
    destruct (tabs !! Z.of_nat i) as [t|] eqn:Et.
    + pose proof (vmrep_tab kend _ _ _ _ _ _ _ _ Hr Et) as Htk. destruct (pde_bits kend t Htk) as (H1 & H2 & _). rewrite H1, H2.
      assert (ucut 0 (Z.of_nat i) tabs !! Z.of_nat i = Some t) as Et' by (rewrite ucut_lookup, decide_False by lia; done).
      assert (delete (Z.of_nat i) (ucut 0 (Z.of_nat i) tabs) = ucut 0 (Z.of_nat (S i)) tabs) as Ed.
      { apply map_eq. intros k. rewrite ucut_lookup. destruct (decide (k = Z.of_nat i)) as [->|Hne].
        - by rewrite lookup_delete_eq, decide_True by lia.
        - rewrite lookup_delete_ne, ucut_lookup by done. by destruct (decide (0 ≤ k < Z.of_nat i)), (decide (0 ≤ k < Z.of_nat (S i))); try lia. }
      pose proof (tpages_delete _ _ _ Et') as HPd. rewrite Ed in HPd.
      destruct (kfree_any pid s1 l1 _ (pgdir :: tpages (ucut 0 (Z.of_nat (S i)) tabs) ++ R) t Hk1) as (s2 & E2 & Hk2 & _ & _ & _ & Hs2).
      { rewrite HPd. solve_Permutation. }
      exists tt, s2. split; [done|]. exists (t :: l1). split; [done|]. split.
      * rewrite <- HP1, HPd. solve_Permutation.
      * intros q Hq. eapply page_same_trans; [by apply Hs1|]. apply Hs2. set_solver.
    + exists tt, s1. split; [done|]. exists l1. replace (ucut 0 (Z.of_nat (S i)) tabs) with (ucut 0 (Z.of_nat i) tabs); [done|].
      apply map_eq. intros k. rewrite !ucut_lookup. destruct (decide (k = Z.of_nat i)) as [->|]; [by repeat case_decide|].
      by destruct (decide (0 ≤ k < Z.of_nat i)), (decide (0 ≤ k < Z.of_nat (S i))); try lia.
  - exists l. rewrite ucut_nil by done. split; [apply Hr|done].
  - assert (ucut 0 (Z.of_nat (Z.to_nat NPDENTRIES)) tabs = ∅) as E0.
    { apply map_eq. intros k. rewrite ucut_lookup, lookup_empty. case_decide as Hd; [done|].
      destruct (tabs !! k) as [t|] eqn:Ek; [|done]. apply (vr_dom _ _ _ _ _ _ _ Hr) in Ek. unfold NPDENTRIES in Hd. lia. }
    rewrite E0 in *. change (tpages ∅) with (@nil Z) in *. rewrite app_nil_r in HP. exists s', l'. split_and!; try done.
    intros q Hq. apply Hs. by right.
Qed.

(** [freevm] returns every page of the address space to the free list. *)
Lemma freevm_run pid s l pgdir tabs f u R :
  uvm s l pgdir tabs f u R →
  ∃ s' l', freevm kend pgdir pid s = Ret tt s' ∧ kinv kend s' l' R ∧
    Permutation l' (l ++ pgdir :: tpages tabs ++ tpages u) ∧ (∀ q, q ∈ R → page_same (km_mem s) (km_mem s') q).
Proof.
  intros Hu. assert (pgdir ≠ 0) as Hz by (eapply page_nonzero, vmrep_page; [apply Hu|set_solver]).
  destruct (deallocuvm_run kend Hend pid s l pgdir tabs f u R KERNBASE 0 Hu) as (s1 & l1 & f1 & E1 & Hu1 & HP1 & _ & Hs1);
    [unfold KERNBASE; lia|lia|]. rewrite npages_0, npages_kern in *.
  assert (ucut 0 KPAGE u = ∅) as E0.
  { apply map_eq. intros k. rewrite ucut_lookup, lookup_empty. case_decide as Hd; [done|].
    destruct (u !! k) as [t|] eqn:Ek; [|done]. apply (uv_dom _ _ _ _ _ _ _ _ Hu) in Ek. lia. }
  rewrite E0 in *. change (tpages ∅) with (@nil Z) in *. rewrite app_nil_r in HP1. cbn [app] in Hs1.
  destruct (freevm_tables pid s1 l1 pgdir tabs f1 R) as (s2 & l2 & E2 & Hi2 & HP2 & Hs2); [apply Hu1|].
  destruct (kfree_any pid s2 l2 _ R pgdir Hi2 (reflexivity _)) as (s3 & E3 & Hi3 & _ & _ & _ & Hs3).
  exists s3, (pgdir :: l2). unfold freevm. rewrite (proj2 (Z.eqb_neq _ _)) by done.
  split; [mrun E1; mrun E2; exact E3|]. split; [done|]. split; [rewrite HP2, HP1; solve_Permutation|].
  intros q Hq. eapply page_same_trans; [by apply Hs1|]. eapply page_same_trans; [by apply Hs2|]. by apply Hs3.
Qed.

(** ** setupkvm *)

(** A new directory. *)
Lemma vm_fresh pid s p l A :
  kinv kend s (p :: l) A →
  ∃ s1, kalloc pid s = Ret p s1 ∧ p ≠ 0 ∧ uvm (km_set (memset p 0 PGSIZE (km_mem s1)) s1) l p ∅ (λ _, 0) ∅ A ∧
    (∀ q, q ∈ A → page_same (km_mem s) (memset p 0 PGSIZE (km_mem s1)) q).
Proof.
  intros Hi. destruct (kalloc_run kend s p l A pid Hi) as (E & Hz & Hpk & Hi1). eexists. split; [done|]. split; [done|].
  assert (p ∈ p :: A) as Hin by set_solver.
  pose proof (kinv_upd kend _ l _ p _ Hi1 Hin (memset_only p (km_mem s))) as Hi2. split.
  - split; [|by intros ? ? ?%lookup_empty_Some..|done]. split; [exact Hi2|by intros ? ? ?%lookup_empty_Some| |done].
    intros d Hd. rewrite lookup_empty. by apply zero_word.
  - intros q Hq. destruct Hi1 as [_ Hp Hn]. apply NoDup_app in Hn as (_ & _ & [HpA _]%NoDup_cons).
    apply (only_page_same kend _ _ p); [apply memset_only|done| |].
    + apply Forall_cons in Hp as [_ Hp]. by eapply Forall_forall in Hp.
    + intros ->. done.
Qed.

Definition row_page (k : kmap_row) : Z := km_virt k / PGSIZE.
Definition row_size (k : kmap_row) : Z := u32 (km_phys_end k - km_phys_start k) / PGSIZE.

(** Rows of whole pages, in order from page [b] on. *)
Fixpoint rows_ok (b : Z) (rows : list kmap_row) : Prop :=
  match rows with
  | [] => True
  | k :: rows' =>
      b ≤ row_page k ∧ km_virt k mod PGSIZE = 0 ∧ u32 (km_phys_end k - km_phys_start k) mod PGSIZE = 0 ∧
      0 < row_size k ∧ row_page k + row_size k ≤ 2 ^ 20 ∧ 0 ≤ km_phys_start k ∧ km_phys_start k mod PGSIZE = 0 ∧
      km_phys_start k + row_size k * PGSIZE ≤ 2 ^ 32 ∧ 0 ≤ km_perm k < PGSIZE ∧ rows_ok (row_page k + row_size k) rows'
  end.

Definition map_row (f : Z → Z) (k : kmap_row) : Z → Z := mapped_to f (row_page k) (row_size k) (km_phys_start k) (km_perm k).

Lemma uvm_empty s l pgdir tabs f R :
  vmrep s l pgdir tabs f R → (∀ v, 0 ≤ v < KPAGE → f v = 0) → uvm s l pgdir tabs f ∅ R.
Proof.
  intros Hr Hf. split; [done|by intros ? ? ?%lookup_empty_Some..|]. intros v Hv _. by rewrite Hf.
Qed.

(** Directory entries that the tables of [tabs] and the rows use. *)
Definition tabs_in (K : gset Z) tabs : Prop := ∀ d t, tabs !! d = Some t → d ∈ K.
Definition rows_in (K : gset Z) (rows : list kmap_row) : Prop :=
  ∀ k d, k ∈ rows → row_page k / 1024 ≤ d ≤ (row_page k + row_size k - 1) / 1024 → d ∈ K.

Lemma tabs_in_size K tabs : tabs_in K tabs → (length (tpages tabs) ≤ size K)%nat.
Proof.
  intros Hi. unfold tpages. rewrite length_fmap, length_map_to_list, <- size_dom. apply subseteq_size.
  intros d [t Ht]%elem_of_dom. by eapply Hi.
Qed.

Lemma tabs_in_empty K : tabs_in K ∅.
Proof. by intros d t ?%lookup_empty_Some. Qed.

Lemma setupkvm_loop_run pid pgdir R K rows : ∀ s l tabs f b,
  vmrep s l pgdir tabs f R → tabs_in K tabs → rows_in K rows → KPAGE ≤ b → rows_ok b rows → (∀ v, b ≤ v → f v = 0) → (∀ v, 0 ≤ v < KPAGE → f v = 0) →
  (∃ s' l', setupkvm_loop kend pgdir rows pid s = Ret 0 s' ∧ kinv kend s' l' R ∧ Permutation l' (l ++ pgdir :: tpages tabs) ∧
     (length l + length (tpages tabs) ≤ size K)%nat ∧ (∀ q, q ∈ R → page_same (km_mem s) (km_mem s') q)) ∨
  (∃ s' l' tabs', tabs_in K tabs' ∧ setupkvm_loop kend pgdir rows pid s = Ret pgdir s' ∧ uvm s' l' pgdir tabs' (foldl map_row f rows) ∅ R ∧
     Permutation (l' ++ tpages tabs') (l ++ tpages tabs) ∧ (∀ q, q ∈ R → page_same (km_mem s) (km_mem s') q)).
Proof.
  induction rows as [|k rows IH]; intros s l tabs f b Hr HK1 HK2 Hb Hrows Hf Hlow; cbn [setupkvm_loop foldl].
  - right. exists s, l, tabs. split; [done|]. split; [done|]. split; [by apply uvm_empty|done].
  - destruct Hrows as (H1 & H2 & H3 & H4 & H5 & H6 & H7 & H8 & H9 & H10). pose proof KPAGE_val as HK.
    destruct (mappages_run kend pid s l pgdir tabs f R (row_page k) (row_size k) (km_phys_start k) (km_perm k))
      as (n & s1 & T & l1 & tabs1 & Hn & Hl1 & El & _ & Hmt & HP & E & Hr1 & Hs1); try done; try lia.
    { intros w Hw. by rewrite Hf by lia. }
    assert (tabs_in K tabs1) as HK1'.
    { intros d t [Ht|Hd]%Hmt; [by eapply HK1|]. apply (HK2 k); [by left|done]. }
    replace (row_page k * PGSIZE) with (km_virt k) in E by (unfold row_page, PGSIZE in *; dlia).
    replace (row_size k * PGSIZE) with (u32 (km_phys_end k - km_phys_start k)) in E by (unfold row_size, PGSIZE in *; dlia).
    mrun E. assert (∀ v, 0 ≤ v < KPAGE → mapped_to f (row_page k) n (km_phys_start k) (km_perm k) v = 0) as Hlow1.
    { intros v Hv. unfold mapped_to. rewrite decide_False by lia. by apply Hlow. }
    destruct (decide (n = row_size k)) as [->|Hne].
    + rewrite Z.eqb_refl. cbn [Z.ltb Z.compare].
      destruct (IH s1 l1 tabs1 _ (row_page k + row_size k) Hr1 HK1') as [(s' & l' & E' & Hi' & HP' & HL' & Hs')|(s' & l' & tabs' & HK' & E' & Hu' & HP' & Hs')]; try done; try lia.
      { intros k' d Hk'. apply HK2. by right. }
      { intros v Hv. unfold mapped_to. rewrite decide_False by lia. apply Hf. lia. }
      * left. exists s', l'. split; [done|]. split; [done|]. split; [rewrite HP', HP, El; solve_Permutation|].
        split; [rewrite El, length_app; apply Permutation_length in HP; rewrite length_app in HP; lia|].
        intros q Hq. eapply page_same_trans; eauto.
      * right. exists s', l', tabs'. split; [done|]. split; [done|]. split; [done|]. split; [rewrite HP', HP, El; solve_Permutation|].
        intros q Hq. eapply page_same_trans; eauto.
    + left. rewrite (proj2 (Z.eqb_neq _ _)) by done. cbn [Z.ltb Z.compare].
      destruct (freevm_run pid s1 l1 pgdir tabs1 _ ∅ R (uvm_empty _ _ _ _ _ _ Hr1 Hlow1)) as (s2 & l2 & E2 & Hi2 & HP2 & Hs2).
      exists s2, l2. split; [by mrun E2|]. split; [done|]. split; [|split; [|intros q Hq; eapply page_same_trans; eauto]].
      * change (tpages ∅) with (@nil Z) in HP2. rewrite HP2, HP, El. solve_Permutation.
      * pose proof (tabs_in_size K tabs1 HK1') as Hsz. apply Permutation_length in HP. rewrite length_app in HP.
        rewrite (Hl1 ltac:(lia)), app_nil_r in El. subst T. lia.
Qed.

(** The kernel half of every address space. *)
Definition kern_pte (kdata : Z) : Z → Z := foldl map_row (λ _, 0) (kmap kdata).

(** The data segment starts at a page boundary above the kernel's text. *)
Definition kdata_ok (kdata : Z) : Prop := kdata mod PGSIZE = 0 ∧ KERNLINK < kdata < KERNBASE + PHYSTOP.

Lemma kmap_rows kdata : kdata_ok kdata → rows_ok KPAGE (kmap kdata).
Proof.
  intros (Hm & Hr). assert (V2P kdata = kdata - KERNBASE) as E by (apply u32_small; unfold KERNLINK, KERNBASE, PHYSTOP, EXTMEM in *; lia).
  unfold kmap. cbn [rows_ok]. unfold row_page, row_size. cbn [km_virt km_phys_start km_phys_end km_perm]. rewrite E.
  change (V2P KERNLINK) with EXTMEM. change (u32 (0 - DEVSPACE)) with 33554432. change (u32 (EXTMEM - 0)) with 1048576.
  rewrite !u32_small by (unfold KERNLINK, KERNBASE, PHYSTOP, EXTMEM in *; lia).
  unfold KPAGE, KERNLINK, KERNBASE, PHYSTOP, EXTMEM, DEVSPACE, PGSIZE, PTE_W in *. split_and!; try dlia.
Qed.

(** The 64 directory entries of the kernel half. *)
Definition kdirs : gset Z := list_to_set (seqZ 512 56 ++ seqZ 1016 8).

Lemma kmap_dirs kdata : kdata_ok kdata → rows_in kdirs (kmap kdata).
Proof.
  intros (Hm & Hr). assert (V2P kdata = kdata - KERNBASE) as E by (apply u32_small; unfold KERNLINK, KERNBASE, PHYSTOP, EXTMEM in *; lia).
  intros k d Hk Hd. unfold kdirs. rewrite elem_of_list_to_set, elem_of_app, !elem_of_seqZ. unfold kmap in Hk.
  unfold row_page, row_size in Hd. rewrite !elem_of_cons, elem_of_nil in Hk.
  destruct Hk as [->|[->|[->|[->|[]]]]]; cbn [km_virt km_phys_start km_phys_end] in Hd; rewrite ?E in Hd.
  - change (u32 (EXTMEM - 0)) with 1048576 in Hd. unfold KERNBASE, PGSIZE in Hd. dlia.
  - change (V2P KERNLINK) with EXTMEM in Hd. rewrite u32_small in Hd by (unfold KERNLINK, KERNBASE, PHYSTOP, EXTMEM in *; lia).
    unfold KERNLINK, KERNBASE, PHYSTOP, EXTMEM, PGSIZE in *. dlia.
  - rewrite u32_small in Hd by (unfold KERNLINK, KERNBASE, PHYSTOP, EXTMEM in *; lia).
    unfold KERNLINK, KERNBASE, PHYSTOP, EXTMEM, PGSIZE in *. dlia.
  - change (u32 (0 - DEVSPACE)) with 33554432 in Hd. unfold DEVSPACE, PGSIZE in Hd. dlia.
Qed.

Lemma setupkvm_run pid kdata s l A :
  kdata_ok kdata → kinv kend s l A →
  (∃ s' l', setupkvm kend kdata pid s = Ret 0 s' ∧ kinv kend s' l' A ∧ Permutation l' l ∧ (length l ≤ 65)%nat ∧
     (∀ q, q ∈ A → page_same (km_mem s) (km_mem s') q)) ∨
  (∃ pgdir s' l' tabs, setupkvm kend kdata pid s = Ret pgdir s' ∧ pgdir ≠ 0 ∧ uvm s' l' pgdir tabs (kern_pte kdata) ∅ A ∧
     Permutation (l' ++ pgdir :: tpages tabs) l ∧ (length l ≤ length l' + 65)%nat ∧
     (∀ q, q ∈ A → page_same (km_mem s) (km_mem s') q)).
Proof.
  intros Hk Hi. unfold setupkvm. destruct l as [|p l].
  - left. exists s, []. mrun (kalloc_empty kend s A pid Hi). split_and!; try done. simpl. lia.
  - destruct (vm_fresh pid s p l A Hi) as (s1 & E1 & Hz & Hu1 & Hs1).
    mrun E1. rewrite (proj2 (Z.eqb_neq _ _)) by done.
    rewrite (bind_Ret (k_upd _) _ pid s1 tt (km_set (memset p 0 PGSIZE (km_mem s1)) s1) eq_refl).
    change (DEVSPACE <? P2V PHYSTOP) with false. cbv iota.
    assert (size kdirs = 64%nat) as HK by (by vm_compute).
    destruct (setupkvm_loop_run pid p A kdirs (kmap kdata) _ l ∅ (λ _, 0) KPAGE (uv_rep _ _ _ _ _ _ _ _ Hu1))
      as [(s' & l' & E' & Hi' & HP' & HL & Hs')|(s' & l' & tabs' & HK' & E' & Hu' & HP' & Hs')];
      [apply tabs_in_empty|by apply kmap_dirs|apply Z.le_refl|by apply kmap_rows|by intros|by intros|left|right].
    + exists s', l'. split; [done|]. split; [done|]. split; [rewrite HP'; change (tpages ∅) with (@nil Z); solve_Permutation|].
      split; [rewrite HK in HL; cbn [length]; lia|].
      intros q Hq. eapply page_same_trans; [by apply Hs1|]. by apply Hs'.
    + change (tpages ∅) with (@nil Z) in HP'. rewrite app_nil_r in HP'.
      exists p, s', l', tabs'. split; [done|]. split; [done|]. split; [done|]. split; [|split].
      * rewrite <- HP'. solve_Permutation.
      * pose proof (tabs_in_size _ _ HK') as Hsz. rewrite HK in Hsz. apply Permutation_length in HP'. rewrite length_app in HP'. cbn [length]. lia.
      * intros q Hq. eapply page_same_trans; [by apply Hs1|]. by apply Hs'.
Qed.

(** ** copyuvm *)

(** Child page [k] is a copy of the parent's: same flags, same bytes. *)
Definition copied (m0 : mem) f u s' f' u' (k : Z) : Prop :=
  ∃ p q, u !! k = Some p ∧ u' !! k = Some q ∧ f' k = pte_val (V2P q) (PTE_FLAGS (f k)) ∧
    ∀ o, 0 ≤ o < PGSIZE → km_mem s' (q + o) = m0 (p + o).

Section copy.
(** The parent's address space, before the child is made. *)
Context (s0 : kmem) (l0 : list Z) (pgdir : Z) (tabs : gmap Z Z) (f : Z → Z) (u : gmap Z Z) (R : list Z).
Context (Hpar : uvm s0 l0 pgdir tabs f u R).

(** The pages the child's construction must keep. *)
Definition ppages : list Z := pgdir :: tpages tabs ++ tpages u ++ R.
Definition kept s : Prop := ∀ q, q ∈ ppages → page_same (km_mem s0) (km_mem s) q.

Lemma parent_rep s l d td fd ud :
  uvm s l d td fd ud ppages → kept s → vmrep s l pgdir tabs f (tpages u ++ R ++ d :: tpages td ++ tpages ud).
Proof.
  intros Hu Hk. eapply vmrep_frame; [apply Hpar| |apply Hk; unfold ppages; set_solver|intros t Ht; apply Hk; unfold ppages; set_solver].
  eapply kinv_perm; [apply Hu|]. unfold ppages. solve_Permutation.
Qed.

Lemma kept_trans s s' R' : kept s → (∀ q, q ∈ R' → page_same (km_mem s) (km_mem s') q) → (∀ q, q ∈ ppages → q ∈ R') → kept s'.
Proof. intros Hk Hs Hin q Hq. eapply page_same_trans; [by apply Hk|]. apply Hs. by apply Hin. Qed.

(** The entry of a user page of the parent, read in state [s]. *)
Lemma parent_entry pid s l d td fd ud v p :
  uvm s l d td fd ud ppages → kept s → u !! v = Some p →
  ∃ a, walkpgdir pgdir (v * PGSIZE) 0 pid s = Ret a s ∧ a ≠ 0 ∧ load32 (km_mem s) a = f v.
Proof.
  intros Hu Hk Hp. destruct (uvm_entry kend Hend _ _ _ _ _ _ _ _ _ Hpar Hp) as (_ & _ & _ & _ & t & Ht).
  pose proof (uv_dom _ _ _ _ _ _ _ _ Hpar _ _ Hp) as Hv. rewrite KPAGE_val in Hv.
  pose proof (parent_rep _ _ _ _ _ _ Hu Hk) as Hr. assert (v * PGSIZE / PGSIZE = v) as Ev by (unfold PGSIZE; dlia).
  exists (t + 4 * (v mod 1024)). split; [|split].
  - rewrite <- Ev at 2. eapply walk_hit; [exact Hr|unfold PGSIZE; lia|by rewrite Ev].
  - pose proof (vmrep_tab kend _ _ _ _ _ _ _ _ Hr Ht) as (_ & _ & Htk). unfold KERNBASE in Htk. dlia.
  - pose proof (vr_pte _ _ _ _ _ _ _ Hr v ltac:(lia)) as Ef. by rewrite Ht in Ef.
Qed.

Lemma memmove_only p q m : only_page m (memmove p q PGSIZE m) p.
Proof. intros a Ha. rewrite memmove_spec by (unfold PGSIZE; lia). by rewrite decide_False by exact Ha. Qed.

(** One turn of the loop of [copyuvm]. *)
Lemma copy_one pid d fuel sz s l td fd ud v p :
  uvm s l d td fd ud ppages → kept s → u !! v = Some p → v * PGSIZE < sz → ud !! v = None →
  (∃ s' l' td', copy_loop kend (S fuel) pgdir d (v * PGSIZE) sz pid s = Ret false s' ∧
     uvm s' l' d td' fd ud ppages ∧ kept s' ∧ Permutation (l' ++ tpages td') (l ++ tpages td) ∧ (length l ≤ 1)%nat) ∨
  (∃ q s' l' td', (length l ≤ length l' + 2)%nat ∧ copy_loop kend (S fuel) pgdir d (v * PGSIZE) sz pid s = copy_loop kend fuel pgdir d ((v + 1) * PGSIZE) sz pid s' ∧
     uvm s' l' d td' (<[v := pte_val (V2P q) (PTE_FLAGS (f v))]> fd) (<[v := q]> ud) ppages ∧ kept s' ∧
     Permutation (l' ++ tpages td' ++ tpages (<[v := q]> ud)) (l ++ tpages td ++ tpages ud) ∧
     (∀ x, x ∈ tpages ud → page_same (km_mem s) (km_mem s') x) ∧
     (∀ o, 0 ≤ o < PGSIZE → km_mem s' (q + o) = km_mem s0 (p + o))).
Proof.
  intros Hu Hk Hp Hsz Hnone. cbn [copy_loop]. rewrite (proj2 (Z.ltb_lt _ _)) by done.
  pose proof (uv_dom _ _ _ _ _ _ _ _ Hpar _ _ Hp) as Hv. pose proof KPAGE_val as HK.
  destruct (parent_entry pid s l d td fd ud v p Hu Hk Hp) as (a & Ea & Haz & Ef). mrun Ea.
  rewrite (proj2 (Z.eqb_neq _ _)) by done. rewrite (bind_Ret (kload a) _ pid s _ s eq_refl), Ef.
  destruct (uvm_entry kend Hend _ _ _ _ _ _ _ _ _ Hpar Hp) as (HP & HA & HV & _ & _). rewrite HP, HA, HV. cbn [negb].
  assert (0 ≤ PTE_FLAGS (f v) < PGSIZE) as Hfl by (rewrite pte_flags_mod; unfold PGSIZE; dlia).
  destruct l as [|q l].
  - left. mrun (kalloc_empty kend s _ pid (vr_inv _ _ _ _ _ _ _ (uv_rep _ _ _ _ _ _ _ _ Hu))). exists s, [], td. split_and!; try done. simpl. lia.
  - destruct (uvm_kalloc kend pid s q l d td fd ud ppages Hu) as (s1 & E1 & Hz & Em1 & Hu1). mrun E1.
    rewrite (proj2 (Z.eqb_neq _ _)) by done.
    rewrite (bind_Ret (k_upd _) _ pid s1 tt (km_set (memmove q p PGSIZE (km_mem s1)) s1) eq_refl).
    pose proof (memmove_only q p (km_mem s1)) as Ho1. pose proof (uvm_upd kend Hend _ _ _ _ _ _ _ _ _ Hu1 Ho1) as Hu2.
    set (s2 := km_set _ s1) in *.
    assert (∀ x, x ∈ tpages ud ++ ppages → page_same (km_mem s) (km_mem s2) x) as Hs2.
    { intros x Hx. rewrite <- Em1. by eapply uvm_upd_same. }
    assert (∀ x, x ∈ ppages → x ∈ tpages ud ++ ppages ∧ x ∈ tpages ud ++ q :: ppages) as Hin.
    { clear. intros x Hx. rewrite !elem_of_app, elem_of_cons. auto. }
    assert (kept s2) as Hk2 by (eapply kept_trans; [exact Hk|exact Hs2|apply Hin]).
    destruct (uvm_map_page kend Hend pid s2 l d td fd ud ppages v q (PTE_FLAGS (f v)) Hu2)
      as [(s3 & td3 & E3 & Hu3 & -> & HP3 & Hs3)|(s3 & T & l3 & td3 & E3 & Hu3 & El & HT & HP3 & Hs3)]; try done; mrun E3; cbn [Z.ltb Z.compare].
    + left. destruct (uvm_kfree kend Hend pid s3 q [] d td3 fd ud ppages Hu3) as (s4 & E4 & Hu4 & Hs4).
      exists s4, [q], td3. split; [by mrun E4|]. split; [done|]. split; [|split; [rewrite HP3; solve_Permutation|simpl; lia]].
      eapply kept_trans; [eapply kept_trans; [exact Hk2|exact Hs3|apply Hin]|exact Hs4|apply Hin].
    + right. exists q, s3, l3, td3. split; [rewrite El; cbn [length]; rewrite length_app; lia|]. rewrite u32_small by (rewrite HK in Hv; unfold PGSIZE; lia).
      replace (v * PGSIZE + PGSIZE) with ((v + 1) * PGSIZE) by lia. split; [done|]. split; [done|].
      split; [eapply kept_trans; [exact Hk2|exact Hs3|apply Hin]|].
      split; [rewrite tpages_insert, HP3, El by done; solve_Permutation|]. split.
      * intros x Hx. eapply page_same_trans; [apply Hs2; set_solver|]. apply Hs3. set_solver.
      * intros o Ho. rewrite (Hs3 q); [|set_solver|unfold in_page; lia]. cbn [s2 km_set km_mem].
        rewrite memmove_spec, decide_True by (unfold PGSIZE in *; lia). replace (p + (q + o - q)) with (p + o) by lia.
        rewrite Em1. apply (Hk p); [|unfold in_page; lia]. unfold ppages. right. rewrite !elem_of_app. right. left. apply tpages_elem. eauto.
Qed.

Lemma copy_loop_run pid d sz fuel : ∀ s l td fd ud v,
  uvm s l d td fd ud ppages → kept s → 0 ≤ sz < KERNBASE → 0 ≤ v → (∀ k, 0 ≤ k < npages sz → is_Some (u !! k)) →
  (∀ k, v ≤ k → ud !! k = None) → (Z.to_nat (npages sz - v) < fuel)%nat →
  (∃ s' l' td' fd' ud', copy_loop kend fuel pgdir d (v * PGSIZE) sz pid s = Ret false s' ∧
     uvm s' l' d td' fd' ud' ppages ∧ kept s' ∧
     Permutation (l' ++ tpages td' ++ tpages ud') (l ++ tpages td ++ tpages ud) ∧
     (length l < 2 * Z.to_nat (npages sz - v))%nat) ∨
  (∃ s' l' td' fd' ud', copy_loop kend fuel pgdir d (v * PGSIZE) sz pid s = Ret true s' ∧
     uvm s' l' d td' fd' ud' ppages ∧ kept s' ∧
     Permutation (l' ++ tpages td' ++ tpages ud') (l ++ tpages td ++ tpages ud) ∧
     (∀ k, v ≤ k < npages sz → copied (km_mem s0) f u s' fd' ud' k) ∧
     (∀ k, ¬ (v ≤ k < npages sz) → ud' !! k = ud !! k) ∧ same_outside fd fd' v (npages sz) ∧
     (∀ x, x ∈ tpages ud → page_same (km_mem s) (km_mem s') x)).
Proof.
  induction fuel as [|fuel IH]; intros s l td fd ud v Hu Hk Hsz Hv Hall Hnone Hf; [lia|].
  destruct (decide (v < npages sz)) as [Hlt|Hge].
  2: { right. cbn [copy_loop]. rewrite (proj2 (Z.ltb_ge _ _)) by (pose proof (npages_lt sz v); lia).
       exists s, l, td, fd, ud. split_and!; try done. intros k Hk'. lia. }
  destruct (Hall v) as [p Hp]; [lia|].
  destruct (copy_one pid d fuel sz s l td fd ud v p Hu Hk Hp) as [(s' & l' & td' & E & Hu' & Hk' & HP & HL)|
    (q & s1 & l1 & td1 & HL & E & Hu1 & Hk1 & HP1 & Hs1 & Hc1)]; [by apply npages_lt|apply Hnone; lia|left|].
  - exists s', l', td', fd, ud. split_and!; try done; [|lia]. rewrite app_assoc, HP. solve_Permutation.
  - rewrite E. destruct (IH s1 l1 td1 _ _ (v + 1) Hu1 Hk1 Hsz) as [(s' & l' & td' & fd' & ud' & E' & Hu' & Hk' & HP' & HL')|
      (s' & l' & td' & fd' & ud' & E' & Hu' & Hk' & HP' & Hc & Ho & Hf' & Hs')]; try done; try lia; [|left|right].
    { intros k Hkv. rewrite lookup_insert_ne by lia. apply Hnone. lia. }
    + exists s', l', td', fd', ud'. split_and!; try done; [|lia]. by rewrite HP', HP1.
    + exists s', l', td', fd', ud'. split; [done|]. split; [done|]. split; [done|]. split; [by rewrite HP', HP1|].
      assert (∀ x, x ∈ tpages ud → x ∈ tpages (<[v := q]> ud)) as Hin.
      { intros x Hx. rewrite tpages_insert by (apply Hnone; lia). by right. }
      split; [|split; [|split]].
      * intros k Hkv. destruct (decide (k = v)) as [->|Hne]; [|apply Hc; lia]. exists p, q.
        rewrite Ho, lookup_insert_eq, Hf', fn_lookup_insert by lia. split; [done|]. split; [done|]. split; [done|].
        intros o Hoo. rewrite (Hs' q); [by apply Hc1| |unfold in_page; lia]. apply tpages_elem. exists v. apply lookup_insert_eq.
      * intros k Hkv. rewrite Ho by lia. by rewrite lookup_insert_ne by lia.
      * intros k Hkv. rewrite Hf' by lia. by rewrite fn_lookup_insert_ne by lia.
      * intros x Hx. eapply page_same_trans; [by apply Hs1|]. apply Hs'. by apply Hin.
Qed.

(** [copyuvm]: a copy of the user pages in pages of its own beside the kernel
    half, or null with every page given back. *)
Lemma copyuvm_run pid kdata sz :
  kdata_ok kdata → 0 ≤ sz < KERNBASE → (∀ k, 0 ≤ k < npages sz → is_Some (u !! k)) →
  (∃ s' l', copyuvm kend kdata pgdir sz pid s0 = Ret 0 s' ∧ kinv kend s' l' ppages ∧ Permutation l' l0 ∧ kept s' ∧
     (length l0 < 66 + 2 * Z.to_nat (npages sz))%nat) ∨
  (∃ d s' l' td fd ud, copyuvm kend kdata pgdir sz pid s0 = Ret d s' ∧ d ≠ 0 ∧
     uvm s' l' d td fd ud ppages ∧ kept s' ∧ Permutation (l' ++ d :: tpages td ++ tpages ud) l0 ∧
     (∀ k, 0 ≤ k < npages sz → copied (km_mem s0) f u s' fd ud k) ∧
     (∀ k, ¬ (0 ≤ k < npages sz) → ud !! k = None) ∧ same_outside (kern_pte kdata) fd 0 (npages sz)).
Proof.
  intros Hkd Hsz Hall. unfold copyuvm.
  destruct (setupkvm_run pid kdata s0 l0 ppages Hkd (vr_inv _ _ _ _ _ _ _ (uv_rep _ _ _ _ _ _ _ _ Hpar)))
    as [(s' & l' & E & Hi & HP & HL & Hs)|(d & s1 & l1 & td1 & E & Hz & Hu1 & HP1 & HL & Hs1)]; mrun E.
  - left. exists s', l'. split_and!; try done. lia.
  - rewrite (proj2 (Z.eqb_neq _ _)) by done.
    destruct (copy_loop_run pid d sz (S (S (Z.to_nat (sz / PGSIZE)))) s1 l1 td1 _ _ 0 Hu1 Hs1 Hsz)
      as [(s' & l' & td & fd & ud & E' & Hu' & Hk' & HP' & HL')|(s' & l' & td & fd & ud & E' & Hu' & Hk' & HP' & Hc & Ho & Hf' & _)];
      try done; try lia; [unfold npages, PGSIZE; dlia|left|right]; mrun E'; change (tpages ∅) with (@nil Z) in HP'.
    + destruct (freevm_run pid s' l' d td fd ud ppages Hu') as (s2 & l2 & E2 & Hi2 & HP2 & Hs2).
      exists s2, l2. split; [by mrun E2|]. split; [done|]. split; [|split; [by eapply kept_trans|rewrite Z.sub_0_r in HL'; lia]].
      rewrite HP2, <- HP1. transitivity (d :: l' ++ tpages td ++ tpages ud); [solve_Permutation|]. rewrite HP'. solve_Permutation.
    + exists d, s', l', td, fd, ud. split; [done|]. split; [done|]. split; [done|]. split; [done|]. split; [|done].
      rewrite <- HP1. transitivity (d :: l' ++ tpages td ++ tpages ud); [solve_Permutation|]. rewrite HP'. solve_Permutation.
Qed.

End copy.

(** ** copyout *)

(** The byte at user address [va]. *)
Definition ubyte s u (va : Z) : option Z := (λ p, km_mem s (p + va mod PGSIZE)) <$> u !! (va / PGSIZE).

Lemma write_bytes_spec buf : ∀ a m x,
  write_bytes a buf m x = if decide (a ≤ x < a + Z.of_nat (length buf)) then nth (Z.to_nat (x - a)) buf 0 else m x.
Proof.
  induction buf as [|c buf IH]; intros a m x; cbn [write_bytes length].
  - by rewrite decide_False by lia.
  - rewrite IH. destruct (decide (x = a)) as [->|Hne].
    + rewrite decide_False, decide_True, fn_lookup_insert, Z.sub_diag by lia. done.
    + rewrite fn_lookup_insert_ne by done. destruct (decide (a + 1 ≤ x < a + 1 + Z.of_nat (length buf))).
      * rewrite decide_True by lia. replace (Z.to_nat (x - a)) with (S (Z.to_nat (x - (a + 1)))) by lia. done.
      * by rewrite decide_False by lia.
Qed.

(** Writing to a user page through its kernel address. *)
Lemma uvm_write s l pgdir tabs f u R v p m' :
  uvm s l pgdir tabs f u R → u !! v = Some p → only_page (km_mem s) m' p →
  uvm (km_set m' s) l pgdir tabs f u R ∧ (∀ w q, u !! w = Some q → w ≠ v → page_same (km_mem s) m' q) ∧
  (∀ q, q ∈ R → page_same (km_mem s) m' q).
Proof.
  intros Hu Hp Ho. assert (p ∈ tpages u) as Hin by (apply tpages_elem; eauto).
  pose proof (vmrep_nodup _ _ _ _ _ _ _ (uv_rep _ _ _ _ _ _ _ _ Hu)) as Hn.
  rewrite (tpages_delete u v p Hp) in Hn. apply NoDup_app in Hn as (_ & _ & [_ Hn]%NoDup_cons).
  apply NoDup_app in Hn as (_ & _ & [Hn _]%NoDup_cons). split; [|split].
  - split; try apply Hu. eapply vm_upd; [apply Hu| |exact Ho]. apply elem_of_app. by left.
  - intros w q Hq Hw. apply (only_page_same kend _ _ p); [done|by eapply uvm_page|by eapply uvm_page|].
    intros <-. apply Hn, elem_of_app. left. apply tpages_elem. exists w. by rewrite lookup_delete_ne.
  - intros q Hq. apply (only_page_same kend _ _ p); [done|by eapply uvm_page| |].
    + eapply vmrep_page; [apply Hu|]. right. rewrite !elem_of_app. auto.
    + intros <-. apply Hn, elem_of_app. by right.
Qed.

(** A write inside one user page, as the process sees it. *)
Lemma user_write s l pgdir tabs f u R va p buf :
  uvm s l pgdir tabs f u R → 0 ≤ va → u !! (va / PGSIZE) = Some p → va mod PGSIZE + Z.of_nat (length buf) ≤ PGSIZE →
  uvm (km_set (write_bytes (p + va mod PGSIZE) buf (km_mem s)) s) l pgdir tabs f u R ∧
  (∀ q, q ∈ R → page_same (km_mem s) (write_bytes (p + va mod PGSIZE) buf (km_mem s)) q) ∧
  ∀ a, 0 ≤ a → ubyte (km_set (write_bytes (p + va mod PGSIZE) buf (km_mem s)) s) u a =
    if decide (va ≤ a < va + Z.of_nat (length buf)) then Some (nth (Z.to_nat (a - va)) buf 0) else ubyte s u a.
Proof.
  intros Hu Hva Hp Hlen. set (m1 := write_bytes _ _ _).
  assert (only_page (km_mem s) m1 p) as Ho.
  { intros a Ha. unfold m1. rewrite write_bytes_spec, decide_False; [done|]. unfold in_page, PGSIZE in *. dlia. }
  destruct (uvm_write s l pgdir tabs f u R _ p m1 Hu Hp Ho) as (Hu1 & Hs1 & HsR). split; [done|]. split; [done|].
  intros a Ha. unfold ubyte. destruct (decide (a / PGSIZE = va / PGSIZE)) as [Eq|Hne].
  - rewrite Eq, Hp. cbn [fmap option_fmap option_map km_set km_mem]. unfold m1. rewrite write_bytes_spec.
    destruct (decide (va ≤ a < va + Z.of_nat (length buf))).
    + rewrite decide_True by (unfold PGSIZE in *; dlia). do 2 f_equal. unfold PGSIZE in *. dlia.
    + by rewrite decide_False by (unfold PGSIZE in *; dlia).
  - rewrite decide_False by (unfold PGSIZE in *; dlia). destruct (u !! (a / PGSIZE)) as [q|] eqn:Eq; [|done].
    cbn [fmap option_fmap option_map km_set km_mem]. f_equal. apply (Hs1 _ _ Eq Hne). unfold in_page, PGSIZE. dlia.
Qed.

(** User pages [va, va + len) that the process may access. *)
Definition user_range f u (va len : Z) : Prop :=
  ∀ a, va ≤ a < va + len → is_Some (u !! (a / PGSIZE)) ∧ pte_has (f (a / PGSIZE)) PTE_U = true.

Lemma uva2ka_run pid s l pgdir tabs f u R v p :
  uvm s l pgdir tabs f u R → u !! v = Some p →
  uva2ka pgdir (v * PGSIZE) pid s = Ret (if pte_has (f v) PTE_U then p else 0) s.
Proof.
  intros Hu Hp. destruct (uvm_entry kend Hend _ _ _ _ _ _ _ _ _ Hu Hp) as (HP & HA & HV & _ & t & Ht).
  pose proof (uv_dom _ _ _ _ _ _ _ _ Hu _ _ Hp) as Hv. rewrite KPAGE_val in Hv.
  assert (v * PGSIZE / PGSIZE = v) as Ev by (unfold PGSIZE; dlia). pose proof (uv_rep _ _ _ _ _ _ _ _ Hu) as Hr.
  assert (walkpgdir pgdir (v * PGSIZE) 0 pid s = Ret (t + 4 * (v mod 1024)) s) as Ew.
  { rewrite <- Ev at 2. eapply walk_hit; [exact Hr|unfold PGSIZE; lia|by rewrite Ev]. }
  unfold uva2ka. mrun Ew. pose proof (vmrep_tab kend _ _ _ _ _ _ _ _ Hr Ht) as (_ & _ & Htk).
  rewrite (proj2 (Z.eqb_neq _ _)) by (unfold KERNBASE in Htk; dlia).
  rewrite (bind_Ret (kload _) _ pid s _ s eq_refl). pose proof (vr_pte _ _ _ _ _ _ _ Hr v ltac:(lia)) as Ef. rewrite Ht in Ef.
  rewrite <- Ef, HP, HA, HV. cbn [negb]. by destruct (pte_has (f v) PTE_U).
Qed.

Lemma copyout_loop_run pid pgdir tabs f u l R fuel : ∀ s va buf len,
  uvm s l pgdir tabs f u R → 0 ≤ va → 0 ≤ len → va + len ≤ KERNBASE → len ≤ Z.of_nat (length buf) → user_range f u va len →
  (Z.to_nat len < fuel)%nat →
  ∃ s', copyout_loop fuel pgdir va buf len pid s = Ret 0 s' ∧ uvm s' l pgdir tabs f u R ∧
    (∀ q, q ∈ R → page_same (km_mem s) (km_mem s') q) ∧
    ∀ a, 0 ≤ a → ubyte s' u a = if decide (va ≤ a < va + len) then Some (nth (Z.to_nat (a - va)) buf 0) else ubyte s u a.
Proof.
  induction fuel as [|fuel IH]; intros s va buf len Hu Hva Hlen Hmax Hbuf Hur Hf; [lia|]. cbn [copyout_loop].
  destruct (0 <? len) eqn:El.
  2: { exists s. split; [done|]. split; [done|]. split; [done|]. intros a Ha. by rewrite decide_False by lia. }
  destruct (Hur va) as [[p Hp] HU]; [lia|].
  rewrite PGROUNDDOWN_spec by done. set (va0 := va - va mod PGSIZE).
  assert (va0 = va / PGSIZE * PGSIZE ∧ 0 ≤ va - va0 < PGSIZE ∧ va - va0 = va mod PGSIZE) as (E0 & Hv0 & Eo) by (unfold va0, PGSIZE; dlia).
  assert (uva2ka pgdir va0 pid s = Ret p s) as Ek by (rewrite E0, (uva2ka_run pid s l pgdir tabs f u R _ p Hu Hp); by rewrite HU).
  mrun Ek. rewrite (proj2 (Z.eqb_neq _ _)) by (by eapply page_nonzero, uvm_page).
  set (n := if len <? PGSIZE - (va - va0) then len else PGSIZE - (va - va0)).
  assert (0 < n ≤ len ∧ va - va0 + n ≤ PGSIZE ∧ (n = len ∨ va + n = va0 + PGSIZE)) as (Hn & Hn' & Hn2).
  { unfold n. destruct (Z.ltb_spec len (PGSIZE - (va - va0))); lia. }
  rewrite (bind_Ret (k_upd _) _ pid s tt (km_set (write_bytes (p + (va - va0)) (take (Z.to_nat n) buf) (km_mem s)) s) eq_refl), Eo.
  assert (Z.of_nat (length (take (Z.to_nat n) buf)) = n) as Eln by (rewrite length_take; lia).
  destruct (user_write s l pgdir tabs f u R va p (take (Z.to_nat n) buf) Hu Hva Hp) as (Hu1 & HsR & Hb1); [lia|].
  set (s1 := km_set _ s) in *. rewrite Eln in Hb1.
  assert (va0 + PGSIZE ≤ KERNBASE) as Hk by (unfold KERNBASE, PGSIZE in *; dlia).
  rewrite u32_small by (unfold KERNBASE, PGSIZE in *; lia).
  destruct (IH s1 (va0 + PGSIZE) (drop (Z.to_nat n) buf) (len - n) Hu1) as (s' & E' & Hu' & HsR' & Hb'); try lia.
  { rewrite length_drop. lia. }
  { intros a Ha. apply Hur. lia. }
  exists s'. split; [done|]. split; [done|]. split; [intros q Hq; eapply page_same_trans; eauto|].
  intros a Ha. rewrite Hb', Hb1 by done. destruct (decide (va0 + PGSIZE ≤ a < va0 + PGSIZE + (len - n))).
  - rewrite (decide_True (P := va ≤ a < va + len)) by lia. f_equal. rewrite !nth_lookup, lookup_drop. do 2 f_equal. lia.
  - destruct (decide (va ≤ a < va + n)); [|by rewrite decide_False by lia].
    rewrite decide_True by lia. by rewrite nth_lookup, lookup_take_lt, <- nth_lookup by lia.
Qed.

End kern.
