(* ===== verification/VmMain.v ===== *)
(** * Page tables: main theorems

    What vm.c promises to its callers, with instances on a freshly booted
    allocator. *)

From S2P Require Import Prelude Layout CString Mem Kalloc Vm VmSpec VmMap VmUser VmKern.


Lemma land_U_aligned pa : pa mod PGSIZE = 0 → Z.land pa PTE_U = 0.
Proof.
  intros Hp. change PTE_U with (Z.land (2 ^ 12 - 1) 4). rewrite Z.land_assoc, land_ones_mod by lia.
  change (2 ^ 12) with PGSIZE. by rewrite Hp.
Qed.

Lemma pte_val_U pa perm : pa mod PGSIZE = 0 → pte_has (pte_val pa perm) PTE_U = pte_has perm PTE_U.
Proof.
  intros Hp. unfold pte_has, pte_val. rewrite !Z.land_lor_distr_l, (land_U_aligned pa Hp).
  change (Z.land PTE_P PTE_U) with 0. by rewrite Z.lor_0_r, Z.lor_0_l.
Qed.



Section main.
Context (kend : Z) (Hend : KERNLINK ≤ kend).
Implicit Types (s : kmem) (l R : list Z) (tabs u : gmap Z Z) (f : Z → Z).
#[local] Notation vmrep := (vmrep kend).
#[local] Notation uvm := (uvm kend).



(** C21. [allocuvm] is all or nothing.  With two free pages for each page asked
    for it returns the new size; the new pages are zero, writable user pages,
    and no other translation, and no other page in use, has changed.  When it
    runs out of pages it returns 0: then the address space is what it was, and
    the pages taken are free again or hold empty page tables. *)
Theorem allocuvm_grows pid s l pgdir tabs f u R oldsz newsz :
  uvm s l pgdir tabs f u R → 0 ≤ oldsz ≤ newsz → newsz < KERNBASE → (∀ k, npages oldsz ≤ k → u !! k = None) →
  (∃ s' l' tabs' f' u', allocuvm kend pgdir oldsz newsz pid s = Ret newsz s' ∧
     uvm s' l' pgdir tabs' f' u' R ∧ grown_to s l tabs f u s' l' tabs' f' u' (npages oldsz) (npages newsz) R) ∨
  (∃ s' l' tabs' f', allocuvm kend pgdir oldsz newsz pid s = Ret 0 s' ∧ uvm s' l' pgdir tabs' f' u R ∧
     undone s l tabs f u s' l' tabs' f' (npages oldsz) (npages newsz) R ∧
     (length l < 2 * Z.to_nat (npages newsz - npages oldsz))%nat).
Proof. by apply allocuvm_run. Qed.

(** C20. [copyuvm] copies an address space: with 66 free pages and two for each
    page of the process, the child has for every page below [sz] a page of its
    own with the parent's bytes and flags, nothing else in its user half, and
    the kernel half every address space has; every page of the parent and of
    the rest of the system keeps its bytes.  Otherwise it may return null, and
    then every page it took is free again. *)
Theorem copyuvm_copies pid kdata s l pgdir tabs f u R sz :
  uvm s l pgdir tabs f u R → kdata_ok kdata → 0 ≤ sz < KERNBASE → (∀ k, 0 ≤ k < npages sz → is_Some (u !! k)) →
  (∃ s' l', copyuvm kend kdata pgdir sz pid s = Ret 0 s' ∧ uvm s' l' pgdir tabs f u R ∧ Permutation l' l ∧
     (∀ q, q ∈ pgdir :: tpages tabs ++ tpages u ++ R → page_same (km_mem s) (km_mem s') q) ∧
     (length l < 66 + 2 * Z.to_nat (npages sz))%nat) ∨
  (∃ d s' l' td fd ud, copyuvm kend kdata pgdir sz pid s = Ret d s' ∧ d ≠ 0 ∧
     uvm s' l' d td fd ud (pgdir :: tpages tabs ++ tpages u ++ R) ∧
     uvm s' l' pgdir tabs f u (R ++ d :: tpages td ++ tpages ud) ∧
     (∀ q, q ∈ pgdir :: tpages tabs ++ tpages u ++ R → page_same (km_mem s) (km_mem s') q) ∧
     (∀ k, 0 ≤ k < npages sz → copied (km_mem s) f u s' fd ud k) ∧
     (∀ k, ¬ (0 ≤ k < npages sz) → ud !! k = None) ∧ same_outside (kern_pte kdata) fd 0 (npages sz)).
Proof.
  intros Hu Hk Hsz Hall. destruct (copyuvm_run kend Hend s l pgdir tabs f u R Hu pid kdata sz Hk Hsz Hall)
    as [(s' & l' & E & Hi & HP & Hkp & HL)|(d & s' & l' & td & fd & ud & E & Hz & Hu' & Hkp & HP & Hc & Hn & Hf)]; [left|right].
  - exists s', l'. split; [done|]. split; [|done]. split; try apply Hu.
    eapply vmrep_frame; [apply Hu|exact Hi|apply Hkp; unfold ppages; set_solver|intros t Ht; apply Hkp; unfold ppages; set_solver].
  - exists d, s', l', td, fd, ud. split; [done|]. split; [done|]. split; [exact Hu'|]. split; [|done].
    split; try apply Hu. by apply (parent_rep kend Hend s l pgdir tabs f u R Hu s' l' d td fd ud).
Qed.

(** [freevm] gives back every page of an address space: its directory, its
    tables and its user pages go to the free list, and the pages of the rest of
    the system keep their content. *)
Theorem freevm_frees pid s l pgdir tabs f u R :
  uvm s l pgdir tabs f u R →
  ∃ s' l', freevm kend pgdir pid s = Ret tt s' ∧ kinv kend s' l' R ∧
    Permutation l' (l ++ pgdir :: tpages tabs ++ tpages u) ∧ (∀ q, q ∈ R → page_same (km_mem s) (km_mem s') q).
Proof. by apply freevm_run. Qed.




(** [copyout] copies to user memory: on pages the process may access it
    returns 0, the bytes are at [va], and no other byte of the process and no
    other page has changed. *)
Theorem copyout_copies pid s l pgdir tabs f u R va buf len :
  uvm s l pgdir tabs f u R → 0 ≤ va → 0 ≤ len → va + len ≤ KERNBASE → len ≤ Z.of_nat (length buf) → user_range f u va len →
  ∃ s', copyout pgdir va buf len pid s = Ret 0 s' ∧ uvm s' l pgdir tabs f u R ∧
    (∀ q, q ∈ R → page_same (km_mem s) (km_mem s') q) ∧
    ∀ a, 0 ≤ a → ubyte s' u a = if decide (va ≤ a < va + len) then Some (nth (Z.to_nat (a - va)) buf 0) else ubyte s u a.
Proof. intros Hu H1 H2 H3 H4 H5. eapply copyout_loop_run; try done. lia. Qed.

End main.

(** ** A booted machine

    A kernel of two pages, and the 300 pages after it. *)
Definition vm_end : Z := KERNLINK + 2 * PGSIZE.
Definition vm_data : Z := KERNLINK + PGSIZE.
Definition vm_top : Z := vm_end + 300 * PGSIZE.

Lemma vm_end_ok : KERNLINK ≤ vm_end.
Proof. unfold vm_end, PGSIZE. lia. Qed.

Lemma vm_data_ok : kdata_ok vm_data.
Proof. split; vm_compute; done. Qed.

Lemma vm_boot : ∃ s l, kinv vm_end s l [] ∧ length l = 300%nat.
Proof.
  destruct (kinit1_run vm_end 1 (mk_kmem (λ _, 0) 0 0) vm_end vm_top) as (s & _ & Hi); try done.
  eexists s, _. split; [exact Hi|]. by vm_compute.
Qed.

(** An address space of [n] pages of user memory. *)
Lemma vm_space : ∃ s l pgdir tabs f u, uvm vm_end s l pgdir tabs f u [] ∧ (100 ≤ length l)%nat ∧
  (∀ k, 0 ≤ k < 2 → is_Some (u !! k) ∧ pte_has (f k) PTE_U = true) ∧ (∀ k, 2 ≤ k → u !! k = None).
Proof.
  destruct vm_boot as (s & l & Hi & Hl).
  destruct (setupkvm_run vm_end vm_end_ok 1 vm_data s l [] vm_data_ok Hi) as [(s' & l' & _ & _ & _ & HL & _)|(pgdir & s1 & l1 & tabs & _ & _ & Hu1 & _ & HL & _)]; [lia|].
  destruct (allocuvm_run vm_end vm_end_ok 1 s1 l1 pgdir tabs _ ∅ [] 0 (2 * PGSIZE) Hu1)
    as [(s2 & l2 & tabs2 & f2 & u2 & _ & Hu2 & [G1 G2 _ G4 _ _])|(s2 & ? & ? & ? & _ & _ & _ & HL2)]; try done.
  - exists s2, l2, pgdir, tabs2, f2, u2. split; [done|]. change (npages 0) with 0 in *. change (npages (2 * PGSIZE)) with 2 in *. split.
    + change (2 * Z.to_nat (2 - 0))%nat with 4%nat in G4. lia.
    + split.
      * intros k Hk. destruct (G1 k Hk) as (p & Ep & Ef & _). split; [eauto|]. rewrite Ef. rewrite pte_val_U; [done|].
        eapply page_ok_addr. by eapply uvm_page.
      * intros k Hk. rewrite G2 by lia. done.
  - exfalso. change (npages (2 * PGSIZE) - npages 0) with 2 in HL2. simpl in HL2. lia.
Qed.

Lemma allocuvm_grows_witness : ∃ s pgdir s', allocuvm vm_end pgdir (2 * PGSIZE) (4 * PGSIZE) 1 s = Ret (4 * PGSIZE) s'.
Proof.
  destruct vm_space as (s & l & pgdir & tabs & f & u & Hu & Hl & _ & Hn).
  destruct (allocuvm_grows vm_end vm_end_ok 1 s l pgdir tabs f u [] (2 * PGSIZE) (4 * PGSIZE) Hu) as [(s' & ? & ? & ? & ? & E & _)|(? & ? & ? & ? & _ & _ & _ & HL)];
    try done.
  - exists s, pgdir, s'. exact E.
  - exfalso. change (npages (4 * PGSIZE) - npages (2 * PGSIZE)) with 2 in HL. simpl in HL. lia.
Defined.

Lemma copyuvm_copies_witness : ∃ s pgdir d s', copyuvm vm_end vm_data pgdir (2 * PGSIZE) 1 s = Ret d s' ∧ d ≠ 0.
Proof.
  destruct vm_space as (s & l & pgdir & tabs & f & u & Hu & Hl & Hall & _).
  destruct (copyuvm_copies vm_end vm_end_ok 1 vm_data s l pgdir tabs f u [] (2 * PGSIZE) Hu vm_data_ok)
    as [(? & ? & _ & _ & _ & _ & HL)|(d & s' & ? & ? & ? & ? & E & Hd & _)]; try done.
  - intros k Hk. by apply Hall.
  - exfalso. change (npages (2 * PGSIZE)) with 2 in HL. simpl in HL. lia.
  - exists s, pgdir, d, s'. done.
Defined.

Lemma freevm_frees_witness : ∃ s pgdir s', freevm vm_end pgdir 1 s = Ret tt s'.
Proof.
  destruct vm_space as (s & l & pgdir & tabs & f & u & Hu & _).
  destruct (freevm_frees vm_end vm_end_ok 1 s l pgdir tabs f u [] Hu) as (s' & _ & E & _). exists s, pgdir, s'. exact E.
Defined.

Lemma copyout_copies_witness : ∃ s pgdir s', copyout pgdir 4094 [1; 2; 3; 4] 4 1 s = Ret 0 s'.
Proof.
  destruct vm_space as (s & l & pgdir & tabs & f & u & Hu & _ & Hall & _).
  destruct (copyout_copies vm_end vm_end_ok 1 s l pgdir tabs f u [] 4094 [1; 2; 3; 4] 4 Hu) as (s' & E & _); try done.
  - intros a Ha. apply Hall. unfold PGSIZE. dlia.
  - exists s, pgdir, s'. exact E.
Defined.

