(* ===== verification/Pipe.v ===== *)
(** * Pipes (pipe.c)

    A pipe is a ring of [PIPESIZE] bytes between two free-running 32-bit
    counters.  The lock makes the code between two calls of [sleep] one step;
    a call that sleeps keeps what it still has to do, and starts again at its
    [while] loop. *)

From S2P Require Import Prelude.

Definition PIPESIZE : Z := 512.

Record pipe := mk_pipe {
  p_data : list Z;
  p_nread : Z;
  p_nwrite : Z;
  p_readopen : Z;
  p_writeopen : Z;
}.

Definition p_set_readopen v p := mk_pipe (p_data p) (p_nread p) (p_nwrite p) v (p_writeopen p).
Definition p_set_writeopen v p := mk_pipe (p_data p) (p_nread p) (p_nwrite p) (p_readopen p) v.

(** The fields [pipealloc] sets, on a page with content [data]. *)
Definition pipe_init (data : list Z) : pipe := mk_pipe data 0 0 1 1.

(** The two channels of a pipe: [&p->nread], [&p->nwrite]. *)
Inductive pchan := Nread | Nwrite.
#[global] Instance pchan_eq_dec : EqDecision pchan.
Proof. solve_decision. Defined.

(** What a call did up to its return or its next [sleep]: the pipe, and the
    channels it woke. *)
Inductive wres :=
| WRet (r : Z) (p : pipe) (woken : list pchan)
| WSleep (rest : list Z) (p : pipe) (woken : list pchan).
Inductive rres :=
| RRet (r : Z) (data : list Z) (p : pipe) (woken : list pchan)
| RSleep (p : pipe).

(** [pipeclose]; the flag says that both ends are closed and the page is
    freed. *)
Definition pipeclose (p : pipe) (writable : Z) : pipe * list pchan * bool :=
  let '(p, woken) :=
    if negb (writable =? 0) then (p_set_writeopen 0 p, [Nread])
    else (p_set_readopen 0 p, [Nwrite]) in
  (p, woken, (p_readopen p =? 0) && (p_writeopen p =? 0)).

(** [p->nwrite == p->nread + PIPESIZE] *)
Definition p_full (p : pipe) : bool := p_nwrite p =? u32 (p_nread p + PIPESIZE).
(** [p->data[p->nwrite++ % PIPESIZE] = c] *)
Definition p_put (c : Z) (p : pipe) : pipe :=
  mk_pipe (<[Z.to_nat (p_nwrite p mod PIPESIZE) := c]> (p_data p)) (p_nread p) (u32 (p_nwrite p + 1))
    (p_readopen p) (p_writeopen p).
(** [p->data[p->nread++ % PIPESIZE]] *)
Definition p_front (p : pipe) : Z := nth (Z.to_nat (p_nread p mod PIPESIZE)) (p_data p) 0.
Definition p_pop (p : pipe) : pipe :=
  mk_pipe (p_data p) (u32 (p_nread p + 1)) (p_nwrite p) (p_readopen p) (p_writeopen p).

(** [pipewrite] of [n] bytes, of which [src] are left. *)
Fixpoint pipewrite (killed : bool) (n : Z) (src : list Z) (p : pipe) : wres :=
  match src with
  | [] => WRet n p [Nread]
  | c :: src' =>
      if p_full p then
        if (p_readopen p =? 0) || killed then WRet (-1) p []
        else WSleep src p [Nread]
      else pipewrite killed n src' (p_put c p)
  end.

(** [for(i = 0; i < n; i++)] of [piperead], [k] bytes left. *)
Fixpoint piperead_loop (k : nat) (p : pipe) : list Z * pipe :=
  match k with
  | O => ([], p)
  | S k' =>
      if p_nread p =? p_nwrite p then ([], p)
      else let '(data, p') := piperead_loop k' (p_pop p) in (p_front p :: data, p')
  end.
Definition piperead (killed : bool) (n : Z) (p : pipe) : rres :=
  if (p_nread p =? p_nwrite p) && negb (p_writeopen p =? 0) then
    if killed then RRet (-1) [] p [] else RSleep p
  else
    let '(data, p') := piperead_loop (Z.to_nat n) p in
    RRet (Z.of_nat (length data)) data p' [Nwrite].

(** ** The ring as a queue *)

Record pipe_wf (p : pipe) : Prop := mk_pipe_wf {
  pw_len : length (p_data p) = Z.to_nat PIPESIZE;
  pw_nread : 0 ≤ p_nread p < 2 ^ 32;
  pw_nwrite : 0 ≤ p_nwrite p < 2 ^ 32;
  pw_count : u32 (p_nwrite p - p_nread p) ≤ PIPESIZE;
}.

(** The bytes between the counters, oldest first. *)
Definition queue (p : pipe) : list Z :=
  (λ k, nth (Z.to_nat ((p_nread p + k) mod PIPESIZE)) (p_data p) 0) <$> seqZ 0 (u32 (p_nwrite p - p_nread p)).

(** ** Processes on a pipe

    What each process is doing: nothing, in a call and able to run, or asleep
    in it. *)
Inductive pthread :=
| TIdle
| TWrite (n : Z) (rest : list Z)
| TRead (n : Z)
| TWriteAsleep (n : Z) (rest : list Z)
| TReadAsleep (n : Z).

(** [wakeup] on a channel, on every process. *)
Definition t_wake (woken : list pchan) (t : pthread) : pthread :=
  match t with
  | TWriteAsleep n rest => if decide (Nwrite ∈ woken) then TWrite n rest else t
  | TReadAsleep n => if decide (Nread ∈ woken) then TRead n else t
  | _ => t
  end.

(** The pipe, the processes, the killed ones, and the bytes that went in and
    came out, in order. *)
Record psys := mk_psys {
  s_pipe : pipe;
  s_thr : gmap Z pthread;
  s_killed : gset Z;
  s_in : list Z;
  s_out : list Z;
}.

Definition is_reader (t : pthread) : bool := match t with TRead _ | TReadAsleep _ => true | _ => false end.
Definition is_writer (t : pthread) : bool := match t with TWrite _ _ | TWriteAsleep _ _ => true | _ => false end.

(** The bytes a section of [pipewrite] put in. *)
Definition w_sent (src : list Z) (p p' : pipe) : list Z := take (Z.to_nat (u32 (p_nwrite p' - p_nwrite p))) src.

(** One section of one process.  A process that is in a call holds its end
    open, so an end is closed only when no process is in a call on it. *)
Inductive pstep : psys → psys → Prop :=
| ps_write s pid src :
    s_thr s !! pid = Some TIdle → p_writeopen (s_pipe s) ≠ 0 →
    pstep s (mk_psys (s_pipe s) (<[pid := TWrite (Z.of_nat (length src)) src]> (s_thr s)) (s_killed s) (s_in s) (s_out s))
| ps_read s pid n :
    s_thr s !! pid = Some TIdle → p_readopen (s_pipe s) ≠ 0 →
    pstep s (mk_psys (s_pipe s) (<[pid := TRead n]> (s_thr s)) (s_killed s) (s_in s) (s_out s))
| ps_write_ret s pid n rest r p' woken :
    s_thr s !! pid = Some (TWrite n rest) →
    pipewrite (bool_decide (pid ∈ s_killed s)) n rest (s_pipe s) = WRet r p' woken →
    pstep s (mk_psys p' (t_wake woken <$> <[pid := TIdle]> (s_thr s)) (s_killed s)
               (s_in s ++ w_sent rest (s_pipe s) p') (s_out s))
| ps_write_sleep s pid n rest rest' p' woken :
    s_thr s !! pid = Some (TWrite n rest) →
    pipewrite (bool_decide (pid ∈ s_killed s)) n rest (s_pipe s) = WSleep rest' p' woken →
    pstep s (mk_psys p' (<[pid := TWriteAsleep n rest']> (t_wake woken <$> s_thr s)) (s_killed s)
               (s_in s ++ w_sent rest (s_pipe s) p') (s_out s))
| ps_read_ret s pid n r data p' woken :
    s_thr s !! pid = Some (TRead n) →
    piperead (bool_decide (pid ∈ s_killed s)) n (s_pipe s) = RRet r data p' woken →
    pstep s (mk_psys p' (t_wake woken <$> <[pid := TIdle]> (s_thr s)) (s_killed s) (s_in s) (s_out s ++ data))
| ps_read_sleep s pid n p' :
    s_thr s !! pid = Some (TRead n) →
    piperead (bool_decide (pid ∈ s_killed s)) n (s_pipe s) = RSleep p' →
    pstep s (mk_psys p' (<[pid := TReadAsleep n]> (s_thr s)) (s_killed s) (s_in s) (s_out s))
| ps_close s writable p' woken freed :
    (∀ pid t, s_thr s !! pid = Some t → (if negb (writable =? 0) then is_writer t else is_reader t) = false) →
    pipeclose (s_pipe s) writable = (p', woken, freed) →
    pstep s (mk_psys p' (t_wake woken <$> s_thr s) (s_killed s) (s_in s) (s_out s))
| ps_kill s pid t :
    s_thr s !! pid = Some t →
    pstep s (mk_psys (s_pipe s) (<[pid := t_wake [Nread; Nwrite] t]> (s_thr s)) ({[pid]} ∪ s_killed s) (s_in s) (s_out s)).

(** ** Lemmas *)

Lemma u32_sub_add a b k : u32 (u32 (a + k) - b) = u32 (a - b + k).
Proof. unfold u32. rewrite Zminus_mod_idemp_l. f_equal. lia. Qed.

Lemma u32_sub_sub a b k : u32 (a - u32 (b + k)) = u32 (a - b - k).
Proof. unfold u32. rewrite Zminus_mod_idemp_r. f_equal. lia. Qed.

(** A counter and its wrapped value name the same cell: 512 divides 2^32. *)
Lemma u32_mod_ring a : u32 a mod PIPESIZE = a mod PIPESIZE.
Proof. unfold u32, PIPESIZE. change (2 ^ 32) with (512 * 8388608). rewrite Z.rem_mul_r by lia. dlia. Qed.

Lemma length_queue p : length (queue p) = Z.to_nat (u32 (p_nwrite p - p_nread p)).
Proof. unfold queue. by rewrite length_fmap, length_seqZ. Qed.

Lemma queue_bound p : pipe_wf p → (length (queue p) ≤ 512)%nat.
Proof. intros [_ _ _ H]. rewrite length_queue. unfold PIPESIZE in H. lia. Qed.

Lemma p_full_count p : pipe_wf p → p_full p = bool_decide (u32 (p_nwrite p - p_nread p) = PIPESIZE).
Proof.
  intros [_ Hr Hw Hc]. unfold p_full. apply eq_bool_prop_intro. rewrite bool_decide_spec, Is_true_true, Z.eqb_eq.
  unfold u32, PIPESIZE in *. dlia.
Qed.

Lemma p_empty_count p : pipe_wf p → (p_nread p =? p_nwrite p) = bool_decide (queue p = []).
Proof.
  intros [_ Hr Hw Hc]. apply eq_bool_prop_intro. rewrite bool_decide_spec, Is_true_true, Z.eqb_eq.
  rewrite <- length_zero_iff_nil, length_queue. pose proof (u32_range (p_nwrite p - p_nread p)). unfold u32 in *. dlia.
Qed.

Lemma ring_cells a k c d : 0 ≤ k < d → d < PIPESIZE → a = c + d → (c + k) mod PIPESIZE ≠ a mod PIPESIZE.
Proof. intros Hk Hd ->. unfold PIPESIZE in *. dlia. Qed.

Lemma put_spec c p :
  pipe_wf p → p_full p = false → pipe_wf (p_put c p) ∧ queue (p_put c p) = queue p ++ [c].
Proof.
  intros Hwf Hf. rewrite p_full_count in Hf by done. apply bool_decide_eq_false in Hf. destruct Hwf as [Hl Hr Hw Hc].
  set (d := u32 (p_nwrite p - p_nread p)) in *. pose proof (u32_range (p_nwrite p - p_nread p)) as Hd. fold d in Hd.
  assert (u32 (u32 (p_nwrite p + 1) - p_nread p) = d + 1) as Ed.
  { rewrite u32_sub_add. unfold d, u32, PIPESIZE in *. dlia. }
  assert (p_nwrite p mod PIPESIZE = (p_nread p + d) mod PIPESIZE) as Ew.
  { rewrite <- (u32_mod_ring (p_nread p + d)). f_equal. unfold d, u32 in *. dlia. }
  split.
  - split; simpl; rewrite ?Ed; try done; [by rewrite length_insert|apply u32_range|lia].
  - unfold queue. cbn [p_put p_data p_nread p_nwrite]. rewrite Ed. fold d.
    rewrite seqZ_app, fmap_app by lia. f_equal.
    + apply list_fmap_ext. intros i k Hk%lookup_seqZ. simpl. rewrite Ew, !nth_lookup.
      rewrite list_lookup_insert_ne; [done|]. intros E. assert ((p_nread p + d) mod PIPESIZE = (p_nread p + k) mod PIPESIZE) as E'.
      { unfold PIPESIZE in *. dlia. }
      revert E'. apply not_eq_sym, ring_cells with (d := d); lia.
    + simpl. f_equal. rewrite nth_lookup, Ew, list_lookup_insert_eq; [done|]. rewrite Hl. unfold PIPESIZE. dlia.
Qed.

Lemma pop_spec p :
  pipe_wf p → queue p ≠ [] → pipe_wf (p_pop p) ∧ queue p = p_front p :: queue (p_pop p).
Proof.
  intros [Hl Hr Hw Hc] Hne. set (d := u32 (p_nwrite p - p_nread p)) in *.
  pose proof (u32_range (p_nwrite p - p_nread p)) as Hd. fold d in Hd.
  assert (0 < d) as Hpos.
  { destruct (decide (d = 0)) as [E|]; [|lia]. destruct Hne. apply length_zero_iff_nil. rewrite length_queue. fold d. lia. }
  assert (u32 (p_nwrite p - u32 (p_nread p + 1)) = d - 1) as Ed.
  { rewrite u32_sub_sub. unfold d, u32, PIPESIZE in *. dlia. }
  split.
  - split; simpl; rewrite ?Ed; try done; [apply u32_range|lia].
  - unfold queue. cbn [p_pop p_data p_nread p_nwrite]. rewrite Ed. fold d. rewrite seqZ_cons by lia. rewrite fmap_cons.
    f_equal; [unfold p_front; by rewrite Z.add_0_r|].
    rewrite <- (fmap_add_seqZ 1 0), <- list_fmap_compose. apply list_fmap_ext. intros i k _. simpl.
    f_equal. f_equal. rewrite <- (Z.add_mod_idemp_l (u32 _)), u32_mod_ring, Z.add_mod_idemp_l by done. f_equal. lia.
Qed.

(** The ends a pipe has open. *)
Definition same_ends (p p' : pipe) : Prop := p_readopen p' = p_readopen p ∧ p_writeopen p' = p_writeopen p.

Lemma pipewrite_spec killed n src p :
  pipe_wf p → ∃ sent rest p', src = sent ++ rest ∧ pipe_wf p' ∧ same_ends p p' ∧
    queue p' = queue p ++ sent ∧ p_nwrite p' = u32 (p_nwrite p + Z.of_nat (length sent)) ∧
    (rest ≠ [] → length (queue p') = 512%nat) ∧
    pipewrite killed n src p =
      match rest with
      | [] => WRet n p' [Nread]
      | _ => if (p_readopen p =? 0) || killed then WRet (-1) p' [] else WSleep rest p' [Nread]
      end.
Proof.
  revert p. induction src as [|c src IH]; intros p Hwf; simpl.
  - exists [], [], p. split_and!; try done; [by rewrite app_nil_r|]. simpl. rewrite Z.add_0_r, u32_small; [done|apply Hwf].
  - destruct (p_full p) eqn:Hf.
    + exists [], (c :: src), p. split_and!; try done; [by rewrite app_nil_r| |].
      * simpl. rewrite Z.add_0_r, u32_small; [done|apply Hwf].
      * intros _. rewrite p_full_count in Hf by done. apply bool_decide_eq_true in Hf. by rewrite length_queue, Hf.
    + destruct (put_spec c p Hwf Hf) as [Hwf' Hq]. destruct (IH _ Hwf') as (sent & rest & p' & -> & Hw & He & Hq' & Hn & Hl & E).
      exists (c :: sent), rest, p'. split_and!; try done.
      * by rewrite Hq', Hq, <- app_assoc.
      * rewrite Hn. cbn [p_put p_nwrite]. unfold u32. rewrite Zplus_mod_idemp_l. f_equal. cbn [length]. lia.
Qed.

Lemma piperead_loop_spec k p :
  pipe_wf p → pipe_wf (piperead_loop k p).2 ∧ same_ends p (piperead_loop k p).2 ∧
    queue p = (piperead_loop k p).1 ++ queue (piperead_loop k p).2 ∧
    length (piperead_loop k p).1 = (k `min` length (queue p))%nat.
Proof.
  revert p. induction k as [|k IH]; intros p Hwf; simpl; [done|].
  rewrite p_empty_count by done. case_bool_decide as He; simpl.
  - by rewrite He.
  - destruct (pop_spec p Hwf He) as [Hwf' Hq]. destruct (IH _ Hwf') as (H1 & H2 & H3 & H4).
    destruct (piperead_loop k (p_pop p)) as [data p'] eqn:E. simpl in *. split; [done|]. split; [done|].
    rewrite Hq at 1. rewrite H3 at 1. split; [done|]. rewrite Hq. simpl. by rewrite H4.
Qed.

Lemma w_sent_app sent rest p p' :
  pipe_wf p → queue p' = queue p ++ sent → pipe_wf p' → p_nwrite p' = u32 (p_nwrite p + Z.of_nat (length sent)) →
  w_sent (sent ++ rest) p p' = sent.
Proof.
  intros Hwf Hq Hwf' Hn. unfold w_sent. pose proof (queue_bound p' Hwf') as Hb. rewrite Hq, length_app in Hb.
  rewrite Hn, u32_sub_add, Z.sub_diag. rewrite u32_small by lia. by rewrite Z.add_0_l, Nat2Z.id, take_app_length.
Qed.

(** ** Invariant of the processes on a pipe

    A process in a call has its end open.  One that is asleep would go back to
    sleep if it looked again: a writer always, a reader unless a process has
    been killed. *)
Definition thread_ok (p : pipe) (killed : gset Z) (pid : Z) (t : pthread) : Prop :=
  match t with
  | TIdle => True
  | TWrite _ _ => p_writeopen p ≠ 0
  | TRead _ => p_readopen p ≠ 0
  | TWriteAsleep _ rest =>
      p_writeopen p ≠ 0 ∧ p_readopen p ≠ 0 ∧ pid ∉ killed ∧ rest ≠ [] ∧ length (queue p) = 512%nat
  | TReadAsleep _ =>
      p_readopen p ≠ 0 ∧ p_writeopen p ≠ 0 ∧ pid ∉ killed ∧ (killed = ∅ → queue p = [])
  end.

Record pinv (s : psys) : Prop := mk_pinv {
  pi_wf : pipe_wf (s_pipe s);
  pi_fifo : s_in s = s_out s ++ queue (s_pipe s);
  pi_thr : ∀ pid t, s_thr s !! pid = Some t → thread_ok (s_pipe s) (s_killed s) pid t;
}.

(** What a step that woke [w] may change for the processes it does not move:
    an end that is closed has no process in a call on it, and the sleepers at
    the other end are woken; so are the sleepers whose condition may have
    become true. *)
Record pkeep (p p' : pipe) (killed killed' : gset Z) (w : list pchan) (t : pthread) : Prop := mk_pkeep {
  pk_readopen : p_readopen p' = p_readopen p ∨ is_reader t = false ∧ Nwrite ∈ w;
  pk_writeopen : p_writeopen p' = p_writeopen p ∨ is_writer t = false ∧ Nread ∈ w;
  pk_killed : killed ⊆ killed';
  pk_full : Nwrite ∈ w ∨ (length (queue p) = 512%nat → length (queue p') = 512%nat);
  pk_empty : killed' ≠ ∅ ∨ Nread ∈ w ∨ (queue p = [] → queue p' = []) ∨ p_readopen p = 0;
}.

Lemma thread_ok_wake p p' killed killed' w pid t :
  thread_ok p killed pid t → pkeep p p' killed killed' w t → (pid ∈ killed' → pid ∈ killed) →
  thread_ok p' killed' pid (t_wake w t).
Proof.
  intros Ht [Hr Hw Hk HF HE] Hpid. destruct t as [|n rest|n|n rest|n]; simpl in *; try done.
  - destruct Hw as [->|[? _]]; done.
  - destruct Hr as [->|[? _]]; done.
  - destruct Ht as (H1 & H2 & H3 & H4 & H5). assert (p_writeopen p' ≠ 0) by (destruct Hw as [->|[? _]]; done).
    case_decide as Hin; simpl; [done|]. destruct Hr as [->|[_ ?]]; [|done]. destruct HF as [|HF]; [done|].
    split_and!; [done|done|by intros ?%Hpid|done|by apply HF].
  - destruct Ht as (H1 & H2 & H3 & H4). assert (p_readopen p' ≠ 0) by (destruct Hr as [->|[? _]]; done).
    case_decide as Hin; simpl; [done|]. destruct Hw as [->|[_ ?]]; [|done]. split_and!; [done|done|auto|].
    intros Hz. destruct HE as [|[|[HE|]]]; [done|done| |done]. apply HE, H4. subst killed'. set_solver.
Qed.

(** The threads after a step that woke [w] and moved process [pid]. *)
Lemma pinv_move p thr killed inn out p' killed' inn' out' w pid t' :
  pinv (mk_psys p thr killed inn out) → pipe_wf p' → inn' = out' ++ queue p' →
  thread_ok p' killed' pid t' → killed' ⊆ {[pid]} ∪ killed →
  (∀ x t, thr !! x = Some t → x ≠ pid → pkeep p p' killed killed' w t) →
  pinv (mk_psys p' (<[pid := t']> (t_wake w <$> thr)) killed' inn' out').
Proof.
  intros [_ _ Ht] Hwf' Hf' Hpid Hk Hkeep. split; [done|done|]. simpl in *. intros x u.
  rewrite lookup_insert_Some, lookup_fmap_Some. intros [[<- <-]|[Hne (t & <- & Ex)]]; [done|].
  eapply thread_ok_wake; [by apply Ht|by eapply Hkeep|]. set_solver.
Qed.

Lemma t_wake_nil thr : t_wake [] <$> thr = (thr : gmap Z pthread).
Proof.
  apply map_eq. intros x. rewrite lookup_fmap. destruct (thr !! x) as [[]|]; simpl; rewrite ?decide_False by set_solver; done.
Qed.

Lemma t_wake_insert_idle w pid (thr : gmap Z pthread) :
  t_wake w <$> <[pid := TIdle]> thr = <[pid := TIdle]> (t_wake w <$> thr).
Proof. by rewrite fmap_insert. Qed.

Lemma pinv_write_ret s pid n rest r p' woken :
  pinv s → s_thr s !! pid = Some (TWrite n rest) →
  pipewrite (bool_decide (pid ∈ s_killed s)) n rest (s_pipe s) = WRet r p' woken →
  pinv (mk_psys p' (t_wake woken <$> <[pid := TIdle]> (s_thr s)) (s_killed s) (s_in s ++ w_sent rest (s_pipe s) p') (s_out s)).
Proof.
  destruct s as [p thr killed inn out]. simpl. intros Hi Hp E. pose proof Hi as [Hwf Hf _]. simpl in *.
  destruct (pipewrite_spec (bool_decide (pid ∈ killed)) n rest p Hwf)
    as (sent & rest' & q & -> & Hwf' & [He1 He2] & Hq & Hn & Hl & E'). rewrite E in E'.
  assert (p' = q ∧ (Nread ∈ woken ∨ killed ≠ ∅ ∨ p_readopen p = 0)) as [-> Hwk].
  { destruct rest' as [|c rest']; [injection E' as -> -> ->; split; [done|left; set_solver]|].
    destruct (p_readopen p =? 0) eqn:Ez; simpl in E'; [apply Z.eqb_eq in Ez; injection E' as -> -> ->; by auto|].
    case_bool_decide as Hk; [|done]. injection E' as -> -> ->. split; [done|]. right. left. set_solver. }
  rewrite (w_sent_app sent rest' p q) by done. rewrite t_wake_insert_idle.
  apply (pinv_move p thr killed inn out); try done; [by rewrite Hf, Hq, app_assoc|set_solver|].
  intros x t _ _. split; auto; [|naive_solver]. right. intros H512.
  pose proof (queue_bound q Hwf'). rewrite Hq, length_app in *. lia.
Qed.

Lemma pinv_write_sleep s pid n rest rest' p' woken :
  pinv s → s_thr s !! pid = Some (TWrite n rest) →
  pipewrite (bool_decide (pid ∈ s_killed s)) n rest (s_pipe s) = WSleep rest' p' woken →
  pinv (mk_psys p' (<[pid := TWriteAsleep n rest']> (t_wake woken <$> s_thr s)) (s_killed s)
          (s_in s ++ w_sent rest (s_pipe s) p') (s_out s)).
Proof.
  destruct s as [p thr killed inn out]. simpl. intros Hi Hp E. pose proof Hi as [Hwf Hf Ht]. simpl in *.
  destruct (pipewrite_spec (bool_decide (pid ∈ killed)) n rest p Hwf)
    as (sent & rest1 & q & -> & Hwf' & [He1 He2] & Hq & Hn & Hl & E'). rewrite E in E'.
  destruct rest1 as [|c rest1]; [done|]. destruct ((p_readopen p =? 0) || _) eqn:Ez; [done|]. injection E' as -> -> ->.
  apply orb_false_iff in Ez as [Ez%Z.eqb_neq Hk%bool_decide_eq_false].
  rewrite (w_sent_app sent (c :: rest1) p q) by done.
  apply (pinv_move p thr killed inn out); try done; [by rewrite Hf, Hq, app_assoc| |set_solver|].
  - simpl. rewrite He1, He2. split_and!; try done; [by apply (Ht pid _ Hp)|by apply Hl].
  - intros x t _ _. split; auto; right; left; set_solver.
Qed.

Lemma pinv_read_ret s pid n r data p' woken :
  pinv s → s_thr s !! pid = Some (TRead n) →
  piperead (bool_decide (pid ∈ s_killed s)) n (s_pipe s) = RRet r data p' woken →
  pinv (mk_psys p' (t_wake woken <$> <[pid := TIdle]> (s_thr s)) (s_killed s) (s_in s) (s_out s ++ data)).
Proof.
  destruct s as [p thr killed inn out]. simpl. intros Hi Hp E. pose proof Hi as [Hwf Hf _]. simpl in *.
  assert (pipe_wf p' ∧ same_ends p p' ∧ queue p = data ++ queue p' ∧ (Nwrite ∈ woken ∨ p' = p)) as (Hwf' & [He1 He2] & Hq & Hwk).
  { unfold piperead in E. destruct (_ && _) eqn:Ec.
    - case_bool_decide; [|done]. injection E as <- <- <- <-. split; [done|]. split; [done|]. split; [done|by right].
    - destruct (piperead_loop_spec (Z.to_nat n) p Hwf) as (H1 & H2 & H3 & _).
      destruct (piperead_loop (Z.to_nat n) p) as [dd q]. injection E as <- <- <- <-. simpl in *.
      split; [done|]. split; [done|]. split; [done|left; set_solver]. }
  rewrite t_wake_insert_idle.
  apply (pinv_move p thr killed inn out); try done; [by rewrite Hf, Hq, app_assoc|set_solver|].
  intros x t _ _. split; auto; [destruct Hwk as [? | ->]; auto|]. right. right. left.
  intros Hz. rewrite Hz in Hq. symmetry in Hq. by apply app_nil in Hq as [_ ->].
Qed.

Lemma pinv_read_sleep s pid n p' :
  pinv s → s_thr s !! pid = Some (TRead n) →
  piperead (bool_decide (pid ∈ s_killed s)) n (s_pipe s) = RSleep p' →
  pinv (mk_psys p' (<[pid := TReadAsleep n]> (s_thr s)) (s_killed s) (s_in s) (s_out s)).
Proof.
  destruct s as [p thr killed inn out]. simpl. intros Hi Hp E. pose proof Hi as [Hwf Hf Ht]. simpl in *.
  unfold piperead in E. destruct (_ && _) eqn:Ec; [|by destruct (piperead_loop _ _)].
  case_bool_decide; [done|]. injection E as <-. apply andb_prop in Ec as [Ec Ew].
  rewrite p_empty_count, bool_decide_eq_true in Ec by done. apply negb_true_iff, Z.eqb_neq in Ew.
  rewrite <- (t_wake_nil thr). apply (pinv_move p thr killed inn out); try done; [|set_solver|].
  - simpl. split_and!; try done. by apply (Ht pid _ Hp).
  - intros x t _ _. split; auto.
Qed.

Lemma pinv_close s writable p' woken freed :
  pinv s →
  (∀ pid t, s_thr s !! pid = Some t → (if negb (writable =? 0) then is_writer t else is_reader t) = false) →
  pipeclose (s_pipe s) writable = (p', woken, freed) →
  pinv (mk_psys p' (t_wake woken <$> s_thr s) (s_killed s) (s_in s) (s_out s)).
Proof.
  destruct s as [p thr killed inn out]. intros [Hwf Hf Ht] Hno E. simpl in *. unfold pipeclose in E.
  assert (pipe_wf p') as Hwf' by (destruct Hwf; by destruct (negb _); injection E as <- <- <-; split).
  assert (queue p' = queue p) as Hq by (by destruct (negb _); injection E as <- <- <-).
  split; simpl; [done|by rewrite Hq|]. intros x u. rewrite lookup_fmap_Some. intros (t & <- & Ex).
  eapply thread_ok_wake; [by apply Ht| |done]. specialize (Hno x t Ex).
  destruct (negb _); injection E as <- <- <-; split; auto; right; (split; [done|set_solver]).
Qed.

Lemma pstep_inv s s' : pstep s s' → pinv s → pinv s'.
Proof.
  intros Hs Hi. destruct Hs as [s pid src Ep Hw|s pid n Ep Hr|s pid n rest r p' w Ep E|s pid n rest rest' p' w Ep E
    |s pid n r data p' w Ep E|s pid n p' Ep E|s wr p' w fr Hno E|s pid t Ep].
  3: by eapply pinv_write_ret. 3: by eapply pinv_write_sleep. 3: by eapply pinv_read_ret.
  3: by eapply pinv_read_sleep. 3: by eapply pinv_close.
  all: pose proof Hi as [Hwf Hf Ht]; destruct s as [p thr killed inn out]; simpl in *; rewrite <- (t_wake_nil thr);
    apply (pinv_move p thr killed inn out); auto; try set_solver; try (intros x u _ _; split; auto; set_solver).
  specialize (Ht pid t Ep). destruct t; simpl in *; rewrite ?decide_True by set_solver; simpl; tauto.
Qed.

(** A new pipe, with idle processes. *)
Definition ps_init (data : list Z) (pids : gset Z) : psys :=
  mk_psys (pipe_init data) (gset_to_gmap TIdle pids) ∅ [] [].

Lemma pinv_init data pids : length data = Z.to_nat PIPESIZE → pinv (ps_init data pids).
Proof.
  intros Hl. split; simpl; [done|done|]. intros pid t [_ <-]%lookup_gset_to_gmap_Some. done.
Qed.

Lemma pinv_reach data pids s : length data = Z.to_nat PIPESIZE → rtc pstep (ps_init data pids) s → pinv s.
Proof. intros Hl. apply (rtc_ind_r pinv); [by apply pinv_init|]. intros ? ? _ Hs Hi. by eapply pstep_inv. Qed.

(** ** The contract of a pipe *)

(** C25. A pipe is a bounded queue: in every interleaving of the sections of
    writers and readers, with ends closed and processes killed at any time and
    the 32-bit counters wrapping, the bytes that went in are the bytes that came
    out, in order, followed by the at most 512 still in the ring; and a read
    that finds bytes returns the oldest [min(n, available)] of them. *)
Theorem pipe_fifo data pids s n killed :
  length data = Z.to_nat PIPESIZE → rtc pstep (ps_init data pids) s →
  s_in s = s_out s ++ queue (s_pipe s) ∧ (length (queue (s_pipe s)) ≤ 512)%nat ∧
  (queue (s_pipe s) ≠ [] → ∃ p', piperead killed n (s_pipe s) =
     RRet (Z.of_nat (Z.to_nat n `min` length (queue (s_pipe s)))) (take (Z.to_nat n) (queue (s_pipe s))) p' [Nwrite] ∧
     queue p' = drop (Z.to_nat n) (queue (s_pipe s))).
Proof.
  intros Hl Hr. pose proof (pinv_reach _ _ _ Hl Hr) as [Hwf Hf _]. split; [done|]. split; [by apply queue_bound|].
  intros Hne. unfold piperead. rewrite p_empty_count, bool_decide_false by done. simpl.
  destruct (piperead_loop_spec (Z.to_nat n) (s_pipe s) Hwf) as (_ & _ & Hq & Hlen).
  destruct (piperead_loop (Z.to_nat n) (s_pipe s)) as [out p']. simpl in *. exists p'. rewrite <- Hlen.
  assert (length out = Z.to_nat n ∨ (length out < Z.to_nat n)%nat ∧ queue p' = []) as [E|[E Ez]].
  { pose proof (f_equal length Hq) as HL. rewrite length_app in HL.
    destruct (decide (length out = Z.to_nat n)); [by left|right]. split; [lia|]. apply length_zero_iff_nil. lia. }
  - rewrite Hq, <- E, take_app_length, drop_app_length. done.
  - rewrite Hq, Ez, app_nil_r. rewrite take_ge, drop_ge by lia. done.
Qed.


(** A wakeup of a reader is lost when a killed writer fills the pipe:
    [pipewrite] then returns -1 without [wakeup(&p->nread)], and a reader that
    went to sleep on the empty pipe stays asleep with 512 bytes to read and the
    pipe open. *)
Theorem pipe_lost_wakeup :
  ∃ s, rtc pstep (ps_init (replicate 512 0) {[1; 2]}) s ∧ s_thr s !! 1 = Some (TReadAsleep 1) ∧
    s_thr s !! 2 = Some TIdle ∧ length (queue (s_pipe s)) = 512%nat ∧ p_writeopen (s_pipe s) = 1.
Proof.
  eexists. split.
  { eapply rtc_l; [apply (ps_read _ 1 1); done|]. eapply rtc_l; [eapply (ps_read_sleep _ 1 1); [done|vm_compute; reflexivity]|].
    eapply rtc_l; [eapply (ps_kill _ 2); done|].
    eapply rtc_l; [apply (ps_write _ 2 (replicate 513 65)); done|].
    eapply rtc_l; [eapply (ps_write_ret _ 2); [done|vm_compute; reflexivity]|]. apply rtc_refl. }
  split; [done|]. split; [done|]. split; [by vm_compute|done].
Qed.

Lemma pipe_fifo_witness : ∃ s, s_in s = [7; 8; 9] ∧ s_out s = [7; 8] ∧ queue (s_pipe s) = [9] ∧ s_in s = s_out s ++ queue (s_pipe s).
Proof.
  eassert (rtc pstep (ps_init (replicate 512 0) {[1; 2]}) _) as Hr.
  { eapply rtc_l; [apply (ps_write _ 1 [7; 8; 9]); done|]. eapply rtc_l; [eapply (ps_write_ret _ 1); [done|vm_compute; reflexivity]|].
    eapply rtc_l; [apply (ps_read _ 2 2); done|]. eapply rtc_l; [eapply (ps_read_ret _ 2); [done|vm_compute; reflexivity]|]. apply rtc_refl. }
  destruct (pipe_fifo (replicate 512 0) {[1; 2]} _ 1 false eq_refl Hr) as (E & _).
  eexists. split; [|split; [|split; [|exact E]]]; by vm_compute.
Defined.



