(* ===== verification/Fs.v ===== *)
(** * The file system (fs.c, struct inode of file.h)

    Blocks, inodes, directories and path names, over the journal.  An inode
    pointer is the index of an entry of the inode cache, the null pointer
    [None].  Data moved to or from the caller's memory is a list of bytes. *)

From S2P Require Import Prelude Layout Sleeplock Disk Bio Crc32 Log CString.

(** ** struct inode *)

Record inode := mk_inode {
  i_dev : Z;
  i_inum : Z;
  i_ref : Z;
  i_lock : sleeplock;
  i_valid : Z;
  i_type : Z;
  i_major : Z;
  i_minor : Z;
  i_nlink : Z;
  i_size : Z;
  i_addrs : list Z;
}.

Definition i_set_id dev inum i := mk_inode dev inum (i_ref i) (i_lock i) (i_valid i)
  (i_type i) (i_major i) (i_minor i) (i_nlink i) (i_size i) (i_addrs i).
Definition i_set_ref r i := mk_inode (i_dev i) (i_inum i) r (i_lock i) (i_valid i)
  (i_type i) (i_major i) (i_minor i) (i_nlink i) (i_size i) (i_addrs i).
Definition i_set_lock l i := mk_inode (i_dev i) (i_inum i) (i_ref i) l (i_valid i)
  (i_type i) (i_major i) (i_minor i) (i_nlink i) (i_size i) (i_addrs i).
Definition i_set_valid v i := mk_inode (i_dev i) (i_inum i) (i_ref i) (i_lock i) v
  (i_type i) (i_major i) (i_minor i) (i_nlink i) (i_size i) (i_addrs i).
Definition i_set_type t i := mk_inode (i_dev i) (i_inum i) (i_ref i) (i_lock i) (i_valid i)
  t (i_major i) (i_minor i) (i_nlink i) (i_size i) (i_addrs i).
Definition i_set_dev2 ma mi i := mk_inode (i_dev i) (i_inum i) (i_ref i) (i_lock i) (i_valid i)
  (i_type i) ma mi (i_nlink i) (i_size i) (i_addrs i).
Definition i_set_nlink n i := mk_inode (i_dev i) (i_inum i) (i_ref i) (i_lock i) (i_valid i)
  (i_type i) (i_major i) (i_minor i) n (i_size i) (i_addrs i).
Definition i_set_size s i := mk_inode (i_dev i) (i_inum i) (i_ref i) (i_lock i) (i_valid i)
  (i_type i) (i_major i) (i_minor i) (i_nlink i) s (i_addrs i).
Definition i_set_addrs a i := mk_inode (i_dev i) (i_inum i) (i_ref i) (i_lock i) (i_valid i)
  (i_type i) (i_major i) (i_minor i) (i_nlink i) (i_size i) a.

(** The disk part of an in-memory inode, and an inode filled from disk. *)
Definition i_dinode (i : inode) : dinode :=
  mk_dinode (i_type i) (i_major i) (i_minor i) (i_nlink i) (i_size i) (i_addrs i).
Definition i_load (d : dinode) (i : inode) : inode :=
  mk_inode (i_dev i) (i_inum i) (i_ref i) (i_lock i) (i_valid i)
    (di_type d) (di_major d) (di_minor d) (di_nlink d) (di_size d) (di_addrs d).

Definition inode_zero : inode := mk_inode 0 0 0 initsleeplock 0 0 0 0 0 0 (replicate 13 0).

(** ** struct stat *)

Record stat := mk_stat { st_type : Z; st_dev : Z; st_ino : Z; st_nlink : Z; st_size : Z }.

(** Byte offset of inode [inum] in its block. *)
Definition ioff (inum : Z) : nat := Z.to_nat (inum mod IPB * SIZEOF_DINODE).

(** ** The free map *)

(** [m = 1 << (bi % 8)] and the two uses of it on byte [bi/8]. *)
Definition bit_mask (bi : Z) : Z := Z.shiftl 1 (bi mod 8).
Definition bit_free (data : block) (bi : Z) : bool :=
  Z.land (nth (Z.to_nat (bi / 8)) data 0) (bit_mask bi) =? 0.
Definition bit_set (data : block) (bi : Z) : block :=
  splice (Z.to_nat (bi / 8)) [u8 (Z.lor (nth (Z.to_nat (bi / 8)) data 0) (bit_mask bi))] data.
Definition bit_clear (data : block) (bi : Z) : block :=
  splice (Z.to_nat (bi / 8)) [u8 (Z.land (nth (Z.to_nat (bi / 8)) data 0) (Z.lnot (bit_mask bi)))] data.

(** The inner loop of [balloc]: the first free bit of a map block from [bi]. *)
Fixpoint balloc_scan (fuel : nat) (data : block) (size b bi : Z) : option Z :=
  match fuel with
  | O => None
  | S fuel' =>
      if (bi <? BPB) && (b + bi <? size) then
        if bit_free data bi then Some bi else balloc_scan fuel' data size b (bi + 1)
      else None
  end.

Section fs.
Context {D : Type} `{DiskFlush D}.

Record fstate := mk_fstate {
  f_log : lstate D;
  f_sb : superblock;
  f_icache : list inode;
  f_cwd : Z → option nat;
}.

Definition f_set_log l s := mk_fstate l (f_sb s) (f_icache s) (f_cwd s).
Definition f_set_sb b s := mk_fstate (f_log s) b (f_icache s) (f_cwd s).
Definition f_set_icache c s := mk_fstate (f_log s) (f_sb s) c (f_cwd s).
Definition f_set_cwd c s := mk_fstate (f_log s) (f_sb s) (f_icache s) c.

#[global] Instance f_log_lens : Lens fstate (lstate D) := {| lget := f_log; lput := f_set_log |}.

(** The device switch: what [devsw[major].read] and [.write] do, where they
    are not null. *)
Context (devsw_read : Z → option (Z → M fstate (Z * list Z))).
Context (devsw_write : Z → option (list Z → M fstate Z)).

(** The buffer cache and the log, from the file system. *)
Definition f_bread (dev n : Z) : M fstate nat := lift (lift (bread dev n)).
Definition f_bdata (bp : nat) : M fstate block := lift (lift (bdata bp)).
Definition f_bset (bp : nat) (d : block) : M fstate unit := lift (lift (bset_data bp d)).
Definition f_brelse (bp : nat) : M fstate unit := lift (lift (brelse bp)).
Definition f_bwrite (bp : nat) : M fstate unit := lift (lift (bwrite bp)).
Definition f_log_write (bp : nat) (off len : Z) : M fstate unit := lift (log_write bp off len).

(** [*ip] *)
Definition iat (ip : nat) : M fstate inode :=
  s ← get;
  match f_icache s !! ip with
  | Some i => mret i
  | None => undef "inode pointer"
  end.
Definition iset (ip : nat) (f : inode → inode) : M fstate unit :=
  modify (λ s, f_set_icache (alter f ip (f_icache s)) s).

(** ** Blocks *)

Definition bzero (dev bno : Z) : M fstate unit :=
  bp ← f_bread dev (u32 bno);
  f_bset bp zero_block ;;
  f_log_write bp 0 BSIZE ;;
  f_brelse bp.

(** [for(b = 0; b < sb.size; b += BPB)] from [b]. *)
Fixpoint balloc_loop (fuel : nat) (dev b : Z) : M fstate Z :=
  match fuel with
  | O => undef "balloc fuel"
  | S fuel' =>
      s ← get;
      if b <? sb_size (f_sb s) then
        bp ← f_bread dev (BBLOCK b (f_sb s));
        data ← f_bdata bp;
        match balloc_scan (Z.to_nat BPB) data (sb_size (f_sb s)) b 0 with
        | Some bi =>
            f_bset bp (bit_set data bi) ;;
            f_log_write bp (bi / 8) 1 ;;
            f_brelse bp ;;
            bzero dev (b + bi) ;;
            mret (b + bi)
        | None =>
            f_brelse bp ;;
            balloc_loop fuel' dev (b + BPB)
        end
      else panic "balloc: out of blocks"
  end.
Definition balloc (dev : Z) : M fstate Z :=
  s ← get;
  balloc_loop (S (Z.to_nat (sb_size (f_sb s)))) dev 0.

Definition bfree (dev b : Z) : M fstate unit :=
  s ← get;
  bp ← f_bread dev (BBLOCK b (f_sb s));
  let bi := b mod BPB in
  data ← f_bdata bp;
  if bit_free data bi then panic "freeing free block" else
  f_bset bp (bit_clear data bi) ;;
  f_log_write bp (bi / 8) 1 ;;
  f_brelse bp.

(** ** Inodes *)

Definition iinit (dev : Z) : M fstate unit :=
  modify (λ s, f_set_icache (i_set_lock initsleeplock <$> f_icache s) s) ;;
  sb ← lift (lift (readsb dev));
  modify (f_set_sb sb).

(** The scan of [iget]: the entry for the inode, or the first free one. *)
Fixpoint iget_scan (l : list inode) (dev inum : Z) (i : nat) (empty : option nat)
    : nat + option nat :=
  match l with
  | [] => inr empty
  | ip :: l' =>
      if (0 <? i_ref ip) && (i_dev ip =? dev) && (i_inum ip =? inum) then inl i
      else iget_scan l' dev inum (S i)
             (match empty with
              | None => if i_ref ip =? 0 then Some i else None
              | Some e => Some e
              end)
  end.

Definition iget (dev inum : Z) : M fstate nat :=
  s ← get;
  match iget_scan (f_icache s) dev inum 0 None with
  | inl ip => iset ip (λ i, i_set_ref (i_ref i + 1) i) ;; mret ip
  | inr None => panic "iget: no inodes"
  | inr (Some ip) =>
      iset ip (λ i, i_set_valid 0 (i_set_ref 1 (i_set_id dev inum i))) ;; mret ip
  end.

Fixpoint ialloc_loop (fuel : nat) (dev type inum : Z) : M fstate nat :=
  match fuel with
  | O => undef "ialloc fuel"
  | S fuel' =>
      s ← get;
      if inum <? sb_ninodes (f_sb s) then
        bp ← f_bread dev (IBLOCK inum (f_sb s));
        data ← f_bdata bp;
        if s16 (rd16 (ioff inum) data) =? 0 then
          f_bset bp (splice (ioff inum) (le_bytes 2 type ++ replicate 62 0) data) ;;
          f_log_write bp (inum mod IPB * SIZEOF_DINODE) SIZEOF_DINODE ;;
          f_brelse bp ;;
          iget dev inum
        else
          f_brelse bp ;;
          ialloc_loop fuel' dev type (inum + 1)
      else panic "ialloc: no inodes"
  end.
Definition ialloc (dev type : Z) : M fstate nat :=
  s ← get;
  ialloc_loop (S (Z.to_nat (sb_ninodes (f_sb s)))) dev type 1.

Definition iupdate (ip : nat) : M fstate unit :=
  i ← iat ip;
  s ← get;
  bp ← f_bread (i_dev i) (IBLOCK (i_inum i) (f_sb s));
  data ← f_bdata bp;
  f_bset bp (splice (ioff (i_inum i)) (di_encode (i_dinode i)) data) ;;
  f_log_write bp (i_inum i mod IPB * SIZEOF_DINODE) SIZEOF_DINODE ;;
  f_brelse bp.

Definition idup (ip : nat) : M fstate nat :=
  iset ip (λ i, i_set_ref (i_ref i + 1) i) ;; mret ip.

(** [acquiresleep(&ip->lock)] *)
Definition ilock_acquire (ip : nat) : M fstate unit :=
  pid ← mypid;
  i ← iat ip;
  match acquiresleep pid (i_lock i) with
  | Some lk => iset ip (i_set_lock lk)
  | None => sleep_on (ChInode ip)
  end.

Definition ilock (ip : option nat) : M fstate unit :=
  match ip with
  | None => panic "ilock"
  | Some ip =>
      i ← iat ip;
      if i_ref i <? 1 then panic "ilock" else
      ilock_acquire ip ;;
      i ← iat ip;
      if i_valid i =? 0 then
        s ← get;
        bp ← f_bread (i_dev i) (IBLOCK (i_inum i) (f_sb s));
        data ← f_bdata bp;
        let d := di_decode (slice (ioff (i_inum i)) (Z.to_nat SIZEOF_DINODE) data) in
        iset ip (i_load d) ;;
        f_brelse bp ;;
        iset ip (i_set_valid 1) ;;
        if di_type d =? 0 then panic "ilock: no type" else mret tt
      else mret tt
  end.

Definition iunlock (ip : option nat) : M fstate unit :=
  match ip with
  | None => panic "iunlock"
  | Some ip =>
      pid ← mypid;
      i ← iat ip;
      if negb (holdingsleep pid (i_lock i)) || (i_ref i <? 1) then panic "iunlock" else
      iset ip (λ i, i_set_lock (releasesleep (i_lock i)) i)
  end.

(** ** Inode content *)

Definition bmap (ip : nat) (bn : Z) : M fstate Z :=
  i ← iat ip;
  if bn <? NDIRECT then
    addr ← aget (i_addrs i) bn;
    if addr =? 0 then
      addr ← balloc (i_dev i);
      iset ip (λ i, i_set_addrs (<[Z.to_nat bn := addr]> (i_addrs i)) i) ;;
      mret addr
    else mret addr
  else
    let bn := bn - NDIRECT in
    if bn <? NINDIRECT then
      addr ← aget (i_addrs i) NDIRECT;
      addr ← (if addr =? 0 then
                addr ← balloc (i_dev i);
                iset ip (λ i, i_set_addrs (<[Z.to_nat NDIRECT := addr]> (i_addrs i)) i) ;;
                mret addr
              else mret addr);
      bp ← f_bread (i_dev i) addr;
      data ← f_bdata bp;
      let addr := rd32 (4 * Z.to_nat bn) data in
      addr ← (if addr =? 0 then
                addr ← balloc (i_dev i);
                data ← f_bdata bp;
                f_bset bp (wr32 (4 * Z.to_nat bn) addr data) ;;
                f_log_write bp (bn * 4) 4 ;;
                mret addr
              else mret addr);
      f_brelse bp ;;
      mret addr
    else panic "bmap: out of range".

(** The two loops of [itrunc]. *)
Definition itrunc_direct (ip : nat) (k : Z) : M fstate unit :=
  i ← iat ip;
  addr ← aget (i_addrs i) k;
  if addr =? 0 then mret tt
  else
    bfree (i_dev i) addr ;;
    iset ip (λ i, i_set_addrs (<[Z.to_nat k := 0]> (i_addrs i)) i).

Definition itrunc_indirect (dev : Z) (bp : nat) (j : Z) : M fstate unit :=
  data ← f_bdata bp;
  let addr := rd32 (4 * Z.to_nat j) data in
  if addr =? 0 then mret tt else bfree dev addr.

Definition itrunc (ip : nat) : M fstate unit :=
  forM (seqZ 0 NDIRECT) (itrunc_direct ip) ;;
  i ← iat ip;
  addr ← aget (i_addrs i) NDIRECT;
  (if addr =? 0 then mret tt
   else
     bp ← f_bread (i_dev i) addr;
     forM (seqZ 0 NINDIRECT) (itrunc_indirect (i_dev i) bp) ;;
     f_brelse bp ;;
     bfree (i_dev i) addr ;;
     iset ip (λ i, i_set_addrs (<[Z.to_nat NDIRECT := 0]> (i_addrs i)) i)) ;;
  iset ip (i_set_size 0) ;;
  iupdate ip.

Definition iput (ip : nat) : M fstate unit :=
  ilock_acquire ip ;;
  i ← iat ip;
  (if negb (i_valid i =? 0) && (i_nlink i =? 0) then
     if i_ref i =? 1 then
       itrunc ip ;;
       iset ip (i_set_type 0) ;;
       iupdate ip ;;
       iset ip (i_set_valid 0)
     else mret tt
   else mret tt) ;;
  iset ip (λ i, i_set_lock (releasesleep (i_lock i)) i) ;;
  iset ip (λ i, i_set_ref (i_ref i - 1) i).

Definition iunlockput (ip : nat) : M fstate unit := iunlock (Some ip) ;; iput ip.

Definition stati (ip : nat) : M fstate stat :=
  i ← iat ip;
  mret (mk_stat (i_type i) (i_dev i) (i_inum i) (i_nlink i) (i_size i)).

(** The loop of [readi]: [n - tot] bytes left, from [off]. *)
Fixpoint readi_loop (fuel : nat) (ip : nat) (tot off n : Z) : M fstate (list Z) :=
  match fuel with
  | O => undef "readi fuel"
  | S fuel' =>
      if tot <? n then
        i ← iat ip;
        addr ← bmap ip (off / BSIZE);
        bp ← f_bread (i_dev i) addr;
        let m := Z.min (n - tot) (BSIZE - off mod BSIZE) in
        data ← f_bdata bp;
        let chunk := slice (Z.to_nat (off mod BSIZE)) (Z.to_nat m) data in
        f_brelse bp ;;
        rest ← readi_loop fuel' ip (tot + m) (off + m) n;
        mret (chunk ++ rest)
      else mret []
  end.

Definition readi (ip : nat) (off n : Z) : M fstate (Z * list Z) :=
  i ← iat ip;
  if i_type i =? T_DEV then
    if (i_major i <? 0) || (NDEV <=? i_major i) then mret (-1, []) else
    match devsw_read (i_major i) with
    | None => mret (-1, [])
    | Some f => f n
    end
  else
    if (i_size i <? off) || (u32 (off + n) <? off) then mret (-1, []) else
    let n := if i_size i <? u32 (off + n) then u32 (i_size i - off) else n in
    data ← readi_loop (S (Z.to_nat n)) ip 0 off n;
    mret (s32 n, data).

(** The loop of [writei]; it returns the offset after the last byte. *)
Fixpoint writei_loop (fuel : nat) (ip : nat) (src : list Z) (tot off n : Z) : M fstate Z :=
  match fuel with
  | O => undef "writei fuel"
  | S fuel' =>
      if tot <? n then
        i ← iat ip;
        addr ← bmap ip (off / BSIZE);
        bp ← f_bread (i_dev i) addr;
        let m := Z.min (n - tot) (BSIZE - off mod BSIZE) in
        data ← f_bdata bp;
        f_bset bp (splice (Z.to_nat (off mod BSIZE)) (slice (Z.to_nat tot) (Z.to_nat m) src) data) ;;
        i ← iat ip;
        (if i_type i =? T_DIR then f_log_write bp (off mod BSIZE) m else f_bwrite bp) ;;
        f_brelse bp ;;
        writei_loop fuel' ip src (tot + m) (off + m) n
      else mret off
  end.

Definition writei (ip : nat) (src : list Z) (off n : Z) : M fstate Z :=
  i ← iat ip;
  if i_type i =? T_DEV then
    if (i_major i <? 0) || (NDEV <=? i_major i) then mret (-1) else
    match devsw_write (i_major i) with
    | None => mret (-1)
    | Some f => f (take (Z.to_nat n) src)
    end
  else
    if (i_size i <? off) || (u32 (off + n) <? off) then mret (-1) else
    if MAXFILE * BSIZE <? u32 (off + n) then mret (-1) else
    off ← writei_loop (S (Z.to_nat n)) ip src 0 off n;
    i ← iat ip;
    (if (0 <? n) && (i_size i <? off) then
       iset ip (i_set_size off) ;;
       iupdate ip
     else mret tt) ;;
    mret (s32 n).

(** ** Directories *)

Definition namecmp (s t : list Z) : Z :=
  strncmp (λ i, nth i s 0) (λ i, nth i t 0) (Z.to_nat DIRSIZ).

(** [sizeof(struct dirent)] *)
Definition DESZ : Z := 16.

Fixpoint dirlookup_loop (fuel : nat) (dp : nat) (name : list Z) (off : Z)
    : M fstate (option (nat * Z)) :=
  match fuel with
  | O => undef "dirlookup fuel"
  | S fuel' =>
      i ← iat dp;
      if off <? i_size i then
        '(r, data) ← readi dp off DESZ;
        if negb (r =? DESZ) then panic "dirlookup read" else
        let de := de_decode data in
        if de_inum de =? 0 then dirlookup_loop fuel' dp name (off + DESZ)
        else if namecmp name (de_name de) =? 0 then
          ip ← iget (i_dev i) (de_inum de);
          mret (Some (ip, off))
        else dirlookup_loop fuel' dp name (off + DESZ)
      else mret None
  end.

(** The inode and the offset of the entry, which the code stores through
    [poff] when it is not null. *)
Definition dirlookup (dp : nat) (name : list Z) : M fstate (option (nat * Z)) :=
  i ← iat dp;
  if negb (i_type i =? T_DIR) then panic "dirlookup not DIR" else
  dirlookup_loop (S (Z.to_nat (i_size i))) dp name 0.

(** The offset of the first empty entry, or of the end of the directory. *)
Fixpoint dirlink_loop (fuel : nat) (dp : nat) (off : Z) : M fstate Z :=
  match fuel with
  | O => undef "dirlink fuel"
  | S fuel' =>
      i ← iat dp;
      if off <? i_size i then
        '(r, data) ← readi dp off DESZ;
        if negb (r =? DESZ) then panic "dirlink read" else
        if de_inum (de_decode data) =? 0 then mret off
        else dirlink_loop fuel' dp (off + DESZ)
      else mret off
  end.

Definition dirlink (dp : nat) (name : list Z) (inum : Z) : M fstate Z :=
  r ← dirlookup dp name;
  match r with
  | Some (ip, _) => iput ip ;; mret (-1)
  | None =>
      i ← iat dp;
      off ← dirlink_loop (S (Z.to_nat (i_size i))) dp 0;
      let de := mk_dirent (u16 inum) (strncpy (λ k, nth k name 0) (Z.to_nat DIRSIZ)) in
      r ← writei dp (de_encode de) off DESZ;
      if negb (r =? DESZ) then panic "dirlink" else mret 0
  end.

End fs.
Arguments fstate : clear implicits.

(** ** Paths *)

Definition SLASH : Z := 47.

Fixpoint skip_slashes (path : list Z) : list Z :=
  match path with
  | c :: path' => if c =? SLASH then skip_slashes path' else path
  | [] => []
  end.

(** The characters up to the next slash, and the rest. *)
Fixpoint take_elem (path : list Z) : list Z * list Z :=
  match path with
  | c :: path' =>
      if c =? SLASH then ([], path)
      else let '(e, rest) := take_elem path' in (c :: e, rest)
  | [] => ([], [])
  end.

(** [skipelem(path, name)]: the rest of the path and the new content of the
    [DIRSIZ]-byte buffer [name]; [None] when there is no element. *)
Definition skipelem (path name : list Z) : option (list Z * list Z) :=
  match skip_slashes path with
  | [] => None
  | path =>
      let '(e, rest) := take_elem path in
      let name' :=
        if (DIRSIZ <=? Z.of_nat (length e)) then take (Z.to_nat DIRSIZ) e
        else e ++ [0] ++ drop (length e + 1) name in
      Some (skip_slashes rest, name')
  end.

Section paths.
Context {D : Type} `{DiskFlush D}.
Context (devsw_read : Z → option (Z → M (fstate D) (Z * list Z))).

(** The loop of [namex], with the current inode; the result is the inode and
    the last name read. *)
Fixpoint namex_loop (fuel : nat) (ip : nat) (path : list Z) (parent : bool) (name : list Z)
    : M (fstate D) (option nat * list Z) :=
  match fuel with
  | O => undef "namex fuel"
  | S fuel' =>
      match skipelem path name with
      | None =>
          if parent then iput ip ;; mret (None, name) else mret (Some ip, name)
      | Some (path', name') =>
          ilock (Some ip) ;;
          i ← iat ip;
          if negb (i_type i =? T_DIR) then iunlockput ip ;; mret (None, name') else
          if parent && bool_decide (path' = []) then iunlock (Some ip) ;; mret (Some ip, name') else
          next ← dirlookup devsw_read ip name';
          match next with
          | None => iunlockput ip ;; mret (None, name')
          | Some (next, _) =>
              iunlockput ip ;;
              namex_loop fuel' next path' parent name'
          end
      end
  end.

Definition namex (path : list Z) (parent : bool) (name : list Z) : M (fstate D) (option nat * list Z) :=
  ip ← (if bool_decide (head path = Some SLASH) then iget ROOTDEV ROOTINO
        else pid ← mypid; s ← get;
          match f_cwd s pid with Some ip => idup ip | None => undef "idup: null" end);
  namex_loop (S (length path)) ip path parent name.

(** The local buffer [name] of [namei] is not initialised. *)
Definition namei (path : list Z) : M (fstate D) (option nat) :=
  r ← namex path false (replicate (Z.to_nat DIRSIZ) 0);
  mret r.1.

Definition nameiparent (path name : list Z) : M (fstate D) (option nat * list Z) :=
  namex path true name.

End paths.
