(* ===== verification/FsTx.v ===== *)
(** * The block layer as the file system sees it

    Inside a transaction the file system needs of the layers below only the
    current content of each block, the blocks the log already has, and the
    buffers it holds.  [txrep] relates that view to the state, and the lemmas
    are the operations of bio.c and log.c on it. *)

From S2P Require Import Prelude Layout Sleeplock Disk Bio BioSpec Crc32 Log LogImg LogSpec LogTxn CString Fs.

#[local] Arguments img_apply : simpl never.

Record txv := mk_txv {
  tv_view : Z → block;
  tv_logged : gset Z;
  tv_held : gmap Z nat;
}.

Definition tv_set_held h t := mk_txv (tv_view t) (tv_logged t) h.
Definition tv_put n d t := mk_txv (<[n := d]> (tv_view t)) (tv_logged t) (tv_held t).
Definition tv_log n d t := mk_txv (<[n := d]> (tv_view t)) ({[n]} ∪ tv_logged t) (tv_held t).

(** The disk layout mkfs makes: log, inodes, free map and data blocks follow
    each other. *)
Record sb_ok (sb : superblock) : Prop := mk_sb_ok {
  so_log : 2 ≤ sb_logstart sb;
  so_nlog : 30 ≤ sb_nlog sb;
  so_inodes : sb_logstart sb + sb_nlog sb ≤ sb_inodestart sb;
  so_ninodes : 0 ≤ sb_ninodes sb;
  so_bmap : sb_inodestart sb + sb_ninodes sb / IPB + 1 ≤ sb_bmapstart sb;
  so_data : sb_bmapstart sb + 1 ≤ sb_size sb;
  so_size : sb_size sb ≤ FSSIZE;
}.

Definition fs_log_area (sb : superblock) (n : Z) : Prop :=
  log_area (sb_logstart sb) (sb_nlog sb) n.

(** The first data block. *)
Definition datastart (sb : superblock) : Z := sb_bmapstart sb + 1.

Section tx.
Context {D : Type} `{DiskFlushOk D} `{!DiskDriverOk D}.
Implicit Types (s : fstate D) (t : txv).

Definition txrep (pid : Z) s t : Prop :=
  sb_ok (f_sb s) ∧ 1 ≤ l_outstanding (f_log s) ∧
  ∃ a es, lop pid (f_log s) a (sb_logstart (f_sb s)) (sb_nlog (f_sb s)) es ∅ ∧
    (∀ n, ca_view a n = tv_view t n) ∧ tv_logged t = list_to_set (e_block <$> es) ∧
    tv_held t = ca_held a.

(** Buffers are left beside those the log pins and those held. *)
Definition tx_room t : Prop := (size (tv_logged t ∪ dom (tv_held t)) < NBUF)%nat.

Lemma txrep_view pid s t n : txrep pid s t → block_ok (tv_view t n).
Proof. intros (_ & _ & a & es & Hl & Hv & _). rewrite <- Hv. apply Hl. Qed.

Lemma txrep_ext pid s t t' :
  (∀ n, tv_view t n = tv_view t' n) → tv_logged t = tv_logged t' → tv_held t = tv_held t' →
  txrep pid s t → txrep pid s t'.
Proof.
  intros Hv Hl Hh (Hs & Ho & a & es & Hlop & Hva & Hla & Hha).
  split; [done|]. split; [done|]. exists a, es. split; [done|].
  split; [intros n; by rewrite Hva|]. split; congruence.
Qed.

Lemma tx_bread pid s t n :
  txrep pid s t → 0 ≤ n < FSSIZE → tv_held t !! n = None → tx_room t →
  ∃ i l', f_bread ROOTDEV n pid s = Ret i (f_set_log l' s) ∧
    txrep pid (f_set_log l' s) (tv_set_held (<[n := i]> (tv_held t)) t).
Proof.
  intros (Hsb & Ho & a & es & Hl & Hv & Hlg & Hh) Hn Hnh Hr.
  destruct (lop_bread pid (f_log s) a _ _ es ∅ n Hl Hn) as (i & b' & E & Hl').
  { by rewrite <- Hh. }
  { unfold room, tx_room in *. eapply Nat.le_lt_trans; [apply subseteq_size|exact Hr].
    rewrite Hlg, Hh. pose proof (lo_dirty _ _ _ _ _ _ _ Hl). set_solver. }
  exists i, (l_set_bio b' (f_log s)). split; [exact (lift_Ret _ _ s _ _ E)|].
  split; [done|]. split; [done|]. eexists _, es. split; [exact Hl'|]. simpl. by rewrite Hh.
Qed.

Lemma tx_bdata pid s t n i :
  txrep pid s t → tv_held t !! n = Some i → f_bdata i pid s = Ret (tv_view t n) s.
Proof.
  intros (Hsb & Ho & a & es & Hl & Hv & Hlg & Hh) Hi. rewrite Hh in Hi.
  pose proof (lop_bdata _ _ _ _ _ _ _ _ _ Hl Hi) as E.
  unfold f_bdata. etransitivity; [exact (lift_Ret _ _ s _ _ E)|]. rewrite Hv. by destruct s.
Qed.

Lemma tx_brelse pid s t n i :
  txrep pid s t → tv_held t !! n = Some i →
  ∃ l', f_brelse i pid s = Ret tt (f_set_log l' s) ∧
    txrep pid (f_set_log l' s) (tv_set_held (delete n (tv_held t)) t).
Proof.
  intros (Hsb & Ho & a & es & Hl & Hv & Hlg & Hh) Hi. rewrite Hh in Hi.
  destruct (lop_brelse pid (f_log s) a _ _ es ∅ n i Hl Hi) as (b' & E & Hl'); [set_solver|].
  exists (l_set_bio b' (f_log s)). split; [exact (lift_Ret _ _ s _ _ E)|].
  split; [done|]. split; [done|]. eexists _, es. split; [exact Hl'|]. simpl. by rewrite Hh.
Qed.

(** Changing bytes [off, off+len) of a held block and logging the change. *)
Lemma tx_update pid s t n i d off len :
  txrep pid s t → tv_held t !! n = Some i → ¬ fs_log_area (f_sb s) n → block_ok d →
  range_ok off len → (size (tv_logged t) ≤ 28)%nat →
  (∀ k : nat, ¬ (off ≤ Z.of_nat k < off + len) → d !! k = tv_view t n !! k) →
  ∃ l1 l2, f_bset i d pid s = Ret tt (f_set_log l1 s) ∧
    f_log_write i off len pid (f_set_log l1 s) = Ret tt (f_set_log l2 s) ∧
    txrep pid (f_set_log l2 s) (tv_log n d t).
Proof.
  intros (Hsb & Ho & a & es & Hl & Hv & Hlg & Hh) Hi Hla Hd Hr Hsz Hch. rewrite Hh in Hi.
  destruct (lop_set_data pid (f_log s) a _ _ es ∅ n i d Hl Hi Hd) as (b1 & E1 & Hl1).
  assert (size (tv_logged t) = length es) as Hlen.
  { rewrite Hlg, size_list_to_set by apply Hl. apply length_fmap. }
  pose proof (so_nlog _ Hsb) as Hnl.
  destruct (log_write_spec pid _ _ _ _ es _ n i off len (ca_view a n) Hl1)
    as (s2 & lh2 & b2 & c & E2 & -> & Hl2); try done; try lia.
  { apply (lo_covers _ _ _ _ _ _ _ Hl). set_solver. }
  { intros k Hk. simpl. rewrite fn_lookup_insert, Hv. by apply Hch. }
  exists (l_set_bio b1 (f_log s)). eexists. split; [exact (lift_Ret _ _ s _ _ E1)|].
  split; [exact (lift_Ret _ _ (f_set_log _ s) _ _ E2)|].
  split; [done|]. split; [done|]. eexists _, _. split.
  { simpl. assert (({[n]} ∪ ∅) ∖ {[n]} = (∅ : gset Z)) as EO by set_solver. rewrite EO in Hl2. exact Hl2. }
  simpl. destruct (log_add_blocks es n off len c (lo_nodup _ _ _ _ _ _ _ Hl)) as [_ Hbl].
  split; [|split; [|done]].
  - intros m. destruct (decide (n = m)) as [<-|]; [by rewrite !fn_lookup_insert|].
    by rewrite !fn_lookup_insert_ne.
  - apply set_eq. intros x. rewrite Hlg, elem_of_union, elem_of_singleton, !elem_of_list_to_set. symmetry. apply Hbl.
Qed.

(** Changing a held block and writing it home at once. *)
Lemma tx_write pid s t n i d :
  txrep pid s t → tv_held t !! n = Some i → ¬ fs_log_area (f_sb s) n → block_ok d →
  ∃ l1 l2, f_bset i d pid s = Ret tt (f_set_log l1 s) ∧
    f_bwrite i pid (f_set_log l1 s) = Ret tt (f_set_log l2 s) ∧
    txrep pid (f_set_log l2 s) (tv_put n d t).
Proof.
  intros (Hsb & Ho & a & es & Hl & Hv & Hlg & Hh) Hi Hla Hd. rewrite Hh in Hi.
  destruct (lop_set_data pid (f_log s) a _ _ es ∅ n i d Hl Hi Hd) as (b1 & E1 & Hl1).
  destruct (lop_bwrite pid _ _ _ _ es _ n i Hl1 Hi Hla) as (b2 & E2 & Hl2).
  exists (l_set_bio b1 (f_log s)). eexists. split; [exact (lift_Ret _ _ s _ _ E1)|].
  split; [exact (lift_Ret _ _ (f_set_log _ s) _ _ E2)|].
  split; [done|]. split; [done|]. eexists _, _. split.
  { simpl. assert (({[n]} ∪ ∅) ∖ {[n]} = (∅ : gset Z)) as EO by set_solver. rewrite EO in Hl2. exact Hl2. }
  simpl. split; [|done].
  intros m. destruct (decide (n = m)) as [<-|]; [by rewrite !fn_lookup_insert|].
  by rewrite !fn_lookup_insert_ne.
Qed.

End tx.
