(* ===== verification/FsBlock.v ===== *)
(** * The block allocator (balloc, bfree, bzero of fs.c) *)

From S2P Require Import Prelude Layout Sleeplock Disk Bio BioSpec Crc32 Log LogImg LogSpec LogTxn CString Fs FsTx.

(** ** Bits of the free map *)

Lemma land_pow2_zero x k : 0 ≤ k → (Z.land x (Z.shiftl 1 k) =? 0) = negb (Z.testbit x k).
Proof.
  intros Hk. destruct (Z.testbit x k) eqn:E; simpl.
  - apply Z.eqb_neq. intros Hz. assert (Z.testbit (Z.land x (Z.shiftl 1 k)) k = false) as Hf by (by rewrite Hz, Z.bits_0).
    rewrite Z.land_spec, E, Z.shiftl_spec, Z.sub_diag in Hf by lia. done.
  - apply Z.eqb_eq, Z.bits_inj'. intros j Hj. rewrite Z.land_spec, Z.bits_0, Z.shiftl_spec by lia.
    destruct (decide (j = k)) as [->|Hne]; [by rewrite E|].
    destruct (decide (j < k)); [by rewrite (Z.testbit_neg_r _ (j - k)), andb_false_r by lia|].
    replace (Z.testbit 1 (j - k)) with false; [by rewrite andb_false_r|].
    symmetry. apply (Z.bits_above_log2 1 (j - k)); simpl; lia.
Qed.

Lemma bit_free_testbit data bi :
  bit_free data bi = negb (Z.testbit (nth (Z.to_nat (bi / 8)) data 0) (bi mod 8)).
Proof. unfold bit_free, bit_mask. apply land_pow2_zero. dlia. Qed.

Lemma shiftl1_testbit k j : 0 ≤ k → 0 ≤ j → Z.testbit (Z.shiftl 1 k) j = bool_decide (j = k).
Proof.
  intros. rewrite Z.shiftl_1_l. case_bool_decide as E.
  - subst. by apply Z.pow2_bits_true.
  - apply Z.pow2_bits_false. lia.
Qed.

Lemma u8_testbit x j : 0 ≤ j < 8 → Z.testbit (u8 x) j = Z.testbit x j.
Proof. intros. unfold u8. by rewrite Z.mod_pow2_bits_low by lia. Qed.

Lemma nth_splice1 i x l k :
  (i < length l)%nat → nth k (splice i [x] l) 0 = if decide (k = i) then x else nth k l 0.
Proof.
  intros Hi. rewrite !nth_lookup, lookup_splice by (simpl; lia). simpl.
  destruct (decide (k = i)) as [->|Hne].
  - rewrite decide_True by lia. by replace (i - i)%nat with 0%nat by lia.
  - by rewrite decide_False by lia.
Qed.

Lemma bit_index bi : 0 ≤ bi < BPB → (Z.to_nat (bi / 8) < Z.to_nat BSIZE)%nat.
Proof. unfold BPB, BSIZE. intros. dlia. Qed.

(** Setting a bit, clearing a bit: the other bits are untouched. *)
Lemma bit_free_set data bi bj :
  block_ok data → 0 ≤ bi < BPB → 0 ≤ bj →
  bit_free (bit_set data bi) bj = if decide (bj = bi) then false else bit_free data bj.
Proof.
  intros [Hl _] Hi Hj. pose proof (bit_index bi Hi) as Hx. rewrite !bit_free_testbit.
  unfold bit_set. rewrite nth_splice1 by lia. destruct (decide (Z.to_nat (bj / 8) = Z.to_nat (bi / 8))) as [E|E].
  - rewrite u8_testbit by dlia. rewrite Z.lor_spec. unfold bit_mask.
    rewrite shiftl1_testbit by dlia. case_decide as E2.
    + subst. rewrite bool_decide_true by done. by rewrite orb_true_r.
    + rewrite bool_decide_false by (intros E3; apply E2; dlia). rewrite orb_false_r. by rewrite E.
  - rewrite decide_False by congruence. done.
Qed.

Lemma bit_free_clear data bi bj :
  block_ok data → 0 ≤ bi < BPB → 0 ≤ bj →
  bit_free (bit_clear data bi) bj = if decide (bj = bi) then true else bit_free data bj.
Proof.
  intros [Hl _] Hi Hj. pose proof (bit_index bi Hi) as Hx. rewrite !bit_free_testbit.
  unfold bit_clear. rewrite nth_splice1 by lia. destruct (decide (Z.to_nat (bj / 8) = Z.to_nat (bi / 8))) as [E|E].
  - rewrite u8_testbit by dlia. rewrite Z.land_spec, Z.lnot_spec by dlia. unfold bit_mask.
    rewrite shiftl1_testbit by dlia. case_decide as E2.
    + subst. rewrite bool_decide_true by done. by rewrite andb_false_r.
    + rewrite bool_decide_false by (intros E3; apply E2; dlia). rewrite andb_true_r. by rewrite E.
  - rewrite decide_False by congruence. done.
Qed.

Lemma bit_write_ok data bi x :
  block_ok data → 0 ≤ bi < BPB → block_ok (splice (Z.to_nat (bi / 8)) [u8 x] data).
Proof.
  intros Hd Hi. apply block_ok_splice; [simpl; pose proof (bit_index bi Hi); lia| |done].
  constructor; [|done]. apply u8_range.
Qed.

Lemma bit_write_local data bi x k :
  block_ok data → 0 ≤ bi < BPB → ¬ (bi / 8 ≤ Z.of_nat k < bi / 8 + 1) →
  splice (Z.to_nat (bi / 8)) [x] data !! k = data !! k.
Proof.
  intros [Hl _] Hi Hk. pose proof (bit_index bi Hi).
  rewrite lookup_splice by (simpl; lia). rewrite decide_False; [done|]. simpl. dlia.
Qed.

(** The scan finds the first free bit. *)
Lemma balloc_scan_spec data size b bi fuel :
  0 ≤ b → BPB ≤ bi + Z.of_nat fuel →
  match balloc_scan fuel data size b bi with
  | Some r => bi ≤ r < BPB ∧ b + r < size ∧ bit_free data r = true ∧
              (∀ j, bi ≤ j < r → bit_free data j = false)
  | None => ∀ j, bi ≤ j < BPB → b + j < size → bit_free data j = false
  end.
Proof.
  intros Hb. revert bi. induction fuel as [|fuel IH]; intros bi Hf; cbn [balloc_scan]; [lia|].
  destruct (_ && _) eqn:E.
  - apply andb_true_iff in E as [E1 E2]. destruct (bit_free data bi) eqn:Ef.
    + split; [lia|]. split; [lia|]. split; [done|]. lia.
    + specialize (IH (bi + 1) ltac:(lia)). case_match.
      * destruct IH as (? & ? & ? & Hall). split; [lia|]. split; [done|]. split; [done|].
        intros j Hj. destruct (decide (j = bi)) as [->|]; [done|]. apply Hall. lia.
      * intros j Hj Hs. destruct (decide (j = bi)) as [->|]; [done|]. apply IH; lia.
  - apply andb_false_iff in E. lia.
Qed.

(** ** Blocks in use *)

Definition used (sb : superblock) (view : Z → block) (b : Z) : Prop :=
  bit_free (view (BBLOCK b sb)) (b mod BPB) = false.

#[global] Instance used_dec sb view b : Decision (used sb view b).
Proof. unfold used. apply _. Defined.

(** The blocks balloc may hand out, and what mkfs guarantees of the map: the
    blocks before the data area are in use. *)
Definition free_blocks (sb : superblock) (view : Z → block) : gset Z :=
  filter (λ b, ¬ used sb view b) (list_to_set (seqZ 0 (sb_size sb))).

Definition map_wf (sb : superblock) (view : Z → block) : Prop :=
  ∀ b, 0 ≤ b < datastart sb → used sb view b.

Lemma elem_of_free sb view b :
  b ∈ free_blocks sb view ↔ 0 ≤ b < sb_size sb ∧ ¬ used sb view b.
Proof.
  unfold free_blocks. rewrite elem_of_filter, elem_of_list_to_set, elem_of_seqZ. split; intros []; split; auto; lia.
Qed.

Lemma sb_bounds sb :
  sb_ok sb → 32 ≤ sb_inodestart sb < sb_bmapstart sb ∧ sb_bmapstart sb < sb_size sb ∧ sb_size sb ≤ 1000.
Proof. intros []. change IPB with 8 in *. unfold FSSIZE in *. dlia. Qed.

Lemma bblock sb b : sb_ok sb → 0 ≤ b < sb_size sb → BBLOCK b sb = sb_bmapstart sb.
Proof.
  intros H Hb. pose proof (sb_bounds _ H). unfold BBLOCK, BPB, BSIZE.
  rewrite Z.div_small by lia. apply u32_small. lia.
Qed.

Lemma used_bit sb view b :
  sb_ok sb → 0 ≤ b < sb_size sb → used sb view b ↔ bit_free (view (sb_bmapstart sb)) b = false.
Proof.
  intros H Hb. pose proof (sb_bounds _ H). unfold used. rewrite bblock by done.
  rewrite Z.mod_small by (unfold BPB, BSIZE; lia). done.
Qed.

(** The map block is none of the blocks of the log, nor a data block. *)
Lemma not_log_area sb n : sb_ok sb → sb_inodestart sb ≤ n → ¬ fs_log_area sb n.
Proof. intros [] Hn. unfold fs_log_area, log_area. lia. Qed.

(** The view after balloc took block [b], and after bfree of [b]. *)
Definition tv_alloc (sb : superblock) (b : Z) (t : txv) : txv :=
  tv_log b zero_block (tv_log (sb_bmapstart sb) (bit_set (tv_view t (sb_bmapstart sb)) b) t).

Definition tv_free (sb : superblock) (b : Z) (t : txv) : txv :=
  tv_log (sb_bmapstart sb) (bit_clear (tv_view t (sb_bmapstart sb)) b) t.

Lemma used_alloc sb t a n :
  sb_ok sb → block_ok (tv_view t (sb_bmapstart sb)) → datastart sb ≤ a < sb_size sb → 0 ≤ n < sb_size sb →
  used sb (tv_view (tv_alloc sb a t)) n ↔ n = a ∨ used sb (tv_view t) n.
Proof.
  intros Hsb Hok Ha Hn. pose proof (sb_bounds _ Hsb). unfold datastart in Ha.
  rewrite !used_bit by done. unfold tv_alloc. simpl. rewrite fn_lookup_insert_ne by lia.
  rewrite fn_lookup_insert. rewrite bit_free_set by (done || (unfold BPB, BSIZE; lia)).
  case_decide; naive_solver.
Qed.

Lemma used_free sb t b n :
  sb_ok sb → block_ok (tv_view t (sb_bmapstart sb)) → 0 ≤ b < sb_size sb → 0 ≤ n < sb_size sb →
  used sb (tv_view (tv_free sb b t)) n ↔ n ≠ b ∧ used sb (tv_view t) n.
Proof.
  intros Hsb Hok Hb Hn. pose proof (sb_bounds _ Hsb).
  rewrite !used_bit by done. unfold tv_free. simpl.
  rewrite fn_lookup_insert. rewrite bit_free_clear by (done || (unfold BPB, BSIZE; lia)).
  case_decide; naive_solver.
Qed.

Lemma free_blocks_alloc sb t a :
  sb_ok sb → block_ok (tv_view t (sb_bmapstart sb)) → datastart sb ≤ a < sb_size sb →
  free_blocks sb (tv_view (tv_alloc sb a t)) = free_blocks sb (tv_view t) ∖ {[a]}.
Proof.
  intros Hsb Hok Ha. apply set_eq. intros n. rewrite elem_of_difference, !elem_of_free, elem_of_singleton.
  destruct (decide (0 ≤ n < sb_size sb)); [|naive_solver]. rewrite used_alloc by done. naive_solver.
Qed.

Lemma map_wf_alloc sb t a :
  sb_ok sb → block_ok (tv_view t (sb_bmapstart sb)) → datastart sb ≤ a < sb_size sb →
  map_wf sb (tv_view t) → map_wf sb (tv_view (tv_alloc sb a t)).
Proof.
  intros Hsb Hok Ha Hm n Hn. rewrite used_alloc; [|done..|lia]. right. by apply Hm.
Qed.

Lemma free_data sb view a : map_wf sb view → a ∈ free_blocks sb view → datastart sb ≤ a < sb_size sb.
Proof.
  intros Hm (Ha & Hu)%elem_of_free. split; [|lia]. destruct (decide (datastart sb ≤ a)); [done|].
  destruct Hu. apply Hm. lia.
Qed.

(** ** Budgets

    Blocks that may still be brought into the transaction: the log takes 29
    entries and the cache must keep a buffer to spare. *)
Definition tx_budget (k : nat) (t : txv) : Prop :=
  (size (tv_logged t ∪ dom (tv_held t)) + k ≤ 28)%nat.

Lemma budget_room k t : tx_budget k t → tx_room t.
Proof. unfold tx_budget, tx_room, NBUF. lia. Qed.

Lemma budget_logged k t : tx_budget k t → (size (tv_logged t) ≤ 28)%nat.
Proof.
  unfold tx_budget. intros. pose proof (subseteq_size (tv_logged t) (tv_logged t ∪ dom (tv_held t)) ltac:(set_solver)). lia.
Qed.

Lemma budget_le k j t : tx_budget k t → (j ≤ k)%nat → tx_budget j t.
Proof. unfold tx_budget. lia. Qed.

Lemma size_add_le (x : Z) (X Y : gset Z) : Y ⊆ {[x]} ∪ X → (size Y ≤ S (size X))%nat.
Proof.
  intros HY%subseteq_size. rewrite size_union_alt, size_singleton in HY.
  pose proof (subseteq_size (X ∖ {[x]}) X ltac:(set_solver)). lia.
Qed.

Lemma budget_log k n d t : tx_budget (S k) t → tx_budget k (tv_log n d t).
Proof.
  unfold tx_budget. intros. simpl.
  pose proof (size_add_le n (tv_logged t ∪ dom (tv_held t)) ({[n]} ∪ tv_logged t ∪ dom (tv_held t)) ltac:(set_solver)). lia.
Qed.

Lemma budget_hold k n i t : tx_budget (S k) t → tx_budget k (tv_set_held (<[n := i]> (tv_held t)) t).
Proof.
  unfold tx_budget. intros. simpl. rewrite dom_insert_L.
  pose proof (size_add_le n (tv_logged t ∪ dom (tv_held t)) (tv_logged t ∪ ({[n]} ∪ dom (tv_held t))) ltac:(set_solver)). lia.
Qed.

Section block.
Context {D : Type} `{DiskFlushOk D} `{!DiskDriverOk D}.
Implicit Types (s : fstate D) (t : txv).

(** Reading a block not held, and reading, changing and logging one. *)
Lemma tx_read pid s t n :
  txrep pid s t → 0 ≤ n < FSSIZE → tv_held t !! n = None → tx_room t →
  ∃ i l1 l2, f_bread ROOTDEV n pid s = Ret i (f_set_log l1 s) ∧
    f_bdata i pid (f_set_log l1 s) = Ret (tv_view t n) (f_set_log l1 s) ∧
    f_brelse i pid (f_set_log l1 s) = Ret tt (f_set_log l2 s) ∧ txrep pid (f_set_log l2 s) t.
Proof.
  intros Ht Hn Hh Hr. destruct (tx_bread pid s t n Ht Hn Hh Hr) as (i & l1 & E1 & Ht1).
  assert (tv_held (tv_set_held (<[n := i]> (tv_held t)) t) !! n = Some i) as Hi by apply lookup_insert_eq.
  pose proof (tx_bdata _ _ _ _ _ Ht1 Hi) as E2.
  destruct (tx_brelse _ _ _ _ _ Ht1 Hi) as (l2 & E3 & Ht2).
  exists i, l1, l2. split; [done|]. split; [done|]. split; [done|].
  eapply txrep_ext; [..|exact Ht2]; try done. simpl. by apply delete_insert_id.
Qed.

Lemma tx_rmw pid s t n d off len :
  txrep pid s t → 0 ≤ n < FSSIZE → tv_held t !! n = None → tx_budget 0 t →
  ¬ fs_log_area (f_sb s) n → block_ok d → range_ok off len →
  (∀ k : nat, ¬ (off ≤ Z.of_nat k < off + len) → d !! k = tv_view t n !! k) →
  ∃ i l1 l2 l3 l4, f_bread ROOTDEV n pid s = Ret i (f_set_log l1 s) ∧
    f_bdata i pid (f_set_log l1 s) = Ret (tv_view t n) (f_set_log l1 s) ∧
    f_bset i d pid (f_set_log l1 s) = Ret tt (f_set_log l2 s) ∧
    f_log_write i off len pid (f_set_log l2 s) = Ret tt (f_set_log l3 s) ∧
    f_brelse i pid (f_set_log l3 s) = Ret tt (f_set_log l4 s) ∧
    txrep pid (f_set_log l4 s) (tv_log n d t).
Proof.
  intros Ht Hn Hh Hb Hla Hd Hr Hch.
  destruct (tx_bread pid s t n Ht Hn Hh (budget_room _ _ Hb)) as (i & l1 & E1 & Ht1).
  assert (tv_held (tv_set_held (<[n := i]> (tv_held t)) t) !! n = Some i) as Hi by apply lookup_insert_eq.
  pose proof (tx_bdata _ _ _ _ _ Ht1 Hi) as E2.
  destruct (tx_update pid _ _ n i d off len Ht1 Hi Hla Hd Hr (budget_logged _ _ Hb) Hch) as (l2 & l3 & E3 & E4 & Ht3).
  destruct (tx_brelse _ _ _ n i Ht3 Hi) as (l4 & E5 & Ht4).
  exists i, l1, l2, l3, l4. split_and!; try done.
  eapply txrep_ext; [..|exact Ht4]; try done. simpl. by apply delete_insert_id.
Qed.

Lemma bzero_spec pid s t b :
  txrep pid s t → 0 ≤ b < FSSIZE → tv_held t !! b = None → tx_budget 0 t →
  ¬ fs_log_area (f_sb s) b →
  ∃ l', bzero ROOTDEV b pid s = Ret tt (f_set_log l' s) ∧
    txrep pid (f_set_log l' s) (tv_log b zero_block t).
Proof.
  intros Ht Hn Hh Hb Hla.
  destruct (tx_rmw pid s t b zero_block 0 BSIZE Ht Hn Hh Hb Hla zero_block_ok)
    as (i & l1 & l2 & l3 & l4 & E1 & E2 & E3 & E4 & E5 & Ht'); [done|..].
  { intros k Hk. pose proof (txrep_view _ _ _ b Ht) as [Hl _]. pose proof zero_block_ok as [Hz _].
    transitivity (None : option Z); [|symmetry]; apply lookup_ge_None_2; unfold BSIZE in *; lia. }
  exists l4. split; [|done]. unfold bzero. rewrite u32_small by (unfold FSSIZE in *; lia).
  mrun E1. mrun E3. mrun E4. exact E5.
Qed.

(** ** bfree *)

Lemma bfree_run pid s t b :
  txrep pid s t → 0 ≤ b < sb_size (f_sb s) → tv_held t !! sb_bmapstart (f_sb s) = None →
  tx_budget 0 t → used (f_sb s) (tv_view t) b →
  ∃ l', bfree ROOTDEV b pid s = Ret tt (f_set_log l' s) ∧
    txrep pid (f_set_log l' s) (tv_free (f_sb s) b t).
Proof.
  intros Ht Hb Hh Hbg Hu. pose proof (proj1 Ht) as Hsb. pose proof (sb_bounds _ Hsb) as Hbd.
  set (m := sb_bmapstart (f_sb s)) in *. apply used_bit in Hu; [|done..]. fold m in Hu.
  pose proof (txrep_view _ _ _ m Ht) as Hok. assert (0 ≤ b < BPB) as HbB by (unfold BPB, BSIZE; lia).
  destruct (tx_rmw pid s t m (bit_clear (tv_view t m) b) (b / 8) 1 Ht)
    as (i & l1 & l2 & l3 & l4 & E1 & E2 & E3 & E4 & E5 & Ht'); try done.
  { unfold FSSIZE. lia. }
  { apply not_log_area; [done|]. subst m. lia. }
  { by apply bit_write_ok. }
  { unfold range_ok, BSIZE, BPB, BSIZE in *. dlia. }
  { intros k Hk. by apply bit_write_local. }
  exists l4. split; [|done]. unfold bfree. mstep. rewrite bblock by done. fold m.
  mrun E1. mrun E2. rewrite Z.mod_small by done. rewrite Hu. mrun E3. mrun E4. exact E5.
Qed.

Lemma bfree_panics pid s t b :
  txrep pid s t → 0 ≤ b < sb_size (f_sb s) → tv_held t !! sb_bmapstart (f_sb s) = None →
  tx_budget 0 t → ¬ used (f_sb s) (tv_view t) b →
  ∃ s', bfree ROOTDEV b pid s = Panicked "freeing free block" s'.
Proof.
  intros Ht Hb Hh Hbg Hu. pose proof (proj1 Ht) as Hsb. pose proof (sb_bounds _ Hsb) as Hbd.
  set (m := sb_bmapstart (f_sb s)) in *. rewrite used_bit in Hu by done. fold m in Hu.
  destruct (tx_read pid s t m Ht) as (i & l1 & l2 & E1 & E2 & E3 & Ht'); try done.
  { unfold FSSIZE. lia. } { by eapply budget_room. }
  eexists. unfold bfree. mstep. rewrite bblock by done. fold m. mrun E1. mrun E2.
  rewrite Z.mod_small by (unfold BPB, BSIZE; lia). destruct (bit_free (tv_view t m) b); [done|]. done.
Qed.

(** ** balloc *)

Lemma balloc_run pid s t b :
  txrep pid s t → map_wf (f_sb s) (tv_view t) → tx_budget 1 t →
  (∀ n, is_Some (tv_held t !! n) → n ≠ sb_bmapstart (f_sb s) ∧ used (f_sb s) (tv_view t) n) →
  b ∈ free_blocks (f_sb s) (tv_view t) →
  ∃ a l', balloc ROOTDEV pid s = Ret a (f_set_log l' s) ∧
    a ∈ free_blocks (f_sb s) (tv_view t) ∧ a ≤ b ∧ (∀ j, 0 ≤ j < a → used (f_sb s) (tv_view t) j) ∧
    txrep pid (f_set_log l' s) (tv_alloc (f_sb s) a t).
Proof.
  intros Ht Hwf Hbg Hh (Hb & Hub)%elem_of_free. pose proof (proj1 Ht) as Hsb. pose proof (sb_bounds _ Hsb) as Hbd.
  set (m := sb_bmapstart (f_sb s)) in *. rewrite used_bit in Hub by done. fold m in Hub.
  assert (tv_held t !! m = None) as Hm.
  { destruct (tv_held t !! m) eqn:E; [|done]. by destruct (Hh m ltac:(by eexists)). }
  pose proof (txrep_view _ _ _ m Ht) as Hok.
  pose proof (balloc_scan_spec (tv_view t m) (sb_size (f_sb s)) 0 0 (Z.to_nat BPB)) as Hscan.
  destruct (balloc_scan _ _ _ 0 0) as [a|] eqn:Escan; cycle 1.
  { exfalso. apply Hub. apply Hscan; unfold BPB, BSIZE; lia. }
  destruct Hscan as (Ha & Has & Hfree & Hall); [lia|unfold BPB, BSIZE; lia|].
  assert (a ∈ free_blocks (f_sb s) (tv_view t)) as Hfa.
  { apply elem_of_free. rewrite used_bit by (done || lia). fold m. split; [lia|]. by rewrite Hfree. }
  destruct (tx_rmw pid s t m (bit_set (tv_view t m) a) (a / 8) 1 Ht)
    as (i & l1 & l2 & l3 & l4 & E1 & E2 & E3 & E4 & E5 & Ht'); try done.
  { unfold FSSIZE. lia. } { by eapply budget_le; [|lia]. }
  { apply not_log_area; [done|]. subst m. lia. }
  { by apply bit_write_ok. } { unfold range_ok, BPB, BSIZE in *. dlia. }
  { intros k Hk. by apply bit_write_local. }
  pose proof (free_data _ _ _ Hwf Hfa) as Hda.
  destruct (bzero_spec pid _ _ a Ht') as (l5 & E6 & Ht6).
  { unfold FSSIZE. lia. }
  { simpl. destruct (tv_held t !! a) eqn:E; [|done]. destruct (Hh a ltac:(by eexists)) as [_ Hu].
    by apply elem_of_free in Hfa as [_ []]. }
  { by apply budget_log. }
  { simpl. apply not_log_area; [done|]. unfold datastart in Hda. subst m. lia. }
  exists a, l5. split.
  { unfold balloc. mstep. cbn [balloc_loop]. mstep. rewrite (proj2 (Z.ltb_lt _ _)) by lia.
    rewrite bblock by (done || lia). fold m. mrun E1. mrun E2. rewrite Escan. mrun E3. mrun E4. mrun E5. mrun E6. done. }
  split; [done|]. split.
  { destruct (decide (a ≤ b)); [done|]. exfalso. apply Hub, Hall. lia. }
  split; [|done]. intros j Hj. apply used_bit; [done|lia|]. apply Hall. lia.
Qed.

Lemma balloc_panics pid s t :
  txrep pid s t → tx_room t → tv_held t !! sb_bmapstart (f_sb s) = None →
  free_blocks (f_sb s) (tv_view t) = ∅ →
  ∃ s', balloc ROOTDEV pid s = Panicked "balloc: out of blocks" s'.
Proof.
  intros Ht Hr Hm Hfree. pose proof (proj1 Ht) as Hsb. pose proof (sb_bounds _ Hsb) as Hbd.
  set (m := sb_bmapstart (f_sb s)) in *.
  pose proof (balloc_scan_spec (tv_view t m) (sb_size (f_sb s)) 0 0 (Z.to_nat BPB)) as Hscan.
  destruct (balloc_scan _ _ _ 0 0) as [a|] eqn:Escan.
  { exfalso. destruct Hscan as (Ha & Has & Hf & _); [lia|unfold BPB, BSIZE; lia|].
    apply (not_elem_of_empty (C := gset Z) a). rewrite <- Hfree. apply elem_of_free. split; [lia|].
    rewrite used_bit by (done || lia). fold m. by rewrite Hf. }
  destruct (tx_read pid s t m Ht) as (i & l1 & l2 & E1 & E2 & E3 & Ht'); try done.
  { unfold FSSIZE. lia. }
  eexists. unfold balloc. mstep. destruct (Z.to_nat (sb_size (f_sb s))) eqn:En; [lia|].
  cbn [balloc_loop]. mstep. rewrite (proj2 (Z.ltb_lt _ _)) by lia.
  rewrite bblock by (done || lia). fold m. mrun E1. mrun E2. rewrite Escan. mrun E3. mstep. cbn [f_sb f_set_log].
  rewrite (proj2 (Z.ltb_ge _ _)) by (unfold BPB, BSIZE; lia). done.
Qed.

End block.
