(* ===== verification/FsFile.v ===== *)
(** * Files: block mapping and inode content (bmap, readi, writei of fs.c)

    The content of an inode as a function of the blocks, the invariant of its
    block addresses, and the operations on it. *)

From S2P Require Import Prelude Layout Sleeplock Disk Bio BioSpec Crc32 Log LogImg LogSpec LogTxn CString Fs FsTx FsBlock.

(** ** The blocks of an inode *)

Definition iaddr (i : inode) (j : nat) : Z := nth j (i_addrs i) 0.

(** The block that holds block [bn] of the file; 0 where none does. *)
Definition faddr (view : Z → block) (i : inode) (bn : Z) : Z :=
  if bn <? NDIRECT then iaddr i (Z.to_nat bn)
  else if iaddr i 12 =? 0 then 0
  else rd32 (4 * Z.to_nat (bn - NDIRECT)) (view (iaddr i 12)).

(** All the addresses an inode has: its [MAXFILE] blocks and, last, the
    indirect block. *)
Definition fslot (view : Z → block) (i : inode) (k : Z) : Z :=
  if k =? MAXFILE then iaddr i 12 else faddr view i k.

Definition data_block (sb : superblock) (b : Z) : Prop := datastart sb ≤ b < sb_size sb.

Record file_wf (sb : superblock) (view : Z → block) (i : inode) : Prop := mk_file_wf {
  fw_dev : i_dev i = ROOTDEV;
  fw_len : length (i_addrs i) = 13%nat;
  fw_block : ∀ k, 0 ≤ k ≤ MAXFILE → fslot view i k ≠ 0 →
    data_block sb (fslot view i k) ∧ used sb view (fslot view i k);
  fw_inj : ∀ k k', 0 ≤ k ≤ MAXFILE → 0 ≤ k' ≤ MAXFILE → fslot view i k ≠ 0 →
    fslot view i k = fslot view i k' → k = k';
  fw_size : 0 ≤ i_size i ≤ MAXFILE * BSIZE;
  fw_full : ∀ bn, 0 ≤ bn → bn * BSIZE < i_size i → faddr view i bn ≠ 0;
}.

(** Byte [o] of the file. *)
Definition fbyte (view : Z → block) (i : inode) (o : Z) : Z :=
  nth (Z.to_nat (o mod BSIZE)) (view (faddr view i (o / BSIZE))) 0.

(** ** One more block *)

(** [view'] and [i'] are [view] and [i] with the free block [a] taken for
    address [k]. *)
Record grown (sb : superblock) (view : Z → block) (i : inode) (k a : Z)
    (view' : Z → block) (i' : inode) : Prop := mk_grown {
  gr_free : a ∈ free_blocks sb view;
  gr_inode : i' = i_set_addrs (i_addrs i') i;
  gr_len : length (i_addrs i') = length (i_addrs i);
  gr_old : fslot view i k = 0;
  gr_slot : fslot view' i' k = a;
  gr_slots : ∀ k', 0 ≤ k' ≤ MAXFILE → k' ≠ k → fslot view' i' k' = fslot view i k';
  gr_used : ∀ n, 0 ≤ n < sb_size sb → used sb view' n ↔ n = a ∨ used sb view n;
  gr_zero : view' a = zero_block;
  gr_frame : ∀ n, n ∉ free_blocks sb view → n ≠ sb_bmapstart sb → n ≠ iaddr i 12 → view' n = view n;
}.

(** [view'] and [i'] extend [view] and [i]: the inode has the blocks it had,
    and free ones; of the blocks in use only the free map and the indirect
    block may have changed. *)
Record fext (sb : superblock) (view : Z → block) (i : inode)
    (view' : Z → block) (i' : inode) : Prop := mk_fext {
  fe_inode : i' = i_set_addrs (i_addrs i') i;
  fe_slots : ∀ k, 0 ≤ k ≤ MAXFILE → fslot view i k ≠ 0 → fslot view' i' k = fslot view i k;
  fe_new : ∀ k, 0 ≤ k ≤ MAXFILE → fslot view' i' k ≠ fslot view i k →
    fslot view' i' k ∈ free_blocks sb view;
  fe_free : free_blocks sb view' ⊆ free_blocks sb view;
  fe_frame : ∀ n, n ∉ free_blocks sb view → n ≠ sb_bmapstart sb → n ≠ iaddr i 12 → view' n = view n;
}.

(** What is left to pay when the inode has no indirect block yet. *)
Definition ind0 (i : inode) : nat := if iaddr i 12 =? 0 then 1 else 0.
Definition ind_set (i : inode) : gset Z := if iaddr i 12 =? 0 then ∅ else {[iaddr i 12]}.

(** The log entries an operation on inode [i] has taken, with those for the
    free map, the inode and the indirect block counted in advance. *)
Definition tx_cost (sb : superblock) (i : inode) (t : txv) : nat :=
  size (tv_logged t ∪ {[sb_bmapstart sb; IBLOCK (i_inum i) sb]} ∪ ind_set i) + ind0 i.


Lemma maxfile_140 : MAXFILE = 140.
Proof. reflexivity. Qed.

Lemma fslot_faddr view i k : 0 ≤ k < MAXFILE → fslot view i k = faddr view i k.
Proof. intros. unfold fslot. by rewrite (proj2 (Z.eqb_neq _ _)) by lia. Qed.

Lemma rd32_zero_block off : rd32 off zero_block = 0.
Proof.
  unfold rd32, zero_block, slice. rewrite drop_replicate, take_replicate. apply le_val_zeros.
Qed.

Lemma grown_wf sb view i k a view' i' :
  sb_ok sb → map_wf sb view → 0 ≤ k ≤ MAXFILE →
  grown sb view i k a view' i' → file_wf sb view i → file_wf sb view' i'.
Proof.
  intros Hsb Hmap Hk G W. pose proof (free_data _ _ _ Hmap (gr_free _ _ _ _ _ _ _ G)) as Ha.
  pose proof (sb_bounds _ Hsb) as Hbd. unfold datastart in Ha.
  assert (¬ used sb view a) as Hna by (by apply (elem_of_free sb view a), (gr_free _ _ _ _ _ _ _ G)).
  assert (∀ k', 0 ≤ k' ≤ MAXFILE → fslot view i k' ≠ 0 → fslot view i k' ≠ a) as Hnew.
  { intros k' Hk' Hz E. apply Hna. rewrite <- E. by apply (fw_block _ _ _ W k'). }
  assert (∀ k', 0 ≤ k' ≤ MAXFILE →
    (k' = k ∧ fslot view' i' k' = a) ∨ (k' ≠ k ∧ fslot view' i' k' = fslot view i k')) as Hcase.
  { intros k' Hk'. destruct (decide (k' = k)) as [->|Hne]; [left; split; [done|apply G]|].
    right. split; [done|by apply G]. }
  split.
  - rewrite (gr_inode _ _ _ _ _ _ _ G). apply W.
  - rewrite (gr_len _ _ _ _ _ _ _ G). apply W.
  - intros k' Hk' Hz. destruct (Hcase k' Hk') as [[-> ->]|[Hne E]].
    + split; [done|]. apply (gr_used _ _ _ _ _ _ _ G); [lia|by left].
    + rewrite E in *. destruct (fw_block _ _ _ W k' Hk' Hz) as [Hd Hu]. split; [done|].
      apply (gr_used _ _ _ _ _ _ _ G); [unfold data_block, datastart in Hd; lia|by right].
  - intros k1 k2 H1 H2 Hz E.
    destruct (Hcase k1 H1) as [[-> E1]|[Hn1 E1]], (Hcase k2 H2) as [[-> E2]|[Hn2 E2]]; try done.
    + exfalso. apply (Hnew k2); [done|congruence..].
    + exfalso. apply (Hnew k1); [done|congruence..].
    + apply (fw_inj _ _ _ W); congruence.
  - rewrite (gr_inode _ _ _ _ _ _ _ G). apply W.
  - intros bn Hb Hs. rewrite (gr_inode _ _ _ _ _ _ _ G) in Hs. simpl in Hs.
    pose proof (fw_size _ _ _ W). pose proof (fw_full _ _ _ W bn Hb Hs) as Hf.
    assert (0 ≤ bn < MAXFILE) as Hbn by (unfold BSIZE in *; lia).
    rewrite <- fslot_faddr in * by done.
    destruct (Hcase bn ltac:(lia)) as [[-> ->]|[_ ->]]; [lia|done].
Qed.

Lemma grown_map sb view i k a view' i' :
  sb_ok sb → grown sb view i k a view' i' → map_wf sb view → map_wf sb view'.
Proof.
  intros Hsb G Hm n Hn. pose proof (sb_bounds _ Hsb). unfold datastart in *.
  apply (gr_used _ _ _ _ _ _ _ G); [lia|]. right. apply Hm. unfold datastart. lia.
Qed.

Lemma grown_free sb view i k a view' i' :
  grown sb view i k a view' i' → free_blocks sb view' = free_blocks sb view ∖ {[a]}.
Proof.
  intros G. apply set_eq. intros n. rewrite elem_of_difference, !elem_of_free, elem_of_singleton.
  destruct (decide (0 ≤ n < sb_size sb)); [|naive_solver].
  rewrite (gr_used _ _ _ _ _ _ _ G) by done. naive_solver.
Qed.

Lemma iaddr_insert i j a j' :
  (j < length (i_addrs i))%nat →
  iaddr (i_set_addrs (<[j := a]> (i_addrs i)) i) j' = if decide (j' = j) then a else iaddr i j'.
Proof.
  intros Hj. unfold iaddr. simpl. rewrite !nth_lookup. case_decide as E.
  - subst. by rewrite list_lookup_insert_eq.
  - by rewrite list_lookup_insert_ne.
Qed.

Lemma alloc_view sb t a n :
  n ≠ a → n ≠ sb_bmapstart sb → tv_view (tv_alloc sb a t) n = tv_view t n.
Proof. intros. unfold tv_alloc. simpl. by rewrite !fn_lookup_insert_ne. Qed.

Section grow.
Context (sb : superblock) (t : txv) (i : inode) (a : Z).
Context (Hsb : sb_ok sb) (Hok : block_ok (tv_view t (sb_bmapstart sb))) (Hmap : map_wf sb (tv_view t)).
Context (W : file_wf sb (tv_view t) i) (Hfree : a ∈ free_blocks sb (tv_view t)).

Lemma grow_ne n : data_block sb n → used sb (tv_view t) n → n ≠ a ∧ n ≠ sb_bmapstart sb.
Proof.
  intros Hd Hu. split; [|unfold data_block, datastart in Hd; lia].
  intros ->. by apply elem_of_free in Hfree as [_ []].
Qed.

(** The indirect block keeps its content. *)
Lemma grow_ind_view :
  iaddr i 12 ≠ 0 → tv_view (tv_alloc sb a t) (iaddr i 12) = tv_view t (iaddr i 12) ∧ iaddr i 12 ≠ a.
Proof.
  intros Hz. destruct (fw_block _ _ _ W MAXFILE ltac:(rewrite maxfile_140; lia)) as [Hd Hu];
    unfold fslot in *; rewrite Z.eqb_refl in *; [done|].
  destruct (grow_ne _ Hd Hu). by rewrite alloc_view.
Qed.

(** Address [j] of the inode. *)
Lemma grown_addr (j : nat) :
  (j ≤ 12)%nat → iaddr i j = 0 →
  grown sb (tv_view t) i (if decide (j = 12%nat) then MAXFILE else Z.of_nat j) a
    (tv_view (tv_alloc sb a t)) (i_set_addrs (<[j := a]> (i_addrs i)) i).
Proof.
  intros Hj Hz. pose proof (free_data _ _ _ Hmap Hfree) as Ha. pose proof (sb_bounds _ Hsb) as Hbd.
  pose proof (fw_len _ _ _ W) as Hlen. unfold datastart in Ha.
  assert (tv_view (tv_alloc sb a t) a = zero_block) as Hza by (unfold tv_alloc; simpl; by rewrite fn_lookup_insert).
  split; try done.
  - simpl. by rewrite length_insert.
  - unfold fslot, faddr. case_decide as E; subst; [by rewrite Z.eqb_refl|].
    rewrite maxfile_140, (proj2 (Z.eqb_neq _ _)) by lia. unfold NDIRECT.
    rewrite (proj2 (Z.ltb_lt _ _)) by lia. by rewrite Nat2Z.id.
  - unfold fslot, faddr. case_decide as E; subst.
    + rewrite Z.eqb_refl, iaddr_insert by lia. done.
    + rewrite maxfile_140, (proj2 (Z.eqb_neq _ _)) by lia. unfold NDIRECT.
      rewrite (proj2 (Z.ltb_lt _ _)), Nat2Z.id, iaddr_insert by lia. by rewrite decide_True.
  - intros k' Hk' Hne. unfold fslot, faddr. rewrite !iaddr_insert by lia.
    rewrite maxfile_140 in *. unfold NDIRECT. destruct (k' =? 140) eqn:E140; [|destruct (k' <? 12) eqn:E12].
    + destruct (decide (12%nat = j)) as [<-|]; [|done]. rewrite decide_True in Hne by done. lia.
    + destruct (decide (Z.to_nat k' = j)) as [E|]; [|done]. rewrite decide_False in Hne by lia. lia.
    + destruct (decide (12%nat = j)) as [E|]; [|destruct (iaddr i 12 =? 0) eqn:Ez; [done|]].
      * rewrite <- E in Hz. rewrite Hz, (proj2 (Z.eqb_neq _ _)) by lia. rewrite Hza. apply rd32_zero_block.
      * by rewrite (proj1 (grow_ind_view ltac:(lia))).
  - intros n Hn. by apply used_alloc.
  - intros n Hn Hm _. apply alloc_view; [|done]. by intros ->.
Qed.

(** Entry [j] of the indirect block. *)
Lemma grown_indirect (j : nat) :
  (j < 128)%nat → iaddr i 12 ≠ 0 → faddr (tv_view t) i (12 + Z.of_nat j) = 0 →
  block_ok (tv_view t (iaddr i 12)) →
  grown sb (tv_view t) i (12 + Z.of_nat j) a
    (<[iaddr i 12 := wr32 (4 * j) a (tv_view t (iaddr i 12))]> (tv_view (tv_alloc sb a t))) i.
Proof.
  intros Hj Hi Hz Hiok. pose proof (free_data _ _ _ Hmap Hfree) as Ha. pose proof (sb_bounds _ Hsb) as Hbd.
  unfold datastart in Ha. destruct (grow_ind_view Hi) as [Hiv Hia].
  destruct (fw_block _ _ _ W MAXFILE ltac:(rewrite maxfile_140; lia)) as [Hd Hu];
    unfold fslot in *; rewrite Z.eqb_refl in *; [done|].
  destruct (grow_ne _ Hd Hu) as [_ Him]. destruct Hiok as [Hil _]. change (Z.to_nat BSIZE) with 512%nat in Hil.
  split; try done.
  - by destruct i.
  - rewrite fslot_faddr by (rewrite maxfile_140; lia). done.
  - unfold fslot, faddr. rewrite maxfile_140, (proj2 (Z.eqb_neq _ _)) by lia. unfold NDIRECT.
    rewrite (proj2 (Z.ltb_ge _ _)), (proj2 (Z.eqb_neq _ _)), fn_lookup_insert by lia.
    replace (Z.to_nat (12 + Z.of_nat j - 12)) with j by lia.
    rewrite rd32_wr32_eq by lia. apply u32_small. lia.
  - intros k' Hk' Hne. unfold fslot, faddr. rewrite maxfile_140 in *. unfold NDIRECT.
    destruct (k' =? 140) eqn:E140; [done|]. destruct (k' <? 12) eqn:E12; [done|].
    destruct (iaddr i 12 =? 0) eqn:Ez; [done|]. rewrite fn_lookup_insert.
    apply rd32_wr32_ne; lia.
  - intros n Hn. rewrite <- (used_alloc sb t a n) by (done || (unfold datastart; lia)).
    rewrite !used_bit by done. by rewrite fn_lookup_insert_ne.
  - rewrite fn_lookup_insert_ne by done. unfold tv_alloc. simpl. by rewrite fn_lookup_insert.
  - intros n Hn Hm Hni. rewrite fn_lookup_insert_ne by done. apply alloc_view; [|done]. by intros ->.
Qed.

End grow.

(** ** Extensions compose *)

Lemma fext_refl sb view i : fext sb view i view i.
Proof. split; try done. by destruct i. Qed.

Lemma grown_fext sb view i k a view' i' :
  0 ≤ k ≤ MAXFILE → grown sb view i k a view' i' → fext sb view i view' i'.
Proof.
  intros Hk G. split; try apply G.
  - intros k' Hk' Hz. apply (gr_slots _ _ _ _ _ _ _ G); [done|]. intros ->. apply Hz, G.
  - intros k' Hk' Hne. destruct (decide (k' = k)) as [->|Hkk].
    + rewrite (gr_slot _ _ _ _ _ _ _ G). apply G.
    + destruct Hne. by apply G.
  - rewrite (grown_free _ _ _ _ _ _ _ G). set_solver.
Qed.

Lemma fslot_ind view i : fslot view i MAXFILE = iaddr i 12.
Proof. unfold fslot. by rewrite Z.eqb_refl. Qed.

Lemma fext_ind sb view i view' i' n :
  fext sb view i view' i' → n ∉ free_blocks sb view → n ≠ iaddr i 12 → n ≠ iaddr i' 12.
Proof.
  intros E Hn Hi ->. destruct (decide (iaddr i' 12 = iaddr i 12)); [done|].
  apply Hn. rewrite <- !(fslot_ind view' i'). apply (fe_new _ _ _ _ _ E); [rewrite maxfile_140; lia|].
  by rewrite !fslot_ind.
Qed.

Lemma fext_trans sb view i view1 i1 view2 i2 :
  fext sb view i view1 i1 → fext sb view1 i1 view2 i2 → fext sb view i view2 i2.
Proof.
  intros E1 E2. split.
  - rewrite (fe_inode _ _ _ _ _ E2) at 1. by rewrite (fe_inode _ _ _ _ _ E1).
  - intros k Hk Hz. pose proof (fe_slots _ _ _ _ _ E1 k Hk Hz) as Eq. rewrite <- Eq.
    apply (fe_slots _ _ _ _ _ E2); [done|congruence].
  - intros k Hk Hne. destruct (decide (fslot view2 i2 k = fslot view1 i1 k)) as [Eq|Hne2].
    + rewrite Eq in *. by apply E1.
    + apply (fe_free _ _ _ _ _ E1). by apply E2.
  - etransitivity; [apply E2|apply E1].
  - intros n Hn Hm Hi. rewrite (fe_frame _ _ _ _ _ E2); [by apply E1| |done|by eapply fext_ind].
    intros Hf. apply Hn. by apply (fe_free _ _ _ _ _ E1).
Qed.

(** ** The cost of a block *)

Lemma ind0_0 i : iaddr i 12 ≠ 0 → ind0 i = 0%nat.
Proof. intros. unfold ind0. by rewrite (proj2 (Z.eqb_neq _ _)). Qed.

Lemma ind_set_0 i : iaddr i 12 ≠ 0 → ind_set i = {[iaddr i 12]}.
Proof. intros. unfold ind_set. by rewrite (proj2 (Z.eqb_neq _ _)). Qed.

(** Logging one more block costs one; the free map and the indirect block are
    paid for. *)
Lemma tx_cost_add sb i i' t t' a :
  i_inum i' = i_inum i → iaddr i' 12 = iaddr i 12 →
  tv_logged t' ⊆ {[a]} ∪ tv_logged t ∪ {[sb_bmapstart sb]} ∪ ind_set i →
  (tx_cost sb i' t' ≤ tx_cost sb i t + 1)%nat.
Proof.
  intros Hn Ha Hl. unfold tx_cost, ind0, ind_set in *. rewrite Hn, Ha.
  set (J := if iaddr i 12 =? 0 then ∅ else _) in *.
  pose proof (size_add_le a (tv_logged t ∪ {[sb_bmapstart sb; IBLOCK (i_inum i) sb]} ∪ J)
    (tv_logged t' ∪ {[sb_bmapstart sb; IBLOCK (i_inum i) sb]} ∪ J) ltac:(set_solver)). lia.
Qed.

Lemma tx_cost_ind sb i i' t t' :
  i_inum i' = i_inum i → iaddr i 12 = 0 → iaddr i' 12 ≠ 0 →
  tv_logged t' ⊆ {[iaddr i' 12]} ∪ tv_logged t ∪ {[sb_bmapstart sb]} →
  (tx_cost sb i' t' ≤ tx_cost sb i t)%nat.
Proof.
  intros Hn Ha Ha' Hl. unfold tx_cost. rewrite (ind0_0 i'), (ind_set_0 i'), Hn by done.
  unfold ind0, ind_set. rewrite Ha, Z.eqb_refl.
  pose proof (size_add_le (iaddr i' 12) (tv_logged t ∪ {[sb_bmapstart sb; IBLOCK (i_inum i) sb]} ∪ ∅)
    (tv_logged t' ∪ {[sb_bmapstart sb; IBLOCK (i_inum i) sb]} ∪ {[iaddr i' 12]}) ltac:(set_solver)). lia.
Qed.

Lemma tx_cost_budget sb i t k :
  (tx_cost sb i t + k ≤ 28)%nat → dom (tv_held t) ⊆ ind_set i → tx_budget k t.
Proof.
  intros Hc Hd. unfold tx_cost, tx_budget in *.
  pose proof (subseteq_size (tv_logged t ∪ dom (tv_held t))
    (tv_logged t ∪ {[sb_bmapstart sb; IBLOCK (i_inum i) sb]} ∪ ind_set i) ltac:(set_solver)). lia.
Qed.

Lemma tx_cost_logged sb i t a k X :
  (tx_cost sb i t + S k ≤ 28)%nat → X ⊆ {[a]} ∪ tv_logged t ∪ {[sb_bmapstart sb]} ∪ ind_set i → (size X + k ≤ 28)%nat.
Proof.
  intros Hc HX. unfold tx_cost in Hc.
  pose proof (size_add_le a (tv_logged t ∪ {[sb_bmapstart sb; IBLOCK (i_inum i) sb]} ∪ ind_set i) X ltac:(set_solver)). lia.
Qed.

(** ** bmap *)

(** Block [bn] of the inode is [a]: it was, or [a] was free and is now its
    zeroed block. *)
Record mapped (sb : superblock) (t : txv) (i : inode) (bn a : Z) (t' : txv) (i' : inode) : Prop := mk_mapped {
  mp_held : tv_held t' = ∅;
  mp_addr : faddr (tv_view t') i' bn = a;
  mp_nz : a ≠ 0;
  mp_wf : file_wf sb (tv_view t') i';
  mp_map : map_wf sb (tv_view t');
  mp_ext : fext sb (tv_view t) i (tv_view t') i';
  mp_case : (t' = t ∧ i' = i) ∨
    (faddr (tv_view t) i bn = 0 ∧ a ∈ free_blocks sb (tv_view t) ∧ tv_view t' a = zero_block ∧ a ∈ tv_logged t');
  mp_cost : (tx_cost sb i' t' ≤ tx_cost sb i t + 1)%nat;
  mp_space : (size (free_blocks sb (tv_view t)) + ind0 i' ≤ size (free_blocks sb (tv_view t')) + 1 + ind0 i)%nat;
}.

Lemma grown_mapped sb t i bn a t' i' :
  sb_ok sb → map_wf sb (tv_view t) → file_wf sb (tv_view t) i → 0 ≤ bn < MAXFILE →
  grown sb (tv_view t) i bn a (tv_view t') i' → iaddr i' 12 = iaddr i 12 →
  tv_held t' = ∅ → a ∈ tv_logged t' → tv_logged t' ⊆ {[a]} ∪ tv_logged t ∪ {[sb_bmapstart sb]} ∪ ind_set i →
  mapped sb t i bn a t' i'.
Proof.
  intros Hsb Hm W Hbn G Hi Hh Ha Hl. split; try done.
  - rewrite <- fslot_faddr by done. apply G.
  - pose proof (free_data _ _ _ Hm (gr_free _ _ _ _ _ _ _ G)) as Hd. pose proof (sb_bounds _ Hsb). unfold datastart in Hd. lia.
  - by eapply (grown_wf _ _ _ bn); [..|exact G|]; try done; lia.
  - by eapply grown_map.
  - eapply (grown_fext _ _ _ bn); [lia|exact G].
  - right. split_and!; try apply G; [|done]. rewrite <- fslot_faddr by done. apply G.
  - apply (tx_cost_add _ _ _ _ _ a); try done. by rewrite (gr_inode _ _ _ _ _ _ _ G).
  - rewrite (grown_free _ _ _ _ _ _ _ G). unfold ind0. rewrite Hi.
    pose proof (size_add_le a (free_blocks sb (tv_view t) ∖ {[a]}) (free_blocks sb (tv_view t))
      ltac:(intros x Hx; destruct (decide (x = a)); set_solver)). lia.
Qed.

(** An indirect block first, then the block. *)
Lemma mapped_ind sb t i a1 t1 i1 bn a t2 :
  sb_ok sb → map_wf sb (tv_view t) → 0 ≤ bn < MAXFILE → iaddr i 12 = 0 → faddr (tv_view t) i bn = 0 →
  grown sb (tv_view t) i MAXFILE a1 (tv_view t1) i1 →
  tv_logged t1 ⊆ {[a1]} ∪ tv_logged t ∪ {[sb_bmapstart sb]} →
  mapped sb t1 i1 bn a t2 i1 → mapped sb t i bn a t2 i1.
Proof.
  intros Hsb Hmap Hbn H12 Hz G Hl M. pose proof (sb_bounds _ Hsb) as Hbd.
  pose proof (free_data _ _ _ Hmap (gr_free _ _ _ _ _ _ _ G)) as Ha. unfold datastart in Ha.
  pose proof (gr_slot _ _ _ _ _ _ _ G) as Hi1. rewrite fslot_ind in Hi1.
  pose proof (grown_fext _ _ _ MAXFILE _ _ _ ltac:(rewrite maxfile_140; lia) G) as F.
  split; try apply M.
  - by eapply fext_trans; [|apply M].
  - right. destruct (mp_case _ _ _ _ _ _ _ M) as [(-> & _)|(_ & Hf & Hza & Hlg)].
    + destruct (mp_nz _ _ _ _ _ _ _ M). rewrite <- (mp_addr _ _ _ _ _ _ _ M), <- fslot_faddr by done.
      rewrite (gr_slots _ _ _ _ _ _ _ G), fslot_faddr by lia. done.
    + split_and!; try done. by apply F.
  - pose proof (mp_cost _ _ _ _ _ _ _ M). assert (i_inum i1 = i_inum i) as Hn by (by rewrite (gr_inode _ _ _ _ _ _ _ G)).
    pose proof (tx_cost_ind sb i i1 t t1 Hn H12 ltac:(lia) ltac:(by rewrite Hi1)). lia.
  - pose proof (mp_space _ _ _ _ _ _ _ M) as Hs. rewrite (ind0_0 i1) in * by lia.
    unfold ind0. rewrite H12, Z.eqb_refl. rewrite (grown_free _ _ _ _ _ _ _ G) in Hs.
    pose proof (size_add_le a1 (free_blocks sb (tv_view t) ∖ {[a1]}) (free_blocks sb (tv_view t))
      ltac:(intros x Hx; destruct (decide (x = a1)); set_solver)). lia.
Qed.

Section file.
Context {D : Type} `{DiskFlushOk D} `{!DiskDriverOk D}.
Implicit Types (s : fstate D) (t : txv).

(** The state with a new inode in entry [ip] of the cache. *)
Definition f_put (ip : nat) (i : inode) (l : lstate D) s : fstate D :=
  f_set_icache (<[ip := i]> (f_icache s)) (f_set_log l s).

Lemma iat_run pid s ip i : f_icache s !! ip = Some i → iat ip pid s = Ret i s.
Proof. intros E. unfold iat. mstep. by rewrite E. Qed.

Lemma iset_run pid s ip i f :
  f_icache s !! ip = Some i → iset ip f pid s = Ret tt (f_set_icache (<[ip := f i]> (f_icache s)) s).
Proof.
  intros E. unfold iset, modify. by rewrite (alter_Some f _ _ _ E).
Qed.

Lemma f_put_id ip i l s : f_icache s !! ip = Some i → f_put ip i l s = f_set_log l s.
Proof. intros E. unfold f_put. rewrite list_insert_id by done. done. Qed.

Lemma iaddr_lookup i (j : nat) :
  length (i_addrs i) = 13%nat → (j ≤ 12)%nat → i_addrs i !! j = Some (iaddr i j).
Proof.
  intros Hl Hj. destruct (lookup_lt_is_Some_2 (i_addrs i) j) as [x Hx]; [lia|].
  unfold iaddr. by rewrite nth_lookup, Hx.
Qed.

(** A block the file has. *)
Lemma bmap_hit pid s t ip i bn :
  txrep pid s t → tv_held t = ∅ → tx_room t → f_icache s !! ip = Some i →
  file_wf (f_sb s) (tv_view t) i → 0 ≤ bn < MAXFILE → faddr (tv_view t) i bn ≠ 0 →
  ∃ l', bmap ip bn pid s = Ret (faddr (tv_view t) i bn) (f_set_log l' s) ∧ txrep pid (f_set_log l' s) t.
Proof.
  intros Ht Hh Hr Hi W Hbn Hz. pose proof (fw_len _ _ _ W) as Hlen. pose proof (sb_bounds _ (proj1 Ht)) as Hbd.
  unfold bmap. unfold faddr in *. unfold NDIRECT in *. destruct (bn <? 12) eqn:E12.
  - exists (f_log s). split; [|by destruct s]. mrun (iat_run pid s ip i Hi).
    rewrite <- (Z2Nat.id bn) at 1 by lia.
    mrun (aget_Ret (i_addrs i) (Z.to_nat bn) pid s _ (iaddr_lookup i (Z.to_nat bn) Hlen ltac:(lia))).
    rewrite (proj2 (Z.eqb_neq _ _)) by done. by destruct s.
  - destruct (iaddr i 12 =? 0) eqn:Ez; [done|].
    destruct (fw_block _ _ _ W MAXFILE ltac:(rewrite maxfile_140; lia)) as [Hd Hu];
      rewrite fslot_ind in *; [lia|]. unfold data_block, datastart in Hd.
    destruct (tx_read pid s t (iaddr i 12) Ht) as (b & l1 & l2 & E1 & E2 & E3 & Ht');
      [unfold FSSIZE; lia|by rewrite Hh|done|].
    exists l2. split; [|done]. mrun (iat_run pid s ip i Hi). change NINDIRECT with 128.
    rewrite maxfile_140 in Hbn. rewrite (proj2 (Z.ltb_lt _ _)) by lia.
    mrun (aget_Ret (i_addrs i) 12 pid s _ (iaddr_lookup i 12 Hlen ltac:(lia))). rewrite Ez. mstep.
    rewrite (fw_dev _ _ _ W). mrun E1. mrun E2. rewrite (proj2 (Z.eqb_neq _ _)) by done. mstep. mrun E3. done.
Qed.

(** The second half of bmap: entry [bn] of the indirect block [addr]. *)
Definition bmap_entry (dev addr bn : Z) : M (fstate D) Z :=
  bp ← f_bread dev addr;
  data ← f_bdata bp;
  let addr := rd32 (4 * Z.to_nat bn) data in
  addr ← (if addr =? 0 then
            addr ← balloc dev;
            data ← f_bdata bp;
            f_bset bp (wr32 (4 * Z.to_nat bn) addr data) ;;
            f_log_write bp (bn * 4) 4 ;;
            mret addr
          else mret addr);
  f_brelse bp ;;
  mret addr.

Lemma bmap_entry_alloc pid s t i (j : nat) :
  txrep pid s t → tv_held t = ∅ → map_wf (f_sb s) (tv_view t) → file_wf (f_sb s) (tv_view t) i →
  (j < 128)%nat → iaddr i 12 ≠ 0 → faddr (tv_view t) i (12 + Z.of_nat j) = 0 →
  (tx_cost (f_sb s) i t + 1 ≤ 28)%nat → free_blocks (f_sb s) (tv_view t) ≠ ∅ →
  ∃ a l' t', bmap_entry ROOTDEV (iaddr i 12) (Z.of_nat j) pid s = Ret a (f_set_log l' s) ∧
    txrep pid (f_set_log l' s) t' ∧ mapped (f_sb s) t i (12 + Z.of_nat j) a t' i.
Proof.
  intros Ht Hh Hmap W Hj Hi Hz Hc Hf. pose proof (sb_bounds _ (proj1 Ht)) as Hbd.
  destruct (fw_block _ _ _ W MAXFILE ltac:(rewrite maxfile_140; lia)) as [Hd Hu];
    rewrite fslot_ind in *; [done|]. unfold data_block, datastart in Hd. set (ind := iaddr i 12) in *.
  assert (rd32 (4 * j) (tv_view t ind) = 0) as Hrd.
  { revert Hz. unfold faddr, NDIRECT. rewrite (proj2 (Z.ltb_ge _ _)), (proj2 (Z.eqb_neq _ _)) by (done || lia).
    by replace (Z.to_nat (12 + Z.of_nat j - 12)) with j by lia. }
  destruct (tx_bread pid s t ind Ht) as (b & l1 & E1 & Ht1); [unfold FSSIZE; lia|by rewrite Hh| |].
  { eapply budget_room, (tx_cost_budget _ _ _ _ Hc). rewrite Hh. set_solver. }
  set (t1 := tv_set_held _ t) in Ht1.
  assert (tv_held t1 !! ind = Some b) as Hb1 by apply lookup_insert_eq.
  pose proof (tx_bdata _ _ _ _ _ Ht1 Hb1) as E2. change (tv_view t1 ind) with (tv_view t ind) in E2.
  destruct (set_choose_L _ Hf) as [fb Hfb].
  destruct (balloc_run pid _ _ fb Ht1 Hmap) as (a & l2 & E3 & Ha & _ & _ & Ht2); [| |done|].
  { eapply (tx_cost_budget (f_sb s) i). { exact Hc. } simpl. rewrite Hh, insert_empty, dom_singleton_L, ind_set_0; done. }
  { simpl. rewrite Hh. intros n [x Hx]. apply lookup_insert_Some in Hx as [[<- _]|[_ ?]]; [|done]. split; [lia|done]. }
  set (t2 := tv_alloc _ a t1) in Ht2. cbn [f_sb f_set_log] in *.
  destruct (grow_ind_view (f_sb s) t i a W Ha Hi) as [Hiv Hia]. fold ind in Hiv, Hia.
  assert (tv_view t2 ind = tv_view t ind) as Hv2 by exact Hiv.
  assert (block_ok (tv_view t ind)) as Hok by (by eapply txrep_view).
  pose proof (tx_bdata _ _ _ ind b Ht2 Hb1) as E4. rewrite Hv2 in E4.
  destruct (tx_update pid _ t2 ind b (wr32 (4 * j) a (tv_view t ind)) (Z.of_nat j * 4) 4 Ht2 Hb1) as (l3 & l4 & E5 & E6 & Ht3).
  { apply not_log_area; [apply Ht|simpl; lia]. }
  { apply block_ok_wr32; [change (Z.to_nat BSIZE) with 512%nat; lia|done]. }
  { unfold range_ok, BSIZE. lia. }
  { pose proof (tx_cost_logged (f_sb s) i t a 0 (tv_logged t2) Hc ltac:(unfold t2, tv_alloc; simpl; set_solver)). lia. }
  { intros k Hk. rewrite Hv2. unfold wr32. destruct Hok as [Hl _]. change (Z.to_nat BSIZE) with 512%nat in Hl.
    rewrite lookup_splice by (rewrite length_le_bytes; lia). rewrite length_le_bytes, decide_False by lia. done. }
  destruct (tx_brelse _ _ _ ind b Ht3 Hb1) as (l5 & E7 & Ht4).
  eexists a, l5, _. split.
  { unfold bmap_entry. mrun E1. mrun E2. rewrite Nat2Z.id. rewrite Hrd, Z.eqb_refl.
    rewrite bind_assoc. mrun E3. rewrite bind_assoc. mrun E4. rewrite bind_assoc. mrun E5. rewrite bind_assoc. mrun E6.
    mstep. mrun E7. done. }
  split; [exact Ht4|]. apply grown_mapped; try done; simpl.
  - apply Ht.
  - rewrite maxfile_140. lia.
  - exact (grown_indirect (f_sb s) t i a (proj1 Ht) (txrep_view _ _ _ _ Ht) Hmap W Ha j Hj Hi Hz Hok).
  - rewrite Hh, insert_empty. apply delete_singleton_eq.
  - set_solver.
  - rewrite ind_set_0 by done. fold ind. set_solver.
Qed.

Lemma addr_alloc pid s t ip i (j : nat) :
  txrep pid s t → tv_held t = ∅ → map_wf (f_sb s) (tv_view t) → f_icache s !! ip = Some i →
  tx_budget 1 t → free_blocks (f_sb s) (tv_view t) ≠ ∅ →
  ∃ a l', balloc ROOTDEV pid s = Ret a (f_set_log l' s) ∧
    iset ip (λ i, i_set_addrs (<[j := a]> (i_addrs i)) i) pid (f_set_log l' s) =
      Ret tt (f_put ip (i_set_addrs (<[j := a]> (i_addrs i)) i) l' s) ∧
    txrep pid (f_set_log l' s) (tv_alloc (f_sb s) a t) ∧ a ∈ free_blocks (f_sb s) (tv_view t).
Proof.
  intros Ht Hh Hmap Hi Hb Hf. destruct (set_choose_L _ Hf) as [fb Hfb].
  destruct (balloc_run pid _ _ fb Ht Hmap Hb) as (a & l2 & E3 & Ha & _ & _ & Ht2); [|done|].
  { rewrite Hh. intros n [x Hx]. by rewrite lookup_empty in Hx. }
  exists a, l2. split; [done|]. split; [|done]. by apply (iset_run pid (f_set_log l2 s) ip i).
Qed.

Lemma bmap_direct pid s t ip i (j : nat) :
  txrep pid s t → tv_held t = ∅ → map_wf (f_sb s) (tv_view t) → f_icache s !! ip = Some i →
  file_wf (f_sb s) (tv_view t) i → (j < 12)%nat → iaddr i j = 0 →
  (tx_cost (f_sb s) i t + 1 ≤ 28)%nat → free_blocks (f_sb s) (tv_view t) ≠ ∅ →
  ∃ a l' i' t', bmap ip (Z.of_nat j) pid s = Ret a (f_put ip i' l' s) ∧ txrep pid (f_put ip i' l' s) t' ∧
    mapped (f_sb s) t i (Z.of_nat j) a t' i'.
Proof.
  intros Ht Hh Hmap Hi W Hj Hz Hc Hne. pose proof (fw_len _ _ _ W) as Hlen.
  assert (tx_budget 1 t) as Hbg by (apply (tx_cost_budget _ _ _ _ Hc); rewrite Hh; set_solver).
  pose proof (txrep_view _ _ _ (sb_bmapstart (f_sb s)) Ht) as Hok.
  destruct (addr_alloc pid s t ip i j Ht Hh Hmap Hi Hbg Hne) as (a & l' & E1 & E2 & Ht' & Ha).
  exists a, l'. eexists _, _. split; [|split; [exact Ht'|]].
  { unfold bmap. mrun (iat_run pid s ip i Hi). unfold NDIRECT. rewrite (proj2 (Z.ltb_lt _ _)) by lia.
    mrun (aget_Ret (i_addrs i) j pid s _ (iaddr_lookup i j Hlen ltac:(lia))).
    rewrite Hz, Z.eqb_refl, (fw_dev _ _ _ W). mrun E1. rewrite Nat2Z.id. mrun E2. done. }
  pose proof (grown_addr (f_sb s) t i a (proj1 Ht) Hok Hmap W Ha j ltac:(lia) Hz) as G.
  rewrite decide_False in G by lia.
  apply grown_mapped; try done; [apply Ht|rewrite maxfile_140; lia|..].
  - rewrite iaddr_insert, decide_False by lia. done.
  - unfold tv_alloc. simpl. set_solver.
  - unfold tv_alloc. simpl. set_solver.
Qed.

Lemma bmap_indirect pid s t ip i (j : nat) :
  txrep pid s t → tv_held t = ∅ → map_wf (f_sb s) (tv_view t) → f_icache s !! ip = Some i →
  file_wf (f_sb s) (tv_view t) i → (j < 128)%nat → faddr (tv_view t) i (12 + Z.of_nat j) = 0 →
  (tx_cost (f_sb s) i t + 1 ≤ 28)%nat → (1 + ind0 i ≤ size (free_blocks (f_sb s) (tv_view t)))%nat →
  ∃ a l' i' t', bmap ip (12 + Z.of_nat j) pid s = Ret a (f_put ip i' l' s) ∧ txrep pid (f_put ip i' l' s) t' ∧
    mapped (f_sb s) t i (12 + Z.of_nat j) a t' i'.
Proof.
  intros Ht Hh Hmap Hi W Hj Hz Hc Hfree. pose proof (fw_len _ _ _ W) as Hlen.
  assert (free_blocks (f_sb s) (tv_view t) ≠ ∅) as Hne by (intros E; rewrite E, size_empty in Hfree; lia).
  assert (tx_budget 1 t) as Hbg by (apply (tx_cost_budget _ _ _ _ Hc); rewrite Hh; set_solver).
  pose proof (txrep_view _ _ _ (sb_bmapstart (f_sb s)) Ht) as Hok.
  assert (∀ a s1, (if iaddr i 12 =? 0
      then addr ← balloc ROOTDEV; iset ip (λ i, i_set_addrs (<[Z.to_nat NDIRECT := addr]> (i_addrs i)) i) ;; mret addr
      else mret (iaddr i 12)) pid s = Ret a s1 →
    bmap ip (12 + Z.of_nat j) pid s = bmap_entry ROOTDEV a (Z.of_nat j) pid s1) as Hrun.
  { intros a s1 E. unfold bmap. mrun (iat_run pid s ip i Hi). unfold NDIRECT at 1. rewrite (proj2 (Z.ltb_ge _ _)) by lia.
    replace (12 + Z.of_nat j - NDIRECT) with (Z.of_nat j) by (unfold NDIRECT; lia). change NINDIRECT with 128.
    rewrite (proj2 (Z.ltb_lt _ _)) by lia.
    mrun (aget_Ret (i_addrs i) 12 pid s _ (iaddr_lookup i 12 Hlen ltac:(lia))).
    rewrite (fw_dev _ _ _ W). mrun E. done. }
  destruct (decide (iaddr i 12 = 0)) as [H12|H12].
  - destruct (addr_alloc pid s t ip i 12 Ht Hh Hmap Hi Hbg Hne) as (a1 & l1 & E1 & E2 & Ht1 & Ha1).
    pose proof (grown_addr (f_sb s) t i a1 (proj1 Ht) Hok Hmap W Ha1 12 ltac:(lia) H12) as G.
    rewrite decide_True in G by done. set (i1 := i_set_addrs _ i) in *. set (t1 := tv_alloc _ a1 t) in *.
    pose proof (sb_bounds _ (proj1 Ht)) as Hbd. pose proof (free_data _ _ _ Hmap Ha1) as Ha. unfold datastart in Ha.
    assert (iaddr i1 12 = a1) as Hi1 by (unfold i1; rewrite iaddr_insert by lia; done).
    assert (tv_logged t1 ⊆ {[a1]} ∪ tv_logged t ∪ {[sb_bmapstart (f_sb s)]}) as Hl1 by (unfold t1, tv_alloc; simpl; set_solver).
    destruct (bmap_entry_alloc pid (f_put ip i1 l1 s) t1 i1 j) as (a & l2 & t2 & E & Ht2 & M); try done.
    + eapply grown_map; [apply Ht|exact G|done].
    + eapply grown_wf; [apply Ht|exact Hmap| |exact G|done]. rewrite maxfile_140. lia.
    + lia.
    + rewrite <- fslot_faddr by (rewrite maxfile_140; lia).
      rewrite (gr_slots _ _ _ _ _ _ _ G), fslot_faddr by (rewrite maxfile_140; lia). done.
    + pose proof (tx_cost_ind (f_sb s) i i1 t t1 eq_refl H12 ltac:(lia) ltac:(by rewrite Hi1)). simpl. lia.
    + intros E. change (free_blocks (f_sb s) (tv_view t1) = ∅) in E. rewrite (grown_free _ _ _ _ _ _ _ G) in E. unfold ind0 in Hfree. rewrite H12, Z.eqb_refl in Hfree.
      pose proof (size_add_le a1 (free_blocks (f_sb s) (tv_view t) ∖ {[a1]}) (free_blocks (f_sb s) (tv_view t))
        ltac:(intros x Hx; destruct (decide (x = a1)); set_solver)) as Hs. rewrite E, size_empty in Hs. lia.
    + exists a, l2, i1, t2. split; [|split].
      * rewrite (Hrun a1 (f_put ip i1 l1 s)); [|rewrite H12, Z.eqb_refl; mrun E1; by mrun E2].
        rewrite Hi1 in E. exact E.
      * exact Ht2.
      * eapply mapped_ind; try done; [apply Ht|rewrite maxfile_140; lia].
  - destruct (bmap_entry_alloc pid s t i j Ht Hh Hmap W Hj H12 Hz Hc Hne) as (a & l2 & t2 & E & Ht2 & M).
    exists a, l2, i, t2. rewrite f_put_id by done. split; [|done].
    rewrite (Hrun (iaddr i 12) s); [done|]. by rewrite (proj2 (Z.eqb_neq _ _)).
Qed.

Lemma bmap_run pid s t ip i bn :
  txrep pid s t → tv_held t = ∅ → map_wf (f_sb s) (tv_view t) → f_icache s !! ip = Some i →
  file_wf (f_sb s) (tv_view t) i → 0 ≤ bn < MAXFILE →
  (tx_cost (f_sb s) i t + 1 ≤ 28)%nat → (1 + ind0 i ≤ size (free_blocks (f_sb s) (tv_view t)))%nat →
  ∃ a l' i' t', bmap ip bn pid s = Ret a (f_put ip i' l' s) ∧ txrep pid (f_put ip i' l' s) t' ∧
    mapped (f_sb s) t i bn a t' i'.
Proof.
  intros Ht Hh Hmap Hi W Hbn Hc Hfree.
  destruct (decide (faddr (tv_view t) i bn = 0)) as [Hz|Hz].
  - assert (free_blocks (f_sb s) (tv_view t) ≠ ∅) as Hne by (intros E; rewrite E, size_empty in Hfree; lia).
    rewrite maxfile_140 in Hbn. destruct (decide (bn < 12)) as [Hlt|Hge].
    + rewrite <- (Z2Nat.id bn) by lia. apply bmap_direct; try done; [lia|].
      revert Hz. unfold faddr, NDIRECT. by rewrite (proj2 (Z.ltb_lt _ _)).
    + replace bn with (12 + Z.of_nat (Z.to_nat (bn - 12))) in * by lia. apply bmap_indirect; try done. lia.
  - destruct (bmap_hit pid s t ip i bn Ht Hh) as (l' & E & Ht'); try done.
    { eapply budget_room, (tx_cost_budget _ _ _ _ Hc). rewrite Hh. set_solver. }
    exists (faddr (tv_view t) i bn), l', i, t. rewrite f_put_id by done. split; [done|]. split; [done|].
    split; try done; [apply fext_refl|by left|lia..].
Qed.

End file.
