(* ===== verification/FsRw.v ===== *)
(** * Reading and writing inode content (readi, writei of fs.c) *)

From S2P Require Import Prelude Layout Sleeplock Disk Bio BioSpec Crc32 Log LogImg LogSpec LogTxn CString Fs FsTx FsBlock FsFile.

(** Bytes [off, off+len) of a file. *)
Definition fbytes (view : Z → block) (i : inode) (off len : Z) : list Z :=
  fbyte view i <$> seqZ off len.

(** [view'] and [i'] are [view] and [i] after writes to the file: its blocks,
    the free map and formerly free blocks may have changed, nothing else. *)
Record wext (sb : superblock) (view : Z → block) (i : inode)
    (view' : Z → block) (i' : inode) : Prop := mk_wext {
  we_inode : i' = i_set_addrs (i_addrs i') i;
  we_slots : ∀ k, 0 ≤ k ≤ MAXFILE → fslot view i k ≠ 0 → fslot view' i' k = fslot view i k;
  we_new : ∀ k, 0 ≤ k ≤ MAXFILE → fslot view' i' k ≠ fslot view i k →
    fslot view' i' k ∈ free_blocks sb view;
  we_free : free_blocks sb view' ⊆ free_blocks sb view;
  we_frame : ∀ n, n ∉ free_blocks sb view → n ≠ sb_bmapstart sb →
    (∀ k, 0 ≤ k ≤ MAXFILE → n ≠ fslot view i k) → view' n = view n;
}.

(** The file has the bytes [data] at [off] and its old bytes elsewhere. *)
Definition fwrote (view : Z → block) (i : inode) (view' : Z → block) (i' : inode)
    (off : Z) (data : list Z) : Prop :=
  ∀ o, 0 ≤ o < MAXFILE * BSIZE →
    faddr view i (o / BSIZE) ≠ 0 ∨ off ≤ o < off + Z.of_nat (length data) →
    faddr view' i' (o / BSIZE) ≠ 0 ∧
    fbyte view' i' o = if decide (off ≤ o < off + Z.of_nat (length data))
                       then nth (Z.to_nat (o - off)) data 0 else fbyte view i o.

(** Blocks that the [n] bytes from [off] touch. *)
Definition nblk (off n : Z) : nat :=
  if n <=? 0 then 0%nat else Z.to_nat ((off + n - 1) / BSIZE - off / BSIZE + 1).

(** The inode [inum] on disk. *)
Definition disk_inode (sb : superblock) (view : Z → block) (inum : Z) : dinode :=
  di_decode (slice (ioff inum) (Z.to_nat SIZEOF_DINODE) (view (IBLOCK inum sb))).

Definition inum_ok (sb : superblock) (inum : Z) : Prop := 0 ≤ inum < sb_ninodes sb.

Definition shorts (i : inode) : Prop :=
  is_short (i_type i) ∧ is_short (i_major i) ∧ is_short (i_minor i) ∧ is_short (i_nlink i).

(** The view after [iupdate]. *)
Definition tv_iupdate (sb : superblock) (i : inode) (t : txv) : txv :=
  tv_log (IBLOCK (i_inum i) sb)
    (splice (ioff (i_inum i)) (di_encode (i_dinode i)) (tv_view t (IBLOCK (i_inum i) sb))) t.

(** ** Lemmas *)

Lemma wext_refl sb view i : wext sb view i view i.
Proof. split; try done. by destruct i. Qed.

Lemma fext_wext sb view i view' i' : fext sb view i view' i' → wext sb view i view' i'.
Proof.
  intros F. split; try apply F. intros n Hn Hm Hk. apply F; [done..|].
  rewrite <- (fslot_ind view). apply Hk. rewrite maxfile_140. lia.
Qed.

Lemma wext_slot sb view i view' i' n :
  wext sb view i view' i' → n ∉ free_blocks sb view → (∀ k, 0 ≤ k ≤ MAXFILE → n ≠ fslot view i k) →
  ∀ k, 0 ≤ k ≤ MAXFILE → n ≠ fslot view' i' k.
Proof.
  intros E Hn Hi k Hk ->. destruct (decide (fslot view' i' k = fslot view i k)) as [Eq|Hne]; [by apply (Hi k)|].
  apply Hn. by apply E.
Qed.

Lemma wext_trans sb view i view1 i1 view2 i2 :
  wext sb view i view1 i1 → wext sb view1 i1 view2 i2 → wext sb view i view2 i2.
Proof.
  intros E1 E2. split.
  - rewrite (we_inode _ _ _ _ _ E2) at 1. by rewrite (we_inode _ _ _ _ _ E1).
  - intros k Hk Hz. pose proof (we_slots _ _ _ _ _ E1 k Hk Hz) as Eq. rewrite <- Eq.
    apply (we_slots _ _ _ _ _ E2); [done|congruence].
  - intros k Hk Hne. destruct (decide (fslot view2 i2 k = fslot view1 i1 k)) as [Eq|Hne2].
    + rewrite Eq in *. by apply E1.
    + apply (we_free _ _ _ _ _ E1). by apply E2.
  - etransitivity; [apply E2|apply E1].
  - intros n Hn Hm Hi. rewrite (we_frame _ _ _ _ _ E2); [by apply E1| |done|by eapply wext_slot].
    intros Hf. apply Hn. by apply (we_free _ _ _ _ _ E1).
Qed.

Lemma fwrote_nil view i off : fwrote view i view i off [].
Proof. intros o Ho [Hf|]; simpl in *; [|lia]. split; [done|]. rewrite decide_False by lia. done. Qed.

Lemma fwrote_app view i view1 i1 view2 i2 off d1 d2 :
  fwrote view i view1 i1 off d1 → fwrote view1 i1 view2 i2 (off + Z.of_nat (length d1)) d2 →
  fwrote view i view2 i2 off (d1 ++ d2).
Proof.
  intros W1 W2 o Ho Hor. rewrite length_app in *.
  destruct (decide (off ≤ o < off + Z.of_nat (length d1))) as [H1|H1].
  - destruct (W1 o Ho ltac:(by right)) as [F1 B1]. destruct (W2 o Ho ltac:(by left)) as [F2 B2].
    split; [done|]. rewrite B2, B1. rewrite decide_False, decide_True, decide_True by lia.
    by rewrite app_nth1 by lia.
  - destruct (decide (off + Z.of_nat (length d1) ≤ o < off + Z.of_nat (length d1) + Z.of_nat (length d2))) as [H2|H2].
    + destruct (W2 o Ho ltac:(by right)) as [F2 B2]. split; [done|]. rewrite B2.
      rewrite decide_True, decide_True by lia. rewrite app_nth2 by lia. f_equal. lia.
    + destruct Hor as [Hor|]; [|lia]. destruct (W1 o Ho ltac:(by left)) as [F1 B1].
      destruct (W2 o Ho ltac:(by left)) as [F2 B2]. split; [done|].
      rewrite B2, B1. by rewrite !decide_False by lia.
Qed.

Lemma nblk_step off n m :
  0 ≤ off → 0 < n → m = Z.min n (BSIZE - off mod BSIZE) → nblk off n = S (nblk (off + m) (n - m)).
Proof.
  unfold nblk, BSIZE. intros Ho Hn Hm. rewrite (proj2 (Z.leb_gt _ _)) by lia.
  destruct (n - m <=? 0) eqn:E; dlia.
Qed.

(** Writing a data block of the file changes none of its addresses. *)
Lemma fslot_write sb view i k a d :
  file_wf sb view i → 0 ≤ k < MAXFILE → fslot view i k = a → a ≠ 0 →
  ∀ k', fslot (<[a := d]> view) i k' = fslot view i k'.
Proof.
  intros W Hk Ha Hz k'. assert (iaddr i 12 ≠ a) as Hne.
  { intros E. rewrite <- (fslot_ind view) in E. subst a.
    pose proof (fw_inj _ _ _ W k MAXFILE ltac:(lia) ltac:(lia) Hz (eq_sym E)). lia. }
  unfold fslot, faddr. repeat case_match; try done. by rewrite fn_lookup_insert_ne.
Qed.

(** ** One block written *)

Section step.
Context (sb : superblock) (t : txv) (i : inode) (bn a : Z) (t1 : txv) (i1 : inode) (d : block).
Context (Hsb : sb_ok sb) (W : file_wf sb (tv_view t) i) (Hbn : 0 ≤ bn < MAXFILE).
Context (M : mapped sb t i bn a t1 i1).

Lemma step_slot : fslot (tv_view t1) i1 bn = a ∧ a ≠ 0 ∧ data_block sb a ∧ used sb (tv_view t1) a.
Proof.
  pose proof (mp_addr _ _ _ _ _ _ _ M) as Ha. rewrite <- fslot_faddr in Ha by done.
  pose proof (mp_nz _ _ _ _ _ _ _ M) as Hz.
  split; [done|]. split; [done|]. rewrite <- Ha in *. apply (mp_wf _ _ _ _ _ _ _ M); [lia|done].
Qed.

Notation view2 := (<[a := d]> (tv_view t1)).

Lemma step_used n : 0 ≤ n < sb_size sb → used sb view2 n ↔ used sb (tv_view t1) n.
Proof.
  intros Hn. rewrite !used_bit by done. destruct step_slot as (_ & _ & Hd & _).
  unfold data_block, datastart in Hd. by rewrite fn_lookup_insert_ne by lia.
Qed.

Lemma step_free : free_blocks sb view2 = free_blocks sb (tv_view t1).
Proof.
  apply set_eq. intros n. rewrite !elem_of_free.
  destruct (decide (0 ≤ n < sb_size sb)); [|naive_solver]. by rewrite step_used.
Qed.

Lemma step_fslot k : fslot view2 i1 k = fslot (tv_view t1) i1 k.
Proof. destruct step_slot as (Hs & Hz & _). by eapply fslot_write; [apply M|..]. Qed.

Lemma step_faddr n : 0 ≤ n < MAXFILE → faddr view2 i1 n = faddr (tv_view t1) i1 n.
Proof. intros. rewrite <- !fslot_faddr by done. apply step_fslot. Qed.

Lemma step_wf : file_wf sb view2 i1 ∧ map_wf sb view2.
Proof.
  pose proof (mp_wf _ _ _ _ _ _ _ M) as W1. pose proof (sb_bounds _ Hsb) as Hbd. split; [split; try apply W1|].
  - intros k Hk. rewrite step_fslot. intros Hz. destruct (fw_block _ _ _ W1 k Hk Hz) as [Hd Hu].
    split; [done|]. apply step_used; [|done]. unfold data_block, datastart in Hd. lia.
  - intros k k' Hk Hk'. rewrite !step_fslot. by apply W1.
  - intros n Hn Hs. pose proof (fw_size _ _ _ W1). rewrite step_faddr by (unfold BSIZE in *; lia). by apply W1.
  - intros n Hn. unfold datastart in Hn. apply step_used; [lia|]. apply M. unfold datastart. lia.
Qed.

Lemma step_wext : wext sb (tv_view t) i view2 i1.
Proof.
  pose proof (mp_ext _ _ _ _ _ _ _ M) as F. destruct step_slot as (Hs & Hz & Hd & Hu). split.
  - apply F.
  - intros k. rewrite step_fslot. apply F.
  - intros k. rewrite step_fslot. apply F.
  - rewrite step_free. apply F.
  - intros n Hn Hm Hk. assert (n ≠ a) as Hna.
    { rewrite <- Hs. apply (wext_slot _ _ _ _ _ _ (fext_wext _ _ _ _ _ F)); [done..|lia]. }
    rewrite fn_lookup_insert_ne by done. by apply (we_frame _ _ _ _ _ (fext_wext _ _ _ _ _ F)).
Qed.

(** The other blocks of the file keep their content. *)
Lemma step_other n :
  0 ≤ n < MAXFILE → n ≠ bn → faddr (tv_view t) i n ≠ 0 →
  faddr view2 i1 n = faddr (tv_view t) i n ∧ view2 (faddr (tv_view t) i n) = tv_view t (faddr (tv_view t) i n).
Proof.
  intros Hn Hne Hz. pose proof (mp_ext _ _ _ _ _ _ _ M) as F. destruct step_slot as (Hs & Haz & Hd & Hu).
  rewrite step_faddr by done. rewrite <- !fslot_faddr in * by done.
  rewrite (fe_slots _ _ _ _ _ F) by (done || lia). split; [done|].
  destruct (fw_block _ _ _ W n ltac:(lia) Hz) as [Hdn Hun].
  rewrite fn_lookup_insert_ne.
  - apply F.
    + by intros [_ []]%elem_of_free.
    + unfold data_block, datastart in Hdn. lia.
    + intros E. rewrite <- (fslot_ind (tv_view t)) in E. apply (fw_inj _ _ _ W) in E; [lia|lia|lia|done].
  - intros E. rewrite <- (fe_slots _ _ _ _ _ F n) in E by (done || lia). rewrite <- Hs in E.
    symmetry in E. apply (fw_inj _ _ _ (mp_wf _ _ _ _ _ _ _ M)) in E; [done|lia|lia|].
    rewrite (fe_slots _ _ _ _ _ F) by (done || lia). done.
Qed.

End step.

Lemma nth_splice o x l k :
  (o + length x ≤ length l)%nat →
  nth k (splice o x l) 0 = if decide (o ≤ k < o + length x)%nat then nth (k - o) x 0 else nth k l 0.
Proof. intros Hl. rewrite !nth_lookup, lookup_splice by done. by case_decide; rewrite ?nth_lookup. Qed.

Lemma step_fwrote sb t i a t1 i1 off chunk :
  sb_ok sb → file_wf sb (tv_view t) i → 0 ≤ off → off / BSIZE < MAXFILE →
  mapped sb t i (off / BSIZE) a t1 i1 → block_ok (tv_view t1 a) →
  (Z.to_nat (off mod BSIZE) + length chunk ≤ 512)%nat →
  fwrote (tv_view t) i
    (<[a := (splice (Z.to_nat (off mod BSIZE)) chunk (tv_view t1 a) : block)]> (tv_view t1)) i1 off chunk.
Proof.
  intros Hsb W Ho Hbn M [Hl _] Hc o Hoo Hor. change (Z.to_nat BSIZE) with 512%nat in Hl.
  set (bn := off / BSIZE) in *. assert (0 ≤ bn < MAXFILE) as Hbn' by (unfold bn, BSIZE in *; dlia).
  assert (0 ≤ o / BSIZE < MAXFILE) as Hob by (rewrite maxfile_140 in *; unfold BSIZE in *; dlia).
  set (d := splice _ _ _ : block). unfold fbyte. destruct (decide (o / BSIZE = bn)) as [E|E].
  - rewrite E in *. rewrite (step_faddr sb t i bn a t1 i1 d Hbn' M bn Hbn').
    rewrite (mp_addr _ _ _ _ _ _ _ M). split; [apply M|]. rewrite fn_lookup_insert. unfold d.
    rewrite nth_splice by lia. destruct (decide (off ≤ o < off + _)) as [Hin|Hout].
    + rewrite decide_True by (unfold bn, BSIZE in *; dlia). f_equal. unfold bn, BSIZE in *; dlia.
    + rewrite decide_False by (unfold bn, BSIZE in *; dlia). destruct Hor as [Hor|]; [|done].
      destruct (mp_case _ _ _ _ _ _ _ M) as [[-> ->]|(Hz & _)]; [|done].
      by rewrite (mp_addr _ _ _ _ _ _ _ M).
  - rewrite (decide_False (P := off ≤ o < off + _)) by (unfold bn, BSIZE in *; dlia).
    destruct Hor as [Hor|Hin]; [|unfold bn, BSIZE in *; dlia].
    destruct (step_other sb t i bn a t1 i1 d W Hbn' M _ Hob E Hor) as [-> ->]. done.
Qed.

(** The file after a write of [data] at [off], the size apart. *)
Record wrote (sb : superblock) (t : txv) (i : inode) (off : Z) (data : list Z) (t' : txv) (i' : inode) : Prop := mk_wrote {
  wr_held : tv_held t' = ∅;
  wr_wf : file_wf sb (tv_view t') i';
  wr_map : map_wf sb (tv_view t');
  wr_ext : wext sb (tv_view t) i (tv_view t') i';
  wr_data : fwrote (tv_view t) i (tv_view t') i' off data;
  wr_cost : (tx_cost sb i' t' ≤ tx_cost sb i t + nblk off (Z.of_nat (length data)))%nat;
  wr_same : off + Z.of_nat (length data) ≤ i_size i → i' = i;
  wr_space : (size (free_blocks sb (tv_view t)) + ind0 i' ≤
    size (free_blocks sb (tv_view t')) + nblk off (Z.of_nat (length data)) + ind0 i)%nat;
}.

Lemma step_cost sb t i bn a t1 i1 t2 :
  mapped sb t i bn a t1 i1 → tv_logged t2 ⊆ {[a]} ∪ tv_logged t1 →
  (tx_cost sb i1 t2 ≤ tx_cost sb i t + 1)%nat.
Proof.
  intros M Hl. destruct (mp_case _ _ _ _ _ _ _ M) as [[-> ->]|(_ & _ & _ & Ha)].
  - apply (tx_cost_add _ _ _ _ _ a); try done. set_solver.
  - pose proof (mp_cost _ _ _ _ _ _ _ M). unfold tx_cost in *.
    pose proof (subseteq_size (tv_logged t2 ∪ {[sb_bmapstart sb; IBLOCK (i_inum i1) sb]} ∪ ind_set i1)
      (tv_logged t1 ∪ {[sb_bmapstart sb; IBLOCK (i_inum i1) sb]} ∪ ind_set i1) ltac:(set_solver)). lia.
Qed.

Lemma tx_cost_size sb i t : (size (tv_logged t) ≤ tx_cost sb i t)%nat.
Proof.
  unfold tx_cost. pose proof (subseteq_size (tv_logged t)
    (tv_logged t ∪ {[sb_bmapstart sb; IBLOCK (i_inum i) sb]} ∪ ind_set i) ltac:(set_solver)). lia.
Qed.

(** ** Inode blocks *)

Lemma iblock_range sb inum :
  sb_ok sb → inum_ok sb inum →
  IBLOCK inum sb = inum / IPB + sb_inodestart sb ∧ sb_inodestart sb ≤ IBLOCK inum sb < sb_bmapstart sb.
Proof.
  intros Hsb Hi. pose proof (sb_bounds _ Hsb). destruct Hsb. unfold inum_ok in Hi. unfold IBLOCK. change IPB with 8 in *.
  rewrite u32_small by dlia. dlia.
Qed.

Lemma ioff_range inum : (ioff inum + 64 ≤ 512)%nat.
Proof. unfold ioff. change IPB with 8. change SIZEOF_DINODE with 64. dlia. Qed.

Lemma ioff_disjoint sb inum j :
  sb_ok sb → inum_ok sb inum → inum_ok sb j → inum ≠ j → IBLOCK inum sb = IBLOCK j sb →
  (ioff inum + 64 ≤ ioff j ∨ ioff j + 64 ≤ ioff inum)%nat.
Proof.
  intros Hsb Hi Hj Hne E. destruct (iblock_range sb inum Hsb Hi) as [E1 _], (iblock_range sb j Hsb Hj) as [E2 _].
  unfold inum_ok, ioff in *. change IPB with 8 in *. change SIZEOF_DINODE with 64. rewrite E1, E2 in E. dlia.
Qed.

Lemma file_dinode_wf sb view i : sb_ok sb → file_wf sb view i → shorts i → dinode_wf (i_dinode i).
Proof.
  intros Hsb W (H1 & H2 & H3 & H4). pose proof (sb_bounds _ Hsb) as Hbd. pose proof (fw_len _ _ _ W) as Hl.
  pose proof (fw_size _ _ _ W) as Hs. rewrite maxfile_140 in Hs. unfold BSIZE in Hs.
  split_and!; try done; [unfold is_uint; simpl; lia|].
  apply Forall_lookup. intros j x Hx. simpl in Hx. pose proof (lookup_lt_Some _ _ _ Hx).
  pose proof (iaddr_lookup i j Hl ltac:(lia)) as Hx'. rewrite Hx' in Hx. injection Hx as <-.
  destruct (decide (iaddr i j = 0)) as [->|Hz]; [unfold is_uint; lia|].
  assert (∃ k, 0 ≤ k ≤ MAXFILE ∧ fslot view i k = iaddr i j) as (k & Hk & E).
  { destruct (decide (j = 12%nat)) as [->|]; [exists MAXFILE; split; [rewrite maxfile_140; lia|apply fslot_ind]|].
    exists (Z.of_nat j). rewrite maxfile_140. split; [lia|]. unfold fslot, faddr, NDIRECT.
    rewrite maxfile_140, (proj2 (Z.eqb_neq _ _)), (proj2 (Z.ltb_lt _ _)), Nat2Z.id by lia. done. }
  rewrite <- E in *. destruct (fw_block _ _ _ W k Hk Hz) as [Hd _]. unfold data_block, datastart in Hd.
  unfold is_uint. lia.
Qed.

(** An inode written back is the one read again; the others are as before. *)
Lemma disk_inode_iupdate sb t i :
  dinode_wf (i_dinode i) → block_ok (tv_view t (IBLOCK (i_inum i) sb)) →
  disk_inode sb (tv_view (tv_iupdate sb i t)) (i_inum i) = i_dinode i.
Proof.
  intros Hd [Hl _]. change (Z.to_nat BSIZE) with 512%nat in Hl. pose proof (ioff_range (i_inum i)).
  unfold disk_inode, tv_iupdate. simpl. rewrite fn_lookup_insert, <- (length_di_encode _ Hd).
  rewrite slice_splice_eq by (rewrite length_di_encode by done; change (Z.to_nat SIZEOF_DINODE) with 64%nat; lia).
  by apply di_decode_encode.
Qed.

Lemma disk_inode_other sb t i j :
  sb_ok sb → inum_ok sb (i_inum i) → inum_ok sb j → j ≠ i_inum i →
  dinode_wf (i_dinode i) → block_ok (tv_view t (IBLOCK (i_inum i) sb)) →
  disk_inode sb (tv_view (tv_iupdate sb i t)) j = disk_inode sb (tv_view t) j.
Proof.
  intros Hsb Hi Hj Hne Hd [Hl _]. change (Z.to_nat BSIZE) with 512%nat in Hl. pose proof (ioff_range (i_inum i)).
  unfold disk_inode, tv_iupdate. simpl. destruct (decide (IBLOCK j sb = IBLOCK (i_inum i) sb)) as [E|E].
  - rewrite E, fn_lookup_insert. f_equal. apply slice_splice_ne;
      rewrite length_di_encode by done; change (Z.to_nat SIZEOF_DINODE) with 64%nat; [lia|].
    destruct (ioff_disjoint sb _ _ Hsb Hj Hi Hne E); lia.
  - by rewrite fn_lookup_insert_ne.
Qed.

(** Changes outside the data blocks and the free map leave a file alone. *)
Lemma fslot_frame sb view view' i k :
  file_wf sb view i → (∀ n, data_block sb n → view' n = view n) → fslot view' i k = fslot view i k.
Proof.
  intros W Hv. unfold fslot, faddr. repeat case_match; try done. f_equal. apply Hv.
  pose proof (fslot_ind view i) as E. rewrite <- E.
  apply (fw_block _ _ _ W); [rewrite maxfile_140; lia|]. rewrite E. lia.
Qed.

Lemma used_frame sb view view' n :
  sb_ok sb → view' (sb_bmapstart sb) = view (sb_bmapstart sb) → 0 ≤ n < sb_size sb →
  used sb view' n ↔ used sb view n.
Proof. intros Hsb Hm Hn. rewrite !used_bit by done. by rewrite Hm. Qed.

(** ... and a new size is fine when the blocks are there. *)
Lemma file_wf_frame sb view view' i sz :
  sb_ok sb → file_wf sb view i → (∀ n, data_block sb n → view' n = view n) →
  view' (sb_bmapstart sb) = view (sb_bmapstart sb) → 0 ≤ sz ≤ MAXFILE * BSIZE →
  (∀ bn, 0 ≤ bn → bn * BSIZE < sz → faddr view i bn ≠ 0) →
  file_wf sb view' (i_set_size sz i).
Proof.
  intros Hsb W Hv Hm Hsz Hf. pose proof (sb_bounds _ Hsb) as Hbd.
  assert (∀ k, fslot view' (i_set_size sz i) k = fslot view i k) as Hs by (intros k; by apply (fslot_frame sb view view' i k W)).
  split; try apply W; try done.
  - intros k Hk. rewrite Hs. intros Hz. destruct (fw_block _ _ _ W k Hk Hz) as [Hd Hu]. split; [done|].
    apply (used_frame sb view); [done|done| |done]. unfold data_block, datastart in Hd. lia.
  - intros k k' Hk Hk'. rewrite !Hs. by apply W.
  - intros bn Hb Hbs. specialize (Hf bn Hb Hbs). rewrite <- fslot_faddr in * by (simpl in Hbs; unfold BSIZE in *; lia). by rewrite Hs.
Qed.

(** What [writei] leaves: the bytes, the size, the inode on disk, and every
    block that is not the file's untouched. *)
Record written (sb : superblock) (t : txv) (i : inode) (off : Z) (data : list Z) (t' : txv) (i' : inode) : Prop := mk_written {
  wn_held : tv_held t' = ∅;
  wn_wf : file_wf sb (tv_view t') i';
  wn_map : map_wf sb (tv_view t');
  wn_inode : i' = i_set_size (Z.max (i_size i) (off + Z.of_nat (length data))) (i_set_addrs (i_addrs i') i);
  wn_bytes : ∀ o, 0 ≤ o < i_size i' → fbyte (tv_view t') i' o =
    if decide (off ≤ o < off + Z.of_nat (length data)) then nth (Z.to_nat (o - off)) data 0
    else fbyte (tv_view t) i o;
  wn_disk : disk_inode sb (tv_view t) (i_inum i) = i_dinode i →
    disk_inode sb (tv_view t') (i_inum i) = i_dinode i';
  wn_frame : ∀ n, n ∉ free_blocks sb (tv_view t) → n ≠ sb_bmapstart sb → n ≠ IBLOCK (i_inum i) sb →
    (∀ k, 0 ≤ k ≤ MAXFILE → n ≠ fslot (tv_view t) i k) → tv_view t' n = tv_view t n;
  wn_inodes : ∀ j, inum_ok sb j → j ≠ i_inum i →
    disk_inode sb (tv_view t') j = disk_inode sb (tv_view t) j;
  wn_logged : (size (tv_logged t') ≤ size (tv_logged t) + 3 + nblk off (Z.of_nat (length data)))%nat;
  wn_free : free_blocks sb (tv_view t') ⊆ free_blocks sb (tv_view t);
  wn_new : ∀ k, 0 ≤ k ≤ MAXFILE → fslot (tv_view t') i' k ≠ fslot (tv_view t) i k →
    fslot (tv_view t') i' k ∈ free_blocks sb (tv_view t);
  wn_space : (size (free_blocks sb (tv_view t)) + ind0 i' ≤
    size (free_blocks sb (tv_view t')) + nblk off (Z.of_nat (length data)) + ind0 i)%nat;
}.

Lemma tx_cost_le sb i t : (tx_cost sb i t ≤ size (tv_logged t) + 3)%nat.
Proof.
  unfold tx_cost, ind_set, ind0.
  pose proof (size_add_le (sb_bmapstart sb) ({[IBLOCK (i_inum i) sb]} ∪ tv_logged t) _ (reflexivity _)).
  pose proof (size_add_le (IBLOCK (i_inum i) sb) (tv_logged t) _ (reflexivity _)).
  destruct (iaddr i 12 =? 0).
  - replace (_ ∪ ∅) with ({[sb_bmapstart sb]} ∪ ({[IBLOCK (i_inum i) sb]} ∪ tv_logged t)) by set_solver. lia.
  - pose proof (size_add_le (iaddr i 12) ({[sb_bmapstart sb]} ∪ ({[IBLOCK (i_inum i) sb]} ∪ tv_logged t))
      (tv_logged t ∪ {[sb_bmapstart sb; IBLOCK (i_inum i) sb]} ∪ {[iaddr i 12]}) ltac:(set_solver)). lia.
Qed.

Section written.
Context (sb : superblock) (t : txv) (i : inode) (off : Z) (data : list Z) (t1 : txv) (i1 : inode).
Context (Hsb : sb_ok sb) (Hmap : map_wf sb (tv_view t)) (W : file_wf sb (tv_view t) i).
Context (Hoff : 0 ≤ off ≤ i_size i) (Hmax : off + Z.of_nat (length data) ≤ MAXFILE * BSIZE).
Context (Hinum : inum_ok sb (i_inum i)) (Hw : wrote sb t i off data t1 i1).

(** The inode blocks are none of the file's. *)
Lemma wrote_meta n : sb_inodestart sb ≤ n < sb_bmapstart sb → tv_view t1 n = tv_view t n.
Proof.
  intros Hn. pose proof (sb_bounds _ Hsb) as Hbd. apply (wr_ext _ _ _ _ _ _ _ Hw); [|lia|].
  - intros [_ Hu]%elem_of_free. apply Hu, Hmap. unfold datastart. lia.
  - intros k Hk ->. destruct (fw_block _ _ _ W k Hk ltac:(lia)) as [Hd _]. unfold data_block, datastart in Hd. lia.
Qed.

Lemma wrote_bytes o :
  0 ≤ o < Z.max (i_size i) (off + Z.of_nat (length data)) →
  faddr (tv_view t1) i1 (o / BSIZE) ≠ 0 ∧ fbyte (tv_view t1) i1 o =
    if decide (off ≤ o < off + Z.of_nat (length data)) then nth (Z.to_nat (o - off)) data 0 else fbyte (tv_view t) i o.
Proof.
  intros Ho. pose proof (fw_size _ _ _ W) as Hs. apply (wr_data _ _ _ _ _ _ _ Hw); [lia|].
  destruct (decide (off ≤ o < off + Z.of_nat (length data))); [by right|left].
  apply W; unfold BSIZE in *; dlia.
Qed.

Lemma written_same : off + Z.of_nat (length data) ≤ i_size i → written sb t i off data t1 i1.
Proof.
  intros Hin. pose proof (wr_same _ _ _ _ _ _ _ Hw Hin) as Ei. split; try apply Hw.
  - rewrite Ei, Z.max_l by lia. by destruct i.
  - intros o Ho. apply wrote_bytes. rewrite Ei in Ho. lia.
  - rewrite Ei. intros <-. unfold disk_inode. destruct (iblock_range sb _ Hsb Hinum) as [_ ?]. by rewrite wrote_meta.
  - intros n Hn Hm _ Hk. by apply (wr_ext _ _ _ _ _ _ _ Hw).
  - intros j Hj _. unfold disk_inode. destruct (iblock_range sb _ Hsb Hj) as [_ ?]. by rewrite wrote_meta.
  - pose proof (tx_cost_size sb i1 t1). pose proof (tx_cost_le sb i t). pose proof (wr_cost _ _ _ _ _ _ _ Hw). lia.
Qed.

Lemma wrote_size sz :
  Z.max (i_size i) (off + Z.of_nat (length data)) = sz → ∀ view', (∀ n, data_block sb n → view' n = tv_view t1 n) →
  view' (sb_bmapstart sb) = tv_view t1 (sb_bmapstart sb) → file_wf sb view' (i_set_size sz i1).
Proof.
  intros <- view' Hv Hm. pose proof (fw_size _ _ _ W) as Hs. eapply file_wf_frame; try done; [apply Hw|lia|].
  intros bn Hb Hbs. destruct (wrote_bytes (bn * BSIZE)) as [Hf _]; [unfold BSIZE in *; lia|].
  by replace (bn * BSIZE / BSIZE) with bn in Hf by (unfold BSIZE in *; dlia).
Qed.

Lemma fbyte_frame view view' j sz o :
  file_wf sb view j → (∀ n, data_block sb n → view' n = view n) → 0 ≤ o < MAXFILE * BSIZE →
  faddr view j (o / BSIZE) ≠ 0 → fbyte view' (i_set_size sz j) o = fbyte view j o.
Proof.
  intros Wj Hv Ho Hz. unfold fbyte. assert (0 ≤ o / BSIZE < MAXFILE) as Hb by (rewrite maxfile_140 in *; unfold BSIZE in *; dlia).
  change (faddr view' (i_set_size sz j)) with (faddr view' j).
  rewrite <- !fslot_faddr in * by done. rewrite (fslot_frame sb view view' j _ Wj Hv). rewrite Hv; [done|].
  apply Wj; [lia|done].
Qed.

Lemma written_grown i2 :
  shorts i → i_size i < off + Z.of_nat (length data) → i2 = i_set_size (off + Z.of_nat (length data)) i1 →
  block_ok (tv_view t1 (IBLOCK (i_inum i) sb)) →
  dinode_wf (i_dinode i2) ∧ written sb t i off data (tv_iupdate sb i2 t1) i2.
Proof.
  intros Hsh Hlt Hi2 Hok. pose proof (sb_bounds _ Hsb) as Hbd. pose proof (fw_size _ _ _ W) as Hs.
  destruct (iblock_range sb _ Hsb Hinum) as [_ Hib].
  pose proof (we_inode _ _ _ _ _ (wr_ext _ _ _ _ _ _ _ Hw)) as Ei1.
  assert (i_inum i2 = i_inum i) as En by (rewrite Hi2, Ei1; done).
  assert (∀ n, n ≠ IBLOCK (i_inum i) sb → tv_view (tv_iupdate sb i2 t1) n = tv_view t1 n) as Hv.
  { intros n Hn. unfold tv_iupdate. simpl. rewrite En. by apply fn_lookup_insert_ne. }
  assert (∀ n, data_block sb n → tv_view (tv_iupdate sb i2 t1) n = tv_view t1 n) as Hvd.
  { intros n Hn. apply Hv. unfold data_block, datastart in Hn. lia. }
  assert (file_wf sb (tv_view (tv_iupdate sb i2 t1)) i2) as W2.
  { rewrite Hi2 at 2. apply wrote_size; [lia|done|]. apply Hv. lia. }
  assert (dinode_wf (i_dinode i2)) as Hd2.
  { apply (file_dinode_wf sb _ _ Hsb W2). rewrite Hi2, Ei1. exact Hsh. }
  assert (free_blocks sb (tv_view (tv_iupdate sb i2 t1)) = free_blocks sb (tv_view t1)) as Hfree.
  { apply set_eq. intros n. rewrite !elem_of_free. destruct (decide (0 ≤ n < sb_size sb)); [|naive_solver].
    rewrite (used_frame sb (tv_view t1)); [done|done|apply Hv; lia|done]. }
  split; [done|]. split; try done.
  - apply Hw.
  - intros n Hn. unfold datastart in Hn. apply (used_frame sb (tv_view t1)); [done|apply Hv; lia|lia|].
    apply Hw. unfold datastart. lia.
  - rewrite Hi2, Z.max_r by lia. rewrite Ei1 at 1. done.
  - intros o Ho. rewrite Hi2 in Ho. simpl in Ho. destruct (wrote_bytes o ltac:(lia)) as [Hf <-].
    rewrite Hi2. rewrite <- Hi2 at 1. apply (fbyte_frame (tv_view t1)); try done; [apply Hw|lia].
  - intros _. rewrite <- En. apply disk_inode_iupdate; [done|]. by rewrite En.
  - intros n Hn Hm Hni Hk. rewrite Hv by done. by apply (wr_ext _ _ _ _ _ _ _ Hw).
  - intros j Hj Hne. rewrite disk_inode_other; try rewrite En; try done.
    unfold disk_inode. destruct (iblock_range sb _ Hsb Hj) as [_ ?]. by rewrite wrote_meta.
  - assert (tv_logged (tv_iupdate sb i2 t1) = {[IBLOCK (i_inum i1) sb]} ∪ tv_logged t1) as El.
    { unfold tv_iupdate. simpl. rewrite Hi2. done. }
    pose proof (tx_cost_le sb i t). pose proof (wr_cost _ _ _ _ _ _ _ Hw). rewrite El. unfold tx_cost at 1 in H0.
    pose proof (subseteq_size ({[IBLOCK (i_inum i1) sb]} ∪ tv_logged t1)
      (tv_logged t1 ∪ {[sb_bmapstart sb; IBLOCK (i_inum i1) sb]} ∪ ind_set i1) ltac:(set_solver)). lia.
  - rewrite Hfree. apply (wr_ext _ _ _ _ _ _ _ Hw).
  - intros k Hk. rewrite Hi2 at 2 4. change (fslot ?v (i_set_size ?z i1) k) with (fslot v i1 k).
    rewrite (fslot_frame sb (tv_view t1)); [|apply Hw|done]. by apply (wr_ext _ _ _ _ _ _ _ Hw).
  - rewrite Hfree, Hi2. apply (wr_space _ _ _ _ _ _ _ Hw).
Qed.

End written.

(** ** The loops *)

Section rw.
Context {D : Type} `{DiskFlushOk D} `{!DiskDriverOk D}.
Implicit Types (s : fstate D) (t : txv).

Lemma fbytes_app view i off m n : 0 ≤ m → 0 ≤ n → fbytes view i off (m + n) = fbytes view i off m ++ fbytes view i (off + m) n.
Proof. intros. unfold fbytes. by rewrite seqZ_app, fmap_app by lia. Qed.

Lemma fbytes_chunk view i off m :
  0 ≤ off → 0 ≤ m → off mod BSIZE + m ≤ BSIZE → length (view (faddr view i (off / BSIZE))) = 512%nat →
  slice (Z.to_nat (off mod BSIZE)) (Z.to_nat m) (view (faddr view i (off / BSIZE))) = fbytes view i off m.
Proof.
  intros Ho Hm Hb Hl. apply list_eq. intros k. rewrite lookup_slice. unfold fbytes. rewrite list_lookup_fmap.
  case_decide as Hk.
  - rewrite lookup_seqZ_lt by lia. cbn [fmap option_fmap option_map]. unfold fbyte.
    replace ((off + Z.of_nat k) / BSIZE) with (off / BSIZE) by (unfold BSIZE in *; dlia).
    destruct (lookup_lt_is_Some_2 (view (faddr view i (off / BSIZE))) (Z.to_nat (off mod BSIZE) + k)) as [x Hx].
    { unfold BSIZE in *. dlia. }
    etransitivity; [exact Hx|]. rewrite nth_lookup.
    replace (Z.to_nat ((off + Z.of_nat k) mod BSIZE)) with (Z.to_nat (off mod BSIZE) + k)%nat by (unfold BSIZE in *; dlia).
    by rewrite Hx.
  - by rewrite lookup_seqZ_ge by lia.
Qed.

Lemma readi_loop_run pid s t ip i fuel tot off n :
  txrep pid s t → tv_held t = ∅ → tx_room t → f_icache s !! ip = Some i →
  file_wf (f_sb s) (tv_view t) i → 0 ≤ off → tot ≤ n → off + (n - tot) ≤ i_size i →
  (Z.to_nat (n - tot) < fuel)%nat →
  ∃ l', readi_loop fuel ip tot off n pid s = Ret (fbytes (tv_view t) i off (n - tot)) (f_set_log l' s) ∧
    txrep pid (f_set_log l' s) t.
Proof.
  revert s tot off. induction fuel as [|fuel IH]; intros s tot off Ht Hh Hr Hi W Ho Htot Hs Hf; [lia|].
  cbn [readi_loop]. destruct (tot <? n) eqn:E; cycle 1.
  { exists (f_log s). replace (n - tot) with 0 by lia. split; [by destruct s|by destruct s]. }
  pose proof (fw_size _ _ _ W) as Hsz. set (bn := off / BSIZE). set (m := Z.min (n - tot) (BSIZE - off mod BSIZE)).
  assert (0 ≤ bn < MAXFILE) as Hbn by (rewrite maxfile_140 in *; unfold bn, BSIZE in *; dlia).
  assert (faddr (tv_view t) i bn ≠ 0) as Hz by (apply W; unfold bn, BSIZE in *; dlia).
  destruct (bmap_hit pid s t ip i bn Ht Hh Hr Hi W Hbn Hz) as (l1 & E1 & Ht1).
  set (a := faddr (tv_view t) i bn) in *.
  assert (data_block (f_sb s) a) as Hd.
  { unfold a. rewrite <- fslot_faddr in * by done. apply W; [lia|]. unfold a in Hz. by rewrite <- fslot_faddr in Hz. }
  pose proof (sb_bounds _ (proj1 Ht)) as Hbd. unfold data_block, datastart in Hd.
  destruct (tx_read pid _ t a Ht1) as (b & l2 & l3 & E2 & E3 & E4 & Ht2); [unfold FSSIZE; lia|by rewrite Hh|done|].
  assert (0 < m ≤ n - tot) as Hm by (unfold m, BSIZE; dlia).
  destruct (IH (f_set_log l3 s) (tot + m) (off + m) Ht2 Hh Hr Hi W) as (l4 & E5 & Ht3); [lia..|].
  exists l4. split; [|exact Ht3].
  mrun (iat_run pid s ip i Hi). mrun E1. rewrite (fw_dev _ _ _ W). mrun E2. mrun E3. mrun E4. mrun E5.
  replace (n - tot) with (m + (n - (tot + m))) by lia. rewrite fbytes_app by lia.
  unfold a, bn. rewrite fbytes_chunk; [done|lia|lia|unfold m, BSIZE; dlia|].
  apply (txrep_view _ _ _ _ Ht).
Qed.

Lemma iupdate_run pid s t ip i :
  txrep pid s t → tv_held t !! IBLOCK (i_inum i) (f_sb s) = None → tx_budget 0 t → f_icache s !! ip = Some i →
  i_dev i = ROOTDEV → inum_ok (f_sb s) (i_inum i) → dinode_wf (i_dinode i) →
  ∃ l', iupdate ip pid s = Ret tt (f_set_log l' s) ∧ txrep pid (f_set_log l' s) (tv_iupdate (f_sb s) i t).
Proof.
  intros Ht Hh Hb Hi Hd Hn Hw. pose proof (sb_bounds _ (proj1 Ht)) as Hbd.
  destruct (iblock_range _ _ (proj1 Ht) Hn) as [_ Hr]. set (n := IBLOCK _ _) in *.
  pose proof (txrep_view _ _ _ n Ht) as [Hl Hby]. change (Z.to_nat BSIZE) with 512%nat in Hl.
  pose proof (ioff_range (i_inum i)) as Hio. pose proof (length_di_encode _ Hw) as Hle.
  change (Z.to_nat SIZEOF_DINODE) with 64%nat in Hle.
  destruct (tx_rmw pid s t n (splice (ioff (i_inum i)) (di_encode (i_dinode i)) (tv_view t n))
    (i_inum i mod IPB * SIZEOF_DINODE) SIZEOF_DINODE Ht) as (b & l1 & l2 & l3 & l4 & E1 & E2 & E3 & E4 & E5 & Ht'); try done.
  { unfold FSSIZE. lia. }
  { apply not_log_area; [apply Ht|lia]. }
  { apply block_ok_splice; [change (Z.to_nat BSIZE) with 512%nat; lia|apply bytes_di_encode|done]. }
  { unfold range_ok. change IPB with 8. change SIZEOF_DINODE with 64. unfold BSIZE. dlia. }
  { intros k Hk. rewrite lookup_splice by lia. rewrite decide_False; [done|]. revert Hk. rewrite Hle. unfold ioff.
    change IPB with 8. change SIZEOF_DINODE with 64. dlia. }
  exists l4. split; [|exact Ht']. unfold iupdate. mrun (iat_run pid s ip i Hi). mstep. rewrite Hd. fold n.
  mrun E1. mrun E2. mrun E3. mrun E4. exact E5.
Qed.

Context (devsw_read : Z → option (Z → M (fstate D) (Z * list Z))).

Lemma readi_run pid s t ip i off n :
  txrep pid s t → tv_held t = ∅ → tx_room t → f_icache s !! ip = Some i →
  file_wf (f_sb s) (tv_view t) i → i_type i ≠ T_DEV → 0 ≤ off ≤ i_size i → 0 ≤ n → off + n < 2 ^ 32 →
  ∃ l', readi devsw_read ip off n pid s =
      Ret (Z.min n (i_size i - off), fbytes (tv_view t) i off (Z.min n (i_size i - off))) (f_set_log l' s) ∧
    txrep pid (f_set_log l' s) t.
Proof.
  intros Ht Hh Hr Hi W Hty Ho Hn Hov. pose proof (fw_size _ _ _ W) as Hsz. rewrite maxfile_140 in Hsz. unfold BSIZE in Hsz.
  set (m := Z.min n (i_size i - off)).
  destruct (readi_loop_run pid s t ip i (S (Z.to_nat m)) 0 off m Ht Hh Hr Hi W) as (l' & E & Ht'); [lia..|].
  exists l'. split; [|done]. unfold readi. mrun (iat_run pid s ip i Hi).
  rewrite (proj2 (Z.eqb_neq _ _)) by done. rewrite u32_small by lia.
  rewrite (proj2 (Z.ltb_ge _ _)), (proj2 (Z.ltb_ge (off + n) off)) by lia. cbn [orb].
  replace (if i_size i <? off + n then u32 (i_size i - off) else n) with m.
  - rewrite Z.sub_0_r in E. mrun E. rewrite s32_small by lia. done.
  - unfold m. destruct (i_size i <? off + n) eqn:Ec; [rewrite u32_small by lia|]; lia.
Qed.

End rw.

Section write.
Context {D : Type} `{DiskFlushOk D} `{!DiskDriverOk D}.
Implicit Types (s : fstate D) (t : txv).

Lemma f_put_put ip i1 l1 i2 l2 s : f_put ip i2 l2 (f_put ip i1 l1 s) = f_put ip i2 l2 s.
Proof. unfold f_put, f_set_icache, f_set_log. simpl. by rewrite list_insert_insert_eq. Qed.

Lemma f_put_lookup ip i i1 l1 s : f_icache s !! ip = Some i → f_icache (f_put ip i1 l1 s) !! ip = Some i1.
Proof. intros E. simpl. apply list_lookup_insert_eq. by eapply lookup_lt_Some. Qed.

(** A block of the file changed and handed to the log or to the disk. *)
Lemma write_one pid s t a off (chunk : list Z) (dir : bool) :
  txrep pid s t → tv_held t = ∅ → (size (tv_logged t) ≤ 28)%nat → data_block (f_sb s) a →
  0 ≤ off → off mod BSIZE + Z.of_nat (length chunk) ≤ BSIZE → bytes chunk →
  let d : block := splice (Z.to_nat (off mod BSIZE)) chunk (tv_view t a) in
  ∃ b l1 l2 l3 l4 t2, f_bread ROOTDEV a pid s = Ret b (f_set_log l1 s) ∧
    f_bdata b pid (f_set_log l1 s) = Ret (tv_view t a) (f_set_log l1 s) ∧
    f_bset b d pid (f_set_log l1 s) = Ret tt (f_set_log l2 s) ∧
    (if dir then f_log_write b (off mod BSIZE) (Z.of_nat (length chunk)) else f_bwrite b) pid (f_set_log l2 s) =
      Ret tt (f_set_log l3 s) ∧
    f_brelse b pid (f_set_log l3 s) = Ret tt (f_set_log l4 s) ∧ txrep pid (f_set_log l4 s) t2 ∧
    tv_view t2 = <[a := d]> (tv_view t) ∧ tv_held t2 = ∅ ∧ tv_logged t2 ⊆ {[a]} ∪ tv_logged t.
Proof.
  intros Ht Hh Hlg Hd Ho Hc Hb d. pose proof (sb_bounds _ (proj1 Ht)) as Hbd. unfold data_block, datastart in Hd.
  pose proof (txrep_view _ _ _ a Ht) as Hok. destruct Hok as [Hl Hby]. change (Z.to_nat BSIZE) with 512%nat in Hl.
  assert (block_ok d) as Hdok by (apply block_ok_splice; [unfold BSIZE in *; dlia|done|done]).
  assert (¬ fs_log_area (f_sb s) a) as Hla by (apply not_log_area; [apply Ht|lia]).
  destruct (tx_bread pid s t a Ht) as (b & l1 & E1 & Ht1); [unfold FSSIZE; lia|by rewrite Hh| |].
  { unfold tx_room. rewrite Hh, dom_empty_L, union_empty_r_L. unfold NBUF. lia. }
  rewrite Hh, insert_empty in Ht1. set (t1 := tv_set_held _ t) in Ht1.
  assert (tv_held t1 !! a = Some b) as Hb1 by apply lookup_singleton_eq.
  pose proof (tx_bdata _ _ _ _ _ Ht1 Hb1) as E2.
  assert (∃ l2 l3 t2, f_bset b d pid (f_set_log l1 s) = Ret tt (f_set_log l2 s) ∧
    (if dir then f_log_write b (off mod BSIZE) (Z.of_nat (length chunk)) else f_bwrite b) pid (f_set_log l2 s) =
      Ret tt (f_set_log l3 s) ∧ txrep pid (f_set_log l3 s) t2 ∧
    tv_view t2 = <[a := d]> (tv_view t) ∧ tv_held t2 = {[a := b]} ∧ tv_logged t2 ⊆ {[a]} ∪ tv_logged t)
    as (l2 & l3 & t2 & E3 & E4 & Ht2 & Hv & Hh2 & Hl2).
  { destruct dir.
    - destruct (tx_update pid _ t1 a b d (off mod BSIZE) (Z.of_nat (length chunk)) Ht1 Hb1 Hla Hdok)
        as (l2 & l3 & E3 & E4 & Ht2); try done.
      { unfold range_ok, BSIZE in *. dlia. }
      { intros k Hk. unfold d. rewrite lookup_splice by (unfold BSIZE in *; dlia). rewrite decide_False; [done|].
        unfold BSIZE in *. dlia. }
      exists l2, l3. eexists. split_and!; [done..|]. done.
    - destruct (tx_write pid _ t1 a b d Ht1 Hb1 Hla Hdok) as (l2 & l3 & E3 & E4 & Ht2).
      exists l2, l3. eexists. split_and!; [done..|]. simpl. set_solver. }
  assert (tv_held t2 !! a = Some b) as Hb2 by (rewrite Hh2; apply lookup_singleton_eq).
  destruct (tx_brelse _ _ _ a b Ht2 Hb2) as (l4 & E5 & Ht3).
  exists b, l1, l2, l3, l4. eexists. split_and!; try done. simpl. rewrite Hh2. apply delete_singleton_eq.
Qed.

Lemma slice_app_tail off m n (l : list Z) : slice off (m + n) l = slice off m l ++ slice (off + m) n l.
Proof.
  unfold slice. rewrite <- drop_drop. rewrite <- (take_drop m (drop off l)) at 1.
  rewrite take_app. rewrite length_take. destruct (decide (m ≤ length (drop off l))%nat).
  - rewrite Nat.min_l by done. rewrite take_ge by (rewrite length_take; lia). do 2 f_equal. lia.
  - rewrite (drop_ge (drop off l)) by lia. rewrite !take_nil, !app_nil_r. rewrite take_take. f_equal. lia.
Qed.

(** One round of the loop. *)
Lemma writei_step pid src n ip s t i tot off :
  txrep pid s t → tv_held t = ∅ → map_wf (f_sb s) (tv_view t) → f_icache s !! ip = Some i →
  file_wf (f_sb s) (tv_view t) i → 0 ≤ off → 0 ≤ tot < n → off + (n - tot) ≤ MAXFILE * BSIZE →
  n ≤ Z.of_nat (length src) → bytes src → (tx_cost (f_sb s) i t + 1 ≤ 28)%nat →
  (1 + ind0 i ≤ size (free_blocks (f_sb s) (tv_view t)))%nat →
  let m := Z.min (n - tot) (BSIZE - off mod BSIZE) in
  ∃ l' i' t', (∀ fuel, writei_loop (S fuel) ip src tot off n pid s =
      writei_loop fuel ip src (tot + m) (off + m) n pid (f_put ip i' l' s)) ∧
    txrep pid (f_put ip i' l' s) t' ∧ wrote (f_sb s) t i off (slice (Z.to_nat tot) (Z.to_nat m) src) t' i' ∧
    (size (free_blocks (f_sb s) (tv_view t)) + ind0 i' ≤ size (free_blocks (f_sb s) (tv_view t')) + 1 + ind0 i)%nat.
Proof.
  intros Ht Hh Hmap Hi W Ho Htot Hmax Hsrc Hby Hc Hsp m. set (bn := off / BSIZE).
  assert (0 < m ≤ n - tot ∧ off mod BSIZE + m ≤ BSIZE) as [Hm Hmb] by (unfold m, BSIZE; dlia).
  assert (0 ≤ bn < MAXFILE) as Hbn by (rewrite maxfile_140 in *; unfold bn, BSIZE in *; dlia).
  destruct (bmap_run pid s t ip i bn Ht Hh Hmap Hi W Hbn Hc Hsp) as (a & l1 & i1 & t1 & E1 & Ht1 & M).
  destruct (step_slot _ _ _ _ _ _ _ Hbn M) as (_ & Haz & Hd & _).
  set (chunk := slice (Z.to_nat tot) (Z.to_nat m) src).
  assert (length chunk = Z.to_nat m) as Hcl by (apply length_slice; lia).
  pose proof (tx_cost_size (f_sb s) i1 t1) as Hsz. pose proof (mp_cost _ _ _ _ _ _ _ M) as Hmc.
  destruct (write_one pid _ t1 a off chunk (i_type i1 =? T_DIR) Ht1 (mp_held _ _ _ _ _ _ _ M))
    as (b & l2 & l3 & l4 & l5 & t2 & E2 & E3 & E4 & E5 & E6 & Ht2 & Hv2 & Hh2 & Hl2); try done; [lia|lia|by apply bytes_slice|].
  rewrite Hcl, Z2Nat.id in E5 by lia. set (d := splice _ chunk _ : block) in *.
  pose proof (step_wf (f_sb s) t i bn a t1 i1 d (proj1 Ht) Hbn M) as [W2 Hmap2].
  exists l5, i1, t2. split_and!; [|exact Ht2| |].
  - intros fuel. cbn [writei_loop]. rewrite (proj2 (Z.ltb_lt _ _)) by lia.
    mrun (iat_run pid s ip i Hi). mrun E1. rewrite (fw_dev _ _ _ W). mrun E2. mrun E3. mrun E4.
    mrun (iat_run pid (f_set_log l3 (f_put ip i1 l1 s)) ip i1 (f_put_lookup ip i i1 l3 s Hi)).
    mrun E5. mrun E6. done.
  - split; rewrite ?Hv2; try done.
    + apply (step_wext (f_sb s) t i bn a t1 i1 d (proj1 Ht) Hbn M).
    + apply (step_fwrote (f_sb s)); try done; [apply Ht|apply Hbn|by eapply txrep_view|]. rewrite Hcl. unfold BSIZE in *. dlia.
    + pose proof (step_cost _ _ _ _ _ _ _ _ M Hl2). rewrite Hcl, Z2Nat.id by lia.
      pose proof (nblk_step off m m Ho ltac:(lia)) as Hnb. rewrite Z.sub_diag in Hnb. lia.
    + intros Hin. destruct (mp_case _ _ _ _ _ _ _ M) as [[_ ->]|(Hz & _)]; [done|].
      destruct (fw_full _ _ _ W bn); [lia| |done]. unfold bn, BSIZE in *. dlia.
    + rewrite (step_free _ _ _ _ _ _ _ _ (proj1 Ht) Hbn M), Hcl, Z2Nat.id by lia.
      pose proof (nblk_step off m m Ho ltac:(lia)) as Hnb. rewrite Z.sub_diag in Hnb. pose proof (mp_space _ _ _ _ _ _ _ M). lia.
  - rewrite Hv2, (step_free _ _ _ _ _ _ _ _ (proj1 Ht) Hbn M). apply M.
Qed.

Lemma wrote_app sb t i off d1 t1 i1 d2 t2 i2 :
  (nblk off (Z.of_nat (length (d1 ++ d2))) = nblk off (Z.of_nat (length d1)) + nblk (off + Z.of_nat (length d1)) (Z.of_nat (length d2)))%nat →
  wrote sb t i off d1 t1 i1 → wrote sb t1 i1 (off + Z.of_nat (length d1)) d2 t2 i2 →
  wrote sb t i off (d1 ++ d2) t2 i2.
Proof.
  intros Hn W1 W2. split; try apply W2.
  - eapply wext_trans; [apply W1|apply W2].
  - eapply fwrote_app; [apply W1|apply W2].
  - pose proof (wr_cost _ _ _ _ _ _ _ W1). pose proof (wr_cost _ _ _ _ _ _ _ W2). lia.
  - rewrite length_app. intros Hin. assert (i1 = i) as -> by (apply (wr_same _ _ _ _ _ _ _ W1); lia).
    apply (wr_same _ _ _ _ _ _ _ W2). lia.
  - pose proof (wr_space _ _ _ _ _ _ _ W1). pose proof (wr_space _ _ _ _ _ _ _ W2). lia.
Qed.

Lemma writei_loop_run pid fuel src n ip : ∀ s t i tot off,
  txrep pid s t → tv_held t = ∅ → map_wf (f_sb s) (tv_view t) → f_icache s !! ip = Some i →
  file_wf (f_sb s) (tv_view t) i → 0 ≤ off → 0 ≤ tot ≤ n → off + (n - tot) ≤ MAXFILE * BSIZE →
  n ≤ Z.of_nat (length src) → bytes src →
  (tx_cost (f_sb s) i t + nblk off (n - tot) ≤ 28)%nat →
  (nblk off (n - tot) + ind0 i ≤ size (free_blocks (f_sb s) (tv_view t)))%nat →
  (Z.to_nat (n - tot) < fuel)%nat →
  ∃ l' i' t', writei_loop fuel ip src tot off n pid s = Ret (off + (n - tot)) (f_put ip i' l' s) ∧
    txrep pid (f_put ip i' l' s) t' ∧
    wrote (f_sb s) t i off (slice (Z.to_nat tot) (Z.to_nat (n - tot)) src) t' i'.
Proof.
  induction fuel as [|fuel IH]; intros s t i tot off Ht Hh Hmap Hi W Ho Htot Hmax Hsrc Hby Hc Hsp Hf; [lia|].
  destruct (decide (tot < n)) as [Hlt|Hge]; cycle 1.
  { replace (n - tot) with 0 in * by lia. exists (f_log s), i, t. rewrite f_put_id by done. cbn [writei_loop].
    rewrite (proj2 (Z.ltb_ge _ _)), Z.add_0_r by lia. split; [by destruct s|]. split; [by destruct s|].
    split; try done; [apply wext_refl|apply fwrote_nil|lia|lia]. }
  set (m := Z.min (n - tot) (BSIZE - off mod BSIZE)).
  assert (0 < m ≤ n - tot) as Hm by (unfold m, BSIZE; dlia).
  pose proof (nblk_step off (n - tot) m Ho ltac:(lia) eq_refl) as Hnb.
  destruct (writei_step pid src n ip s t i tot off Ht Hh Hmap Hi W) as (l1 & i1 & t1 & E1 & Ht1 & Hw1 & Hs1); [lia..|done|lia|lia|].
  fold m in E1, Hw1. set (d1 := slice (Z.to_nat tot) (Z.to_nat m) src) in *.
  assert (Z.of_nat (length d1) = m) as Hd1 by (unfold d1; rewrite length_slice; lia).
  pose proof (nblk_step off m m Ho ltac:(lia) ltac:(unfold m; lia)) as Hnb1. rewrite Z.sub_diag in Hnb1.
  assert (nblk (off + m) 0 = 0%nat) as Hnb0 by done.
  pose proof (wr_cost _ _ _ _ _ _ _ Hw1) as Hc1. rewrite Hd1 in Hc1.
  destruct (IH (f_put ip i1 l1 s) t1 i1 (tot + m) (off + m) Ht1) as (l2 & i2 & t2 & E2 & Ht2 & Hw2);
    try apply Hw1; try done; try lia.
  { by eapply f_put_lookup. }
  { replace (n - (tot + m)) with (n - tot - m) by lia. cbn [f_sb f_put f_set_icache f_set_log]. lia. }
  { replace (n - (tot + m)) with (n - tot - m) by lia. cbn [f_sb f_put f_set_icache f_set_log]. lia. }
  rewrite f_put_put in *. exists l2, i2, t2. split; [rewrite E1, E2; f_equal; lia|]. split; [done|].
  replace (Z.to_nat (n - tot)) with (Z.to_nat m + Z.to_nat (n - (tot + m)))%nat by lia.
  rewrite slice_app_tail. fold d1. replace (Z.to_nat tot + Z.to_nat m)%nat with (Z.to_nat (tot + m)) by lia.
  eapply wrote_app; [|exact Hw1|by rewrite Hd1].
  rewrite length_app, Nat2Z.inj_add, Hd1, length_slice by lia.
  replace (m + Z.of_nat (Z.to_nat (n - (tot + m)))) with (n - tot) by lia.
  replace (Z.of_nat (Z.to_nat (n - (tot + m)))) with (n - tot - m) by lia. lia.
Qed.

Context (devsw_write : Z → option (list Z → M (fstate D) Z)).

Lemma writei_run pid s t ip i src off n :
  txrep pid s t → tv_held t = ∅ → map_wf (f_sb s) (tv_view t) → f_icache s !! ip = Some i →
  file_wf (f_sb s) (tv_view t) i → shorts i → inum_ok (f_sb s) (i_inum i) → i_type i ≠ T_DEV →
  0 ≤ off ≤ i_size i → 0 ≤ n → off + n ≤ MAXFILE * BSIZE → n ≤ Z.of_nat (length src) → bytes src →
  (tx_cost (f_sb s) i t + nblk off n ≤ 28)%nat →
  (nblk off n + ind0 i ≤ size (free_blocks (f_sb s) (tv_view t)))%nat →
  ∃ l' i' t', writei devsw_write ip src off n pid s = Ret n (f_put ip i' l' s) ∧
    txrep pid (f_put ip i' l' s) t' ∧ written (f_sb s) t i off (take (Z.to_nat n) src) t' i'.
Proof.
  intros Ht Hh Hmap Hi W Hsh Hin Hty Hoff Hn Hmax Hsrc Hby Hc Hsp. pose proof (fw_size _ _ _ W) as Hsz.
  assert (off + n ≤ 71680) as Hmax' by (rewrite maxfile_140 in Hmax; unfold BSIZE in *; lia).
  destruct (writei_loop_run pid (S (Z.to_nat n)) src n ip s t i 0 off) as (l1 & i1 & t1 & E1 & Ht1 & Hw);
    rewrite ?Z.sub_0_r in *; try done; try lia.
  change (slice (Z.to_nat 0) (Z.to_nat n) src) with (take (Z.to_nat n) src) in Hw. set (data := take (Z.to_nat n) src) in *.
  assert (Z.of_nat (length data) = n) as Hdl by (unfold data; rewrite length_take; lia).
  pose proof (we_inode _ _ _ _ _ (wr_ext _ _ _ _ _ _ _ Hw)) as Ei1.
  assert (i_size i1 = i_size i ∧ i_inum i1 = i_inum i ∧ i_dev i1 = ROOTDEV) as (Es & En & Ed).
  { rewrite Ei1. split_and!; try done. apply W. }
  pose proof (f_put_lookup ip i i1 l1 s Hi) as Hi1.
  assert (∀ o s', ((if (0 <? n) && (i_size i1 <? off + n) then iset ip (i_set_size (off + n)) ;; iupdate ip else mret tt)
      pid (f_put ip i1 l1 s) = Ret o s') → writei devsw_write ip src off n pid s = Ret n s') as Hrun.
  { intros o s' E. unfold writei. mrun (iat_run pid s ip i Hi). rewrite (proj2 (Z.eqb_neq _ _)), u32_small by (done || lia).
    rewrite (proj2 (Z.ltb_ge _ _)), (proj2 (Z.ltb_ge (off + n) off)) by lia. cbn [orb].
    rewrite (proj2 (Z.ltb_ge _ _)) by lia. mrun E1. mrun (iat_run pid _ ip i1 Hi1). mrun E.
    rewrite s32_small by lia. done. }
  rewrite Es in Hrun. destruct ((0 <? n) && (i_size i <? off + n)) eqn:Eg.
  - apply andb_true_iff in Eg as [_ Eg]. set (i2 := i_set_size (off + n) i1).
    assert (block_ok (tv_view t1 (IBLOCK (i_inum i) (f_sb s)))) as Hok by (by eapply txrep_view).
    destruct (written_grown (f_sb s) t i off data t1 i1 (proj1 Ht) Hmap W Hoff ltac:(lia) Hin Hw i2 Hsh) as [Hd2 Hwn];
      [lia|by rewrite Hdl|done|].
    destruct (iupdate_run pid (f_put ip i2 l1 s) t1 ip i2) as (l2 & E2 & Ht2); try done.
    + by rewrite (wr_held _ _ _ _ _ _ _ Hw).
    + unfold tx_budget. rewrite (wr_held _ _ _ _ _ _ _ Hw), dom_empty_L, union_empty_r_L.
      pose proof (wr_cost _ _ _ _ _ _ _ Hw). pose proof (tx_cost_size (f_sb s) i1 t1). rewrite Hdl in *. lia.
    + by apply (f_put_lookup ip i).
    + unfold i2. simpl. by rewrite En.
    + exists l2, i2, (tv_iupdate (f_sb s) i2 t1). split; [|split; [exact Ht2|exact Hwn]].
      apply (Hrun tt). mrun (iset_run pid _ ip i1 (i_set_size (off + n)) Hi1).
      change (f_set_icache _ _) with (f_put ip i2 l1 (f_put ip i1 l1 s)). rewrite f_put_put. exact E2.
  - exists l1, i1, t1. split; [by apply (Hrun tt)|]. split; [done|].
    apply written_same; try done; [apply Ht|lia|]. rewrite Hdl. apply andb_false_iff in Eg. lia.
Qed.

End write.
