(* ===== verification/FsInode.v ===== *)
(** * The inode cache and truncation (iget, idup, ilock, iunlock, iput, itrunc of fs.c) *)

From S2P Require Import Prelude Layout Sleeplock Disk Bio BioSpec Crc32 Log LogImg LogSpec LogTxn CString Fs FsTx FsBlock FsFile FsRw.

(** ** The inode cache *)

(** An entry in use for inode [inum] of [dev]. *)
Definition names (i : inode) (dev inum : Z) : Prop := 0 < i_ref i ∧ i_dev i = dev ∧ i_inum i = inum.

#[global] Instance names_dec i dev inum : Decision (names i dev inum).
Proof. unfold names. apply _. Defined.

(** At most one entry of the cache is in use for an inode. *)
Definition icache_wf (c : list inode) : Prop :=
  (∀ p i, c !! p = Some i → 0 ≤ i_ref i) ∧
  (∀ p q i j, c !! p = Some i → c !! q = Some j → names i (i_dev j) (i_inum j) → 0 < i_ref j → p = q).

Lemma iget_scan_spec c dev inum k empty :
  (∀ p i, c !! p = Some i → 0 ≤ i_ref i) →
  match iget_scan c dev inum k empty with
  | inl ip => ∃ p i, ip = (k + p)%nat ∧ c !! p = Some i ∧ names i dev inum
  | inr r => (∀ p i, c !! p = Some i → ¬ names i dev inum) ∧
      match empty, r with
      | Some e, _ => r = Some e
      | None, Some ip => ∃ p i, ip = (k + p)%nat ∧ c !! p = Some i ∧ i_ref i = 0
      | None, None => ∀ p i, c !! p = Some i → i_ref i ≠ 0
      end
  end.
Proof.
  revert k empty. induction c as [|x c IH]; intros k empty Hc; simpl.
  { split; [done|]. by destruct empty. }
  assert (∀ p i, c !! p = Some i → 0 ≤ i_ref i) as Hc' by (intros p i Hp; by apply (Hc (S p))).
  destruct (_ && _ && _) eqn:E.
  - exists 0%nat, x. split; [lia|]. split; [done|]. unfold names. lia.
  - assert (¬ names x dev inum) as Hx by (unfold names; lia).
    specialize (IH (S k) (match empty with None => if i_ref x =? 0 then Some k else None | Some e => Some e end) Hc').
    destruct (iget_scan c dev inum (S k) _) as [ip|r].
    + destruct IH as (p & i & -> & Hp & Hn). exists (S p), i. split; [lia|]. done.
    + destruct IH as [Hno IH]. split; [intros [|p] i Hp; [by injection Hp as <-|by eapply Hno]|].
      destruct empty as [e|]; [done|]. destruct (i_ref x =? 0) eqn:E0; simpl in IH.
      * subst r. exists 0%nat, x. split; [lia|]. split; [done|lia].
      * destruct r as [ip|]; [destruct IH as (p & i & -> & Hp & Hr); exists (S p), i; split; [lia|done]|].
        intros [|p] i Hp; [injection Hp as <-; lia|by eapply IH].
Qed.

(** The entry [iget] returns: the one in use for the inode with one more
    reference, or a free one taken for it. *)
Definition got (c : list inode) (dev inum : Z) (ip : nat) (i' : inode) : Prop :=
  ∃ i, c !! ip = Some i ∧
    ((names i dev inum ∧ i' = i_set_ref (i_ref i + 1) i) ∨
     (i_ref i = 0 ∧ (∀ p j, c !! p = Some j → ¬ names j dev inum) ∧
      i' = i_set_valid 0 (i_set_ref 1 (i_set_id dev inum i)))).

Lemma got_names c dev inum ip i' : got c dev inum ip i' → names i' dev inum.
Proof. intros (i & _ & [[(? & ? & ?) ->]|(_ & _ & ->)]); unfold names; simpl; lia. Qed.

Lemma got_wf c dev inum ip i' : icache_wf c → got c dev inum ip i' → icache_wf (<[ip := i']> c).
Proof.
  intros [Hr Hu] Hg. pose proof (got_names _ _ _ _ _ Hg) as (Hp & Hd & Hn). destruct Hg as (i & Hi & Hcase).
  assert (ip < length c)%nat as Hlt by (by eapply lookup_lt_Some).
  assert (∀ p j, p ≠ ip → c !! p = Some j → ¬ names j dev inum) as Hother.
  { intros p j Hne Hj Hnj. destruct Hcase as [[(H1 & <- & <-) _]|(_ & Hno & _)]; [|by eapply Hno].
    apply Hne. by eapply Hu. }
  split.
  - intros p j Hj. apply list_lookup_insert_Some in Hj as [(<- & <- & _)|[_ Hj]]; [lia|by eapply Hr].
  - intros p q j j' Hj Hj' Hjn Hlive.
    apply list_lookup_insert_Some in Hj as [(<- & <- & _)|[Hne Hj]];
      apply list_lookup_insert_Some in Hj' as [(<- & <- & _)|[Hne' Hj']]; try done.
    + destruct (Hother q j'); [done..|]. destruct Hjn as (? & E1 & E2). unfold names. rewrite <- E1, <- E2. lia.
    + destruct (Hother p j); [done..|]. by rewrite Hd, Hn in Hjn.
    + by eapply Hu.
Qed.

(** Dropping a reference keeps the invariant. *)
Lemma icache_wf_ref c ip i i' :
  icache_wf c → c !! ip = Some i → i_dev i' = i_dev i → i_inum i' = i_inum i → 0 ≤ i_ref i' ≤ i_ref i →
  icache_wf (<[ip := i']> c).
Proof.
  intros [Hr Hu] Hi Hd Hn Hle. split.
  - intros p j Hj. apply list_lookup_insert_Some in Hj as [(<- & <- & _)|[_ Hj]]; [lia|by eapply Hr].
  - intros p q j j' Hj Hj' (Hp & E1 & E2) Hlive.
    apply list_lookup_insert_Some in Hj as [(<- & <- & _)|[Hne Hj]];
      apply list_lookup_insert_Some in Hj' as [(<- & <- & _)|[Hne' Hj']]; try done.
    + apply (Hu ip q i j'); [done..| |done]. unfold names. rewrite <- Hd, <- Hn. lia.
    + apply (Hu p ip j i); [done..| |lia]. unfold names. rewrite <- Hd, <- Hn. lia.
    + apply (Hu p q j j'); [done..| |done]. done.
Qed.

Section inode.
Context {D : Type} `{DiskFlushOk D} `{!DiskDriverOk D}.
Implicit Types (s : fstate D) (t : txv).

Definition iget_room (c : list inode) (dev inum : Z) : Prop :=
  ∃ p i, c !! p = Some i ∧ (i_ref i = 0 ∨ names i dev inum).

Lemma iget_run pid s dev inum :
  icache_wf (f_icache s) → iget_room (f_icache s) dev inum →
  ∃ ip i', iget dev inum pid s = Ret ip (f_set_icache (<[ip := i']> (f_icache s)) s) ∧
    got (f_icache s) dev inum ip i'.
Proof.
  intros [Hr Hu] (p0 & i0 & Hp0 & Hcase). unfold iget.
  pose proof (iget_scan_spec (f_icache s) dev inum 0 None Hr) as Hs.
  destruct (iget_scan _ _ _ _ _) as [ip|[ip|]] eqn:E.
  - destruct Hs as (p & i & -> & Hp & Hn). exists p. eexists. split.
    { mstep. rewrite E. mrun (iset_run pid s p i (λ i, i_set_ref (i_ref i + 1) i) Hp). done. }
    exists i. split; [done|]. by left.
  - destruct Hs as [Hno (p & i & -> & Hp & Hn)]. exists p. eexists. split.
    { mstep. rewrite E. mrun (iset_run pid s p i (λ i, i_set_valid 0 (i_set_ref 1 (i_set_id dev inum i))) Hp). done. }
    exists i. split; [done|]. by right.
  - destruct Hs as [Hno Hall]. destruct Hcase as [Hz|Hn]; [by destruct (Hall p0 i0)|by destruct (Hno p0 i0)].
Qed.

Lemma iget_panics pid s dev inum :
  icache_wf (f_icache s) → ¬ iget_room (f_icache s) dev inum →
  iget dev inum pid s = Panicked "iget: no inodes" s.
Proof.
  intros [Hr Hu] Hno. unfold iget. pose proof (iget_scan_spec (f_icache s) dev inum 0 None Hr) as Hs.
  mstep. destruct (iget_scan _ _ _ _ _) as [ip|[ip|]] eqn:E; [..|done]; exfalso; apply Hno.
  - destruct Hs as (p & i & -> & Hp & Hn). by exists p, i; auto.
  - destruct Hs as [_ (p & i & -> & Hp & Hn)]. by exists p, i; auto.
Qed.

(** ** Truncation *)

(** [t'] is [t] with the blocks of [F] freed. *)
Record freed (sb : superblock) (t : txv) (F : gset Z) (t' : txv) : Prop := mk_freed {
  fd_held : tv_held t' = tv_held t;
  fd_logged : tv_logged t' ⊆ {[sb_bmapstart sb]} ∪ tv_logged t;
  fd_view : ∀ n, n ≠ sb_bmapstart sb → tv_view t' n = tv_view t n;
  fd_used : ∀ n, 0 ≤ n < sb_size sb → used sb (tv_view t') n ↔ used sb (tv_view t) n ∧ n ∉ F;
}.

Lemma freed_refl sb t : freed sb t ∅ t.
Proof. split; try done; set_solver. Qed.

Lemma freed_set_held sb t F t' h : freed sb t F t' → freed sb (tv_set_held h t) F (tv_set_held h t').
Proof. intros Hf. split; try apply Hf. done. Qed.

Lemma freed_release sb t F t' h :
  tv_held t = ∅ → freed sb (tv_set_held h t) F t' → freed sb t F (tv_set_held ∅ t').
Proof. intros Hh Hf. split; try apply Hf. done. Qed.

Lemma freed_run pid s t F t' b :
  txrep pid s t' → freed (f_sb s) t F t' → tv_held t !! sb_bmapstart (f_sb s) = None →
  (size ({[sb_bmapstart (f_sb s)]} ∪ tv_logged t ∪ dom (tv_held t)) ≤ 28)%nat →
  data_block (f_sb s) b → used (f_sb s) (tv_view t) b → b ∉ F →
  ∃ l' t'', bfree ROOTDEV b pid s = Ret tt (f_set_log l' s) ∧ txrep pid (f_set_log l' s) t'' ∧
    freed (f_sb s) t ({[b]} ∪ F) t''.
Proof.
  intros Ht Hf Hm Hb Hd Hu HF. pose proof (sb_bounds _ (proj1 Ht)) as Hbd. unfold data_block, datastart in Hd.
  destruct (bfree_run pid s t' b Ht) as (l' & E & Ht'); [lia| | | |].
  { by rewrite (fd_held _ _ _ _ Hf). }
  { unfold tx_budget. rewrite (fd_held _ _ _ _ Hf). pose proof (fd_logged _ _ _ _ Hf).
    pose proof (subseteq_size (tv_logged t' ∪ dom (tv_held t))
      ({[sb_bmapstart (f_sb s)]} ∪ tv_logged t ∪ dom (tv_held t)) ltac:(set_solver)). lia. }
  { apply Hf; [lia|done]. }
  exists l'. eexists. split; [exact E|]. split; [exact Ht'|]. unfold tv_free. split; simpl.
  - apply Hf.
  - pose proof (fd_logged _ _ _ _ Hf). set_solver.
  - intros n Hn. rewrite fn_lookup_insert_ne by done. by apply Hf.
  - intros n Hn. pose proof (used_free (f_sb s) t' b n (proj1 Ht) (txrep_view _ _ _ _ Ht) ltac:(lia) Hn) as Hun.
    unfold tv_free in Hun. simpl in Hun. rewrite Hun, (fd_used _ _ _ _ Hf) by done. set_solver.
Qed.

(** The addresses of the file among its first [k] direct blocks, and among the
    first [j] entries of the indirect block. *)
Definition slots (view : Z → block) (i : inode) (lo : Z) (n : nat) : gset Z :=
  list_to_set (filter (λ a, a ≠ 0) (fslot view i <$> seqZ lo (Z.of_nat n))).

Lemma slots_S view i lo n :
  slots view i lo (S n) = (if decide (fslot view i (lo + Z.of_nat n) = 0) then ∅ else {[fslot view i (lo + Z.of_nat n)]}) ∪ slots view i lo n.
Proof.
  unfold slots. replace (Z.of_nat (S n)) with (Z.of_nat n + 1) by lia. rewrite seqZ_app by lia.
  rewrite fmap_app, filter_app, list_to_set_app_L. rewrite (seqZ_cons _ 1) by lia. change (Z.pred 1) with 0. cbn [seqZ].
  rewrite fmap_cons. simpl. rewrite filter_cons. case_decide; case_decide; simpl; try done; set_solver.
Qed.

Lemma elem_of_slots view i lo n a :
  a ∈ slots view i lo n ↔ a ≠ 0 ∧ ∃ k, lo ≤ k < lo + Z.of_nat n ∧ fslot view i k = a.
Proof.
  unfold slots. rewrite elem_of_list_to_set, list_elem_of_filter, list_elem_of_fmap.
  split; [intros (Hz & k & -> & Hk%elem_of_seqZ); eauto|intros (Hz & k & Hk & <-)].
  split; [done|]. exists k. by rewrite elem_of_seqZ.
Qed.

Definition clear_addrs (j : nat) (i : inode) : inode := i_set_addrs (replicate j 0 ++ drop j (i_addrs i)) i.

Lemma clear_addrs_S j i x :
  i_addrs i !! j = Some x → <[j := 0]> (i_addrs (clear_addrs j i)) = i_addrs (clear_addrs (S j) i).
Proof.
  intros Hx. unfold clear_addrs. cbn [i_addrs i_set_addrs]. rewrite (drop_S _ x) by done. rewrite insert_app_r_alt by (rewrite length_replicate; lia).
  rewrite length_replicate, Nat.sub_diag. cbn [insert list_insert].
  rewrite replicate_S_end, <- app_assoc. done.
Qed.

Lemma clear_addrs_lookup j i x : i_addrs i !! j = Some x → i_addrs (clear_addrs j i) !! j = Some x.
Proof.
  intros Hx. simpl. rewrite lookup_app_r by (rewrite length_replicate; lia).
  by rewrite length_replicate, Nat.sub_diag, lookup_drop, Nat.add_0_r.
Qed.

(** [itrunc] before the inode is written back. *)
Definition itrunc_blocks (ip : nat) : M (fstate D) unit :=
  forM (seqZ 0 NDIRECT) (itrunc_direct ip) ;;
  i ← iat ip;
  addr ← aget (i_addrs i) NDIRECT;
  (if addr =? 0 then mret tt
   else
     bp ← f_bread (i_dev i) addr;
     forM (seqZ 0 NINDIRECT) (itrunc_indirect (i_dev i) bp) ;;
     f_brelse bp ;;
     bfree (i_dev i) addr ;;
     iset ip (λ i, i_set_addrs (<[Z.to_nat NDIRECT := 0]> (i_addrs i)) i)).

Lemma itrunc_split ip pid s :
  itrunc ip pid s = (itrunc_blocks ip ;; iset ip (i_set_size 0) ;; iupdate ip) pid s.
Proof.
  unfold itrunc, itrunc_blocks, mbind, M_bind. destruct (forM _ _ pid s) as [[] s1| | |]; try done.
  destruct (iat ip pid s1) as [i s2| | |]; try done. by destruct (aget _ _ pid s2).
Qed.

(** What the truncation needs of the transaction. *)
Definition trunc_room sb t (i : inode) : Prop :=
  (size ({[sb_bmapstart sb]} ∪ tv_logged t ∪ ind_set i) ≤ 28)%nat.

Lemma trunc_room_le sb t i X :
  trunc_room sb t i → X ⊆ {[sb_bmapstart sb]} ∪ tv_logged t → (size X ≤ 28)%nat.
Proof.
  unfold trunc_room. intros Hr HX. pose proof (subseteq_size X ({[sb_bmapstart sb]} ∪ tv_logged t ∪ ind_set i) ltac:(set_solver)). lia.
Qed.

Section trunc.
Context (pid : Z) (s : fstate D) (t : txv) (ip : nat) (i : inode).
Context (Hh : tv_held t = ∅) (Hi : f_icache s !! ip = Some i) (W : file_wf (f_sb s) (tv_view t) i).
Context (Hroom : trunc_room (f_sb s) t i).

Lemma fslot_direct (j : nat) : (j < 12)%nat → fslot (tv_view t) i (Z.of_nat j) = iaddr i j.
Proof.
  intros. unfold fslot, faddr, NDIRECT. rewrite maxfile_140, (proj2 (Z.eqb_neq _ _)), (proj2 (Z.ltb_lt _ _)), Nat2Z.id by lia. done.
Qed.

Lemma slot_fresh k lo (n : nat) :
  0 ≤ lo → lo + Z.of_nat n ≤ MAXFILE + 1 → 0 ≤ k ≤ MAXFILE → ¬ (lo ≤ k < lo + Z.of_nat n) → fslot (tv_view t) i k ≠ 0 →
  fslot (tv_view t) i k ∉ slots (tv_view t) i lo n.
Proof.
  intros Hlo Hn Hk Hout Hz (_ & k' & Hk' & E)%elem_of_slots. apply Hout.
  assert (k' = k) as ->; [|done]. apply (fw_inj _ _ _ W); [lia|lia|congruence|done].
Qed.

Lemma itrunc_direct_run (j : nat) :
  (j < 12)%nat →
  triple pid (λ s', ∃ l' t', s' = f_put ip (clear_addrs j i) l' s ∧ txrep pid s' t' ∧
                     freed (f_sb s) t (slots (tv_view t) i 0 j) t')
    (itrunc_direct ip (Z.of_nat j))
    (λ _ s', ∃ l' t', s' = f_put ip (clear_addrs (S j) i) l' s ∧ txrep pid s' t' ∧
                     freed (f_sb s) t (slots (tv_view t) i 0 (S j)) t').
Proof.
  intros Hj s' (l' & t' & -> & Ht & Hf). pose proof (iaddr_lookup i j (fw_len _ _ _ W) ltac:(lia)) as Hx.
  pose proof (f_put_lookup ip i (clear_addrs j i) l' s Hi) as Hi'.
  pose proof (fslot_direct j Hj) as Hs.
  assert (∀ r, itrunc_direct ip (Z.of_nat j) pid (f_put ip (clear_addrs j i) l' s) = r ↔
    (if iaddr i j =? 0 then mret tt else bfree ROOTDEV (iaddr i j) ;;
      iset ip (λ i, i_set_addrs (<[j := 0]> (i_addrs i)) i)) pid (f_put ip (clear_addrs j i) l' s) = r) as Hrun.
  { intros r. unfold itrunc_direct. rewrite (bind_Ret _ _ _ _ _ _ (iat_run pid _ ip _ Hi')).
    rewrite (bind_Ret _ _ _ _ _ _ (aget_Ret _ j pid _ _ (clear_addrs_lookup j i _ Hx))). change (i_dev (clear_addrs j i)) with (i_dev i). by rewrite (fw_dev _ _ _ W), Nat2Z.id. }
  destruct (iaddr i j =? 0) eqn:Ez.
  - eexists _, _. split; [by apply Hrun|]. exists l', t'. assert (iaddr i j = 0) as Hz by lia. split; [|split; [done|]].
    + f_equal. pose proof (clear_addrs_S j i _ Hx) as E. rewrite list_insert_id in E
        by (rewrite <- Hz; by apply clear_addrs_lookup). unfold clear_addrs in *. simpl in E. by rewrite E.
    + rewrite slots_S, Z.add_0_l, Hs, decide_True by lia. by rewrite union_empty_l_L.
  - assert (fslot (tv_view t) i (Z.of_nat j) ≠ 0) as Hnz by lia.
    destruct (fw_block _ _ _ W (Z.of_nat j) ltac:(rewrite maxfile_140; lia) Hnz) as [Hd Hu].
    destruct (freed_run pid _ t _ t' (iaddr i j) Ht Hf) as (l2 & t2 & E2 & Ht2 & Hf2); rewrite ?Hh, <- ?Hs; try done.
    { rewrite dom_empty_L, union_empty_r_L. by apply (trunc_room_le _ _ _ _ Hroom). }
    { pose proof maxfile_140. apply slot_fresh; lia. }
    pose proof (iset_run pid (f_set_log l2 (f_put ip (clear_addrs j i) l' s)) ip (clear_addrs j i)
      (λ i, i_set_addrs (<[j := 0]> (i_addrs i)) i) Hi') as E3.
    cbv beta in E3. rewrite (clear_addrs_S j i _ Hx) in E3.
    eexists _, _. split; [apply Hrun; mrun E2; exact E3|]. exists l2, t2.
    split; [exact (f_put_put ip _ l2 _ l2 s)|]. split; [exact Ht2|].
    rewrite slots_S, Z.add_0_l, Hs, decide_False by lia. done.
Qed.

Lemma fslot_entry (j : nat) :
  (j < 128)%nat → iaddr i 12 ≠ 0 → fslot (tv_view t) i (12 + Z.of_nat j) = rd32 (4 * j) (tv_view t (iaddr i 12)).
Proof.
  intros Hj Hz. unfold fslot, faddr, NDIRECT.
  rewrite maxfile_140, (proj2 (Z.eqb_neq _ _)), (proj2 (Z.ltb_ge _ _)), (proj2 (Z.eqb_neq _ _)) by (done || lia).
  by replace (Z.to_nat (12 + Z.of_nat j - 12)) with j by lia.
Qed.

Lemma itrunc_indirect_run (s1 : fstate D) b (j : nat) :
  f_sb s1 = f_sb s → (j < 128)%nat → iaddr i 12 ≠ 0 →
  let th := tv_set_held {[iaddr i 12 := b]} t in
  triple pid (λ s', ∃ l' t', s' = f_set_log l' s1 ∧ txrep pid s' t' ∧
                     freed (f_sb s) th (slots (tv_view t) i 0 (12 + j)) t')
    (itrunc_indirect ROOTDEV b (Z.of_nat j))
    (λ _ s', ∃ l' t', s' = f_set_log l' s1 ∧ txrep pid s' t' ∧
                     freed (f_sb s) th (slots (tv_view t) i 0 (12 + S j)) t').
Proof.
  intros Hsb Hj Hz th s' (l' & t' & -> & Ht & Hf). pose proof maxfile_140 as Hmf.
  destruct (fw_block _ _ _ W MAXFILE ltac:(lia)) as [Hdi Hui]; rewrite ?fslot_ind in *; [done|].
  assert (iaddr i 12 ≠ sb_bmapstart (f_sb s)) as Him by (unfold data_block, datastart in Hdi; lia).
  assert (tv_held t' !! iaddr i 12 = Some b) as Hb by (rewrite (fd_held _ _ _ _ Hf); apply lookup_singleton_eq).
  pose proof (tx_bdata _ _ _ _ _ Ht Hb) as E1. rewrite (fd_view _ _ _ _ Hf) in E1 by done.
  change (tv_view th (iaddr i 12)) with (tv_view t (iaddr i 12)) in E1.
  pose proof (fslot_entry j Hj Hz) as Hs. replace (12 + S j)%nat with (S (12 + j)) by lia. rewrite slots_S.
  replace (0 + Z.of_nat (12 + j)) with (12 + Z.of_nat j) by lia. unfold itrunc_indirect.
  destruct (decide (fslot (tv_view t) i (12 + Z.of_nat j) = 0)) as [E0|E0].
  - exists tt. eexists. split; [mrun E1; by rewrite Nat2Z.id, <- Hs, E0|]. exists l', t'. by rewrite union_empty_l_L.
  - destruct (fw_block _ _ _ W (12 + Z.of_nat j) ltac:(lia) E0) as [Hd Hu].
    destruct (freed_run pid (f_set_log l' s1) th (slots (tv_view t) i 0 (12 + j)) t' (fslot (tv_view t) i (12 + Z.of_nat j)) Ht) as (l2 & t2 & E2 & Ht2 & Hf2);
      cbn [f_sb f_set_log]; rewrite ?Hsb; try done.
    + by apply lookup_singleton_ne.
    + simpl. rewrite dom_singleton_L, <- ind_set_0 by done. exact Hroom.
    + apply slot_fresh; lia.
    + cbn [f_sb f_set_log] in Hf2. rewrite Hsb in Hf2. exists tt. eexists. split; [|exists l2, t2; split; [reflexivity|done]].
      mrun E1. rewrite Nat2Z.id, <- Hs, (proj2 (Z.eqb_neq _ _)) by done. exact E2.
Qed.

(** No indirect block: only direct blocks. *)
Lemma slots_direct : iaddr i 12 = 0 → slots (tv_view t) i 0 141 = slots (tv_view t) i 0 12.
Proof.
  intros Hz. apply set_eq. intros a. rewrite !elem_of_slots. pose proof maxfile_140.
  split; intros (Ha & k & Hk & E); (split; [done|exists k; split; [|done]]); [|lia].
  destruct (decide (k < 12)); [lia|]. destruct Ha. rewrite <- E. unfold fslot, faddr, NDIRECT.
  destruct (k =? MAXFILE); [done|]. rewrite (proj2 (Z.ltb_ge _ _)), Hz by lia. done.
Qed.

(** The first loop. *)
Lemma itrunc_directs :
  txrep pid s t →
  ∃ l' t', forM (seqZ 0 NDIRECT) (itrunc_direct ip) pid s = Ret tt (f_put ip (clear_addrs 12 i) l' s) ∧
    txrep pid (f_put ip (clear_addrs 12 i) l' s) t' ∧ freed (f_sb s) t (slots (tv_view t) i 0 12) t'.
Proof.
  intros Ht. pose proof (triple_forZ pid (λ j s', ∃ l' t', s' = f_put ip (clear_addrs j i) l' s ∧ txrep pid s' t' ∧
    freed (f_sb s) t (slots (tv_view t) i 0 j) t') (itrunc_direct ip) NDIRECT) as Hl.
  destruct (Hl (λ j Hj, itrunc_direct_run j Hj) s) as ([] & s1 & E & l1 & t1 & -> & Ht1 & Hf1); [|by exists l1, t1].
  exists (f_log s), t. split; [|split; [done|apply freed_refl]].
  replace (clear_addrs 0 i) with i by (by destruct i). rewrite f_put_id by done. by destruct s.
Qed.

(** The indirect block: its entries, then itself. *)
Lemma itrunc_indirects l1 t1 :
  iaddr i 12 ≠ 0 → txrep pid (f_put ip (clear_addrs 12 i) l1 s) t1 → freed (f_sb s) t (slots (tv_view t) i 0 12) t1 →
  ∃ b l2 l3 l4 l5 t5,
    f_bread ROOTDEV (iaddr i 12) pid (f_put ip (clear_addrs 12 i) l1 s) = Ret b (f_put ip (clear_addrs 12 i) l2 s) ∧
    forM (seqZ 0 NINDIRECT) (itrunc_indirect ROOTDEV b) pid (f_put ip (clear_addrs 12 i) l2 s) =
      Ret tt (f_put ip (clear_addrs 12 i) l3 s) ∧
    f_brelse b pid (f_put ip (clear_addrs 12 i) l3 s) = Ret tt (f_put ip (clear_addrs 12 i) l4 s) ∧
    bfree ROOTDEV (iaddr i 12) pid (f_put ip (clear_addrs 12 i) l4 s) = Ret tt (f_put ip (clear_addrs 12 i) l5 s) ∧
    txrep pid (f_put ip (clear_addrs 12 i) l5 s) t5 ∧ freed (f_sb s) t (slots (tv_view t) i 0 141) t5.
Proof.
  intros Hz Ht Hf. pose proof maxfile_140 as Hmf. pose proof (sb_bounds _ (proj1 Ht)) as Hbd. simpl f_sb in Hbd.
  destruct (fw_block _ _ _ W MAXFILE ltac:(lia)) as [Hdi Hui]; rewrite ?fslot_ind in *; [done|].
  assert (tv_held t1 = ∅) as Hh1 by (by rewrite (fd_held _ _ _ _ Hf)).
  set (s1 := f_put ip (clear_addrs 12 i) l1 s) in *.
  destruct (tx_bread pid s1 t1 (iaddr i 12) Ht) as (b & l2 & E1 & Ht2); [unfold FSSIZE, data_block, datastart in *; lia|by rewrite Hh1| |].
  { unfold tx_room. rewrite Hh1, dom_empty_L, union_empty_r_L. pose proof (trunc_room_le _ _ _ _ Hroom (fd_logged _ _ _ _ Hf)). unfold NBUF. lia. }
  rewrite Hh1, insert_empty in Ht2.
  pose proof (triple_forZ pid (λ j s', ∃ l' t', s' = f_set_log l' s1 ∧ txrep pid s' t' ∧
    freed (f_sb s) (tv_set_held {[iaddr i 12 := b]} t) (slots (tv_view t) i 0 (12 + j)) t') (itrunc_indirect ROOTDEV b) NINDIRECT) as Hl.
  destruct (Hl (λ j Hj, itrunc_indirect_run s1 b j eq_refl Hj Hz) (f_set_log l2 s1)) as ([] & s3 & E2 & l3 & t3 & -> & Ht3 & Hf3).
  { exists l2. eexists. split; [done|]. split; [exact Ht2|]. by apply freed_set_held. }
  assert (tv_held t3 !! iaddr i 12 = Some b) as Hb3 by (rewrite (fd_held _ _ _ _ Hf3); apply lookup_singleton_eq).
  destruct (tx_brelse _ _ _ _ _ Ht3 Hb3) as (l4 & E3 & Ht4).
  replace (delete (iaddr i 12) (tv_held t3)) with (∅ : gmap Z nat) in Ht4
    by (rewrite (fd_held _ _ _ _ Hf3); simpl; by rewrite delete_singleton_eq).
  apply freed_release in Hf3; [|done].
  destruct (freed_run pid _ t _ _ (iaddr i 12) Ht4 Hf3) as (l5 & t5 & E4 & Ht5 & Hf5); try done.
  { by rewrite Hh. }
  { rewrite Hh, dom_empty_L, union_empty_r_L. by apply (trunc_room_le _ _ _ _ Hroom). }
  { rewrite <- (fslot_ind (tv_view t)). change (12 + Z.to_nat NINDIRECT)%nat with 140%nat. apply slot_fresh; rewrite ?fslot_ind; lia. }
  exists b, l2, l3, l4, l5, t5. split_and!; try done. change 141%nat with (S (12 + Z.to_nat NINDIRECT)).
  rewrite slots_S. change (0 + Z.of_nat (12 + Z.to_nat NINDIRECT)) with MAXFILE. rewrite fslot_ind, decide_False by done. exact Hf5.
Qed.

Lemma clear_addrs_12 : iaddr i 12 = 0 → clear_addrs 12 i = clear_addrs 13 i.
Proof.
  intros Hz. pose proof (iaddr_lookup i 12 (fw_len _ _ _ W) ltac:(lia)) as Hx.
  pose proof (clear_addrs_S 12 i _ Hx) as E. rewrite list_insert_id in E by (rewrite <- Hz; by apply clear_addrs_lookup).
  unfold clear_addrs in *. simpl in E. simpl. by rewrite E.
Qed.

Lemma itrunc_freed :
  txrep pid s t →
  ∃ l' t', itrunc_blocks ip pid s =
      Ret tt (f_put ip (clear_addrs 13 i) l' s) ∧
    txrep pid (f_put ip (clear_addrs 13 i) l' s) t' ∧ freed (f_sb s) t (slots (tv_view t) i 0 141) t'.
Proof.
  intros Ht. unfold itrunc_blocks. destruct (itrunc_directs Ht) as (l1 & t1 & E1 & Ht1 & Hf1).
  pose proof (iaddr_lookup i 12 (fw_len _ _ _ W) ltac:(lia)) as Hx.
  pose proof (f_put_lookup ip i (clear_addrs 12 i) l1 s Hi) as Hi1.
  pose proof (aget_Ret _ 12 pid (f_put ip (clear_addrs 12 i) l1 s) _ (clear_addrs_lookup 12 i _ Hx)) as E2.
  destruct (decide (iaddr i 12 = 0)) as [Hz|Hz].
  - exists l1, t1. rewrite <- clear_addrs_12, slots_direct by done. split; [|done].
    mrun E1. mrun (iat_run pid _ ip _ Hi1). mrun E2. by rewrite Hz, Z.eqb_refl.
  - destruct (itrunc_indirects l1 t1 Hz Ht1 Hf1) as (b & l2 & l3 & l4 & l5 & t5 & E3 & E4 & E5 & E6 & Ht5 & Hf5).
    exists l5, t5. split; [|done]. mrun E1. mrun (iat_run pid _ ip _ Hi1). mrun E2.
    rewrite (proj2 (Z.eqb_neq _ _)) by done.
    change (i_dev (clear_addrs 12 i)) with (i_dev i). rewrite (fw_dev _ _ _ W). mrun E3. mrun E4. mrun E5. mrun E6.
    rewrite (iset_run pid _ ip (clear_addrs 12 i)) by (by eapply f_put_lookup). cbv beta.
    change (Z.to_nat NDIRECT) with 12%nat. rewrite (clear_addrs_S 12 i _ Hx).
    exact (f_equal (Ret tt) (f_put_put ip _ l5 _ l5 s)).
Qed.

End trunc.

(** A truncated file: its blocks are free, it is empty, and only the free map
    and its inode block were written. *)
Record truncated (sb : superblock) t (i : inode) (t' : txv) (i' : inode) : Prop := mk_truncated {
  tc_inode : i' = i_set_size 0 (i_set_addrs (replicate 13 0) i);
  tc_held : tv_held t' = ∅;
  tc_wf : file_wf sb (tv_view t') i';
  tc_map : map_wf sb (tv_view t');
  tc_free : free_blocks sb (tv_view t') = free_blocks sb (tv_view t) ∪ slots (tv_view t) i 0 141;
  tc_disk : disk_inode sb (tv_view t') (i_inum i) = i_dinode i';
  tc_inodes : ∀ j, inum_ok sb j → j ≠ i_inum i → disk_inode sb (tv_view t') j = disk_inode sb (tv_view t) j;
  tc_frame : ∀ n, n ≠ sb_bmapstart sb → n ≠ IBLOCK (i_inum i) sb → tv_view t' n = tv_view t n;
  tc_logged : tv_logged t' ⊆ {[sb_bmapstart sb; IBLOCK (i_inum i) sb]} ∪ tv_logged t;
}.

Definition empty_file (i : inode) : inode := i_set_size 0 (i_set_addrs (replicate 13 0) i).

Lemma empty_fslot view i k : fslot view (empty_file i) k = 0.
Proof.
  assert (∀ j, iaddr (empty_file i) j = 0) as Hz.
  { intros j. unfold iaddr, empty_file. simpl. do 14 (destruct j as [|j]; [done|]). done. }
  unfold fslot, faddr. repeat case_match; by rewrite ?Hz.
Qed.

Lemma empty_file_wf sb view i : i_dev i = ROOTDEV → file_wf sb view (empty_file i).
Proof.
  intros Hd. split; try done.
  - intros k Hk. by rewrite empty_fslot.
  - intros k k' Hk Hk'. by rewrite empty_fslot.
  - intros bn Hb Hs. simpl in Hs. unfold BSIZE in Hs. lia.
Qed.

Lemma freed_truncated sb t i t5 :
  sb_ok sb → map_wf sb (tv_view t) → file_wf sb (tv_view t) i → inum_ok sb (i_inum i) → shorts i → tv_held t = ∅ →
  (∀ n, block_ok (tv_view t5 n)) →
  freed sb t (slots (tv_view t) i 0 141) t5 →
  dinode_wf (i_dinode (empty_file i)) ∧ truncated sb t i (tv_iupdate sb (empty_file i) t5) (empty_file i).
Proof.
  intros Hsb Hmap W Hn Hsh Hh Hok Hf. pose proof (sb_bounds _ Hsb) as Hbd. destruct (iblock_range sb _ Hsb Hn) as [_ Hib].
  pose proof (empty_file_wf sb (tv_view t) i (fw_dev _ _ _ W)) as We.
  pose proof (file_dinode_wf sb _ _ Hsb We Hsh) as Hd. pose proof maxfile_140 as Hmf.
  assert (tv_view (tv_iupdate sb (empty_file i) t5) (sb_bmapstart sb) = tv_view t5 (sb_bmapstart sb)) as Hvm.
  { unfold tv_iupdate. simpl. apply fn_lookup_insert_ne. lia. }
  assert (∀ n, 0 ≤ n < sb_size sb → used sb (tv_view (tv_iupdate sb (empty_file i) t5)) n ↔
    used sb (tv_view t) n ∧ n ∉ slots (tv_view t) i 0 141) as Hu.
  { intros n Hnn. rewrite (used_frame sb (tv_view t5)) by done. by apply Hf. }
  assert (∀ n, n ∈ slots (tv_view t) i 0 141 → data_block sb n) as Hsl.
  { intros n (Hz & k & Hk & <-)%elem_of_slots. apply (fw_block _ _ _ W); [lia|done]. }
  split; [done|]. split.
  - done.
  - simpl. by rewrite (fd_held _ _ _ _ Hf).
  - apply empty_file_wf, W.
  - intros n Hnn. unfold datastart in Hnn. apply Hu; [lia|]. split; [apply Hmap; unfold datastart; lia|].
    intros Hin%Hsl. unfold data_block, datastart in Hin. lia.
  - apply set_eq. intros n. rewrite elem_of_union, !elem_of_free. split.
    + intros [Hr Hnu]. rewrite Hu in Hnu by done. destruct (decide (n ∈ slots (tv_view t) i 0 141)); [by right|left].
      split; [done|]. tauto.
    + intros [[Hr Hnu]|Hin]; [split; [done|]; rewrite Hu by done; tauto|].
      pose proof (Hsl n Hin) as Hdn. unfold data_block, datastart in Hdn. split; [lia|]. rewrite Hu by lia. tauto.
  - apply (disk_inode_iupdate sb t5 (empty_file i) Hd). apply Hok.
  - intros j Hj Hne. rewrite (disk_inode_other sb t5 (empty_file i) j Hsb Hn Hj Hne Hd (Hok _)).
    unfold disk_inode. destruct (iblock_range sb _ Hsb Hj) as [_ ?]. rewrite (fd_view _ _ _ _ Hf) by lia. done.
  - intros n Hnm Hni. unfold tv_iupdate. simpl. rewrite fn_lookup_insert_ne by done. by apply Hf.
  - unfold tv_iupdate. simpl. pose proof (fd_logged _ _ _ _ Hf) as Hl. clear -Hl. set_solver.
Qed.

Lemma itrunc_run pid s t ip i :
  txrep pid s t → tv_held t = ∅ → map_wf (f_sb s) (tv_view t) → f_icache s !! ip = Some i →
  file_wf (f_sb s) (tv_view t) i → inum_ok (f_sb s) (i_inum i) → shorts i → trunc_room (f_sb s) t i →
  ∃ l' t', itrunc ip pid s = Ret tt (f_put ip (empty_file i) l' s) ∧
    txrep pid (f_put ip (empty_file i) l' s) t' ∧ truncated (f_sb s) t i t' (empty_file i).
Proof.
  intros Ht Hh Hmap Hi W Hn Hsh Hr.
  destruct (itrunc_freed pid s t ip i Hh Hi W Hr Ht) as (l1 & t1 & E1 & Ht1 & Hf).
  destruct (freed_truncated (f_sb s) t i t1 (proj1 Ht) Hmap W Hn Hsh Hh (λ n, txrep_view _ _ _ n Ht1) Hf) as [Hd Htr].
  pose proof (f_put_lookup ip i (clear_addrs 13 i) l1 s Hi) as Hi1.
  assert (i_set_size 0 (clear_addrs 13 i) = empty_file i) as Ee.
  { unfold empty_file, clear_addrs. rewrite drop_ge, app_nil_r by (rewrite (fw_len _ _ _ W); lia). done. }
  destruct (iupdate_run pid (f_put ip (empty_file i) l1 s) t1 ip (empty_file i)) as (l2 & E2 & Ht2); try done.
  - by rewrite (fd_held _ _ _ _ Hf), Hh.
  - unfold tx_budget. rewrite (fd_held _ _ _ _ Hf), Hh, dom_empty_L, union_empty_r_L.
    pose proof (trunc_room_le _ _ _ _ Hr (fd_logged _ _ _ _ Hf)). lia.
  - by eapply f_put_lookup.
  - apply W.
  - exists l2. eexists. split; [|split; [exact Ht2|exact Htr]]. rewrite itrunc_split. mrun E1.
    mrun (iset_run pid _ ip _ (i_set_size 0) Hi1). rewrite Ee.
    etransitivity; [|exact E2]. f_equal. exact (f_put_put ip _ l1 _ l1 s).
Qed.

(** ** Locking an inode, dropping a reference *)

Definition i_locked (pid : Z) (i : inode) : inode := i_set_lock (mk_sleeplock 1 pid) i.
Definition i_unlocked (i : inode) : inode := i_set_lock initsleeplock i.

(** What [ilock] loads. *)
Definition i_loaded (pid : Z) (d : dinode) (i : inode) : inode := i_set_valid 1 (i_load d (i_locked pid i)).

Lemma ilock_acquire_run pid s ip i :
  f_icache s !! ip = Some i → sl_locked (i_lock i) = 0 →
  ilock_acquire ip pid s = Ret tt (f_put ip (i_locked pid i) (f_log s) s).
Proof.
  intros Hi Hl. unfold ilock_acquire. cbv [mypid]. rewrite (bind_Ret _ _ _ _ pid s eq_refl). cbv beta.
  mrun (iat_run pid s ip i Hi). unfold acquiresleep. rewrite Hl, Z.eqb_refl.
  rewrite (iset_run pid s ip i) by done. by destruct s.
Qed.

(** Releasing a buffer does not look at the inode cache. *)
Lemma f_brelse_frame pid b s s' l :
  f_brelse b pid s = Ret tt (f_set_log l s) → f_log s' = f_log s → f_brelse b pid s' = Ret tt (f_set_log l s').
Proof.
  unfold f_brelse, lift. simpl. intros E ->. destruct (brelse b pid (l_bio (f_log s))); try done.
  simpl in *. unfold f_set_log in *. inversion E; subst. done.
Qed.

Lemma ilock_run_load pid s t ip i :
  txrep pid s t → f_icache s !! ip = Some i → 1 ≤ i_ref i → sl_locked (i_lock i) = 0 → i_valid i = 0 →
  i_dev i = ROOTDEV → inum_ok (f_sb s) (i_inum i) → tv_held t !! IBLOCK (i_inum i) (f_sb s) = None → tx_room t →
  di_type (disk_inode (f_sb s) (tv_view t) (i_inum i)) ≠ 0 →
  ∃ l', ilock (Some ip) pid s = Ret tt (f_put ip (i_loaded pid (disk_inode (f_sb s) (tv_view t) (i_inum i)) i) l' s) ∧
    txrep pid (f_put ip (i_loaded pid (disk_inode (f_sb s) (tv_view t) (i_inum i)) i) l' s) t.
Proof.
  intros Ht Hi Hr Hlk Hv Hd Hn Hh Hrm Hty. destruct (iblock_range _ _ (proj1 Ht) Hn) as [_ Hib].
  pose proof (sb_bounds _ (proj1 Ht)) as Hbd. set (s1 := f_put ip (i_locked pid i) (f_log s) s).
  assert (txrep pid s1 t) as Ht1 by (by destruct s).
  pose proof (f_put_lookup ip i (i_locked pid i) (f_log s) s Hi) as Hi1.
  destruct (tx_read pid s1 t (IBLOCK (i_inum i) (f_sb s)) Ht1) as (b & l1 & l2 & E1 & E2 & E3 & Ht2); try done.
  { unfold FSSIZE. lia. }
  exists l2. split; [|exact Ht2]. unfold ilock. mrun (iat_run pid s ip i Hi). rewrite (proj2 (Z.ltb_ge _ _)) by lia.
  mrun (ilock_acquire_run pid s ip i Hi Hlk). fold s1. mrun (iat_run pid s1 ip _ Hi1). change (i_valid (i_locked pid i)) with (i_valid i). rewrite Hv, Z.eqb_refl. mstep.
  change (i_dev (i_locked pid i)) with (i_dev i). rewrite Hd. change (i_inum (i_locked pid i)) with (i_inum i).
  change (f_sb s1) with (f_sb s). mrun E1. mrun E2. fold (disk_inode (f_sb s) (tv_view t) (i_inum i)).
  set (d := disk_inode _ _ _) in *.
  mrun (iset_run pid (f_set_log l1 s1) ip (i_locked pid i) (i_load d) Hi1).
  change (f_set_icache _ (f_set_log l1 s1)) with (f_put ip (i_load d (i_locked pid i)) l1 s1). unfold s1. rewrite f_put_put.
  set (s2 := f_put ip (i_load d (i_locked pid i)) l1 s). mrun (f_brelse_frame pid b _ s2 l2 E3 eq_refl).
  pose proof (f_put_lookup ip i (i_load d (i_locked pid i)) l2 s Hi) as Hi2.
  mrun (iset_run pid (f_set_log l2 s2) ip _ (i_set_valid 1) Hi2).
  rewrite (proj2 (Z.eqb_neq _ _)) by done. exact (f_equal (Ret tt) (f_put_put ip _ l1 _ l2 s)).
Qed.

Lemma ilock_run_valid pid s ip i :
  f_icache s !! ip = Some i → 1 ≤ i_ref i → sl_locked (i_lock i) = 0 → i_valid i ≠ 0 →
  ilock (Some ip) pid s = Ret tt (f_put ip (i_locked pid i) (f_log s) s).
Proof.
  intros Hi Hr Hlk Hv. unfold ilock. mrun (iat_run pid s ip i Hi). rewrite (proj2 (Z.ltb_ge _ _)) by lia.
  mrun (ilock_acquire_run pid s ip i Hi Hlk). mrun (iat_run pid _ ip _ (f_put_lookup ip i (i_locked pid i) (f_log s) s Hi)).
  change (i_valid (i_locked pid i)) with (i_valid i). by rewrite (proj2 (Z.eqb_neq _ _)).
Qed.

Lemma iunlock_run pid s ip i :
  f_icache s !! ip = Some i → 1 ≤ i_ref i → holdingsleep pid (i_lock i) = true →
  iunlock (Some ip) pid s = Ret tt (f_put ip (i_unlocked i) (f_log s) s).
Proof.
  intros Hi Hr Hl. unfold iunlock. cbv [mypid]. rewrite (bind_Ret _ _ _ _ pid s eq_refl). cbv beta.
  mrun (iat_run pid s ip i Hi). rewrite Hl. cbn [negb orb]. rewrite (proj2 (Z.ltb_ge _ _)) by lia.
  rewrite (iset_run pid s ip i) by done. by destruct s.
Qed.

(** The end of [iput]: the lock and the reference given up. *)
Definition i_dropped (i : inode) : inode := i_set_ref (i_ref i - 1) (i_unlocked i).

Lemma iput_tail pid s ip i :
  f_icache s !! ip = Some i →
  (iset ip (λ i, i_set_lock (releasesleep (i_lock i)) i) ;; iset ip (λ i, i_set_ref (i_ref i - 1) i)) pid s =
    Ret tt (f_put ip (i_dropped i) (f_log s) s).
Proof.
  intros Hi. mrun (iset_run pid s ip i (λ i, i_set_lock (releasesleep (i_lock i)) i) Hi).
  rewrite (iset_run pid _ ip (i_unlocked i)).
  - unfold f_put, f_set_icache, f_set_log. simpl. by rewrite list_insert_insert_eq.
  - simpl. apply list_lookup_insert_eq. by eapply lookup_lt_Some.
Qed.

(** A reference that is not the last of an unlinked inode. *)
Lemma iput_drop pid s ip i :
  f_icache s !! ip = Some i → sl_locked (i_lock i) = 0 → (i_valid i = 0 ∨ i_nlink i ≠ 0 ∨ i_ref i ≠ 1) →
  iput ip pid s = Ret tt (f_put ip (i_dropped i) (f_log s) s).
Proof.
  intros Hi Hlk Hc. unfold iput. mrun (ilock_acquire_run pid s ip i Hi Hlk).
  pose proof (f_put_lookup ip i (i_locked pid i) (f_log s) s Hi) as Hi1. mrun (iat_run pid _ ip _ Hi1).
  change (i_valid (i_locked pid i)) with (i_valid i). change (i_nlink (i_locked pid i)) with (i_nlink i).
  change (i_ref (i_locked pid i)) with (i_ref i).
  replace (if negb (i_valid i =? 0) && (i_nlink i =? 0) then if i_ref i =? 1 then _ else _ else _)
    with (mret tt : M (fstate D) unit).
  - mstep. rewrite (iput_tail pid _ ip _ Hi1). change (i_dropped (i_locked pid i)) with (i_dropped i).
    exact (f_equal (Ret tt) (f_put_put ip _ (f_log s) _ (f_log s) s)).
  - destruct (negb (i_valid i =? 0) && (i_nlink i =? 0)) eqn:E; [|done]. destruct (i_ref i =? 1) eqn:E1; [|done]. lia.
Qed.

(** The inode an unlinked file leaves: empty and of type 0. *)
Definition i_freed (i : inode) : inode := i_set_type 0 (empty_file i).

Lemma file_wf_lock sb view i lk : file_wf sb view i → file_wf sb view (i_set_lock lk i).
Proof. intros []. by split. Qed.

Lemma iput_last pid s t ip i :
  txrep pid s t → tv_held t = ∅ → map_wf (f_sb s) (tv_view t) → f_icache s !! ip = Some i →
  file_wf (f_sb s) (tv_view t) i → inum_ok (f_sb s) (i_inum i) → shorts i →
  (tx_cost (f_sb s) i t ≤ 28)%nat → sl_locked (i_lock i) = 0 → i_valid i ≠ 0 → i_nlink i = 0 → i_ref i = 1 →
  ∃ l' t1, let i' := i_dropped (i_set_valid 0 (i_freed i)) in
    iput ip pid s = Ret tt (f_put ip i' l' s) ∧ truncated (f_sb s) t i t1 (empty_file i) ∧
    disk_inode (f_sb s) (tv_view (tv_iupdate (f_sb s) (i_freed i) t1)) (i_inum i) = i_dinode (i_freed i) ∧
    txrep pid (f_put ip i' l' s) (tv_iupdate (f_sb s) (i_freed i) t1).
Proof.
  intros Ht Hh Hmap Hi W Hn Hsh Hc Hlk Hv Hnl Hr. set (s1 := f_put ip (i_locked pid i) (f_log s) s).
  pose proof (f_put_lookup ip i (i_locked pid i) (f_log s) s Hi) as Hi1.
  assert (txrep pid s1 t) as Ht1 by (by destruct s).
  assert (trunc_room (f_sb s) t i) as Hroom.
  { unfold trunc_room. unfold tx_cost in Hc. pose proof (subseteq_size ({[sb_bmapstart (f_sb s)]} ∪ tv_logged t ∪ ind_set i)
      (tv_logged t ∪ {[sb_bmapstart (f_sb s); IBLOCK (i_inum i) (f_sb s)]} ∪ ind_set i) ltac:(set_solver)). lia. }
  destruct (itrunc_run pid s1 t ip (i_locked pid i) Ht1 Hh Hmap Hi1 (file_wf_lock _ _ _ _ W) Hn Hsh Hroom) as (l2 & t2 & E2 & Ht2 & Htr).
  set (ie := empty_file (i_locked pid i)) in *. unfold s1 in E2, Ht2. rewrite f_put_put in E2, Ht2.
  set (i3 := i_set_type 0 ie). set (s3 := f_put ip i3 l2 s).
  assert (truncated (f_sb s) t i t2 (empty_file i)) as Htr'
    by (split; [done|apply Htr|apply empty_file_wf, W|apply Htr..]).
  assert (dinode_wf (i_dinode i3)) as Hd3.
  { apply (file_dinode_wf (f_sb s) (tv_view t) i3 (proj1 Ht)).
    - apply (empty_file_wf _ _ (i_set_type 0 (i_locked pid i))), W.
    - destruct Hsh as (_ & ? & ? & ?). by split_and!. }
  destruct (iupdate_run pid s3 t2 ip i3) as (l3 & E3 & Ht3); try done.
  { by rewrite (tc_held _ _ _ _ _ Htr). }
  { unfold tx_budget. rewrite (tc_held _ _ _ _ _ Htr), dom_empty_L, union_empty_r_L. unfold tx_cost in Hc.
    pose proof (tc_logged _ _ _ _ _ Htr') as Hl. pose proof (subseteq_size (tv_logged t2)
      (tv_logged t ∪ {[sb_bmapstart (f_sb s); IBLOCK (i_inum i) (f_sb s)]} ∪ ind_set i) ltac:(clear -Hl; set_solver)). lia. }
  { by eapply f_put_lookup. }
  { apply W. }
  exists l3, t2. split; [|split; [done|split; [|exact Ht3]]]; cycle 1.
  { apply (disk_inode_iupdate (f_sb s) t2 (i_freed i) Hd3). by eapply txrep_view. }
  pose proof (f_put_lookup ip i ie l2 s Hi) as Hi2. pose proof (f_put_lookup ip i i3 l3 s Hi) as Hi3.
  assert (f_icache (f_put ip (i_set_valid 0 i3) l3 s) !! ip = Some (i_set_valid 0 i3)) as Hi4 by (by eapply f_put_lookup).
  unfold iput. mrun (ilock_acquire_run pid s ip i Hi Hlk). mrun (iat_run pid _ ip _ Hi1).
  change (i_valid (i_locked pid i)) with (i_valid i). change (i_nlink (i_locked pid i)) with (i_nlink i).
  change (i_ref (i_locked pid i)) with (i_ref i). rewrite (proj2 (Z.eqb_neq _ _)), Hnl, Hr, !Z.eqb_refl by done. cbn [negb andb].
  rewrite bind_assoc. mrun E2. rewrite bind_assoc. mrun (iset_run pid _ ip ie (i_set_type 0) Hi2).
  rewrite bind_assoc.
  replace (f_set_icache _ (f_put ip ie l2 s)) with s3 by (symmetry; exact (f_put_put ip ie l2 i3 l2 s)).
  mrun E3. mrun (iset_run pid (f_set_log l3 s3) ip i3 (i_set_valid 0) Hi3).
  replace (f_set_icache _ (f_set_log l3 s3)) with (f_put ip (i_set_valid 0 i3) l3 s)
    by (symmetry; exact (f_put_put ip i3 l2 (i_set_valid 0 i3) l3 s)).
  rewrite (iput_tail pid _ ip _ Hi4). exact (f_equal (Ret tt) (f_put_put ip _ l3 _ l3 s)).
Qed.

End inode.
