(* ===== verification/FsDir.v ===== *)
(** * Directories (dirlookup, dirlink of fs.c) *)

From S2P Require Import Prelude Layout Sleeplock Disk Bio BioSpec Crc32 Log LogImg LogSpec LogTxn CString Fs FsTx FsBlock FsFile FsRw FsInode.

(** ** The entries of a directory *)

Definition dent (view : Z → block) (i : inode) (k : Z) : dirent := de_decode (fbytes view i (DESZ * k) DESZ).

Definition dents (view : Z → block) (i : inode) : list dirent := dent view i <$> seqZ 0 (i_size i / DESZ).

(** An entry for [name]; an entry that is free. *)
Definition de_match (name : list Z) (de : dirent) : Prop := de_inum de ≠ 0 ∧ namecmp name (de_name de) = 0.
Definition de_free (de : dirent) : Prop := de_inum de = 0.

#[global] Instance de_match_dec name de : Decision (de_match name de).
Proof. unfold de_match. apply _. Defined.
#[global] Instance de_free_dec de : Decision (de_free de).
Proof. unfold de_free. apply _. Defined.

Definition dir_find (name : list Z) (es : list dirent) : option (nat * dirent) := list_find (de_match name) es.

(** Where [dirlink] puts an entry: the first free one, or the end. *)
Definition dir_slot (es : list dirent) : nat :=
  match list_find de_free es with Some (k, _) => k | None => length es end.
Definition dir_put (es : list dirent) (de : dirent) : list dirent :=
  if decide (dir_slot es < length es)%nat then <[dir_slot es := de]> es else es ++ [de].

(** The first [DIRSIZ] characters, as names are compared. *)
Definition cname (l : list Z) : list Z := cprefix (λ k, nth k l 0) (Z.to_nat DIRSIZ).

Record dir_wf (sb : superblock) (view : Z → block) (i : inode) : Prop := mk_dir_wf {
  dw_file : file_wf sb view i;
  dw_type : i_type i = T_DIR;
  dw_size : i_size i mod DESZ = 0;
}.

(** ** Names *)

Lemma uchars_bytes l : bytes l → uchars (λ k, nth k l 0).
Proof.
  intros Hb k. rewrite nth_lookup. destruct (l !! k) as [c|] eqn:E; simpl; [|lia].
  by apply (Forall_lookup_1 _ _ _ _ Hb E).
Qed.

Lemma namecmp_zero a b : bytes a → bytes b → namecmp a b = 0 ↔ cname a = cname b.
Proof. intros. unfold namecmp, cname. apply strncmp_zero; by apply uchars_bytes. Qed.

Lemma cname_strncpy name : cname (strncpy (λ k, nth k name 0) (Z.to_nat DIRSIZ)) = cname name.
Proof. apply cprefix_strncpy. Qed.

(** The entry [dirlink] writes. *)
Definition new_dirent (name : list Z) (inum : Z) : dirent :=
  mk_dirent (u16 inum) (strncpy (λ k, nth k name 0) (Z.to_nat DIRSIZ)).

Lemma new_dirent_wf name inum : bytes name → dirent_wf (new_dirent name inum).
Proof.
  intros Hb. split; [|split]; cbn [de_inum de_name new_dirent].
  - unfold u16. apply Z.mod_pos_bound. lia.
  - apply length_strncpy.
  - by apply bytes_strncpy, uchars_bytes.
Qed.

Lemma new_dirent_match name inum name' :
  bytes name → bytes name' → 0 < inum < 2 ^ 16 → de_match name' (new_dirent name inum) ↔ cname name' = cname name.
Proof.
  intros Hb Hb' Hi. unfold de_match. rewrite namecmp_zero; [|done|by apply bytes_strncpy, uchars_bytes].
  cbn [de_inum de_name new_dirent]. rewrite cname_strncpy. unfold u16. rewrite Z.mod_small by lia. naive_solver lia.
Qed.

(** ** The table of entries *)

Lemma dir_slot_le es : (dir_slot es ≤ length es)%nat.
Proof.
  unfold dir_slot. destruct (list_find _ es) as [[k de]|] eqn:E; [|done].
  apply list_find_Some in E as (Hk & _). apply lookup_lt_Some in Hk. lia.
Qed.

Lemma dir_slot_free es de : es !! dir_slot es = Some de → de_free de.
Proof.
  unfold dir_slot. destruct (list_find _ es) as [[k de']|] eqn:E.
  - apply list_find_Some in E as (Hk & Hf & _). rewrite Hk. by intros [= <-].
  - by rewrite lookup_ge_None_2 by lia.
Qed.

Lemma dir_put_lookup es de k :
  dir_put es de !! k = if decide (k = dir_slot es) then Some de else es !! k.
Proof.
  pose proof (dir_slot_le es). unfold dir_put. case_decide as Hs; case_decide as Hk; subst.
  - by apply list_lookup_insert_eq.
  - by apply list_lookup_insert_ne.
  - replace (dir_slot es) with (length es) by lia. by apply list_lookup_middle.
  - destruct (decide (k < length es)%nat); [by apply lookup_app_l|].
    rewrite !lookup_ge_None_2; [done|lia|rewrite length_app; simpl; lia].
Qed.

(** A name that was not there is found in the new entry; the entries of other
    names are found as before. *)
Lemma dir_find_new es de name :
  dir_find name es = None → de_match name de → dir_find name (dir_put es de) = Some (dir_slot es, de).
Proof.
  intros Hn Hm. apply list_find_Some. rewrite dir_put_lookup, decide_True by done. split_and!; try done.
  intros j y Hj Hlt. rewrite dir_put_lookup, decide_False in Hj by lia.
  apply list_find_None in Hn. by eapply Forall_lookup_1 in Hn.
Qed.

Lemma dir_find_other es de name :
  ¬ de_match name de → dir_find name (dir_put es de) = dir_find name es.
Proof.
  intros Hm. destruct (dir_find name es) as [[k y]|] eqn:E.
  - apply list_find_Some in E as (Hk & Hy & Hbef). apply list_find_Some.
    assert (k ≠ dir_slot es) as Hne.
    { intros ->. apply dir_slot_free in Hk. by destruct Hy. }
    rewrite dir_put_lookup, decide_False by done. split_and!; try done.
    intros j z Hj Hlt. rewrite dir_put_lookup in Hj. case_decide; [by injection Hj as <-|by eapply Hbef].
  - apply list_find_None in E. apply list_find_None. apply Forall_lookup. intros j z Hj.
    rewrite dir_put_lookup in Hj. case_decide; [by injection Hj as <-|by eapply Forall_lookup_1 in E].
Qed.

Lemma length_dents view i : length (dents view i) = Z.to_nat (i_size i / DESZ).
Proof. unfold dents. by rewrite length_fmap, length_seqZ. Qed.

Lemma lookup_dents view i k :
  (k < Z.to_nat (i_size i / DESZ))%nat → dents view i !! k = Some (dent view i (Z.of_nat k)).
Proof. intros. unfold dents. rewrite list_lookup_fmap, lookup_seqZ_lt by lia. done. Qed.

(** The bytes of an entry determine it. *)
Lemma dent_written sb t i t' i' k de :
  0 ≤ DESZ * Z.of_nat k → dirent_wf de → written sb t i (DESZ * Z.of_nat k) (de_encode de) t' i' →
  ∀ j, 0 ≤ j → DESZ * (j + 1) ≤ i_size i' →
    dent (tv_view t') i' j = if decide (j = Z.of_nat k) then de else dent (tv_view t) i j.
Proof.
  intros Hk Hde Wn j Hj Hjs. pose proof (length_de_encode _ Hde) as Hl. change (Z.to_nat SIZEOF_DIRENT) with 16%nat in Hl.
  assert (fbytes (tv_view t') i' (DESZ * j) DESZ =
    if decide (j = Z.of_nat k) then de_encode de else fbytes (tv_view t) i (DESZ * j) DESZ) as E.
  { apply list_eq. intros m. unfold fbytes at 1. rewrite list_lookup_fmap. destruct (decide (m < 16)%nat) as [Hm|Hm].
    - rewrite lookup_seqZ_lt by (unfold DESZ; lia). cbn [fmap option_fmap option_map].
      rewrite (wn_bytes _ _ _ _ _ _ _ Wn), Hl by (unfold DESZ in *; lia).
      destruct (decide (j = Z.of_nat k)) as [->|Ej].
      + rewrite decide_True by (unfold DESZ; lia). rewrite nth_lookup.
        replace (Z.to_nat (DESZ * Z.of_nat k + Z.of_nat m - DESZ * Z.of_nat k)) with m by lia.
        destruct (lookup_lt_is_Some_2 (de_encode de) m) as [x Hx]; [lia|]. by rewrite Hx.
      + rewrite decide_False by (unfold DESZ; lia). unfold fbytes. rewrite list_lookup_fmap, lookup_seqZ_lt by (unfold DESZ; lia). done.
    - rewrite lookup_seqZ_ge by (unfold DESZ; lia). case_decide.
      + by rewrite lookup_ge_None_2 by lia.
      + unfold fbytes. by rewrite list_lookup_fmap, lookup_seqZ_ge by (unfold DESZ; lia). }
  unfold dent. rewrite E. case_decide; [|done]. by apply de_decode_encode.
Qed.

Lemma dents_written sb t i t' i' de :
  dir_wf sb (tv_view t) i → dirent_wf de →
  written sb t i (DESZ * Z.of_nat (dir_slot (dents (tv_view t) i))) (de_encode de) t' i' →
  dents (tv_view t') i' = dir_put (dents (tv_view t) i) de ∧ dir_wf sb (tv_view t') i'.
Proof.
  intros W Hde Wn. set (es := dents (tv_view t) i) in *. pose proof (dir_slot_le es) as Hsl.
  pose proof (dw_size _ _ _ W) as Hs. pose proof (fw_size _ _ _ (dw_file _ _ _ W)) as Hsz.
  pose proof (length_de_encode _ Hde) as Hl. change (Z.to_nat SIZEOF_DIRENT) with 16%nat in Hl.
  pose proof (length_dents (tv_view t) i) as Hld. fold es in Hld.
  pose proof (wn_inode _ _ _ _ _ _ _ Wn) as Ei. rewrite Hl in Ei.
  assert (i_size i' = Z.max (i_size i) (DESZ * Z.of_nat (dir_slot es) + 16)) as Es by (rewrite Ei; done).
  pose proof (dent_written _ _ _ _ _ _ _ ltac:(unfold DESZ; lia) Hde Wn) as Hd. split.
  - apply list_eq. intros k. rewrite dir_put_lookup.
    assert (Z.to_nat (i_size i' / DESZ) = Nat.max (length es) (S (dir_slot es))) as Elen by (unfold DESZ in *; dlia).
    destruct (decide (k < Z.to_nat (i_size i' / DESZ))%nat) as [Hk|Hk].
    + rewrite lookup_dents by done. rewrite Hd by (unfold DESZ in *; dlia).
      destruct (decide (k = dir_slot es)) as [->|Hne]; [by rewrite decide_True|].
      rewrite decide_False by lia. unfold es. rewrite lookup_dents by lia. done.
    + rewrite lookup_ge_None_2 by (rewrite length_dents; lia). rewrite decide_False by lia.
      by rewrite lookup_ge_None_2 by lia.
  - split; [apply Wn|rewrite Ei; exact (dw_type _ _ _ W)|]. rewrite Es. unfold DESZ in *. dlia.
Qed.

Section dir.
Context {D : Type} `{DiskFlushOk D} `{!DiskDriverOk D}.
Context (devsw_read : Z → option (Z → M (fstate D) (Z * list Z))).
Implicit Types (s : fstate D) (t : txv).

(** One entry read. *)
Lemma dir_read pid s t dp i k :
  txrep pid s t → tv_held t = ∅ → tx_room t → f_icache s !! dp = Some i → dir_wf (f_sb s) (tv_view t) i →
  (k < length (dents (tv_view t) i))%nat →
  ∃ l', readi devsw_read dp (DESZ * Z.of_nat k) DESZ pid s =
      Ret (DESZ, fbytes (tv_view t) i (DESZ * Z.of_nat k) DESZ) (f_set_log l' s) ∧ txrep pid (f_set_log l' s) t.
Proof.
  intros Ht Hh Hr Hi W Hk. rewrite length_dents in Hk. pose proof (dw_size _ _ _ W) as Hs. unfold DESZ in *.
  pose proof (fw_size _ _ _ (dw_file _ _ _ W)) as Hsz. rewrite maxfile_140 in Hsz. unfold BSIZE in Hsz.
  destruct (readi_run devsw_read pid s t dp i (16 * Z.of_nat k) 16 Ht Hh Hr Hi (dw_file _ _ _ W)) as (l' & E & Ht'); try lia; try dlia.
  { rewrite (dw_type _ _ _ W). done. }
  exists l'. split; [|done]. rewrite E. replace (Z.min 16 (i_size i - 16 * Z.of_nat k)) with 16 by dlia. done.
Qed.

Lemma dirlookup_loop_run pid name dp i fuel : ∀ s t k,
  txrep pid s t → tv_held t = ∅ → tx_room t → f_icache s !! dp = Some i → dir_wf (f_sb s) (tv_view t) i →
  (length (dents (tv_view t) i) - k < fuel)%nat →
  ∃ l', dirlookup_loop devsw_read fuel dp name (DESZ * Z.of_nat k) pid s =
      match list_find (de_match name) (drop k (dents (tv_view t) i)) with
      | Some (j, de) => (ip ← iget ROOTDEV (de_inum de); mret (Some (ip, DESZ * Z.of_nat (k + j)))) pid (f_set_log l' s)
      | None => Ret None (f_set_log l' s)
      end ∧ txrep pid (f_set_log l' s) t.
Proof.
  induction fuel as [|fuel IH]; intros s t k Ht Hh Hr Hi W Hf; [lia|].
  pose proof (dw_size _ _ _ W) as Hs. pose proof (fw_size _ _ _ (dw_file _ _ _ W)) as Hsz.
  cbn [dirlookup_loop]. destruct (decide (k < length (dents (tv_view t) i))%nat) as [Hk|Hk].
  - destruct (dir_read pid s t dp i k Ht Hh Hr Hi W Hk) as (l1 & E1 & Ht1).
    destruct (IH (f_set_log l1 s) t (S k) Ht1 Hh Hr Hi W) as (l2 & E2 & Ht2); [lia|].
    pose proof Hk as Hk'. rewrite length_dents in Hk'. pose proof (lookup_dents (tv_view t) i k Hk') as Hd.
    rewrite (drop_S _ _ _ Hd). cbn [list_find]. fold (dent (tv_view t) i (Z.of_nat k)) in *.
    assert (∀ r, dirlookup_loop devsw_read (S fuel) dp name (DESZ * Z.of_nat k) pid s = r ↔
      (if de_inum (dent (tv_view t) i (Z.of_nat k)) =? 0 then dirlookup_loop devsw_read fuel dp name (DESZ * Z.of_nat (S k))
       else if namecmp name (de_name (dent (tv_view t) i (Z.of_nat k))) =? 0 then
         ip ← iget ROOTDEV (de_inum (dent (tv_view t) i (Z.of_nat k))); mret (Some (ip, DESZ * Z.of_nat k))
       else dirlookup_loop devsw_read fuel dp name (DESZ * Z.of_nat (S k))) pid (f_set_log l1 s) = r) as Hrun.
    { intros r. cbn [dirlookup_loop]. rewrite (bind_Ret _ _ _ _ _ _ (iat_run pid s dp i Hi)).
      rewrite (proj2 (Z.ltb_lt _ _)) by (unfold DESZ in *; dlia).
      rewrite (bind_Ret _ _ _ _ _ _ E1). cbv beta iota. rewrite Z.eqb_refl. cbn [negb].
      fold (dent (tv_view t) i (Z.of_nat k)). rewrite (fw_dev _ _ _ (dw_file _ _ _ W)).
      by replace (DESZ * Z.of_nat k + DESZ) with (DESZ * Z.of_nat (S k)) by (unfold DESZ; lia). }
    cbn [dirlookup_loop] in Hrun. unfold de_match at 1. case_decide as Hm.
    + exists l1. split; [|done]. apply Hrun. destruct Hm as [Hm1 Hm2].
      rewrite (proj2 (Z.eqb_neq _ _)), Hm2, Z.eqb_refl, Nat.add_0_r by done. done.
    + exists l2. split; [|done]. apply Hrun. etransitivity; [|etransitivity; [exact E2|]].
      * destruct (_ =? 0) eqn:Ez; [done|]. destruct (namecmp _ _ =? 0) eqn:En; [|done]. destruct Hm. lia.
      * destruct (list_find _ (drop (S k) _)) as [[j de]|]; simpl; [|done].
        by replace (S (k + j)) with (k + S j)%nat by lia.
  - exists (f_log s). rewrite drop_ge by lia. simpl. split; [|by destruct s].
    mrun (iat_run pid s dp i Hi). rewrite length_dents in Hk. rewrite (proj2 (Z.ltb_ge _ _)) by (unfold DESZ in *; dlia).
    by destruct s.
Qed.

Lemma dirlookup_run pid s t dp i name :
  txrep pid s t → tv_held t = ∅ → tx_room t → f_icache s !! dp = Some i → dir_wf (f_sb s) (tv_view t) i →
  ∃ l', dirlookup devsw_read dp name pid s =
      match dir_find name (dents (tv_view t) i) with
      | Some (k, de) => (ip ← iget ROOTDEV (de_inum de); mret (Some (ip, DESZ * Z.of_nat k))) pid (f_set_log l' s)
      | None => Ret None (f_set_log l' s)
      end ∧ txrep pid (f_set_log l' s) t.
Proof.
  intros Ht Hh Hr Hi W.
  destruct (dirlookup_loop_run pid name dp i (S (Z.to_nat (i_size i))) s t 0 Ht Hh Hr Hi W) as (l' & E & Ht').
  { rewrite length_dents. pose proof (fw_size _ _ _ (dw_file _ _ _ W)). unfold DESZ. dlia. }
  exists l'. split; [|done]. unfold dirlookup. mrun (iat_run pid s dp i Hi). rewrite (dw_type _ _ _ W). exact E.
Qed.

Lemma dirlink_loop_run pid dp i fuel : ∀ s t k,
  txrep pid s t → tv_held t = ∅ → tx_room t → f_icache s !! dp = Some i → dir_wf (f_sb s) (tv_view t) i →
  (k ≤ length (dents (tv_view t) i) < k + fuel)%nat →
  ∃ l', dirlink_loop devsw_read fuel dp (DESZ * Z.of_nat k) pid s =
      Ret (DESZ * Z.of_nat (k + dir_slot (drop k (dents (tv_view t) i)))) (f_set_log l' s) ∧ txrep pid (f_set_log l' s) t.
Proof.
  induction fuel as [|fuel IH]; intros s t k Ht Hh Hr Hi W Hf; [lia|].
  pose proof (dw_size _ _ _ W) as Hs. pose proof (fw_size _ _ _ (dw_file _ _ _ W)) as Hsz.
  cbn [dirlink_loop]. pose proof (length_dents (tv_view t) i) as Hl.
  destruct (decide (k < length (dents (tv_view t) i))%nat) as [Hk|Hk].
  - destruct (dir_read pid s t dp i k Ht Hh Hr Hi W Hk) as (l1 & E1 & Ht1).
    destruct (IH (f_set_log l1 s) t (S k) Ht1 Hh Hr Hi W) as (l2 & E2 & Ht2); [lia|].
    pose proof (lookup_dents (tv_view t) i k ltac:(lia)) as Hd. rewrite (drop_S _ _ _ Hd).
    unfold dir_slot at 1. cbn [list_find length]. unfold de_free at 1. case_decide as Hm.
    + exists l1. split; [|done]. mrun (iat_run pid s dp i Hi). rewrite (proj2 (Z.ltb_lt _ _)) by (unfold DESZ in *; dlia).
      mrun E1. rewrite Z.eqb_refl. cbn [negb]. fold (dent (tv_view t) i (Z.of_nat k)).
      rewrite Hm, Z.eqb_refl, Nat.add_0_r. done.
    + exists l2. split; [|done]. mrun (iat_run pid s dp i Hi). rewrite (proj2 (Z.ltb_lt _ _)) by (unfold DESZ in *; dlia).
      mrun E1. rewrite Z.eqb_refl. cbn [negb]. fold (dent (tv_view t) i (Z.of_nat k)).
      rewrite (proj2 (Z.eqb_neq _ _)) by done.
      replace (DESZ * Z.of_nat k + DESZ) with (DESZ * Z.of_nat (S k)) by (unfold DESZ; lia). rewrite E2. unfold dir_slot.
      destruct (list_find _ (drop (S k) _)) as [[j de]|]; cbn [fmap option_fmap option_map prod_map fst snd]; do 3 f_equal; lia.
  - exists (f_log s). rewrite drop_ge by lia. split; [|by destruct s].
    mrun (iat_run pid s dp i Hi). rewrite (proj2 (Z.ltb_ge _ _)) by (unfold DESZ in *; dlia).
    change (dir_slot []) with 0%nat. rewrite Nat.add_0_r. by destruct s.
Qed.

Context (devsw_write : Z → option (list Z → M (fstate D) Z)).

Lemma dirlink_run pid s t dp i name inum :
  txrep pid s t → tv_held t = ∅ → map_wf (f_sb s) (tv_view t) → f_icache s !! dp = Some i →
  dir_wf (f_sb s) (tv_view t) i → shorts i → inum_ok (f_sb s) (i_inum i) → bytes name →
  dir_find name (dents (tv_view t) i) = None →
  DESZ * Z.of_nat (dir_slot (dents (tv_view t) i)) + DESZ ≤ MAXFILE * BSIZE →
  (tx_cost (f_sb s) i t + 1 ≤ 28)%nat → (1 + ind0 i ≤ size (free_blocks (f_sb s) (tv_view t)))%nat →
  ∃ l' i' t', dirlink devsw_read devsw_write dp name inum pid s = Ret 0 (f_put dp i' l' s) ∧
    txrep pid (f_put dp i' l' s) t' ∧
    written (f_sb s) t i (DESZ * Z.of_nat (dir_slot (dents (tv_view t) i))) (de_encode (new_dirent name inum)) t' i'.
Proof.
  intros Ht Hh Hmap Hi W Hsh Hn Hb Hno Hmax Hc Hsp. set (es := dents (tv_view t) i) in *. set (de := new_dirent name inum).
  assert (tx_room t) as Hr by (eapply budget_room, (tx_cost_budget _ _ _ _ Hc); rewrite Hh; set_solver).
  pose proof (new_dirent_wf name inum Hb) as Hde. fold de in Hde.
  pose proof (length_de_encode _ Hde) as Hl. change (Z.to_nat SIZEOF_DIRENT) with 16%nat in Hl.
  pose proof (dw_size _ _ _ W) as Hs. pose proof (fw_size _ _ _ (dw_file _ _ _ W)) as Hsz.
  pose proof (length_dents (tv_view t) i) as Hld. fold es in Hld. pose proof (dir_slot_le es) as Hsl.
  destruct (dirlookup_run pid s t dp i name Ht Hh Hr Hi W) as (l1 & E1 & Ht1). fold es in E1. rewrite Hno in E1.
  destruct (dirlink_loop_run pid dp i (S (Z.to_nat (i_size i))) (f_set_log l1 s) t 0 Ht1 Hh Hr Hi W) as (l2 & E2 & Ht2).
  { fold es. unfold DESZ in *. dlia. }
  rewrite drop_0 in E2. fold es in E2. rewrite Nat.add_0_l in E2. set (off := DESZ * Z.of_nat (dir_slot es)) in *.
  assert (nblk off DESZ = 1%nat) as Hnb by (unfold nblk; change (DESZ <=? 0) with false; unfold off, DESZ, BSIZE; dlia).
  assert (bytes (de_encode de)) as Hby.
  { unfold de_encode. apply Forall_app. split; [apply bytes_le_bytes|apply Hde]. }
  destruct (writei_run devsw_write pid (f_set_log l2 s) t dp i (de_encode de) off DESZ Ht2 Hh Hmap Hi (dw_file _ _ _ W) Hsh Hn)
    as (l3 & i3 & t3 & E3 & Ht3 & Wn); try done; try lia.
  { by rewrite (dw_type _ _ _ W). } { unfold off, DESZ in *. dlia. } { unfold DESZ. lia. }
  { by rewrite Hnb. } { by rewrite Hnb. }
  rewrite take_ge in Wn by (rewrite Hl; unfold DESZ; lia).
  exists l3, i3, t3. split; [|split; [exact Ht3|exact Wn]].
  unfold dirlink. mrun E1. mrun (iat_run pid (f_set_log l1 s) dp i Hi). mrun E2. fold (new_dirent name inum). fold de.
  mrun E3. done.
Qed.

End dir.
