(* ===== verification/FsPath.v ===== *)
(** * Path names (skipelem of fs.c) *)

From S2P Require Import Prelude Layout Sleeplock Disk Bio Crc32 Log CString Fs FsTx FsBlock FsFile FsRw FsInode FsDir.

(** ** Path elements: what is between the slashes, when not empty *)

Fixpoint split_slash (p : list Z) : list (list Z) :=
  match p with
  | [] => [[]]
  | c :: p' =>
      if c =? SLASH then [] :: split_slash p'
      else match split_slash p' with
           | e :: r => (c :: e) :: r
           | [] => [[c]]
           end
  end.

Definition path_elems (p : list Z) : list (list Z) := filter (λ e, e ≠ []) (split_slash p).

(** A path is a C string: bytes other than 0. *)
Definition path_ok (p : list Z) : Prop := Forall (λ c, 0 < c < 256) p.

(** ** Lemmas *)

Lemma path_elems_slash p : path_elems (SLASH :: p) = path_elems p.
Proof. done. Qed.

Lemma skip_slashes_elems p : path_elems (skip_slashes p) = path_elems p.
Proof.
  induction p as [|c p IH]; [done|]. cbn [skip_slashes]. destruct (c =? SLASH) eqn:E; [|done].
  apply Z.eqb_eq in E as ->. by rewrite path_elems_slash.
Qed.

Lemma skip_slashes_length p : (length (skip_slashes p) ≤ length p)%nat.
Proof. induction p as [|c p IH]; simpl; [done|]. case_match; simpl; lia. Qed.

Lemma skip_slashes_head p c p' : skip_slashes p = c :: p' → c ≠ SLASH.
Proof. induction p as [|x p IH]; [done|]. cbn [skip_slashes]. destruct (x =? SLASH) eqn:E; [done|]. intros [= <- <-]. lia. Qed.

Lemma skip_slashes_ok p : path_ok p → path_ok (skip_slashes p).
Proof. induction 1 as [|c p Hc Hp IH]; [constructor|]. cbn [skip_slashes]. case_match; [done|by constructor]. Qed.

Lemma take_elem_split p :
  ∃ r, split_slash p = (take_elem p).1 :: r ∧
    filter (λ e, e ≠ []) r = path_elems (take_elem p).2 ∧ p = (take_elem p).1 ++ (take_elem p).2.
Proof.
  induction p as [|c p IH]; [by exists []|]. cbn [split_slash take_elem]. destruct (c =? SLASH) eqn:E.
  - exists (split_slash p). apply Z.eqb_eq in E as ->. split_and!; [done|exact (eq_sym (path_elems_slash p))|done].
  - destruct IH as (r & E1 & E2 & E3). destruct (take_elem p) as [e rest]. simpl in *. rewrite E1.
    exists r. split_and!; [done|done|by rewrite E3].
Qed.

Lemma take_elem_ok p : path_ok p → path_ok (take_elem p).1 ∧ path_ok (take_elem p).2.
Proof. intros Hp. destruct (take_elem_split p) as (_ & _ & _ & E). rewrite E in Hp. by apply Forall_app in Hp. Qed.

Lemma take_elem_cons c p : c ≠ SLASH → ∃ e, (take_elem (c :: p)).1 = c :: e.
Proof.
  intros Hc. cbn [take_elem]. rewrite (proj2 (Z.eqb_neq _ _)) by done. destruct (take_elem p) as [e r]. by exists e.
Qed.

(** The name read back from the buffer [skipelem] fills. *)
Lemma cprefix_app e k (rest : list Z) :
  Forall (λ c, 0 < c < 256) e →
  cprefix (λ i, nth i (e ++ 0 :: rest) 0) k = take k e.
Proof.
  intros He. revert k. induction He as [|c e Hc He IH]; intros [|k]; try done.
  cbn [cprefix app take nth]. rewrite (proj2 (Z.eqb_neq _ _)) by lia. f_equal. apply IH.
Qed.

Lemma cprefix_full e : Forall (λ c, 0 < c < 256) e → cprefix (λ i, nth i e 0) (length e) = e.
Proof.
  induction 1 as [|c e Hc He IH]; [done|]. cbn [cprefix length nth]. rewrite (proj2 (Z.eqb_neq _ _)) by lia. f_equal. exact IH.
Qed.

Lemma skipelem_cases path name :
  path_ok path →
  match skipelem path name with
  | None => path_elems path = []
  | Some (rest, name') => ∃ e, path_elems path = e :: path_elems rest ∧ cname name' = take 14 e ∧
      path_ok rest ∧ (length rest < length path)%nat
  end.
Proof.
  intros Hp. unfold skipelem. pose proof (skip_slashes_elems path) as Ee. pose proof (skip_slashes_length path) as Hl.
  destruct (skip_slashes path) as [|c p] eqn:Es; [by rewrite <- Ee|].
  pose proof (skip_slashes_head _ _ _ Es) as Hc. pose proof (skip_slashes_ok _ Hp) as Hok. rewrite Es in Hok.
  destruct (take_elem_split (c :: p)) as (r & E1 & E2 & E3). destruct (take_elem_cons c p Hc) as [e0 E0].
  destruct (take_elem_ok _ Hok) as [He Hr]. destruct (take_elem (c :: p)) as [e rest]. cbn [fst snd] in E0, E1, E2, E3, He, Hr. subst e.
  exists (c :: e0). split_and!.
  - rewrite <- Ee. unfold path_elems at 1. rewrite E1. rewrite filter_cons, decide_True by done. by rewrite E2, skip_slashes_elems.
  - unfold cname. change (Z.to_nat DIRSIZ) with 14%nat. change DIRSIZ with 14.
    destruct (14 <=? Z.of_nat (length (c :: e0))) eqn:El.
    + assert (length (take 14 (c :: e0)) = 14%nat) as Ht by (rewrite length_take; lia).
      etransitivity; [|apply cprefix_full; by apply Forall_take]. by rewrite Ht.
    + by apply cprefix_app.
  - by apply skip_slashes_ok.
  - pose proof (skip_slashes_length rest). rewrite E3 in Hl. rewrite length_app in Hl. simpl in Hl. lia.
Qed.

Lemma skipelem_shorter path name rest name' : skipelem path name = Some (rest, name') → (length rest < length path)%nat.
Proof.
  unfold skipelem. pose proof (skip_slashes_length path) as Hl. destruct (skip_slashes path) as [|c p] eqn:Es; [done|].
  pose proof (skip_slashes_head _ _ _ Es) as Hc. destruct (take_elem_split (c :: p)) as (r & _ & _ & E3).
  destruct (take_elem_cons c p Hc) as [e0 E0]. destruct (take_elem (c :: p)) as [e tl]. simpl in *. subst e. intros [= <- <-].
  pose proof (skip_slashes_length tl). apply (f_equal length) in E3. simpl in E3. rewrite length_app in E3. lia.
Qed.
