(* ===== verification/FsMain.v ===== *)
(** * The file system: main theorems

    The statements about fs.c as a whole, each with an instance on a small
    file system: a root directory with its two first entries and one file of
    five bytes. *)

From S2P Require Import Prelude Layout Sleeplock Disk Ide Bio BioSpec Crc32 Log LogImg LogSpec LogTxn LogCrash Journal CString Fs FsTx FsBlock FsFile FsRw FsInode FsDir FsPath.

#[local] Arguments img_apply : simpl never.

(** ** A running example *)

Definition fs_root : inode := mk_inode ROOTDEV 1 1 initsleeplock 1 T_DIR 0 0 1 32 (59 :: replicate 12 0).
Definition fs_file : inode := mk_inode ROOTDEV 2 1 initsleeplock 1 T_FILE 0 0 1 5 (60 :: replicate 12 0).
Definition fs_none : inode := inode_zero.

(** Blocks 0 to 60 in use. *)
Definition fs_bitmap : block := replicate 7 255 ++ [31] ++ replicate 504 0.
Definition fs_inodes : block :=
  replicate 64 0 ++ di_encode (i_dinode fs_root) ++ di_encode (i_dinode fs_file) ++ replicate 320 0.
Definition fs_dir : block :=
  de_encode (new_dirent [46] 1) ++ de_encode (new_dirent [46; 46] 1) ++ replicate 480 0.
Definition fs_data : block := [104; 101; 108; 108; 111] ++ replicate 507 0.

Definition fs_img (n : Z) : block :=
  if n =? 1 then ex_sb_block else if n =? 58 then fs_bitmap else if n =? 32 then fs_inodes
  else if n =? 59 then fs_dir else if n =? 60 then fs_data else zero_block.

Definition fs_state (l : lstate ide_state) : fstate ide_state :=
  mk_fstate l ex_sb [fs_root; fs_file; fs_none] (λ _, Some 0%nat).

Definition block_okb (b : block) : bool := bool_decide (length b = 512%nat) && forallb (λ c, (0 <=? c) && (c <? 256)) b.

Lemma block_okb_ok b : block_okb b = true → block_ok b.
Proof.
  unfold block_okb. rewrite andb_true_iff. intros [H1%bool_decide_eq_true_1 H2]. split; [done|].
  apply Forall_forall. intros c Hc. rewrite forallb_forall in H2. specialize (H2 c (proj1 (list_elem_of_In _ _) Hc)).
  unfold is_byte. lia.
Qed.

Lemma fs_img_ok : img_ok fs_img.
Proof. intros n. unfold fs_img. repeat case_match; apply block_okb_ok; by vm_compute. Qed.

Lemma ex_sb_ok : sb_ok ex_sb.
Proof. split; vm_compute; done. Qed.

(** Boot and [begin_op] on a disk with that superblock and an empty log. *)
Lemma tx_example img :
  img_ok img → img 1 = ex_sb_block → img 2 = zero_block →
  ∃ (l : lstate ide_state) t, (∀ c cwd, txrep 1 (mk_fstate l ex_sb c cwd) t) ∧ tv_held t = ∅ ∧ tv_logged t = ∅ ∧
    (∀ n, n ≠ 2 → tv_view t n = img n).
Proof.
  intros Hok H1 H2.
  destruct (boot_log_spec 1 (ex_ide img) img 2 30) as (s0 & a0 & _ & Hl0 & Hv0 & Hd0 & Ho0 & Hc0 & _ & _);
    rewrite ?H1, ?H2; try (rewrite ex_sb_decode; done); try done; [apply ex_boots|by apply hdr_ok_zero|].
  set (s1 := l_set_batch_size (s32 (l_batch_size s0 + 1)) (l_set_outstanding (l_outstanding s0 + 1) s0)).
  assert (lrep 1 s1 a0 2 30 []) as Hl1 by (by apply (lrep_frame 1 s0)).
  exists s1, (mk_txv (ca_view a0) ∅ ∅). split_and!; try done.
  - intros c cwd. split; [apply ex_sb_ok|]. split; [simpl; rewrite Ho0; lia|].
    exists a0, []. split; [exact (lrep_lop _ _ _ _ _ _ Hl1)|]. split; [done|]. split; [done|].
    by rewrite (lp_held _ _ _ _ _ _ Hl1).
  - intros n Hn. simpl. rewrite Hv0. apply recover_clean; [by rewrite H2|done].
Qed.

Lemma fs_example :
  ∃ l t, txrep 1 (fs_state l) t ∧ tv_held t = ∅ ∧ tv_logged t = ∅ ∧ (∀ n, n ≠ 2 → tv_view t n = fs_img n).
Proof.
  destruct (tx_example fs_img fs_img_ok eq_refl eq_refl) as (l & t & Ht & Hh & Hl & Hv). exists l, t. split; [apply Ht|]. done.
Qed.

Lemma fs_bits b : 0 ≤ b < 1000 → bit_free fs_bitmap b = (60 <? b).
Proof.
  intros Hb. assert (forallb (λ b, Bool.eqb (bit_free fs_bitmap b) (60 <? b)) (seqZ 0 1000) = true) as H by (by vm_compute).
  rewrite forallb_forall in H. apply Bool.eqb_prop, H. apply list_elem_of_In, elem_of_seqZ. lia.
Qed.

Lemma bitmap_used view b :
  view 58 = fs_bitmap → 0 ≤ b < 1000 → used ex_sb view b ↔ b ≤ 60.
Proof.
  intros Hb Hr. rewrite used_bit by (apply ex_sb_ok || done). change (sb_bmapstart ex_sb) with 58. rewrite Hb, fs_bits by done. lia.
Qed.

(** A file of one block. *)
Lemma single_wf view i a :
  view 58 = fs_bitmap → i_dev i = ROOTDEV → i_addrs i = a :: replicate 12 0 → 59 ≤ a ≤ 60 → 0 ≤ i_size i ≤ 512 → file_wf ex_sb view i.
Proof.
  intros Hb58 Hd Ha Hr Hs.
  assert (∀ k, 0 ≤ k ≤ MAXFILE → fslot view i k = if decide (k = 0) then a else 0) as Hf.
  { intros k Hk. assert (∀ j, iaddr i j = if decide (j = 0%nat) then a else 0) as Hj.
    { intros j. unfold iaddr. rewrite Ha. destruct j as [|j]; [done|]. simpl. do 13 (destruct j as [|j]; [done|]). done. }
    unfold fslot, faddr, NDIRECT. rewrite !Hj, (decide_False (P := 12%nat = 0%nat)) by done.
    rewrite maxfile_140 in *. destruct (decide (k = 0)) as [->|]; [done|]. repeat case_match; try done; lia. }
  split; try done.
  - by rewrite Ha.
  - intros k Hk. rewrite Hf by done. case_decide; [|done]. intros _. split; [|apply bitmap_used; [done|lia|lia]].
    unfold data_block. change (datastart ex_sb) with 59. change (sb_size ex_sb) with 1000. lia.
  - intros k k' Hk Hk'. rewrite !Hf by done. case_decide; case_decide; lia.
  - rewrite maxfile_140. unfold BSIZE. lia.
  - intros bn Hb Hbs. unfold BSIZE in Hbs. assert (bn = 0) as -> by lia.
    rewrite <- fslot_faddr, Hf by (rewrite maxfile_140; lia). case_decide; lia.
Qed.

Section example.
Context (t : txv) (Hv : ∀ n, n ≠ 2 → tv_view t n = fs_img n).

Lemma fs_used b : 0 ≤ b < 1000 → used ex_sb (tv_view t) b ↔ b ≤ 60.
Proof.
  apply bitmap_used. by rewrite Hv.
Qed.

Lemma fs_map_wf : map_wf ex_sb (tv_view t).
Proof. intros b Hb. change (datastart ex_sb) with 59 in Hb. apply fs_used; lia. Qed.

Lemma fs_free b : 61 ≤ b < 1000 → b ∈ free_blocks ex_sb (tv_view t).
Proof. intros Hb. apply elem_of_free. change (sb_size ex_sb) with 1000. split; [lia|]. rewrite fs_used by lia. lia. Qed.

Lemma fs_free_size : (3 ≤ size (free_blocks ex_sb (tv_view t)))%nat.
Proof.
  change 3%nat with (size ({[61; 62; 63]} : gset Z)). apply subseteq_size. intros b Hb. apply fs_free. set_solver by lia.
Qed.

Lemma fs_file_wf : file_wf ex_sb (tv_view t) fs_file.
Proof. apply (single_wf _ _ 60); simpl; try lia; try done. by rewrite Hv. Qed.

Lemma fs_root_wf : dir_wf ex_sb (tv_view t) fs_root.
Proof. split; [|done|done]. apply (single_wf _ _ 59); simpl; try lia; try done. by rewrite Hv. Qed.

Lemma fs_cost i : tv_logged t = ∅ → (tx_cost ex_sb i t + 2 ≤ 28)%nat.
Proof. intros Hl. pose proof (tx_cost_le ex_sb i t). rewrite Hl, size_empty in *. lia. Qed.

Lemma fs_budget : tv_logged t = ∅ → tv_held t = ∅ → tx_budget 2 t.
Proof. intros Hl Hh. unfold tx_budget. rewrite Hl, Hh, dom_empty_L, union_empty_l_L, size_empty. lia. Qed.

End example.

(** ** Blocks *)

Section blocks.
Context {D : Type} `{DiskFlushOk D} `{!DiskDriverOk D}.
Implicit Types (s : fstate D) (t : txv).

(** C35. [balloc] inside a transaction: when a block is free it returns, hands
    out the lowest free one, has zeroed it, and has marked it and no other
    block; when none is free it panics. *)
Theorem balloc_allocates pid s t :
  txrep pid s t → map_wf (f_sb s) (tv_view t) → tv_held t = ∅ → tx_budget 2 t →
  (free_blocks (f_sb s) (tv_view t) = ∅ ∧ ∃ s', balloc ROOTDEV pid s = Panicked "balloc: out of blocks" s') ∨
  (∃ a l' t', balloc ROOTDEV pid s = Ret a (f_set_log l' s) ∧ txrep pid (f_set_log l' s) t' ∧
     a ∈ free_blocks (f_sb s) (tv_view t) ∧ (∀ j, 0 ≤ j < a → used (f_sb s) (tv_view t) j) ∧
     tv_view t' a = zero_block ∧
     free_blocks (f_sb s) (tv_view t') = free_blocks (f_sb s) (tv_view t) ∖ {[a]} ∧
     ∀ n, n ≠ a → n ≠ sb_bmapstart (f_sb s) → tv_view t' n = tv_view t n).
Proof.
  intros Ht Hm Hh Hb. destruct (decide (free_blocks (f_sb s) (tv_view t) = ∅)) as [He|Hne].
  - left. split; [done|]. eapply balloc_panics; try done; [by eapply budget_room|by rewrite Hh].
  - right. destruct (set_choose_L _ Hne) as [b Hbf].
    destruct (balloc_run pid s t b Ht Hm) as (a & l' & E & Ha & _ & Hlow & Ht'); try done.
    { eapply budget_le; [done|lia]. }
    { rewrite Hh. intros n [x Hx]. by rewrite lookup_empty in Hx. }
    exists a, l', (tv_alloc (f_sb s) a t). split_and!; try done.
    + unfold tv_alloc. simpl. by rewrite fn_lookup_insert.
    + apply free_blocks_alloc; [apply Ht|by eapply txrep_view|by eapply free_data].
    + intros n Hn Hnm. by apply alloc_view.
Qed.

(** [bfree] inside a transaction clears the bit of its block and of no
    other; freeing a block that is free already panics. *)
Theorem bfree_frees pid s t b :
  txrep pid s t → 0 ≤ b < sb_size (f_sb s) → tv_held t = ∅ → tx_budget 2 t →
  (used (f_sb s) (tv_view t) b ∧ ∃ l' t', bfree ROOTDEV b pid s = Ret tt (f_set_log l' s) ∧
     txrep pid (f_set_log l' s) t' ∧
     (∀ n, 0 ≤ n < sb_size (f_sb s) → used (f_sb s) (tv_view t') n ↔ n ≠ b ∧ used (f_sb s) (tv_view t) n) ∧
     ∀ n, n ≠ sb_bmapstart (f_sb s) → tv_view t' n = tv_view t n) ∨
  (¬ used (f_sb s) (tv_view t) b ∧ ∃ s', bfree ROOTDEV b pid s = Panicked "freeing free block" s').
Proof.
  intros Ht Hb Hh Hbg. assert (tx_budget 0 t) as Hb0 by (eapply budget_le; [done|lia]).
  destruct (decide (used (f_sb s) (tv_view t) b)) as [Hu|Hu]; [left|right]; (split; [done|]).
  - destruct (bfree_run pid s t b Ht Hb) as (l' & E & Ht'); [by rewrite Hh|done|done|].
    exists l', (tv_free (f_sb s) b t). split_and!; try done.
    + intros n Hn. apply used_free; [apply Ht|by eapply txrep_view|done|done].
    + intros n Hn. unfold tv_free. simpl. by apply fn_lookup_insert_ne.
  - eapply bfree_panics; try done. by rewrite Hh.
Qed.

End blocks.

Lemma balloc_allocates_witness : ∃ l a l', balloc ROOTDEV 1 (fs_state l) = Ret a (f_set_log l' (fs_state l)).
Proof.
  destruct fs_example as (l & t & Ht & Hh & Hl & Hv).
  destruct (balloc_allocates 1 (fs_state l) t Ht (fs_map_wf t Hv) Hh (fs_budget t Hl Hh)) as [[He _]|(a & l' & _ & E & _)].
  - exfalso. pose proof (fs_free t Hv 61 ltac:(lia)) as Hf. cbn [f_sb fs_state] in He. rewrite He in Hf. by apply not_elem_of_empty in Hf.
  - exists l, a, l'. exact E.
Defined.

Lemma bfree_frees_witness : ∃ l s', bfree ROOTDEV 61 1 (fs_state l) = Panicked "freeing free block" s'.
Proof.
  destruct fs_example as (l & t & Ht & Hh & Hl & Hv).
  destruct (bfree_frees 1 (fs_state l) t 61 Ht ltac:(simpl; lia) Hh (fs_budget t Hl Hh)) as [[Hu _]|[_ (s' & E)]].
  - exfalso. apply (fs_used t Hv) in Hu; lia.
  - exists l, s'. exact E.
Defined.

(** ** Files *)

Section files.
Context {D : Type} `{DiskFlushOk D} `{!DiskDriverOk D}.
Implicit Types (s : fstate D) (t : txv).

(** What an operation on the file of entry [ip] finds. *)
Definition file_ready pid s t ip i : Prop :=
  txrep pid s t ∧ tv_held t = ∅ ∧ map_wf (f_sb s) (tv_view t) ∧ f_icache s !! ip = Some i ∧
  file_wf (f_sb s) (tv_view t) i ∧ shorts i ∧ inum_ok (f_sb s) (i_inum i) ∧ i_type i ≠ T_DEV.

(** C10. [itrunc] frees a file: its data blocks and its indirect block become
    free and no other block does, the inode is empty in memory and on disk,
    and apart from the free map and that inode nothing is written. *)
Theorem itrunc_frees pid s t ip i :
  file_ready pid s t ip i → (tx_cost (f_sb s) i t ≤ 28)%nat →
  ∃ l' t', itrunc ip pid s = Ret tt (f_put ip (empty_file i) l' s) ∧
    txrep pid (f_put ip (empty_file i) l' s) t' ∧ truncated (f_sb s) t i t' (empty_file i).
Proof.
  intros (Ht & Hh & Hm & Hi & W & Hsh & Hn & Hty) Hc. apply itrunc_run; try done.
  unfold trunc_room. unfold tx_cost in Hc. pose proof (subseteq_size ({[sb_bmapstart (f_sb s)]} ∪ tv_logged t ∪ ind_set i)
    (tv_logged t ∪ {[sb_bmapstart (f_sb s); IBLOCK (i_inum i) (f_sb s)]} ∪ ind_set i) ltac:(set_solver)). lia.
Qed.

(** An inode survives the cache: after [iupdate], [ilock] of any entry later
    taken for the same inode loads the type, device numbers, link count, size
    and addresses that were in memory. *)
Theorem inode_written_back pid s t ip i :
  file_ready pid s t ip i → i_type i ≠ 0 → (tx_cost (f_sb s) i t ≤ 28)%nat →
  ∃ l', iupdate ip pid s = Ret tt (f_set_log l' s) ∧
    ∀ s2 jp j, f_log s2 = l' → f_sb s2 = f_sb s → f_icache s2 !! jp = Some j →
      1 ≤ i_ref j → sl_locked (i_lock j) = 0 → i_valid j = 0 → i_dev j = ROOTDEV → i_inum j = i_inum i →
      ∃ l2, ilock (Some jp) pid s2 = Ret tt (f_put jp (i_loaded pid (i_dinode i) j) l2 s2).
Proof.
  intros (Ht & Hh & Hm & Hi & W & Hsh & Hn & Hty) Ht0 Hc. pose proof (file_dinode_wf _ _ _ (proj1 Ht) W Hsh) as Hd.
  destruct (iupdate_run pid s t ip i Ht) as (l' & E & Ht'); try done; [by rewrite Hh| |apply W|].
  { eapply (tx_cost_budget _ _ _ 0); [by rewrite Nat.add_0_r|]. rewrite Hh. set_solver. }
  exists l'. split; [done|]. intros s2 jp j Hl Hsb Hj Hr Hlk Hv Hdev Hnum.
  assert (txrep pid s2 (tv_iupdate (f_sb s) i t)) as Ht2.
  { destruct Ht' as (H1' & H2' & H3'). cbn [f_log f_sb f_set_log] in *. split; [by rewrite Hsb|]. split; [by rewrite Hl|].
    by rewrite Hl, Hsb. }
  assert (disk_inode (f_sb s2) (tv_view (tv_iupdate (f_sb s) i t)) (i_inum j) = i_dinode i) as Edi.
  { rewrite Hnum, Hsb. apply disk_inode_iupdate; [done|]. by eapply txrep_view. }
  destruct (ilock_run_load pid s2 _ jp j Ht2) as (l2 & E2 & _); try done.
  - by rewrite Hnum, Hsb.
  - simpl. by rewrite Hh.
  - unfold tx_room. simpl. rewrite Hh, dom_empty_L, union_empty_r_L. pose proof (tx_cost_le (f_sb s) i t).
    pose proof (size_add_le (IBLOCK (i_inum i) (f_sb s)) (tv_logged t) _ (reflexivity _)). pose proof (tx_cost_size (f_sb s) i t).
    unfold NBUF. lia.
  - by rewrite Edi.
  - exists l2. by rewrite Edi in E2.
Qed.

(** C11. The last [iput] of a file without links deletes it: the blocks are freed,
    the inode on disk gets type 0, and the cache entry is free again. *)
Theorem iput_deletes pid s t ip i :
  file_ready pid s t ip i → (tx_cost (f_sb s) i t ≤ 28)%nat →
  sl_locked (i_lock i) = 0 → i_valid i ≠ 0 → i_nlink i = 0 → i_ref i = 1 →
  ∃ l' i' t', iput ip pid s = Ret tt (f_put ip i' l' s) ∧ txrep pid (f_put ip i' l' s) t' ∧
    i_ref i' = 0 ∧ i_valid i' = 0 ∧
    free_blocks (f_sb s) (tv_view t') = free_blocks (f_sb s) (tv_view t) ∪ slots (tv_view t) i 0 141 ∧
    disk_inode (f_sb s) (tv_view t') (i_inum i) = i_dinode (i_freed i).
Proof.
  intros (Ht & Hh & Hm & Hi & W & Hsh & Hn & Hty) Hc Hlk Hv Hnl Hr.
  destruct (iput_last pid s t ip i) as (l' & t1 & E & Htr & Hdi & Ht'); try done.
  eexists l', _, _. split; [exact E|]. split; [exact Ht'|]. split; [simpl; lia|]. split; [done|]. split; [|exact Hdi].
  destruct (iblock_range _ _ (proj1 Ht) Hn) as [_ Hib].
  rewrite <- (tc_free _ _ _ _ _ Htr). apply set_eq. intros n. rewrite !elem_of_free.
  destruct (decide (0 ≤ n < sb_size (f_sb s))); [|naive_solver].
  rewrite (used_frame _ (tv_view t1)); [done|apply Ht| |done]. unfold tv_iupdate. simpl. apply fn_lookup_insert_ne. lia.
Qed.

End files.

Section content.
Context {D : Type} `{DiskFlushOk D} `{!DiskDriverOk D}.
Context (devsw_read : Z → option (Z → M (fstate D) (Z * list Z))).
Context (devsw_write : Z → option (list Z → M (fstate D) Z)).
Implicit Types (s : fstate D) (t : txv).

(** C7. [writei] writes: with room in the log and on the disk it returns [n];
    the file then has the new bytes at [off], its old bytes elsewhere, the
    larger of the two sizes, its inode on disk if it was there before, and
    addresses that still are distinct blocks marked in use; no block of
    another file, and no other inode, has changed. *)
Theorem writei_writes pid s t ip i src off n :
  file_ready pid s t ip i →
  0 ≤ off ≤ i_size i → 0 ≤ n → off + n ≤ MAXFILE * BSIZE → n ≤ Z.of_nat (length src) → bytes src →
  (tx_cost (f_sb s) i t + nblk off n ≤ 28)%nat →
  (nblk off n + ind0 i ≤ size (free_blocks (f_sb s) (tv_view t)))%nat →
  ∃ l' i' t', writei devsw_write ip src off n pid s = Ret n (f_put ip i' l' s) ∧
    txrep pid (f_put ip i' l' s) t' ∧ written (f_sb s) t i off (take (Z.to_nat n) src) t' i'.
Proof. intros (Ht & Hh & Hm & Hi & W & Hsh & Hn & Hty). by apply writei_run. Qed.

(** C8. What [writei] stored, [readi] returns. *)
Theorem write_then_read pid s t ip i src off n :
  file_ready pid s t ip i →
  0 ≤ off ≤ i_size i → 0 ≤ n → off + n ≤ MAXFILE * BSIZE → n ≤ Z.of_nat (length src) → bytes src →
  (tx_cost (f_sb s) i t + nblk off n ≤ 24)%nat →
  (nblk off n + ind0 i ≤ size (free_blocks (f_sb s) (tv_view t)))%nat →
  ∃ s', (writei devsw_write ip src off n ;; readi devsw_read ip off n) pid s = Ret (n, take (Z.to_nat n) src) s'.
Proof.
  intros (Ht & Hh & Hm & Hi & W & Hsh & Hn & Hty) Hoff Hn0 Hmax Hsrc Hby Hc Hsp.
  destruct (writei_run devsw_write pid s t ip i src off n Ht Hh Hm Hi W Hsh Hn Hty) as (l' & i' & t' & E & Ht' & Wn); try done; [lia|].
  set (data := take (Z.to_nat n) src) in *.
  assert (Z.of_nat (length data) = n) as Hdl by (unfold data; rewrite length_take; lia).
  pose proof (wn_inode _ _ _ _ _ _ _ Wn) as Ei. rewrite Hdl in Ei.
  assert (i_size i' = Z.max (i_size i) (off + n) ∧ i_type i' = i_type i) as [Es Ety] by (rewrite Ei; done).
  pose proof (fw_size _ _ _ (wn_wf _ _ _ _ _ _ _ Wn)) as Hsz. rewrite maxfile_140 in *. unfold BSIZE in Hsz, Hmax.
  destruct (readi_run devsw_read pid (f_put ip i' l' s) t' ip i' off n Ht' (wn_held _ _ _ _ _ _ _ Wn)) as (l2 & E2 & _);
    try lia; [| |apply Wn|].
  { unfold tx_room. rewrite (wn_held _ _ _ _ _ _ _ Wn), dom_empty_L, union_empty_r_L.
    pose proof (wn_logged _ _ _ _ _ _ _ Wn). pose proof (tx_cost_size (f_sb s) i t). rewrite Hdl in *. unfold NBUF. lia. }
  { by eapply f_put_lookup. }
  eexists. mrun E. rewrite E2, Es, Z.min_l by lia. do 2 f_equal.
  apply list_eq. intros k. unfold fbytes. rewrite list_lookup_fmap. destruct (decide (k < Z.to_nat n)%nat) as [Hk|Hk].
  - rewrite lookup_seqZ_lt by lia. cbn [fmap option_fmap option_map]. rewrite (wn_bytes _ _ _ _ _ _ _ Wn), decide_True by lia.
    rewrite nth_lookup. replace (Z.to_nat (off + Z.of_nat k - off)) with k by lia.
    destruct (lookup_lt_is_Some_2 data k) as [x Hx]; [lia|]. by rewrite Hx.
  - rewrite lookup_seqZ_ge by lia. by rewrite lookup_ge_None_2 by lia.
Qed.

End content.

Lemma fs_file_ready : ∃ l t, file_ready 1 (fs_state l) t 1 fs_file ∧ tv_logged t = ∅ ∧
  (3 ≤ size (free_blocks ex_sb (tv_view t)))%nat.
Proof.
  destruct fs_example as (l & t & Ht & Hh & Hl & Hv). exists l, t. split; [|split; [done|by apply fs_free_size]].
  split_and!; try done; [by apply fs_map_wf|by apply fs_file_wf].
Qed.

Lemma writei_writes_witness : ∃ l s', writei (D := ide_state) (λ _, None) 1 [1; 2; 3] 4 3 1 (fs_state l) = Ret 3 s'.
Proof.
  destruct fs_file_ready as (l & t & Hr & Hl & Hf). pose proof (fs_cost t fs_file Hl).
  destruct (writei_writes (λ _, None) 1 (fs_state l) t 1 fs_file [1; 2; 3] 4 3 Hr) as (l' & i' & t' & E & _);
    try (simpl; lia); [done|..].
  - by apply (bool_decide_unpack (Forall is_byte _)); vm_compute.
  - change (nblk 4 3) with 1%nat. cbn [f_sb fs_state]. lia.
  - change (nblk 4 3) with 1%nat. change (ind0 fs_file) with 1%nat. cbn [f_sb fs_state]. lia.
  - exists l. eexists. exact E.
Defined.

Lemma write_then_read_witness :
  ∃ l s', (writei (D := ide_state) (λ _, None) 1 [1; 2; 3] 4 3 ;; readi (λ _, None) 1 4 3) 1 (fs_state l) = Ret (3, [1; 2; 3]) s'.
Proof.
  destruct fs_file_ready as (l & t & Hr & Hl & Hf). pose proof (tx_cost_le ex_sb fs_file t) as Hc. rewrite Hl, size_empty in Hc.
  destruct (write_then_read (λ _, None) (λ _, None) 1 (fs_state l) t 1 fs_file [1; 2; 3] 4 3 Hr) as (s' & E);
    try (simpl; lia); [done|..].
  - by apply (bool_decide_unpack (Forall is_byte _)); vm_compute.
  - change (nblk 4 3) with 1%nat. cbn [f_sb fs_state]. lia.
  - change (nblk 4 3) with 1%nat. change (ind0 fs_file) with 1%nat. cbn [f_sb fs_state]. lia.
  - exists l, s'. exact E.
Defined.

Lemma itrunc_frees_witness : ∃ l s', itrunc (D := ide_state) 1 1 (fs_state l) = Ret tt s'.
Proof.
  destruct fs_file_ready as (l & t & Hr & Hl & Hf). pose proof (fs_cost t fs_file Hl).
  destruct (itrunc_frees 1 (fs_state l) t 1 fs_file Hr) as (l' & t' & E & _); [simpl; lia|].
  exists l. eexists. exact E.
Defined.

Lemma inode_written_back_witness : ∃ l s', iupdate (D := ide_state) 1 1 (fs_state l) = Ret tt s'.
Proof.
  destruct fs_file_ready as (l & t & Hr & Hl & Hf). pose proof (fs_cost t fs_file Hl).
  destruct (inode_written_back 1 (fs_state l) t 1 fs_file Hr) as (l' & E & _); [done|simpl; lia|].
  exists l. eexists. exact E.
Defined.

(** The file with its last name removed. *)
Definition fs_unlinked : inode := i_set_nlink 0 fs_file.

Lemma iput_deletes_witness :
  ∃ l s', iput (D := ide_state) 1 1 (mk_fstate l ex_sb [fs_root; fs_unlinked] (λ _, Some 0%nat)) = Ret tt s'.
Proof.
  destruct fs_example as (l & t & Ht & Hh & Hl & Hv). pose proof (fs_cost t fs_unlinked Hl).
  destruct (iput_deletes 1 (mk_fstate l ex_sb [fs_root; fs_unlinked] (λ _, Some 0%nat)) t 1 fs_unlinked) as (l' & i' & t' & E & _); try done.
  - split_and!; try done; [by apply fs_map_wf|].
    apply (single_wf _ _ 60); simpl; try lia; try done. by rewrite Hv.
  - cbn [f_sb]. lia.
  - exists l. eexists. exact E.
Defined.

(** ** The inode cache *)

Section icache.
Context {D : Type} `{DiskFlushOk D} `{!DiskDriverOk D}.
Implicit Types (s : fstate D).

(** C36. One entry per inode: [iget] returns the entry already in use for the
    inode with one more reference, otherwise a free entry, and afterwards
    still no two entries are in use for one inode; it panics exactly when
    there is neither. *)
Theorem iget_unique pid s dev inum :
  icache_wf (f_icache s) →
  (iget_room (f_icache s) dev inum ∧ ∃ ip i', iget dev inum pid s = Ret ip (f_set_icache (<[ip := i']> (f_icache s)) s) ∧
     got (f_icache s) dev inum ip i' ∧ icache_wf (<[ip := i']> (f_icache s))) ∨
  (¬ iget_room (f_icache s) dev inum ∧ iget dev inum pid s = Panicked "iget: no inodes" s).
Proof.
  intros Hwf. destruct (decide (Exists (λ i, i_ref i = 0 ∨ names i dev inum) (f_icache s))) as [Hr|Hr].
  - assert (iget_room (f_icache s) dev inum) as Hroom.
    { apply Exists_exists in Hr as (i & Hin & Hc). apply list_elem_of_lookup_1 in Hin as [p Hp]. by exists p, i. }
    left. split; [done|]. destruct (iget_run pid s dev inum Hwf Hroom) as (ip & i' & E & Hg).
    exists ip, i'. split_and!; try done. by eapply got_wf.
  - assert (¬ iget_room (f_icache s) dev inum) as Hroom.
    { intros (p & i & Hp & Hc). apply Hr, Exists_exists. exists i. split; [by eapply list_elem_of_lookup_2|done]. }
    right. split; [done|]. by apply iget_panics.
Qed.

End icache.

Lemma iget_unique_witness : ∃ l s', iget (D := ide_state) ROOTDEV 2 1 (fs_state l) = Ret 1%nat s'.
Proof.
  destruct fs_example as (l & _). exists l.
  assert (icache_wf (f_icache (fs_state l))) as Hwf.
  { split; simpl.
    - intros [|[|[|p]]] i Hp; try done; injection Hp as <-; done.
    - intros [|[|[|p]]] [|[|[|q]]] i j Hp Hq (Hr & _ & Hn) Hl; try done;
        injection Hp as <-; injection Hq as <-; done. }
  destruct (iget_unique 1 (fs_state l) ROOTDEV 2 Hwf) as [(_ & ip & i' & E & (i & Hi & _) & _)|[Hno _]].
  - assert (ip = 1%nat) as -> by (vm_compute in E; by injection E). by eexists.
  - destruct Hno. exists 1%nat, fs_file. split; [done|]. right. done.
Defined.

(** ** Directories *)

Section dirs.
Context {D : Type} `{DiskFlushOk D} `{!DiskDriverOk D}.
Context (devsw_read : Z → option (Z → M (fstate D) (Z * list Z))).
Context (devsw_write : Z → option (list Z → M (fstate D) Z)).
Implicit Types (s : fstate D) (t : txv).

(** C9. Linking a name: when [dirlink] is given a name the directory does not
    have, it returns 0; the name is then found with the inode number given,
    every other name is found exactly as before, and the directory is still
    well formed. *)
Theorem dirlink_links pid s t dp i name inum :
  file_ready pid s t dp i → dir_wf (f_sb s) (tv_view t) i → bytes name → 0 < inum < 2 ^ 16 →
  dir_find name (dents (tv_view t) i) = None →
  DESZ * Z.of_nat (length (dents (tv_view t) i)) + DESZ ≤ MAXFILE * BSIZE →
  (tx_cost (f_sb s) i t + 1 ≤ 28)%nat → (1 + ind0 i ≤ size (free_blocks (f_sb s) (tv_view t)))%nat →
  ∃ l' i' t', dirlink devsw_read devsw_write dp name inum pid s = Ret 0 (f_put dp i' l' s) ∧
    txrep pid (f_put dp i' l' s) t' ∧ dir_wf (f_sb s) (tv_view t') i' ∧
    (∃ k de, dir_find name (dents (tv_view t') i') = Some (k, de) ∧ de_inum de = inum) ∧
    ∀ name', bytes name' → cname name' ≠ cname name →
      dir_find name' (dents (tv_view t') i') = dir_find name' (dents (tv_view t) i).
Proof.
  intros (Ht & Hh & Hm & Hi & W & Hsh & Hn & Hty) Wd Hb Hnum Hno Hmax Hc Hsp.
  pose proof (dir_slot_le (dents (tv_view t) i)) as Hsl.
  destruct (dirlink_run devsw_read devsw_write pid s t dp i name inum Ht Hh Hm Hi Wd Hsh Hn Hb Hno) as (l' & i' & t' & E & Ht' & Wn);
    [unfold DESZ in *; lia|done|done|].
  destruct (dents_written _ _ _ _ _ _ Wd (new_dirent_wf name inum Hb) Wn) as [Ed Wd'].
  exists l', i', t'. split_and!; try done.
  - rewrite Ed. eexists _, _. split; [apply dir_find_new; [done|]|].
    + by apply new_dirent_match.
    + cbn [de_inum new_dirent]. unfold u16. apply Z.mod_small. lia.
  - intros name' Hb' Hne. rewrite Ed. apply dir_find_other. by rewrite new_dirent_match.
Qed.

End dirs.

Lemma fs_dents t : (∀ n, n ≠ 2 → tv_view t n = fs_img n) → dents (tv_view t) fs_root = dents fs_img fs_root.
Proof.
  intros Hv. unfold dents. apply list_fmap_ext. intros k j Hj. apply lookup_seqZ in Hj as [-> Hk].
  change (i_size fs_root / DESZ) with 2 in Hk. unfold dent, fbytes. f_equal. apply list_fmap_ext. intros m o Ho.
  apply lookup_seqZ in Ho as [-> Hm]. unfold fbyte.
  assert ((DESZ * (0 + Z.of_nat k) + Z.of_nat m) / BSIZE = 0) as -> by (unfold DESZ, BSIZE in *; dlia).
  f_equal. by apply Hv.
Qed.

Lemma dirlink_links_witness : ∃ l s', dirlink (D := ide_state) (λ _, None) (λ _, None) 0 [97] 2 1 (fs_state l) = Ret 0 s'.
Proof.
  destruct fs_example as (l & t & Ht & Hh & Hl & Hv). pose proof (fs_cost t fs_root Hl). pose proof (fs_free_size t Hv).
  destruct (dirlink_links (λ _, None) (λ _, None) 1 (fs_state l) t 0 fs_root [97] 2) as (l' & i' & t' & E & _).
  - split_and!; try done; [by apply fs_map_wf|]. by apply (fs_root_wf t Hv).
  - by apply (fs_root_wf t Hv).
  - by apply (bool_decide_unpack (Forall is_byte _)); vm_compute.
  - lia.
  - rewrite (fs_dents t Hv). by vm_compute.
  - rewrite (fs_dents t Hv). by vm_compute.
  - cbn [f_sb fs_state]. lia.
  - change (ind0 fs_root) with 1%nat. cbn [f_sb fs_state]. lia.
  - exists l. eexists. exact E.
Defined.

(** ** Paths *)

(** C38. [skipelem] takes a path apart: it fails exactly on a path without
    elements; otherwise the rest it returns has the elements after the first,
    and the name it fills compares as the first element cut at [DIRSIZ]. *)
Theorem skipelem_elements path name :
  path_ok path →
  match skipelem path name with
  | None => path_elems path = []
  | Some (rest, name') => ∃ e, path_elems path = e :: path_elems rest ∧ cname name' = take 14 e ∧
      path_ok rest ∧ (length rest < length path)%nat
  end.
Proof. apply skipelem_cases. Qed.

(** "//ab//c" *)
Lemma skipelem_elements_witness : ∃ rest name', skipelem [47; 47; 97; 98; 47; 47; 99] [] = Some (rest, name') ∧
  path_elems [47; 47; 97; 98; 47; 47; 99] = [[97; 98]; [99]] ∧ cname name' = [97; 98].
Proof.
  pose proof (skipelem_elements [47; 47; 97; 98; 47; 47; 99] []) as Hs.
  assert (path_ok [47; 47; 97; 98; 47; 47; 99]) as Hp by (by apply (bool_decide_unpack (Forall _ _)); vm_compute).
  specialize (Hs Hp). destruct (skipelem _ _) as [[rest name']|] eqn:E; [|by vm_compute in Hs].
  exists rest, name'. split; [done|]. split; [by vm_compute|]. destruct Hs as (e & E1 & E2 & _).
  assert (e = [97; 98]) as -> by (vm_compute in E1; by injection E1). exact E2.
Defined.

(** ** Where the code falls short *)

(** A running system on a disk image, with the given inode cache. *)
Definition fs_run {A} (img : Z → block) (icache : list inode) (m : M (fstate ide_state) A)
    : outcome (fstate ide_state) A :=
  match boot_log 1 (ex_ide img) with
  | Ret _ l => m 1 (mk_fstate l ex_sb icache (λ _, Some 0%nat))
  | Panicked msg l => Panicked msg (mk_fstate l ex_sb icache (λ _, Some 0%nat))
  | Asleep c l => Asleep c (mk_fstate l ex_sb icache (λ _, Some 0%nat))
  | Undefined w => Undefined w
  end.

(** What is on the disk in a state, all the commands issued so far done. *)
Definition fs_disk (s : fstate ide_state) : Z → block := disk_img (drv_disk (bs_drv (l_bio (f_log s))) ROOTDEV).

(** Inode 2 a directory whose entries are in block 60; inode 3 an empty file. *)
Definition sub_dir : inode := mk_inode ROOTDEV 2 1 initsleeplock 1 T_DIR 0 0 1 32 (60 :: replicate 12 0).
Definition new_file : inode := mk_inode ROOTDEV 3 1 initsleeplock 1 T_FILE 0 0 1 0 (replicate 13 0).
Definition sub_img (n : Z) : block :=
  if n =? 32 then replicate 64 0 ++ di_encode (i_dinode fs_root) ++ di_encode (i_dinode sub_dir) ++
                  di_encode (i_dinode new_file) ++ replicate 256 0
  else if n =? 60 then fs_dir else fs_img n.

(** Every entry of the directory in inode 2 names an inode that exists. *)
Definition sub_dir_sound (view : Z → block) : bool :=
  forallb (λ de, de_inum de <? sb_ninodes ex_sb)
    (de_decode <$> [slice 0 16 (view 60); slice 16 16 (view 60)]).

Definition on_ret {S A} (o : outcome S A) (P : S → bool) : bool :=
  match o with Ret _ s => P s | _ => false end.

(** Reuse of a freed block before the commit: in one transaction a
    directory is truncated and a file written, whose data go home at once, into
    the block just freed.  If the machine stops before the commit, recovery
    gives back the directory's inode with its size and block, and the block
    holds the file's data as directory entries. *)
Theorem freed_block_reused :
  let o := fs_run sub_img [sub_dir; new_file]
    (lift begin_op ;; itrunc 0 ;; writei (λ _, None) 1 (replicate 32 255) 0 32) in
  on_ret (fs_run sub_img [sub_dir; new_file] (lift begin_op)) (λ s, sub_dir_sound (fs_disk s)) = true ∧
  on_ret o (λ s,
    match boot_log 1 (ex_ide (fs_disk s)) with
    | Ret _ l => let view := disk_img (drv_disk (bs_drv (l_bio l)) ROOTDEV) in
        bool_decide (di_type (disk_inode ex_sb view 2) = T_DIR) && bool_decide (di_size (disk_inode ex_sb view 2) = 32) &&
        bool_decide (nth 0 (di_addrs (disk_inode ex_sb view 2)) 0 = 60) && negb (sub_dir_sound view)
    | _ => false
    end) = true.
Proof. vm_compute. done. Qed.
