(* ===== verification/FsName.v ===== *)
(** * Path resolution (namex, namei, nameiparent of fs.c)

    What a path names is read off the disk: [walk] follows the directory
    entries.  [namex] gives the same answer through the inode cache, with
    every inode on the way locked and given back.  [refs] counts the
    references, so that an inode that leaks or is dropped twice is seen. *)

From S2P Require Import Prelude Layout Sleeplock Disk Ide Bio BioSpec Crc32 Log LogImg LogSpec LogTxn LogCrash Journal CString Fs FsTx FsBlock FsFile FsRw FsInode FsDir FsPath FsMain.

Set Default Proof Using "Type".

(** ** The tree on the disk *)

Section tree.
Context (sb : superblock) (view : Z → block).

(** Inode [n] as it is on the disk. *)
Definition ondisk (n : Z) : inode :=
  i_load (disk_inode sb view n) (mk_inode ROOTDEV n 0 initsleeplock 1 0 0 0 0 0 []).

Definition is_dir (n : Z) : bool := di_type (disk_inode sb view n) =? T_DIR.

(** An entry in use whose name is [e], of which [DIRSIZ] characters count. *)
Definition entry_for (e : list Z) (de : dirent) : Prop := de_inum de ≠ 0 ∧ cname (de_name de) = take 14 e.

#[global] Instance entry_for_dec e de : Decision (entry_for e de).
Proof. unfold entry_for. apply _. Defined.

(** The first entry for [e] in directory [n]. *)
Definition dir_get (n : Z) (e : list Z) : option Z :=
  match list_find (entry_for e) (dents view (ondisk n)) with
  | Some (_, de) => Some (de_inum de)
  | None => None
  end.

(** The inode the elements [es] lead to from inode [n]. *)
Fixpoint walk (n : Z) (es : list (list Z)) : option Z :=
  match es with
  | [] => Some n
  | e :: es' =>
      if is_dir n then
        match dir_get n e with Some n' => walk n' es' | None => None end
      else None
  end.

(** What [namex] is to find: the inode of the path, or the directory that is to
    hold its last element. *)
Definition resolve (n : Z) (es : list (list Z)) (parent : bool) : option Z :=
  if parent then
    match es with
    | [] => None
    | _ => match walk n (removelast es) with
           | Some n' => if is_dir n' then Some n' else None
           | None => None
           end
    end
  else walk n es.

(** The inodes [L] form a tree of directories and files: each is allocated and
    linked, each directory is well formed, and its entries are in [L]. *)
Record tree_ok (L : gset Z) : Prop := mk_tree_ok {
  to_inum : ∀ n, n ∈ L → inum_ok sb n;
  to_type : ∀ n, n ∈ L → di_type (disk_inode sb view n) ≠ 0;
  to_linked : ∀ n, n ∈ L → di_nlink (disk_inode sb view n) ≠ 0;
  to_dir : ∀ n, n ∈ L → is_dir n = true → dir_wf sb view (ondisk n);
  to_entries : ∀ n de, n ∈ L → is_dir n = true → de ∈ dents view (ondisk n) → de_inum de ≠ 0 → de_inum de ∈ L;
}.

Lemma resolve_nil n parent : resolve n [] parent = if parent then None else Some n.
Proof. by destruct parent. Qed.

Lemma resolve_cons n e es parent :
  resolve n (e :: es) parent =
    if is_dir n then
      if parent && bool_decide (es = []) then Some n
      else match dir_get n e with Some n' => resolve n' es parent | None => None end
    else None.
Proof.
  destruct parent; [|by cbn]. unfold resolve. destruct es as [|e' es].
  - cbn. by destruct (is_dir n).
  - rewrite bool_decide_false by done. change (removelast (e :: e' :: es)) with (e :: removelast (e' :: es)).
    cbn [walk andb]. destruct (is_dir n); [|done]. by destruct (dir_get n e).
Qed.

Lemma dir_get_live L n e n' : tree_ok L → n ∈ L → is_dir n = true → dir_get n e = Some n' → n' ∈ L.
Proof.
  intros HL Hn Hd. unfold dir_get. destruct (list_find _ _) as [[k de]|] eqn:E; [|done]. intros [= <-].
  apply list_find_Some in E as (E & [Hz _] & _). eapply to_entries; try done. by eapply list_elem_of_lookup_2.
Qed.

End tree.

(** ** Entries and names *)

Lemma bytes_dents view i : img_ok view → Forall (λ de, bytes (de_name de)) (dents view i).
Proof.
  intros Hv. unfold dents. apply Forall_fmap, Forall_true. intros k. unfold compose, dent, de_decode. cbn [de_name].
  apply Forall_take, Forall_drop. unfold fbytes. apply Forall_fmap, Forall_true. intros o. unfold compose, fbyte.
  rewrite nth_lookup. destruct (_ !! _) as [c|] eqn:E; [|unfold is_byte; simpl; lia].
  destruct (Hv (faddr view i (o / BSIZE))) as [_ Hb]. by eapply Forall_lookup_1.
Qed.

Lemma find_entry_for name e l :
  bytes name → cname name = take 14 e → Forall (λ de, bytes (de_name de)) l →
  list_find (de_match name) l = list_find (entry_for e) l.
Proof.
  intros Hb Hc Hl. induction Hl as [|de l Hde Hl IH]; [done|]. cbn [list_find]. rewrite IH.
  assert (de_match name de ↔ entry_for e de) as Hiff.
  { unfold de_match, entry_for. rewrite namecmp_zero, Hc by done. naive_solver. }
  by destruct (decide (de_match name de)), (decide (entry_for e de)); try tauto.
Qed.

Lemma skipelem_bytes path name rest name' :
  path_ok path → bytes name → skipelem path name = Some (rest, name') → bytes name'.
Proof.
  intros Hp Hb. unfold skipelem. pose proof (skip_slashes_ok _ Hp) as Hs.
  destruct (skip_slashes path) as [|c p]; [done|]. destruct (take_elem_ok _ Hs) as [He _].
  destruct (take_elem (c :: p)) as [e tl]. cbn [fst] in He. intros [= _ <-].
  assert (bytes e) as Hbe by (eapply Forall_impl; [exact He|]; unfold is_byte; simpl; lia).
  case_match; [by apply Forall_take|]. apply Forall_app. split; [done|]. constructor; [unfold is_byte; lia|by apply Forall_drop].
Qed.

(** The rest has an element unless it is empty. *)
Lemma skipelem_rest path name rest name' :
  skipelem path name = Some (rest, name') → rest = [] ↔ path_elems rest = [].
Proof.
  unfold skipelem. destruct (skip_slashes path) as [|c p]; [done|]. destruct (take_elem (c :: p)) as [e tl].
  intros [= <- _]. split; [by intros ->|]. destruct (skip_slashes tl) as [|c' p'] eqn:Es; [done|].
  destruct (take_elem_cons c' p' (skip_slashes_head _ _ _ Es)) as [e0 E0].
  destruct (take_elem_split (c' :: p')) as (r & E1 & _). unfold path_elems. rewrite E1, E0, filter_cons, decide_True by done. done.
Qed.

(** ** The inode cache *)

(** Cache [c] has the references of [c0] and [e k] more on entry [k]; the
    entries in use in [c0] are still those of the same inodes. *)
Definition refs (c0 : list inode) (e : nat → Z) (c : list inode) : Prop :=
  length c = length c0 ∧
  ∀ k i0, c0 !! k = Some i0 → ∃ i, c !! k = Some i ∧ i_ref i = i_ref i0 + e k ∧
    (0 < i_ref i0 → i_dev i = i_dev i0 ∧ i_inum i = i_inum i0).

Definition none : nat → Z := λ _, 0.
Definition one (ip : nat) : nat → Z := λ k, if decide (k = ip) then 1 else 0.
Definition eadd (ip : nat) (d : Z) (e : nat → Z) : nat → Z := λ k, if decide (k = ip) then e k + d else e k.

(** Two entries of the cache are free. *)
Definition two_free (c : list inode) : Prop :=
  ∃ k1 k2 i1 i2, k1 ≠ k2 ∧ c !! k1 = Some i1 ∧ i_ref i1 = 0 ∧ c !! k2 = Some i2 ∧ i_ref i2 = 0.

(** Entry [k] is in use for inode [n]. *)
Definition sits (c : list inode) (k : nat) (n : Z) : Prop := ∃ i, c !! k = Some i ∧ names i ROOTDEV n.

Lemma refs_refl c : refs c none c.
Proof. split; [done|]. intros k i Hi. exists i. unfold none. split; [done|]. split; [lia|done]. Qed.

Lemma refs_ext c0 e e' c : (∀ k, e k = e' k) → refs c0 e c → refs c0 e' c.
Proof.
  intros He [Hl Hr]. split; [done|]. intros k i0 Hk. destruct (Hr k i0 Hk) as (i & Hi & E & Hn). exists i. by rewrite <- He.
Qed.

Lemma refs_back c0 e c k i : refs c0 e c → c !! k = Some i →
  ∃ i0, c0 !! k = Some i0 ∧ i_ref i = i_ref i0 + e k ∧ (0 < i_ref i0 → i_dev i = i_dev i0 ∧ i_inum i = i_inum i0).
Proof.
  intros [Hl Hr] Hk. destruct (lookup_lt_is_Some_2 c0 k) as [i0 H0]; [rewrite <- Hl; by eapply lookup_lt_Some|].
  destruct (Hr k i0 H0) as (j & Hj & E & Hn). exists i0. rewrite Hk in Hj. injection Hj as ->. done.
Qed.

(** One entry changed: [d] references more, and still for the same inode if it
    was in use before. *)
Lemma refs_put c0 e c ip i i' d :
  refs c0 e c → c !! ip = Some i → i_ref i' = i_ref i + d →
  ((i_dev i' = i_dev i ∧ i_inum i' = i_inum i) ∨ (i_ref i = 0 ∧ 0 ≤ e ip)) →
  refs c0 (eadd ip d e) (<[ip := i']> c).
Proof.
  intros Hr Hi Hd Hid. split; [rewrite length_insert; apply Hr|]. intros k i0 H0.
  destruct (proj2 Hr k i0 H0) as (j & Hj & Ej & Hn). unfold eadd. destruct (decide (k = ip)) as [->|Hne].
  - rewrite Hi in Hj. injection Hj as <-. exists i'. rewrite list_lookup_insert_eq by (by eapply lookup_lt_Some).
    split; [done|]. split; [lia|]. intros Hp. destruct Hid as [[-> ->]|[? ?]]; [by apply Hn|lia].
  - exists j. rewrite list_lookup_insert_ne by done. done.
Qed.

Section icache.
Context (sb : superblock) (view : Z → block) (L : gset Z).

(** An entry of the cache between operations: a free one is not locked; one in
    use for an inode of the tree is not locked, and agrees with the disk once
    it has been read. *)
Definition entry_ok (i : inode) : Prop :=
  (i_ref i = 0 → sl_locked (i_lock i) = 0) ∧
  (0 < i_ref i → i_dev i = ROOTDEV → i_inum i ∈ L →
     sl_locked (i_lock i) = 0 ∧ (i_valid i ≠ 0 → i_dinode i = disk_inode sb view (i_inum i))).

Record icache_ok (c : list inode) : Prop := mk_icache_ok {
  ic_wf : icache_wf c;
  ic_entry : ∀ k i, c !! k = Some i → entry_ok i;
}.

(** The entry of inode [n], locked by [pid] and read. *)
Record held_entry (pid n : Z) (i : inode) : Prop := mk_held_entry {
  he_names : names i ROOTDEV n;
  he_lock : holdingsleep pid (i_lock i) = true;
  he_valid : i_valid i ≠ 0;
  he_disk : i_dinode i = disk_inode sb view n;
}.

(** As [icache_ok], but entry [ip] is locked. *)
Record locked_ok (pid : Z) (ip : nat) (n : Z) (c : list inode) : Prop := mk_locked_ok {
  lk_wf : icache_wf c;
  lk_entry : ∀ k i, c !! k = Some i → k ≠ ip → entry_ok i;
  lk_held : ∃ i, c !! ip = Some i ∧ held_entry pid n i;
}.

Lemma lookup_insert_cases (c : list inode) ip i' k i :
  <[ip := i']> c !! k = Some i → (k = ip ∧ i = i') ∨ (k ≠ ip ∧ c !! k = Some i).
Proof. intros [(<- & <- & _)|[Hne E]]%list_lookup_insert_Some; [by left|right; done]. Qed.

Lemma icache_lock pid ip n c i i' :
  icache_ok c → c !! ip = Some i → i_ref i' = i_ref i → i_dev i' = i_dev i → i_inum i' = i_inum i →
  held_entry pid n i' → locked_ok pid ip n (<[ip := i']> c).
Proof.
  intros [Hw He] Hi Hr Hd Hn Hh. pose proof (proj1 Hw ip i Hi). split.
  - eapply icache_wf_ref; try done. lia.
  - intros k j Hk Hne. apply lookup_insert_cases in Hk as [[? _]|[_ Hk]]; [done|by eapply He].
  - exists i'. split; [|done]. apply list_lookup_insert_eq. by eapply lookup_lt_Some.
Qed.

Lemma icache_unlock pid ip n c i :
  locked_ok pid ip n c → c !! ip = Some i → icache_ok (<[ip := i_unlocked i]> c).
Proof.
  intros [Hw He (i' & Hi' & Hh)] Hi. rewrite Hi in Hi'. injection Hi' as <-. split.
  - eapply icache_wf_ref; try done. simpl. pose proof (proj1 Hw ip i Hi). lia.
  - intros k j Hk. apply lookup_insert_cases in Hk as [[_ ->]|[Hne Hk]]; [|by eapply He].
    split; [done|]. intros _ _ _. split; [done|]. intros _. destruct Hh as [(_ & _ & Hn) _ _ Hd].
    change (i_inum (i_unlocked i)) with (i_inum i). rewrite Hn. exact Hd.
Qed.

Lemma icache_drop ip n c i :
  icache_ok c → c !! ip = Some i → names i ROOTDEV n → n ∈ L → icache_ok (<[ip := i_dropped i]> c).
Proof.
  intros [Hw He] Hi (Hr & Hd & Hn) HL. split.
  - eapply icache_wf_ref; try done. simpl. lia.
  - intros k j Hk. apply lookup_insert_cases in Hk as [[_ ->]|[Hne Hk]]; [|by eapply He].
    split; [done|]. simpl. intros _ _ Hin. split; [done|]. by apply (proj2 (He ip i Hi)).
Qed.

(** The entry [iget] takes. *)
Lemma got_entry c n ip i' i :
  c !! ip = Some i → entry_ok i → got c ROOTDEV n ip i' → entry_ok i'.
Proof.
  intros Hi [H1 H2] (j & Hj & Hc). rewrite Hi in Hj. injection Hj as <-.
  destruct Hc as [[(Hr & Hd & Hn) ->]|(Hr & _ & ->)].
  - split; simpl; [lia|]. intros _ _ Hin. by apply H2.
  - split; simpl; [lia|]. intros _ _ _. split; [by apply H1|done].
Qed.

Lemma icache_got c n ip i' : icache_ok c → got c ROOTDEV n ip i' → icache_ok (<[ip := i']> c).
Proof.
  intros [Hw He] Hg. split; [by eapply got_wf|]. intros k j Hk.
  apply lookup_insert_cases in Hk as [[-> ->]|[_ Hk]]; [|by eapply He].
  destruct Hg as (i & Hi & Hc). eapply got_entry; [exact Hi|by eapply He|]. by exists i.
Qed.

Lemma locked_got pid lk m c n ip i' :
  locked_ok pid lk m c → got c ROOTDEV n ip i' → locked_ok pid lk m (<[ip := i']> c).
Proof.
  intros [Hw He (i & Hi & Hh)] Hg. split; [by eapply got_wf| |].
  - intros k j Hk Hne. apply lookup_insert_cases in Hk as [[-> ->]|[_ Hk]]; [|by eapply He].
    destruct Hg as (j & Hj & Hc). eapply got_entry; [exact Hj|by eapply He|]. by exists j.
  - destruct (decide (lk = ip)) as [->|Hne].
    + exists i'. split; [apply list_lookup_insert_eq; by eapply lookup_lt_Some|].
      destruct Hg as (j & Hj & Hc). rewrite Hi in Hj. injection Hj as <-. destruct Hh as [(Hr & Hd & Hn) H1 H2 H3].
      destruct Hc as [[_ ->]|(? & _)]; [|lia]. split; try done. unfold names. simpl. split; [lia|done].
    + exists i. split; [|done]. by rewrite list_lookup_insert_ne.
Qed.

End icache.

(** ** The calls on the way *)

Section run.
Context {D : Type} `{DiskFlushOk D} `{!DiskDriverOk D}.
Context (devsw_read : Z → option (Z → M (fstate D) (Z * list Z))).
Context (pid : Z) (sb : superblock) (t : txv) (L : gset Z) (c0 : list inode).
Context (Hh : tv_held t = ∅) (Hroom : tx_room t) (HL : tree_ok sb (tv_view t) L).
Context (Hc0 : ∀ k i, c0 !! k = Some i → 0 ≤ i_ref i).
Implicit Types (s : fstate D) (e : nat → Z).

(** Between two rounds of the loop, and while entry [ip] is locked. *)
Record ninv e s : Prop := mk_ninv {
  ni_sb : f_sb s = sb;
  ni_tx : txrep pid s t;
  ni_ok : icache_ok sb (tv_view t) L (f_icache s);
  ni_refs : refs c0 e (f_icache s);
}.
Record linv (ip : nat) (n : Z) e s : Prop := mk_linv {
  li_sb : f_sb s = sb;
  li_tx : txrep pid s t;
  li_ok : locked_ok sb (tv_view t) L pid ip n (f_icache s);
  li_refs : refs c0 e (f_icache s);
}.

Lemma refs_same e c ip i i' :
  refs c0 e c → c !! ip = Some i → i_ref i' = i_ref i → i_dev i' = i_dev i → i_inum i' = i_inum i →
  refs c0 e (<[ip := i']> c).
Proof.
  intros Hr Hi E1 E2 E3. eapply refs_ext; [|eapply (refs_put _ _ _ _ _ _ 0 Hr Hi); [lia|by left]].
  intros k. unfold eadd. case_decide; lia.
Qed.

Lemma ilock_name e s ip n :
  ninv e s → sits (f_icache s) ip n → n ∈ L →
  ∃ s', ilock (Some ip) pid s = Ret tt s' ∧ linv ip n e s' ∧ f_cwd s' = f_cwd s.
Proof using Type*.
  intros [Hsb Ht Hok Hr] (i & Hi & Hn) Hin. pose proof Hn as (Hp & Hd & Hu).
  destruct (proj2 (ic_entry _ _ _ _ Hok ip i Hi) Hp Hd) as [Hlk Hv]; [by rewrite Hu|]. rewrite Hu in Hv.
  destruct (decide (i_valid i = 0)) as [Hz|Hz].
  - destruct (ilock_run_load pid s t ip i Ht Hi) as (l' & E & Ht'); try done; try lia; rewrite ?Hu, ?Hsb.
    { by eapply to_inum. } { by rewrite Hh. } { by eapply to_type. }
    eexists. split; [exact E|]. split; [|done]. split; [done|exact Ht'| |]; cbn [f_icache f_put f_set_icache].
    + eapply icache_lock; try done. split; [exact Hn| |done|by rewrite Hsb, Hu].
      unfold holdingsleep. simpl. apply Z.eqb_refl.
    + by eapply refs_same.
  - pose proof (ilock_run_valid pid s ip i Hi ltac:(lia) Hlk Hz) as E.
    eexists. split; [exact E|]. split; [|done]. split; [done|by destruct s| |]; cbn [f_icache f_put f_set_icache].
    + eapply icache_lock; try done. split; [exact Hn| |done|by apply Hv].
      unfold holdingsleep. simpl. apply Z.eqb_refl.
    + by eapply refs_same.
Qed.

(** The lock given back. *)
Lemma iunlock_name e s ip n :
  linv ip n e s → ∃ s', iunlock (Some ip) pid s = Ret tt s' ∧ ninv e s' ∧ f_cwd s' = f_cwd s ∧
    ∀ k m, sits (f_icache s) k m → sits (f_icache s') k m.
Proof using Type*.
  intros [Hsb Ht Hok Hr]. pose proof Hok as [_ _ (i & Hi & [(Hp & Hd & Hu) Hlk Hv _])].
  pose proof (iunlock_run pid s ip i Hi ltac:(lia) Hlk) as E. eexists. split; [exact E|].
  split; [split; [done|by destruct s| |]|]; cbn [f_icache f_put f_set_icache].
  - by eapply icache_unlock.
  - by eapply refs_same.
  - split; [done|]. intros k m (j & Hj & Hm). destruct (decide (k = ip)) as [->|Hne].
    + rewrite Hi in Hj. injection Hj as <-. exists (i_unlocked i). split; [|exact Hm].
      apply list_lookup_insert_eq. by eapply lookup_lt_Some.
    + exists j. by rewrite list_lookup_insert_ne.
Qed.

(** A reference given back: not the last one of an unlinked inode, since the
    inodes of the tree are linked. *)
Lemma iput_name e s ip n :
  ninv e s → sits (f_icache s) ip n → n ∈ L →
  ∃ s', iput ip pid s = Ret tt s' ∧ ninv (eadd ip (-1) e) s' ∧ f_cwd s' = f_cwd s ∧
    ∀ k m, sits (f_icache s) k m → (k = ip → 2 ≤ e k) → sits (f_icache s') k m.
Proof using Type*.
  intros [Hsb Ht Hok Hr] (i & Hi & Hn) Hin. pose proof Hn as (Hp & Hd & Hu).
  destruct (proj2 (ic_entry _ _ _ _ Hok ip i Hi) Hp Hd) as [Hlk Hv]; [by rewrite Hu|]. rewrite Hu in Hv.
  assert (i_valid i = 0 ∨ i_nlink i ≠ 0 ∨ i_ref i ≠ 1) as Hc.
  { destruct (decide (i_valid i = 0)) as [|Hz]; [by left|right; left].
    change (i_nlink i) with (di_nlink (i_dinode i)). rewrite (Hv Hz). by eapply to_linked. }
  pose proof (iput_drop pid s ip i Hi Hlk Hc) as E. eexists. split; [exact E|].
  split; [split; [done|by destruct s| |]|]; cbn [f_icache f_put f_set_icache].
  - by eapply icache_drop.
  - eapply refs_put; [done|done|simpl; lia|by left].
  - split; [done|]. intros k m (j & Hj & Hm) H2e. destruct (decide (k = ip)) as [->|Hne].
    + rewrite Hi in Hj. injection Hj as <-. exists (i_dropped i). split; [apply list_lookup_insert_eq; by eapply lookup_lt_Some|].
      destruct (refs_back _ _ _ _ _ Hr Hi) as (i0 & Hi0 & Er & _). specialize (Hc0 _ _ Hi0). specialize (H2e eq_refl).
      destruct Hm as (_ & ? & ?). unfold names. simpl. split; [lia|done].
    + exists j. by rewrite list_lookup_insert_ne.
Qed.

Lemma iunlockput_name e s ip n :
  linv ip n e s → n ∈ L →
  ∃ s', iunlockput ip pid s = Ret tt s' ∧ ninv (eadd ip (-1) e) s' ∧ f_cwd s' = f_cwd s ∧
    ∀ k m, sits (f_icache s) k m → (k = ip → 2 ≤ e k) → sits (f_icache s') k m.
Proof using Type*.
  intros Hl Hin. assert (sits (f_icache s) ip n) as Hs.
  { destruct (li_ok _ _ _ _ Hl) as [_ _ (i & Hi & [Hn _ _ _])]. by exists i. }
  destruct (iunlock_name e s ip n Hl) as (s1 & E1 & N1 & C1 & S1).
  destruct (iput_name e s1 ip n N1 (S1 _ _ Hs) Hin) as (s2 & E2 & N2 & C2 & S2).
  exists s2. split; [unfold iunlockput; by mrun E1|]. split; [done|]. split; [congruence|]. intros k m Hk He. by apply S2; [apply S1|].
Qed.

Context (Hfree : two_free c0).

(** With two free entries at the start there is one left while one inode is
    held. *)
Lemma room_left e c ip n : refs c0 e c → (∀ k, k ≠ ip → e k = 0) → iget_room c ROOTDEV n.
Proof using Type*.
  intros [_ Hr] He. destruct Hfree as (k1 & k2 & i1 & i2 & Hne & E1 & Z1 & E2 & Z2).
  assert (∃ k i0, k ≠ ip ∧ c0 !! k = Some i0 ∧ i_ref i0 = 0) as (k & i0 & Hk & E0 & Z0).
  { destruct (decide (k1 = ip)) as [->|]; [exists k2, i2|exists k1, i1]; done. }
  destruct (Hr k i0 E0) as (i & Hi & Er & _). exists k, i. split; [done|]. left. rewrite He in Er by done. lia.
Qed.

Lemma got_refs e c n ip i' :
  refs c0 e c → (∀ k, 0 ≤ e k) → got c ROOTDEV n ip i' → refs c0 (eadd ip 1 e) (<[ip := i']> c) ∧ sits (<[ip := i']> c) ip n.
Proof.
  intros Hr He Hg. pose proof (got_names _ _ _ _ _ Hg) as Hn. destruct Hg as (i & Hi & Hc). split.
  - destruct Hc as [[_ ->]|(Hz & _ & ->)]; eapply refs_put; try done; simpl; try lia; by right.
  - exists i'. split; [|done]. apply list_lookup_insert_eq. by eapply lookup_lt_Some.
Qed.

(** [iget] of the first inode, and of the next one while [ip] is locked. *)
Lemma iget_start s n :
  ninv none s → ∃ ip s', iget ROOTDEV n pid s = Ret ip s' ∧ ninv (one ip) s' ∧ f_cwd s' = f_cwd s ∧ sits (f_icache s') ip n.
Proof using Type*.
  intros [Hsb Ht Hok Hr]. destruct (iget_run pid s ROOTDEV n (ic_wf _ _ _ _ Hok)) as (ip & i' & E & Hg).
  { by apply (room_left none _ 0). }
  destruct (got_refs _ _ _ _ _ Hr ltac:(done) Hg) as [Hr' Hs]. exists ip. eexists. split; [exact E|].
  split; [split|]; try done. by eapply icache_got.
Qed.

Lemma iget_next s ip m n :
  linv ip m (one ip) s →
  ∃ nx s', iget ROOTDEV n pid s = Ret nx s' ∧ linv ip m (eadd nx 1 (one ip)) s' ∧ f_cwd s' = f_cwd s ∧ sits (f_icache s') nx n.
Proof using Type*.
  intros [Hsb Ht Hok Hr]. destruct (iget_run pid s ROOTDEV n (lk_wf _ _ _ _ _ _ _ Hok)) as (nx & i' & E & Hg).
  { apply (room_left (one ip) _ ip); [done|]. intros k Hk. unfold one. by rewrite decide_False. }
  assert (∀ k, 0 ≤ one ip k) as Hone by (intros k; unfold one; case_decide; lia).
  destruct (got_refs _ _ _ _ _ Hr Hone Hg) as [Hr' Hs].
  exists nx. eexists. split; [exact E|]. split; [split|]; try done. by eapply locked_got.
Qed.

(** The directory as the locked entry has it. *)
Lemma held_dir n i :
  held_entry sb (tv_view t) pid n i → n ∈ L → is_dir sb (tv_view t) n = true →
  dir_wf sb (tv_view t) i ∧ dents (tv_view t) i = dents (tv_view t) (ondisk sb (tv_view t) n).
Proof using Type*.
  intros [(_ & Hd & _) _ _ Hdk] Hin Hdir. pose proof (to_dir _ _ _ HL n Hin Hdir) as [[W1 W2 W3 W4 W5 W6] Wt Ws].
  unfold ondisk in *. rewrite <- Hdk in *. destruct i. split; [split; [split|..]|]; done.
Qed.

Lemma dirlookup_name s ip n name (e : list Z) :
  linv ip n (one ip) s → n ∈ L → is_dir sb (tv_view t) n = true → bytes name → cname name = take 14 e →
  match dir_get sb (tv_view t) n e with
  | None => ∃ s', dirlookup devsw_read ip name pid s = Ret None s' ∧ linv ip n (one ip) s' ∧ f_cwd s' = f_cwd s
  | Some n' => ∃ nx off s', dirlookup devsw_read ip name pid s = Ret (Some (nx, off)) s' ∧
      linv ip n (eadd nx 1 (one ip)) s' ∧ f_cwd s' = f_cwd s ∧ sits (f_icache s') nx n'
  end.
Proof using Type*.
  intros [Hsb Ht Hok Hr] Hin Hdir Hb Hn. pose proof Hok as [_ _ (i & Hi & Hhe)].
  destruct (held_dir n i Hhe Hin Hdir) as [W Ed].
  destruct (dirlookup_run devsw_read pid s t ip i name Ht Hh Hroom Hi) as (l' & E & Ht'); [by rewrite Hsb|].
  unfold dir_find in E. rewrite (find_entry_for name e) in E; [|done|done|].
  2:{ apply bytes_dents. intros b. by eapply txrep_view. }
  rewrite Ed in E. unfold dir_get. assert (linv ip n (one ip) (f_set_log l' s)) as Hl' by (by split).
  destruct (list_find _ _) as [[k de]|].
  - destruct (iget_next _ ip n (de_inum de) Hl') as (nx & s2 & E2 & Hl2 & C2 & S2).
    exists nx. eexists _, s2. split; [rewrite E; mrun E2; reflexivity|]. done.
  - by exists (f_set_log l' s).
Qed.

(** What a call that resolves to [o] leaves. *)
Definition resolved (o : option Z) (r : option nat) s : Prop :=
  match o with
  | None => r = None ∧ ninv none s
  | Some m => ∃ ip, r = Some ip ∧ ninv (one ip) s ∧ sits (f_icache s) ip m
  end.

Lemma drop_one ip s : ninv (eadd ip (-1) (one ip)) s → ninv none s.
Proof using Type*.
  intros [H1' H2' H3' H4']. split; try done. eapply refs_ext; [|exact H4']. intros k. unfold eadd, one, none. by case_decide.
Qed.

Lemma swap_one ip nx s : ninv (eadd ip (-1) (eadd nx 1 (one ip))) s → ninv (one nx) s.
Proof using Type*.
  intros [H1' H2' H3' H4']. split; try done. eapply refs_ext; [|exact H4'].
  intros k. unfold eadd, one. repeat case_decide; try done; lia.
Qed.

Lemma namex_loop_run parent fuel : ∀ s ip n path name,
  ninv (one ip) s → sits (f_icache s) ip n → n ∈ L → path_ok path → bytes name → (length path < fuel)%nat →
  ∃ r name' s', namex_loop devsw_read fuel ip path parent name pid s = Ret (r, name') s' ∧ f_cwd s' = f_cwd s ∧
    resolved (resolve sb (tv_view t) n (path_elems path) parent) r s' ∧
    (parent = true → r ≠ None → cname name' = take 14 (List.last (path_elems path) [])).
Proof using Type*.
  induction fuel as [|fuel IH]; intros s ip n path name Hi Hs Hin Hp Hb Hf; [lia|]. cbn [namex_loop].
  pose proof (skipelem_cases path name Hp) as Hsk. destruct (skipelem path name) as [[rest name']|] eqn:Ek; cycle 1.
  { rewrite Hsk, resolve_nil. destruct parent.
    - destruct (iput_name _ s ip n Hi Hs Hin) as (s1 & E1 & N1 & C1 & _). eexists None, name, s1.
      split; [by mrun E1|]. split; [done|]. split; [split; [done|by eapply drop_one]|done].
    - exists (Some ip), name, s. split; [done|]. split; [done|]. split; [by exists ip|done]. }
  destruct Hsk as (e & Ee & Hn & Hpr & Hlen). pose proof (skipelem_bytes _ _ _ _ Hp Hb Ek) as Hbn.
  pose proof (skipelem_rest _ _ _ _ Ek) as Hrest. rewrite Ee, resolve_cons.
  destruct (ilock_name _ s ip n Hi Hs Hin) as (s1 & E1 & L1 & C1). mrun E1.
  pose proof (li_ok _ _ _ _ L1) as [_ _ (i & Hi1 & Hhe)]. mrun (iat_run pid s1 ip i Hi1).
  assert ((i_type i =? T_DIR) = is_dir sb (tv_view t) n) as ->.
  { unfold is_dir. by rewrite <- (he_disk _ _ _ _ _ Hhe). }
  destruct (is_dir sb (tv_view t) n) eqn:Hd; cbn [negb]; cycle 1.
  { destruct (iunlockput_name _ s1 ip n L1 Hin) as (s2 & E2 & N2 & C2 & _). eexists None, name', s2.
    split; [by mrun E2|]. split; [congruence|]. split; [split; [done|by eapply drop_one]|done]. }
  rewrite (bool_decide_ext (rest = []) (path_elems rest = [])) by done.
  destruct (parent && bool_decide (path_elems rest = [])) eqn:Hpe.
  { destruct (iunlock_name _ s1 ip n L1) as (s2 & E2 & N2 & C2 & S2). eexists (Some ip), name', s2.
    split; [by mrun E2|]. split; [congruence|]. split.
    - exists ip. split; [done|]. split; [done|]. apply S2. exists i. split; [done|apply Hhe].
    - intros _ _. apply andb_prop in Hpe as [_ ->%bool_decide_eq_true]. done. }
  pose proof (dirlookup_name s1 ip n name' e L1 Hin Hd Hbn Hn) as Hdl.
  destruct (dir_get sb (tv_view t) n e) as [n'|] eqn:Eg; cycle 1.
  { destruct Hdl as (s2 & E2 & L2 & C2). mrun E2.
    destruct (iunlockput_name _ s2 ip n L2 Hin) as (s3 & E3 & N3 & C3 & _). eexists None, name', s3.
    split; [by mrun E3|]. split; [congruence|]. split; [split; [done|by eapply drop_one]|done]. }
  destruct Hdl as (nx & off & s2 & E2 & L2 & C2 & S2). mrun E2. 
  destruct (iunlockput_name _ s2 ip n L2 Hin) as (s3 & E3 & N3 & C3 & S3). mrun E3.
  destruct (IH s3 nx n' rest name' (swap_one _ _ _ N3)) as (r & nm & s4 & E4 & C4 & R4 & Q4).
  { apply S3; [exact S2|]. intros ->. unfold eadd, one. rewrite !decide_True by done. lia. }
  { by eapply dir_get_live. } { done. } { done. } { lia. }
  exists r, nm, s4. split; [exact E4|]. split; [congruence|]. split; [exact R4|].
  intros Hpt Hr. rewrite (Q4 Hpt Hr). subst parent. cbn [andb] in Hpe. apply bool_decide_eq_false in Hpe.
  by destruct (path_elems rest).
Qed.

End run.

(** ** Path resolution *)

Section namex.
Context {D : Type} `{DiskFlushOk D} `{!DiskDriverOk D}.
Context (devsw_read : Z → option (Z → M (fstate D) (Z * list Z))).
Implicit Types (s : fstate D).

(** Where resolution starts: at the root, or at the directory of the process. *)
Definition starts (pid : Z) s (path : list Z) (n : Z) : Prop :=
  if bool_decide (head path = Some SLASH) then n = ROOTINO
  else ∃ ip, f_cwd s pid = Some ip ∧ sits (f_icache s) ip n.

(** C37. Path resolution.  On a disk whose directories form a well-formed tree,
    with two free entries in the inode cache, [namex] returns: it returns the
    inode that the elements of the path lead to from the root or the current
    directory, or with [nameiparent] the directory that is to hold the last
    element, whose name is then in the buffer, and null exactly when there is
    no such inode.  The inode returned has one reference more than before and
    no other inode has any reference more or less; no inode is left locked,
    and nothing on the disk has changed. *)
Theorem namex_resolves pid s t L path parent name n :
  txrep pid s t → tv_held t = ∅ → tx_room t →
  tree_ok (f_sb s) (tv_view t) L → icache_ok (f_sb s) (tv_view t) L (f_icache s) → two_free (f_icache s) →
  path_ok path → bytes name → starts pid s path n → n ∈ L →
  ∃ r name' s', namex devsw_read path parent name pid s = Ret (r, name') s' ∧
    txrep pid s' t ∧ f_sb s' = f_sb s ∧ f_cwd s' = f_cwd s ∧ icache_ok (f_sb s) (tv_view t) L (f_icache s') ∧
    match resolve (f_sb s) (tv_view t) n (path_elems path) parent with
    | None => r = None ∧ refs (f_icache s) none (f_icache s')
    | Some m => ∃ ip, r = Some ip ∧ sits (f_icache s') ip m ∧ refs (f_icache s) (one ip) (f_icache s')
    end ∧
    (parent = true → r ≠ None → cname name' = take 14 (List.last (path_elems path) [])).
Proof using Type*.
  intros Ht Hh Hroom HL Hok Hfree Hp Hb Hst Hin.
  pose proof (proj1 (ic_wf _ _ _ _ Hok)) as Hc0.
  assert (ninv pid (f_sb s) t L (f_icache s) none s) as Hi by (split; try done; apply refs_refl).
  assert (∃ ip s1, (if bool_decide (head path = Some SLASH) then iget ROOTDEV ROOTINO
        else pid ← mypid; s ← get;
          match f_cwd s pid with Some ip => idup ip | None => undef "idup: null" end) pid s = Ret ip s1 ∧
      ninv pid (f_sb s) t L (f_icache s) (one ip) s1 ∧ f_cwd s1 = f_cwd s ∧ sits (f_icache s1) ip n)
    as (ip & s1 & E1 & N1 & C1 & S1).
  { unfold starts in Hst. case_bool_decide.
    - subst n. by eapply iget_start.
    - destruct Hst as (ip & Ec & i & Hi' & Hn). set (i' := i_set_ref (i_ref i + 1) i).
      assert (got (f_icache s) ROOTDEV n ip i') as Hg by (exists i; split; [done|by left]).
      destruct (got_refs _ none _ _ _ _ (refs_refl _) ltac:(done) Hg) as [Hr' Hs'].
      exists ip, (f_set_icache (<[ip := i']> (f_icache s)) s). split.
      { cbv [mypid]. rewrite (bind_Ret _ _ _ _ pid s eq_refl), (bind_Ret get _ pid s s s eq_refl). rewrite Ec.
        unfold idup. by mrun (iset_run pid s ip i (λ i, i_set_ref (i_ref i + 1) i) Hi'). }
      split; [split|]; try done. by eapply icache_got. }
  destruct (namex_loop_run devsw_read pid (f_sb s) t L (f_icache s) Hh Hroom HL Hc0 Hfree parent (S (length path)) s1 ip n path name)
    as (r & name' & s' & E & C & R & Q); try done; [lia|].
  exists r, name', s'. split; [unfold namex; by mrun E1|].
  assert (∃ e, ninv pid (f_sb s) t L (f_icache s) e s') as [e [Hsb' Ht' Hok' _]].
  { unfold resolved in R. destruct (resolve _ _ _ _ _); [destruct R as (? & _ & ? & _)|destruct R as [_ ?]]; eauto. }
  split; [done|]. split; [done|]. split; [congruence|]. split; [done|]. split; [|done].
  unfold resolved in R. destruct (resolve _ _ _ _ _) as [m|].
  - destruct R as (ip' & -> & [_ _ _ Hr'] & Hs'). by exists ip'.
  - by destruct R as [-> [_ _ _ Hr']].
Qed.

End namex.

(** ** An example

    The root has the directory "d", inode 2, which has the file "f", inode 3. *)
Definition nm_root : inode := mk_inode ROOTDEV 1 0 initsleeplock 1 T_DIR 0 0 1 32 (59 :: replicate 12 0).
Definition nm_dir : inode := mk_inode ROOTDEV 2 0 initsleeplock 1 T_DIR 0 0 1 32 (60 :: replicate 12 0).
Definition nm_file : inode := mk_inode ROOTDEV 3 0 initsleeplock 1 T_FILE 0 0 1 0 (replicate 13 0).
Definition nm_img (n : Z) : block :=
  if n =? 32 then replicate 64 0 ++ di_encode (i_dinode nm_root) ++ di_encode (i_dinode nm_dir) ++
                  di_encode (i_dinode nm_file) ++ replicate 256 0
  else if n =? 59 then de_encode (new_dirent [46] 1) ++ de_encode (new_dirent [100] 2) ++ replicate 480 0
  else if n =? 60 then de_encode (new_dirent [46] 2) ++ de_encode (new_dirent [102] 3) ++ replicate 480 0
  else fs_img n.

Lemma nm_img_ok : img_ok nm_img.
Proof. intros n. unfold nm_img. repeat case_match; try apply fs_img_ok; apply block_okb_ok; by vm_compute. Qed.

Section example.
Context (view : Z → block) (Hv : ∀ n, n ≠ 2 → view n = nm_img n).

Lemma nm_inode n d : disk_inode ex_sb nm_img n = d → IBLOCK n ex_sb ≠ 2 → disk_inode ex_sb view n = d.
Proof using Hv. intros <- Hn. unfold disk_inode. by rewrite Hv. Qed.

Lemma nm_inodes :
  disk_inode ex_sb view 1 = i_dinode nm_root ∧ disk_inode ex_sb view 2 = i_dinode nm_dir ∧
  disk_inode ex_sb view 3 = i_dinode nm_file.
Proof using Hv. split_and!; apply nm_inode; by vm_compute. Qed.

(** A directory of two entries in one block. *)
Lemma nm_dents i a :
  i_addrs i = a :: replicate 12 0 → i_size i = 32 → a ≠ 2 → dents view i = dents nm_img i.
Proof using Hv.
  intros Ha Hs Hn. unfold dents. apply list_fmap_ext. intros k j Hj. apply lookup_seqZ in Hj as [-> Hk].
  rewrite Hs in Hk. change (32 / DESZ) with 2 in Hk. unfold dent, fbytes. f_equal. apply list_fmap_ext. intros m o Ho.
  apply lookup_seqZ in Ho as [-> Hm]. unfold fbyte.
  assert ((DESZ * (0 + Z.of_nat k) + Z.of_nat m) / BSIZE = 0) as -> by (unfold DESZ, BSIZE in *; dlia).
  assert (∀ w, faddr w i 0 = a) as Hf by (intros w; unfold faddr, iaddr; by rewrite Ha). rewrite !Hf. f_equal. by apply Hv.
Qed.

Lemma nm_tree : tree_ok ex_sb view {[1; 2; 3]}.
Proof using Hv.
  destruct nm_inodes as (E1 & E2 & E3).
  assert (∀ n, n ∈ ({[1; 2; 3]} : gset Z) → n = 1 ∨ n = 2 ∨ n = 3) as Hc by set_solver.
  assert (∀ i a, i_dev i = ROOTDEV → i_type i = T_DIR → i_addrs i = a :: replicate 12 0 → 59 ≤ a ≤ 60 → i_size i = 32 →
    dir_wf ex_sb view i) as Hw.
  { intros i a Hd Ht Ha Hr Hs. split; [|done|by rewrite Hs]. apply (single_wf _ _ a); try done; [by rewrite Hv|lia]. }
  split.
  - intros n Hn. unfold inum_ok. change (sb_ninodes ex_sb) with 200. destruct (Hc n Hn) as [->|[->| ->]]; lia.
  - intros n Hn. destruct (Hc n Hn) as [->|[->| ->]]; rewrite ?E1, ?E2, ?E3; done.
  - intros n Hn. destruct (Hc n Hn) as [->|[->| ->]]; rewrite ?E1, ?E2, ?E3; done.
  - intros n Hn Hd. unfold is_dir in Hd. destruct (Hc n Hn) as [->|[->| ->]]; [apply (Hw _ 59)|apply (Hw _ 60)|by rewrite E3 in Hd];
      unfold ondisk; rewrite ?E1, ?E2; done.
  - intros n de Hn Hd Hde _. unfold is_dir in Hd. destruct (Hc n Hn) as [->|[->| ->]]; [..|by rewrite E3 in Hd].
    + rewrite (nm_dents _ 59) in Hde by (unfold ondisk; rewrite ?E1; done). unfold ondisk in Hde. rewrite E1 in Hde.
      revert de Hde. apply Forall_forall. apply (bool_decide_unpack _). by vm_compute.
    + rewrite (nm_dents _ 60) in Hde by (unfold ondisk; rewrite ?E2; done). unfold ondisk in Hde. rewrite E2 in Hde.
      revert de Hde. apply Forall_forall. apply (bool_decide_unpack _). by vm_compute.
Qed.

(** "/d//f" *)
Lemma nm_resolve : resolve ex_sb view ROOTINO (path_elems [47; 100; 47; 47; 102]) false = Some 3.
Proof using Hv.
  destruct nm_inodes as (E1 & E2 & E3). change (path_elems _) with [[100]; [102]]. unfold ROOTINO.
  cbn [resolve walk]. unfold is_dir at 1. rewrite E1. unfold dir_get at 1.
  rewrite (nm_dents _ 59) by (unfold ondisk; rewrite ?E1; done). unfold ondisk at 1. rewrite E1.
  replace (list_find _ _) with (Some (1%nat, new_dirent [100] 2)) by (vm_compute; reflexivity). 
  cbn [i_type nm_root i_dinode di_type Z.eqb T_DIR]. change (de_inum (new_dirent [100] 2)) with 2.
  unfold is_dir. rewrite E2. unfold dir_get. rewrite (nm_dents _ 60) by (unfold ondisk; rewrite ?E2; done). unfold ondisk. rewrite E2.
  replace (list_find _ _) with (Some (1%nat, new_dirent [102] 3)) by (vm_compute; reflexivity). done.
Qed.

End example.

Lemma namex_resolves_witness :
  ∃ l ip s', namex (D := ide_state) (λ _, None) [47; 100; 47; 47; 102] false (replicate 14 0) 1
      (mk_fstate l ex_sb (replicate 3 inode_zero) (λ _, None)) = Ret (Some ip, s'.1) s'.2 ∧ sits (f_icache s'.2) ip 3.
Proof.
  destruct (tx_example nm_img nm_img_ok eq_refl eq_refl) as (l & t & Ht & Hh & Hl & Hv).
  set (s := mk_fstate l ex_sb (replicate 3 inode_zero) (λ _, None)).
  destruct (namex_resolves (λ _, None) 1 s t {[1; 2; 3]} [47; 100; 47; 47; 102] false (replicate 14 0) ROOTINO)
    as (r & name' & s' & E & _ & _ & _ & _ & R & _).
  - apply Ht.
  - exact Hh.
  - unfold tx_room. rewrite Hl, Hh, dom_empty_L, union_empty_l_L, size_empty. unfold NBUF. lia.
  - apply nm_tree, Hv.
  - split; [split|].
    + intros k i [-> _]%lookup_replicate. done.
    + intros p q i j [-> _]%lookup_replicate _ (Hr & _) _. by simpl in Hr.
    + intros k i [-> _]%lookup_replicate. split; [done|]. by intros Hr.
  - exists 0%nat, 1%nat, inode_zero, inode_zero. done.
  - apply (bool_decide_unpack (Forall _ _)). by vm_compute.
  - by apply Forall_replicate.
  - done.
  - set_solver.
  - cbn [f_sb s] in R. rewrite (nm_resolve _ Hv) in R. destruct R as (ip & -> & Hs & _).
    exists l, ip, (name', s'). split; [exact E|exact Hs].
Defined.
