(* ===== verification/FsTrans.v ===== *)
(** * Transactions of the file system

    Between operations the journal is empty and the disk holds the current
    content of every block outside the log.  [begin_op] and [end_op] lead from
    there into a transaction and back. *)

From S2P Require Import Prelude Layout Sleeplock Disk Ide Bio BioSpec Crc32 Log LogImg LogSpec LogTxn LogCrash Journal LogReserve CString Fs FsTx FsBlock FsFile FsRw FsInode.

#[local] Arguments img_apply : simpl never.

Lemma keeps_lift_in {S T A B} `{Lens S T} (f : S → B) (g : T → B) (m : M T A) :
  (∀ s, f s = g (lget s)) → (∀ t s, f (lput t s) = g t) → keeps g m → keeps f (lift m).
Proof.
  intros Hf Hg Hm pid s a s' E. unfold lift in E. destruct (m pid (lget s)) as [b t| | |] eqn:Em; try done.
  injection E as <- <-. rewrite Hg, Hf. by eapply Hm.
Qed.

(** ** Views that agree outside the log *)

Definition same_data (sb : superblock) (view view' : Z → block) : Prop := ∀ n, ¬ fs_log_area sb n → view' n = view n.

Section agree.
Context (sb : superblock) (Hsb : sb_ok sb) (view view' : Z → block) (Hv : same_data sb view view').

Lemma agree_at n : sb_inodestart sb ≤ n → view' n = view n.
Proof. intros Hn. apply Hv. destruct Hsb. unfold fs_log_area, log_area. lia. Qed.

Lemma agree_used b : 0 ≤ b < sb_size sb → used sb view' b ↔ used sb view b.
Proof. intros Hb. pose proof (sb_bounds _ Hsb). apply used_frame; [done| |done]. apply agree_at. lia. Qed.

Lemma agree_free : free_blocks sb view' = free_blocks sb view.
Proof.
  apply set_eq. intros n. rewrite !elem_of_free. destruct (decide (0 ≤ n < sb_size sb)); [|naive_solver]. by rewrite agree_used.
Qed.

Lemma agree_map : map_wf sb view → map_wf sb view'.
Proof. intros Hm b Hb. pose proof (sb_bounds _ Hsb). unfold datastart in Hb. apply agree_used; [lia|]. by apply Hm. Qed.

Lemma agree_data n : data_block sb n → view' n = view n.
Proof. pose proof (sb_bounds _ Hsb). unfold data_block, datastart. intros Hn. apply agree_at. lia. Qed.

Lemma agree_file i : file_wf sb view i → file_wf sb view' i.
Proof.
  intros W. assert (i = i_set_size (i_size i) i) as -> by (by destruct i). pose proof (sb_bounds _ Hsb).
  eapply file_wf_frame; try done; [exact agree_data|apply agree_at; lia|apply W|apply W].
Qed.

Lemma agree_slot i k : file_wf sb view i → fslot view' i k = fslot view i k.
Proof. intros W. by apply (fslot_frame sb); [|exact agree_data]. Qed.

Lemma agree_byte i o : file_wf sb view i → 0 ≤ o < i_size i → fbyte view' i o = fbyte view i o.
Proof.
  intros W Ho. pose proof (fw_size _ _ _ W) as Hs. unfold fbyte.
  assert (0 ≤ o / BSIZE < MAXFILE) as Hb by (rewrite maxfile_140 in *; unfold BSIZE in *; dlia).
  rewrite <- !fslot_faddr, agree_slot by done. rewrite agree_data; [done|]. apply W; [lia|].
  rewrite fslot_faddr by done. apply W; unfold BSIZE; dlia.
Qed.

Lemma agree_inode j : inum_ok sb j → disk_inode sb view' j = disk_inode sb view j.
Proof. intros Hj. unfold disk_inode. destruct (iblock_range sb j Hsb Hj) as [_ Hb]. by rewrite agree_at by lia. Qed.

End agree.

Section trans.
Context {D : Type} `{DiskFlushOk D} `{!DiskDriverOk D}.
Implicit Types (s : fstate D) (t : txv) (l : lstate D).

(** What decides whether [end_op] commits, and whether the commit is a crash
    test. *)
Definition lctl l : Z * Z * Z := (l_outstanding l, l_committing l, crash_at_phase l).
Definition fctl s : Z * Z * Z := lctl (f_log s).

Record idle (pid : Z) s (view : Z → block) : Prop := mk_idle {
  id_sb : sb_ok (f_sb s);
  id_ctl : ∃ ph, fctl s = (0, 0, ph) ∧ ph ∉ [1; 2; 3];
  id_log : ∃ a, lrep pid (f_log s) a (sb_logstart (f_sb s)) (sb_nlog (f_sb s)) [] ∧ ∀ n, ca_view a n = view n;
}.

Lemma begin_tx pid s view :
  idle pid s view →
  ∃ l', lift begin_op pid s = Ret tt (f_set_log l' s) ∧ txrep pid (f_set_log l' s) (mk_txv view ∅ ∅) ∧
    ∃ ph, lctl l' = (1, 0, ph) ∧ ph ∉ [1; 2; 3].
Proof.
  intros [Hsb (ph & Hc & Hph) (a & Hl & Hv)]. unfold fctl, lctl in Hc. injection Hc as Ho Hcm Hp.
  pose proof (lr_n _ _ (lp_lh _ _ _ _ _ _ Hl)) as Hn. simpl in Hn.
  set (l1 := l_set_batch_size (s32 (l_batch_size (f_log s) + 1)) (l_set_outstanding (l_outstanding (f_log s) + 1) (f_log s))).
  assert (begin_op pid (f_log s) = Ret tt l1) as E.
  { rewrite begin_op_eq. replace (_ || _) with false; [done|]. by rewrite Hcm, Ho, Hn. }
  exists l1. split; [exact (lift_Ret _ _ s _ _ E)|]. split.
  - split; [done|]. split; [simpl; lia|]. exists a, []. split; [|split_and!; try done; symmetry; apply (lp_held _ _ _ _ _ _ Hl)].
    apply lrep_lop, (lrep_frame pid (f_log s)); done.
  - exists ph. split; [|done]. unfold lctl, l1. simpl. by rewrite Ho, Hcm, Hp.
Qed.

Lemma keeps_end_op : keeps crash_at_phase (end_op (D := D)).
Proof.
  unfold end_op, wakeup_log, commit, write_log, write_log_one, write_head, write_head_one, install_trans, install_one,
    corrupt_log, log_crc32, lh_upd, js_upd. keeps.
Qed.

Lemma end_tx pid s t ph :
  txrep pid s t → tv_held t = ∅ → fctl s = (1, 0, ph) → ph ∉ [1; 2; 3] →
  ∃ l' view', lift end_op pid s = Ret tt (f_set_log l' s) ∧ idle pid (f_set_log l' s) view' ∧
    ∀ n, ¬ fs_log_area (f_sb s) n → view' n = tv_view t n.
Proof.
  intros (Hsb & _ & a & es & Hl & Hv & Hlg & Hh) Hhe Hc Hph. unfold fctl, lctl in Hc. injection Hc as Ho Hcm Hp.
  destruct (end_op_last pid (f_log s) a _ _ es (lop_lrep _ _ _ _ _ _ Hl ltac:(congruence)) Ho Hcm) as (l' & a' & E & Hl' & Ho' & Hcm' & _ & Hv' & _);
    [by rewrite Hp|].
  exists l', (ca_view a'). split; [exact (lift_Ret _ _ s _ _ E)|]. split.
  - split; [done| |by exists a']. exists (crash_at_phase l'). unfold fctl, lctl. simpl. rewrite Ho', Hcm'. split; [done|].
    by rewrite (keeps_end_op _ _ _ _ E), Hp.
  - intros n Hn. rewrite <- Hv. by apply Hv'.
Qed.

(** ** The operations of fs.c do not touch the control part *)

Lemma keeps_log {A} (m : M (lstate D) A) : keeps lctl m → keeps fctl (lift m).
Proof. by apply keeps_lift_in. Qed.
Lemma keeps_f_bread dev n : keeps fctl (f_bread (D := D) dev n).
Proof. apply keeps_log. keeps. Qed.
Lemma keeps_f_bdata bp : keeps fctl (f_bdata (D := D) bp).
Proof. apply keeps_log. keeps. Qed.
Lemma keeps_f_bset bp d : keeps fctl (f_bset (D := D) bp d).
Proof. apply keeps_log. keeps. Qed.
Lemma keeps_f_brelse bp : keeps fctl (f_brelse (D := D) bp).
Proof. apply keeps_log. keeps. Qed.
Lemma keeps_f_bwrite bp : keeps fctl (f_bwrite (D := D) bp).
Proof. apply keeps_log. keeps. Qed.
Lemma keeps_f_log_write bp o n : keeps fctl (f_log_write (D := D) bp o n).
Proof. apply keeps_log. unfold log_write, lh_upd, js_upd. keeps. Qed.
#[local] Hint Resolve keeps_f_bread keeps_f_bdata keeps_f_bset keeps_f_brelse keeps_f_bwrite keeps_f_log_write : keeps.

Lemma keeps_iat ip : keeps fctl (iat (D := D) ip).
Proof. unfold iat. keeps. Qed.
Lemma keeps_iset ip g : keeps fctl (iset (D := D) ip g).
Proof. unfold iset. keeps. Qed.
#[local] Hint Resolve keeps_iat keeps_iset : keeps.
Lemma keeps_bzero dev b : keeps fctl (bzero (D := D) dev b).
Proof. unfold bzero. keeps. Qed.
#[local] Hint Resolve keeps_bzero : keeps.
Lemma keeps_balloc_loop fuel dev : ∀ b, keeps fctl (balloc_loop (D := D) fuel dev b).
Proof. induction fuel as [|k IH]; intros b; cbn [balloc_loop]; keeps. Qed.
#[local] Hint Resolve keeps_balloc_loop : keeps.
Lemma keeps_balloc dev : keeps fctl (balloc (D := D) dev).
Proof. unfold balloc. keeps. Qed.
Lemma keeps_bfree dev b : keeps fctl (bfree (D := D) dev b).
Proof. unfold bfree. keeps. Qed.
#[local] Hint Resolve keeps_balloc keeps_bfree : keeps.
Lemma keeps_bmap ip bn : keeps fctl (bmap (D := D) ip bn).
Proof. unfold bmap. keeps. Qed.
Lemma keeps_iupdate ip : keeps fctl (iupdate (D := D) ip).
Proof. unfold iupdate. keeps. Qed.
#[local] Hint Resolve keeps_bmap keeps_iupdate : keeps.
Lemma keeps_itrunc ip : keeps fctl (itrunc (D := D) ip).
Proof. unfold itrunc, itrunc_direct, itrunc_indirect. keeps. Qed.
#[local] Hint Resolve keeps_itrunc : keeps.
Lemma keeps_ilock ip : keeps fctl (ilock (D := D) ip).
Proof. unfold ilock, ilock_acquire. keeps. Qed.
Lemma keeps_iunlock ip : keeps fctl (iunlock (D := D) ip).
Proof. unfold iunlock. keeps. Qed.
#[local] Hint Resolve keeps_ilock keeps_iunlock : keeps.
Lemma keeps_iput ip : keeps fctl (iput (D := D) ip).
Proof. unfold iput, ilock_acquire. keeps. Qed.
Lemma keeps_iget dev n : keeps fctl (iget (D := D) dev n).
Proof. unfold iget. keeps. Qed.
#[local] Hint Resolve keeps_iput keeps_iget : keeps.
Lemma keeps_idup ip : keeps fctl (idup (D := D) ip).
Proof. unfold idup. keeps. Qed.
Lemma keeps_iunlockput ip : keeps fctl (iunlockput (D := D) ip).
Proof. unfold iunlockput. keeps. Qed.
Lemma keeps_ialloc_loop fuel dev ty : ∀ n, keeps fctl (ialloc_loop (D := D) fuel dev ty n).
Proof. induction fuel as [|k IH]; intros b; cbn [ialloc_loop]; keeps. Qed.
#[local] Hint Resolve keeps_idup keeps_iunlockput keeps_ialloc_loop : keeps.
Lemma keeps_ialloc dev ty : keeps fctl (ialloc (D := D) dev ty).
Proof. unfold ialloc. keeps. Qed.
Lemma keeps_readi_loop fuel ip : ∀ tot off n, keeps fctl (readi_loop (D := D) fuel ip tot off n).
Proof. induction fuel as [|k IH]; intros tot off n; cbn [readi_loop]; keeps. Qed.
Lemma keeps_writei_loop fuel ip src : ∀ tot off n, keeps fctl (writei_loop (D := D) fuel ip src tot off n).
Proof. induction fuel as [|k IH]; intros tot off n; cbn [writei_loop]; keeps. Qed.
#[local] Hint Resolve keeps_ialloc keeps_readi_loop keeps_writei_loop : keeps.

Lemma keeps_writei devsw_write ip src off n :
  (∀ ma g, devsw_write ma = Some g → ∀ d, keeps fctl (g d)) → keeps fctl (writei (D := D) devsw_write ip src off n).
Proof. intros Hd. unfold writei. keeps. by eapply Hd. Qed.

Lemma keeps_readi devsw_read ip off n :
  (∀ ma g, devsw_read ma = Some g → ∀ k, keeps fctl (g k)) → keeps fctl (readi (D := D) devsw_read ip off n).
Proof. intros Hd. unfold readi. keeps. by eapply Hd. Qed.

(** ** One write of a file as a transaction *)

(** A file between operations, in entry [ip] of the inode cache. *)
Record fidle (pid : Z) s (view : Z → block) (ip : nat) (i : inode) : Prop := mk_fidle {
  fi_idle : idle pid s view;
  fi_inode : f_icache s !! ip = Some i;
  fi_ref : 1 ≤ i_ref i;
  fi_lock : sl_locked (i_lock i) = 0;
  fi_valid : i_valid i ≠ 0;
  fi_wf : file_wf (f_sb s) view i;
  fi_map : map_wf (f_sb s) view;
  fi_shorts : shorts i;
  fi_inum : inum_ok (f_sb s) (i_inum i);
  fi_disk : disk_inode (f_sb s) view (i_inum i) = i_dinode i;
  fi_type : i_type i ≠ T_DEV;
}.

End trans.

(** What writing [data] at [off] did to the file and to the disk, when it took
    [blocks] new data blocks at most. *)
Record fchanged (sb : superblock) (view : Z → block) (i : inode) (off : Z) (data : list Z) (blocks : nat)
    (view' : Z → block) (i' : inode) : Prop := mk_fchanged {
  fc_size : i_size i' = Z.max (i_size i) (off + Z.of_nat (length data));
  fc_inum : i_inum i' = i_inum i;
  fc_bytes : ∀ o, 0 ≤ o < i_size i' → fbyte view' i' o =
    if decide (off ≤ o < off + Z.of_nat (length data)) then nth (Z.to_nat (o - off)) data 0 else fbyte view i o;
  fc_free : free_blocks sb view' ⊆ free_blocks sb view;
  fc_new : ∀ k, 0 ≤ k ≤ MAXFILE → fslot view' i' k ≠ fslot view i k → fslot view' i' k ∈ free_blocks sb view;
  fc_frame : ∀ n, ¬ fs_log_area sb n → n ∉ free_blocks sb view → n ≠ sb_bmapstart sb → n ≠ IBLOCK (i_inum i) sb →
    (∀ k, 0 ≤ k ≤ MAXFILE → n ≠ fslot view i k) → view' n = view n;
  fc_inodes : ∀ j, inum_ok sb j → j ≠ i_inum i → disk_inode sb view' j = disk_inode sb view j;
  fc_space : (size (free_blocks sb view) + ind0 i' ≤ size (free_blocks sb view') + blocks + ind0 i)%nat;
}.

Lemma fchanged_refl sb view i off : 0 ≤ off ≤ i_size i → fchanged sb view i off [] 0 view i.
Proof. split; try done; simpl; [lia| |lia]. intros o Ho. rewrite decide_False by lia. done. Qed.

Lemma fchanged_trans sb view0 i0 off d1 b1 view1 i1 d2 b2 view2 i2 :
  0 ≤ off → fchanged sb view0 i0 off d1 b1 view1 i1 →
  fchanged sb view1 i1 (off + Z.of_nat (length d1)) d2 b2 view2 i2 →
  fchanged sb view0 i0 off (d1 ++ d2) (b1 + b2) view2 i2.
Proof.
  intros Ho A B. pose proof (fc_size _ _ _ _ _ _ _ _ A) as A1. pose proof (fc_size _ _ _ _ _ _ _ _ B) as B1.
  pose proof (fc_inum _ _ _ _ _ _ _ _ A) as A2. split.
  - rewrite length_app. lia.
  - rewrite (fc_inum _ _ _ _ _ _ _ _ B). done.
  - intros o Hi. rewrite (fc_bytes _ _ _ _ _ _ _ _ B) by done. rewrite length_app.
    destruct (decide (_ ≤ o < _)) as [Hd|Hd].
    + rewrite decide_True by lia. rewrite app_nth2 by lia. f_equal. lia.
    + rewrite (fc_bytes _ _ _ _ _ _ _ _ A) by lia. destruct (decide (off ≤ o < off + _)).
      * rewrite decide_True by lia. by rewrite app_nth1 by lia.
      * by rewrite decide_False by lia.
  - etrans; [apply B|apply A].
  - intros k Hk Hne. destruct (decide (fslot view2 i2 k = fslot view1 i1 k)) as [E|E].
    + rewrite E in *. by apply (fc_new _ _ _ _ _ _ _ _ A).
    + by apply (fc_free _ _ _ _ _ _ _ _ A), (fc_new _ _ _ _ _ _ _ _ B).
  - intros n Hl Hf Hb Hin Hs. rewrite (fc_frame _ _ _ _ _ _ _ _ B); try done.
    + by apply (fc_frame _ _ _ _ _ _ _ _ A).
    + intros Hx. by apply Hf, (fc_free _ _ _ _ _ _ _ _ A).
    + by rewrite A2.
    + intros k Hk ->. destruct (decide (fslot view1 i1 k = fslot view0 i0 k)) as [E|E]; [by apply (Hs k)|].
      by apply Hf, (fc_new _ _ _ _ _ _ _ _ A).
  - intros j Hj Hn. rewrite (fc_inodes _ _ _ _ _ _ _ _ B) by (rewrite ?A2; done). by apply (fc_inodes _ _ _ _ _ _ _ _ A).
  - pose proof (fc_space _ _ _ _ _ _ _ _ A). pose proof (fc_space _ _ _ _ _ _ _ _ B). lia.
Qed.

Section trans_write.
Context {D : Type} `{DiskFlushOk D} `{!DiskDriverOk D}.
Implicit Types (s : fstate D) (t : txv) (l : lstate D).

(** A transaction's change of a file, seen after the commit. *)
Lemma committed_change pid sb t t' i i' off data view' :
  sb_ok sb → written sb t (i_locked pid i) off data t' i' → same_data sb (tv_view t') view' →
  fchanged sb (tv_view t) i off data (nblk off (Z.of_nat (length data))) view' (i_unlocked i').
Proof.
  intros Hsb W Hv. pose proof (wn_inode _ _ _ _ _ _ _ W) as Ei. pose proof (wn_wf _ _ _ _ _ _ _ W) as Wf. split.
  - by rewrite Ei.
  - by rewrite Ei.
  - intros o Ho. change (fbyte view' (i_unlocked i') o) with (fbyte view' i' o).
    rewrite (agree_byte sb Hsb _ _ Hv) by done. by apply (wn_bytes _ _ _ _ _ _ _ W).
  - rewrite (agree_free sb Hsb _ _ Hv). apply W.
  - intros k Hk. change (fslot view' (i_unlocked i') k) with (fslot view' i' k).
    rewrite (agree_slot sb Hsb _ _ Hv) by done. by apply (wn_new _ _ _ _ _ _ _ W).
  - intros n Hl Hf Hb Hi Hs. rewrite (Hv n Hl). by apply (wn_frame _ _ _ _ _ _ _ W).
  - intros j Hj Hn. rewrite (agree_inode sb Hsb _ _ Hv) by done. by apply (wn_inodes _ _ _ _ _ _ _ W).
  - rewrite (agree_free sb Hsb _ _ Hv). apply W.
Qed.

Lemma wtx_idle pid s view ip i off data i' t' view' l' :
  fidle pid s view ip i → written (f_sb s) (mk_txv view ∅ ∅) (i_locked pid i) off data t' i' →
  same_data (f_sb s) (tv_view t') view' → idle pid (f_put ip (i_unlocked i') l' s) view' →
  fidle pid (f_put ip (i_unlocked i') l' s) view' ip (i_unlocked i').
Proof.
  intros F W Hv Hid. pose proof (wn_inode _ _ _ _ _ _ _ W) as Ei. pose proof (id_sb _ _ _ (fi_idle _ _ _ _ _ F)) as Hsb.
  assert (i_inum i' = i_inum i) as En by (by rewrite Ei).
  split; try done; [by apply (f_put_lookup ip i), F|rewrite Ei; apply F|rewrite Ei; apply F| | |rewrite Ei; apply F| | |rewrite Ei; apply F].
  - apply file_wf_lock, (agree_file (f_sb s) Hsb (tv_view t')); [done|apply W].
  - apply (agree_map (f_sb s) Hsb (tv_view t')); [done|apply W].
  - simpl. rewrite En. apply F.
  - simpl. rewrite En. rewrite (agree_inode (f_sb s) Hsb (tv_view t')) by (done || apply F).
    by apply (wn_disk _ _ _ _ _ _ _ W), F.
Qed.

Context (devsw_write : Z → option (list Z → M (fstate D) Z)).

(** The device table is not consulted for a file. *)
Lemma writei_file pid s ip i src off n :
  f_icache s !! ip = Some i → i_type i ≠ T_DEV →
  writei devsw_write ip src off n pid s = writei (λ _, None) ip src off n pid s.
Proof. intros Hi Ht. unfold writei. rewrite !(bind_Ret _ _ _ _ _ _ (iat_run pid s ip i Hi)). by rewrite (proj2 (Z.eqb_neq _ _)). Qed.

Lemma writei_ctl pid s ip i src off n r s' :
  f_icache s !! ip = Some i → i_type i ≠ T_DEV → writei devsw_write ip src off n pid s = Ret r s' → fctl s' = fctl s.
Proof. intros Hi Ht. rewrite (writei_file pid s ip i) by done. by apply keeps_writei. Qed.

(** One turn of the loop of [filewrite]: the calls, in the order it makes
    them. *)
Lemma write_tx pid s view ip i src off n :
  fidle pid s view ip i → 0 ≤ off ≤ i_size i → 0 ≤ n → off + n ≤ MAXFILE * BSIZE → n ≤ Z.of_nat (length src) → bytes src →
  (nblk off n ≤ 7)%nat → (nblk off n + ind0 i ≤ size (free_blocks (f_sb s) view))%nat →
  ∃ s1 s2 s3 s4 l5 t view' i',
    lift begin_op pid s = Ret tt s1 ∧ ilock (Some ip) pid s1 = Ret tt s2 ∧
    writei devsw_write ip src off n pid s2 = Ret n s3 ∧ iunlock (Some ip) pid s3 = Ret tt s4 ∧
    lift end_op pid s4 = Ret tt (f_put ip i' l5 s) ∧
    txrep pid s3 t ∧ (size (tv_logged t) ≤ Z.to_nat MAXOPBLOCKS)%nat ∧
    fidle pid (f_put ip i' l5 s) view' ip i' ∧
    fchanged (f_sb s) view i off (take (Z.to_nat n) src) (nblk off n) view' i'.
Proof.
  intros F Hoff Hn Hmax Hsrc Hby Hnb Hsp. destruct (begin_tx pid s view (fi_idle _ _ _ _ _ F)) as (l1 & E1 & Ht1 & ph & Hc1 & Hph).
  set (s1 := f_set_log l1 s) in *. pose proof (fi_inode _ _ _ _ _ F : f_icache s1 !! ip = Some i) as Hi1.
  pose proof (ilock_run_valid pid s1 ip i Hi1 (fi_ref _ _ _ _ _ F) (fi_lock _ _ _ _ _ F) (fi_valid _ _ _ _ _ F)) as E2.
  set (s2 := f_put ip (i_locked pid i) (f_log s1) s1) in *.
  pose proof (f_put_lookup ip i (i_locked pid i) (f_log s1) s1 Hi1 : f_icache s2 !! ip = Some (i_locked pid i)) as Hi2.
  destruct (writei_run devsw_write pid s2 (mk_txv view ∅ ∅) ip (i_locked pid i) src off n) as (l3 & i3 & t3 & E3 & Ht3 & Hw);
    try done; try apply F.
  { apply file_wf_lock, F. }
  { pose proof (tx_cost_le (f_sb s2) (i_locked pid i) (mk_txv view ∅ ∅)) as Hcl. cbn [tv_logged] in Hcl.
    rewrite size_empty in Hcl. lia. }
  pose proof (f_put_lookup ip (i_locked pid i) i3 l3 s2 Hi2) as Hi3. set (s3 := f_put ip i3 l3 s2) in *.
  pose proof (wn_inode _ _ _ _ _ _ _ Hw) as Ei.
  assert (i_ref i3 = i_ref i ∧ holdingsleep pid (i_lock i3) = true) as [Er Hlk].
  { rewrite Ei. split; [done|]. unfold holdingsleep. simpl. apply Z.eqb_refl. }
  pose proof (iunlock_run pid s3 ip i3 Hi3 ltac:(rewrite Er; apply F) Hlk) as E4.
  set (s4 := f_put ip (i_unlocked i3) (f_log s3) s3) in *.
  assert (txrep pid s4 t3) as Ht4 by (by destruct s).
  assert (fctl s4 = (1, 0, ph)) as Hc4.
  { change (fctl s4) with (fctl s3). rewrite (writei_ctl pid s2 ip _ src off n n s3 Hi2 (fi_type _ _ _ _ _ F) E3). exact Hc1. }
  destruct (end_tx pid s4 t3 ph Ht4 (wn_held _ _ _ _ _ _ _ Hw) Hc4 Hph) as (l5 & view' & E5 & Hid & Hv).
  assert (f_set_log l5 s4 = f_put ip (i_unlocked i3) l5 s) as Es.
  { unfold s4, s3, s2, s1, f_put. destruct s. simpl. by rewrite !list_insert_insert_eq. }
  rewrite Es in *. exists s1, s2, s3, s4, l5, t3, view', (i_unlocked i3).
  assert (Z.of_nat (length (take (Z.to_nat n) src)) = n) as Hdl by (rewrite length_take; lia).
  split_and!; try done.
  - pose proof (wn_logged _ _ _ _ _ _ _ Hw) as Hl. cbn [tv_logged] in Hl. rewrite Hdl, size_empty in Hl. unfold MAXOPBLOCKS. lia.
  - by apply (wtx_idle pid s view ip i off (take (Z.to_nat n) src) i3 t3 view' l5).
  - rewrite <- Hdl at 2. exact (committed_change pid (f_sb s) (mk_txv view ∅ ∅) t3 i i3 off _ view' (id_sb _ _ _ (fi_idle _ _ _ _ _ F)) Hw Hv).
Qed.

End trans_write.
#[export] Hint Resolve keeps_iat keeps_iset keeps_iupdate keeps_itrunc keeps_ilock keeps_iunlock
  keeps_iput keeps_iget keeps_idup keeps_iunlockput keeps_ialloc : keeps.
