(* ===== verification/Kernel.v ===== *)
(** * The state of the kernel (struct proc of proc.h, struct file of file.h,
    struct trapframe of x86.h)

    One state for the process table, the file table, the pipes, the page
    allocator and the file system.  A process pointer is an index of the
    process table, a file pointer an index of the file table, the null pointer
    [None].  Trap frames and saved contexts are bytes of the kernel stack
    pages; user memory is reached through the page table of the process. *)

From S2P Require Import Prelude Layout Sleeplock Disk Bio Crc32 Log CString Mem Kalloc Vm Pipe Fs.

(** ** struct file *)

Inductive ftype := FD_NONE | FD_PIPE | FD_INODE.
#[global] Instance ftype_eq_dec : EqDecision ftype.
Proof. solve_decision. Defined.

Record file := mk_file {
  fl_type : ftype;
  fl_ref : Z;
  fl_readable : Z;
  fl_writable : Z;
  fl_pipe : Z;
  fl_ip : option nat;
  fl_off : Z;
}.

Definition fl_set_type t f := mk_file t (fl_ref f) (fl_readable f) (fl_writable f) (fl_pipe f) (fl_ip f) (fl_off f).
Definition fl_set_ref r f := mk_file (fl_type f) r (fl_readable f) (fl_writable f) (fl_pipe f) (fl_ip f) (fl_off f).
Definition fl_set_mode r w f := mk_file (fl_type f) (fl_ref f) r w (fl_pipe f) (fl_ip f) (fl_off f).
Definition fl_set_pipe p f := mk_file (fl_type f) (fl_ref f) (fl_readable f) (fl_writable f) p (fl_ip f) (fl_off f).
Definition fl_set_ip ip f := mk_file (fl_type f) (fl_ref f) (fl_readable f) (fl_writable f) (fl_pipe f) ip (fl_off f).
Definition fl_set_off o f := mk_file (fl_type f) (fl_ref f) (fl_readable f) (fl_writable f) (fl_pipe f) (fl_ip f) o.

Definition file_zero : file := mk_file FD_NONE 0 0 0 0 None 0.

(** ** struct proc *)

Definition KSTACKSIZE : Z := 4096.

Inductive procstate := UNUSED | EMBRYO | SLEEPING | RUNNABLE | RUNNING | ZOMBIE.
#[global] Instance procstate_eq_dec : EqDecision procstate.
Proof. solve_decision. Defined.

(** [p_tf] and [p_context] are addresses in the kernel stack.  The current
    directory of a process is [f_cwd] of the file system. *)
Record proc := mk_proc {
  p_sz : Z;
  p_pgdir : Z;
  p_kstack : Z;
  p_state : procstate;
  p_pid : Z;
  p_parent : option nat;
  p_tf : Z;
  p_context : Z;
  p_chan : option channel;
  p_killed : Z;
  p_ofile : list (option nat);
  p_name : list Z;
}.

Definition p_set_mem sz pgdir p := mk_proc sz pgdir (p_kstack p) (p_state p) (p_pid p) (p_parent p) (p_tf p) (p_context p) (p_chan p) (p_killed p) (p_ofile p) (p_name p).
Definition p_set_kstack k p := mk_proc (p_sz p) (p_pgdir p) k (p_state p) (p_pid p) (p_parent p) (p_tf p) (p_context p) (p_chan p) (p_killed p) (p_ofile p) (p_name p).
Definition p_set_state st p := mk_proc (p_sz p) (p_pgdir p) (p_kstack p) st (p_pid p) (p_parent p) (p_tf p) (p_context p) (p_chan p) (p_killed p) (p_ofile p) (p_name p).
Definition p_set_pid n p := mk_proc (p_sz p) (p_pgdir p) (p_kstack p) (p_state p) n (p_parent p) (p_tf p) (p_context p) (p_chan p) (p_killed p) (p_ofile p) (p_name p).
Definition p_set_parent q p := mk_proc (p_sz p) (p_pgdir p) (p_kstack p) (p_state p) (p_pid p) q (p_tf p) (p_context p) (p_chan p) (p_killed p) (p_ofile p) (p_name p).
Definition p_set_frames tf cx p := mk_proc (p_sz p) (p_pgdir p) (p_kstack p) (p_state p) (p_pid p) (p_parent p) tf cx (p_chan p) (p_killed p) (p_ofile p) (p_name p).
Definition p_set_chan c p := mk_proc (p_sz p) (p_pgdir p) (p_kstack p) (p_state p) (p_pid p) (p_parent p) (p_tf p) (p_context p) c (p_killed p) (p_ofile p) (p_name p).
Definition p_set_killed k p := mk_proc (p_sz p) (p_pgdir p) (p_kstack p) (p_state p) (p_pid p) (p_parent p) (p_tf p) (p_context p) (p_chan p) k (p_ofile p) (p_name p).
Definition p_set_ofile o p := mk_proc (p_sz p) (p_pgdir p) (p_kstack p) (p_state p) (p_pid p) (p_parent p) (p_tf p) (p_context p) (p_chan p) (p_killed p) o (p_name p).
Definition p_set_name n p := mk_proc (p_sz p) (p_pgdir p) (p_kstack p) (p_state p) (p_pid p) (p_parent p) (p_tf p) (p_context p) (p_chan p) (p_killed p) (p_ofile p) n.

Definition proc_zero : proc :=
  mk_proc 0 0 0 UNUSED 0 None 0 0 None 0 (replicate (Z.to_nat NOFILE) None) (replicate 16 0).

(** Offsets of the fields of struct trapframe and of struct context. *)
Definition TF_EAX : Z := 28.
Definition TF_ES : Z := 40.
Definition TF_DS : Z := 44.
Definition TF_EIP : Z := 56.
Definition TF_CS : Z := 60.
Definition TF_EFLAGS : Z := 64.
Definition TF_ESP : Z := 68.
Definition TF_SS : Z := 72.
Definition SIZEOF_TF : Z := 76.
Definition CX_EIP : Z := 16.
Definition SIZEOF_CX : Z := 20.

(** The kernel's access to virtual address [va] while the directory [pgdir]
    is loaded: the processor's walk of the table, in supervisor mode with
    write protection on. *)
Definition kern_access (m : mem) (pgdir va : Z) (write : bool) : option Z :=
  let pde := load32 m (pgdir + 4 * PDX va) in
  if pte_has pde PTE_P then
    let pte := load32 m (P2V (PTE_ADDR pde) + 4 * PTX va) in
    if pte_has pte PTE_P && (negb write || pte_has pte PTE_W)
    then Some (P2V (PTE_ADDR pte) + va mod PGSIZE) else None
  else None.

Section kernel.
Context {D : Type} `{DiskFlush D}.

Record kstate := mk_kstate {
  k_fs : fstate D;
  k_ftable : list file;
  k_kmem : kmem;
  k_pipes : gmap Z pipe;
  k_proc : list proc;
  k_nextpid : Z;
  k_initproc : option nat;
  k_ticks : Z;
}.

Definition k_set_fs f s := mk_kstate f (k_ftable s) (k_kmem s) (k_pipes s) (k_proc s) (k_nextpid s) (k_initproc s) (k_ticks s).
Definition k_set_ftable t s := mk_kstate (k_fs s) t (k_kmem s) (k_pipes s) (k_proc s) (k_nextpid s) (k_initproc s) (k_ticks s).
Definition k_set_kmem m s := mk_kstate (k_fs s) (k_ftable s) m (k_pipes s) (k_proc s) (k_nextpid s) (k_initproc s) (k_ticks s).
Definition k_set_pipes p s := mk_kstate (k_fs s) (k_ftable s) (k_kmem s) p (k_proc s) (k_nextpid s) (k_initproc s) (k_ticks s).
Definition k_set_proc p s := mk_kstate (k_fs s) (k_ftable s) (k_kmem s) (k_pipes s) p (k_nextpid s) (k_initproc s) (k_ticks s).
Definition k_set_nextpid n s := mk_kstate (k_fs s) (k_ftable s) (k_kmem s) (k_pipes s) (k_proc s) n (k_initproc s) (k_ticks s).
Definition k_set_initproc i s := mk_kstate (k_fs s) (k_ftable s) (k_kmem s) (k_pipes s) (k_proc s) (k_nextpid s) i (k_ticks s).
Definition k_set_ticks n s := mk_kstate (k_fs s) (k_ftable s) (k_kmem s) (k_pipes s) (k_proc s) (k_nextpid s) (k_initproc s) n.

#[global] Instance k_fs_lens : Lens kstate (fstate D) := {| lget := k_fs; lput := k_set_fs |}.
#[global] Instance k_kmem_lens : Lens kstate kmem := {| lget := k_kmem; lput := k_set_kmem |}.

(** [begin_op] and [end_op] from the top of the kernel. *)
Definition k_begin_op : M kstate unit := lift (T := fstate D) (lift (T := lstate D) begin_op).
Definition k_end_op : M kstate unit := lift (T := fstate D) (lift (T := lstate D) end_op).

(** [*f], [*p] *)
Definition fat (f : nat) : M kstate file :=
  s ← get;
  match k_ftable s !! f with Some x => mret x | None => undef "file pointer" end.
Definition fset (f : nat) (g : file → file) : M kstate unit :=
  modify (λ s, k_set_ftable (alter g f (k_ftable s)) s).
Definition pat (p : nat) : M kstate proc :=
  s ← get;
  match k_proc s !! p with Some x => mret x | None => undef "proc pointer" end.
Definition pset (p : nat) (g : proc → proc) : M kstate unit :=
  modify (λ s, k_set_proc (alter g p (k_proc s)) s).

(** [myproc()]: the table entry of the running process. *)
Definition is_proc (pid : Z) (p : proc) : Prop := p_pid p = pid ∧ p_state p = RUNNING.
#[global] Instance is_proc_dec pid p : Decision (is_proc pid p).
Proof. unfold is_proc. apply _. Defined.
Definition myproc : M kstate nat :=
  pid ← mypid;
  s ← get;
  match list_find (is_proc pid) (k_proc s) with
  | Some (i, _) => mret i
  | None => undef "myproc: null"
  end.

(** Loads and stores in the memory of the process that runs; a page fault in
    the kernel is a panic. *)
Definition uload8 (va : Z) : M kstate Z :=
  i ← myproc;
  p ← pat i;
  s ← get;
  match kern_access (km_mem (k_kmem s)) (p_pgdir p) va false with
  | Some a => mret (km_mem (k_kmem s) a)
  | None => panic "trap"
  end.
Definition ustore8 (va v : Z) : M kstate unit :=
  i ← myproc;
  p ← pat i;
  s ← get;
  match kern_access (km_mem (k_kmem s)) (p_pgdir p) va true with
  | Some a => modify (λ s, k_set_kmem (mk_kmem (<[a := v]> (km_mem (k_kmem s))) (km_use_lock (k_kmem s)) (km_freelist (k_kmem s))) s)
  | None => panic "trap"
  end.

Fixpoint uload (va : Z) (n : nat) : M kstate (list Z) :=
  match n with
  | O => mret []
  | S n' => c ← uload8 va; l ← uload (va + 1) n'; mret (c :: l)
  end.
Fixpoint ustore (va : Z) (l : list Z) : M kstate unit :=
  match l with
  | [] => mret tt
  | c :: l' => ustore8 va c ;; ustore (va + 1) l'
  end.

(** ** Access to the tables *)

Lemma alter_at {A} (g : A → A) (l : list A) (i : nat) x : l !! i = Some x → alter g i l = <[i := g x]> l.
Proof. intros E. rewrite list_insert_alter. apply list_alter_ext; [|done]. intros y. naive_solver. Qed.

Lemma fat_run pid s f x : k_ftable s !! f = Some x → fat f pid s = Ret x s.
Proof. intros E. unfold fat. mstep. by rewrite E. Qed.
Lemma fset_run pid s f x g :
  k_ftable s !! f = Some x → fset f g pid s = Ret tt (k_set_ftable (<[f := g x]> (k_ftable s)) s).
Proof. intros E. unfold fset, modify. by rewrite (alter_at _ _ _ _ E). Qed.
Lemma pat_run pid s p x : k_proc s !! p = Some x → pat p pid s = Ret x s.
Proof. intros E. unfold pat. mstep. by rewrite E. Qed.
Lemma pset_run pid s p x g :
  k_proc s !! p = Some x → pset p g pid s = Ret tt (k_set_proc (<[p := g x]> (k_proc s)) s).
Proof. intros E. unfold pset, modify. by rewrite (alter_at _ _ _ _ E). Qed.

(** The file system and the allocator as parts of the kernel. *)
Lemma fs_run {A} (m : M (fstate D) A) pid s a f : m pid (k_fs s) = Ret a f → lift m pid s = Ret a (k_set_fs f s).
Proof. intros E. exact (lift_Ret m pid s a f E). Qed.
Lemma kmem_run {A} (m : M kmem A) pid s a f : m pid (k_kmem s) = Ret a f → lift m pid s = Ret a (k_set_kmem f s).
Proof. intros E. exact (lift_Ret m pid s a f E). Qed.

(** Entry [i] is the process that runs. *)
Definition current (pid : Z) (s : kstate) (i : nat) (p : proc) : Prop := list_find (is_proc pid) (k_proc s) = Some (i, p).

Lemma current_lookup pid s i p : current pid s i p → k_proc s !! i = Some p ∧ p_pid p = pid ∧ p_state p = RUNNING.
Proof. intros (? & [] & _)%list_find_Some. done. Qed.
Lemma myproc_run pid s i p : current pid s i p → myproc pid s = Ret i s.
Proof. intros E. unfold myproc. rewrite (bind_Ret mypid _ pid s pid s eq_refl). mstep. by rewrite E. Qed.

End kernel.
Arguments kstate : clear implicits.
