(* ===== verification/File.v ===== *)
(** * Files, and pipes as files (file.c; pipealloc and the callers' side of
    pipe.c; wakeup, sleep and kill of proc.c)

    Data moved to or from the caller's memory is a list of bytes. *)

From S2P Require Import Prelude Layout Sleeplock Disk Bio Crc32 Log CString Mem Kalloc Vm Pipe Fs Kernel.

Section file.
Context {D : Type} `{DiskFlush D}.
Context (devsw_read : Z → option (Z → M (fstate D) (Z * list Z))).
Context (devsw_write : Z → option (list Z → M (fstate D) Z)).
Context (kend : Z).
#[local] Notation kstate := (kstate D).

(** ** Sleep and wakeup *)

(** [wakeup1] on one process. *)
Definition wake (c : option channel) (p : proc) : proc :=
  if bool_decide (p_state p = SLEEPING) && bool_decide (p_chan p = c) then p_set_state RUNNABLE p else p.
Definition wakeup1 (c : option channel) : M kstate unit := modify (λ s, k_set_proc (wake c <$> k_proc s) s).
Definition wakeup (c : channel) : M kstate unit := wakeup1 (Some c).

(** [sleep] up to the switch to the scheduler. *)
Definition sleep {A} (c : channel) : M kstate A :=
  i ← myproc;
  pset i (λ p, p_set_state SLEEPING (p_set_chan (Some c) p)) ;;
  sleep_on c.

(** The first entry with the pid, in use or not. *)
Definition kill (pid : Z) : M kstate Z :=
  s ← get;
  match list_find (λ p, p_pid p = pid) (k_proc s) with
  | Some (i, _) =>
      pset i (λ p, let p := p_set_killed 1 p in
        if bool_decide (p_state p = SLEEPING) then p_set_state RUNNABLE p else p) ;;
      mret 0
  | None => mret (-1)
  end.

(** [myproc()->killed] *)
Definition mykilled : M kstate bool := i ← myproc; p ← pat i; mret (negb (p_killed p =? 0)).

(** ** Pipes by address *)

Definition pipe_at (p : Z) : M kstate pipe :=
  s ← get;
  match k_pipes s !! p with Some q => mret q | None => undef "pipe pointer" end.
Definition pipe_put (p : Z) (q : pipe) : M kstate unit :=
  modify (λ s, k_set_pipes (<[p := q]> (k_pipes s)) s).
Definition pipe_wake (p : Z) (w : list pchan) : M kstate unit :=
  forM w (λ c, wakeup (match c with Nread => ChPipeRead p | Nwrite => ChPipeWrite p end)).

Definition k_pipeclose (p writable : Z) : M kstate unit :=
  q ← pipe_at p;
  let '(q', w, freed) := pipeclose q writable in
  pipe_put p q' ;;
  pipe_wake p w ;;
  if (freed : bool) then
    modify (λ s, k_set_pipes (delete p (k_pipes s)) s) ;;
    lift (kfree kend p)
  else mret tt.

Definition k_pipewrite (p : Z) (src : list Z) (n : Z) : M kstate Z :=
  killed ← mykilled;
  q ← pipe_at p;
  match pipewrite killed n (take (Z.to_nat n) src) q with
  | WRet r q' w => pipe_put p q' ;; pipe_wake p w ;; mret r
  | WSleep _ q' w => pipe_put p q' ;; pipe_wake p w ;; sleep (ChPipeWrite p)
  end.

Definition k_piperead (p n : Z) : M kstate (Z * list Z) :=
  killed ← mykilled;
  q ← pipe_at p;
  match piperead killed n q with
  | RRet r data q' w => pipe_put p q' ;; pipe_wake p w ;; mret (r, data)
  | RSleep q' => pipe_put p q' ;; sleep (ChPipeRead p)
  end.

(** ** The file table *)

Definition filealloc : M kstate (option nat) :=
  s ← get;
  match list_find (λ f, fl_ref f = 0) (k_ftable s) with
  | Some (f, _) => fset f (fl_set_ref 1) ;; mret (Some f)
  | None => mret None
  end.

Definition filedup (f : nat) : M kstate nat :=
  x ← fat f;
  if fl_ref x <? 1 then panic "filedup" else
  fset f (λ x, fl_set_ref (fl_ref x + 1) x) ;;
  mret f.

Definition fileclose (f : nat) : M kstate unit :=
  x ← fat f;
  if fl_ref x <? 1 then panic "fileclose" else
  fset f (λ x, fl_set_ref (fl_ref x - 1) x) ;;
  ff ← fat f;
  if 0 <? fl_ref ff then mret tt else
  fset f (λ x, fl_set_type FD_NONE (fl_set_ref 0 x)) ;;
  match fl_type ff with
  | FD_PIPE => k_pipeclose (fl_pipe ff) (fl_writable ff)
  | FD_INODE =>
      k_begin_op ;;
      match fl_ip ff with Some ip => lift (iput ip) | None => undef "iput: null" end ;;
      k_end_op
  | FD_NONE => mret tt
  end.

(** [None] is the result -1. *)
Definition filestat (f : nat) : M kstate (option stat) :=
  x ← fat f;
  match fl_type x with
  | FD_INODE =>
      lift (ilock (fl_ip x)) ;;
      st ← match fl_ip x with Some ip => lift (stati ip) | None => undef "stati: null" end;
      lift (iunlock (fl_ip x)) ;;
      mret (Some st)
  | _ => mret None
  end.

(** The result and the bytes read. *)
Definition fileread (f : nat) (n : Z) : M kstate (Z * list Z) :=
  x ← fat f;
  if fl_readable x =? 0 then mret (-1, []) else
  match fl_type x with
  | FD_PIPE => k_piperead (fl_pipe x) n
  | FD_INODE =>
      lift (ilock (fl_ip x)) ;;
      '(r, data) ← match fl_ip x with
                   | Some ip => lift (readi devsw_read ip (fl_off x) (u32 n))
                   | None => undef "readi: null"
                   end;
      (if 0 <? r then fset f (λ x, fl_set_off (u32 (fl_off x + r)) x) else mret tt) ;;
      lift (iunlock (fl_ip x)) ;;
      mret (r, data)
  | FD_NONE => panic "fileread"
  end.

Definition FILEMAX : Z := (MAXOPBLOCKS - 1 - 1 - 2) / 2 * 512.

(** The loop of [filewrite] from [i]; it returns [i] at its end. *)
Fixpoint filewrite_loop (fuel : nat) (f : nat) (src : list Z) (i n : Z) : M kstate Z :=
  match fuel with
  | O => undef "filewrite fuel"
  | S fuel' =>
      if i <? n then
        let n1 := if FILEMAX <? n - i then FILEMAX else n - i in
        k_begin_op ;;
        x ← fat f;
        lift (ilock (fl_ip x)) ;;
        r ← match fl_ip x with
            | Some ip => lift (writei devsw_write ip (drop (Z.to_nat i) src) (fl_off x) n1)
            | None => undef "writei: null"
            end;
        (if 0 <? r then fset f (λ x, fl_set_off (u32 (fl_off x + r)) x) else mret tt) ;;
        lift (iunlock (fl_ip x)) ;;
        k_end_op ;;
        if r <? 0 then mret i else
        if negb (r =? n1) then panic "short filewrite" else
        filewrite_loop fuel' f src (i + r) n
      else mret i
  end.
Definition filewrite (f : nat) (src : list Z) (n : Z) : M kstate Z :=
  x ← fat f;
  if fl_writable x =? 0 then mret (-1) else
  match fl_type x with
  | FD_PIPE => k_pipewrite (fl_pipe x) src n
  | FD_INODE =>
      i ← filewrite_loop (S (Z.to_nat n)) f src 0 n;
      mret (if i =? n then n else -1)
  | FD_NONE => panic "filewrite"
  end.

(** ** pipealloc *)

(** The bytes of [data] in a page that is to hold a struct pipe. *)
Definition pipe_page (m : mem) (p : Z) : list Z := (λ k, m (p + 52 + k)) <$> seqZ 0 PIPESIZE.

Definition fileclose_opt (f : option nat) : M kstate unit :=
  match f with Some f => fileclose f | None => mret tt end.

(** [None] is the result -1. *)
Definition pipealloc : M kstate (option (nat * nat)) :=
  f0 ← filealloc;
  f1 ← match f0 with None => mret None | Some _ => filealloc end;
  match f0, f1 with
  | Some f0', Some f1' =>
      p ← lift (T := kmem) kalloc;
      if p =? 0 then fileclose_opt f0 ;; fileclose_opt f1 ;; mret None
      else
        modify (λ s, k_set_pipes (<[p := pipe_init (pipe_page (km_mem (k_kmem s)) p)]> (k_pipes s)) s) ;;
        fset f0' (λ x, fl_set_pipe p (fl_set_mode 1 0 (fl_set_type FD_PIPE x))) ;;
        fset f1' (λ x, fl_set_pipe p (fl_set_mode 0 1 (fl_set_type FD_PIPE x))) ;;
        mret (Some (f0', f1'))
  | _, _ => fileclose_opt f0 ;; fileclose_opt f1 ;; mret None
  end.

End file.
