(* ===== verification/FileSpec.v ===== *)
(** * Files: what file.c promises

    Writing a file goes through one log transaction for every [FILEMAX] bytes;
    the theorem on [filewrite] composes the transactions of FsTrans. *)

From S2P Require Import Prelude Layout Sleeplock Disk Ide Bio BioSpec Crc32 Log LogImg LogSpec LogTxn LogCrash Journal LogReserve CString Mem Kalloc Vm Pipe Fs FsTx FsBlock FsFile FsRw FsInode FsDir FsPath FsMain FsTrans Kernel File.

#[local] Arguments img_apply : simpl never.

(** ** Writing a file *)

(** The number of pieces of 1536 bytes in [n] bytes. *)
Definition nchunks (n : Z) : nat := Z.to_nat ((n + 1535) / 1536).

Lemma nblk_chunk off n : 0 ≤ off → n ≤ FILEMAX → (nblk off n ≤ 4)%nat.
Proof.
  intros Ho Hn. change FILEMAX with 1536 in Hn. unfold nblk, BSIZE. destruct (n <=? 0) eqn:E; [lia|]. dlia.
Qed.

Lemma nchunks_step n : 0 < n → (nchunks n = 1 + nchunks (n - Z.min FILEMAX n))%nat.
Proof. intros Hn. unfold nchunks. change FILEMAX with 1536. dlia. Qed.

Section filewrite.
Context {D : Type} `{DiskFlushOk D} `{!DiskDriverOk D}.
Context (devsw_write : Z → option (list Z → M (fstate D) Z)).
Implicit Types (ks : kstate D).

(** The kernel with the file system [s'] and the offset of file [f] moved. *)
Definition k_wrote (f : nat) (x : file) (off : Z) (s' : fstate D) ks : kstate D :=
  k_set_ftable (<[f := fl_set_off off x]> (k_ftable ks)) (k_set_fs s' ks).

(** One log transaction that writes [n] bytes of [src] at [off] of a file. *)
Definition one_tx (ip : nat) (src : list Z) (off n : Z) : M (fstate D) Z :=
  lift begin_op ;;
  ilock (Some ip) ;;
  r ← writei devsw_write ip src off n;
  iunlock (Some ip) ;;
  lift end_op ;;
  mret r.

(** Bytes [j] to [n] of [src] are written from [off] on by a sequence of
    transactions of 1536 bytes, the last one shorter.  Each is complete before
    the next begins: the log is idle in between. *)
Inductive write_txs (pid : Z) (ip : nat) (src : list Z) (n : Z) : Z → Z → fstate D → nat → fstate D → Prop :=
| wt_done off s : write_txs pid ip src n n off s 0 s
| wt_tx j off s k s1 view s2 :
    j < n →
    one_tx ip (drop (Z.to_nat j) src) off (Z.min 1536 (n - j)) pid s = Ret (Z.min 1536 (n - j)) s1 →
    idle pid s1 view →
    write_txs pid ip src n (j + Z.min 1536 (n - j)) (off + Z.min 1536 (n - j)) s1 k s2 →
    write_txs pid ip src n j off s (S k) s2.

(** One turn of the loop. *)
Lemma filewrite_turn pid ks f x view ip i src j n fuel :
  fidle pid (k_fs ks) view ip i → k_ftable ks !! f = Some x → fl_ip x = Some ip →
  0 ≤ fl_off x ≤ i_size i → 0 ≤ j < n → fl_off x + (n - j) ≤ MAXFILE * BSIZE → n ≤ Z.of_nat (length src) → bytes src →
  (4 + ind0 i ≤ size (free_blocks (f_sb (k_fs ks)) view))%nat →
  ∃ l' view' i', let c := Z.min FILEMAX (n - j) in let s' := f_put ip i' l' (k_fs ks) in
    filewrite_loop devsw_write (S fuel) f src j n pid ks =
      filewrite_loop devsw_write fuel f src (j + c) n pid (k_wrote f x (fl_off x + c) s' ks) ∧
    one_tx ip (drop (Z.to_nat j) src) (fl_off x) c pid (k_fs ks) = Ret c s' ∧
    fidle pid s' view' ip i' ∧
    fchanged (f_sb (k_fs ks)) view i (fl_off x) (slice (Z.to_nat j) (Z.to_nat c) src) 4 view' i'.
Proof.
  intros F Hx Hip Hoff Hj Hmax Hsrc Hby Hsp. pose proof (fw_size _ _ _ (fi_wf _ _ _ _ _ F)) as Hsz.
  rewrite maxfile_140 in *. unfold BSIZE in Hmax, Hsz. set (c := Z.min FILEMAX (n - j)).
  assert (1 ≤ c ≤ 1536 ∧ c ≤ n - j) as Hc by (unfold c; change FILEMAX with 1536; lia).
  pose proof (nblk_chunk (fl_off x) c ltac:(lia) ltac:(unfold c; lia)) as Hnb.
  destruct (write_tx devsw_write pid (k_fs ks) view ip i (drop (Z.to_nat j) src) (fl_off x) c F)
    as (s1 & s2 & s3 & s4 & l5 & t & view' & i' & E1 & E2 & E3 & E4 & E5 & _ & _ & F' & Hch); try lia;
    [rewrite maxfile_140; unfold BSIZE; lia|rewrite length_drop; lia|by apply Forall_drop|].
  exists l5, view', i'. cbv zeta. split; [|split; [unfold one_tx; mrun E1; mrun E2; mrun E3; mrun E4; by mrun E5|split; [done|]]].
  2:{ destruct Hch. split; try done. lia. }
  cbn [filewrite_loop]. rewrite (proj2 (Z.ltb_lt _ _)) by lia.
  replace (if FILEMAX <? n - j then FILEMAX else n - j) with c by (unfold c; case_match; lia).
  mrun (fs_run _ pid ks tt s1 E1). mrun (fat_run pid (k_set_fs s1 ks) f x Hx). rewrite Hip.
  mrun (fs_run _ pid (k_set_fs s1 ks) tt s2 E2). set (k2 := k_set_fs s2 (k_set_fs s1 ks)).
  mrun (fs_run _ pid k2 c s3 E3). rewrite (proj2 (Z.ltb_lt 0 c)) by lia.
  mrun (fset_run pid (k_set_fs s3 k2) f x (λ x, fl_set_off (u32 (fl_off x + c)) x) Hx).
  set (k3 := k_set_ftable _ _). mrun (fs_run (iunlock (Some ip)) pid k3 tt s4 E4).
  mrun (fs_run (lift end_op) pid (k_set_fs s4 k3) tt _ E5). rewrite (proj2 (Z.ltb_ge c 0)), Z.eqb_refl by lia. cbn [negb].
  f_equal. unfold k3, k2, k_wrote. rewrite u32_small by lia. done.
Qed.

(** What is left to write from [j]. *)
Lemma filewrite_loop_run fuel : ∀ pid ks f x view ip i src j n,
  fidle pid (k_fs ks) view ip i → k_ftable ks !! f = Some x → fl_ip x = Some ip →
  0 ≤ fl_off x ≤ i_size i → 0 ≤ j ≤ n → fl_off x + (n - j) ≤ MAXFILE * BSIZE → n ≤ Z.of_nat (length src) → bytes src →
  n - j < Z.of_nat fuel → (4 * nchunks (n - j) + ind0 i ≤ size (free_blocks (f_sb (k_fs ks)) view))%nat →
  ∃ l' view' i', let s' := f_put ip i' l' (k_fs ks) in
    filewrite_loop devsw_write fuel f src j n pid ks = Ret n (k_wrote f x (fl_off x + (n - j)) s' ks) ∧
    write_txs pid ip src n j (fl_off x) (k_fs ks) (nchunks (n - j)) s' ∧
    fidle pid s' view' ip i' ∧
    fchanged (f_sb (k_fs ks)) view i (fl_off x) (slice (Z.to_nat j) (Z.to_nat (n - j)) src) (4 * nchunks (n - j)) view' i'.
Proof.
  induction fuel as [|fuel IH]; intros pid ks f x view ip i src j n F Hx Hip Hoff Hj Hmax Hsrc Hby Hfu Hsp; [lia|].
  destruct (decide (j = n)) as [->|Hne].
  - exists (f_log (k_fs ks)), view, i. cbv zeta. replace (f_put ip i (f_log (k_fs ks)) (k_fs ks)) with (k_fs ks).
    2:{ unfold f_put. pose proof (list_insert_id _ _ _ (fi_inode _ _ _ _ _ F)) as E. by destruct ks as [[]]; cbn in *; rewrite E. }
    rewrite Z.sub_diag. split; [|split; [constructor|split; [done|by apply fchanged_refl]]]. cbn [filewrite_loop]. rewrite Z.ltb_irrefl, Z.add_0_r.
    unfold k_wrote. assert (fl_set_off (fl_off x) x = x) as -> by (by destruct x). rewrite list_insert_id by done. by destruct ks.
  - pose proof (nchunks_step (n - j) ltac:(lia)) as Hst.
    destruct (filewrite_turn pid ks f x view ip i src j n fuel F Hx Hip Hoff ltac:(lia) Hmax Hsrc Hby ltac:(lia))
      as (l1 & view1 & i1 & E1 & T1 & F1 & Hc1). set (c := Z.min FILEMAX (n - j)) in *.
    assert (1 ≤ c ≤ n - j) as Hc by (unfold c; change FILEMAX with 1536; lia).
    set (s1 := f_put ip i1 l1 (k_fs ks)) in *. set (k1 := k_wrote f x (fl_off x + c) s1 ks) in *.
    assert (length (slice (Z.to_nat j) (Z.to_nat c) src) = Z.to_nat c) as Hlen.
    { unfold slice. rewrite length_take, length_drop. lia. }
    destruct (IH pid k1 f (fl_set_off (fl_off x + c) x) view1 ip i1 src (j + c) n F1) as (l2 & view2 & i2 & E2 & T2 & F2 & Hc2);
      try done; try (simpl; lia).
    { apply list_lookup_insert_eq. by eapply lookup_lt_Some. }
    { pose proof (fc_size _ _ _ _ _ _ _ _ Hc1). simpl. lia. }
    { pose proof (fc_space _ _ _ _ _ _ _ _ Hc1). cbn [k1 k_wrote k_fs k_set_fs k_set_ftable s1 f_put f_sb f_set_icache f_set_log]. replace (n - (j + c)) with (n - j - c) by lia. lia. }
    exists l2, view2, i2. cbv zeta. assert (f_put ip i2 l2 (k_fs k1) = f_put ip i2 l2 (k_fs ks)) as Ek.
    { unfold k1, k_wrote, s1, f_put. cbn. by rewrite list_insert_insert_eq. }
    rewrite Ek in *. split; [|split; [|split; [done|]]].
    + etrans; [exact E1|]. etrans; [exact E2|]. unfold k1, k_wrote. cbn. rewrite list_insert_insert_eq. replace (fl_off x + (n - j)) with (fl_off x + c + (n - (j + c))) by lia. done.
    + rewrite Hst. replace (n - j - c) with (n - (j + c)) by lia.
      apply (wt_tx _ _ _ _ j _ _ _ s1 view1); [lia|exact T1|apply F1|exact T2].
    + replace (slice (Z.to_nat j) (Z.to_nat (n - j)) src) with
        (slice (Z.to_nat j) (Z.to_nat c) src ++ slice (Z.to_nat (j + c)) (Z.to_nat (n - (j + c))) src).
      * rewrite Hst. replace (n - j - c) with (n - (j + c)) by lia. rewrite Nat.mul_add_distr_l, Nat.mul_1_r.
        apply (fchanged_trans _ _ _ _ _ 4 view1 i1 _ _ _ _ (proj1 Hoff) Hc1). rewrite Hlen, Z2Nat.id by lia. exact Hc2.
      * unfold slice. replace (Z.to_nat (n - j)) with (Z.to_nat c + Z.to_nat (n - (j + c)))%nat by lia.
        rewrite <- take_take_drop, drop_drop. do 3 f_equal. lia.
Qed.


(** C12. [filewrite] writes the whole buffer when the disk has room for it: on
    a file open for writing, with four free blocks for every 1536 bytes, it
    returns [n]; the file system it leaves is the one that a sequence of
    complete transactions leaves, one for every 1536 bytes, each of which
    begins an operation, locks the inode, writes its piece, unlocks, and
    commits; the file then has the new bytes from the
    old offset, its old bytes elsewhere, and the larger of the two sizes, the
    offset has moved by [n], and no block of another file and no other inode
    has changed. *)
Theorem filewrite_writes pid ks f x view ip i src n :
  fidle pid (k_fs ks) view ip i → k_ftable ks !! f = Some x → fl_type x = FD_INODE → fl_writable x ≠ 0 → fl_ip x = Some ip →
  0 ≤ fl_off x ≤ i_size i → 0 ≤ n → fl_off x + n ≤ MAXFILE * BSIZE → n ≤ Z.of_nat (length src) → bytes src →
  (4 * nchunks n + ind0 i ≤ size (free_blocks (f_sb (k_fs ks)) view))%nat →
  ∃ l' view' i', let s' := f_put ip i' l' (k_fs ks) in
    filewrite devsw_write f src n pid ks = Ret n (k_wrote f x (fl_off x + n) s' ks) ∧
    write_txs pid ip src n 0 (fl_off x) (k_fs ks) (nchunks n) s' ∧
    fidle pid s' view' ip i' ∧
    fchanged (f_sb (k_fs ks)) view i (fl_off x) (take (Z.to_nat n) src) (4 * nchunks n) view' i'.
Proof.
  intros F Hx Hty Hw Hip Hoff Hn Hmax Hsrc Hby Hsp.
  destruct (filewrite_loop_run (S (Z.to_nat n)) pid ks f x view ip i src 0 n F Hx Hip) as (l' & view' & i' & E & T & F' & Hc);
    rewrite ?Z.sub_0_r in *; try done; try lia.
  exists l', view', i'. cbv zeta. split; [|done]. unfold filewrite. mrun (fat_run pid ks f x Hx).
  rewrite (proj2 (Z.eqb_neq _ _)), Hty by done. mrun E. by rewrite Z.eqb_refl.
Qed.

(** C30. The chunk size of [filewrite] keeps a transaction within what
    [begin_op] reserves: whatever the offset, a chunk of at most 1536 bytes
    logs at most [MAXOPBLOCKS] blocks. *)
Theorem filewrite_fits pid s view ip i src off n :
  fidle pid s view ip i → 0 ≤ off ≤ i_size i → 0 ≤ n ≤ FILEMAX → off + n ≤ MAXFILE * BSIZE →
  n ≤ Z.of_nat (length src) → bytes src → (4 + ind0 i ≤ size (free_blocks (f_sb s) view))%nat →
  ∃ s' t, (lift begin_op ;; ilock (Some ip) ;; writei devsw_write ip src off n) pid s = Ret n s' ∧
    txrep pid s' t ∧ (size (tv_logged t) ≤ Z.to_nat MAXOPBLOCKS)%nat.
Proof.
  intros F Hoff Hn Hmax Hsrc Hby Hsp. pose proof (nblk_chunk off n ltac:(lia) ltac:(lia)) as Hnb.
  destruct (write_tx devsw_write pid s view ip i src off n F) as (s1 & s2 & s3 & s4 & l5 & t & _ & _ & E1 & E2 & E3 & E4 & _ & Ht & Hs & _);
    try done; try lia.
  exists s3, t. mrun E1. mrun E2. done.
Qed.

End filewrite.

(** ** An example *)

(** The disk of [fs_example] after boot, between operations. *)
Lemma fs_idle_example : ∃ l view, idle 1 (fs_state l) view ∧ ∀ n, n ≠ 2 → view n = fs_img n.
Proof.
  destruct (boot_log_spec 1 (ex_ide fs_img) fs_img 2 30) as (s0 & a0 & _ & Hl0 & Hv0 & Hd0 & Ho0 & Hc0 & _ & _);
    try (rewrite ex_sb_decode; done); try done; [apply ex_boots|apply fs_img_ok|by apply hdr_ok_zero|].
  exists (l_set_crash 0 s0), (ca_view a0). split.
  - split; [apply ex_sb_ok| |].
    + exists 0. unfold fctl, lctl. simpl. rewrite Ho0, Hc0. split; [done|set_solver].
    + exists a0. split; [|done]. by apply (lrep_frame 1 s0).
  - intros n Hn. rewrite Hv0. by apply recover_clean.
Qed.

Lemma fs_fidle_example : ∃ l view, fidle 1 (fs_state l) view 1 fs_file ∧ (61 ≤ size (free_blocks ex_sb view))%nat.
Proof.
  destruct fs_idle_example as (l & view & Hid & Hv). exists l, view. set (t := mk_txv view ∅ ∅).
  assert (∀ n, n ≠ 2 → tv_view t n = fs_img n) as Hv' by done. split; [split; try done|].
  - by apply (fs_file_wf t).
  - by apply (fs_map_wf t).
  - cbn [f_sb fs_state]. unfold disk_inode. rewrite Hv by done. by vm_compute.
  - change 61%nat with (length (seqZ 61 61)). rewrite <- (size_list_to_set (C := gset Z)) by apply NoDup_seqZ.
    apply subseteq_size. intros b Hb%elem_of_list_to_set%elem_of_seqZ. apply (fs_free t Hv'). lia.
Qed.

Definition ex_file : file := mk_file FD_INODE 1 0 1 0 (Some 1%nat) 4.
Definition ex_kernel (l : lstate ide_state) : kstate ide_state :=
  mk_kstate (fs_state l) [ex_file] (mk_kmem (λ _, 0) 0 0) ∅ [] 1 None 0.

(** Two transactions. *)
Lemma filewrite_writes_witness :
  ∃ l s', filewrite (D := ide_state) (λ _, None) 0 (replicate 2000 7) 2000 1 (ex_kernel l) = Ret 2000 s' ∧
    write_txs (λ _, None) 1 1 (replicate 2000 7) 2000 0 4 (fs_state l) 2 (k_fs s').
Proof.
  destruct fs_fidle_example as (l & view & F & Hf).
  destruct (filewrite_writes (λ _, None) 1 (ex_kernel l) 0 ex_file view 1 fs_file (replicate 2000 7) 2000 F)
    as (l' & view' & i' & E & T & _); try done; try (simpl; lia).
  - by apply Forall_replicate.
  - change (nchunks 2000) with 2%nat. change (ind0 fs_file) with 1%nat. cbn [f_sb fs_state k_fs ex_kernel]. lia.
  - exists l. eexists. split; [exact E|exact T].
Defined.

Lemma filewrite_fits_witness : ∃ l s' t,
  (lift begin_op ;; ilock (Some 1%nat) ;; writei (D := ide_state) (λ _, None) 1 (replicate 1536 7) 4 1536) 1 (fs_state l) = Ret 1536 s' ∧
  txrep 1 s' t ∧ (size (tv_logged t) ≤ 10)%nat.
Proof.
  destruct fs_fidle_example as (l & view & F & Hf). exists l.
  apply (filewrite_fits (λ _, None) 1 (fs_state l) view 1 fs_file (replicate 1536 7) 4 1536 F); try done; try (simpl; lia).
  - by apply Forall_replicate.
  - change (ind0 fs_file) with 1%nat. cbn [f_sb fs_state]. lia.
Defined.
