(* ===== verification/Syscall.v ===== *)
(** * System call arguments (fetchint, fetchstr, argint, argptr, argstr and
    syscall of syscall.c)

    A fetched pointer to a string is the string it points to: the memory of a
    process is its own, and it does not run while the kernel serves it. *)

From S2P Require Import Prelude Layout Sleeplock Disk Ide Bio Crc32 Log LogImg LogSpec LogTxn LogCrash Journal CString Mem Kalloc Vm Pipe Fs Kernel.

Section syscall.
Context {D : Type} `{DiskFlush D}.
#[local] Notation kstate := (kstate D).

(** A field of the trap frame of the process that runs. *)
Definition tf_load (off : Z) : M kstate Z :=
  i ← myproc; p ← pat i; lift (T := kmem) (kload (p_tf p + off)).
Definition tf_store (off v : Z) : M kstate unit :=
  i ← myproc; p ← pat i; lift (T := kmem) (kstore (p_tf p + off) v).

(** [None] is the result -1. *)
Definition fetchint (addr : Z) : M kstate (option Z) :=
  i ← myproc;
  p ← pat i;
  if (p_sz p <=? addr) || (p_sz p <? u32 (addr + 4)) then mret None else
  l ← uload addr 4;
  mret (Some (s32 (le_val l))).

(** The loop of [fetchstr] from address [s]. *)
Fixpoint fetchstr_loop (fuel : nat) (s ep : Z) : M kstate (option (list Z)) :=
  match fuel with
  | O => mret None
  | S fuel' =>
      if s <? ep then
        c ← uload8 s;
        if c =? 0 then mret (Some [])
        else r ← fetchstr_loop fuel' (s + 1) ep; mret (cons c <$> r)
      else mret None
  end.
Definition fetchstr (addr : Z) : M kstate (option (list Z)) :=
  i ← myproc;
  p ← pat i;
  if p_sz p <=? addr then mret None else
  fetchstr_loop (Z.to_nat (p_sz p - addr)) addr (p_sz p).

Definition argint (n : Z) : M kstate (option Z) :=
  esp ← tf_load TF_ESP;
  fetchint (u32 (esp + 4 + 4 * n)).

Definition argptr (n size : Z) : M kstate (option Z) :=
  c ← myproc;
  r ← argint n;
  match r with
  | None => mret None
  | Some i =>
      p ← pat c;
      if (size <? 0) || (p_sz p <=? u32 i) || (p_sz p <? u32 (u32 i + size)) then mret None
      else mret (Some (u32 i))
  end.

Definition argstr (n : Z) : M kstate (option (list Z)) :=
  r ← argint n;
  match r with
  | None => mret None
  | Some addr => fetchstr (u32 addr)
  end.

(** [syscall], for a table of the system calls; the message for an unknown
    number is not modelled. *)
Definition syscall (syscalls : Z → option (M kstate Z)) : M kstate unit :=
  eax ← tf_load TF_EAX;
  let num := s32 eax in
  match (if 0 <? num then syscalls num else None) with
  | Some call => r ← call; tf_store TF_EAX r
  | None => tf_store TF_EAX (-1)
  end.

(** ** What the checks guarantee *)

(** Every byte of the process is in memory. *)
Definition user_mapped (s : kstate) (p : proc) : Prop :=
  ∀ va, 0 ≤ va < p_sz p → is_Some (kern_access (km_mem (k_kmem s)) (p_pgdir p) va false).

(** The byte at an address of the process. *)
Definition pbyte (s : kstate) (p : proc) (va : Z) : Z :=
  match kern_access (km_mem (k_kmem s)) (p_pgdir p) va false with
  | Some a => km_mem (k_kmem s) a
  | None => 0
  end.
Definition pbytes (s : kstate) (p : proc) (va : Z) (n : nat) : list Z := (λ k, pbyte s p (va + Z.of_nat k)) <$> seq 0 n.

Lemma pbytes_cons s p a n : pbytes s p a (S n) = pbyte s p a :: pbytes s p (a + 1) n.
Proof.
  unfold pbytes. cbn [seq fmap list_fmap]. f_equal; [by rewrite Z.add_0_r|].
  rewrite <- fmap_S_seq, <- list_fmap_compose. apply list_fmap_ext. intros k x _. simpl. f_equal. lia.
Qed.

Section mapped.
Context (pid : Z) (s : kstate) (i : nat) (p : proc).
Context (Hc : current pid s i p) (Hm : user_mapped s p) (Hsz : 0 ≤ p_sz p ≤ KERNBASE).

Lemma uload8_run va : 0 ≤ va < p_sz p → uload8 va pid s = Ret (pbyte s p va) s.
Proof.
  intros Hv. unfold uload8, pbyte. mrun (myproc_run pid s i p Hc). mrun (pat_run pid s i p (proj1 (current_lookup _ _ _ _ Hc))).
  mstep. by destruct (Hm va Hv) as [a ->].
Qed.

Lemma uload_run n : ∀ va, 0 ≤ va → va + Z.of_nat n ≤ p_sz p → uload va n pid s = Ret (pbytes s p va n) s.
Proof.
  induction n as [|n IH]; intros va Hv Hn; [done|]. cbn [uload]. mrun (uload8_run va ltac:(lia)).
  mrun (IH (va + 1) ltac:(lia) ltac:(lia)). by rewrite pbytes_cons.
Qed.

Lemma fetchint_run addr :
  0 ≤ addr < 2 ^ 32 →
  fetchint addr pid s = Ret (if decide (addr + 4 ≤ p_sz p) then Some (s32 (le_val (pbytes s p addr 4))) else None) s.
Proof.
  intros Ha. unfold fetchint. mrun (myproc_run pid s i p Hc). mrun (pat_run pid s i p (proj1 (current_lookup _ _ _ _ Hc))).
  unfold KERNBASE in Hsz. destruct (p_sz p <=? addr) eqn:E1; cbn [orb].
  - rewrite decide_False by lia. done.
  - rewrite u32_small by lia. destruct (p_sz p <? addr + 4) eqn:E2; [by rewrite decide_False by lia|].
    rewrite decide_True by lia. by mrun (uload_run 4 addr ltac:(lia) ltac:(lia)).
Qed.

Lemma fetchstr_loop_run n : ∀ a, 0 ≤ a → a + Z.of_nat n = p_sz p →
  (∃ l, fetchstr_loop n a (p_sz p) pid s = Ret (Some l) s ∧ (length l < n)%nat ∧ 0 ∉ l ∧ pbytes s p a (S (length l)) = l ++ [0]) ∨
  (fetchstr_loop n a (p_sz p) pid s = Ret None s ∧ 0 ∉ pbytes s p a n).
Proof.
  induction n as [|n IH]; intros a Ha Hn; [right; split; [done|by apply not_elem_of_nil]|].
  cbn [fetchstr_loop]. rewrite (proj2 (Z.ltb_lt _ _)) by lia. rewrite (bind_Ret _ _ _ _ _ _ (uload8_run a ltac:(lia))).
  destruct (pbyte s p a =? 0) eqn:E.
  - left. exists []. split_and!; [done|simpl; lia|by apply not_elem_of_nil|].
    unfold pbytes. simpl. rewrite Z.add_0_r. f_equal. lia.
  - destruct (IH (a + 1) ltac:(lia) ltac:(lia)) as [(l & Hl & Hlen & Hz & Hb)|[Hl Hz]].
    + left. exists (pbyte s p a :: l). rewrite (bind_Ret _ _ _ _ _ _ Hl). split_and!; [done|simpl; lia| |].
      * rewrite not_elem_of_cons. split; [lia|done].
      * cbn [length]. rewrite pbytes_cons, Hb. done.
    + right. rewrite (bind_Ret _ _ _ _ _ _ Hl). split; [done|]. rewrite pbytes_cons, not_elem_of_cons. split; [lia|done].
Qed.

(** [l] is the string at [a]: it ends in a NUL inside the process. *)
Definition pstring (a : Z) (l : list Z) : Prop :=
  0 ∉ l ∧ a + Z.of_nat (length l) < p_sz p ∧ pbytes s p a (S (length l)) = l ++ [0].

Lemma fetchstr_run addr :
  0 ≤ addr →
  (∃ l, fetchstr addr pid s = Ret (Some l) s ∧ pstring addr l) ∨
  (fetchstr addr pid s = Ret None s ∧ ∀ a, addr ≤ a < p_sz p → pbyte s p a ≠ 0).
Proof.
  intros Ha. unfold fetchstr. rewrite (bind_Ret _ _ _ _ _ _ (myproc_run pid s i p Hc)).
  rewrite (bind_Ret _ _ _ _ _ _ (pat_run pid s i p (proj1 (current_lookup _ _ _ _ Hc)))).
  destruct (p_sz p <=? addr) eqn:E; [right; split; [done|]; intros; lia|].
  destruct (fetchstr_loop_run (Z.to_nat (p_sz p - addr)) addr Ha ltac:(lia)) as [(l & Hl & Hlen & Hz & Hb)|[Hl Hz]].
  - left. exists l. split; [done|]. split_and!; [done|lia|done].
  - right. split; [done|]. intros a Hr E0. apply Hz. apply list_elem_of_fmap. exists (Z.to_nat (a - addr)).
    split; [|apply elem_of_seq; lia]. rewrite <- E0. f_equal. lia.
Qed.

(** The address of argument [n]. *)
Definition arg_addr (n : Z) : Z := u32 (load32 (km_mem (k_kmem s)) (p_tf p + TF_ESP) + 4 + 4 * n).
(** Its value, when it lies in the process. *)
Definition arg_val (n : Z) : option Z :=
  if decide (arg_addr n + 4 ≤ p_sz p) then Some (s32 (le_val (pbytes s p (arg_addr n) 4))) else None.

Lemma tf_load_run off : tf_load off pid s = Ret (load32 (km_mem (k_kmem s)) (p_tf p + off)) s.
Proof.
  unfold tf_load. mrun (myproc_run pid s i p Hc). mrun (pat_run pid s i p (proj1 (current_lookup _ _ _ _ Hc))).
  rewrite (kmem_run (kload (p_tf p + off)) pid s (load32 (km_mem (k_kmem s)) (p_tf p + off)) (k_kmem s)) by done. by destruct s.
Qed.

Lemma argint_run n : argint n pid s = Ret (arg_val n) s.
Proof. unfold argint. mrun (tf_load_run TF_ESP). rewrite fetchint_run by apply u32_range. done. Qed.

Lemma argptr_run n size :
  size < 2 ^ 31 →
  argptr n size pid s = Ret
    (v ← arg_val n; if decide (0 ≤ size ∧ u32 v < p_sz p ∧ u32 v + size ≤ p_sz p) then Some (u32 v) else None) s.
Proof.
  intros Hs. unfold argptr. mrun (myproc_run pid s i p Hc). mrun (argint_run n).
  destruct (arg_val n) as [v|]; [|done]. mrun (pat_run pid s i p (proj1 (current_lookup _ _ _ _ Hc))).
  cbn [mbind option_bind]. pose proof (u32_range v). unfold KERNBASE in Hsz.
  destruct (size <? 0) eqn:E1; cbn [orb]; [by rewrite decide_False by lia|].
  destruct (p_sz p <=? u32 v) eqn:E2; cbn [orb]; [by rewrite decide_False by lia|].
  rewrite (u32_small (u32 v + size)) by lia. destruct (p_sz p <? u32 v + size) eqn:E3; [by rewrite decide_False by lia|].
  by rewrite decide_True by lia.
Qed.

Lemma argstr_run n :
  (∃ v l, argstr n pid s = Ret (Some l) s ∧ arg_val n = Some v ∧ pstring (u32 v) l) ∨
  (argstr n pid s = Ret None s ∧
   ∀ v, arg_val n = Some v → ∀ a, u32 v ≤ a < p_sz p → pbyte s p a ≠ 0).
Proof.
  unfold argstr. rewrite (bind_Ret _ _ _ _ _ _ (argint_run n)). destruct (arg_val n) as [v|]; [|by right].
  destruct (fetchstr_run (u32 v) (proj1 (u32_range v))) as [(l & E & Hl)|[E Hl]].
  - left. by exists v, l.
  - right. split; [done|]. by intros ? [= <-].
Qed.

End mapped.

(** ** Theorems *)

(** C31. The system-call arguments are checked without a hole: for a process
    whose memory is [0, sz), [argint] and [argptr] change nothing, never fault
    and fail exactly when the argument word, or the buffer of [size] bytes it
    points to, is not wholly inside the process; the additions that make the
    test cannot wrap round. *)
Theorem arguments_checked pid (s : kstate) i p n size :
  current pid s i p → user_mapped s p → 0 ≤ p_sz p ≤ KERNBASE → size < 2 ^ 31 →
  argint n pid s = Ret (arg_val s p n) s ∧
  argptr n size pid s = Ret
    (v ← arg_val s p n; if decide (0 ≤ size ∧ u32 v < p_sz p ∧ u32 v + size ≤ p_sz p) then Some (u32 v) else None) s.
Proof. intros Hc Hm Hz Hs. split; [by apply (argint_run pid s i)|by apply (argptr_run pid s i)]. Qed.

(** A string argument is accepted exactly when a NUL ends it inside the
    process: [argstr] then returns the bytes before the first NUL, and
    otherwise fails; it never reads at or beyond the size of the process. *)
Theorem argstr_checked pid (s : kstate) i p n :
  current pid s i p → user_mapped s p → 0 ≤ p_sz p ≤ KERNBASE →
  (∃ v l, argstr n pid s = Ret (Some l) s ∧ arg_val s p n = Some v ∧ pstring s p (u32 v) l) ∨
  (argstr n pid s = Ret None s ∧ ∀ v, arg_val s p n = Some v → ∀ a, u32 v ≤ a < p_sz p → pbyte s p a ≠ 0).
Proof. intros Hc Hm Hz. by apply (argstr_run pid s i). Qed.

End syscall.

(** ** An example *)

(** A process of one page, whose stack holds the arguments 16, 200 and -5 and
    the string "hi" at 16. *)
Definition sc_mem : mem :=
  store32 0x80403044 100 (store32 0x80402068 16 (store32 0x8040206c 200 (store32 0x80402070 (-5)
    (<[0x80402010 := 104]> (<[0x80402011 := 105]> (<[0x80402012 := 0]>
      (store32 0x80400000 0x401007 (store32 0x80401000 0x402007 (λ _, 1))))))))).
Definition sc_proc : proc :=
  mk_proc 4096 0x80400000 0x80403000 RUNNING 1 None 0x80403000 0 None 0 (replicate 16 None) [].
Definition sc_fs : fstate ide_state :=
  mk_fstate (log_boot (mk_bstate [] (ex_ide (λ _, zero_block)))) (sb_decode zero_block) [] (λ _, None).
Definition sc_kernel : kstate ide_state := mk_kstate sc_fs [] (mk_kmem sc_mem 0 0) ∅ [sc_proc] 2 None 0.

Lemma sc_mapped : user_mapped sc_kernel sc_proc.
Proof.
  assert (Forall (λ va, is_Some (kern_access sc_mem 0x80400000 va false)) (seqZ 0 4096)) as H.
  { apply (bool_decide_unpack _). by vm_compute. }
  intros va Hva. rewrite Forall_forall in H. apply H, elem_of_seqZ. simpl in Hva. lia.
Qed.

Lemma sc_size : 0 ≤ p_sz sc_proc ≤ KERNBASE.
Proof. by vm_compute. Qed.

Lemma sc_byte va : pbyte sc_kernel sc_proc va =
  match kern_access sc_mem 0x80400000 va false with Some a => sc_mem a | None => 0 end.
Proof. reflexivity. Qed.

Lemma sc_args : arg_val sc_kernel sc_proc 0 = Some 16 ∧ arg_val sc_kernel sc_proc 1 = Some 200 ∧ arg_val sc_kernel sc_proc 2 = Some (-5).
Proof.
  unfold arg_val, arg_addr, pbytes, pbyte. change (km_mem (k_kmem sc_kernel)) with sc_mem. vm_compute. split_and!; reflexivity.
Qed.

Lemma arguments_checked_witness :
  argint 2 1 sc_kernel = Ret (Some (-5)) sc_kernel ∧ argptr 1 3896 1 sc_kernel = Ret (Some 200) sc_kernel.
Proof.
  destruct (arguments_checked 1 sc_kernel 0 sc_proc 2 0) as [E _]; [reflexivity|apply sc_mapped|apply sc_size|lia|].
  destruct (arguments_checked 1 sc_kernel 0 sc_proc 1 3896) as [_ E']; [reflexivity|apply sc_mapped|apply sc_size|lia|].
  rewrite E, E'. destruct sc_args as (_ & -> & ->). split; reflexivity.
Defined.

Lemma argstr_checked_witness : ∃ l, argstr 0 1 sc_kernel = Ret (Some l) sc_kernel ∧ 0 ∉ l.
Proof.
  destruct (argstr_checked 1 sc_kernel 0 sc_proc 0) as [(v & l & E & Hv & Hl)|[_ E]]; [reflexivity|apply sc_mapped|apply sc_size| |].
  - exists l. split; [exact E|apply Hl].
  - exfalso. apply (E 16 (proj1 sc_args) 18); [by vm_compute|]. rewrite sc_byte. vm_compute. reflexivity.
Defined.
