(* ===== verification/Exec.v ===== *)
(** * Running a program (exec.c, elf.h, loaduvm of vm.c, the checks of
    switchuvm, sys_exec of sysfile.c)

    The task register and the page directory register are not part of the
    state: memory of a process is reached through the page directory of the
    process that runs. *)

From S2P Require Import Prelude Layout Sleeplock Disk Bio Crc32 Log CString Mem Kalloc Vm Pipe Fs Kernel Syscall.

(** ** elf.h *)

Definition ELF_MAGIC : Z := 0x464C457F.
Definition ELF_PROG_LOAD : Z := 1.
Definition SIZEOF_ELFHDR : Z := 52.
Definition SIZEOF_PROGHDR : Z := 32.

(** The fields of the file header that are used. *)
Record elfhdr := mk_elfhdr { elf_magic : Z; elf_entry : Z; elf_phoff : Z; elf_phnum : Z }.
Definition elf_decode (b : list Z) : elfhdr := mk_elfhdr (rd32 0 b) (rd32 24 b) (rd32 28 b) (rd16 44 b).

Record proghdr := mk_proghdr { ph_type : Z; ph_off : Z; ph_vaddr : Z; ph_filesz : Z; ph_memsz : Z }.
Definition ph_decode (b : list Z) : proghdr := mk_proghdr (rd32 0 b) (rd32 4 b) (rd32 8 b) (rd32 16 b) (rd32 20 b).

Definition MAXARG : Z := 32.

Section exec.
Context {D : Type} `{DiskFlush D}.
Context (devsw_read : Z → option (Z → M (fstate D) (Z * list Z))).
Context (kend kdata : Z).
#[local] Notation kstate := (kstate D).
#[local] Notation km m := (lift (T := kmem) m).
#[local] Notation fs m := (lift (T := fstate D) m).

(** [switchuvm]: its checks. *)
Definition switchuvm (i : nat) : M kstate unit :=
  p ← pat i;
  if p_kstack p =? 0 then panic "switchuvm: no kstack" else
  if p_pgdir p =? 0 then panic "switchuvm: no pgdir" else mret tt.

(** The loop of [loaduvm] from [i]. *)
Fixpoint loaduvm_loop (fuel : nat) (pgdir addr : Z) (ip : nat) (offset i sz : Z) : M kstate Z :=
  match fuel with
  | O => undef "loaduvm fuel"
  | S fuel' =>
      if i <? sz then
        pte ← km (walkpgdir pgdir (u32 (addr + i)) 0);
        if pte =? 0 then panic "loaduvm: address should exist" else
        e ← km (kload pte);
        let pa := PTE_ADDR e in
        let n := if sz - i <? PGSIZE then sz - i else PGSIZE in
        '(r, data) ← fs (readi devsw_read ip (u32 (offset + i)) n);
        km (k_upd (write_bytes (P2V pa) data)) ;;
        if negb (r =? n) then mret (-1)
        else loaduvm_loop fuel' pgdir addr ip offset (u32 (i + PGSIZE)) sz
      else mret 0
  end.
Definition loaduvm (pgdir addr : Z) (ip : nat) (offset sz : Z) : M kstate Z :=
  if negb (addr mod PGSIZE =? 0) then panic "loaduvm: addr must be page aligned" else
  loaduvm_loop (S (S (Z.to_nat (sz / PGSIZE)))) pgdir addr ip offset 0 sz.

(** The loop over the program headers, [n] of them from offset [off]: the
    size of the program, [None] for [goto bad]. *)
Fixpoint exec_load (n : nat) (pgdir : Z) (ip : nat) (off sz : Z) : M kstate (option Z) :=
  match n with
  | O => mret (Some sz)
  | S n' =>
      '(r, data) ← fs (readi devsw_read ip off SIZEOF_PROGHDR);
      if negb (r =? SIZEOF_PROGHDR) then mret None else
      let ph := ph_decode data in
      let off' := u32 (off + SIZEOF_PROGHDR) in
      if negb (ph_type ph =? ELF_PROG_LOAD) then exec_load n' pgdir ip off' sz else
      if ph_memsz ph <? ph_filesz ph then mret None else
      if u32 (ph_vaddr ph + ph_memsz ph) <? ph_vaddr ph then mret None else
      sz ← km (allocuvm kend pgdir sz (u32 (ph_vaddr ph + ph_memsz ph)));
      if sz =? 0 then mret None else
      if negb (ph_vaddr ph mod PGSIZE =? 0) then mret None else
      r ← loaduvm pgdir (ph_vaddr ph) ip (ph_off ph) (ph_filesz ph);
      if r <? 0 then mret None else exec_load n' pgdir ip off' sz
  end.

(** The argument strings pushed from [sp]: the new stack pointer and their
    addresses. *)
Fixpoint exec_args (pgdir : Z) (argv : list (list Z)) (argc sp : Z) : M kstate (option (Z * list Z)) :=
  match argv with
  | [] => mret (Some (sp, []))
  | s :: argv' =>
      if MAXARG <=? argc then mret None else
      let len := Z.of_nat (length s) + 1 in
      let sp := Z.land (u32 (sp - len)) (Z.lnot 3) in
      r ← km (copyout pgdir sp (s ++ [0]) len);
      if r <? 0 then mret None else
      o ← exec_args pgdir argv' (argc + 1) sp;
      mret ('(sp', addrs) ← o; Some (sp', sp :: addrs))
  end.

(** What follows the last slash. *)
Fixpoint last_elem (path last : list Z) : list Z :=
  match path with
  | [] => last
  | c :: path' => last_elem path' (if c =? SLASH then path' else last)
  end.

(** [bad]. *)
Definition exec_bad (pgdir : Z) (ip : option nat) : M kstate Z :=
  (if pgdir =? 0 then mret tt else km (freevm kend pgdir)) ;;
  match ip with
  | Some ip => fs (iunlockput ip) ;; k_end_op
  | None => mret tt
  end ;;
  mret (-1).

(** From the stack on, with the program in [pgdir]. *)
Definition exec_stack (path : list Z) (argv : list (list Z)) (elf : elfhdr) (pgdir sz : Z) : M kstate Z :=
  let sz := PGROUNDUP sz in
  sz ← km (allocuvm kend pgdir sz (u32 (sz + 2 * PGSIZE)));
  if sz =? 0 then exec_bad pgdir None else
  km (clearpteu pgdir (u32 (sz - 2 * PGSIZE))) ;;
  o ← exec_args pgdir argv 0 sz;
  match o with
  | None => exec_bad pgdir None
  | Some (sp, addrs) =>
      let argc := Z.of_nat (length addrs) in
      let ustack := [0xffffffff; argc; u32 (sp - (argc + 1) * 4)] ++ addrs ++ [0] in
      let sp := u32 (sp - (3 + argc + 1) * 4) in
      r ← km (copyout pgdir sp (addrs_encode ustack) ((3 + argc + 1) * 4));
      if r <? 0 then exec_bad pgdir None else
      c ← myproc;
      p ← pat c;
      let oldpgdir := p_pgdir p in
      let last := last_elem path path in
      pset c (λ p, p_set_mem sz pgdir (p_set_name (splice 0 (safestrcpy (λ k, nth k last 0) 16) (p_name p)) p)) ;;
      tf_store TF_EIP (elf_entry elf) ;;
      tf_store TF_ESP sp ;;
      switchuvm c ;;
      km (freevm kend oldpgdir) ;;
      mret 0
  end.

Definition exec (path : list Z) (argv : list (list Z)) : M kstate Z :=
  k_begin_op ;;
  o ← fs (namei devsw_read path);
  match o with
  | None => k_end_op ;; mret (-1)
  | Some ip =>
      fs (ilock (Some ip)) ;;
      '(r, data) ← fs (readi devsw_read ip 0 SIZEOF_ELFHDR);
      if negb (r =? SIZEOF_ELFHDR) then exec_bad 0 (Some ip) else
      let elf := elf_decode data in
      if negb (elf_magic elf =? ELF_MAGIC) then exec_bad 0 (Some ip) else
      pgdir ← km (setupkvm kend kdata);
      if pgdir =? 0 then exec_bad 0 (Some ip) else
      o ← exec_load (Z.to_nat (elf_phnum elf)) pgdir ip (elf_phoff elf) 0;
      match o with
      | None => exec_bad pgdir (Some ip)
      | Some sz =>
          fs (iunlockput ip) ;;
          k_end_op ;;
          exec_stack path argv elf pgdir sz
      end
  end.

(** The loop of [sys_exec] from [i]: the argument strings. *)
Fixpoint fetch_argv (fuel : nat) (uargv i : Z) : M kstate (option (list (list Z))) :=
  match fuel with
  | O => mret None
  | S fuel' =>
      r ← fetchint (u32 (uargv + 4 * i));
      match r with
      | None => mret None
      | Some uarg =>
          if uarg =? 0 then mret (Some []) else
          o ← fetchstr (u32 uarg);
          match o with
          | None => mret None
          | Some s => l ← fetch_argv fuel' uargv (i + 1); mret (cons s <$> l)
          end
      end
  end.
Definition sys_exec : M kstate Z :=
  path ← argstr 0;
  match path with
  | None => mret (-1)
  | Some path =>
      uargv ← argint 1;
      match uargv with
      | None => mret (-1)
      | Some uargv =>
          argv ← fetch_argv (Z.to_nat MAXARG) (u32 uargv) 0;
          match argv with
          | None => mret (-1)
          | Some argv => exec path argv
          end
      end
  end.

End exec.
