(* ===== verification/Sysfile.v ===== *)
(** * File system calls (sysfile.c)

    A system call is a computation on the kernel state with an integer result.
    A buffer of the caller is copied from its memory before the call into
    file.c and to its memory after it. *)

From S2P Require Import Prelude Layout Sleeplock Disk Bio Crc32 Log CString Mem Kalloc Vm Pipe Fs Kernel File Syscall.

Definition O_RDONLY : Z := 0x000.
Definition O_WRONLY : Z := 0x001.
Definition O_RDWR : Z := 0x002.
Definition O_CREATE : Z := 0x200.

(** The names of the two first entries of a directory. *)
Definition DOT : list Z := [46].
Definition DOTDOT : list Z := [46; 46].

Section sysfile.
Context {D : Type} `{DiskFlush D}.
Context (devsw_read : Z → option (Z → M (fstate D) (Z * list Z))).
Context (devsw_write : Z → option (list Z → M (fstate D) Z)).
Context (kend : Z).
#[local] Notation kstate := (kstate D).
#[local] Notation fs m := (lift (T := fstate D) m).

(** The rest of a call when an argument was fetched, otherwise -1. *)
Definition with_arg {A} (m : M kstate (option A)) (k : A → M kstate Z) : M kstate Z :=
  o ← m;
  match o with Some a => k a | None => mret (-1) end.

(** ** Descriptors *)

(** The descriptor and its file. *)
Definition argfd (n : Z) : M kstate (option (Z * nat)) :=
  r ← argint n;
  match r with
  | None => mret None
  | Some fd =>
      if (fd <? 0) || (NOFILE <=? fd) then mret None else
      i ← myproc;
      p ← pat i;
      match p_ofile p !! Z.to_nat fd with
      | Some (Some f) => mret (Some (fd, f))
      | Some None => mret None
      | None => undef "ofile index"
      end
  end.

(** The first free descriptor of a process. *)
Definition fdfree (l : list (option nat)) : option nat := fst <$> list_find (λ o, o = None) l.

Definition fdalloc (f : nat) : M kstate Z :=
  i ← myproc;
  p ← pat i;
  match fdfree (p_ofile p) with
  | Some fd => pset i (λ p, p_set_ofile (<[fd := Some f]> (p_ofile p)) p) ;; mret (Z.of_nat fd)
  | None => mret (-1)
  end.

(** [myproc()->ofile[fd] = 0] *)
Definition fdclear (fd : Z) : M kstate unit :=
  i ← myproc;
  pset i (λ p, p_set_ofile (<[Z.to_nat fd := None]> (p_ofile p)) p).

Definition sys_dup : M kstate Z :=
  with_arg (argfd 0) (λ '(_, f),
  fd ← fdalloc f;
  if fd <? 0 then mret (-1) else
  filedup f ;;
  mret fd).

Definition sys_read : M kstate Z :=
  with_arg (argfd 0) (λ '(_, f),
  with_arg (argint 2) (λ n,
  with_arg (argptr 1 n) (λ p,
  '(r, data) ← fileread devsw_read f n;
  ustore p data ;;
  mret r))).

Definition sys_write : M kstate Z :=
  with_arg (argfd 0) (λ '(_, f),
  with_arg (argint 2) (λ n,
  with_arg (argptr 1 n) (λ p,
  src ← uload p (Z.to_nat n);
  filewrite devsw_write f src n))).

Definition sys_close : M kstate Z :=
  with_arg (argfd 0) (λ '(fd, f),
  fdclear fd ;;
  fileclose kend f ;;
  mret 0).

(** The fields of struct stat at their offsets. *)
Definition SIZEOF_STAT : Z := 20.
Definition ustore_stat (a : Z) (st : stat) : M kstate unit :=
  ustore (a + 4) (le_bytes 4 (st_dev st)) ;;
  ustore (a + 8) (le_bytes 4 (st_ino st)) ;;
  ustore a (le_bytes 2 (st_type st)) ;;
  ustore (a + 12) (le_bytes 2 (st_nlink st)) ;;
  ustore (a + 16) (le_bytes 4 (st_size st)).

Definition sys_fstat : M kstate Z :=
  with_arg (argfd 0) (λ '(_, f),
  with_arg (argptr 1 SIZEOF_STAT) (λ a,
  o ← filestat f;
  match o with
  | Some st => ustore_stat a st ;; mret 0
  | None => mret (-1)
  end)).

(** ** Links *)

(** [ip->nlink += d; iupdate(ip)] *)
Definition add_nlink (ip : nat) (d : Z) : M (fstate D) unit :=
  iset ip (λ i, i_set_nlink (s16 (i_nlink i + d)) i) ;;
  iupdate ip.

(** [bad] of [sys_link]. *)
Definition link_bad (ip : nat) : M kstate Z :=
  fs (ilock (Some ip)) ;;
  fs (add_nlink ip (-1)) ;;
  fs (iunlockput ip) ;;
  k_end_op ;;
  mret (-1).

Definition sys_link : M kstate Z :=
  with_arg (argstr 0) (λ old,
  with_arg (argstr 1) (λ new,
  k_begin_op ;;
  o ← fs (namei devsw_read old);
  match o with
  | None => k_end_op ;; mret (-1)
  | Some ip =>
      fs (ilock (Some ip)) ;;
      i ← fs (iat ip);
      if i_type i =? T_DIR then fs (iunlockput ip) ;; k_end_op ;; mret (-1) else
      fs (add_nlink ip 1) ;;
      fs (iunlock (Some ip)) ;;
      '(o, name) ← fs (nameiparent devsw_read new (replicate (Z.to_nat DIRSIZ) 0));
      match o with
      | None => link_bad ip
      | Some dp =>
          fs (ilock (Some dp)) ;;
          d ← fs (iat dp);
          i ← fs (iat ip);
          r ← (if negb (i_dev d =? i_dev i) then mret (-1)
               else fs (dirlink devsw_read devsw_write dp name (i_inum i)));
          fs (iunlockput dp) ;;
          if r <? 0 then link_bad ip else
          fs (iput ip) ;;
          k_end_op ;;
          mret 0
      end
  end)).

(** The loop of [isdirempty] from [off]. *)
Fixpoint isdirempty_loop (fuel : nat) (dp : nat) (off : Z) : M (fstate D) bool :=
  match fuel with
  | O => undef "isdirempty fuel"
  | S fuel' =>
      i ← iat dp;
      if off <? i_size i then
        '(r, data) ← readi devsw_read dp off DESZ;
        if negb (r =? DESZ) then panic "isdirempty: readi" else
        if negb (de_inum (de_decode data) =? 0) then mret false
        else isdirempty_loop fuel' dp (off + DESZ)
      else mret true
  end.
Definition isdirempty (dp : nat) : M (fstate D) bool :=
  i ← iat dp;
  isdirempty_loop (S (Z.to_nat (i_size i))) dp (2 * DESZ).

(** [bad] of [sys_unlink]. *)
Definition unlink_bad (dp : nat) : M kstate Z := fs (iunlockput dp) ;; k_end_op ;; mret (-1).

Definition sys_unlink : M kstate Z :=
  with_arg (argstr 0) (λ path,
  k_begin_op ;;
  '(o, name) ← fs (nameiparent devsw_read path (replicate (Z.to_nat DIRSIZ) 0));
  match o with
  | None => k_end_op ;; mret (-1)
  | Some dp =>
      fs (ilock (Some dp)) ;;
      if (namecmp name DOT =? 0) || (namecmp name DOTDOT =? 0) then unlink_bad dp else
      o ← fs (dirlookup devsw_read dp name);
      match o with
      | None => unlink_bad dp
      | Some (ip, off) =>
          fs (ilock (Some ip)) ;;
          i ← fs (iat ip);
          if i_nlink i <? 1 then panic "unlink: nlink < 1" else
          full ← (if i_type i =? T_DIR then e ← fs (isdirempty ip); mret (negb e) else mret false);
          if (full : bool) then fs (iunlockput ip) ;; unlink_bad dp else
          r ← fs (writei devsw_write dp (replicate (Z.to_nat DESZ) 0) off DESZ);
          if negb (r =? DESZ) then panic "unlink: writei" else
          i ← fs (iat ip);
          (if i_type i =? T_DIR then fs (add_nlink dp (-1)) else mret tt) ;;
          fs (iunlockput dp) ;;
          fs (add_nlink ip (-1)) ;;
          fs (iunlockput ip) ;;
          k_end_op ;;
          mret 0
      end
  end).

(** ** Creation *)

(** The two first entries of directory [ip], made in [dp]. *)
Definition create_dots (ip dp : nat) : M (fstate D) unit :=
  i ← iat ip;
  r ← dirlink devsw_read devsw_write ip DOT (i_inum i);
  if r <? 0 then panic "create dots" else
  d ← iat dp;
  r ← dirlink devsw_read devsw_write ip DOTDOT (i_inum d);
  if r <? 0 then panic "create dots" else mret tt.

(** The inode, locked; [None] is the null pointer.  [ialloc] panics when it
    has no inode, so the test of its result is not reached. *)
Definition create (path : list Z) (type major minor : Z) : M (fstate D) (option nat) :=
  '(o, name) ← nameiparent devsw_read path (replicate (Z.to_nat DIRSIZ) 0);
  match o with
  | None => mret None
  | Some dp =>
      ilock (Some dp) ;;
      o ← dirlookup devsw_read dp name;
      match o with
      | Some (ip, _) =>
          iunlockput dp ;;
          ilock (Some ip) ;;
          i ← iat ip;
          if (type =? T_FILE) && (i_type i =? T_FILE) then mret (Some ip)
          else iunlockput ip ;; mret None
      | None =>
          d ← iat dp;
          ip ← ialloc (i_dev d) type;
          ilock (Some ip) ;;
          iset ip (λ i, i_set_nlink 1 (i_set_dev2 (s16 major) (s16 minor) i)) ;;
          iupdate ip ;;
          (if type =? T_DIR then add_nlink dp 1 ;; create_dots ip dp else mret tt) ;;
          i ← iat ip;
          r ← dirlink devsw_read devsw_write dp name (i_inum i);
          if r <? 0 then panic "create: dirlink" else
          iunlockput dp ;;
          mret (Some ip)
      end
  end.

(** The inode [sys_open] works on, locked. *)
Definition open_inode (path : list Z) (omode : Z) : M kstate (option nat) :=
  if negb (Z.land omode O_CREATE =? 0) then fs (create path T_FILE 0 0)
  else
    o ← fs (namei devsw_read path);
    match o with
    | None => mret None
    | Some ip =>
        fs (ilock (Some ip)) ;;
        i ← fs (iat ip);
        if (i_type i =? T_DIR) && negb (omode =? O_RDONLY) then fs (iunlockput ip) ;; mret None
        else mret (Some ip)
    end.

(** A file and a descriptor for it; a file that gets none is closed. *)
Definition open_file : M kstate (option (nat * Z)) :=
  o ← filealloc;
  match o with
  | None => mret None
  | Some f =>
      fd ← fdalloc f;
      if fd <? 0 then fileclose kend f ;; mret None else mret (Some (f, fd))
  end.

Definition cbool (b : bool) : Z := if b then 1 else 0.

Definition sys_open : M kstate Z :=
  with_arg (argstr 0) (λ path,
  with_arg (argint 1) (λ omode,
  k_begin_op ;;
  o ← open_inode path omode;
  match o with
  | None => k_end_op ;; mret (-1)
  | Some ip =>
      o ← open_file;
      match o with
      | None => fs (iunlockput ip) ;; k_end_op ;; mret (-1)
      | Some (f, fd) =>
          fs (iunlock (Some ip)) ;;
          k_end_op ;;
          fset f (λ x, fl_set_mode (cbool (Z.land omode O_WRONLY =? 0))
            (cbool (negb (Z.land omode O_WRONLY =? 0) || negb (Z.land omode O_RDWR =? 0)))
            (fl_set_off 0 (fl_set_ip (Some ip) (fl_set_type FD_INODE x)))) ;;
          mret fd
      end
  end)).

(** The end of [sys_mkdir] and [sys_mknod]. *)
Definition created (o : option nat) : M kstate Z :=
  match o with
  | None => k_end_op ;; mret (-1)
  | Some ip => fs (iunlockput ip) ;; k_end_op ;; mret 0
  end.

Definition sys_mkdir : M kstate Z :=
  k_begin_op ;;
  path ← argstr 0;
  o ← match path with Some path => fs (create path T_DIR 0 0) | None => mret None end;
  created o.

Definition sys_mknod : M kstate Z :=
  k_begin_op ;;
  path ← argstr 0;
  major ← match path with Some _ => argint 1 | None => mret None end;
  minor ← match major with Some _ => argint 2 | None => mret None end;
  o ← match path, major, minor with
      | Some path, Some major, Some minor => fs (create path T_DEV major minor)
      | _, _, _ => mret None
      end;
  created o.

Definition set_cwd (pid : Z) (ip : option nat) : M (fstate D) unit :=
  modify (λ s, f_set_cwd (<[pid := ip]> (f_cwd s)) s).

Definition sys_chdir : M kstate Z :=
  k_begin_op ;;
  path ← argstr 0;
  o ← match path with Some path => fs (namei devsw_read path) | None => mret None end;
  match o with
  | None => k_end_op ;; mret (-1)
  | Some ip =>
      fs (ilock (Some ip)) ;;
      i ← fs (iat ip);
      if negb (i_type i =? T_DIR) then fs (iunlockput ip) ;; k_end_op ;; mret (-1) else
      fs (iunlock (Some ip)) ;;
      pid ← mypid;
      s ← get;
      match f_cwd (k_fs s) pid with Some cwd => fs (iput cwd) | None => undef "iput: null" end ;;
      k_end_op ;;
      fs (set_cwd pid (Some ip)) ;;
      mret 0
  end.

Definition sys_pipe : M kstate Z :=
  with_arg (argptr 0 8) (λ fd,
  o ← pipealloc kend;
  match o with
  | None => mret (-1)
  | Some (rf, wf) =>
      fd0 ← fdalloc rf;
      if fd0 <? 0 then fileclose kend rf ;; fileclose kend wf ;; mret (-1) else
      fd1 ← fdalloc wf;
      if fd1 <? 0 then fdclear fd0 ;; fileclose kend rf ;; fileclose kend wf ;; mret (-1) else
      ustore fd (le_bytes 4 fd0) ;;
      ustore (fd + 4) (le_bytes 4 fd1) ;;
      mret 0
  end).

End sysfile.
