(* ===== verification/Proc.v ===== *)
(** * Processes (proc.c)

    [ptable.lock] makes the sections that hold it atomic.  The scheduler and
    the processors are in Sched. *)

From S2P Require Import Prelude Layout Sleeplock Disk Bio Crc32 Log CString Mem Kalloc Vm Pipe Fs Kernel File Syscall Exec Sysfile.

Definition SEG_UCODE : Z := 3.
Definition SEG_UDATA : Z := 4.
Definition DPL_USER : Z := 0x3.
Definition FL_IF : Z := 0x200.

Section proc.
Context {D : Type} `{DiskFlush D}.
Context (devsw_read : Z → option (Z → M (fstate D) (Z * list Z))).
Context (kend kdata : Z).
(** Addresses of code, and the program of the first process. *)
Context (trapret forkret_addr : Z) (initcode : list Z).
#[local] Notation kstate := (kstate D).
#[local] Notation km m := (lift (T := kmem) m).
#[local] Notation fs m := (lift (T := fstate D) m).

(** A 16-bit store. *)
Definition kstore16 (a v : Z) : M kmem unit := k_upd (write_bytes a (le_bytes 2 v)).

(** ** Creation *)

Definition allocproc : M kstate (option nat) :=
  s ← get;
  match list_find (λ p, p_state p = UNUSED) (k_proc s) with
  | None => mret None
  | Some (i, _) =>
      pset i (λ p, p_set_pid (k_nextpid s) (p_set_state EMBRYO p)) ;;
      modify (λ s, k_set_nextpid (s32 (k_nextpid s + 1)) s) ;;
      stk ← km kalloc;
      pset i (p_set_kstack stk) ;;
      if stk =? 0 then pset i (p_set_state UNUSED) ;; mret None else
      let tf := stk + KSTACKSIZE - SIZEOF_TF in
      let cx := tf - 4 - SIZEOF_CX in
      km (kstore (tf - 4) trapret) ;;
      pset i (p_set_frames tf cx) ;;
      km (k_upd (memset cx 0 SIZEOF_CX)) ;;
      km (kstore (cx + CX_EIP) forkret_addr) ;;
      mret (Some i)
  end.

(** "initcode" *)
Definition INITCODE_NAME : list Z := [105; 110; 105; 116; 99; 111; 100; 101].

Definition userinit : M kstate unit :=
  o ← allocproc;
  modify (k_set_initproc o) ;;
  match o with
  | None => undef "userinit: null process"
  | Some i =>
      pgdir ← km (setupkvm kend kdata);
      pset i (λ p, p_set_mem (p_sz p) pgdir p) ;;
      if pgdir =? 0 then panic "userinit: out of memory?" else
      km (inituvm pgdir initcode (Z.of_nat (length initcode))) ;;
      pset i (p_set_mem PGSIZE pgdir) ;;
      p ← pat i;
      let tf := p_tf p in
      km (k_upd (memset tf 0 SIZEOF_TF)) ;;
      km (kstore16 (tf + TF_CS) (Z.lor (Z.shiftl SEG_UCODE 3) DPL_USER)) ;;
      km (kstore16 (tf + TF_DS) (Z.lor (Z.shiftl SEG_UDATA 3) DPL_USER)) ;;
      km (kstore16 (tf + TF_ES) (Z.lor (Z.shiftl SEG_UDATA 3) DPL_USER)) ;;
      km (kstore16 (tf + TF_SS) (Z.lor (Z.shiftl SEG_UDATA 3) DPL_USER)) ;;
      km (kstore (tf + TF_EFLAGS) FL_IF) ;;
      km (kstore (tf + TF_ESP) PGSIZE) ;;
      km (kstore (tf + TF_EIP) 0) ;;
      pset i (λ p, p_set_name (splice 0 (safestrcpy (λ k, nth k INITCODE_NAME 0) 16) (p_name p)) p) ;;
      root ← fs (namei devsw_read [SLASH]);
      fs (set_cwd (p_pid p) root) ;;
      pset i (p_set_state RUNNABLE)
  end.

Definition growproc (n : Z) : M kstate Z :=
  c ← myproc;
  p ← pat c;
  let sz := p_sz p in
  sz' ← (if 0 <? n then km (allocuvm kend (p_pgdir p) sz (u32 (sz + n)))
         else if n <? 0 then km (deallocuvm kend (p_pgdir p) sz (u32 (sz + n)))
         else mret sz);
  if negb (n =? 0) && (sz' =? 0) then mret (-1) else
  pset c (λ p, p_set_mem sz' (p_pgdir p) p) ;;
  switchuvm c ;;
  mret 0.

(** One descriptor of the parent given to the child. *)
Definition fork_fd (np : nat) (fds : list (option nat)) (i : nat) : M kstate unit :=
  match fds !! i with
  | Some (Some f) =>
      g ← filedup f;
      pset np (λ p, p_set_ofile (<[i := Some g]> (p_ofile p)) p)
  | _ => mret tt
  end.

Definition fork : M kstate Z :=
  c ← myproc;
  o ← allocproc;
  match o with
  | None => mret (-1)
  | Some np =>
      cur ← pat c;
      pgdir ← km (copyuvm kend kdata (p_pgdir cur) (p_sz cur));
      pset np (λ p, p_set_mem (p_sz p) pgdir p) ;;
      if pgdir =? 0 then
        n ← pat np;
        km (kfree kend (p_kstack n)) ;;
        pset np (λ p, p_set_state UNUSED (p_set_kstack 0 p)) ;;
        mret (-1)
      else
        pset np (λ p, p_set_parent (Some c) (p_set_mem (p_sz cur) pgdir p)) ;;
        n ← pat np;
        km (k_upd (memmove (p_tf n) (p_tf cur) SIZEOF_TF)) ;;
        km (kstore (p_tf n + TF_EAX) 0) ;;
        forM (seq 0 (Z.to_nat NOFILE)) (fork_fd np (p_ofile cur)) ;;
        s ← get;
        cwd ← match f_cwd (k_fs s) (p_pid cur) with
              | Some ip => fs (idup ip)
              | None => undef "idup: null"
              end;
        fs (set_cwd (p_pid n) (Some cwd)) ;;
        pset np (λ p, p_set_name (splice 0 (safestrcpy (λ k, nth k (p_name cur) 0) 16) (p_name p)) p) ;;
        pset np (p_set_state RUNNABLE) ;;
        mret (p_pid n)
  end.

(** ** Exit and wait *)

(** One turn of the loop that closes the files. *)
Definition exit_fd (c : nat) (fd : nat) : M kstate unit :=
  p ← pat c;
  match p_ofile p !! fd with
  | Some (Some f) =>
      fileclose kend f ;;
      pset c (λ p, p_set_ofile (<[fd := None]> (p_ofile p)) p)
  | _ => mret tt
  end.

(** One turn of the loop that passes the children to init. *)
Definition reparent (c : nat) (i : nat) : M kstate unit :=
  p ← pat i;
  s ← get;
  if bool_decide (p_parent p = Some c) then
    pset i (p_set_parent (k_initproc s)) ;;
    if bool_decide (p_state p = ZOMBIE) then wakeup1 (ChProc <$> k_initproc s) else mret tt
  else mret tt.

(** The section of [exit] that holds [ptable.lock]. *)
Definition exit_table (c : nat) : M kstate unit :=
  p ← pat c;
  wakeup1 (ChProc <$> p_parent p) ;;
  s ← get;
  forM (seq 0 (length (k_proc s))) (reparent c) ;;
  pset c (p_set_state ZOMBIE).

(** [exit] up to the switch to the scheduler, from which it does not return. *)
Definition exit_run : M kstate unit :=
  c ← myproc;
  s ← get;
  if bool_decide (k_initproc s = Some c) then panic "init exiting" else
  forM (seq 0 (Z.to_nat NOFILE)) (exit_fd c) ;;
  k_begin_op ;;
  pid ← mypid;
  s ← get;
  match f_cwd (k_fs s) pid with Some ip => fs (iput ip) | None => undef "iput: null" end ;;
  k_end_op ;;
  fs (set_cwd pid None) ;;
  exit_table c.
Definition exit {A} : M kstate A := exit_run ;; sleep_on ChNone.

Definition child_of (c : nat) (p : proc) : Prop := p_parent p = Some c.
#[global] Instance child_of_dec c p : Decision (child_of c p).
Proof. unfold child_of. apply _. Defined.
Definition zombie_child (c : nat) (p : proc) : Prop := child_of c p ∧ p_state p = ZOMBIE.
#[global] Instance zombie_child_dec c p : Decision (zombie_child c p).
Proof. unfold zombie_child. apply _. Defined.

(** What [wait] makes of the entry of an exited child. *)
Definition p_reaped (p : proc) : proc :=
  p_set_state UNUSED (p_set_killed 0 (p_set_name (<[0%nat := 0]> (p_name p)) (p_set_parent None (p_set_pid 0 p)))).

Definition wait : M kstate Z :=
  c ← myproc;
  s ← get;
  match list_find (zombie_child c) (k_proc s) with
  | Some (i, p) =>
      km (kfree kend (p_kstack p)) ;;
      pset i (p_set_kstack 0) ;;
      km (freevm kend (p_pgdir p)) ;;
      pset i p_reaped ;;
      mret (p_pid p)
  | None =>
      cur ← pat c;
      if negb (bool_decide (Exists (child_of c) (k_proc s))) || negb (p_killed cur =? 0) then mret (-1)
      else sleep (ChProc c)
  end.

(** ** Giving up the processor *)

(** [yield] up to the switch. *)
Definition yield {A} : M kstate A :=
  c ← myproc;
  pset c (p_set_state RUNNABLE) ;;
  sleep_on ChNone.

(** The first code a process runs; [first] is the static variable. *)
Definition forkret (first : bool) : M kstate unit :=
  if first then
    fs (iinit ROOTDEV) ;;
    lift (T := fstate D) (lift (T := lstate D) (initlog ROOTDEV))
  else mret tt.

End proc.
