(* ===== verification/Sysproc.v ===== *)
(** * Process system calls and the system call table (sysproc.c, the table
    [syscalls] of syscall.c) *)

From S2P Require Import Prelude Layout Sleeplock Disk Bio Crc32 Log CString Mem Kalloc Vm Pipe Fs Kernel File Syscall Exec Sysfile Proc.

Section sysproc.
Context {D : Type} `{DiskFlush D}.
Context (devsw_read : Z → option (Z → M (fstate D) (Z * list Z))).
Context (devsw_write : Z → option (list Z → M (fstate D) Z)).
Context (kend kdata : Z) (trapret forkret_addr : Z).
#[local] Notation kstate := (kstate D).

Definition sys_fork : M kstate Z := fork kend kdata trapret forkret_addr.
Definition sys_exit : M kstate Z := exit kend.
Definition sys_wait : M kstate Z := wait kend.
Definition sys_kill : M kstate Z := with_arg (argint 0) (λ pid, kill pid).
Definition sys_getpid : M kstate Z := i ← myproc; p ← pat i; mret (p_pid p).

Definition sys_sbrk : M kstate Z :=
  with_arg (argint 0) (λ n,
  i ← myproc;
  p ← pat i;
  let addr := s32 (p_sz p) in
  r ← growproc kend n;
  if r <? 0 then mret (-1) else mret addr).

(** The loop of [sys_sleep], entered again with the same [ticks0] after each
    wakeup. *)
Definition sys_sleep_loop (ticks0 n : Z) : M kstate Z :=
  s ← get;
  if u32 (k_ticks s - ticks0) <? u32 n then
    killed ← mykilled;
    if (killed : bool) then mret (-1) else sleep ChTicks
  else mret 0.
Definition sys_sleep : M kstate Z :=
  with_arg (argint 0) (λ n, s ← get; sys_sleep_loop (k_ticks s) n).

Definition sys_uptime : M kstate Z := s ← get; mret (s32 (k_ticks s)).

(** struct journal_stats: ten ints. *)
Definition js_encode (j : journal_stats) : list Z :=
  addrs_encode [total_commits j; total_recoveries j; checksum_errors j; blocks_written j; blocks_installed j;
    bytes_logged j; group_commit_batches j; flush_barriers j; max_batch_size j; total_ops_batched j].
Definition sys_journalstat : M kstate Z :=
  with_arg (argptr 0 40) (λ js,
  j ← lift (T := fstate D) (lift (T := lstate D) get_journal_stats);
  ustore js (js_encode j) ;;
  mret 0).

Definition sys_crash : M kstate Z :=
  with_arg (argint 0) (λ phase,
  lift (T := fstate D) (lift (T := lstate D) (modify (l_set_crash phase))) ;;
  mret 0).

Definition syscalls (num : Z) : option (M kstate Z) :=
  match num with
  | 1 => Some sys_fork
  | 2 => Some sys_exit
  | 3 => Some sys_wait
  | 4 => Some (sys_pipe kend)
  | 5 => Some (sys_read devsw_read)
  | 6 => Some sys_kill
  | 7 => Some (sys_exec devsw_read kend kdata)
  | 8 => Some sys_fstat
  | 9 => Some (sys_chdir devsw_read)
  | 10 => Some sys_dup
  | 11 => Some sys_getpid
  | 12 => Some sys_sbrk
  | 13 => Some sys_sleep
  | 14 => Some sys_uptime
  | 15 => Some (sys_open devsw_read devsw_write kend)
  | 16 => Some (sys_write devsw_write)
  | 17 => Some (sys_mknod devsw_read devsw_write)
  | 18 => Some (sys_unlink devsw_read devsw_write)
  | 19 => Some (sys_link devsw_read devsw_write)
  | 20 => Some (sys_mkdir devsw_read devsw_write)
  | 21 => Some (sys_close kend)
  | 22 => Some sys_journalstat
  | 23 => Some sys_crash
  | _ => None
  end.

End sysproc.
