(* ===== verification/FdInv.v ===== *)
(** * Descriptors, files and pipes: the reference counts

    The reference count of an entry of the file table is the number of
    descriptors, over all processes, that name it, plus what the running code
    holds in its variables; an entry without references is unused; an open end
    of a pipe is one file.  The system calls keep this. *)

From S2P Require Import Prelude Layout Sleeplock Disk Ide Bio Crc32 Log LogReserve CString Mem Kalloc Vm Pipe Fs Kernel File Syscall Exec Sysfile Proc.

(** ** Partial correctness *)

Definition hoare {S A} (pid : Z) (P : S → Prop) (m : M S A) (Q : A → S → Prop) : Prop :=
  ∀ s a s', P s → m pid s = Ret a s' → Q a s'.

Section hoare.
Context {S : Type} (pid : Z).

Lemma hoare_bind {A B} P R Q (m : M S A) (k : A → M S B) :
  hoare pid P m R → (∀ a, hoare pid (R a) (k a) Q) → hoare pid P (m ≫= k) Q.
Proof. intros Hm Hk s b s' HP (a & s1 & E1 & E2)%bind_inv_Ret. exact (Hk a s1 b s' (Hm s a s1 HP E1) E2). Qed.
Lemma hoare_ret {A} (a : A) (P : S → Prop) (Q : A → S → Prop) : (∀ s, P s → Q a s) → hoare pid P (mret a) Q.
Proof. intros H s b s' HP E. injection E as <- <-. by apply H. Qed.
Lemma hoare_panic {A} P msg (Q : A → S → Prop) : hoare pid P (panic msg) Q.
Proof. by intros s b s' _ E. Qed.
Lemma hoare_undef {A} P msg (Q : A → S → Prop) : hoare pid P (undef msg) Q.
Proof. by intros s b s' _ E. Qed.
Lemma hoare_asleep {A} P c (Q : A → S → Prop) : hoare pid P (sleep_on c) Q.
Proof. by intros s b s' _ E. Qed.
Lemma hoare_pre {A} (P P' : S → Prop) (m : M S A) Q : (∀ s, P s → P' s) → hoare pid P' m Q → hoare pid P m Q.
Proof. intros H Hm s a s' HP. by apply Hm, H. Qed.
Lemma hoare_post {A} P (m : M S A) (Q Q' : A → S → Prop) : (∀ a s, Q' a s → Q a s) → hoare pid P m Q' → hoare pid P m Q.
Proof. intros H Hm s a s' HP E. by apply H, (Hm s). Qed.

(** Code that leaves [f] alone keeps what depends on it alone. *)
Lemma hoare_keeps {A B} (f : S → B) (P : S → Prop) (m : M S A) :
  keeps f m → (∀ s s', f s' = f s → P s → P s') → hoare pid P m (λ _, P).
Proof. intros Hm HP s a s' Hs E. exact (HP s s' (Hm _ _ _ _ E) Hs). Qed.
End hoare.

(** ** Counting *)

(** How often [f] is named. *)
Definition nref (f : nat) (l : list (option nat)) : Z := Z.of_nat (length (filter (λ o, o = Some f) l)).

Lemma nref_nil f : nref f [] = 0.
Proof. done. Qed.
Lemma nref_cons f o l : nref f (o :: l) = (if decide (o = Some f) then 1 else 0) + nref f l.
Proof. unfold nref. rewrite filter_cons. case_decide; simpl; lia. Qed.
Lemma nref_app f l k : nref f (l ++ k) = nref f l + nref f k.
Proof. unfold nref. rewrite filter_app, length_app. lia. Qed.
Lemma nref_nonneg f l : 0 ≤ nref f l.
Proof. unfold nref. lia. Qed.
Lemma nref_pos f l : Some f ∈ l → 0 < nref f l.
Proof.
  intros H. unfold nref. destruct (filter _ l) eqn:E; [|simpl; lia]. exfalso.
  eapply (not_elem_of_nil (Some f)). rewrite <- E. by apply list_elem_of_filter.
Qed.
Lemma nref_none f l : Some f ∉ l → nref f l = 0.
Proof. induction l as [|o l IH]; [done|]. rewrite not_elem_of_cons, nref_cons. intros [? ?]. rewrite decide_False by done. by rewrite IH. Qed.
Lemma nref_insert f l k o o' :
  l !! k = Some o → nref f (<[k := o']> l) = nref f l - (if decide (o = Some f) then 1 else 0) + (if decide (o' = Some f) then 1 else 0).
Proof.
  revert k. induction l as [|x l IH]; intros [|k] E; simplify_eq/=; rewrite !nref_cons; [lia|]. rewrite (IH k E). lia.
Qed.

(** ** The invariant *)

(** What counts of a process: its descriptors, and whether it has none because
    it is not yet or no longer a process. *)
Definition pfd (p : proc) : list (option nat) * bool :=
  (p_ofile p, bool_decide (p_state p = UNUSED ∨ p_state p = ZOMBIE)).
(** What counts of a file for the pipes: the pipe and which end it is. *)
Definition pkey (x : file) : option (Z * bool) :=
  if decide (fl_type x = FD_PIPE) then Some (fl_pipe x, negb (fl_writable x =? 0)) else None.

(** All descriptors. *)
Definition all_fds (l : list (list (option nat) * bool)) : list (option nat) := l ≫= fst.

Lemma all_fds_cons p l : all_fds (p :: l) = p.1 ++ all_fds l.
Proof. done. Qed.
Lemma all_fds_elem l o : o ∈ all_fds l ↔ ∃ i p, l !! i = Some p ∧ o ∈ p.1.
Proof.
  unfold all_fds. rewrite list_elem_of_bind. split.
  - intros (p & Ho & Hp). apply list_elem_of_lookup_1 in Hp as [i Hi]. by exists i, p.
  - intros (i & p & Hi & Ho). exists p. split; [done|]. by eapply list_elem_of_lookup_2.
Qed.
Lemma nref_all_insert f l i p q :
  l !! i = Some p → nref f (all_fds (<[i := q]> l)) = nref f (all_fds l) - nref f p.1 + nref f q.1.
Proof.
  revert i. induction l as [|x l IH]; intros [|i] E; [done|done|injection E as ->|].
  - change (<[0%nat := q]> (p :: l)) with (q :: l). rewrite !all_fds_cons, !nref_app. lia.
  - change (<[S i := q]> (x :: l)) with (x :: <[i := q]> l). rewrite !all_fds_cons, !nref_app, (IH i E). lia.
Qed.

(** The two ends of a pipe: [true] the writing end. *)
Definition pend (w : bool) (q : pipe) : Z := if w then p_writeopen q else p_readopen q.

Record pipes_ok (keys : list (option (Z * bool))) (pipes : gmap Z pipe) : Prop := mk_pipes_ok {
  pk_some : ∀ f a w, keys !! f = Some (Some (a, w)) → is_Some (pipes !! a);
  pk_open : ∀ a q w, pipes !! a = Some q → pend w q ≠ 0 ↔ ∃ f, keys !! f = Some (Some (a, w));
  pk_uniq : ∀ a w f g, keys !! f = Some (Some (a, w)) → keys !! g = Some (Some (a, w)) → f = g;
  pk_live : ∀ a q, pipes !! a = Some q → ∃ w, pend w q ≠ 0;
}.

(** [e f]: references to [f] held in variables; [X]: files being set up. *)
Record fd_cnt (X : gset nat) (e : nat → Z) (ft : list file) (ps : list (list (option nat) * bool)) : Prop := mk_fd_cnt {
  fc_len : ∀ i p, ps !! i = Some p → length p.1 = Z.to_nat NOFILE;
  fc_closed : ∀ i p, ps !! i = Some p → p.2 = true → p.1 = replicate (Z.to_nat NOFILE) None;
  fc_range : ∀ f, Some f ∈ all_fds ps → (f < length ft)%nat;
  fc_refs : ∀ f x, ft !! f = Some x → fl_ref x = nref f (all_fds ps) + e f;
  fc_free : ∀ f x, ft !! f = Some x → fl_ref x = 0 → fl_type x = FD_NONE;
  fc_typed : ∀ f x, ft !! f = Some x → fl_ref x ≠ 0 → f ∉ X → fl_type x ≠ FD_NONE;
}.
Record fd_ok (X : gset nat) (e : nat → Z) (ft : list file) (ps : list (list (option nat) * bool)) (pipes : gmap Z pipe)
    : Prop := mk_fd_ok {
  fd_count : fd_cnt X e ft ps;
  fd_pipes : pipes_ok (pkey <$> ft) pipes;
}.

Definition bump (f : nat) (d : Z) (e : nat → Z) : nat → Z := λ g, if decide (g = f) then e g + d else e g.

(** ** The pipes *)

Lemma pipes_ok_put keys pipes a q q' :
  pipes_ok keys pipes → pipes !! a = Some q → (∀ w, pend w q' = pend w q) → pipes_ok keys (<[a := q']> pipes).
Proof.
  intros [H1 H2 H3 H4] Ha Hw. split.
  - intros f b w Hf. rewrite lookup_insert. case_decide; [done|]. by eapply H1.
  - intros b r w. rewrite lookup_insert. case_decide; [|by apply H2]. intros [= <-]. subst b. rewrite Hw. by apply H2.
  - done.
  - intros b r. rewrite lookup_insert. case_decide; [|by apply H4]. intros [= <-]. destruct (H4 a q Ha) as [w Hq]. exists w. by rewrite Hw.
Qed.

Lemma pipes_ok_new keys pipes a data f0 f1 :
  pipes_ok keys pipes → pipes !! a = None → keys !! f0 = Some None → keys !! f1 = Some None → f0 ≠ f1 →
  pipes_ok (<[f1 := Some (a, true)]> (<[f0 := Some (a, false)]> keys)) (<[a := pipe_init data]> pipes).
Proof.
  intros [H1 H2 H3 H4] Ha K0 K1 Hne.
  pose proof (lookup_lt_Some _ _ _ K0) as L0. pose proof (lookup_lt_Some _ _ _ K1) as L1.
  assert (∀ (f : nat) (b : Z) (w : bool), <[f1 := Some (a, true)]> (<[f0 := Some (a, false)]> keys) !! f = Some (Some (b, w)) ↔
    (b = a ∧ f = (if w then f1 else f0)) ∨ (b ≠ a ∧ keys !! f = Some (Some (b, w)))) as Hk.
  { intros f b w. destruct (decide (f = f1)) as [->|N1].
    - rewrite list_lookup_insert_eq by (by rewrite length_insert). rewrite K1. destruct w; naive_solver.
    - rewrite list_lookup_insert_ne by done. destruct (decide (f = f0)) as [->|N0].
      + rewrite list_lookup_insert_eq by done. rewrite K0. destruct w; naive_solver.
      + rewrite list_lookup_insert_ne by done. split; [|destruct w; naive_solver].
        intros E. right. split; [|done]. intros ->. apply H1 in E as [? ?]. congruence. }
  split.
  - intros f b w [[-> _]|[Hb E]]%Hk; [by rewrite lookup_insert_eq|]. rewrite lookup_insert_ne by done. by eapply H1.
  - intros b q w. setoid_rewrite Hk. rewrite lookup_insert. case_decide as E.
    + intros [= <-]. subst b. split; [|by destruct w]. intros _. eexists. by left.
    + intros Hq. rewrite (H2 b q w Hq). naive_solver.
  - intros b w f g [[-> ->]|[? E1]]%Hk [[? ->]|[? E2]]%Hk; try done. by eapply H3.
  - intros b q. rewrite lookup_insert. case_decide; [|by apply H4]. intros [= <-]. by exists true.
Qed.

(** One end closed. *)
Definition pclose (w : bool) (q : pipe) : pipe := if w then p_set_writeopen 0 q else p_set_readopen 0 q.

Lemma pend_pclose w w' q : pend w (pclose w' q) = if decide (w = w') then 0 else pend w q.
Proof. by destruct w, w'. Qed.

Lemma pipes_ok_close keys pipes a w f q :
  pipes_ok keys pipes → keys !! f = Some (Some (a, w)) → pipes !! a = Some q →
  pipes_ok (<[f := None]> keys) (if decide (pend (negb w) q = 0) then delete a pipes else <[a := pclose w q]> pipes).
Proof.
  intros [H1 H2 H3 H4] Hf Ha. pose proof (lookup_lt_Some _ _ _ Hf) as L.
  assert (∀ (g : nat) (b : Z) (v : bool), <[f := None]> keys !! g = Some (Some (b, v)) ↔ keys !! g = Some (Some (b, v)) ∧ g ≠ f) as Hk.
  { intros g b v. destruct (decide (g = f)) as [->|N]; [rewrite list_lookup_insert_eq by done|rewrite list_lookup_insert_ne by done]; naive_solver. }
  assert (∀ (g : nat) (v : bool), keys !! g = Some (Some (a, v)) → g ≠ f → v = negb w ∧ pend (negb w) q ≠ 0) as Hother.
  { intros g v Hg Hne. assert (v ≠ w) by (intros ->; by apply Hne, (H3 a w)). assert (v = negb w) as -> by (by destruct v, w).
    split; [done|]. apply (H2 a q _ Ha). by exists g. }
  split.
  - intros g b v [Hg Hne]%Hk. destruct (decide (b = a)) as [->|Hb].
    + destruct (Hother g v Hg Hne) as [_ Ho]. rewrite decide_False by done. by rewrite lookup_insert_eq.
    + destruct (H1 g b v Hg) as [r Hr]. case_decide; [rewrite lookup_delete_ne by done|rewrite lookup_insert_ne by done]; by exists r.
  - intros b r v. setoid_rewrite Hk. case_decide as Ed.
    + intros [Hb Hr]%lookup_delete_Some. rewrite (H2 b r v Hr). split; intros [g Hg]; exists g; naive_solver.
    + rewrite lookup_insert. case_decide as Eb.
      * intros [= <-]. subst b. rewrite pend_pclose. case_decide as Ev.
        { subst v. split; [done|]. intros (g & Hg & Hne). destruct (Hother g w Hg Hne) as [Hw _]. by destruct w. }
        rewrite (H2 a q v Ha). split; intros [g Hg]; exists g; [|naive_solver]. split; [done|]. intros ->. naive_solver.
      * intros Hr. rewrite (H2 b r v Hr). split; intros [g Hg]; exists g; naive_solver.
  - intros b v g h [? _]%Hk [? _]%Hk. by eapply H3.
  - intros b r. case_decide as Ed.
    + intros [_ Hr]%lookup_delete_Some. by eapply H4.
    + rewrite lookup_insert. case_decide; [|by apply H4]. intros [= <-]. exists (negb w). rewrite pend_pclose.
      by rewrite decide_False by (by destruct w).
Qed.

(** ** One file, one process *)

Lemma fd_cnt_file X X' e e' ft ps f x x' :
  fd_cnt X e ft ps → ft !! f = Some x → fl_ref x' = fl_ref x + (e' f - e f) → (∀ g, g ≠ f → e' g = e g) →
  (fl_ref x' = 0 → fl_type x' = FD_NONE) → (fl_ref x' ≠ 0 → f ∉ X' → fl_type x' ≠ FD_NONE) →
  (∀ g, g ≠ f → g ∉ X' → g ∉ X) → fd_cnt X' e' (<[f := x']> ft) ps.
Proof.
  intros [H1 H2 H3 H4 H5 H6] Hf Hr He Hfree Htyped HX. pose proof (lookup_lt_Some _ _ _ Hf) as L.
  assert (∀ g y, <[f := x']> ft !! g = Some y → (g = f ∧ y = x') ∨ (g ≠ f ∧ ft !! g = Some y)) as Hl.
  { intros g y. destruct (decide (g = f)) as [->|]; [rewrite list_lookup_insert_eq by done; naive_solver|].
    rewrite list_lookup_insert_ne by done. naive_solver. }
  split; try done.
  - intros g Hg. rewrite length_insert. by apply H3.
  - intros g y [[-> ->]|[Hg Hy]]%Hl; [rewrite Hr, (H4 f x Hf); lia|]. rewrite He by done. by apply H4.
  - intros g y [[-> ->]|[Hg Hy]]%Hl; [done|]. by eapply H5.
  - intros g y [[-> ->]|[Hg Hy]]%Hl; [done|]. intros ? ?. apply (H6 g y); [done..|]. by apply HX.
Qed.

Lemma fd_ok_file X X' e e' ft ps pipes pipes' f x x' :
  fd_ok X e ft ps pipes → ft !! f = Some x → fl_ref x' = fl_ref x + (e' f - e f) → (∀ g, g ≠ f → e' g = e g) →
  (fl_ref x' = 0 → fl_type x' = FD_NONE) → (fl_ref x' ≠ 0 → f ∉ X' → fl_type x' ≠ FD_NONE) →
  (∀ g, g ≠ f → g ∉ X' → g ∉ X) → pipes_ok (<[f := pkey x']> (pkey <$> ft)) pipes' →
  fd_ok X' e' (<[f := x']> ft) ps pipes'.
Proof.
  intros Hi Hf Hr He Hfree Htyped HX Hp. split; [|by rewrite list_fmap_insert].
  by eapply fd_cnt_file; [apply Hi|exact Hf|..].
Qed.

Lemma fd_ok_proc X e e' ft ps pipes i p p' :
  fd_ok X e ft ps pipes → ps !! i = Some p → length p'.1 = Z.to_nat NOFILE →
  (p'.2 = true → p'.1 = replicate (Z.to_nat NOFILE) None) → (∀ f, Some f ∈ p'.1 → Some f ∈ p.1 ∨ (f < length ft)%nat) →
  (∀ f, e' f = e f + nref f p.1 - nref f p'.1) → fd_ok X e' ft (<[i := p']> ps) pipes.
Proof.
  intros [[H1 H2 H3 H4 H5 H6] H7] Hi Hlen Hcl Hr He. pose proof (lookup_lt_Some _ _ _ Hi) as L.
  assert (∀ j q, <[i := p']> ps !! j = Some q → q = p' ∨ ps !! j = Some q) as Hl.
  { intros j q. destruct (decide (j = i)) as [->|]; [rewrite list_lookup_insert_eq by done; naive_solver|].
    rewrite list_lookup_insert_ne by done. naive_solver. }
  split; [|done]. split; try done.
  - intros j q [->|Hq]%Hl; [done|]. by eapply H1.
  - intros j q [->|Hq]%Hl; [done|]. by eapply H2.
  - intros f (j & q & Hj & Hf)%all_fds_elem. apply Hl in Hj as [->|Hj].
    + destruct (Hr f Hf) as [Hp|]; [|done]. apply H3, all_fds_elem. by exists i, p.
    + apply H3, all_fds_elem. by exists j, q.
  - intros f x Hx. rewrite (H4 f x Hx), (nref_all_insert f ps i p p' Hi), He. lia.
Qed.

(** A file that is set up, or given up, is like any other. *)
Lemma fd_ok_done X e ft ps pipes f x :
  fd_ok X e ft ps pipes → ft !! f = Some x → (fl_ref x ≠ 0 → fl_type x ≠ FD_NONE) → fd_ok (X ∖ {[f]}) e ft ps pipes.
Proof.
  intros [[H1 H2 H3 H4 H5 H6] H7] Hf Ht. split; [|done]. split; try done. intros g y Hg Hr Hx. destruct (decide (g = f)) as [->|]; [naive_solver|].
  apply (H6 g y); [done..|]. set_solver.
Qed.

Lemma fd_ok_ext X e e' ft ps pipes : (∀ f, e' f = e f) → fd_ok X e ft ps pipes → fd_ok X e' ft ps pipes.
Proof. intros He [[H1 H2 H3 H4 H5 H6] H7]. split; [|done]. split; try done. intros f x Hx. rewrite He. by apply H4. Qed.

(** ** The operations *)

Set Default Proof Using "Type".

Section fdops.
Context {D : Type} `{DiskFlush D}.
Context (kend : Z).
Implicit Types (s : kstate D).

Definition fd_inv (X : gset nat) (e : nat → Z) s : Prop := fd_ok X e (k_ftable s) (pfd <$> k_proc s) (k_pipes s).
Definition fdv s := (k_ftable s, pfd <$> k_proc s, k_pipes s).

Lemma fd_inv_fdv X e s s' : fdv s' = fdv s → fd_inv X e s → fd_inv X e s'.
Proof. unfold fd_inv, fdv. by intros [= -> -> ->]. Qed.

Lemma fdv_eq s s' :
  fdv s' = fdv s → k_ftable s' = k_ftable s ∧ pfd <$> k_proc s' = pfd <$> k_proc s ∧ k_pipes s' = k_pipes s.
Proof. unfold fdv. by intros [= -> -> ->]. Qed.

(** *** Code that does not touch descriptors *)

Lemma keeps_myproc {B} (f : kstate D → B) : keeps f myproc.
Proof. unfold myproc. keeps. Qed.
Lemma keeps_fat {B} (f : kstate D → B) i : keeps f (fat i).
Proof. unfold fat. keeps. Qed.
Lemma keeps_pat {B} (f : kstate D → B) i : keeps f (pat i).
Proof. unfold pat. keeps. Qed.
#[local] Hint Resolve keeps_myproc keeps_fat keeps_pat : keeps.
Lemma keeps_uload8 {B} (f : kstate D → B) va : keeps f (uload8 va).
Proof. unfold uload8. keeps. Qed.
#[local] Hint Resolve keeps_uload8 : keeps.
Lemma keeps_uload {B} (f : kstate D → B) n : ∀ va, keeps f (uload va n).
Proof. induction n; intros va; cbn [uload]; keeps. Qed.
Lemma keeps_ustore l : ∀ va, keeps fdv (ustore (D := D) va l).
Proof. induction l; intros va; cbn [ustore]; [keeps|]. unfold ustore8. keeps. Qed.
#[local] Hint Resolve keeps_uload keeps_ustore : keeps.
Lemma keeps_fetchint {B} (f : kstate D → B) a : keeps f (fetchint a).
Proof. unfold fetchint. keeps. Qed.
Lemma keeps_fetchstr_loop {B} (f : kstate D → B) n : ∀ a ep, keeps f (fetchstr_loop n a ep).
Proof. induction n; intros a ep; cbn [fetchstr_loop]; keeps. Qed.
#[local] Hint Resolve keeps_fetchint keeps_fetchstr_loop : keeps.

(** Fetching an argument changes nothing at all. *)
Lemma argint_pure n pid s a s' : argint n pid s = Ret a s' → s' = s.
Proof.
  unfold argint. intros (esp & s1 & E1 & E2)%bind_inv_Ret. rewrite (keeps_fetchint id _ _ _ _ _ E2 : s' = s1).
  unfold tf_load in E1. apply bind_inv_Ret in E1 as (i & s2 & E3 & E1). apply bind_inv_Ret in E1 as (p & s3 & E4 & E1).
  rewrite (keeps_myproc id _ _ _ _ E3 : s2 = s) in *. rewrite (keeps_pat id _ _ _ _ _ E4 : s3 = s) in *.
  unfold lift, kload, gets in E1. injection E1 as _ <-. by destruct s.
Qed.
Lemma keeps_argint {B} (f : kstate D → B) n : keeps f (argint n).
Proof. intros pid s a s' E. by rewrite (argint_pure _ _ _ _ _ E). Qed.
#[local] Hint Resolve keeps_argint : keeps.
Lemma keeps_argptr {B} (f : kstate D → B) n size : keeps f (argptr n size).
Proof. unfold argptr. keeps. Qed.
Lemma keeps_argstr {B} (f : kstate D → B) n : keeps f (argstr n).
Proof. unfold argstr, fetchstr. keeps. Qed.
Lemma keeps_argfd {B} (f : kstate D → B) n : keeps f (argfd n).
Proof. unfold argfd. keeps. Qed.
#[local] Hint Resolve keeps_argptr keeps_argstr keeps_argfd : keeps.

Lemma pfd_wake c p : pfd (wake c p) = pfd p.
Proof.
  unfold wake. destruct (bool_decide (p_state p = SLEEPING)) eqn:E; [|done]. apply bool_decide_eq_true in E.
  destruct (bool_decide _); [|done]. unfold pfd. simpl. rewrite E. done.
Qed.
Lemma keeps_wakeup1 c : keeps fdv (wakeup1 (D := D) c).
Proof.
  unfold wakeup1. apply keeps_modify. intros s. unfold fdv. simpl. f_equal. f_equal.
  rewrite <- list_fmap_compose. apply list_fmap_ext. intros i p _. apply pfd_wake.
Qed.
#[local] Hint Resolve keeps_wakeup1 : keeps.
Lemma keeps_pipe_wake p w : keeps fdv (pipe_wake (D := D) p w).
Proof. unfold pipe_wake, wakeup. keeps. Qed.
#[local] Hint Resolve keeps_pipe_wake : keeps.

(** The invariant through such code. *)
Lemma hoare_fdv {A} pid X e (m : M (kstate D) A) : keeps fdv m → hoare pid (fd_inv X e) m (λ _, fd_inv X e).
Proof. intros Hm. apply (hoare_keeps pid fdv); [done|]. intros s s'. apply fd_inv_fdv. Qed.

Lemma fd_inv_ext X e e' s : (∀ f, e' f = e f) → fd_inv X e s → fd_inv X e' s.
Proof. apply fd_ok_ext. Qed.

(** *** Files *)

Lemma pkey_same x x' : fl_type x' = fl_type x → fl_pipe x' = fl_pipe x → fl_writable x' = fl_writable x → pkey x' = pkey x.
Proof. unfold pkey. by intros -> -> ->. Qed.

Lemma filealloc_fd X e pid s o s' :
  fd_inv X e s → filealloc pid s = Ret o s' →
  match o with
  | None => s' = s
  | Some f => fd_inv ({[f]} ∪ X) (bump f 1 e) s' ∧
      ∃ x, k_ftable s !! f = Some x ∧ fl_ref x = 0 ∧ fl_type x = FD_NONE ∧
        s' = k_set_ftable (<[f := fl_set_ref 1 x]> (k_ftable s)) s
  end.
Proof.
  intros Hi. unfold filealloc. rewrite (bind_Ret get _ pid s s s eq_refl). destruct (list_find _ _) as [[f x]|] eqn:E.
  - apply list_find_Some in E as (Hf & Hr & _). intros E'. rewrite (bind_Ret _ _ _ _ _ _ (fset_run pid s f x _ Hf)) in E'.
    injection E' as <- <-. pose proof (fc_free _ _ _ _ (fd_count _ _ _ _ _ Hi) f x Hf Hr) as Ht. split; [|by exists x].
    unfold fd_inv. simpl. eapply fd_ok_file; [exact Hi|done|..]; simpl.
    + unfold bump. rewrite decide_True by done. lia.
    + intros g Hg. unfold bump. by rewrite decide_False.
    + done.
    + intros _ Hx. set_solver.
    + set_solver.
    + rewrite list_insert_id; [apply Hi|]. by rewrite list_lookup_fmap, Hf.
  - intros [= <- <-]. done.
Qed.

Lemma filedup_fd X e f pid s g s' :
  fd_inv X e s → filedup f pid s = Ret g s' → g = f ∧ (f < length (k_ftable s))%nat ∧ fd_inv X (bump f 1 e) s' ∧ k_proc s' = k_proc s ∧
  length (k_ftable s') = length (k_ftable s).
Proof.
  intros Hi. unfold filedup. intros (x & s1 & E1 & E)%bind_inv_Ret. unfold fat in E1.
  rewrite (bind_Ret get _ pid s s s eq_refl) in E1. destruct (k_ftable s !! f) as [y|] eqn:Hf; [|done]. injection E1 as -> <-.
  destruct (fl_ref x <? 1) eqn:Hr; [done|]. rewrite (bind_Ret _ _ _ _ _ _ (fset_run pid s f x _ Hf)) in E. injection E as <- <-.
  split; [done|]. split; [by eapply lookup_lt_Some|]. simpl. rewrite length_insert. split; [|done].
  unfold fd_inv. simpl. eapply fd_ok_file; [exact Hi|done|..]; simpl.
  - unfold bump. rewrite decide_True by done. lia.
  - intros g Hg. unfold bump. by rewrite decide_False.
  - lia.
  - intros _ HX. eapply (fc_typed _ _ _ _ (fd_count _ _ _ _ _ Hi) f x); [done|lia|done].
  - done.
  - rewrite list_insert_id; [apply Hi|]. by rewrite list_lookup_fmap, Hf.
Qed.

Lemma bool_decide_eqb z : bool_decide (z = 0) = (z =? 0).
Proof. apply Bool.eq_iff_eq_true. by rewrite bool_decide_eq_true, Z.eqb_eq. Qed.

Lemma k_pipeclose_fdv a writable w pid s s' :
  k_pipeclose kend a writable pid s = Ret tt s' → w = negb (writable =? 0) →
  ∃ q, k_pipes s !! a = Some q ∧ k_ftable s' = k_ftable s ∧ pfd <$> k_proc s' = pfd <$> k_proc s ∧
    k_pipes s' = if decide (pend (negb w) q = 0) then delete a (k_pipes s) else <[a := pclose w q]> (k_pipes s).
Proof.
  unfold k_pipeclose. intros (q & s1 & E1 & E)%bind_inv_Ret. unfold pipe_at in E1.
  rewrite (bind_Ret get _ pid s s s eq_refl) in E1. destruct (k_pipes s !! a) as [y|] eqn:Ha; [|done]. injection E1 as -> <-.
  intros Hw. exists q. split; [done|].
  assert (∃ wl, pipeclose q writable = (pclose w q, wl, bool_decide (pend (negb w) q = 0))) as [wl Ew].
  { unfold pipeclose. subst w. destruct (writable =? 0); simpl; eexists; f_equal; rewrite bool_decide_eqb, ?andb_true_r; done. }
  rewrite Ew in E. apply bind_inv_Ret in E as ([] & s2 & E2 & E). injection E2 as <-.
  apply bind_inv_Ret in E as ([] & s3 & E3 & E). pose proof (keeps_pipe_wake _ _ _ _ _ _ E3) as K. injection K as K1 K2 K3.
  case_decide as Hz.
  - rewrite bool_decide_true in E by done. apply bind_inv_Ret in E as ([] & s4 & E4 & E). injection E4 as <-.
    assert (fdv s' = fdv (k_set_pipes (delete a (k_pipes s3)) s3)) as K by (by apply (keeps_lift fdv _) in E).
    injection K as -> -> ->. simpl. rewrite K1, K2, K3. split_and!; try done. apply delete_insert_eq.
  - rewrite bool_decide_false in E by done. injection E as <-. by rewrite K1, K2, K3.
Qed.

Lemma fileclose_fd X e f pid s s' :
  fd_inv X e s → fileclose kend f pid s = Ret tt s' →
  fd_inv X (bump f (-1) e) s' ∧ pfd <$> k_proc s' = pfd <$> k_proc s ∧ length (k_ftable s') = length (k_ftable s).
Proof.
  intros Hi. unfold fileclose. intros (x & s1 & E1 & E)%bind_inv_Ret. unfold fat in E1 at 1.
  rewrite (bind_Ret get _ pid s s s eq_refl) in E1. destruct (k_ftable s !! f) as [y|] eqn:Hf; [|done]. injection E1 as -> <-.
  pose proof (lookup_lt_Some _ _ _ Hf) as L.
  destruct (fl_ref x <? 1) eqn:Hr; [done|]. rewrite (bind_Ret _ _ _ _ _ _ (fset_run pid s f x _ Hf)) in E.
  set (s1 := k_set_ftable _ s) in E. assert (k_ftable s1 !! f = Some (fl_set_ref (fl_ref x - 1) x)) as Hf1.
  { by apply list_lookup_insert_eq. }
  rewrite (bind_Ret _ _ _ _ _ _ (fat_run pid s1 f _ Hf1)) in E. cbn [fl_ref fl_set_ref fl_type fl_pipe fl_writable fl_ip] in E.
  assert (pkey <$> k_ftable s !! f = Some (pkey x)) as Hk by (by rewrite Hf).
  assert (∀ x' pipes', fl_ref x' = fl_ref x - 1 → (fl_ref x' = 0 → fl_type x' = FD_NONE) → (fl_ref x' ≠ 0 → fl_type x' = fl_type x) →
    pipes_ok (<[f := pkey x']> (pkey <$> k_ftable s)) pipes' →
    fd_ok X (bump f (-1) e) (<[f := x']> (k_ftable s)) (pfd <$> k_proc s) pipes') as Hfile.
  { intros x' pipes' R1 R2 R3 R4. eapply fd_ok_file; [exact Hi|done|..]; try done.
    - unfold bump. rewrite decide_True by done. lia.
    - intros g Hg. unfold bump. by rewrite decide_False.
    - intros R5 HX. rewrite R3 by done. eapply (fc_typed _ _ _ _ (fd_count _ _ _ _ _ Hi) f x); [done|lia|done]. }
  destruct (0 <? fl_ref x - 1) eqn:Hlast.
  { injection E as <-. split; [|simpl; by rewrite length_insert]. apply Hfile; simpl; [done|lia|done|].
    rewrite list_insert_id; [apply Hi|]. by rewrite list_lookup_fmap, Hf. }
  rewrite (bind_Ret _ _ _ _ _ _ (fset_run pid s1 f _ _ Hf1)) in E. set (s2 := k_set_ftable _ s1) in E.
  set (x2 := fl_set_type FD_NONE (fl_set_ref 0 (fl_set_ref (fl_ref x - 1) x))) in *.
  assert (k_ftable s2 = <[f := x2]> (k_ftable s)) as Es2 by (unfold s2, s1; simpl; by rewrite list_insert_insert_eq).
  assert (fl_type x ≠ FD_PIPE → fd_inv X (bump f (-1) e) s2) as Hnp.
  { intros Ht. unfold fd_inv. rewrite Es2. apply Hfile; [simpl; lia|done|done|].
    replace (pkey x2) with (pkey x) by (unfold pkey; by rewrite decide_False). rewrite list_insert_id; [apply Hi|].
    by rewrite list_lookup_fmap, Hf. }
  assert (∀ s3, fdv s3 = fdv s2 → fl_type x ≠ FD_PIPE → fd_inv X (bump f (-1) e) s3 ∧ pfd <$> k_proc s3 = pfd <$> k_proc s ∧
    length (k_ftable s3) = length (k_ftable s)) as Hend.
  { intros s3 K Ht. split; [by apply (fd_inv_fdv _ _ s2), Hnp|]. destruct (fdv_eq _ _ K) as (-> & -> & _). by rewrite Es2, length_insert. }
  destruct (fl_type x) eqn:Ht.
  - injection E as <-. by apply Hend.
  - destruct (k_pipeclose_fdv _ _ _ _ _ _ E eq_refl) as (q & Hq & E1 & E2 & E3).
    split; [|rewrite E1, E2, Es2, length_insert; done]. unfold fd_inv. rewrite E1, E2, E3, Es2. apply Hfile; [simpl; lia|done|done|].
    apply pipes_ok_close; [apply Hi| |done]. rewrite list_lookup_fmap, Hf. simpl. unfold pkey. by rewrite decide_True.
  - apply Hend; [|done].
    assert (keeps fdv (k_begin_op ;; match fl_ip x with Some ip => lift (iput ip) | None => undef "iput: null" end ;; k_end_op)) as K.
    { unfold k_begin_op, k_end_op. keeps. }
    exact (K _ _ _ _ E).
Qed.

(** *** Descriptors *)

Lemma pfd_ofile o p : pfd (p_set_ofile o p) = (o, (pfd p).2).
Proof. done. Qed.

Lemma fds_insert s i g p : k_proc s !! i = Some p → pfd <$> <[i := g p]> (k_proc s) = <[i := pfd (g p)]> (pfd <$> k_proc s).
Proof. intros _. by rewrite list_fmap_insert. Qed.

Lemma fdalloc_fd X e f pid s fd s' :
  fd_inv X e s → (f < length (k_ftable s))%nat → fdalloc f pid s = Ret fd s' →
  (fd = -1 ∧ s' = s) ∨
  (0 ≤ fd ∧ fd_inv X (bump f (-1) e) s' ∧ k_ftable s' = k_ftable s ∧ k_pipes s' = k_pipes s ∧
   ∃ i p, current pid s' i p ∧ p_ofile p !! Z.to_nat fd = Some (Some f)).
Proof.
  intros Hi Hf. unfold fdalloc. intros (i & s1 & E1 & E)%bind_inv_Ret. rewrite (keeps_myproc id _ _ _ _ E1 : s1 = s) in *.
  assert (∃ p, current pid s i p) as [p Hc].
  { unfold myproc in E1. rewrite (bind_Ret mypid _ pid s pid s eq_refl), (bind_Ret get _ pid s s s eq_refl) in E1. unfold current.
    destruct (list_find _ _) as [[j q]|]; [|done]. injection E1 as -> _. by exists q. }
  destruct (current_lookup _ _ _ _ Hc) as (Hp & Hpid & Hrun). rewrite (bind_Ret _ _ _ _ _ _ (pat_run pid s i p Hp)) in E.
  unfold fdfree in E. destruct (list_find _ (p_ofile p)) as [[k o]|] eqn:Ek; cbn [fmap option_fmap option_map fst] in E.
  - apply list_find_Some in Ek as (Hk & -> & _). rewrite (bind_Ret _ _ _ _ _ _ (pset_run pid s i p _ Hp)) in E. injection E as <- <-.
    right. split; [lia|]. simpl. split_and!; try done.
    + unfold fd_inv. simpl. rewrite list_fmap_insert. assert ((pfd <$> k_proc s) !! i = Some (pfd p)) as Hi' by (by rewrite list_lookup_fmap, Hp).
      eapply fd_ok_proc; [exact Hi|exact Hi'|..]; simpl.
      * rewrite length_insert. by apply (fc_len _ _ _ _ (fd_count _ _ _ _ _ Hi) i _ Hi').
      * rewrite Hrun. by intros [?|?]%bool_decide_eq_true.
      * intros g Hg. apply list_elem_of_lookup_1 in Hg as [m Hm]. destruct (decide (m = k)) as [->|].
        { rewrite list_lookup_insert_eq in Hm by (by eapply lookup_lt_Some). right. naive_solver. }
        rewrite list_lookup_insert_ne in Hm by done. left. by eapply list_elem_of_lookup_2.
      * intros g. rewrite (nref_insert g _ k None) by done. unfold bump. repeat case_decide; naive_solver lia.
    + exists i, (p_set_ofile (<[k := Some f]> (p_ofile p)) p). split.
      * unfold current in *. apply list_find_Some in Hc as (_ & Hq & Hmin). apply list_find_Some.
        split; [by apply list_lookup_insert_eq, (lookup_lt_Some _ _ _ Hp)|]. split; [done|].
        intros j y Hj Hlt. cbn [k_proc k_set_proc] in Hj. rewrite list_lookup_insert_ne in Hj by lia. by eapply Hmin.
      * rewrite Nat2Z.id. by apply list_lookup_insert_eq, (lookup_lt_Some _ _ _ Hk).
  - injection E as <- <-. by left.
Qed.

Lemma fdclear_fd X e f fd i p pid s s' :
  fd_inv X e s → current pid s i p → p_ofile p !! Z.to_nat fd = Some (Some f) → fdclear fd pid s = Ret tt s' →
  fd_inv X (bump f 1 e) s' ∧ k_ftable s' = k_ftable s.
Proof.
  intros Hi Hc Hf. destruct (current_lookup _ _ _ _ Hc) as (Hp & Hpid & Hrun). unfold fdclear.
  rewrite (bind_Ret _ _ _ _ _ _ (myproc_run pid s i p Hc)), (pset_run pid s i p _ Hp). intros [= <-]. split; [|done].
  unfold fd_inv. simpl. rewrite list_fmap_insert. assert ((pfd <$> k_proc s) !! i = Some (pfd p)) as Hi' by (by rewrite list_lookup_fmap, Hp).
  eapply fd_ok_proc; [exact Hi|exact Hi'|..]; simpl.
  - rewrite length_insert. by apply (fc_len _ _ _ _ (fd_count _ _ _ _ _ Hi) i _ Hi').
  - rewrite Hrun. by intros [?|?]%bool_decide_eq_true.
  - intros g Hg. apply list_elem_of_lookup_1 in Hg as [m Hm]. left. destruct (decide (m = Z.to_nat fd)) as [->|].
    { rewrite list_lookup_insert_eq in Hm by (by eapply lookup_lt_Some). done. }
    rewrite list_lookup_insert_ne in Hm by done. by eapply list_elem_of_lookup_2.
  - intros g. rewrite (nref_insert g _ (Z.to_nat fd) (Some f)) by done. unfold bump. repeat case_decide; naive_solver lia.
Qed.

(** The files being set up are set up, or given up. *)
Lemma fd_inv_settle X e s :
  fd_inv X e s → (∀ f x, f ∈ X → k_ftable s !! f = Some x → fl_ref x ≠ 0 → fl_type x ≠ FD_NONE) → fd_inv ∅ e s.
Proof.
  intros [[H1 H2 H3 H4 H5 H6] H7] HX. split; [|done]. split; try done. intros f x Hf Hr _.
  destruct (decide (f ∈ X)); [by eapply HX|]. by eapply H6.
Qed.

Lemma argfd_fd n pid s fd f s' :
  argfd n pid s = Ret (Some (fd, f)) s' →
  s' = s ∧ 0 ≤ fd ∧ ∃ i p, current pid s i p ∧ p_ofile p !! Z.to_nat fd = Some (Some f).
Proof.
  intros E0. split; [exact (keeps_argfd id _ _ _ _ _ E0)|]. revert E0. unfold argfd. intros (r & s1 & E1 & E)%bind_inv_Ret.
  rewrite (argint_pure _ _ _ _ _ E1) in E. destruct r as [v|]; [|done]. destruct (_ || _) eqn:Eb; [done|].
  apply bind_inv_Ret in E as (i & s2 & E2 & E). rewrite (keeps_myproc id _ _ _ _ E2 : s2 = s) in E.
  apply bind_inv_Ret in E as (p & s3 & E3 & E). unfold pat in E3. rewrite (bind_Ret get _ pid s s s eq_refl) in E3.
  destruct (k_proc s !! i) as [q|] eqn:Hp; [|done]. injection E3 as -> <-.
  destruct (p_ofile p !! Z.to_nat v) as [[g|]|] eqn:Ef; [|done|done]. injection E as -> -> _. split; [lia|].
  exists i, p. split; [|done]. unfold myproc in E2. rewrite (bind_Ret mypid _ pid s pid s eq_refl), (bind_Ret get _ pid s s s eq_refl) in E2.
  unfold current. destruct (list_find _ _) as [[j q]|] eqn:El; [|done]. injection E2 as -> _.
  apply list_find_Some in El as (Hq & ?). rewrite Hp in Hq. by injection Hq as ->.
Qed.

(** A descriptor names a file in use. *)
Lemma fd_in_range X e s i p k f : fd_inv X e s → k_proc s !! i = Some p → p_ofile p !! k = Some (Some f) → (f < length (k_ftable s))%nat.
Proof.
  intros Hi Hp Hf. apply (fc_range _ _ _ _ (fd_count _ _ _ _ _ Hi)), all_fds_elem. exists i, (pfd p). rewrite list_lookup_fmap, Hp. split; [done|].
  by eapply list_elem_of_lookup_2.
Qed.

End fdops.
#[export] Hint Resolve keeps_myproc keeps_fat keeps_pat keeps_uload8 keeps_uload keeps_ustore
  keeps_fetchint keeps_fetchstr_loop keeps_argint keeps_argptr keeps_argstr keeps_argfd keeps_wakeup1 keeps_pipe_wake : keeps.
