(* ===== verification/FdCalls.v ===== *)
(** * The reference counts through the system calls *)

From S2P Require Import Prelude Layout Sleeplock Disk Ide Bio Crc32 Log LogReserve CString Mem Kalloc Vm Pipe Fs Kernel File Syscall Exec Sysfile Proc FdInv.

Set Default Proof Using "Type".

Section fdcalls.
Context {D : Type} `{DiskFlush D}.
Context (kend : Z).
Implicit Types (s : kstate D).

(** Nothing held in variables, no file being set up. *)
Definition fd_rest s : Prop := fd_inv ∅ (λ _, 0) s.

Lemma rest_fdv s s' : fdv s' = fdv s → fd_rest s → fd_rest s'.
Proof. apply fd_inv_fdv. Qed.

(** Undoes what [bump] did. *)
Ltac bumps := intros ?; unfold bump; repeat case_decide; subst; try lia; try done.

Lemma with_arg_inv {A} (m : M (kstate D) (option A)) k pid s r s' :
  with_arg m k pid s = Ret r s' →
  ∃ s1, (∃ a, m pid s = Ret (Some a) s1 ∧ k a pid s1 = Ret r s') ∨ (m pid s = Ret None s1 ∧ r = -1 ∧ s' = s1).
Proof.
  unfold with_arg. intros (o & s1 & E1 & E)%bind_inv_Ret. exists s1. destruct o as [a|]; [left; by exists a|].
  right. by injection E as <- <-.
Qed.

Lemma sys_dup_fd pid s r s' : fd_rest s → sys_dup pid s = Ret r s' → fd_rest s'.
Proof.
  intros Hi (s1 & [([fd f] & E1 & E)|(E1 & _ & ->)])%with_arg_inv; [|exact (rest_fdv _ _ (keeps_argfd fdv _ _ _ _ _ E1) Hi)].
  destruct (argfd_fd _ _ _ _ _ _ E1) as (-> & _ & i & p & Hc & Hf).
  apply bind_inv_Ret in E as (fd1 & s2 & E2 & E).
  destruct (fdalloc_fd _ _ _ _ _ _ _ Hi (fd_in_range _ _ _ _ _ _ _ Hi (proj1 (current_lookup _ _ _ _ Hc)) Hf) E2)
    as [[-> ->]|(Hfd & Hi2 & _)]; [by injection E as _ <-|].
  rewrite (proj2 (Z.ltb_ge _ _)) in E by lia. apply bind_inv_Ret in E as (g & s3 & E3 & E). injection E as _ <-.
  destruct (filedup_fd _ _ _ _ _ _ _ Hi2 E3) as (_ & _ & Hi3 & _). eapply fd_inv_ext; [|exact Hi3]. bumps.
Qed.

Lemma sys_close_fd pid s r s' : fd_rest s → sys_close kend pid s = Ret r s' → fd_rest s'.
Proof.
  intros Hi (s1 & [([fd f] & E1 & E)|(E1 & _ & ->)])%with_arg_inv; [|exact (rest_fdv _ _ (keeps_argfd fdv _ _ _ _ _ E1) Hi)].
  destruct (argfd_fd _ _ _ _ _ _ E1) as (-> & Hfd & i & p & Hc & Hf).
  apply bind_inv_Ret in E as ([] & s2 & E2 & E). destruct (fdclear_fd _ _ _ _ _ _ _ _ _ Hi Hc Hf E2) as [Hi2 _].
  apply bind_inv_Ret in E as ([] & s3 & E3 & E). injection E as _ <-.
  destruct (fileclose_fd _ _ _ _ _ _ _ Hi2 E3) as (Hi3 & _). eapply fd_inv_ext; [|exact Hi3]. bumps.
Qed.

(** The file and the descriptor of [sys_open]. *)
Lemma open_file_fd pid s o s' :
  fd_rest s → open_file kend pid s = Ret o s' →
  match o with
  | None => fd_rest s'
  | Some (f, fd) => fd_inv {[f]} (λ _, 0) s' ∧ ∃ x, k_ftable s' !! f = Some x ∧ fl_type x = FD_NONE ∧ fl_ref x = 1
  end.
Proof.
  intros Hi. unfold open_file. intros (o1 & s1 & E1 & E)%bind_inv_Ret. pose proof (filealloc_fd _ _ _ _ _ _ Hi E1) as Ha.
  destruct o1 as [f|]; [|subst s1; by injection E as <- <-]. destruct Ha as (Hi1 & x & Hx & Hr & Ht & ->).
  pose proof (lookup_lt_Some _ _ _ Hx) as L. apply bind_inv_Ret in E as (fd & s2 & E2 & E).
  destruct (fdalloc_fd _ _ _ _ _ _ _ Hi1 ltac:(simpl; by rewrite length_insert) E2) as [[-> ->]|(Hfd & Hi2 & Eft & _)].
  - apply bind_inv_Ret in E as ([] & s3 & E3 & E). injection E as <- <-.
    destruct (fileclose_fd _ _ _ _ _ _ _ Hi1 E3) as (Hi3 & Hp & _). eapply fd_inv_settle.
    + eapply fd_inv_ext; [|exact Hi3]. bumps.
    + intros g y Hg Hy Hn. exfalso. apply Hn. rewrite (fc_refs _ _ _ _ (fd_count _ _ _ _ _ Hi3) g y Hy), Hp.
      assert (g = f) as -> by set_solver. pose proof (fc_refs _ _ _ _ (fd_count _ _ _ _ _ Hi) f x Hx) as Href. cbv beta in Href.
      simpl. unfold bump. rewrite !decide_True by done. lia.
  - rewrite (proj2 (Z.ltb_ge _ _)) in E by lia. injection E as <- <-. split.
    + rewrite union_empty_r_L in Hi2. eapply fd_inv_ext; [|exact Hi2]. bumps.
    + rewrite Eft. simpl. exists (fl_set_ref 1 x). by rewrite list_lookup_insert_eq.
Qed.

Lemma fset_fd X X' e pid s f x g s' :
  fd_inv X e s → k_ftable s !! f = Some x → fl_ref (g x) = fl_ref x → fl_type x ≠ FD_PIPE → fl_type (g x) ≠ FD_PIPE →
  fl_type (g x) ≠ FD_NONE → fl_ref x ≠ 0 → (∀ h, h ≠ f → h ∉ X' → h ∉ X) → fset f g pid s = Ret tt s' → fd_inv X' e s'.
Proof.
  intros Hi Hx Hr Hp Hp' Ht Hn HX. rewrite (fset_run pid s f x g Hx). intros [= <-]. unfold fd_inv. simpl.
  eapply fd_ok_file; [exact Hi|exact Hx|..]; try done; [lia|congruence|].
  replace (pkey (g x)) with (pkey x) by (unfold pkey; by rewrite !decide_False). rewrite list_insert_id; [apply Hi|].
  by rewrite list_lookup_fmap, Hx.
Qed.

(** The rest of a call that does not touch descriptors. *)
Lemma rest_keeps {A} (m : M (kstate D) A) pid s a s' : keeps fdv m → fd_rest s → m pid s = Ret a s' → fd_rest s'.
Proof. intros Hm Hi E. exact (rest_fdv _ _ (Hm _ _ _ _ E) Hi). Qed.

Lemma keeps_k_begin_op : keeps fdv (k_begin_op (D := D)).
Proof. unfold k_begin_op. keeps. Qed.
Lemma keeps_k_end_op : keeps fdv (k_end_op (D := D)).
Proof. unfold k_end_op. keeps. Qed.

End fdcalls.
#[export] Hint Resolve keeps_k_begin_op keeps_k_end_op : keeps.

Section fdopen.
Context {D : Type} `{DiskFlush D}.
Context (devsw_read : Z → option (Z → M (fstate D) (Z * list Z))).
Context (devsw_write : Z → option (list Z → M (fstate D) Z)).
Context (kend : Z).
Implicit Types (s : kstate D).

Lemma keeps_open_inode path omode : keeps fdv (open_inode devsw_read devsw_write path omode).
Proof. unfold open_inode. keeps. Qed.

Lemma sys_open_fd pid s r s' : fd_rest s → sys_open devsw_read devsw_write kend pid s = Ret r s' → fd_rest s'.
Proof.
  intros Hi (s1 & [(path & E1 & E)|(E1 & _ & ->)])%with_arg_inv; pose proof (rest_keeps _ _ _ _ _ (keeps_argstr fdv _) Hi E1) as Hi1; [|done].
  apply with_arg_inv in E as (s2 & [(omode & E2 & E)|(E2 & _ & ->)]); pose proof (rest_keeps _ _ _ _ _ (keeps_argint fdv _) Hi1 E2) as Hi2; [|done].
  apply bind_inv_Ret in E as ([] & s3 & E3 & E). pose proof (rest_keeps _ _ _ _ _ keeps_k_begin_op Hi2 E3) as Hi3.
  apply bind_inv_Ret in E as (o & s4 & E4 & E). pose proof (rest_keeps _ _ _ _ _ (keeps_open_inode _ _) Hi3 E4) as Hi4.
  destruct o as [ip|]; [|refine (rest_keeps _ _ _ _ _ _ Hi4 E); keeps].
  apply bind_inv_Ret in E as (o & s5 & E5 & E). pose proof (open_file_fd _ _ _ _ _ Hi4 E5) as Ho.
  destruct o as [[f fd]|]; [|refine (rest_keeps _ _ _ _ _ _ Ho E); keeps].
  destruct Ho as (Hi5 & x & Hx & Ht & Hr). apply bind_inv_Ret in E as ([] & s6 & E6 & E). apply bind_inv_Ret in E as ([] & s7 & E7 & E).
  assert (fdv s7 = fdv s5) as K.
  { rewrite (keeps_k_end_op _ _ _ _ E7). exact (keeps_lift fdv (iunlock (Some ip)) (λ _ _, eq_refl) _ _ _ _ E6). }
  pose proof (fd_inv_fdv _ _ _ _ K Hi5) as Hi7. destruct (fdv_eq _ _ K) as (Eft & _). rewrite <- Eft in Hx.
  apply bind_inv_Ret in E as ([] & s8 & E8 & E). injection E as _ <-.
  refine (fset_fd _ _ _ _ _ _ _ _ _ Hi7 Hx _ _ _ _ _ _ E8); simpl; try done; [by rewrite Ht|by rewrite Hr|set_solver].
Qed.

End fdopen.

(** ** Pipes *)

Section fdpipe.
Context {D : Type} `{DiskFlush D}.
Context (kend : Z).
Implicit Types (s : kstate D).

(** The allocator does not hand out the page of a pipe in use. *)
Definition pipe_fresh (pid : Z) s : Prop := ∀ a m, kalloc pid (k_kmem s) = Ret a m → a ≠ 0 → k_pipes s !! a = None.

Lemma fileclose_opt_fd X e f pid s s' :
  fd_inv X e s → fileclose_opt kend (Some f) pid s = Ret tt s' →
  fd_inv X (bump f (-1) e) s' ∧ pfd <$> k_proc s' = pfd <$> k_proc s ∧ length (k_ftable s') = length (k_ftable s).
Proof. apply fileclose_fd. Qed.

(** Files without a descriptor are unused when nothing else holds them. *)
Lemma rest_unused X s :
  fd_inv X (λ _, 0) s → (∀ f, f ∈ X → nref f (all_fds (pfd <$> k_proc s)) = 0) → fd_rest s.
Proof.
  intros Hi HX. eapply fd_inv_settle; [exact Hi|]. intros f x Hf Hx Hr. exfalso. apply Hr.
  pose proof (fc_refs _ _ _ _ (fd_count _ _ _ _ _ Hi) f x Hx) as E. cbv beta in E. rewrite (HX f Hf) in E. lia.
Qed.

(** Two files taken from the table, one after the other. *)
Lemma two_files_fd pid s f0 s1 f1 s2 :
  fd_rest s → filealloc pid s = Ret (Some f0) s1 → filealloc pid s1 = Ret (Some f1) s2 →
  f0 ≠ f1 ∧ fd_inv ({[f1]} ∪ ({[f0]} ∪ ∅)) (bump f1 1 (bump f0 1 (λ _, 0))) s2 ∧
  (∀ f, f ∈ [f0; f1] → nref f (all_fds (pfd <$> k_proc s)) = 0) ∧
  ∃ y0 y1, k_ftable s2 !! f0 = Some y0 ∧ k_ftable s2 !! f1 = Some y1 ∧ fl_type y0 = FD_NONE ∧ fl_type y1 = FD_NONE ∧
    fl_ref y0 = 1 ∧ fl_ref y1 = 1 ∧ s2 = k_set_ftable (k_ftable s2) s.
Proof.
  intros Hi E0 E1. destruct (filealloc_fd _ _ _ _ _ _ Hi E0) as (Hi1 & x0 & Hx0 & Hr0 & Ht0 & Es1).
  destruct (filealloc_fd _ _ _ _ _ _ Hi1 E1) as (Hi2 & x1 & Hx1 & Hr1 & Ht1 & Es2).
  pose proof (fc_refs _ _ _ _ (fd_count _ _ _ _ _ Hi) f0 x0 Hx0) as R0. cbv beta in R0.
  pose proof (lookup_lt_Some _ _ _ Hx0) as L0. pose proof (lookup_lt_Some _ _ _ Hx1) as L1.
  assert (f0 ≠ f1) as Hne.
  { intros <-. rewrite Es1 in Hx1. simpl in Hx1. rewrite list_lookup_insert_eq in Hx1 by done. injection Hx1 as <-. done. }
  pose proof (fc_refs _ _ _ _ (fd_count _ _ _ _ _ Hi1) f1 x1 Hx1) as R1. unfold bump in R1. rewrite decide_False in R1 by done.
  rewrite Es1 in R1. simpl in R1. split; [done|]. split; [done|]. split.
  { intros f Hf. apply list_elem_of_In in Hf as [<-|[<-|[]]]; lia. }
  exists (fl_set_ref 1 x0), (fl_set_ref 1 x1). rewrite Es2. simpl. rewrite list_lookup_insert_ne, list_lookup_insert_eq by done.
  rewrite Es1. simpl. rewrite list_lookup_insert_eq by done. split_and!; done.
Qed.

(** The pipe and its two files. *)
Lemma pipe_files_fd e s f0 f1 y0 y1 a data :
  fd_inv ({[f1]} ∪ ({[f0]} ∪ ∅)) e s → f0 ≠ f1 → k_ftable s !! f0 = Some y0 → k_ftable s !! f1 = Some y1 →
  fl_type y0 = FD_NONE → fl_type y1 = FD_NONE → fl_ref y0 = 1 → fl_ref y1 = 1 → k_pipes s !! a = None →
  fd_ok ∅ e (<[f1 := fl_set_pipe a (fl_set_mode 0 1 (fl_set_type FD_PIPE y1))]>
    (<[f0 := fl_set_pipe a (fl_set_mode 1 0 (fl_set_type FD_PIPE y0))]> (k_ftable s)))
    (pfd <$> k_proc s) (<[a := pipe_init data]> (k_pipes s)).
Proof.
  intros Hi Hne Hy0 Hy1 T0 T1 R0 R1 Ha. split.
  - eapply (fd_cnt_file {[f1]} _ e); [eapply (fd_cnt_file _ {[f1]} e); [apply Hi|exact Hy0|..]|..]; try done; try (simpl; lia).
    + set_solver.
    + by rewrite list_lookup_insert_ne.
    + simpl. lia.
    + set_solver.
  - rewrite !list_fmap_insert. apply (pipes_ok_new (pkey <$> k_ftable s)); [apply Hi|done|..|done].
    + rewrite list_lookup_fmap, Hy0. simpl. unfold pkey. by rewrite decide_False by (by rewrite T0).
    + rewrite list_lookup_fmap, Hy1. simpl. unfold pkey. by rewrite decide_False by (by rewrite T1).
Qed.

Lemma pipealloc_fd pid s o s' :
  fd_rest s → pipe_fresh pid s → pipealloc kend pid s = Ret o s' →
  match o with
  | None => fd_rest s'
  | Some (f0, f1) => fd_inv ∅ (bump f1 1 (bump f0 1 (λ _, 0))) s' ∧
      (f0 < length (k_ftable s'))%nat ∧ (f1 < length (k_ftable s'))%nat
  end.
Proof.
  intros Hi Hfr. unfold pipealloc. intros (o0 & s1 & E0 & E)%bind_inv_Ret. pose proof (filealloc_fd _ _ _ _ _ _ Hi E0) as Ha.
  destruct o0 as [f0|].
  2:{ subst s1. rewrite (bind_ret None) in E. apply bind_inv_Ret in E as ([] & s2 & E2 & E). injection E2 as <-.
      apply bind_inv_Ret in E as ([] & s2 & E2 & E). injection E2 as <-. by injection E as <- <-. }
  destruct Ha as (Hi1 & x0 & Hx0 & Hr0 & Ht0 & Es1). apply bind_inv_Ret in E as (o1 & s2 & E1 & E).
  pose proof (filealloc_fd _ _ _ _ _ _ Hi1 E1) as Ha. pose proof (fc_refs _ _ _ _ (fd_count _ _ _ _ _ Hi) f0 x0 Hx0) as R0. cbv beta in R0.
  destruct o1 as [f1|].
  2:{ subst s2. apply bind_inv_Ret in E as ([] & s3 & E3 & E). destruct (fileclose_opt_fd _ _ _ _ _ _ Hi1 E3) as (Hi3 & Hp3 & _).
      apply bind_inv_Ret in E as ([] & s4 & E4 & E). injection E4 as <-. injection E as <- <-.
      apply (rest_unused ({[f0]} ∪ ∅)); [eapply fd_inv_ext; [|exact Hi3]; intros ?; unfold bump; repeat case_decide; lia|].
      intros f Hf. assert (f = f0) as -> by set_solver. rewrite Hp3, Es1. simpl. lia. }
  clear Ha. destruct (two_files_fd _ _ _ _ _ _ Hi E0 E1) as (Hne & Hi2 & Hz & y0 & y1 & Hy0 & Hy1 & T0 & T1 & Q0 & Q1 & Es2).
  apply bind_inv_Ret in E as (a & s3 & E3 & E).
  assert (∃ m, kalloc pid (k_kmem s) = Ret a m ∧ s3 = k_set_kmem m s2) as (m & Ek & Es3).
  { unfold lift in E3. replace (lget s2) with (k_kmem s) in E3 by (by rewrite Es2). destruct (kalloc pid (k_kmem s)) as [b m| | |] eqn:Ek; try done.
    injection E3 as <- <-. by exists m. }
  assert (fd_inv ({[f1]} ∪ ({[f0]} ∪ ∅)) (bump f1 1 (bump f0 1 (λ _, 0))) s3) as Hi3 by (by rewrite Es3).
  destruct (a =? 0) eqn:Ea.
  - apply bind_inv_Ret in E as ([] & s4 & E4 & E). destruct (fileclose_opt_fd _ _ _ _ _ _ Hi3 E4) as (Hi4 & Hp4 & _).
    apply bind_inv_Ret in E as ([] & s5 & E5 & E). destruct (fileclose_opt_fd _ _ _ _ _ _ Hi4 E5) as (Hi5 & Hp5 & _).
    injection E as <- <-. eapply rest_unused; [eapply fd_inv_ext; [|exact Hi5]; intros ?; unfold bump; repeat case_decide; lia|].
    intros f Hf. rewrite Hp5, Hp4, Es3, Es2. apply Hz. set_solver.
  - apply bind_inv_Ret in E as ([] & s4 & E4 & E). injection E4 as <-.
    set (s4 := k_set_pipes _ s3) in E.
    assert (k_ftable s4 !! f0 = Some y0) as Hz0 by (unfold s4; by rewrite Es3).
    rewrite (bind_Ret _ _ _ _ _ _ (fset_run pid s4 f0 y0 _ Hz0)) in E. set (s5 := k_set_ftable _ s4) in E.
    assert (k_ftable s5 !! f1 = Some y1) as Hz1 by (unfold s5, s4; simpl; rewrite list_lookup_insert_ne by done; by rewrite Es3).
    rewrite (bind_Ret _ _ _ _ _ _ (fset_run pid s5 f1 y1 _ Hz1)) in E. injection E as <- <-. split.
    + apply (pipe_files_fd _ s3); try done; [by rewrite Es3..|]. rewrite Es3, Es2. simpl. apply (Hfr a m Ek). lia.
    + simpl. rewrite !length_insert. rewrite Es3. simpl. split; by eapply lookup_lt_Some.
Qed.

Lemma close_two_fd e pid s r s' f0 f1 :
  fd_inv ∅ e s → (∀ f, e f = bump f1 1 (bump f0 1 (λ _, 0)) f) →
  (fileclose kend f0 ;; fileclose kend f1 ;; mret (-1)) pid s = Ret r s' → fd_rest s'.
Proof.
  intros Hi He ([] & s1 & E1 & E)%bind_inv_Ret. destruct (fileclose_fd _ _ _ _ _ _ _ Hi E1) as (Hi1 & _).
  apply bind_inv_Ret in E as ([] & s2 & E2 & E). destruct (fileclose_fd _ _ _ _ _ _ _ Hi1 E2) as (Hi2 & _).
  injection E as _ <-. eapply fd_inv_ext; [|exact Hi2]. intros f. specialize (He f). unfold bump in *. repeat case_decide; lia.
Qed.

Lemma sys_pipe_fd pid s r s' : fd_rest s → pipe_fresh pid s → sys_pipe kend pid s = Ret r s' → fd_rest s'.
Proof.
  intros Hi Hfr (s1 & [(fd & E1 & E)|(E1 & _ & ->)])%with_arg_inv; rewrite (keeps_argptr id _ _ _ _ _ _ E1 : s1 = s) in *; [|done].
  apply bind_inv_Ret in E as (o & s2 & E2 & E). pose proof (pipealloc_fd _ _ _ _ Hi Hfr E2) as Hp.
  destruct o as [[rf wf]|]; [|by injection E as _ <-]. destruct Hp as (Hi2 & L0 & L1).
  apply bind_inv_Ret in E as (fd0 & s3 & E3 & E).
  destruct (fdalloc_fd _ _ _ _ _ _ _ Hi2 L0 E3) as [[-> ->]|(Hfd0 & Hi3 & Eft & _ & i & p & Hc & Hf)]; [by eapply close_two_fd, E|].
  rewrite (proj2 (Z.ltb_ge _ _)) in E by lia. rewrite <- Eft in L1. apply bind_inv_Ret in E as (fd1 & s4 & E4 & E).
  destruct (fdalloc_fd _ _ _ _ _ _ _ Hi3 L1 E4) as [[-> ->]|(Hfd1 & Hi4 & _)].
  - apply bind_inv_Ret in E as ([] & s5 & E5 & E). destruct (fdclear_fd _ _ _ _ _ _ _ _ _ Hi3 Hc Hf E5) as [Hi5 _].
    eapply close_two_fd; [exact Hi5| |exact E]. intros f. unfold bump. repeat case_decide; lia.
  - rewrite (proj2 (Z.ltb_ge _ _)) in E by lia. assert (fd_rest s4) as Hi5.
    { eapply fd_inv_ext; [|exact Hi4]. intros f. unfold bump. repeat case_decide; lia. }
    refine (rest_keeps _ _ _ _ _ _ Hi5 E). keeps.
Qed.

End fdpipe.

(** ** Reading and writing *)

Section fdrw.
Context {D : Type} `{DiskFlush D}.
Context (devsw_read : Z → option (Z → M (fstate D) (Z * list Z))).
Context (devsw_write : Z → option (list Z → M (fstate D) Z)).
Implicit Types (s : kstate D).

(** A change of the offset, or of a pipe that leaves its ends as they are. *)
Lemma keeps_inv_bind {A B} (I : kstate D → Prop) pid (m : M (kstate D) A) (k : A → M (kstate D) B) :
  hoare pid I m (λ _, I) → (∀ a, hoare pid I (k a) (λ _, I)) → hoare pid I (m ≫= k) (λ _, I).
Proof. intros Hm Hk. by eapply hoare_bind. Qed.
Lemma rest_hoare {A} pid (m : M (kstate D) A) : keeps fdv m → hoare pid fd_rest m (λ _, fd_rest).
Proof. intros Hm s a s' Hi E. by eapply rest_keeps. Qed.

Lemma fset_off_fd pid f o : hoare pid fd_rest (fset (D := D) f (λ x, fl_set_off (u32 (fl_off x + o)) x)) (λ _, fd_rest).
Proof.
  intros s a s' Hi. unfold fset, modify. intros [= <- <-]. destruct (k_ftable s !! f) as [x|] eqn:Hx.
  - unfold fd_rest, fd_inv. simpl. rewrite (alter_at _ _ _ _ Hx). eapply fd_ok_file; [exact Hi|exact Hx|..]; try done; simpl.
    + lia.
    + apply (fc_free _ _ _ _ (fd_count _ _ _ _ _ Hi) f x Hx).
    + intros Hr _. by apply (fc_typed _ _ _ _ (fd_count _ _ _ _ _ Hi) f x Hx).
    + rewrite list_insert_id; [apply Hi|]. by rewrite list_lookup_fmap, Hx.
  - unfold fd_rest, fd_inv. simpl. replace (alter _ f (k_ftable s)) with (k_ftable s); [exact Hi|].
    apply list_eq. intros k. rewrite list_lookup_alter. case_decide; [|done]. subst k. by rewrite Hx.
Qed.

Lemma pipe_put_fd pid a q q' s s' :
  fd_rest s → k_pipes s !! a = Some q → (∀ w, pend w q' = pend w q) → pipe_put a q' pid s = Ret tt s' → fd_rest s'.
Proof.
  intros Hi Ha Hw. unfold pipe_put, modify. intros [= <-]. split; simpl; [apply Hi|]. by eapply pipes_ok_put; [apply Hi|..].
Qed.

Lemma pipewrite_pend killed n src : ∀ q, match pipewrite killed n src q with
  | WRet _ q' _ | WSleep _ q' _ => ∀ w, pend w q' = pend w q end.
Proof.
  induction src as [|c src IH]; intros q; cbn [pipewrite]; [done|]. destruct (p_full q); [by destruct (_ || _)|].
  specialize (IH (p_put c q)). by destruct (pipewrite _ _ _ _).
Qed.
Lemma piperead_loop_pend k : ∀ q w, pend w (piperead_loop k q).2 = pend w q.
Proof.
  induction k as [|k IH]; intros q w; cbn [piperead_loop]; [done|]. destruct (_ =? _); [done|].
  specialize (IH (p_pop q) w). destruct (piperead_loop _ _). exact IH.
Qed.
Lemma piperead_pend killed n q : match piperead killed n q with
  | RRet _ _ q' _ | RSleep q' => ∀ w, pend w q' = pend w q end.
Proof.
  unfold piperead. destruct (_ && _); [by destruct killed|]. pose proof (piperead_loop_pend (Z.to_nat n) q) as Hl.
  destruct (piperead_loop _ _). exact Hl.
Qed.

Lemma keeps_mykilled : keeps fdv (mykilled (D := D)).
Proof. unfold mykilled. keeps. Qed.

(** The common course of the two pipe operations. *)
Lemma pipe_op_fd {A} pid a q q' w (r : A) s s' :
  fd_rest s → k_pipes s !! a = Some q → (∀ v, pend v q' = pend v q) →
  (pipe_put a q' ;; pipe_wake a w ;; mret r) pid s = Ret r s' → fd_rest s'.
Proof.
  intros Hi Ha Hv ([] & s1 & E1 & E)%bind_inv_Ret. pose proof (pipe_put_fd _ _ _ _ _ _ Hi Ha Hv E1) as Hi1.
  refine (rest_keeps _ _ _ _ _ _ Hi1 E). keeps.
Qed.
Lemma pipe_at_inv pid a s q s' : pipe_at a pid s = Ret q s' → s' = s ∧ k_pipes s !! a = Some q.
Proof.
  unfold pipe_at. rewrite (bind_Ret get _ pid s s s eq_refl). destruct (k_pipes s !! a); [|done]. by intros [= -> ->].
Qed.

Lemma k_pipewrite_fd pid a src n : hoare pid fd_rest (k_pipewrite (D := D) a src n) (λ _, fd_rest).
Proof.
  intros s r s' Hi (killed & s1 & E1 & E)%bind_inv_Ret. pose proof (rest_keeps _ _ _ _ _ keeps_mykilled Hi E1) as Hi1.
  apply bind_inv_Ret in E as (q & s2 & E2 & E). destruct (pipe_at_inv _ _ _ _ _ E2) as [-> Hq].
  pose proof (pipewrite_pend killed n (take (Z.to_nat n) src) q) as Hp. destruct (pipewrite _ _ _ _) as [r' q' w|rest q' w].
  - assert (r = r') as -> by (apply bind_inv_Ret in E as ([] & ? & _ & E); apply bind_inv_Ret in E as ([] & ? & _ & E); by injection E).
    by eapply pipe_op_fd.
  - apply bind_inv_Ret in E as ([] & s3 & _ & E). apply bind_inv_Ret in E as ([] & s4 & _ & E).
    unfold sleep in E. apply bind_inv_Ret in E as (? & ? & _ & E). by apply bind_inv_Ret in E as (? & ? & _ & E).
Qed.

Lemma k_piperead_fd pid a n : hoare pid fd_rest (k_piperead (D := D) a n) (λ _, fd_rest).
Proof.
  intros s r s' Hi (killed & s1 & E1 & E)%bind_inv_Ret. pose proof (rest_keeps _ _ _ _ _ keeps_mykilled Hi E1) as Hi1.
  apply bind_inv_Ret in E as (q & s2 & E2 & E). destruct (pipe_at_inv _ _ _ _ _ E2) as [-> Hq].
  pose proof (piperead_pend killed n q) as Hp. destruct (piperead _ _ _) as [r' d q' w|q'].
  - assert (r = (r', d)) as -> by (apply bind_inv_Ret in E as ([] & ? & _ & E); apply bind_inv_Ret in E as ([] & ? & _ & E); by injection E).
    by eapply pipe_op_fd.
  - apply bind_inv_Ret in E as ([] & s3 & _ & E).
    unfold sleep in E. apply bind_inv_Ret in E as (? & ? & _ & E). by apply bind_inv_Ret in E as (? & ? & _ & E).
Qed.

(** Sequences of statements that keep the invariant. *)
Ltac rest :=
  repeat (intros; first
    [ apply k_pipewrite_fd | apply k_piperead_fd | apply fset_off_fd
    | solve [apply rest_hoare; keeps] | apply keeps_inv_bind | case_match ]).

Lemma fileread_fd pid f n : hoare pid fd_rest (fileread devsw_read f n) (λ _, fd_rest).
Proof. unfold fileread. rest. Qed.
Lemma filewrite_loop_fd pid fuel : ∀ f src i n, hoare pid fd_rest (filewrite_loop devsw_write fuel f src i n) (λ _, fd_rest).
Proof. induction fuel as [|fuel IH]; intros f src i n; cbn [filewrite_loop]; rest. all: apply IH. Qed.
Lemma filewrite_fd pid f src n : hoare pid fd_rest (filewrite devsw_write f src n) (λ _, fd_rest).
Proof. unfold filewrite. rest. apply filewrite_loop_fd. Qed.
Lemma sys_read_fd pid : hoare pid fd_rest (sys_read devsw_read) (λ _, fd_rest).
Proof. unfold sys_read, with_arg. rest. Qed.
Lemma sys_write_fd pid : hoare pid fd_rest (sys_write devsw_write) (λ _, fd_rest).
Proof. unfold sys_write, with_arg. rest. all: apply filewrite_loop_fd. Qed.

End fdrw.
