(* ===== verification/FdProc.v ===== *)
(** * The reference counts through fork, exit and wait, and through every call *)

From S2P Require Import Prelude Layout Sleeplock Disk Ide Bio Crc32 Log LogReserve CString Mem Kalloc Vm Pipe Fs Kernel File Syscall Exec Sysfile Proc FdInv FdCalls.

Set Default Proof Using "Type".

Lemma alter_alter {A} (g h : A → A) (l : list A) (i : nat) : alter (λ x, g (h x)) i l = alter g i (alter h i l).
Proof. apply list_eq. intros k. rewrite !list_lookup_alter. repeat case_decide; subst; try done. by destruct (l !! k). Qed.

Section fdproc.
Context {D : Type} `{DiskFlush D}.
Implicit Types (s : kstate D).

(** Process [i] has the descriptors [l]; it is neither unused nor a zombie. *)
Definition fds_at (i : nat) (l : list (option nat)) s : Prop := (pfd <$> k_proc s) !! i = Some (l, false).
Definition no_fds : list (option nat) := replicate (Z.to_nat NOFILE) None.

Lemma fds_at_fdv i l s s' : fdv s' = fdv s → fds_at i l s → fds_at i l s'.
Proof. unfold fds_at. by intros (_ & -> & _)%fdv_eq. Qed.

Lemma km_fdv {A} (m : M kmem A) : keeps fdv (lift (S := kstate D) m).
Proof. keeps. Qed.
Lemma fs_fdv {A} (m : M (fstate D) A) : keeps fdv (lift (S := kstate D) m).
Proof. keeps. Qed.

(** Code that keeps the invariant and the descriptors of [i]. *)
Definition keeps_fds {A} (i : nat) (m : M (kstate D) A) : Prop :=
  ∀ pid s a s' l, fd_rest s → fds_at i l s → m pid s = Ret a s' → fd_rest s' ∧ fds_at i l s'.

Lemma keeps_fds_fdv {A} i (m : M (kstate D) A) : keeps fdv m → keeps_fds i m.
Proof. intros Hm pid s a s' l Hi Hl E%Hm. split; [by eapply rest_fdv|by eapply fds_at_fdv]. Qed.

Lemma pset_inv pid i g s s' : pset i g pid s = Ret tt s' → s' = k_set_proc (alter g i (k_proc s)) s.
Proof. unfold pset, modify. by intros [= <-]. Qed.

Lemma keeps_pset i g : (∀ p, pfd (g p) = pfd p) → keeps fdv (pset (D := D) i g).
Proof.
  intros Hg. unfold pset. apply keeps_modify. intros s. unfold fdv. simpl. f_equal. f_equal.
  apply list_eq. intros k. rewrite !list_lookup_fmap, list_lookup_alter. case_decide; [subst|done].
  destruct (k_proc s !! k); [|done]. simpl. by rewrite Hg.
Qed.

(** A process is given other descriptors. *)
Lemma pset_fd X e e' i g s p :
  fd_inv X e s → k_proc s !! i = Some p → length (p_ofile (g p)) = Z.to_nat NOFILE →
  ((pfd (g p)).2 = true → p_ofile (g p) = no_fds) →
  (∀ f, Some f ∈ p_ofile (g p) → Some f ∈ p_ofile p ∨ (f < length (k_ftable s))%nat) →
  (∀ f, e' f = e f + nref f (p_ofile p) - nref f (p_ofile (g p))) →
  fd_inv X e' (k_set_proc (alter g i (k_proc s)) s).
Proof.
  intros Hi Hp H1 H2 H3 H4. unfold fd_inv. simpl. rewrite (alter_at _ _ _ _ Hp), list_fmap_insert.
  eapply fd_ok_proc; [exact Hi|by rewrite list_lookup_fmap, Hp|..]; done.
Qed.

(** The state of a process without descriptors changes. *)
Lemma pset_state_fd pid i st s s' :
  fd_rest s → fds_at i no_fds s → pset i (p_set_state st) pid s = Ret tt s' → fd_rest s'.
Proof.
  intros Hi Hl E. rewrite (pset_inv _ _ _ _ _ E). unfold fds_at in Hl. rewrite list_lookup_fmap in Hl.
  destruct (k_proc s !! i) as [p|] eqn:Hp; [|done]. injection Hl as Ho _.
  eapply pset_fd; [exact Hi|exact Hp|..]; simpl; rewrite ?Ho; try done; intros; first [lia|by left].
Qed.

(** What the invariant says of a descriptor and of a pipe. *)
Lemma fds_named s i p fd f :
  fd_rest s → k_proc s !! i = Some p → p_ofile p !! fd = Some (Some f) →
  p_state p ≠ UNUSED ∧ p_state p ≠ ZOMBIE ∧
  ∃ x, k_ftable s !! f = Some x ∧ 1 ≤ fl_ref x ∧ fl_type x ≠ FD_NONE ∧
    (fl_type x = FD_PIPE → ∃ q, k_pipes s !! fl_pipe x = Some q ∧ pend (negb (fl_writable x =? 0)) q ≠ 0).
Proof.
  intros Hi Hp Hf. assert ((pfd <$> k_proc s) !! i = Some (pfd p)) as Hq by (by rewrite list_lookup_fmap, Hp).
  pose proof (fc_closed _ _ _ _ (fd_count _ _ _ _ _ Hi) i _ Hq) as Hcl. cbn [pfd fst snd] in Hcl.
  assert (¬ (p_state p = UNUSED ∨ p_state p = ZOMBIE)) as Hst.
  { intros Hs. rewrite (Hcl (bool_decide_eq_true_2 _ Hs)) in Hf. apply lookup_replicate in Hf as [? _]. done. }
  split; [naive_solver|]. split; [naive_solver|].
  assert (Some f ∈ all_fds (pfd <$> k_proc s)) as Hin.
  { apply all_fds_elem. exists i, (pfd p). split; [done|]. by eapply list_elem_of_lookup_2. }
  destruct (lookup_lt_is_Some_2 (k_ftable s) f (fc_range _ _ _ _ (fd_count _ _ _ _ _ Hi) f Hin)) as [x Hx].
  pose proof (fc_refs _ _ _ _ (fd_count _ _ _ _ _ Hi) f x Hx) as E. cbv beta in E. pose proof (nref_pos _ _ Hin) as Hpos.
  exists x. split; [done|]. split; [lia|]. split; [apply (fc_typed _ _ _ _ (fd_count _ _ _ _ _ Hi) f x Hx); [lia|set_solver]|].
  intros Ht. assert ((pkey <$> k_ftable s) !! f = Some (Some (fl_pipe x, negb (fl_writable x =? 0)))) as Hk.
  { rewrite list_lookup_fmap, Hx. simpl. unfold pkey. by rewrite decide_True. }
  destruct (pk_some _ _ (fd_pipes _ _ _ _ _ Hi) _ _ _ Hk) as [q Hqq]. exists q. split; [done|].
  apply (pk_open _ _ (fd_pipes _ _ _ _ _ Hi) _ _ _ Hqq). by exists f.
Qed.

Lemma pipes_named s a q :
  fd_rest s → k_pipes s !! a = Some q → ∃ f x, k_ftable s !! f = Some x ∧ fl_type x = FD_PIPE ∧ fl_pipe x = a ∧ 1 ≤ fl_ref x.
Proof.
  intros Hi Hq. destruct (pk_live _ _ (fd_pipes _ _ _ _ _ Hi) a q Hq) as [w Hw].
  apply (pk_open _ _ (fd_pipes _ _ _ _ _ Hi) a q w Hq) in Hw as [f Hf]. rewrite list_lookup_fmap in Hf.
  destruct (k_ftable s !! f) as [x|] eqn:Hx; [|done]. simpl in Hf. unfold pkey in Hf. case_decide as Ht; [|done]. injection Hf as Ha _.
  exists f, x. split_and!; try done. pose proof (fc_refs _ _ _ _ (fd_count _ _ _ _ _ Hi) f x Hx) as E. cbv beta in E.
  pose proof (nref_nonneg f (all_fds (pfd <$> k_proc s))). destruct (decide (fl_ref x = 0)) as [Hz|]; [|lia].
  rewrite (fc_free _ _ _ _ (fd_count _ _ _ _ _ Hi) f x Hx Hz) in Ht. done.
Qed.

End fdproc.

(** ** fork *)

Section fdfork.
Context {D : Type} `{DiskFlush D}.
Context (kend kdata trapret forkret_addr : Z).
Implicit Types (s : kstate D).

Lemma allocproc_fd pid s o s' :
  fd_rest s → allocproc trapret forkret_addr pid s = Ret o s' →
  fd_rest s' ∧ match o with Some np => fds_at np no_fds s' | None => True end.
Proof.
  intros Hi. unfold allocproc. rewrite (bind_Ret get _ pid s s s eq_refl). destruct (list_find _ _) as [[i p]|] eqn:El.
  2:{ intros E. by injection E as <- <-. }
  apply list_find_Some in El as (Hp & Hu & _). intros ([] & s1 & E1 & E)%bind_inv_Ret.
  assert (p_ofile p = no_fds) as Ho.
  { apply (fc_closed _ _ _ _ (fd_count _ _ _ _ _ Hi) i (pfd p)); [by rewrite list_lookup_fmap, Hp|]. simpl. by rewrite Hu. }
  assert (fd_rest s1 ∧ fds_at i no_fds s1) as [Hi1 Hl1].
  { rewrite (pset_inv _ _ _ _ _ E1). split.
    - eapply pset_fd; [exact Hi|exact Hp|..]; simpl; rewrite ?Ho; try done; intros; first [lia|by left].
    - unfold fds_at. simpl. rewrite list_lookup_fmap, list_lookup_alter_eq, Hp. simpl. unfold pfd. simpl. by rewrite Ho. }
  apply bind_inv_Ret in E as ([] & s2 & E2 & E). assert (fdv s2 = fdv s1) as K2 by (by injection E2 as <-).
  apply bind_inv_Ret in E as (stk & s3 & E3 & E). apply bind_inv_Ret in E as ([] & s4 & E4 & E).
  assert (fdv s4 = fdv s1) as K4.
  { rewrite <- K2, <- (km_fdv kalloc _ _ _ _ E3). exact (keeps_pset i (p_set_kstack stk) (λ _, eq_refl) _ _ _ _ E4). }
  pose proof (rest_fdv _ _ K4 Hi1) as Hi4. pose proof (fds_at_fdv _ _ _ _ K4 Hl1) as Hl4. destruct (stk =? 0).
  - apply bind_inv_Ret in E as ([] & s5 & E5 & E). injection E as <- <-. split; [|done]. by eapply pset_state_fd.
  - assert (keeps_fds i (lift (T := kmem) (kstore (stk + KSTACKSIZE - SIZEOF_TF - 4) trapret) ;;
      pset i (p_set_frames (stk + KSTACKSIZE - SIZEOF_TF) (stk + KSTACKSIZE - SIZEOF_TF - 4 - SIZEOF_CX)) ;;
      lift (T := kmem) (k_upd (memset (stk + KSTACKSIZE - SIZEOF_TF - 4 - SIZEOF_CX) 0 SIZEOF_CX)) ;;
      lift (T := kmem) (kstore (stk + KSTACKSIZE - SIZEOF_TF - 4 - SIZEOF_CX + CX_EIP) forkret_addr) ;;
      (mret (Some i) : M (kstate D) (option nat)))) as K.
    { apply keeps_fds_fdv. keeps. by apply keeps_pset. }
    destruct (K pid s4 o s' _ Hi4 Hl4 E) as [Hi5 Hl5]. split; [done|].
    repeat (apply bind_inv_Ret in E as ([] & ? & _ & E)). by injection E as <- _.
Qed.

(** The descriptors of the parent from [k] on. *)
Lemma fork_fds_fd np fds n : ∀ k pid s s' l,
  fd_rest s → fds_at np l s → length l = Z.to_nat NOFILE → (k + n ≤ Z.to_nat NOFILE)%nat →
  (∀ m, (k ≤ m)%nat → (m < Z.to_nat NOFILE)%nat → l !! m = Some None) →
  forM (seq k n) (fork_fd np fds) pid s = Ret tt s' → fd_rest s' ∧ ∃ l', fds_at np l' s'.
Proof.
  induction n as [|n IH]; intros k pid s s' l Hi Hl Hlen Hn Hm; cbn [seq forM].
  { intros [= <-]. split; [done|by exists l]. }
  intros ([] & s1 & E1 & E)%bind_inv_Ret. unfold fork_fd in E1. destruct (fds !! k) as [[f|]|] eqn:Ef.
  2,3: injection E1 as <-; apply (IH (S k) pid s s' l); try done; [lia|]; intros; apply Hm; lia.
  apply bind_inv_Ret in E1 as (g & s2 & E2 & E1). destruct (filedup_fd _ _ _ _ _ _ _ Hi E2) as (-> & L & Hi2 & Ep & El).
  rewrite (pset_inv _ _ _ _ _ E1) in E. unfold fds_at in Hl. rewrite list_lookup_fmap in Hl.
  destruct (k_proc s !! np) as [p|] eqn:Hp; [|done]. injection Hl as Ho Hst.
  rewrite <- Ep in Hp. assert (k < length l)%nat as Lk by lia.
  eapply (IH (S k) _ _ _ (<[k := Some f]> l)); [..|exact E]; rewrite ?length_insert; try done; try lia.
  - eapply pset_fd; [exact Hi2|exact Hp|..]; simpl; rewrite ?Ho; rewrite ?length_insert; try done.
    + by rewrite Hst.
    + intros h Hh. apply list_elem_of_lookup_1 in Hh as [m Hh]. destruct (decide (m = k)) as [->|].
      * rewrite list_lookup_insert_eq in Hh by done. right. rewrite El. naive_solver.
      * rewrite list_lookup_insert_ne in Hh by done. left. by eapply list_elem_of_lookup_2.
    + intros h. rewrite (nref_insert h l k None) by (apply Hm; lia). unfold bump. repeat case_decide; naive_solver lia.
  - unfold fds_at. simpl. rewrite list_lookup_fmap, list_lookup_alter_eq, Hp. simpl. unfold pfd. simpl. by rewrite Ho, Hst.
  - intros m Hm1 Hm2. rewrite list_lookup_insert_ne by lia. apply Hm; lia.
Qed.

(** Setting the state of a process that is not a zombie. *)
Lemma pset_runnable_fd pid i s s' : fd_rest s → pset i (p_set_state RUNNABLE) pid s = Ret tt s' → fd_rest s'.
Proof.
  intros Hi E. rewrite (pset_inv _ _ _ _ _ E). destruct (k_proc s !! i) as [p|] eqn:Hp.
  - eapply pset_fd; [exact Hi|exact Hp|..]; simpl; try done; [|intros; by left|intros; lia].
    by apply (fc_len _ _ _ _ (fd_count _ _ _ _ _ Hi) i (pfd p)); rewrite list_lookup_fmap, Hp.
  - unfold fd_rest, fd_inv. simpl. replace (alter _ i (k_proc s)) with (k_proc s); [exact Hi|].
    apply list_eq. intros k. rewrite list_lookup_alter. case_decide; [|done]. subst k. by rewrite Hp.
Qed.

(** The entry given back when the memory cannot be copied. *)
Lemma fork_bad_fd np pid s r s' :
  fd_rest s → fds_at np no_fds s →
  (n ← pat np; lift (T := kmem) (kfree kend (p_kstack n)) ;;
   pset np (λ p, p_set_state UNUSED (p_set_kstack 0 p)) ;; mret (-1)) pid s = Ret r s' → fd_rest s'.
Proof.
  intros Hi Hl (n & s1 & E1 & E)%bind_inv_Ret. rewrite (keeps_pat id _ _ _ _ _ E1 : s1 = s) in *.
  apply bind_inv_Ret in E as ([] & s2 & E2 & E). pose proof (km_fdv _ _ _ _ _ E2) as K2.
  apply bind_inv_Ret in E as ([] & s3 & E3 & E). injection E as _ <-.
  assert (∃ s4, pset np (p_set_kstack 0) pid s2 = Ret tt s4 ∧ pset np (p_set_state UNUSED) pid s4 = Ret tt s3) as (s4 & E4 & E5).
  { eexists. split; [done|]. rewrite (pset_inv _ _ _ _ _ E3). rewrite (alter_alter (p_set_state UNUSED) (p_set_kstack 0)). reflexivity. }
  pose proof (keeps_pset np (p_set_kstack 0) (λ _, eq_refl) _ _ _ _ E4) as K4. rewrite K2 in K4.
  eapply pset_state_fd; [exact (rest_fdv _ _ K4 Hi)|exact (fds_at_fdv _ _ _ _ K4 Hl)|exact E5].
Qed.

(** What follows the loop over the descriptors. *)
Lemma fork_end_fd np (cur n : proc) pid : hoare pid fd_rest
  (s ← get;
   cwd ← match f_cwd (k_fs s) (p_pid cur) with
         | Some ip => lift (T := fstate D) (idup ip)
         | None => undef "idup: null"
         end;
   lift (T := fstate D) (set_cwd (p_pid n) (Some cwd)) ;;
   pset np (λ p, p_set_name (splice 0 (safestrcpy (λ k, nth k (p_name cur) 0) 16) (p_name p)) p) ;;
   pset np (p_set_state RUNNABLE) ;;
   mret (p_pid n)) (λ _, fd_rest).
Proof.
  apply hoare_bind with (λ _, fd_rest); [apply rest_hoare; keeps|]. intros t.
  apply hoare_bind with (λ _, fd_rest); [apply rest_hoare; keeps|]. intros cwd.
  apply hoare_bind with (λ _, fd_rest); [apply rest_hoare; keeps|]. intros _.
  apply hoare_bind with (λ _, fd_rest); [apply rest_hoare, keeps_pset; done|]. intros _.
  apply hoare_bind with (λ _, fd_rest); [|intros _; apply rest_hoare; keeps].
  intros u [] u' Hu Eu. by eapply pset_runnable_fd.
Qed.

Lemma fork_keeps_fd pid s r s' : fd_rest s → fork kend kdata trapret forkret_addr pid s = Ret r s' → fd_rest s'.
Proof.
  intros Hi. unfold fork. intros (c & s1 & E1 & E)%bind_inv_Ret. rewrite (keeps_myproc id _ _ _ _ E1 : s1 = s) in *.
  apply bind_inv_Ret in E as (o & s2 & E2 & E). destruct (allocproc_fd _ _ _ _ Hi E2) as [Hi2 Hl2].
  destruct o as [np|]; [|by injection E as _ <-].
  apply bind_inv_Ret in E as (cur & s3 & E3 & E). rewrite (keeps_pat id _ _ _ _ _ E3 : s3 = s2) in *.
  apply bind_inv_Ret in E as (pgdir & s4 & E4 & E). pose proof (km_fdv _ _ _ _ _ E4) as K4.
  apply bind_inv_Ret in E as ([] & s5 & E5 & E). assert (fdv s5 = fdv s2) as K5.
  { rewrite <- K4. exact (keeps_pset np (λ p, p_set_mem (p_sz p) pgdir p) (λ _, eq_refl) _ _ _ _ E5). }
  pose proof (rest_fdv _ _ K5 Hi2) as Hi5. pose proof (fds_at_fdv _ _ _ _ K5 Hl2) as Hl5.
  destruct (pgdir =? 0); [exact (fork_bad_fd _ _ _ _ _ Hi5 Hl5 E)|].
  apply bind_inv_Ret in E as ([] & s6 & E6 & E).
  pose proof (keeps_pset np (λ p, p_set_parent (Some c) (p_set_mem (p_sz cur) pgdir p)) (λ _, eq_refl) _ _ _ _ E6) as K6.
  apply bind_inv_Ret in E as (n & s7 & E7 & E). rewrite (keeps_pat id _ _ _ _ _ E7 : s7 = s6) in *.
  apply bind_inv_Ret in E as ([] & s8 & E8 & E). pose proof (km_fdv _ _ _ _ _ E8) as K8.
  apply bind_inv_Ret in E as ([] & s9 & E9 & E). pose proof (km_fdv _ _ _ _ _ E9) as K9. rewrite K8, K6 in K9.
  apply bind_inv_Ret in E as ([] & s10 & E10 & E).
  destruct (fork_fds_fd np (p_ofile cur) (Z.to_nat NOFILE) 0 pid s9 s10 no_fds (rest_fdv _ _ K9 Hi5) (fds_at_fdv _ _ _ _ K9 Hl5))
    as [Hi10 _]; [done|done|intros; by apply lookup_replicate_2|exact E10|].
  exact (fork_end_fd _ _ _ _ _ _ _ Hi10 E).
Qed.

End fdfork.

(** ** exit and wait *)

Section fdexit.
Context {D : Type} `{DiskFlush D}.
Context (kend : Z).
Implicit Types (s : kstate D).

Lemma exit_fd_fd c k pid s s' l :
  fd_rest s → fds_at c l s → exit_fd kend c k pid s = Ret tt s' → fd_rest s' ∧ fds_at c (<[k := None]> l) s'.
Proof.
  intros Hi Hl. unfold exit_fd. intros (p & s1 & E1 & E)%bind_inv_Ret. unfold pat in E1. rewrite (bind_Ret get _ pid s s s eq_refl) in E1.
  destruct (k_proc s !! c) as [q|] eqn:Hp; [|done]. injection E1 as -> <-.
  pose proof Hl as Hl'. unfold fds_at in Hl'. rewrite list_lookup_fmap, Hp in Hl'. injection Hl' as Ho Hst. rewrite Ho in E.
  destruct (l !! k) as [[f|]|] eqn:Ek.
  2:{ injection E as <-. split; [done|]. by rewrite list_insert_id. }
  2:{ injection E as <-. split; [done|]. rewrite list_insert_ge; [done|]. by apply lookup_ge_None. }
  apply bind_inv_Ret in E as ([] & s2 & E2 & E). destruct (fileclose_fd _ _ _ _ _ _ _ Hi E2) as (Hi2 & Hp2 & _).
  rewrite (pset_inv _ _ _ _ _ E). assert ((pfd <$> k_proc s2) !! c = Some (l, false)) as Hl2 by (by rewrite Hp2).
  rewrite list_lookup_fmap in Hl2. destruct (k_proc s2 !! c) as [q|] eqn:Hq; [|done]. injection Hl2 as Ho2 Hst2.
  pose proof (fc_len _ _ _ _ (fd_count _ _ _ _ _ Hi) c (pfd p) ltac:(by rewrite list_lookup_fmap, Hp)) as Hlen. simpl in Hlen. rewrite Ho in Hlen.
  split.
  - eapply pset_fd; [exact Hi2|exact Hq|..]; simpl; rewrite ?Ho2; rewrite ?length_insert; try done.
    + by rewrite Hst2.
    + intros h Hh. left. apply list_elem_of_lookup_1 in Hh as [m Hh]. destruct (decide (m = k)) as [->|].
      * rewrite list_lookup_insert_eq in Hh by (by eapply lookup_lt_Some). done.
      * rewrite list_lookup_insert_ne in Hh by done. by eapply list_elem_of_lookup_2.
    + intros h. rewrite (nref_insert h l k (Some f)) by done. unfold bump. repeat case_decide; naive_solver lia.
  - unfold fds_at. simpl. rewrite list_lookup_fmap, list_lookup_alter_eq, Hq. simpl. unfold pfd. simpl. by rewrite Ho2, Hst2.
Qed.

Lemma exit_fds_fd c n : ∀ k pid s s' l,
  fd_rest s → fds_at c l s → length l = (k + n)%nat → (∀ m, (m < k)%nat → l !! m = Some None) →
  forM (seq k n) (exit_fd kend c) pid s = Ret tt s' → fd_rest s' ∧ fds_at c (replicate (k + n) None) s'.
Proof.
  induction n as [|n IH]; intros k pid s s' l Hi Hl Hlen Hm; cbn [seq forM].
  - intros [= <-]. split; [done|]. replace (replicate (k + 0) None) with l; [done|]. apply list_eq. intros m.
    destruct (decide (m < k)%nat); [rewrite Hm by done; symmetry; apply lookup_replicate_2; lia|].
    rewrite !lookup_ge_None_2; rewrite ?length_replicate; lia || done.
  - intros ([] & s1 & E1 & E)%bind_inv_Ret. destruct (exit_fd_fd _ _ _ _ _ _ Hi Hl E1) as [Hi1 Hl1].
    replace (k + S n)%nat with (S k + n)%nat by lia. eapply IH; [exact Hi1|exact Hl1| | |exact E].
    + rewrite length_insert. lia.
    + intros m Hk. destruct (decide (m = k)) as [->|]; [by apply list_lookup_insert_eq; lia|].
      rewrite list_lookup_insert_ne by done. apply Hm. lia.
Qed.

Lemma keeps_reparent c i : keeps fdv (reparent (D := D) c i).
Proof. unfold reparent. keeps. by apply keeps_pset. Qed.

Lemma exit_run_fd pid s s' : fd_rest s → exit_run kend pid s = Ret tt s' → fd_rest s'.
Proof.
  intros Hi. unfold exit_run. intros (c & s1 & E1 & E)%bind_inv_Ret. rewrite (keeps_myproc id _ _ _ _ E1 : s1 = s) in *.
  assert (∃ p, current pid s c p) as [p Hc].
  { unfold myproc in E1. rewrite (bind_Ret mypid _ pid s pid s eq_refl), (bind_Ret get _ pid s s s eq_refl) in E1. unfold current.
    destruct (list_find _ _) as [[j q]|]; [|done]. injection E1 as -> _. by exists q. }
  destruct (current_lookup _ _ _ _ Hc) as (Hp & _ & Hrun). rewrite (bind_Ret get _ pid s s s eq_refl) in E.
  destruct (bool_decide _); [done|]. apply bind_inv_Ret in E as ([] & s2 & E2 & E).
  assert (fds_at c (p_ofile p) s) as Hl.
  { unfold fds_at. rewrite list_lookup_fmap, Hp. simpl. unfold pfd. by rewrite Hrun. }
  destruct (exit_fds_fd c (Z.to_nat NOFILE) 0 pid s s2 (p_ofile p) Hi Hl) as [Hi2 Hl2]; [|lia|exact E2|].
  { by apply (fc_len _ _ _ _ (fd_count _ _ _ _ _ Hi) c (pfd p)); rewrite list_lookup_fmap, Hp. }
  rewrite Nat.add_0_l in Hl2. assert (∃ s3, fdv s3 = fdv s2 ∧ exit_table c pid s3 = Ret tt s') as (s3 & K3 & E3).
  { apply bind_inv_Ret in E as ([] & t1 & F1 & E). pose proof (keeps_k_begin_op _ _ _ _ F1) as K1.
    rewrite (bind_Ret mypid _ pid t1 pid t1 eq_refl), (bind_Ret get _ pid t1 t1 t1 eq_refl) in E.
    apply bind_inv_Ret in E as ([] & t2 & F2 & E). assert (fdv t2 = fdv t1) as K2.
    { destruct (f_cwd _ _); [exact (fs_fdv _ _ _ _ _ F2)|done]. }
    apply bind_inv_Ret in E as ([] & t3 & F3 & E). pose proof (keeps_k_end_op _ _ _ _ F3) as K3.
    apply bind_inv_Ret in E as ([] & t4 & F4 & E). pose proof (fs_fdv _ _ _ _ _ F4) as K4.
    exists t4. split; [congruence|done]. }
  unfold exit_table in E3. apply bind_inv_Ret in E3 as (q & s4 & E4 & E3). rewrite (keeps_pat id _ _ _ _ _ E4 : s4 = s3) in *.
  apply bind_inv_Ret in E3 as ([] & s5 & E5 & E3). pose proof (keeps_wakeup1 _ _ _ _ _ E5) as K5.
  rewrite (bind_Ret get _ pid s5 s5 s5 eq_refl) in E3. apply bind_inv_Ret in E3 as ([] & s6 & E6 & E3).
  pose proof (keeps_forM fdv _ _ (keeps_reparent c) _ _ _ _ E6) as K6. rewrite K5, K3 in K6.
  eapply pset_state_fd; [exact (rest_fdv _ _ K6 Hi2)|exact (fds_at_fdv _ _ _ _ K6 Hl2)|exact E3].
Qed.

(** The entry of an exited child is given back. *)
Lemma wait_fd pid s r s' : fd_rest s → wait kend pid s = Ret r s' → fd_rest s'.
Proof.
  intros Hi. unfold wait. intros (c & s1 & E1 & E)%bind_inv_Ret. rewrite (keeps_myproc id _ _ _ _ E1 : s1 = s) in *.
  rewrite (bind_Ret get _ pid s s s eq_refl) in E. destruct (list_find _ _) as [[i p]|] eqn:El.
  - apply list_find_Some in El as (Hp & [_ Hz] & _). apply bind_inv_Ret in E as ([] & s2 & E2 & E). pose proof (km_fdv _ _ _ _ _ E2) as K2.
    apply bind_inv_Ret in E as ([] & s3 & E3 & E). pose proof (keeps_pset i (p_set_kstack 0) (λ _, eq_refl) _ _ _ _ E3) as K3.
    apply bind_inv_Ret in E as ([] & s4 & E4 & E). pose proof (km_fdv _ _ _ _ _ E4) as K4. rewrite K3, K2 in K4.
    apply bind_inv_Ret in E as ([] & s5 & E5 & E). injection E as _ <-. rewrite (pset_inv _ _ _ _ _ E5).
    pose proof (rest_fdv _ _ K4 Hi) as Hi4. destruct (fdv_eq _ _ K4) as (_ & Ep & _).
    assert ((pfd <$> k_proc s4) !! i = Some (pfd p)) as Hq by (by rewrite Ep, list_lookup_fmap, Hp).
    rewrite list_lookup_fmap in Hq. destruct (k_proc s4 !! i) as [q|] eqn:Hq4; [|done]. injection Hq as Ho Hst.
    assert (pfd q = pfd p) as Epq by (unfold pfd; by rewrite Ho, Hst).
    assert ((pfd <$> k_proc s4) !! i = Some (pfd q)) as Hqq by (by rewrite list_lookup_fmap, Hq4).
    eapply pset_fd; [exact Hi4|exact Hq4|..]; simpl; [|intros _|intros; by left|intros; lia].
    + exact (fc_len _ _ _ _ (fd_count _ _ _ _ _ Hi4) i _ Hqq).
    + apply (fc_closed _ _ _ _ (fd_count _ _ _ _ _ Hi4) i _ Hqq). rewrite Epq. unfold pfd. simpl. by rewrite Hz.
  - apply bind_inv_Ret in E as (cur & s2 & E2 & E). rewrite (keeps_pat id _ _ _ _ _ E2 : s2 = s) in *.
    destruct (_ || _); [by injection E as _ <-|]. unfold sleep in E. apply bind_inv_Ret in E as (? & ? & _ & E).
    by apply bind_inv_Ret in E as (? & ? & _ & E).
Qed.

End fdexit.

(** ** Every call *)

Section fdreach.
Context {D : Type} `{DiskFlush D}.
Context (devsw_read : Z → option (Z → M (fstate D) (Z * list Z))).
Context (devsw_write : Z → option (list Z → M (fstate D) Z)).
Context (kend kdata trapret forkret_addr : Z) (initcode : list Z).
Implicit Types (s : kstate D).

(** Code that changes neither the files nor the descriptors, and no pipe but
    for its data: the scheduler, the file system, the memory, a call that goes
    to sleep in a pipe. *)
Definition fd_same s s' : Prop :=
  k_ftable s' = k_ftable s ∧ pfd <$> k_proc s' = pfd <$> k_proc s ∧
  ∀ a, match k_pipes s !! a, k_pipes s' !! a with
       | Some q, Some q' => ∀ w, pend w q' = pend w q
       | None, None => True
       | _, _ => False
       end.

(** The calls that touch descriptors, and [userinit], which makes the first
    process. *)
Inductive fd_call := CUserinit | CDup | CClose | COpen | CPipe | CRead | CWrite | CFork | CExit | CWait.

Definition fd_do (c : fd_call) : M (kstate D) Z :=
  match c with
  | CUserinit => userinit devsw_read kend kdata trapret forkret_addr initcode ;; mret 0
  | CDup => sys_dup
  | CClose => sys_close kend
  | COpen => sys_open devsw_read devsw_write kend
  | CPipe => sys_pipe kend
  | CRead => sys_read devsw_read
  | CWrite => sys_write devsw_write
  | CFork => fork kend kdata trapret forkret_addr
  | CExit => exit_run kend ;; mret 0
  | CWait => wait kend
  end.

(** The tables as the kernel starts. *)
Definition fd_boot s : Prop :=
  k_ftable s = replicate (Z.to_nat NFILE) file_zero ∧ k_proc s = replicate (Z.to_nat NPROC) proc_zero ∧ k_pipes s = ∅.

Lemma userinit_fd pid s s' : fd_rest s → userinit devsw_read kend kdata trapret forkret_addr initcode pid s = Ret tt s' → fd_rest s'.
Proof.
  intros Hi. unfold userinit. intros (o & s1 & E1 & E)%bind_inv_Ret. destruct (allocproc_fd _ _ _ _ _ _ Hi E1) as [Hi1 _].
  apply bind_inv_Ret in E as ([] & s2 & E2 & E). assert (fd_rest s2) as Hi2 by (by injection E2 as <-).
  destruct o as [i|]; [|done].
  refine ((_ : hoare pid fd_rest _ (λ _ : unit, fd_rest)) s2 tt s' Hi2 E).
  repeat (intros; first
    [ solve [apply rest_hoare; keeps] | solve [apply rest_hoare, keeps_pset; done]
    | intros ? [] ? ? ?; by eapply pset_runnable_fd | apply keeps_inv_bind | case_match ]).
Qed.

Lemma same_rest s s' : fd_same s s' → fd_rest s → fd_rest s'.
Proof.
  intros (E1 & E2 & E3) Hi. split; [rewrite E1, E2; apply Hi|]. rewrite E1. destruct (fd_pipes _ _ _ _ _ Hi) as [H1 H2 H3 H4]. split.
  - intros f a w Hf. destruct (H1 f a w Hf) as [q Hq]. specialize (E3 a). rewrite Hq in E3. by destruct (k_pipes s' !! a).
  - intros a q w Hq. specialize (E3 a). rewrite Hq in E3. destruct (k_pipes s !! a) as [q0|] eqn:E0; [|done]. rewrite E3. by apply H2.
  - done.
  - intros a q Hq. specialize (E3 a). rewrite Hq in E3. destruct (k_pipes s !! a) as [q0|] eqn:E0; [|done].
    destruct (H4 a q0 E0) as [w Hw]. exists w. by rewrite E3.
Qed.

Lemma boot_rest s : fd_boot s → fd_rest s.
Proof.
  intros (E1 & E2 & E3). split; [split|]; rewrite ?E1, ?E2, ?E3, ?fmap_replicate.
  - intros i p [-> _]%lookup_replicate. done.
  - intros i p [-> _]%lookup_replicate. done.
  - intros f (i & p & [-> _]%lookup_replicate & Hf)%all_fds_elem. by apply elem_of_replicate in Hf as [? _].
  - intros f x [-> _]%lookup_replicate. rewrite nref_none; [done|].
    intros (i & p & [-> _]%lookup_replicate & Hf)%all_fds_elem. by apply elem_of_replicate in Hf as [? _].
  - intros f x [-> _]%lookup_replicate. done.
  - intros f x [-> _]%lookup_replicate. done.
  - split; try done; [intros f a w [? _]%lookup_replicate|intros a w f g [? _]%lookup_replicate]; done.
Qed.

Lemma fd_do_rest c pid s r s' :
  fd_rest s → (c = CPipe → pipe_fresh pid s) → fd_do c pid s = Ret r s' → fd_rest s'.
Proof.
  intros Hi Hf. destruct c; cbn [fd_do].
  - intros ([] & s1 & E & [= _ <-])%bind_inv_Ret. by eapply userinit_fd.
  - by apply sys_dup_fd.
  - by apply sys_close_fd.
  - by apply sys_open_fd.
  - by apply sys_pipe_fd, Hf.
  - by apply sys_read_fd.
  - by apply sys_write_fd.
  - by apply fork_keeps_fd.
  - intros ([] & s1 & E & [= _ <-])%bind_inv_Ret. by eapply exit_run_fd.
  - by apply wait_fd.
Qed.

Lemma all_ofiles s : all_fds (pfd <$> k_proc s) = k_proc s ≫= p_ofile.
Proof.
  unfold all_fds. induction (k_proc s) as [|p l IH]; [done|]. cbn [fmap list_fmap mbind list_bind]. f_equal. exact IH.
Qed.

(** C13. References are counted.  The tables are counted as the kernel starts;
    and whenever they are counted, each of [userinit], [dup], [close], [open],
    [pipe], [read], [write], [fork], [exit] and [wait] that runs to its end
    leaves them counted, and so does everything that leaves descriptors and
    files alone.  Counted means: the reference count of a file is the number of
    descriptors of all processes that name it; every descriptor is one of a
    live process and names a file in use with a type, and one of a pipe whose
    end is open; a pipe that has not been freed has a file.  For [pipe] it is
    assumed that [kalloc] does not hand out the page of a pipe in use.  The
    calls run one after the other: while [exit] is asleep in [fileclose] its
    table still names the file it has given up, and such a moment inside a
    call is not described. *)
Theorem descriptors_counted pid c s r s' :
  fd_rest s → (c = CPipe → pipe_fresh pid s) → fd_do c pid s = Ret r s' →
  fd_rest s' ∧ (∀ s0, fd_boot s0 → fd_rest s0) ∧ (∀ t, fd_same s' t → fd_rest t) ∧
  (∀ f x, k_ftable s' !! f = Some x → fl_ref x = nref f (k_proc s' ≫= p_ofile)) ∧
  (∀ i p fd f, k_proc s' !! i = Some p → p_ofile p !! fd = Some (Some f) →
     p_state p ≠ UNUSED ∧ p_state p ≠ ZOMBIE ∧
     ∃ x, k_ftable s' !! f = Some x ∧ 1 ≤ fl_ref x ∧ fl_type x ≠ FD_NONE ∧
       (fl_type x = FD_PIPE → ∃ q, k_pipes s' !! fl_pipe x = Some q ∧ pend (negb (fl_writable x =? 0)) q ≠ 0)) ∧
  (∀ a q, k_pipes s' !! a = Some q → ∃ f x, k_ftable s' !! f = Some x ∧ fl_type x = FD_PIPE ∧ fl_pipe x = a ∧ 1 ≤ fl_ref x).
Proof.
  intros Hi Hf E. pose proof (fd_do_rest _ _ _ _ _ Hi Hf E) as Hi'. split; [done|].
  split; [apply boot_rest|]. split; [intros t Ht; by eapply same_rest|].
  assert (∀ f x, k_ftable s' !! f = Some x → fl_ref x = nref f (k_proc s' ≫= p_ofile)) as Href.
  { intros f x Hx. pose proof (fc_refs _ _ _ _ (fd_count _ _ _ _ _ Hi') f x Hx) as Er. cbv beta in Er. rewrite all_ofiles in Er. lia. }
  split; [done|]. split; [intros; by eapply fds_named|intros; by eapply pipes_named].
Qed.

End fdreach.

(** ** An example

    The process of [sc_kernel] with descriptor 1 open on a file of its own, and
    1 as its first argument. *)
Definition fd_mem : mem := store32 0x80402068 1 sc_mem.
Definition fd_proc : proc := p_set_ofile (<[1%nat := Some 0%nat]> (replicate 16 None)) sc_proc.
Definition fd_file (n : Z) : file := mk_file FD_INODE n 1 0 0 None 0.
Definition fd_kernel : kstate ide_state :=
  mk_kstate sc_fs [fd_file 1; file_zero] (mk_kmem fd_mem 0 0) ∅ [fd_proc; proc_zero] 2 None 0.

Lemma fd_kernel_rest : fd_rest fd_kernel.
Proof.
  split; [split|].
  - intros i p Hp. destruct i as [|[|i]]; simplify_eq/=; done.
  - intros i p Hp. destruct i as [|[|i]]; simplify_eq/=; done.
  - intros f Hf. assert (f = 0%nat) as ->; [|simpl; lia].
    assert (Forall (λ o : option nat, ∀ g, o = Some g → g = 0%nat) (all_fds (pfd <$> k_proc fd_kernel))) as Ha.
    { cbn. repeat constructor; intros g Hg; by simplify_eq. }
    rewrite Forall_forall in Ha. exact (Ha (Some f) Hf f eq_refl).
  - intros f x Hx. destruct f as [|[|f]]; simplify_eq/=; by vm_compute.
  - intros f x Hx. destruct f as [|[|f]]; simplify_eq/=; done.
  - intros f x Hx. destruct f as [|[|f]]; simplify_eq/=; done.
  - split; try done.
    + intros f a w Hf. destruct f as [|[|f]]; simplify_eq/=; done.
    + intros a w f g Hf. destruct f as [|[|f]]; simplify_eq/=; done.
Qed.

(** [dup] gives the file a second descriptor. *)
Lemma descriptors_counted_witness :
  ∃ s' : kstate ide_state, sys_dup 1 fd_kernel = Ret 0 s' ∧ k_ftable s' = [fd_file 2; file_zero] ∧
    ∀ f x, k_ftable s' !! f = Some x → fl_ref x = nref f (k_proc s' ≫= p_ofile).
Proof.
  set (s' := k_set_ftable [fd_file 2; file_zero]
    (k_set_proc [p_set_ofile (<[0%nat := Some 0%nat]> (p_ofile fd_proc)) fd_proc; proc_zero] fd_kernel)).
  assert (sys_dup 1 fd_kernel = Ret 0 s') as E by (vm_compute; reflexivity).
  exists s'. split; [exact E|]. split; [reflexivity|].
  destruct (descriptors_counted (λ _, None) (λ _, None) 0 0 0 0 [] 1 CDup fd_kernel 0 s' fd_kernel_rest) as (_ & _ & _ & Hr & _);
    [discriminate|exact E|]. exact Hr.
Defined.
