(* ===== verification/ProcTree.v ===== *)
(** * The process tree, exit and wait

    Every process but the first has a living parent, so that its exit will be
    collected; and a parent that sleeps in [wait] has no exited child, so that
    no exit is missed.  The steps are the sections of proc.c that hold
    [ptable.lock], and [fork]. *)

From S2P Require Import Prelude Layout Sleeplock Disk Ide Bio Crc32 Log LogReserve CString Mem Kalloc Vm Pipe Fs Kernel File Syscall Exec Sysfile Proc FdInv FdCalls FdProc.

Set Default Proof Using "Type".

(** Living: it has been created and has not exited. *)
Definition alive (p : proc) : Prop := p_state p ≠ UNUSED ∧ p_state p ≠ ZOMBIE.

Record tree_ok (ini : nat) (l : list proc) : Prop := mk_tree_ok {
  tr_init : ∃ p, l !! ini = Some p ∧ alive p ∧ p_parent p = None;
  tr_parent : ∀ i p q, l !! i = Some p → p_parent p = Some q → q ≠ i ∧ ∃ pq, l !! q = Some pq ∧ alive pq;
  tr_unused : ∀ i p, l !! i = Some p → p_state p = UNUSED → p_parent p = None;
  tr_orphan : ∀ i p, l !! i = Some p → p_state p ≠ UNUSED → i ≠ ini → p_parent p ≠ None;
  tr_wait : ∀ i p q, l !! i = Some p → p_state p = SLEEPING → p_chan p = Some (ChProc q) →
    q = i ∧ ∀ j c, l !! j = Some c → ¬ zombie_child i c;
}.

(** One entry after some wakeups. *)
Definition awoken (p p' : proc) : Prop :=
  p_parent p' = p_parent p ∧ p_chan p' = p_chan p ∧
  (p_state p' = p_state p ∨ (p_state p = SLEEPING ∧ p_state p' = RUNNABLE)).

#[global] Instance awoken_po : PreOrder awoken.
Proof.
  split; [intros p; unfold awoken; naive_solver|].
  intros p q r (H1 & H2 & H3) (H4 & H5 & H6). unfold awoken. split_and!; [congruence..|]. destruct H3 as [E|[E1 E2]], H6 as [F|[F1 F2]]; naive_solver congruence.
Qed.

Lemma awoken_wake c p : awoken p (wake c p).
Proof. unfold wake. destruct (bool_decide (p_state p = SLEEPING)) eqn:E; [|done]. apply bool_decide_eq_true in E. destruct (bool_decide _); [|done]. split_and!; simpl; naive_solver. Qed.

Lemma awoken_alive p p' : awoken p p' → alive p' ↔ alive p.
Proof. intros (_ & _ & [E|[E1 E2]]); unfold alive; rewrite ?E, ?E1, ?E2; naive_solver. Qed.

Lemma awoken_zombie p p' : awoken p p' → p_state p' = ZOMBIE ↔ p_state p = ZOMBIE.
Proof. intros (_ & _ & [E|[E1 E2]]); rewrite ?E, ?E1, ?E2; naive_solver. Qed.
Lemma awoken_unused p p' : awoken p p' → p_state p' = UNUSED ↔ p_state p = UNUSED.
Proof. intros (_ & _ & [E|[E1 E2]]); rewrite ?E, ?E1, ?E2; naive_solver. Qed.
Lemma awoken_sleeping p p' : awoken p p' → p_state p' = SLEEPING → p_state p = SLEEPING.
Proof. intros (_ & _ & [E|[E1 E2]]); rewrite ?E, ?E1, ?E2; naive_solver. Qed.

(** One entry while its process is scheduled, woken or put to sleep on a
    channel other than that of [wait]. *)
Definition moved (p p' : proc) : Prop :=
  p_parent p' = p_parent p ∧ (p_state p' = UNUSED ↔ p_state p = UNUSED) ∧ (p_state p' = ZOMBIE ↔ p_state p = ZOMBIE) ∧
  ∀ q, p_state p' = SLEEPING → p_chan p' = Some (ChProc q) → p_state p = SLEEPING ∧ p_chan p = Some (ChProc q).

Lemma awoken_moved p p' : awoken p p' → moved p p'.
Proof.
  intros A. split_and!; [apply A|by apply awoken_unused|by apply awoken_zombie|]. intros q Hs Hc.
  split; [by eapply awoken_sleeping|by rewrite <- (proj1 (proj2 A))].
Qed.

Lemma moved_alive p p' : moved p p' → alive p' ↔ alive p.
Proof. intros (_ & E1 & E2 & _). unfold alive. by rewrite E1, E2. Qed.

Lemma tree_moved ini l l' : tree_ok ini l → Forall2 moved l l' → tree_ok ini l'.
Proof.
  intros [H1 H2 H3 H4 H5] Hw.
  assert (∀ i p', l' !! i = Some p' → ∃ p, l !! i = Some p ∧ moved p p') as Hb by (intros i p'; apply (Forall2_lookup_r _ _ _ _ _ Hw)).
  assert (∀ i p, l !! i = Some p → ∃ p', l' !! i = Some p' ∧ moved p p') as Hf by (intros i p; apply (Forall2_lookup_l _ _ _ _ _ Hw)).
  split.
  - destruct H1 as (p & Hp & Ha & Hn). destruct (Hf _ _ Hp) as (p' & Hp' & A). exists p'. rewrite (moved_alive _ _ A). split_and!; try done.
    by rewrite (proj1 A).
  - intros i p' q Hi Hq. destruct (Hb _ _ Hi) as (p & Hp & A). rewrite (proj1 A) in Hq. destruct (H2 i p q Hp Hq) as (Hne & pq & Hpq & Ha).
    split; [done|]. destruct (Hf _ _ Hpq) as (pq' & Hpq' & A'). exists pq'. by rewrite (moved_alive _ _ A').
  - intros i p' Hi Hu. destruct (Hb _ _ Hi) as (p & Hp & A). rewrite (proj1 A). apply (H3 i p Hp). by apply A.
  - intros i p' Hi Hu. destruct (Hb _ _ Hi) as (p & Hp & A). rewrite (proj1 A). apply (H4 i p Hp). intros Hun. by apply Hu, A.
  - intros i p' q Hi Hs Hc. destruct (Hb _ _ Hi) as (p & Hp & A). destruct (proj2 (proj2 (proj2 A)) q Hs Hc) as [Hs' Hc'].
    destruct (H5 i p q Hp Hs' Hc') as [-> Hz].
    split; [done|]. intros j c' Hj [Hch Hzo]. destruct (Hb _ _ Hj) as (c & Hcj & A'). apply (Hz j c Hcj). split.
    + unfold child_of in *. by rewrite <- (proj1 A').
    + by apply A'.
Qed.

(** Wakeups keep the tree. *)
Lemma tree_awoken ini l l' : tree_ok ini l → Forall2 awoken l l' → tree_ok ini l'.
Proof. intros Ht Hw. apply (tree_moved ini l); [done|]. eapply Forall2_impl; [exact Hw|]. apply awoken_moved. Qed.

(** What the tree depends on. *)
Definition pt (p : proc) : procstate * option nat * option channel := (p_state p, p_parent p, p_chan p).

Lemma tree_pt ini l l' : pt <$> l' = pt <$> l → tree_ok ini l → tree_ok ini l'.
Proof.
  intros E Ht. apply (tree_awoken ini l); [done|]. apply Forall2_same_length_lookup_2.
  - rewrite <- (length_fmap pt l), <- E. by rewrite length_fmap.
  - intros i p p' Hp Hp'. assert ((pt <$> l') !! i = (pt <$> l) !! i) as El by (by rewrite E).
    rewrite !list_lookup_fmap, Hp, Hp' in El. injection El as E1 E2 E3. split_and!; [done|done|by left].
Qed.

(** ** One entry changes *)

Section entry.
Context (ini : nat) (l : list proc) (i : nat) (p p' : proc).
Context (Ht : tree_ok ini l) (Hp : l !! i = Some p).

Lemma insert_inv j c : <[i := p']> l !! j = Some c → (j = i ∧ c = p') ∨ (j ≠ i ∧ l !! j = Some c).
Proof using Hp.
  destruct (decide (j = i)) as [->|]; [|rewrite list_lookup_insert_ne by done; naive_solver].
  rewrite list_lookup_insert_eq by (by eapply lookup_lt_Some). naive_solver.
Qed.
Lemma insert_other j c : j ≠ i → l !! j = Some c → <[i := p']> l !! j = Some c.
Proof. intros. by rewrite list_lookup_insert_ne. Qed.
Lemma insert_self : <[i := p']> l !! i = Some p'.
Proof using Hp. apply list_lookup_insert_eq. by eapply lookup_lt_Some. Qed.

(** The state changes without creation, exit or reaping. *)
Lemma tree_update :
  p_parent p' = p_parent p → (p_state p' = UNUSED ↔ p_state p = UNUSED) → (p_state p' = ZOMBIE ↔ p_state p = ZOMBIE) →
  (∀ q, p_state p' = SLEEPING → p_chan p' = Some (ChProc q) → q = i ∧ ∀ j c, l !! j = Some c → ¬ zombie_child i c) →
  tree_ok ini (<[i := p']> l).
Proof using Ht Hp.
  intros Epar Eun Ezo Hwait. destruct Ht as [H1 H2 H3 H4 H5].
  assert (alive p' ↔ alive p) as Eal by (unfold alive; by rewrite Eun, Ezo).
  assert (∀ q pq, l !! q = Some pq → alive pq → ∃ pq', <[i := p']> l !! q = Some pq' ∧ alive pq' ∧ p_parent pq' = p_parent pq) as Hal.
  { intros q pq Hq Ha. destruct (decide (q = i)) as [->|]; [|exists pq; split; [by apply insert_other|done]].
    exists p'. rewrite insert_self, Eal. simplify_eq. done. }
  split.
  - destruct H1 as (q & Hq & Ha & Hn). destruct (Hal _ _ Hq Ha) as (q' & ? & ? & E). exists q'. split_and!; congruence || done.
  - intros j c q [[-> ->]|[Hj Hc]]%insert_inv Hq; [rewrite Epar in Hq; destruct (H2 i p q Hp Hq) as (? & pq & Hpq & Ha)|
      destruct (H2 j c q Hc Hq) as (? & pq & Hpq & Ha)]; (split; [done|]); destruct (Hal _ _ Hpq Ha) as (q' & ? & ? & _); by exists q'.
  - intros j c [[-> ->]|[Hj Hc]]%insert_inv Hu; [rewrite Epar; by apply (H3 i p), Eun|by eapply H3].
  - intros j c [[-> ->]|[Hj Hc]]%insert_inv Hu; [rewrite Epar; apply (H4 i p Hp); by rewrite <- Eun|by eapply H4].
  - assert (∀ k j c, (∀ j c, l !! j = Some c → ¬ zombie_child k c) → <[i := p']> l !! j = Some c → ¬ zombie_child k c) as Hzc.
    { intros k j c Hz [[-> ->]|[Hj Hc]]%insert_inv; [|by eapply Hz]. intros [Hch Hs]. apply (Hz i p Hp).
      split; [unfold child_of in *; by rewrite <- Epar|by apply Ezo]. }
    intros j c q [[-> ->]|[Hj Hc]]%insert_inv Hs Hch; [destruct (Hwait q Hs Hch) as [-> Hz]|destruct (H5 j c q Hc Hs Hch) as [-> Hz]];
      (split; [done|]); intros; by eapply Hzc.
Qed.

(** A process is created. *)
Lemma tree_create c pc :
  l !! c = Some pc → alive pc → p_state p = UNUSED → p_parent p' = Some c → alive p' → p_state p' ≠ SLEEPING → tree_ok ini (<[i := p']> l).
Proof using Ht Hp.
  intros Hc Hal Hun Hpar Hal' Hns. destruct Ht as [H1 H2 H3 H4 H5].
  assert (∀ q pq, l !! q = Some pq → alive pq → q ≠ i) as Hne.
  { intros q pq Hq Ha ->. simplify_eq. by destruct Ha. }
  split.
  - destruct H1 as (q & Hq & Ha & Hn). exists q. split; [|done]. apply insert_other; [by eapply Hne|done].
  - intros j d q [[-> ->]|[Hj Hd]]%insert_inv Hq.
    + rewrite Hpar in Hq. injection Hq as <-. split; [by eapply Hne|]. exists pc. split; [|done]. apply insert_other; [by eapply Hne|done].
    + destruct (H2 j d q Hd Hq) as (? & pq & Hpq & Ha). split; [done|]. exists pq. split; [|done]. apply insert_other; [by eapply Hne|done].
  - intros j d [[-> ->]|[Hj Hd]]%insert_inv Hu; [by destruct Hal'|by eapply H3].
  - intros j d [[-> ->]|[Hj Hd]]%insert_inv Hu; [by rewrite Hpar|by eapply H4].
  - intros j d q [[-> ->]|[Hj Hd]]%insert_inv Hs Hch; [done|]. destruct (H5 j d q Hd Hs Hch) as [-> Hz]. split; [done|].
    intros k e [[-> ->]|[Hk He]]%insert_inv; [intros [_ Hzz]; by destruct Hal'|by eapply Hz].
Qed.

(** The entry of an exited process is given back. *)
Lemma tree_reap : p_state p = ZOMBIE → p_state p' = UNUSED → p_parent p' = None → tree_ok ini (<[i := p']> l).
Proof using Ht Hp.
  intros Hzo Hun Hpar. destruct Ht as [H1 H2 H3 H4 H5].
  assert (∀ q pq, l !! q = Some pq → alive pq → q ≠ i) as Hne.
  { intros q pq Hq Ha ->. simplify_eq. by destruct Ha. }
  split.
  - destruct H1 as (q & Hq & Ha & Hn). exists q. split; [|done]. apply insert_other; [by eapply Hne|done].
  - intros j d q [[-> ->]|[Hj Hd]]%insert_inv Hq; [congruence|].
    destruct (H2 j d q Hd Hq) as (? & pq & Hpq & Ha). split; [done|]. exists pq. split; [|done]. apply insert_other; [by eapply Hne|done].
  - intros j d [[-> ->]|[Hj Hd]]%insert_inv Hu; [done|by eapply H3].
  - intros j d [[-> ->]|[Hj Hd]]%insert_inv Hu; [done|by eapply H4].
  - intros j d q [[-> ->]|[Hj Hd]]%insert_inv Hs Hch; [congruence|]. destruct (H5 j d q Hd Hs Hch) as [-> Hz]. split; [done|].
    intros k e [[-> ->]|[Hk He]]%insert_inv; [intros [_ Hzz]; congruence|by eapply Hz].
Qed.

End entry.

(** ** Exit *)

(** The new parent of a process with parent [o]. *)
Definition adopt (c ini : nat) (o : option nat) : option nat := if decide (o = Some c) then Some ini else o.

(** The table after the children of [c] below [k] have been passed to [ini]. *)
Record passed (c ini k : nat) (l l' : list proc) : Prop := mk_passed {
  ps_len : length l' = length l;
  ps_entry : ∀ i p p', l !! i = Some p → l' !! i = Some p' →
    p_chan p' = p_chan p ∧ (p_state p' = p_state p ∨ (p_state p = SLEEPING ∧ p_state p' = RUNNABLE)) ∧
    p_parent p' = if decide (i < k)%nat then adopt c ini (p_parent p) else p_parent p;
  ps_woken : ∀ i p' j q, l' !! i = Some p' → p_state p' = SLEEPING → p_chan p' = Some (ChProc ini) →
    (j < k)%nat → l !! j = Some q → ¬ zombie_child c q;
}.

Lemma passed_zero c ini l : passed c ini 0 l l.
Proof.
  split; [done| |lia]. intros i p p' H1 H2. simplify_eq. rewrite decide_False by lia. naive_solver.
Qed.

Lemma passed_wake c ini k l l' ch : passed c ini k l l' → passed c ini k l (wake ch <$> l').
Proof.
  intros [H1 H2 H3]. split; [by rewrite length_fmap| |].
  - intros i p p' Hp Hp'. rewrite list_lookup_fmap in Hp'. destruct (l' !! i) as [p2|] eqn:E2; [|done]. injection Hp' as <-.
    destruct (H2 i p p2 Hp E2) as (Ec & Es & Epar). destruct (awoken_wake ch p2) as (A1 & A2 & A3). rewrite A1, A2. split_and!; try done.
    destruct Es as [Es|[Es1 Es2]], A3 as [A3|[A3 A4]]; naive_solver congruence.
  - intros i p' j q Hp'. rewrite list_lookup_fmap in Hp'. destruct (l' !! i) as [p2|] eqn:E2; [|done]. injection Hp' as <-.
    destruct (awoken_wake ch p2) as (A1 & A2 & A3). rewrite A2. intros Hs Hc. eapply H3; [exact E2| |done].
    by eapply (awoken_sleeping p2), Hs; split_and!.
Qed.

(** An entry that is no child. *)
Lemma passed_skip c ini k l l' p : passed c ini k l l' → l !! k = Some p → p_parent p ≠ Some c → passed c ini (S k) l l'.
Proof.
  intros [H1 H2 H3] Hp Hne. split; [done| |].
  - intros i q q' Hq Hq'. destruct (H2 i q q' Hq Hq') as (E1 & E2 & E3). split_and!; try done. rewrite E3.
    destruct (decide (i = k)) as [->|]; [|repeat case_decide; done || lia].
    simplify_eq. rewrite decide_False, decide_True by lia. unfold adopt. by rewrite decide_False.
  - intros i p' j q Hp' Hs Hc Hj Hq. destruct (decide (j = k)) as [->|]; [intros [Hch _]; simplify_eq; done|].
    eapply H3; try done. lia.
Qed.

(** A child. *)
Lemma passed_child c ini k l l' p p' :
  passed c ini k l l' → l !! k = Some p → l' !! k = Some p' → p_parent p = Some c →
  passed c ini (S k) l (let l2 := <[k := p_set_parent (Some ini) p']> l' in
    if decide (p_state p' = ZOMBIE) then wake (Some (ChProc ini)) <$> l2 else l2).
Proof.
  intros [H1 H2 H3] Hp Hp' Hpar. pose proof (lookup_lt_Some _ _ _ Hp') as Lk. cbv zeta.
  set (l2 := <[k := p_set_parent (Some ini) p']> l').
  assert (∀ i q q', l !! i = Some q → l2 !! i = Some q' → p_chan q' = p_chan q ∧
    (p_state q' = p_state q ∨ (p_state q = SLEEPING ∧ p_state q' = RUNNABLE)) ∧
    p_parent q' = if decide (i < S k)%nat then adopt c ini (p_parent q) else p_parent q) as He.
  { intros i q q' Hq Hq'. unfold l2 in Hq'. destruct (decide (i = k)) as [->|].
    - rewrite list_lookup_insert_eq in Hq' by done. injection Hq' as <-. simplify_eq. destruct (H2 k p p' Hp Hp') as (E1 & E2 & E3).
      rewrite decide_True by lia. unfold adopt. by rewrite decide_True.
    - rewrite list_lookup_insert_ne in Hq' by done. destruct (H2 i q q' Hq Hq') as (E1 & E2 & E3). split_and!; try done. rewrite E3.
      repeat case_decide; done || lia. }
  assert (∀ i q' j q, l2 !! i = Some q' → p_state q' = SLEEPING → p_chan q' = Some (ChProc ini) → (j < k)%nat → l !! j = Some q →
    ¬ zombie_child c q) as Hw.
  { intros i q' j q Hq' Hs Hc Hj Hq. unfold l2 in Hq'. destruct (decide (i = k)) as [->|].
    - rewrite list_lookup_insert_eq in Hq' by done. injection Hq' as <-. by eapply (H3 k p').
    - rewrite list_lookup_insert_ne in Hq' by done. by eapply (H3 i q'). }
  destruct (H2 k p p' Hp Hp') as (_ & Est & _). case_decide as Hz.
  - apply mk_passed.
    + unfold l2. by rewrite length_fmap, length_insert.
    + intros i q q' Hq Hq'. rewrite list_lookup_fmap in Hq'. destruct (l2 !! i) as [q2|] eqn:E2; [|done]. injection Hq' as <-.
      destruct (He i q q2 Hq E2) as (F1 & F2 & F3). destruct (awoken_wake (Some (ChProc ini)) q2) as (A1 & A2 & A3). rewrite A1, A2.
      split_and!; try done. destruct F2 as [F2|[F2 F4]], A3 as [A3|[A3 A4]]; naive_solver congruence.
    + intros i q' j q Hq' Hs Hc _ _. exfalso. rewrite list_lookup_fmap in Hq'. destruct (l2 !! i) as [q2|] eqn:E2; [|done]. injection Hq' as <-.
      revert Hs Hc. unfold wake. destruct (bool_decide (p_state q2 = SLEEPING)) eqn:B1; simpl.
      * destruct (bool_decide (p_chan q2 = Some (ChProc ini))) eqn:B2; [done|]. apply bool_decide_eq_false in B2. done.
      * apply bool_decide_eq_false in B1. done.
  - split; [by unfold l2; rewrite length_insert|done|]. intros i q' j q Hq' Hs Hc Hj Hq. destruct (decide (j = k)) as [->|]; [|eapply Hw; try done; lia].
    intros [_ Hzq]. simplify_eq. destruct Est as [Est|[Est _]]; congruence.
Qed.

(** An entry of the table when the loop has ended. *)
Definition left_entry (c ini q : nat) (d e : proc) : Prop :=
  p_chan e = p_chan d ∧ (p_state e = p_state d ∨ (p_state d = SLEEPING ∧ p_state e = RUNNABLE)) ∧
  (p_state e = SLEEPING → p_chan e ≠ Some (ChProc q)) ∧ p_parent e = adopt c ini (p_parent d).

Lemma passed_entry ini l c q l2 i e :
  passed c ini (length l) (wake (Some (ChProc q)) <$> l) l2 → l2 !! i = Some e → ∃ d, l !! i = Some d ∧ left_entry c ini q d e.
Proof.
  intros [P1 P2 P3] He. assert (i < length l)%nat as L by (apply lookup_lt_Some in He; rewrite P1, length_fmap in He; done).
  destruct (lookup_lt_is_Some_2 l i L) as [d Hd]. exists d. split; [done|].
  assert ((wake (Some (ChProc q)) <$> l) !! i = Some (wake (Some (ChProc q)) d)) as Hd' by (by rewrite list_lookup_fmap, Hd).
  destruct (P2 i _ e Hd' He) as (E1 & E2 & E3). destruct (awoken_wake (Some (ChProc q)) d) as (A1 & A2 & A3). rewrite A1 in E3. rewrite A2 in E1.
  split; [done|]. split; [destruct E2 as [E2|[E2 E4]], A3 as [A3|[A3 A4]]; naive_solver congruence|]. split.
  - intros Hs Hch. rewrite E1 in Hch. destruct E2 as [E2|[_ E2]]; [|congruence]. rewrite Hs in E2. unfold wake in E2.
    rewrite Hch in E2. destruct (bool_decide (p_state d = SLEEPING)) eqn:B; [rewrite (bool_decide_true (Some _ = _)) in E2 by done; done|].
    apply bool_decide_eq_false in B. simpl in E2. done.
  - by rewrite E3, decide_True by done.
Qed.

Lemma left_alive c ini q d e : left_entry c ini q d e → alive e ↔ alive d.
Proof. intros (_ & [E|[E1 E2]] & _); unfold alive; rewrite ?E, ?E1, ?E2; naive_solver. Qed.

(** The whole table: the parent woken, the children passed on, the process a
    zombie. *)
Lemma tree_exit ini l c p q l2 p2 :
  tree_ok ini l → l !! c = Some p → p_parent p = Some q → c ≠ ini →
  passed c ini (length l) (wake (Some (ChProc q)) <$> l) l2 → l2 !! c = Some p2 →
  tree_ok ini (<[c := p_set_state ZOMBIE p2]> l2).
Proof.
  intros [H1 H2 H3 H4 H5] Hc Hpar Hne P Hc2. pose proof (passed_entry ini l c q l2) as Hb.
  assert (∀ i d, l !! i = Some d → alive d → i ≠ c → ∃ e, <[c := p_set_state ZOMBIE p2]> l2 !! i = Some e ∧ left_entry c ini q d e) as Hf.
  { intros i d Hd Ha Hi. destruct (lookup_lt_is_Some_2 l2 i) as [e He].
    { rewrite (ps_len _ _ _ _ _ P), length_fmap. by eapply lookup_lt_Some. }
    exists e. rewrite list_lookup_insert_ne by done. split; [done|]. destruct (Hb i e P He) as (d' & Hd' & Hl). by simplify_eq. }
  assert (∃ e, <[c := p_set_state ZOMBIE p2]> l2 !! ini = Some e ∧ alive e ∧ p_parent e = None) as Hini.
  { destruct H1 as (p0 & Hp0 & Ha & Hn). destruct (Hf ini p0 Hp0 Ha ltac:(done)) as (e & He & Hl). exists e.
    rewrite (left_alive _ _ _ _ _ Hl). destruct Hl as (_ & _ & _ & ->). rewrite Hn. done. }
  assert (∀ j e, <[c := p_set_state ZOMBIE p2]> l2 !! j = Some e → ∃ d e2, l !! j = Some d ∧ l2 !! j = Some e2 ∧ left_entry c ini q d e2 ∧
    p_parent e = p_parent e2 ∧ p_chan e = p_chan e2 ∧ ((j = c ∧ p_state e = ZOMBIE) ∨ (j ≠ c ∧ e = e2))) as Hg.
  { intros j e [[-> ->]|[Hj He]]%(insert_inv l2 c p2 _ Hc2).
    - destruct (Hb c p2 P Hc2) as (d & Hd & Hl). exists d, p2. split_and!; try done. by left.
    - destruct (Hb j e P He) as (d & Hd & Hl). exists d, e. split_and!; try done. by right. }
  split; [done| | | |].
  - intros j e r (d & e2 & Hd & He2 & (_ & _ & _ & Ep) & -> & _)%Hg Hr. rewrite Ep in Hr. unfold adopt in Hr. case_decide as Ed.
    + injection Hr as <-. destruct Hini as (e0 & He0 & Ha & _). split; [|by exists e0]. intros ->.
      destruct H1 as (p0 & Hp0 & _ & Hn). congruence.
    + destruct (H2 j d r Hd Hr) as (? & pr & Hpr & Ha). split; [done|]. destruct (Hf r pr Hpr Ha ltac:(congruence)) as (e' & He' & Hl).
      exists e'. by rewrite (left_alive _ _ _ _ _ Hl).
  - intros j e (d & e2 & Hd & He2 & (_ & Es & _ & Ep) & -> & _ & Hcase)%Hg Hu. destruct Hcase as [[_ Hz]|[_ ->]]; [congruence|].
    rewrite Ep, (H3 j d Hd); [done|]. destruct Es as [Es|[_ Es]]; congruence.
  - intros j e (d & e2 & Hd & He2 & (_ & Es & _ & Ep) & -> & _ & Hcase)%Hg Hu Hj. rewrite Ep. unfold adopt. case_decide; [done|].
    destruct Hcase as [[-> _]|[_ ->]]; [simplify_eq; congruence|]. apply (H4 j d Hd); [|done]. destruct Es as [Es|[Es _]]; congruence.
  - intros j e r (d & e2 & Hd & He2 & (Ec & Es & Hnq & _) & _ & Hch & Hcase)%Hg Hs Hr. destruct Hcase as [[_ Hz]|[Hjc ->]]; [congruence|].
    destruct (H5 j d r Hd) as [-> Hz]; [destruct Es as [Es|[Es _]]; congruence|congruence|]. split; [done|].
    intros k f (dk & f2 & Hdk & Hf2 & (_ & Fs & _ & Fp) & Ff & _ & Hcase)%Hg [Hzc Hzs]. unfold child_of in Hzc. rewrite Ff, Fp in Hzc.
    unfold adopt in Hzc. case_decide as Ed.
    + injection Hzc as <-. destruct Hcase as [[-> _]|[_ ->]]; [exfalso; by destruct (H2 c p c Hc ltac:(congruence)) as [? _]|].
      apply (ps_woken _ _ _ _ _ P ini e2 k (wake (Some (ChProc q)) dk) He2 Hs Hr).
      * by eapply lookup_lt_Some.
      * by rewrite list_lookup_fmap, Hdk.
      * destruct (awoken_wake (Some (ChProc q)) dk) as (A1 & _). split; [unfold child_of; by rewrite A1|].
        apply (awoken_zombie _ _ (awoken_wake _ dk)). destruct Fs as [Fs|[_ Fs]]; congruence.
    + destruct Hcase as [[-> _]|[_ ->]]; [apply Hnq; congruence|]. apply (Hz k dk Hdk). split; [done|]. destruct Fs as [Fs|[_ Fs]]; congruence.
Qed.

(** ** Code that never goes to sleep *)

Section awake.
Context {T : Type}.
Definition awake {A} (m : M T A) : Prop := ∀ pid s c s', m pid s ≠ Asleep c s'.
Lemma awake_bind {A B} (m : M T A) (k : A → M T B) : awake m → (∀ a, awake (k a)) → awake (m ≫= k).
Proof.
  intros Hm Hk pid s c s'. unfold mbind, M_bind. destruct (m pid s) eqn:E; try done; [apply Hk|]. exfalso. by eapply Hm.
Qed.
Lemma awake_forM {A} (l : list A) (f : A → M T unit) : (∀ a, awake (f a)) → awake (forM l f).
Proof. intros Hf. induction l; [done|]. by apply awake_bind. Qed.
Lemma awake_lift {A} `{Lens T U} (m : M U A) : (∀ pid s c s', m pid s ≠ Asleep c s') → awake (lift m).
Proof. intros Hm pid s c s'. unfold lift. destruct (m pid (lget s)) eqn:E; try done. exfalso. by eapply Hm. Qed.
End awake.
Ltac awake := repeat (intros; first [done | apply awake_bind | apply awake_forM | case_match]).

Lemma kfree_awake kend v : awake (kfree kend v).
Proof. unfold kfree. awake. Qed.
Lemma dealloc_loop_awake kend fuel : ∀ pgdir a oldsz, awake (dealloc_loop kend fuel pgdir a oldsz).
Proof. induction fuel as [|n IH]; cbn [dealloc_loop]; unfold walkpgdir; awake; first [apply kfree_awake | apply IH]. Qed.
Lemma freevm_awake kend pgdir : awake (freevm kend pgdir).
Proof.
  unfold freevm. case_match; [done|]. apply awake_bind; [|intros _; apply awake_bind; [|intros _; apply kfree_awake]].
  - unfold deallocuvm. case_match; [done|]. apply awake_bind; [apply dealloc_loop_awake|done].
  - apply awake_forM. intros i. unfold freevm_one. apply awake_bind; [done|]. intros e. case_match; [apply kfree_awake|done].
Qed.

(** ** The code *)

Section tree.
Context {D : Type} `{DiskFlush D}.
Implicit Types (s : kstate D).

Definition tree (ini : nat) s : Prop := k_initproc s = Some ini ∧ tree_ok ini (k_proc s).
Definition ptv s := (pt <$> k_proc s, k_initproc s).

Lemma tree_ptv ini s s' : ptv s' = ptv s → tree ini s → tree ini s'.
Proof. unfold tree, ptv. intros [= E1 ->] [? Ht]. split; [done|]. by eapply tree_pt. Qed.

Lemma wakeup1_tree ini c pid s s' : tree ini s → wakeup1 c pid s = Ret tt s' → tree ini s'.
Proof.
  intros [Hi Ht]. unfold wakeup1, modify. intros [= <-]. split; [done|]. simpl. apply (tree_awoken ini (k_proc s)); [done|].
  apply Forall2_fmap_r, Forall_Forall2_diag, Forall_forall. intros p _. apply awoken_wake.
Qed.

Lemma pset_tree ini i g p pid s s' :
  tree ini s → k_proc s !! i = Some p → p_parent (g p) = p_parent p → (p_state (g p) = UNUSED ↔ p_state p = UNUSED) →
  (p_state (g p) = ZOMBIE ↔ p_state p = ZOMBIE) →
  (∀ q, p_state (g p) = SLEEPING → p_chan (g p) = Some (ChProc q) →
    q = i ∧ ∀ j c, k_proc s !! j = Some c → ¬ zombie_child i c) →
  pset i g pid s = Ret tt s' → tree ini s'.
Proof.
  intros [Hi Ht] Hp H1 H2 H3 H4 E. rewrite (pset_inv _ _ _ _ _ E). split; [done|]. simpl. rewrite (alter_at _ _ _ _ Hp).
  by apply (tree_update ini _ i p).
Qed.

Lemma kill_tree ini n pid s r s' : tree ini s → kill n pid s = Ret r s' → tree ini s'.
Proof.
  intros Ht. unfold kill. rewrite (bind_Ret get _ pid s s s eq_refl). destruct (list_find _ _) as [[i p]|] eqn:El; [|intros E; by injection E as _ <-].
  apply list_find_Some in El as (Hp & _). intros ([] & s1 & E1 & E)%bind_inv_Ret. injection E as _ <-.
  refine (pset_tree ini i _ p pid s s1 Ht Hp _ _ _ _ E1); simpl; case_bool_decide as Hs; simpl; simpl in Hs; try done.
  all: rewrite Hs; naive_solver.
Qed.

(** The process goes to sleep on [c]. *)
Lemma sleep_tree {A} ini c pid s i p s' :
  tree ini s → current pid s i p → (∀ q, c = ChProc q → q = i ∧ ∀ j d, k_proc s !! j = Some d → ¬ zombie_child i d) →
  sleep (A := A) c pid s = Asleep c s' → tree ini s'.
Proof.
  intros Ht Hc Hq. destruct (current_lookup _ _ _ _ Hc) as (Hp & _ & Hrun). unfold sleep.
  rewrite (bind_Ret _ _ _ _ _ _ (myproc_run pid s i p Hc)). set (g := λ p, p_set_state SLEEPING (p_set_chan (Some c) p)).
  rewrite (bind_Ret _ _ _ _ _ _ (pset_run pid s i p g Hp)). intros [= <-]. destruct Ht as [Hi Ht]. split; [done|]. simpl.
  apply (tree_update ini _ i p); try done; simpl; rewrite ?Hrun; try naive_solver.
Qed.

Lemma reparent_passed c ini l k pid s s' :
  k_initproc s = Some ini → passed c ini k l (k_proc s) → (k < length l)%nat → reparent c k pid s = Ret tt s' →
  k_initproc s' = Some ini ∧ passed c ini (S k) l (k_proc s').
Proof.
  intros Hi Hps L. destruct (lookup_lt_is_Some_2 l k L) as [p Hp]. destruct (lookup_lt_is_Some_2 (k_proc s) k) as [p' Hp'].
  { by rewrite (ps_len _ _ _ _ _ Hps). }
  destruct (ps_entry _ _ _ _ _ Hps k p p' Hp Hp') as (_ & _ & Epar). rewrite decide_False in Epar by lia.
  unfold reparent. rewrite (bind_Ret _ _ _ _ _ _ (pat_run pid s k p' Hp')), (bind_Ret get _ pid s s s eq_refl), Epar, Hi.
  case_bool_decide as Hc.
  - rewrite (bind_Ret _ _ _ _ _ _ (pset_run pid s k p' _ Hp')). pose proof (passed_child c ini k l (k_proc s) p p' Hps Hp Hp' Hc) as P.
    cbv zeta in P. case_bool_decide as Hz.
    + rewrite decide_True in P by done. intros E. unfold wakeup1, modify in E. injection E as <-. done.
    + rewrite decide_False in P by done. intros E. injection E as <-. done.
  - intros E. injection E as <-. split; [done|]. by eapply passed_skip.
Qed.

Lemma reparent_loop c ini l n : ∀ k pid s s',
  k_initproc s = Some ini → passed c ini k l (k_proc s) → (k + n = length l)%nat → forM (seq k n) (reparent c) pid s = Ret tt s' →
  k_initproc s' = Some ini ∧ passed c ini (length l) l (k_proc s').
Proof.
  induction n as [|n IH]; intros k pid s s' Hi Hps L; cbn [seq forM].
  - intros E. injection E as <-. split; [done|]. by replace (length l) with k by lia.
  - intros ([] & s1 & E1 & E)%bind_inv_Ret. destruct (reparent_passed c ini l k pid s s1 Hi Hps ltac:(lia) E1) as [Hi1 P1].
    apply (IH (S k) pid s1 s'); try done. lia.
Qed.

Lemma exit_table_tree ini c p pid s s' :
  tree ini s → k_proc s !! c = Some p → alive p → c ≠ ini → exit_table c pid s = Ret tt s' → tree ini s'.
Proof.
  intros [Hi Ht] Hp Ha Hne. unfold exit_table. rewrite (bind_Ret _ _ _ _ _ _ (pat_run pid s c p Hp)).
  destruct (p_parent p) as [q|] eqn:Hq; [|exfalso; by eapply (tr_orphan _ _ Ht c p Hp (proj1 Ha))]. cbn [fmap option_fmap option_map].
  intros ([] & s1 & E1 & E)%bind_inv_Ret. injection E1 as <-. set (s1 := k_set_proc _ s) in E. rewrite (bind_Ret get _ pid s1 s1 s1 eq_refl) in E.
  apply bind_inv_Ret in E as ([] & s2 & E2 & E).
  destruct (reparent_loop c ini (k_proc s1) (length (k_proc s1)) 0 pid s1 s2 Hi (passed_zero c ini _) ltac:(lia) E2) as [Hi2 P2].
  assert (length (k_proc s1) = length (k_proc s)) as L by apply length_fmap. rewrite L in P2.
  destruct (lookup_lt_is_Some_2 (k_proc s2) c) as [p2 Hp2].
  { rewrite (ps_len _ _ _ _ _ P2), L. by eapply lookup_lt_Some. }
  rewrite (pset_inv _ _ _ _ _ E). split; [done|]. simpl. rewrite (alter_at _ _ _ _ Hp2). by eapply tree_exit.
Qed.

(** *** Code that at most wakes processes *)

Definition woken s s' : Prop := k_initproc s' = k_initproc s ∧ Forall2 awoken (k_proc s) (k_proc s').
Definition wakes {A} (m : M (kstate D) A) : Prop := ∀ pid s a s', m pid s = Ret a s' → woken s s'.

#[local] Instance woken_po : PreOrder woken.
Proof. split; [by intros s|]. intros s t u [E1 F1] [E2 F2]. split; [congruence|by etrans]. Qed.

Lemma woken_ptv s s' : ptv s' = ptv s → woken s s'.
Proof.
  unfold ptv. intros [= E1 E2]. split; [done|]. apply Forall2_same_length_lookup_2.
  - by rewrite <- (length_fmap pt (k_proc s)), <- E1, length_fmap.
  - intros i p p' Hp Hp'. assert ((pt <$> k_proc s') !! i = (pt <$> k_proc s) !! i) as El by (by rewrite E1).
    rewrite !list_lookup_fmap, Hp, Hp' in El. injection El as F1 F2 F3. split_and!; [done|done|by left].
Qed.
Lemma wakes_keeps {A} (m : M (kstate D) A) : keeps ptv m → wakes m.
Proof. intros Hm pid s a s' E%Hm. by apply woken_ptv. Qed.
Lemma wakes_bind {A B} (m : M (kstate D) A) (k : A → M (kstate D) B) : wakes m → (∀ a, wakes (k a)) → wakes (m ≫= k).
Proof. intros Hm Hk pid s b s' (a & s1 & E1 & E2)%bind_inv_Ret. etrans; [by eapply Hm|by eapply Hk]. Qed.
Lemma wakes_forM {A} (l : list A) (f : A → M (kstate D) unit) : (∀ a, wakes (f a)) → wakes (forM l f).
Proof. intros Hf. induction l as [|x l IH]; [by apply wakes_keeps, keeps_ret|]. by apply wakes_bind. Qed.
Lemma wakes_wakeup1 c : wakes (wakeup1 c).
Proof.
  unfold wakeup1, modify. intros pid s a s' [= <- <-]. split; [done|].
  apply Forall2_fmap_r, Forall_Forall2_diag, Forall_forall. intros p _. apply awoken_wake.
Qed.
Lemma keeps_pset_pt i g : (∀ p, pt (g p) = pt p) → keeps ptv (pset (D := D) i g).
Proof.
  intros Hg. unfold pset. apply keeps_modify. intros s. unfold ptv. simpl. f_equal.
  apply list_eq. intros k. rewrite !list_lookup_fmap, list_lookup_alter. case_decide; [subst|done].
  destruct (k_proc s !! k); [|done]. simpl. by rewrite Hg.
Qed.

Lemma keeps_fset_pt f g : keeps ptv (fset (D := D) f g).
Proof. unfold fset. keeps. Qed.
Lemma keeps_pipe_at_pt p : keeps ptv (pipe_at (D := D) p).
Proof. unfold pipe_at. keeps. Qed.

Ltac wakes := repeat (intros; first
  [ solve [apply wakes_keeps; first [apply keeps_fset_pt | apply keeps_pipe_at_pt | by apply keeps_pset_pt | keeps]] | apply wakes_wakeup1
  | apply wakes_bind | apply wakes_forM | case_match ]).

Lemma exit_fd_wakes kend c fd : wakes (exit_fd kend c fd).
Proof. unfold exit_fd, fileclose, k_pipeclose, pipe_put, pipe_wake, wakeup. wakes. Qed.

Lemma woken_tree ini s s' : woken s s' → tree ini s → tree ini s'.
Proof. intros [E Hw] [Hi Ht]. split; [congruence|]. by eapply tree_awoken. Qed.
Lemma woken_running s s' i p : woken s s' → k_proc s !! i = Some p → alive p → ∃ p', k_proc s' !! i = Some p' ∧ alive p'.
Proof. intros [_ Hw] Hp Hr. destruct (Forall2_lookup_l _ _ _ _ _ Hw Hp) as (p' & Hp' & A). exists p'. by rewrite (awoken_alive _ _ A). Qed.

Lemma myproc_inv pid s c s' : myproc pid s = Ret c s' → s' = s ∧ ∃ p, current pid s c p.
Proof.
  intros E1. split; [exact (keeps_myproc id _ _ _ _ E1)|]. unfold myproc in E1.
  rewrite (bind_Ret mypid _ pid s pid s eq_refl), (bind_Ret get _ pid s s s eq_refl) in E1. unfold current.
  destruct (list_find _ _) as [[j q]|]; [|done]. injection E1 as -> _. by exists q.
Qed.
Lemma current_alive pid s c p : current pid s c p → k_proc s !! c = Some p ∧ alive p.
Proof. intros Hc. destruct (current_lookup _ _ _ _ Hc) as (Hp & _ & Hr). split; [done|]. unfold alive. by rewrite Hr. Qed.

Lemma exit_run_tree kend ini pid s s' : tree ini s → exit_run kend pid s = Ret tt s' → tree ini s'.
Proof.
  intros Ht. unfold exit_run. intros (c & s1 & E1 & E)%bind_inv_Ret. destruct (myproc_inv _ _ _ _ E1) as [-> [p Hc]].
  destruct (current_alive _ _ _ _ Hc) as [Hp Ha]. rewrite (bind_Ret get _ pid s s s eq_refl) in E.
  case_bool_decide as Hini; [done|]. assert (c ≠ ini) as Hne by (intros ->; by rewrite (proj1 Ht) in Hini).
  assert (∃ s2, woken s s2 ∧ exit_table c pid s2 = Ret tt s') as (s2 & W & E2).
  { apply bind_inv_Ret in E as ([] & t0 & F0 & E). pose proof (wakes_forM _ _ (exit_fd_wakes kend c) _ _ _ _ F0) as W0.
    apply bind_inv_Ret in E as ([] & t1 & F1 & E). assert (woken t0 t1) as W1 by (eapply (wakes_keeps k_begin_op); [unfold k_begin_op; keeps|exact F1]).
    rewrite (bind_Ret mypid _ pid t1 pid t1 eq_refl), (bind_Ret get _ pid t1 t1 t1 eq_refl) in E.
    apply bind_inv_Ret in E as ([] & t2 & F2 & E). assert (woken t1 t2) as W2.
    { eapply wakes_keeps; [|exact F2]. keeps. }
    apply bind_inv_Ret in E as ([] & t3 & F3 & E). assert (woken t2 t3) as W3 by (eapply (wakes_keeps k_end_op); [unfold k_end_op; keeps|exact F3]).
    apply bind_inv_Ret in E as ([] & t4 & F4 & E). assert (woken t3 t4) as W4 by (eapply wakes_keeps; [|exact F4]; keeps).
    exists t4. split; [|done]. etrans; [exact W0|]. etrans; [exact W1|]. etrans; [exact W2|]. by etrans. }
  destruct (woken_running _ _ _ _ W Hp Ha) as (p2 & Hp2 & Ha2). eapply exit_table_tree; [by eapply woken_tree|exact Hp2|..]; done.
Qed.

(** *** wait *)

Lemma km_ptv {A} (m : M kmem A) : keeps ptv (lift (S := kstate D) m).
Proof. keeps. Qed.

Lemma wait_tree kend ini pid s r s' : tree ini s → wait kend pid s = Ret r s' → tree ini s'.
Proof.
  intros Ht. unfold wait. intros (c & s1 & E1 & E)%bind_inv_Ret. destruct (myproc_inv _ _ _ _ E1) as [-> [p0 Hc]].
  rewrite (bind_Ret get _ pid s s s eq_refl) in E. destruct (list_find _ _) as [[i p]|] eqn:El.
  - apply list_find_Some in El as (Hp & [_ Hz] & _). apply bind_inv_Ret in E as ([] & s2 & E2 & E). pose proof (km_ptv _ _ _ _ _ E2) as K2.
    apply bind_inv_Ret in E as ([] & s3 & E3 & E). pose proof (keeps_pset_pt i (p_set_kstack 0) (λ _, eq_refl) _ _ _ _ E3) as K3.
    apply bind_inv_Ret in E as ([] & s4 & E4 & E). pose proof (km_ptv _ _ _ _ _ E4) as K4. rewrite K3, K2 in K4.
    apply bind_inv_Ret in E as ([] & s5 & E5 & E). injection E as _ <-. rewrite (pset_inv _ _ _ _ _ E5).
    destruct (tree_ptv _ _ _ K4 Ht) as [Hi4 Ht4]. destruct (woken_ptv _ _ K4) as [_ W4].
    destruct (Forall2_lookup_l _ _ _ _ _ W4 Hp) as (q & Hq & A). split; [done|]. simpl. rewrite (alter_at _ _ _ _ Hq).
    apply (tree_reap ini _ i q); try done. by apply (awoken_zombie _ _ A).
  - apply bind_inv_Ret in E as (cur & s2 & E2 & E). rewrite (keeps_pat id _ _ _ _ _ E2 : s2 = s) in *.
    destruct (_ || _); [by injection E as _ <-|]. unfold sleep in E. apply bind_inv_Ret in E as (? & ? & _ & E).
    by apply bind_inv_Ret in E as (? & ? & _ & E).
Qed.

(** [wait] goes to sleep in a state with no exited child. *)
Lemma wait_sleep_tree kend ini pid s ch s' : tree ini s → wait kend pid s = Asleep ch s' → tree ini s'.
Proof.
  intros Ht. unfold wait. destruct (myproc pid s) as [c s1|m1 s1|c1 s1|w1] eqn:E1.
  2-4: unfold mbind, M_bind; rewrite E1; try done; intros E; unfold myproc in E1;
    rewrite (bind_Ret mypid _ pid s pid s eq_refl), (bind_Ret get _ pid s s s eq_refl) in E1; by destruct (list_find _ _) as [[]|].
  destruct (myproc_inv _ _ _ _ E1) as [-> [p Hc]]. destruct (current_alive _ _ _ _ Hc) as [Hp _].
  rewrite (bind_Ret _ _ _ _ _ _ E1), (bind_Ret get _ pid s s s eq_refl). destruct (list_find _ _) as [[i q]|] eqn:El.
  - intros E. exfalso. revert E. apply awake_bind; [apply awake_lift, kfree_awake|]. intros _. apply awake_bind; [done|]. intros _.
    apply awake_bind; [apply awake_lift, freevm_awake|]. intros _. by apply awake_bind.
  - rewrite (bind_Ret _ _ _ _ _ _ (pat_run pid s c p Hp)). destruct (_ || _); [done|].
    intros E. assert (ch = ChProc c) as ->.
    { revert E. unfold sleep. rewrite (bind_Ret _ _ _ _ _ _ (myproc_run pid s c p Hc)).
      rewrite (bind_Ret _ _ _ _ _ _ (pset_run pid s c p _ Hp)). by intros [= -> _]. }
    refine (sleep_tree ini (ChProc c) pid s c p s' Ht Hc _ E). intros q [= <-]. split; [done|].
    apply list_find_None in El. rewrite Forall_lookup in El. exact El.
Qed.

(** *** fork *)

(** [s] is [s0] but for the entry [np], in state [st] with parent [par]. *)
Definition at_entry (np : nat) (st : procstate) (par : option nat) s0 s : Prop :=
  k_initproc s = k_initproc s0 ∧ ∃ ch, pt <$> k_proc s = <[np := (st, par, ch)]> (pt <$> k_proc s0).

Lemma at_entry_ptv np st par s0 s s' : ptv s' = ptv s → at_entry np st par s0 s → at_entry np st par s0 s'.
Proof. unfold ptv, at_entry. by intros [= -> ->]. Qed.

Lemma at_entry_pset np st par st' par' s0 s s' g pid :
  at_entry np st par s0 s → (∀ p, p_state p = st → p_parent p = par → p_state (g p) = st' ∧ p_parent (g p) = par') →
  pset np g pid s = Ret tt s' → at_entry np st' par' s0 s'.
Proof.
  intros [Hi [ch El]] Hg E. rewrite (pset_inv _ _ _ _ _ E). split; [done|]. simpl.
  destruct (decide (np < length (k_proc s0))%nat) as [L|L].
  - assert ((pt <$> k_proc s) !! np = Some (st, par, ch)) as Hn by (rewrite El; apply list_lookup_insert_eq; by rewrite length_fmap).
    rewrite list_lookup_fmap in Hn. destruct (k_proc s !! np) as [p|] eqn:Hp; [|done]. injection Hn as H1 H2 H3.
    destruct (Hg p H1 H2) as [G1 G2]. exists (p_chan (g p)). rewrite (alter_at _ _ _ _ Hp), list_fmap_insert, El, list_insert_insert_eq.
    unfold pt at 1. by rewrite G1, G2.
  - exists ch. rewrite !list_insert_ge in * by (rewrite length_fmap; lia). rewrite <- El. f_equal.
    apply list_eq. intros k. rewrite list_lookup_alter. case_decide; [|done]. subst k.
    rewrite lookup_ge_None_2; [done|]. rewrite <- (length_fmap pt), El, length_fmap. lia.
Qed.

Lemma at_entry_tree ini np par s0 s st p c pc :
  tree ini s0 → k_proc s0 !! np = Some p → p_state p = UNUSED → at_entry np st par s0 s →
  (st = UNUSED ∧ par = None ∨ (st = RUNNABLE ∧ par = Some c ∧ k_proc s0 !! c = Some pc ∧ alive pc)) → tree ini s.
Proof.
  intros [Hi Ht] Hp Hu [Hi' [ch El]] Hst. split; [congruence|]. set (p' := p_set_chan ch (p_set_state st (p_set_parent par p))).
  apply (tree_pt ini (<[np := p']> (k_proc s0))); [by rewrite list_fmap_insert|]. destruct Hst as [[-> ->]|(-> & -> & Hc & Ha)].
  - apply (tree_update ini _ np p); try done; simpl; [|by rewrite Hu]. symmetry. by apply (tr_unused _ _ Ht np p).
  - by apply (tree_create ini _ np p p' Ht Hp c pc).
Qed.

Lemma at_entry_hoare {A} np st par s0 pid (m : M (kstate D) A) : keeps ptv m → hoare pid (at_entry np st par s0) m (λ _, at_entry np st par s0).
Proof. intros Hm s a s' Hs E%Hm. by eapply at_entry_ptv. Qed.

End tree.

Ltac entry := repeat (intros; first
  [ solve [apply at_entry_hoare; first [apply keeps_fset_pt | by apply keeps_pset_pt | keeps]] | apply keeps_inv_bind | case_match ]).

Section treefork.
Context {D : Type} `{DiskFlush D}.
Context (devsw_read : Z → option (Z → M (fstate D) (Z * list Z))).
Context (kend kdata trapret forkret_addr : Z) (initcode : list Z).
Implicit Types (s : kstate D).

Lemma allocproc_entry ini pid s o s' :
  (∀ i p, k_proc s !! i = Some p → p_state p = UNUSED → p_parent p = None) → allocproc trapret forkret_addr pid s = Ret o s' →
  match o with
  | Some np => ∃ p, list_find (λ p, p_state p = UNUSED) (k_proc s) = Some (np, p) ∧ at_entry np EMBRYO None s s'
  | None => tree ini s → tree ini s'
  end.
Proof.
  intros Hpar. unfold allocproc. rewrite (bind_Ret get _ pid s s s eq_refl). destruct (list_find _ _) as [[i p]|] eqn:El.
  2:{ intros E. by injection E as <- <-. }
  pose proof El as (Hp & Hu & _)%list_find_Some. intros ([] & s1 & E1 & E)%bind_inv_Ret.
  assert (at_entry i UNUSED None s s) as A0.
  { split; [done|]. exists (p_chan p). symmetry. apply list_insert_id. rewrite list_lookup_fmap, Hp. simpl. unfold pt. by rewrite Hu, (Hpar i p Hp Hu). }
  assert (at_entry i EMBRYO None s s1) as A1 by (eapply at_entry_pset; [exact A0| |exact E1]; done).
  apply bind_inv_Ret in E as ([] & s2 & E2 & E). assert (at_entry i EMBRYO None s s2) as A2.
  { eapply at_entry_ptv; [|exact A1]. by injection E2 as <-. }
  apply bind_inv_Ret in E as (stk & s3 & E3 & E). pose proof (at_entry_ptv _ _ _ _ _ _ (km_ptv _ _ _ _ _ E3) A2) as A3.
  apply bind_inv_Ret in E as ([] & s4 & E4 & E). assert (at_entry i EMBRYO None s s4) as A4.
  { eapply at_entry_ptv; [|exact A3]. exact (keeps_pset_pt i (p_set_kstack stk) (λ _, eq_refl) _ _ _ _ E4). }
  destruct (stk =? 0).
  - apply bind_inv_Ret in E as ([] & s5 & E5 & E). injection E as <- <-. intros Ht.
    apply (at_entry_tree ini i None s s5 UNUSED p i p); try done; [|by left]. eapply at_entry_pset; [exact A4| |exact E5]; done.
  - assert (hoare pid (at_entry i EMBRYO None s)
      (lift (T := kmem) (kstore (stk + KSTACKSIZE - SIZEOF_TF - 4) trapret) ;;
       pset i (p_set_frames (stk + KSTACKSIZE - SIZEOF_TF) (stk + KSTACKSIZE - SIZEOF_TF - 4 - SIZEOF_CX)) ;;
       lift (T := kmem) (k_upd (memset (stk + KSTACKSIZE - SIZEOF_TF - 4 - SIZEOF_CX) 0 SIZEOF_CX)) ;;
       lift (T := kmem) (kstore (stk + KSTACKSIZE - SIZEOF_TF - 4 - SIZEOF_CX + CX_EIP) forkret_addr) ;;
       (mret (Some i) : M (kstate D) (option nat))) (λ _, at_entry i EMBRYO None s)) as K by entry.
    pose proof (K _ _ _ A4 E) as A5. repeat (apply bind_inv_Ret in E as ([] & ? & _ & E)). injection E as <- _. by exists p.
Qed.

(** The copying of the files, the directory and the name. *)
Lemma fork_rest_entry np (cur n : proc) st par s0 pid : hoare pid (at_entry np st par s0)
  (lift (T := kmem) (k_upd (memmove (p_tf n) (p_tf cur) SIZEOF_TF)) ;;
   lift (T := kmem) (kstore (p_tf n + TF_EAX) 0) ;;
   forM (seq 0 (Z.to_nat NOFILE)) (fork_fd np (p_ofile cur)) ;;
   s ← get;
   cwd ← match f_cwd (k_fs s) (p_pid cur) with
         | Some ip => lift (T := fstate D) (idup ip)
         | None => undef "idup: null"
         end;
   lift (T := fstate D) (set_cwd (p_pid n) (Some cwd)) ;;
   pset np (λ p, p_set_name (splice 0 (safestrcpy (λ k, nth k (p_name cur) 0) 16) (p_name p)) p) ;;
   pset np (p_set_state RUNNABLE) ;;
   mret (p_pid n)) (λ _, at_entry np RUNNABLE par s0).
Proof.
  apply hoare_bind with (λ _, at_entry np st par s0); [entry|]. intros _.
  apply hoare_bind with (λ _, at_entry np st par s0); [entry|]. intros _.
  apply hoare_bind with (λ _, at_entry np st par s0).
  { apply at_entry_hoare, keeps_forM. intros k. unfold fork_fd, filedup. keeps; intros; by apply keeps_pset_pt. }
  intros _. apply hoare_bind with (λ _, at_entry np st par s0); [entry|]. intros t.
  apply hoare_bind with (λ _, at_entry np st par s0); [entry|]. intros cwd.
  apply hoare_bind with (λ _, at_entry np st par s0); [entry|]. intros _.
  apply hoare_bind with (λ _, at_entry np st par s0); [entry|]. intros _.
  apply hoare_bind with (λ _, at_entry np RUNNABLE par s0); [|intros _; entry].
  intros u [] u' Hu Eu. eapply (at_entry_pset np st par RUNNABLE par); [exact Hu| |exact Eu]. by intros p _ <-.
Qed.

Lemma fork_tree ini pid s r s' : tree ini s → fork kend kdata trapret forkret_addr pid s = Ret r s' → tree ini s'.
Proof.
  intros Ht. unfold fork. intros (c & s1 & E1 & E)%bind_inv_Ret. destruct (myproc_inv _ _ _ _ E1) as [-> [pc Hc]].
  destruct (current_alive _ _ _ _ Hc) as [Hpc Hac].
  apply bind_inv_Ret in E as (o & s2 & E2 & E). pose proof (allocproc_entry ini _ _ _ _ (tr_unused _ _ (proj2 Ht)) E2) as A.
  destruct o as [np|]; [|injection E as _ <-; by apply A]. destruct A as (p & (Hp & Hu & _)%list_find_Some & A2).
  apply bind_inv_Ret in E as (cur & s3 & E3 & E). rewrite (keeps_pat id _ _ _ _ _ E3 : s3 = s2) in *.
  apply bind_inv_Ret in E as (pgdir & s4 & E4 & E). pose proof (at_entry_ptv _ _ _ _ _ _ (km_ptv _ _ _ _ _ E4) A2) as A4.
  apply bind_inv_Ret in E as ([] & s5 & E5 & E). assert (at_entry np EMBRYO None s s5) as A5 by (eapply at_entry_pset; [exact A4| |exact E5]; by intros p' <- <-).
  destruct (pgdir =? 0).
  - apply bind_inv_Ret in E as (n & s6 & E6 & E). rewrite (keeps_pat id _ _ _ _ _ E6 : s6 = s5) in *.
    apply bind_inv_Ret in E as ([] & s7 & E7 & E). pose proof (at_entry_ptv _ _ _ _ _ _ (km_ptv _ _ _ _ _ E7) A5) as A7.
    apply bind_inv_Ret in E as ([] & s8 & E8 & E). injection E as _ <-.
    apply (at_entry_tree ini np None s s8 UNUSED p np p); try done; [|by left]. eapply at_entry_pset; [exact A7| |exact E8]. by intros p' _ <-.
  - apply bind_inv_Ret in E as ([] & s6 & E6 & E). assert (at_entry np EMBRYO (Some c) s s6) as A6 by (eapply at_entry_pset; [exact A5| |exact E6]; by intros p' <- _).
    apply bind_inv_Ret in E as (n & s7 & E7 & E). rewrite (keeps_pat id _ _ _ _ _ E7 : s7 = s6) in *.
    apply (at_entry_tree ini np (Some c) s s' RUNNABLE p c pc); try done; [|by right].
    exact (fork_rest_entry np cur n _ _ _ _ _ _ _ A6 E).
Qed.

End treefork.

(** ** Every state the kernel reaches *)

Section treereach.
Context {D : Type} `{DiskFlush D}.
Context (devsw_read : Z → option (Z → M (fstate D) (Z * list Z))).
Context (kend kdata trapret forkret_addr : Z) (initcode : list Z).
Implicit Types (s : kstate D).

(** The table as [userinit] leaves it. *)
Definition tree_booted s : Prop :=
  k_initproc s = Some 0%nat ∧ ∃ ch, pt <$> k_proc s = (RUNNABLE, None, ch) :: replicate (Z.to_nat NPROC - 1) (pt proc_zero).

Lemma userinit_booted pid s s' :
  fd_boot s → userinit devsw_read kend kdata trapret forkret_addr initcode pid s = Ret tt s' → tree_booted s'.
Proof.
  intros (_ & Hb & _). unfold userinit. intros (o & s1 & E1 & E)%bind_inv_Ret.
  apply (allocproc_entry _ _ 0) in E1; [|rewrite Hb; by intros i p [-> _]%lookup_replicate].
  apply bind_inv_Ret in E as ([] & s2 & E2 & E). injection E2 as <-. destruct o as [np|]; [|done].
  destruct E1 as (p & Hf & Hi & ch & El). rewrite Hb in Hf. injection Hf as <- _. rewrite Hb in El.
  set (s0 := k_set_initproc (Some 0%nat) s). set (s2 := k_set_initproc _ s1) in E.
  assert (at_entry 0 EMBRYO None s0 s2) as A by (split; [done|exists ch; simpl; by rewrite Hb]).
  assert (at_entry 0 RUNNABLE None s0 s') as [Hi' [ch' El']].
  { refine ((_ : hoare pid (at_entry 0 EMBRYO None s0) _ (λ _ : unit, at_entry 0 RUNNABLE None s0)) s2 tt s' A E).
    repeat (intros; first
      [ apply hoare_bind with (λ _, at_entry 0 EMBRYO None s0); [solve [entry]|]
      | solve [intros ? ? ? ? [=]]
      | solve [intros u [] u' Hu Eu; eapply at_entry_pset; [exact Hu| |exact Eu]; by intros q _ <-] | case_match ]). }
  split; [done|]. exists ch'. rewrite El'. simpl. by rewrite Hb.
Qed.

(** The scheduler, the trap handler and the other calls. *)
Definition tree_same s s' : Prop := k_initproc s' = k_initproc s ∧ Forall2 moved (k_proc s) (k_proc s').

Inductive tstep s : kstate D → Prop :=
| t_fork pid r s' : fork kend kdata trapret forkret_addr pid s = Ret r s' → tstep s s'
| t_exit pid s' : exit_run kend pid s = Ret tt s' → tstep s s'
| t_wait pid r s' : wait kend pid s = Ret r s' → tstep s s'
| t_wait_sleep pid ch s' : wait kend pid s = Asleep ch s' → tstep s s'
| t_kill n pid r s' : kill n pid s = Ret r s' → tstep s s'
| t_wakeup ch pid s' : wakeup ch pid s = Ret tt s' → tstep s s'
| t_sleep ch pid i p s' : current pid s i p → (∀ q, ch ≠ ChProc q) → sleep (A := unit) ch pid s = Asleep ch s' → tstep s s'
| t_other s' : tree_same s s' → tstep s s'.

Lemma tstep_tree ini s s' : tstep s s' → tree ini s → tree ini s'.
Proof.
  intros [pid r t E|pid t E|pid r t E|pid ch t E|n pid r t E|ch pid t E|ch pid i p t Hc Hq E|t [E Hm]] Ht.
  - exact (fork_tree _ _ _ _ _ _ _ _ _ Ht E).
  - exact (exit_run_tree _ _ _ _ _ Ht E).
  - exact (wait_tree _ _ _ _ _ _ Ht E).
  - exact (wait_sleep_tree _ _ _ _ _ _ Ht E).
  - exact (kill_tree _ _ _ _ _ _ Ht E).
  - exact (wakeup1_tree ini (Some ch) pid s t Ht E).
  - refine (sleep_tree ini ch pid s i p t Ht Hc _ E). intros q ->. by destruct (Hq q).
  - destruct Ht as [Hi Ht]. split; [congruence|]. by eapply tree_moved.
Qed.

Lemma booted_tree s : tree_booted s → tree 0 s.
Proof.
  intros [Hi [ch El]]. split; [done|].
  apply (tree_pt 0 (p_set_chan ch (p_set_state RUNNABLE proc_zero) :: replicate (Z.to_nat NPROC - 1) proc_zero)); [by rewrite El, fmap_cons, fmap_replicate|].
  assert (∀ i p, (p_set_chan ch (p_set_state RUNNABLE proc_zero) :: replicate (Z.to_nat NPROC - 1) proc_zero) !! i = Some p →
    (i = 0%nat ∧ p = p_set_chan ch (p_set_state RUNNABLE proc_zero)) ∨ p = proc_zero) as Hl.
  { intros [|i] p; [intros [= <-]; by left|]. intros [-> _]%lookup_replicate. by right. }
  split.
  - eexists. split; [done|]. split; [split|]; done.
  - intros i p q [[-> ->]| ->]%Hl; done.
  - intros i p [[-> ->]| ->]%Hl; done.
  - intros i p [[-> ->]| ->]%Hl; done.
  - intros i p q [[-> ->]| ->]%Hl; done.
Qed.

(** C14. No exit is missed: in every state reached from the one [userinit]
    leaves by [fork], [exit], [wait], [kill], sleeping, waking and scheduling,
    a process that sleeps in [wait] has no child that is a zombie, and every
    process but init, a zombie or not, has a parent that has not exited, so
    that there is a process to collect it. *)
Theorem exits_collected s0 s :
  tree_booted s0 → rtc tstep s0 s →
  (∀ i p, k_proc s !! i = Some p → p_state p = SLEEPING → p_chan p = Some (ChProc i) → Forall (λ c, ¬ zombie_child i c) (k_proc s)) ∧
  (∀ i p, k_proc s !! i = Some p → p_state p ≠ UNUSED → i ≠ 0%nat →
     ∃ q pq, p_parent p = Some q ∧ q ≠ i ∧ k_proc s !! q = Some pq ∧ alive pq) ∧
  (∃ p, k_proc s !! 0%nat = Some p ∧ alive p).
Proof.
  intros H0' Hr. assert (tree 0 s) as [_ [(p0 & Hp0 & Ha0 & _) H2 _ H4 H5]].
  { pose proof (booted_tree _ H0') as Ht. clear H0'. induction Hr as [|? ? ? Hs _ IH]; [done|]. by apply IH, (tstep_tree _ _ _ Hs). }
  split_and!.
  - intros i p Hp Hs Hc. apply Forall_lookup. by apply (H5 i p i Hp Hs Hc).
  - intros i p Hp Hu Hne. destruct (p_parent p) as [q|] eqn:Eq; [|by destruct (H4 i p Hp Hu Hne)].
    destruct (H2 i p q Hp Eq) as (? & pq & ? & ?). by exists q, pq.
  - by exists p0.
Qed.

End treereach.

Definition tree_ex (st : procstate) (killed : Z) : kstate ide_state :=
  mk_kstate sc_fs [] (mk_kmem sc_mem 0 0) ∅
    (p_set_pid 1 (p_set_killed killed (p_set_state st proc_zero)) :: replicate 63 proc_zero) 2 (Some 0%nat) 0.

Lemma exits_collected_witness : ∃ p, k_proc (tree_ex RUNNING 1) !! 0%nat = Some p ∧ alive p.
Proof.
  refine (proj2 (proj2 (exits_collected 0 0 0 0 (tree_ex RUNNABLE 0) (tree_ex RUNNING 1) _ _))).
  - split; [reflexivity|]. exists None. reflexivity.
  - apply rtc_l with (tree_ex RUNNING 0).
    { apply t_other. split; [reflexivity|]. constructor; [|apply Forall2_same_length_lookup_2; [reflexivity|]].
      - split; [reflexivity|]. split_and!; simpl; naive_solver.
      - intros i p p' Hp Hp'. rewrite Hp in Hp'. injection Hp' as <-. split; [reflexivity|]. split_and!; naive_solver. }
    apply rtc_l with (tree_ex RUNNING 1); [|apply rtc_refl]. apply (t_kill 0 0 0 0 _ 1 1 0). reflexivity.
Defined.
