(* ===== verification/Sched.v ===== *)
(** * The scheduler (scheduler, sched, yield, sleep and exit of proc.c)

    Several CPUs share [ptable.lock] and the process table.  The code between
    two context switches is a definition each; the number of the CPU that runs
    it is the first argument of the monad.  A context switch goes from a
    process to the loop of [scheduler] on the same CPU or back: the transition
    system keeps, for every CPU, where its code is, and for every process, in
    which call it has given up the CPU. *)

From S2P Require Import Prelude CString Mem Spinlock Kernel File.

Set Default Proof Using "Type".

(** The lock and what the CPUs do with it, [proc] of every CPU, the table. *)
Record sst := mk_sst { ss_sp : spstate; ss_cproc : list (option nat); ss_proc : list proc }.
Definition ss_set_sp x s := mk_sst x (ss_cproc s) (ss_proc s).
Definition ss_set_cproc x s := mk_sst (ss_sp s) x (ss_proc s).
Definition ss_set_proc x s := mk_sst (ss_sp s) (ss_cproc s) x.
#[global] Instance ss_sp_lens : Lens sst spstate := {| lget := ss_sp; lput := ss_set_sp |}.

Notation sp m := (lift (S := sst) (T := spstate) m).

Definition cproc_set (o : option nat) : M sst unit :=
  c ← mypid; modify (λ s, ss_set_cproc (<[Z.to_nat c := o]> (ss_cproc s)) s).
Definition pr (i : nat) : M sst proc :=
  s ← get; match ss_proc s !! i with Some p => mret p | None => undef "process pointer" end.
Definition prset (i : nat) (f : proc → proc) : M sst unit := modify (λ s, ss_set_proc (alter f i (ss_proc s)) s).

(** [mycpu], which is not to be called with interrupts on. *)
Definition mycpu_off : M sst cpu :=
  c ← sp mycpu;
  if negb (eflags_if c =? 0) then panic "mycpu called with interrupts enabled" else mret c.

(** [myproc] *)
Definition cpu_proc : M sst (option nat) :=
  sp pushcli ;;
  mycpu_off ;;
  c ← mypid;
  s ← get;
  o ← aget (ss_cproc s) c;
  sp popcli ;;
  mret o.

(** The checks of [switchuvm]; what it loads are registers. *)
Definition switch_uvm (i : nat) : M sst unit :=
  p ← pr i;
  if p_kstack p =? 0 then panic "switchuvm: no kstack" else
  if p_pgdir p =? 0 then panic "switchuvm: no pgdir" else
  sp pushcli ;;
  sp popcli.

(** ** The loop of the scheduler *)

Definition scheduler_top (pcs : list Z) : M sst unit := sp (cpu_set (set_if true)) ;; sp (acquire pcs).
(** The entry [k]: whether it is switched to. *)
Definition scheduler_pick (k : nat) : M sst bool :=
  p ← pr k;
  if negb (bool_decide (p_state p = RUNNABLE)) then mret false else
  cproc_set (Some k) ;;
  switch_uvm k ;;
  prset k (p_set_state RUNNING) ;;
  mret true.
Definition scheduler_back : M sst unit := cproc_set None.
Definition scheduler_end : M sst unit := sp release.

(** ** The calls that give up the CPU *)

(** [sched] up to the switch, with the saved [intena], and after it. *)
Definition sched_out : M sst Z :=
  o ← cpu_proc;
  match o with
  | None => undef "sched: null process"
  | Some i =>
      h ← sp holding;
      if negb (h : bool) then panic "sched ptable.lock" else
      c ← mycpu_off;
      if negb (c_ncli c =? 1) then panic "sched locks" else
      p ← pr i;
      if bool_decide (p_state p = RUNNING) then panic "sched running" else
      c ← sp mycpu;
      if negb (eflags_if c =? 0) then panic "sched interruptible" else
      c ← mycpu_off;
      mret (c_intena c)
  end.
Definition sched_in (intena : Z) : M sst unit := mycpu_off ;; sp (cpu_set (set_intena intena)).

Definition yield_out (pcs : list Z) : M sst Z :=
  sp (acquire pcs) ;;
  o ← cpu_proc;
  match o with
  | None => undef "yield: null process"
  | Some i => prset i (p_set_state RUNNABLE) ;; sched_out
  end.
Definition yield_in (intena : Z) : M sst unit := sched_in intena ;; sp release.

(** [sleep] on a lock other than [ptable.lock], of which the model has what
    its release and acquisition do to the interrupts of the CPU. *)
Definition sleep_out (pcs : list Z) (chan : channel) : M sst Z :=
  o ← cpu_proc;
  match o with
  | None => panic "sleep"
  | Some i =>
      sp (acquire pcs) ;;
      sp popcli ;;
      prset i (λ p, p_set_state SLEEPING (p_set_chan (Some chan) p)) ;;
      sched_out
  end.
Definition sleep_in (i : nat) (intena : Z) : M sst unit :=
  sched_in intena ;;
  prset i (p_set_chan None) ;;
  sp release ;;
  sp pushcli.

(** [sleep] in [wait], on [ptable.lock]. *)
Definition wait_out (chan : channel) : M sst Z :=
  o ← cpu_proc;
  match o with
  | None => panic "sleep"
  | Some i => prset i (λ p, p_set_state SLEEPING (p_set_chan (Some chan) p)) ;; sched_out
  end.
Definition wait_in (i : nat) (intena : Z) : M sst unit := sched_in intena ;; prset i (p_set_chan None).

(** The end of [exit]. *)
Definition exit_out : M sst Z :=
  o ← cpu_proc;
  match o with
  | None => undef "exit: null process"
  | Some i => prset i (p_set_state ZOMBIE) ;; sched_out
  end.

(** ** Several CPUs *)

(** What a process does when it is switched to. *)
Inductive kont := KForkret | KYield (intena : Z) | KSleep (intena : Z) | KWait (intena : Z) | KZombie.

(** Where the code of a CPU is: before the scan of the table, in it, at the
    return of a switch to a process, in a process that holds [n] other spin
    locks, in a section of [ptable.lock] of a process. *)
Inductive place := Top | Scan | Resumed (i : nat) (k : kont) | Running (i : nat) (n : nat) | Locked (i : nat).

(** [cf_at] also has the entry the scheduler has come to. *)
Record config := mk_config { cf_s : sst; cf_at : list (place * nat); cf_saved : nat → kont }.

Definition resume (i : nat) (k : kont) : M sst unit :=
  match k with
  | KForkret => sp release
  | KYield e => yield_in e
  | KSleep e => sleep_in i e
  | KWait e => wait_in i e
  | KZombie => panic "zombie exit"
  end.
Definition resumed (i : nat) (k : kont) : place :=
  match k with KSleep _ => Running i 1 | KWait _ => Locked i | _ => Running i 0 end.

(** A process that can be switched to has its memory. *)
Definition has_mem (p : proc) : Prop := p_kstack p ≠ 0 ∧ p_pgdir p ≠ 0.

(** What a section of [ptable.lock] does to the table: the loops of [wakeup1]
    and of [kill], [allocproc] (which gives the process its first context), the
    end of [fork], the collection by [wait]; and changes to an entry that leave
    its state alone. *)
Inductive table_op (l : list proc) (saved : nat → kont) : list proc → (nat → kont) → Prop :=
| op_wakeup c : table_op l saved (wake c <$> l) saved
| op_kill i p : l !! i = Some p →
    table_op l saved (<[i := let p := p_set_killed 1 p in if bool_decide (p_state p = SLEEPING) then p_set_state RUNNABLE p else p]> l) saved
| op_alloc i p n : l !! i = Some p → p_state p = UNUSED →
    table_op l saved (<[i := p_set_pid n (p_set_state EMBRYO p)]> l) (<[i := KForkret]> saved)
| op_ready i p : l !! i = Some p → p_state p = EMBRYO → has_mem p → table_op l saved (<[i := p_set_state RUNNABLE p]> l) saved
| op_drop i p : l !! i = Some p → p_state p = EMBRYO ∨ p_state p = ZOMBIE →
    table_op l saved (<[i := p_set_state UNUSED (p_set_kstack 0 p)]> l) saved
| op_entry i p p' : l !! i = Some p → p_state p' = p_state p → (has_mem p → has_mem p') → table_op l saved (<[i := p']> l) saved.

(** CPU [c] goes on at [w]. *)
Definition go (cf : config) (c : nat) (w : place) (k : nat) (s : sst) (saved : nat → kont) : config :=
  mk_config s (<[c := (w, k)]> (cf_at cf)) saved.

Inductive cstep (cf : config) : config → Prop :=
| cs_top c k pcs s' : cf_at cf !! c = Some (Top, k) → scheduler_top pcs (Z.of_nat c) (cf_s cf) = Ret tt s' →
    cstep cf (go cf c Scan 0 s' (cf_saved cf))
| cs_skip c k s' : cf_at cf !! c = Some (Scan, k) → scheduler_pick k (Z.of_nat c) (cf_s cf) = Ret false s' →
    cstep cf (go cf c Scan (S k) s' (cf_saved cf))
| cs_pick c k s' : cf_at cf !! c = Some (Scan, k) → scheduler_pick k (Z.of_nat c) (cf_s cf) = Ret true s' →
    cstep cf (go cf c (Resumed k (cf_saved cf k)) k s' (cf_saved cf))
| cs_end c k s' : cf_at cf !! c = Some (Scan, k) → k = length (ss_proc (cf_s cf)) → scheduler_end (Z.of_nat c) (cf_s cf) = Ret tt s' →
    cstep cf (go cf c Top k s' (cf_saved cf))
| cs_intr c k pcs ch s' : cf_at cf !! c = Some (Top, k) →
    (sp (acquire pcs) ;; modify (λ s, ss_set_proc (wake ch <$> ss_proc s) s) ;; sp release) (Z.of_nat c) (cf_s cf) = Ret tt s' →
    cstep cf (go cf c Top k s' (cf_saved cf))
| cs_resume c i kt k s' : cf_at cf !! c = Some (Resumed i kt, k) → resume i kt (Z.of_nat c) (cf_s cf) = Ret tt s' →
    cstep cf (go cf c (resumed i kt) k s' (cf_saved cf))
| cs_yield c i k pcs e s' : cf_at cf !! c = Some (Running i 0, k) →
    (e ← yield_out pcs; scheduler_back ;; mret e) (Z.of_nat c) (cf_s cf) = Ret e s' →
    cstep cf (go cf c Scan (S k) s' (<[i := KYield e]> (cf_saved cf)))
| cs_sleep c i k pcs ch e s' : cf_at cf !! c = Some (Running i 1, k) →
    (e ← sleep_out pcs ch; scheduler_back ;; mret e) (Z.of_nat c) (cf_s cf) = Ret e s' →
    cstep cf (go cf c Scan (S k) s' (<[i := KSleep e]> (cf_saved cf)))
| cs_lock c i k pcs s' : cf_at cf !! c = Some (Running i 0, k) → sp (acquire pcs) (Z.of_nat c) (cf_s cf) = Ret tt s' →
    cstep cf (go cf c (Locked i) k s' (cf_saved cf))
| cs_table c i k l saved : cf_at cf !! c = Some (Locked i, k) → table_op (ss_proc (cf_s cf)) (cf_saved cf) l saved →
    cstep cf (go cf c (Locked i) k (ss_set_proc l (cf_s cf)) saved)
| cs_unlock c i k s' : cf_at cf !! c = Some (Locked i, k) → sp release (Z.of_nat c) (cf_s cf) = Ret tt s' →
    cstep cf (go cf c (Running i 0) k s' (cf_saved cf))
| cs_wait c i k ch e s' : cf_at cf !! c = Some (Locked i, k) →
    (e ← wait_out ch; scheduler_back ;; mret e) (Z.of_nat c) (cf_s cf) = Ret e s' →
    cstep cf (go cf c Scan (S k) s' (<[i := KWait e]> (cf_saved cf)))
| cs_exit c i k e s' : cf_at cf !! c = Some (Locked i, k) →
    (e ← exit_out; scheduler_back ;; mret e) (Z.of_nat c) (cf_s cf) = Ret e s' →
    cstep cf (go cf c Scan (S k) s' (<[i := KZombie]> (cf_saved cf)))
| cs_push c i n k s' : cf_at cf !! c = Some (Running i n, k) → sp pushcli (Z.of_nat c) (cf_s cf) = Ret tt s' →
    cstep cf (go cf c (Running i (S n)) k s' (cf_saved cf))
| cs_pop c i n k s' : cf_at cf !! c = Some (Running i (S n), k) → sp popcli (Z.of_nat c) (cf_s cf) = Ret tt s' →
    cstep cf (go cf c (Running i n) k s' (cf_saved cf))
| cs_if c i k b s' : cf_at cf !! c = Some (Running i 0, k) → sp (cpu_set (set_if b)) (Z.of_nat c) (cf_s cf) = Ret tt s' →
    cstep cf (go cf c (Running i 0) k s' (cf_saved cf)).

(** As the CPUs enter [scheduler]: the lock is free, no process runs. *)
Definition sched_boot (cf : config) : Prop :=
  lk_locked (sp_lk (ss_sp (cf_s cf))) = 0 ∧ lk_cpu (sp_lk (ss_sp (cf_s cf))) = None ∧
  length (sp_cpus (ss_sp (cf_s cf))) = length (cf_at cf) ∧
  Forall (λ k, c_ncli k = 0) (sp_cpus (ss_sp (cf_s cf))) ∧
  ss_cproc (cf_s cf) = replicate (length (cf_at cf)) None ∧
  Forall (λ w, w.1 = Top) (cf_at cf) ∧
  (∀ i p, ss_proc (cf_s cf) !! i = Some p →
     p_state p = UNUSED ∨ (p_state p = RUNNABLE ∧ has_mem p ∧ cf_saved cf i = KForkret)).

(** ** The invariant *)

(** The process of a CPU, whether it has [ptable.lock], how many it has. *)
Definition cur (w : place) : option nat :=
  match w with Top | Scan => None | Resumed i _ | Running i _ | Locked i => Some i end.
Definition holds (w : place) : bool :=
  match w with Scan | Resumed _ _ | Locked _ => true | _ => false end.
Definition nest (w : place) : Z :=
  match w with Top => 0 | Running _ n => Z.of_nat n | _ => 1 end.

Record lock_ok (x : spstate) (ws : list (place * nat)) : Prop := mk_lock_ok {
  lo_len : length (sp_cpus x) = length ws;
  lo_cpu : ∀ c w k u, ws !! c = Some (w, k) → sp_cpus x !! c = Some u → c_ncli u = nest w ∧ (0 < nest w → c_if u = false);
  lo_one : ∀ c d w v, ws !! c = Some w → ws !! d = Some v → holds w.1 = true → holds v.1 = true → c = d;
  lo_locked : lk_locked (sp_lk x) ≠ 0 ↔ ∃ c w, ws !! c = Some w ∧ holds w.1 = true;
  lo_owner : ∀ c : nat, lk_cpu (sp_lk x) = Some (Z.of_nat c) ↔ ∃ w, ws !! c = Some w ∧ holds w.1 = true;
}.

(** A process that can still be switched to. *)
Definition lives (p : proc) : Prop := p_state p ≠ UNUSED ∧ p_state p ≠ ZOMBIE.
Definition ready (p : proc) : Prop := p_state p = RUNNABLE ∨ p_state p = SLEEPING ∨ p_state p = RUNNING.

Record proc_ok (l : list proc) (ws : list (place * nat)) (saved : nat → kont) : Prop := mk_proc_ok {
  po_one : ∀ c d w v i, ws !! c = Some w → ws !! d = Some v → cur w.1 = Some i → cur v.1 = Some i → c = d;
  po_cur : ∀ c w i, ws !! c = Some w → cur w.1 = Some i → ∃ p, l !! i = Some p ∧ p_state p = RUNNING;
  po_running : ∀ i p, l !! i = Some p → p_state p = RUNNING → ∃ c w, ws !! c = Some w ∧ cur w.1 = Some i;
  po_saved : ∀ i p, l !! i = Some p → lives p → p_state p ≠ RUNNING → saved i ≠ KZombie;
  po_mem : ∀ i p, l !! i = Some p → ready p → has_mem p;
  po_resumed : ∀ c i kt k, ws !! c = Some (Resumed i kt, k) → kt ≠ KZombie;
  po_scan : ∀ c k, ws !! c = Some (Scan, k) → (k ≤ length l)%nat;
  po_index : ∀ c w k, ws !! c = Some (w, k) → cur w ≠ None → (k < length l)%nat;
}.

Record cinv (cf : config) : Prop := mk_cinv {
  ci_lock : lock_ok (ss_sp (cf_s cf)) (cf_at cf);
  ci_cproc : ss_cproc (cf_s cf) = (λ w, cur w.1) <$> cf_at cf;
  ci_proc : proc_ok (ss_proc (cf_s cf)) (cf_at cf) (cf_saved cf);
}.

(** ** Lemmas *)

Lemma at_insert {A} (ws : list A) (c d : nat) (w' v : A) :
  <[c := w']> ws !! d = Some v → (d = c ∧ v = w') ∨ (d ≠ c ∧ ws !! d = Some v).
Proof. intros Hd. apply list_lookup_insert_Some in Hd as [(-> & -> & _)|[Hne Hd]]; auto. Qed.

(** What the lock goes through when a CPU goes from [w] to [w']. *)
Definition lock_move (c : nat) (w w' : place) (l l' : spinlock) : Prop :=
  (holds w' = holds w ∧ lk_locked l' = lk_locked l ∧ ∀ d : nat, lk_cpu l' = Some (Z.of_nat d) ↔ lk_cpu l = Some (Z.of_nat d)) ∨
  (holds w = false ∧ holds w' = true ∧ lk_locked l = 0 ∧ lk_locked l' ≠ 0 ∧ lk_cpu l' = Some (Z.of_nat c)) ∨
  (holds w = true ∧ holds w' = false ∧ lk_locked l' = 0 ∧ lk_cpu l' = None).

Lemma lock_update x x' ws (c : nat) w k w' k' u' :
  lock_ok x ws → ws !! c = Some (w, k) → sp_cpus x' = <[c := u']> (sp_cpus x) →
  c_ncli u' = nest w' → (0 < nest w' → c_if u' = false) → lock_move c w w' (sp_lk x) (sp_lk x') →
  lock_ok x' (<[c := (w', k')]> ws).
Proof.
  intros [Hlen Hcpu H1 Hlk Ho] Hw Ex Hn Hif Hmv. assert (c < length ws)%nat as Hlt by (by eapply lookup_lt_Some).
  assert (∀ d v, d ≠ c → ws !! d = Some v → <[c := (w', k')]> ws !! d = Some v) as Hkeep by (intros; by rewrite list_lookup_insert_ne).
  assert (<[c := (w', k')]> ws !! c = Some (w', k')) as Hself by (by apply list_lookup_insert_eq).
  assert (∀ d v, ws !! d = Some v → holds v.1 = true → lk_locked (sp_lk x) ≠ 0) as Hany by (intros d v Hd Hh; apply Hlk; eauto).
  split.
  - rewrite Ex, !length_insert. done.
  - intros d v kv u [[-> [= -> ->]]|[Hne Hd]]%at_insert; rewrite Ex.
    + rewrite list_lookup_insert_eq by lia. by intros [= <-].
    + rewrite list_lookup_insert_ne by done. by apply (Hcpu d v kv).
  - intros d e v v' [[-> ->]|[Hd1 Hd]]%at_insert [[-> ->]|[He1 He]]%at_insert Hv Hv'; try done; simpl in *.
    + destruct Hmv as [[Eh _]|[(_ & _ & Hz & _)|(_ & Hh & _)]]; [|by destruct (Hany _ _ He Hv')|congruence].
      apply (H1 c e (w, k) v'); simpl; congruence.
    + destruct Hmv as [[Eh _]|[(_ & _ & Hz & _)|(_ & Hh & _)]]; [|by destruct (Hany _ _ Hd Hv)|congruence].
      apply (H1 d c v (w, k)); simpl; congruence.
    + by apply (H1 d e v v').
  - destruct Hmv as [(Eh & -> & _)|[(Hh & Hh' & Hz & Hnz & _)|(Hh & Hh' & Hz & _)]].
    + rewrite Hlk. split; intros (d & v & Hd & Hv).
      * destruct (decide (d = c)) as [->|]; [|exists d, v; auto]. exists c, (w', k'). rewrite Hw in Hd. injection Hd as <-. split; [done|]. simpl in *. congruence.
      * apply at_insert in Hd as [[-> ->]|[Hne Hd]]; [|exists d, v; auto]. exists c, (w, k). split; [done|]. simpl in *. congruence.
    + split; [intros _; exists c, (w', k'); auto|done].
    + split; [done|]. intros (d & v & [[-> ->]|[Hne Hd]]%at_insert & Hv); [simpl in Hv; congruence|]. destruct Hne. by apply (H1 d c v (w, k)).
  - intros d. destruct Hmv as [(Eh & _ & El)|[(Hh & Hh' & Hz & Hnz & ->)|(Hh & Hh' & Hz & ->)]].
    + rewrite El, Ho. split; intros (v & Hd & Hv).
      * destruct (decide (d = c)) as [->|]; [|exists v; auto]. exists (w', k'). rewrite Hw in Hd. injection Hd as <-. split; [done|]. simpl in *. congruence.
      * apply at_insert in Hd as [[-> ->]|[Hne Hd]]; [|exists v; auto]. exists (w, k). split; [done|]. simpl in *. congruence.
    + split; [intros [= E%Nat2Z.inj]; subst d; exists (w', k'); auto|].
      intros (v & [[-> ->]|[Hne Hd]]%at_insert & Hv); [done|]. by destruct (Hany _ _ Hd Hv).
    + split; [done|]. intros (v & [[-> ->]|[Hne Hd]]%at_insert & Hv); [simpl in Hv; congruence|]. destruct Hne. by apply (H1 d c v (w, k)).
Qed.

(** One entry of the table through a section of the lock. *)
Definition tame (k k' : kont) (p p' : proc) : Prop :=
  (p_state p' = RUNNING ↔ p_state p = RUNNING) ∧
  (lives p' → p_state p' ≠ RUNNING → k' = KForkret ∨ (lives p ∧ k' = k)) ∧
  (ready p' → has_mem p' ∨ (ready p ∧ (has_mem p → has_mem p'))).

Lemma tame_id k p : tame k k p p.
Proof. unfold tame. naive_solver. Qed.

Lemma proc_tame l l' ws saved saved' :
  proc_ok l ws saved → length l' = length l →
  (∀ i p p', l !! i = Some p → l' !! i = Some p' → tame (saved i) (saved' i) p p') → proc_ok l' ws saved'.
Proof.
  intros [H1 H2 H3 H4 H5 H6 H7 H8] Hlen Ht.
  assert (∀ i p', l' !! i = Some p' → ∃ p, l !! i = Some p ∧ tame (saved i) (saved' i) p p') as Hb.
  { intros i p' Hp'. destruct (lookup_lt_is_Some_2 l i) as [p Hp]; [rewrite <- Hlen; by eapply lookup_lt_Some|]. exists p. auto. }
  split; rewrite ?Hlen; try done.
  - intros c w i Hw Hi. destruct (H2 c w i Hw Hi) as (p & Hp & Hr). destruct (lookup_lt_is_Some_2 l' i) as [p' Hp'].
    { rewrite Hlen. by eapply lookup_lt_Some. } exists p'. split; [done|]. by apply (Ht i p p' Hp Hp').
  - intros i p' Hp' Hr. destruct (Hb i p' Hp') as (p & Hp & T & _). apply (H3 i p Hp). by apply T.
  - intros i p' Hp' Hl Hr. destruct (Hb i p' Hp') as (p & Hp & T1 & T2 & _). destruct (T2 Hl Hr) as [-> | [Hl' ->]]; [done|].
    apply (H4 i p Hp Hl'). intros E. by apply Hr, T1.
  - intros i p' Hp' Hr. destruct (Hb i p' Hp') as (p & Hp & _ & _ & T). destruct (T Hr) as [|[Hr' Hm]]; [done|]. by apply Hm, (H5 i p).
Qed.

Lemma proc_place l ws saved c w k w' k' :
  proc_ok l ws saved → ws !! c = Some (w, k) → cur w' = cur w →
  (∀ i kt, w' = Resumed i kt → kt ≠ KZombie) → (w' = Scan → (k' ≤ length l)%nat) → (cur w' ≠ None → k' = k) →
  proc_ok l (<[c := (w', k')]> ws) saved.
Proof.
  intros [H1 H2 H3 H4 H5 H6 H7 H8] Hw Hc Hz Hs Hk. assert (c < length ws)%nat as Hlt by (by eapply lookup_lt_Some).
  assert (∀ d v, <[c := (w', k')]> ws !! d = Some v → ∃ v', ws !! d = Some v' ∧ cur v'.1 = cur v.1) as Hb.
  { intros d v [[-> ->]|[Hne Hd]]%at_insert; [by exists (w, k)|by exists v]. }
  split; try done.
  - intros d e v v' i (v1 & Hd & <-)%Hb (v2 & He & <-)%Hb. by apply (H1 d e v1 v2 i).
  - intros d v i (v1 & Hd & <-)%Hb. by apply (H2 d v1).
  - intros i p Hp Hr. destruct (H3 i p Hp Hr) as (d & v & Hd & Hi). destruct (decide (d = c)) as [->|].
    + exists c, (w', k'). rewrite list_lookup_insert_eq by done. split; [done|]. simplify_eq. simpl in *. congruence.
    + exists d, v. by rewrite list_lookup_insert_ne.
  - intros d i kt kd [[-> [= <- <-]]|[Hne Hd]]%at_insert; [by eapply Hz|by eapply H6].
  - intros d kd [[-> [= <- <-]]|[Hne Hd]]%at_insert; [by apply Hs|by eapply H7].
  - intros d v kd [[-> [= -> ->]]|[Hne Hd]]%at_insert Hn; [|by eapply H8]. rewrite (Hk Hn). apply (H8 c w k Hw). by rewrite <- Hc.
Qed.

(** A process is switched to. *)
Lemma proc_in l ws saved c k p :
  proc_ok l ws saved → ws !! c = Some (Scan, k) → l !! k = Some p → p_state p = RUNNABLE →
  proc_ok (<[k := p_set_state RUNNING p]> l) (<[c := (Resumed k (saved k), k)]> ws) saved.
Proof.
  intros [H1 H2 H3 H4 H5 H6 H7 H8] Hw Hp Hr. assert (c < length ws)%nat as Hlt by (by eapply lookup_lt_Some).
  assert (k < length l)%nat as Lk by (by eapply lookup_lt_Some).
  assert (∀ d v, ws !! d = Some v → cur v.1 ≠ Some k) as Hno.
  { intros d v Hd Hk. destruct (H2 d v k Hd Hk) as (q & Hq & Hqr). congruence. }
  split.
  - intros d e v v' i [[-> ->]|[Hd1 Hd]]%at_insert [[-> ->]|[He1 He]]%at_insert; simpl; try done.
    + intros [= <-] Hi. by destruct (Hno e v').
    + intros Hi [= <-]. by destruct (Hno d v).
    + by apply (H1 d e v v' i).
  - intros d v i [[-> ->]|[Hd1 Hd]]%at_insert Hi; simpl in Hi.
    + injection Hi as <-. exists (p_set_state RUNNING p). by rewrite list_lookup_insert_eq.
    + destruct (H2 d v i Hd Hi) as (q & Hq & Hqr). exists q. rewrite list_lookup_insert_ne; [done|]. intros ->. by destruct (Hno d v).
  - intros i q [[-> ->]|[Hi Hq]]%at_insert Hqr.
    + exists c, (Resumed k (saved k), k). by rewrite list_lookup_insert_eq.
    + destruct (H3 i q Hq Hqr) as (d & v & Hd & Hv). exists d, v. split; [|done]. rewrite list_lookup_insert_ne; [done|]. intros ->. by simplify_eq.
  - intros i q [[-> ->]|[Hi Hq]]%at_insert Hl Hqr; [done|by apply (H4 i q)].
  - intros i q [[-> ->]|[Hi Hq]]%at_insert Hq'; [|by apply (H5 i q)]. apply (H5 k p Hp). by left.
  - intros d i kt kd [[-> [= -> -> ->]]|[Hne Hd]]%at_insert; [|by eapply H6]. apply (H4 k p Hp); [|congruence]. split; congruence.
  - intros d kd [[-> [=]]|[Hne Hd]]%at_insert. rewrite length_insert. by eapply H7.
  - intros d v kd [[-> [= -> ->]]|[Hne Hd]]%at_insert Hn; rewrite length_insert; [done|by eapply H8].
Qed.

(** A process gives up the CPU. *)
Lemma proc_out l ws saved c w k i p p' kt :
  proc_ok l ws saved → ws !! c = Some (w, k) → cur w = Some i → l !! i = Some p → p_state p' ≠ RUNNING →
  (kt = KZombie → p_state p' = ZOMBIE) → (has_mem p → has_mem p') →
  proc_ok (<[i := p']> l) (<[c := (Scan, S k)]> ws) (<[i := kt]> saved).
Proof.
  intros [H1 H2 H3 H4 H5 H6 H7 H8] Hw Hi Hp Hnr Hz Hm. assert (c < length ws)%nat as Hlt by (by eapply lookup_lt_Some).
  assert (i < length l)%nat as Li by (by eapply lookup_lt_Some). destruct (H2 c (w, k) i Hw Hi) as (q & Hq & Hr). simplify_eq.
  assert (∀ d v, d ≠ c → ws !! d = Some v → cur v.1 ≠ Some i) as Hno.
  { intros d v Hne Hd Hk. apply Hne. by apply (H1 d c v (w, k) i). }
  split.
  - intros d e v v' j [[-> ->]|[Hd1 Hd]]%at_insert [[-> ->]|[He1 He]]%at_insert; try done. by apply (H1 d e v v' j).
  - intros d v j [[-> ->]|[Hd1 Hd]]%at_insert Hj; [done|]. destruct (H2 d v j Hd Hj) as (r & Hrl & Hrr). exists r.
    rewrite list_lookup_insert_ne; [done|]. intros ->. by destruct (Hno d v).
  - intros j r [[-> ->]|[Hj Hr']]%at_insert Hrr; [done|]. destruct (H3 j r Hr' Hrr) as (d & v & Hd & Hv). exists d, v. split; [|done].
    rewrite list_lookup_insert_ne; [done|]. intros ->. simplify_eq. simpl in Hv. congruence.
  - intros j r [[-> ->]|[Hj Hr']]%at_insert Hl Hrr.
    + rewrite fn_lookup_insert. intros ->. apply Hl. by apply Hz.
    + rewrite fn_lookup_insert_ne by done. by apply (H4 j r).
  - intros j r [[-> ->]|[Hj Hr']]%at_insert Hr2; [|by apply (H5 j r)]. apply Hm, (H5 i p Hp). right. by right.
  - intros d j kt' kd [[-> [=]]|[Hne Hd]]%at_insert. by eapply H6.
  - intros d kd [[-> [= ->]]|[Hne Hd]]%at_insert; rewrite length_insert; [|by eapply H7]. apply (H8 c w k Hw). by rewrite Hi.
  - intros d v kd [[-> [= -> ->]]|[Hne Hd]]%at_insert Hn; rewrite length_insert; [done|by eapply H8].
Qed.

Lemma op_tame l saved l' saved' :
  table_op l saved l' saved' → length l' = length l ∧ ∀ i p p', l !! i = Some p → l' !! i = Some p' → tame (saved i) (saved' i) p p'.
Proof.
  intros [c|i p Hp|i p n Hp Hs|i p Hp Hs Hm|i p Hp Hs|i p q Hp Hs Hm]; (split; [by rewrite ?length_fmap, ?length_insert|]).
  - intros j q q' Hq Hq'. rewrite list_lookup_fmap, Hq in Hq'. injection Hq' as <-. unfold wake.
    case_bool_decide as E; [case_bool_decide|]; try apply tame_id. unfold tame, lives, ready, has_mem. simpl. rewrite E. naive_solver.
  - intros j q q' Hq [[-> ->]|[Hne Hq']]%at_insert; simplify_eq; [|apply tame_id]. simpl.
    case_bool_decide as E; unfold tame, lives, ready, has_mem; simpl; [rewrite E|]; naive_solver.
  - intros j q q' Hq [[-> ->]|[Hne Hq']]%at_insert; simplify_eq.
    + rewrite fn_lookup_insert. unfold tame, lives, ready. simpl. rewrite Hs. naive_solver.
    + rewrite fn_lookup_insert_ne by done. apply tame_id.
  - intros j q q' Hq [[-> ->]|[Hne Hq']]%at_insert; simplify_eq; [|apply tame_id]. unfold tame, lives, ready, has_mem in *. simpl. rewrite Hs. naive_solver.
  - intros j q q' Hq [[-> ->]|[Hne Hq']]%at_insert; simplify_eq; [|apply tame_id]. unfold tame, lives, ready. simpl. destruct Hs as [-> | ->]; naive_solver.
  - intros j r r' Hr [[-> ->]|[Hne Hr']]%at_insert; simplify_eq; [|apply tame_id]. unfold tame, lives, ready. rewrite Hs. naive_solver.
Qed.

(** ** The code on a CPU *)

Lemma ss_set_id s : ss_set_sp (ss_sp s) s = s.
Proof. by destruct s. Qed.

Section run.
Context (c : nat) (s : sst) (u : cpu) (Hu : sp_cpus (ss_sp s) !! c = Some u).

Definition on_cpu (u' : cpu) (l : spinlock) : sst := ss_set_sp (sp_put c u' (sp_set_lk l (ss_sp s))) s.

Lemma on_cpu_id : on_cpu u (sp_lk (ss_sp s)) = s.
Proof using Hu.
  unfold on_cpu. replace (sp_set_lk (sp_lk (ss_sp s)) (ss_sp s)) with (ss_sp s) by (by destruct (ss_sp s)). rewrite sp_put_id by done. by destruct s.
Qed.

Lemma sp_ret {A} (m : M spstate A) a x : m (Z.of_nat c) (ss_sp s) = Ret a x → sp m (Z.of_nat c) s = Ret a (ss_set_sp x s).
Proof. intros E. exact (lift_Ret m (Z.of_nat c) s a x E). Qed.

Lemma sp_acquire_run pcs : 0 ≤ c_ncli u → lk_locked (sp_lk (ss_sp s)) = 0 →
  sp (acquire pcs) (Z.of_nat c) s = Ret tt (on_cpu (push u) (mk_spinlock 1 (Some (Z.of_nat c)) pcs)).
Proof using Hu. intros Hn Hl. apply sp_ret. by apply acquire_run. Qed.

Lemma sp_release_run : c_if u = false → 1 ≤ c_ncli u → held_by c (ss_sp s) = true →
  sp release (Z.of_nat c) s = Ret tt (on_cpu (pop u) (mk_spinlock 0 None (<[0%nat := 0]> (lk_pcs (sp_lk (ss_sp s)))))).
Proof using Hu. intros Hif Hn Hh. apply sp_ret. by apply release_run. Qed.

Lemma mycpu_off_run : c_if u = false → mycpu_off (Z.of_nat c) s = Ret u s.
Proof using Hu.
  intros Hif. unfold mycpu_off. mrun (sp_ret _ _ _ (mycpu_run c (ss_sp s) u Hu)). unfold eflags_if. rewrite Hif. by destruct s.
Qed.

End run.

Section run2.
Context (c : nat) (s : sst) (u : cpu) (o : option nat).
Context (Hu : sp_cpus (ss_sp s) !! c = Some u) (Ho : ss_cproc s !! c = Some o) (Hif : c_if u = false) (Hn : 1 ≤ c_ncli u).

Lemma cpu_proc_run : cpu_proc (Z.of_nat c) s = Ret o s.
Proof using Hu Ho Hif Hn.
  unfold cpu_proc. mrun (sp_ret c s _ _ _ (pushcli_run c (ss_sp s) u Hu)). set (s1 := ss_set_sp _ s).
  assert (sp_cpus (ss_sp s1) !! c = Some (push u)) as Hu1 by (by eapply sp_put_lookup).
  mrun (mycpu_off_run c s1 _ Hu1 eq_refl). cbv [mypid]. rewrite (bind_Ret _ _ _ _ (Z.of_nat c) _ eq_refl). cbv beta. mstep.
  change (ss_cproc s1) with (ss_cproc s). mrun (aget_Ret (ss_cproc s) c (Z.of_nat c) s1 o Ho).
  mrun (sp_ret c s1 _ _ _ (popcli_run c (ss_sp s1) (push u) Hu1 eq_refl ltac:(simpl; lia))).
  unfold s1. cbn [ss_sp ss_set_sp]. rewrite sp_put_put, pop_push, sp_put_id by done. change (Ret o (ss_set_sp (ss_sp s) s) = Ret o s). by rewrite ss_set_id.
Qed.

Lemma sp_holding_run : sp holding (Z.of_nat c) s = Ret (held_by c (ss_sp s)) s.
Proof using Hu Hif Hn. rewrite (sp_ret c s _ _ _ (holding_run c (ss_sp s) u Hu Hif Hn)). by rewrite ss_set_id. Qed.

Lemma sched_out_run i p :
  o = Some i → ss_proc s !! i = Some p → p_state p ≠ RUNNING → c_ncli u = 1 → held_by c (ss_sp s) = true →
  sched_out (Z.of_nat c) s = Ret (c_intena u) s.
Proof using Hu Ho Hif Hn.
  intros Eo Hp Hr H1 Hh. unfold sched_out. mrun cpu_proc_run. rewrite Eo. mrun sp_holding_run. rewrite Hh. cbn [negb].
  mrun (mycpu_off_run c s u Hu Hif). rewrite H1. cbn [negb Z.eqb Pos.eqb].
  unfold pr. rewrite (bind_Ret _ _ _ _ p s); [|rewrite (bind_Ret get _ _ s s s eq_refl); by rewrite Hp].
  rewrite bool_decide_eq_false_2 by done. mrun (sp_ret c s _ _ _ (mycpu_run c (ss_sp s) u Hu)).
  unfold eflags_if. rewrite Hif. cbn [negb Z.eqb]. rewrite ss_set_id.
  by mrun (mycpu_off_run c s u Hu Hif).
Qed.

End run2.

Lemma cproc_set_run (c : nat) s o : cproc_set o (Z.of_nat c) s = Ret tt (ss_set_cproc (<[c := o]> (ss_cproc s)) s).
Proof. unfold cproc_set. cbv [mypid mbind M_bind modify]. by rewrite Nat2Z.id. Qed.

(** The parts of the calls, on a CPU [u] whose process is [i]. *)
Section calls.
Context (c : nat) (s : sst) (u : cpu) (i : nat) (p : proc).
Context (Hu : sp_cpus (ss_sp s) !! c = Some u) (Hp : ss_proc s !! i = Some p).

Lemma pr_run pid : pr i pid s = Ret p s.
Proof using Hp. unfold pr. rewrite (bind_Ret get _ pid s s s eq_refl). by rewrite Hp. Qed.
Lemma prset_run f pid : prset i f pid s = Ret tt (ss_set_proc (<[i := f p]> (ss_proc s)) s).
Proof using Hp. unfold prset, modify. by rewrite (alter_at _ _ _ _ Hp). Qed.

Context (Hc : ss_cproc s !! c = Some (Some i)).

(** The CPU [u'] has the lock [l]; its process [i], now [q], has given it up. *)
Definition gave (u' : cpu) (l : spinlock) (q : proc) : sst :=
  ss_set_cproc (<[c := None]> (ss_cproc s)) (ss_set_proc (<[i := q]> (ss_proc s)) (on_cpu c s u' l)).

Lemma give_up_run f :
  c_if u = false → c_ncli u = 1 → held_by c (ss_sp s) = true → p_state (f p) ≠ RUNNING →
  (e ← (prset i f ;; sched_out); scheduler_back ;; mret e) (Z.of_nat c) s = Ret (c_intena u) (gave u (sp_lk (ss_sp s)) (f p)).
Proof using Hu Hp Hc.
  intros Hif Hn Hh Hr.
  rewrite (bind_Ret _ _ _ _ (c_intena u) (ss_set_proc (<[i := f p]> (ss_proc s)) s)).
  - mrun (cproc_set_run c (ss_set_proc (<[i := f p]> (ss_proc s)) s) None). unfold gave. by rewrite on_cpu_id.
  - mrun (prset_run f (Z.of_nat c)). eapply (sched_out_run c _ u (Some i)); try done; [lia|].
    simpl. apply list_lookup_insert_eq. by eapply lookup_lt_Some.
Qed.

End calls.

Definition taken (c : nat) (pcs : list Z) : spinlock := mk_spinlock 1 (Some (Z.of_nat c)) pcs.
Lemma taken_held c s u pcs : held_by c (ss_sp (on_cpu c s u (taken c pcs))) = true.
Proof. unfold held_by. simpl. by rewrite bool_decide_eq_true_2. Qed.
Lemma on_cpu_lookup c s u u' l : sp_cpus (ss_sp s) !! c = Some u → sp_cpus (ss_sp (on_cpu c s u' l)) !! c = Some u'.
Proof. intros Hu. simpl. apply list_lookup_insert_eq. by eapply lookup_lt_Some. Qed.
Lemma on_cpu_twice c s u l u' l' : on_cpu c (on_cpu c s u l) u' l' = on_cpu c s u' l'.
Proof. unfold on_cpu, sp_put, sp_set_lk, sp_set_cpus, ss_set_sp. simpl. by rewrite list_insert_insert_eq. Qed.
Lemma gave_on_cpu c s u l i u' l' q : gave c (on_cpu c s u l) i u' l' q = gave c s i u' l' q.
Proof. unfold gave. by rewrite on_cpu_twice. Qed.

Section giving.
Context (c : nat) (s : sst) (u : cpu) (i : nat) (p : proc).
Context (Hu : sp_cpus (ss_sp s) !! c = Some u) (Hp : ss_proc s !! i = Some p) (Hc : ss_cproc s !! c = Some (Some i)).

Lemma yield_run pcs :
  c_ncli u = 0 → lk_locked (sp_lk (ss_sp s)) = 0 →
  (e ← yield_out pcs; scheduler_back ;; mret e) (Z.of_nat c) s = Ret (eflags_if u) (gave c s i (push u) (taken c pcs) (p_set_state RUNNABLE p)).
Proof using Hu Hp Hc.
  intros Hn Hl. unfold yield_out. rewrite bind_assoc. mrun (sp_acquire_run c s u Hu pcs ltac:(lia) Hl). set (s1 := on_cpu _ _ _ _).
  pose proof (on_cpu_lookup c s u (push u) (taken c pcs) Hu : sp_cpus (ss_sp s1) !! c = Some (push u)) as Hu1.
  rewrite bind_assoc. mrun (cpu_proc_run c s1 (push u) (Some i) Hu1 Hc eq_refl ltac:(simpl; lia)).
  rewrite (give_up_run c s1 (push u) i p Hu1 Hp Hc (p_set_state RUNNABLE)); [|done|simpl; lia|apply taken_held|done].
  unfold s1. rewrite gave_on_cpu. unfold push. simpl. by rewrite Hn.
Qed.

Lemma sleep_run pcs ch :
  c_ncli u = 1 → c_if u = false → lk_locked (sp_lk (ss_sp s)) = 0 →
  (e ← sleep_out pcs ch; scheduler_back ;; mret e) (Z.of_nat c) s =
    Ret (c_intena u) (gave c s i u (taken c pcs) (p_set_state SLEEPING (p_set_chan (Some ch) p))).
Proof using Hu Hp Hc.
  intros Hn Hif Hl. unfold sleep_out. rewrite bind_assoc. mrun (cpu_proc_run c s u (Some i) Hu Hc Hif ltac:(lia)).
  rewrite bind_assoc. mrun (sp_acquire_run c s u Hu pcs ltac:(lia) Hl). set (s1 := on_cpu _ _ _ _).
  pose proof (on_cpu_lookup c s u (push u) (taken c pcs) Hu : sp_cpus (ss_sp s1) !! c = Some (push u)) as Hu1.
  rewrite bind_assoc. mrun (sp_ret c s1 popcli _ _ (popcli_run c (ss_sp s1) (push u) Hu1 eq_refl ltac:(simpl; lia))).
  rewrite pop_push by (done || lia). change (ss_set_sp _ s1) with (on_cpu c s1 u (taken c pcs)). unfold s1. rewrite on_cpu_twice.
  set (s2 := on_cpu _ _ _ _). pose proof (on_cpu_lookup c s u u (taken c pcs) Hu : sp_cpus (ss_sp s2) !! c = Some u) as Hu2.
  rewrite (give_up_run c s2 u i p Hu2 Hp Hc); [|done|done|apply taken_held|done]. unfold s2. by rewrite gave_on_cpu.
Qed.

Context (Hn : c_ncli u = 1) (Hif : c_if u = false) (Hh : held_by c (ss_sp s) = true).

Lemma wait_run ch :
  (e ← wait_out ch; scheduler_back ;; mret e) (Z.of_nat c) s =
    Ret (c_intena u) (gave c s i u (sp_lk (ss_sp s)) (p_set_state SLEEPING (p_set_chan (Some ch) p))).
Proof using Hu Hp Hc Hn Hif Hh.
  unfold wait_out. rewrite bind_assoc. mrun (cpu_proc_run c s u (Some i) Hu Hc Hif ltac:(lia)).
  by rewrite (give_up_run c s u i p Hu Hp Hc).
Qed.

Lemma exit_run_out :
  (e ← exit_out; scheduler_back ;; mret e) (Z.of_nat c) s = Ret (c_intena u) (gave c s i u (sp_lk (ss_sp s)) (p_set_state ZOMBIE p)).
Proof using Hu Hp Hc Hn Hif Hh.
  unfold exit_out. rewrite bind_assoc. mrun (cpu_proc_run c s u (Some i) Hu Hc Hif ltac:(lia)).
  by rewrite (give_up_run c s u i p Hu Hp Hc).
Qed.

End giving.

Lemma switch_uvm_run (c : nat) s u i p :
  sp_cpus (ss_sp s) !! c = Some u → ss_proc s !! i = Some p → c_ncli u = 1 → c_if u = false → has_mem p →
  switch_uvm i (Z.of_nat c) s = Ret tt s.
Proof.
  intros Hu Hp Hn Hif [Hk Hg]. unfold switch_uvm. mrun (pr_run s i p Hp (Z.of_nat c)). rewrite !(proj2 (Z.eqb_neq _ _)) by done.
  mrun (sp_ret c s _ _ _ (pushcli_run c (ss_sp s) u Hu)). set (s1 := ss_set_sp _ s).
  assert (sp_cpus (ss_sp s1) !! c = Some (push u)) as Hu1 by (by eapply sp_put_lookup).
  rewrite (sp_ret c s1 _ _ _ (popcli_run c (ss_sp s1) (push u) Hu1 eq_refl ltac:(simpl; lia))).
  unfold s1. cbn [ss_sp ss_set_sp]. rewrite sp_put_put, pop_push, sp_put_id by (done || lia).
  change (Ret tt (ss_set_sp (ss_sp s) s) = Ret tt s). by rewrite ss_set_id.
Qed.

Section taking.
Context (c : nat) (s : sst) (u : cpu) (i : nat) (p : proc).
Context (Hu : sp_cpus (ss_sp s) !! c = Some u) (Hp : ss_proc s !! i = Some p) (Hn : c_ncli u = 1) (Hif : c_if u = false).

Lemma pick_run :
  (p_state p = RUNNABLE → has_mem p) →
  scheduler_pick i (Z.of_nat c) s =
    if decide (p_state p = RUNNABLE)
    then Ret true (ss_set_proc (<[i := p_set_state RUNNING p]> (ss_proc s)) (ss_set_cproc (<[c := Some i]> (ss_cproc s)) s))
    else Ret false s.
Proof using Hu Hp Hn Hif.
  intros Hm. unfold scheduler_pick. mrun (pr_run s i p Hp (Z.of_nat c)). case_bool_decide as E; simpl.
  2:{ by rewrite decide_False. }
  rewrite decide_True by done. mrun (cproc_set_run c s (Some i)). set (s1 := ss_set_cproc _ s).
  mrun (switch_uvm_run c s1 u i p Hu Hp Hn Hif (Hm E)). by mrun (prset_run s1 i p Hp (p_set_state RUNNING) (Z.of_nat c)).
Qed.

Lemma sched_in_run e : sched_in e (Z.of_nat c) s = Ret tt (on_cpu c s (set_intena e u) (sp_lk (ss_sp s))).
Proof using Hu Hif.
  unfold sched_in. mrun (mycpu_off_run c s u Hu Hif). rewrite (sp_ret c s _ _ _ (cpu_set_run c (ss_sp s) u Hu (set_intena e))).
  unfold on_cpu. by destruct (ss_sp s).
Qed.

End taking.

(** What a switched-in process does first, and where it comes to. *)
Lemma resume_run (c : nat) s u i p kt :
  sp_cpus (ss_sp s) !! c = Some u → ss_proc s !! i = Some p → c_ncli u = 1 → c_if u = false → held_by c (ss_sp s) = true →
  kt ≠ KZombie → ∃ u' l q,
  resume i kt (Z.of_nat c) s = Ret tt (ss_set_proc (<[i := q]> (ss_proc s)) (on_cpu c s u' l)) ∧
  c_ncli u' = nest (resumed i kt) ∧ (0 < nest (resumed i kt) → c_if u' = false) ∧
  lock_move c (Resumed i kt) (resumed i kt) (sp_lk (ss_sp s)) l ∧ p_state q = p_state p ∧ (has_mem p → has_mem q).
Proof.
  intros Hu Hp Hn Hif Hh Hk.
  assert (∀ v, c_ncli (pop (set_intena v u)) = 0) as Hp0 by (intros v; simpl; lia).
  assert (∀ t, ss_set_proc (<[i := p]> (ss_proc s)) t = ss_set_proc (ss_proc s) t) as Hsame by (intros t; by rewrite (list_insert_id _ _ _ Hp)).
  destruct kt as [|e|e|e|]; [..|done]; simpl.
  - eexists _, _, p. rewrite (sp_release_run c s u Hu Hif ltac:(lia) Hh), Hsame. split; [done|].
    split; [simpl; lia|]. split; [lia|]. split; [|done]. right. right. done.
  - eexists _, _, p. unfold yield_in. mrun (sched_in_run c s u Hu Hif e). set (s1 := on_cpu _ _ _ _).
    pose proof (on_cpu_lookup c s u (set_intena e u) (sp_lk (ss_sp s)) Hu : sp_cpus (ss_sp s1) !! c = Some _) as Hu1.
    rewrite (sp_release_run c s1 _ Hu1 Hif ltac:(simpl; lia) Hh), Hsame. unfold s1. rewrite on_cpu_twice. split; [done|].
    split; [simpl; lia|]. split; [lia|]. split; [|done]. right. right. done.
  - eexists _, _, (p_set_chan None p). unfold sleep_in. mrun (sched_in_run c s u Hu Hif e). set (s1 := on_cpu _ _ _ _).
    pose proof (on_cpu_lookup c s u (set_intena e u) (sp_lk (ss_sp s)) Hu : sp_cpus (ss_sp s1) !! c = Some _) as Hu1.
    mrun (prset_run s1 i p Hp (p_set_chan None) (Z.of_nat c)). set (s2 := ss_set_proc _ s1).
    mrun (sp_release_run c s2 _ (Hu1 : sp_cpus (ss_sp s2) !! c = Some _) Hif ltac:(simpl; lia) Hh). set (s3 := on_cpu _ _ _ _).
    pose proof (on_cpu_lookup c s2 _ (pop (set_intena e u)) (mk_spinlock 0 None (<[0%nat:=0]> (lk_pcs (sp_lk (ss_sp s2))))) Hu1 :
      sp_cpus (ss_sp s3) !! c = Some _) as Hu3.
    rewrite (sp_ret c s3 _ _ _ (pushcli_run c (ss_sp s3) _ Hu3)). split.
    { f_equal. unfold s3, s2, s1, on_cpu, sp_put, sp_set_lk, sp_set_cpus, ss_set_sp, ss_set_proc. simpl. rewrite !list_insert_insert_eq. reflexivity. }
    split; [simpl; lia|]. split; [done|]. split; [|done]. right. right. done.
  - eexists _, _, (p_set_chan None p). unfold wait_in. mrun (sched_in_run c s u Hu Hif e). set (s1 := on_cpu _ _ _ _).
    rewrite (prset_run s1 i p Hp (p_set_chan None) (Z.of_nat c)). split; [done|]. split; [done|]. split; [done|]. split; [|done]. by left.
Qed.

(** ** Every step keeps the invariant *)

(** What the invariant says of a CPU. *)
Record on_at (cf : config) (c : nat) (w : place) (u : cpu) : Prop := mk_on_at {
  oa_cpu : sp_cpus (ss_sp (cf_s cf)) !! c = Some u;
  oa_ncli : c_ncli u = nest w;
  oa_if : 0 < nest w → c_if u = false;
  oa_proc : ss_cproc (cf_s cf) !! c = Some (cur w);
  oa_held : holds w = true → held_by c (ss_sp (cf_s cf)) = true;
  oa_not : holds w = false → held_by c (ss_sp (cf_s cf)) = false;
}.

Lemma cinv_at cf c w k : cinv cf → cf_at cf !! c = Some (w, k) → ∃ u, on_at cf c w u.
Proof.
  intros [[Hlen Hcpu H1 Hlk Ho] Hc _] Hw. destruct (lookup_lt_is_Some_2 (sp_cpus (ss_sp (cf_s cf))) c) as [u Hu].
  { rewrite Hlen. by eapply lookup_lt_Some. }
  destruct (Hcpu c w k u Hw Hu) as [Hn Hif]. exists u. split; try done.
  - by rewrite Hc, list_lookup_fmap, Hw.
  - intros Hh. unfold held_by. rewrite bool_decide_eq_true_2 by (apply Ho; eauto). rewrite andb_true_r.
    apply negb_true_iff, Z.eqb_neq, Hlk. eauto.
  - intros Hh. unfold held_by. rewrite bool_decide_eq_false_2, andb_false_r; [done|]. rewrite Ho. intros (v & Hv & Hv'). simplify_eq. simpl in Hv'. congruence.
Qed.

Lemma cinv_go cf c w k w' k' s' u' saved' :
  cinv cf → cf_at cf !! c = Some (w, k) → sp_cpus (ss_sp s') = <[c := u']> (sp_cpus (ss_sp (cf_s cf))) →
  c_ncli u' = nest w' → (0 < nest w' → c_if u' = false) → lock_move c w w' (sp_lk (ss_sp (cf_s cf))) (sp_lk (ss_sp s')) →
  ss_cproc s' = <[c := cur w']> (ss_cproc (cf_s cf)) → proc_ok (ss_proc s') (<[c := (w', k')]> (cf_at cf)) saved' →
  cinv (go cf c w' k' s' saved').
Proof.
  intros [Hl Hc Hpo] Hw Hs Hn Hif Hmv Hcp Hp. split; simpl; [by eapply lock_update| |done].
  by rewrite Hcp, Hc, list_fmap_insert.
Qed.

(** [acquire] returns only when the lock is free. *)
Lemma acquire_free cf c w u pcs s' :
  on_at cf c w u → 0 ≤ nest w → holds w = false → sp (acquire pcs) (Z.of_nat c) (cf_s cf) = Ret tt s' →
  lk_locked (sp_lk (ss_sp (cf_s cf))) = 0.
Proof.
  intros [Hu Hn _ _ _ Hh] H0 Hf E. specialize (Hh Hf). unfold lift in E. destruct (acquire _ _ _) as [[] x| | |] eqn:Ea; try done.
  unfold acquire in Ea. rewrite (bind_Ret _ _ _ _ _ _ (acquire_enter_run c _ u Hu ltac:(lia) Hh)) in Ea.
  unfold acquire_xchg in Ea. cbv [mbind M_bind get modify mret M_ret] in Ea. simpl in Ea. destruct (_ =? 0) eqn:E0; [lia|done].
Qed.

(** Places with the same process, the table as it was. *)
Lemma cinv_same cf c w k w' s' u' :
  cinv cf → cf_at cf !! c = Some (w, k) → sp_cpus (ss_sp s') = <[c := u']> (sp_cpus (ss_sp (cf_s cf))) →
  c_ncli u' = nest w' → (0 < nest w' → c_if u' = false) → lock_move c w w' (sp_lk (ss_sp (cf_s cf))) (sp_lk (ss_sp s')) →
  ss_cproc s' = ss_cproc (cf_s cf) → cur w' = cur w → ss_proc s' = ss_proc (cf_s cf) → (∀ i kt, w' ≠ Resumed i kt) → w' ≠ Scan →
  cinv (go cf c w' k s' (cf_saved cf)).
Proof.
  intros Hi Hw Hs Hn Hif Hmv Hcp Hcw Hpr Hnr Hns. destruct (cinv_at _ _ _ _ Hi Hw) as (u & Ha).
  eapply cinv_go; try done.
  - rewrite Hcp, Hcw. symmetry. apply list_insert_id. apply Ha.
  - rewrite Hpr. eapply proc_place; [apply Hi|done..| |done|done]. intros i kt E. by destruct (Hnr i kt).
Qed.

(** A process gives up the CPU. *)
Lemma cinv_gave cf c w k i p q u' l kt :
  cinv cf → cf_at cf !! c = Some (w, k) → cur w = Some i → ss_proc (cf_s cf) !! i = Some p →
  c_ncli u' = 1 → c_if u' = false → lock_move c w Scan (sp_lk (ss_sp (cf_s cf))) l → p_state q ≠ RUNNING →
  (kt = KZombie → p_state q = ZOMBIE) → (has_mem p → has_mem q) →
  cinv (go cf c Scan (S k) (gave c (cf_s cf) i u' l q) (<[i := kt]> (cf_saved cf))).
Proof.
  intros Hi Hw Hc Hp Hn Hif Hmv Hq Hz Hm. eapply cinv_go; [done|done|reflexivity|done|done|done|done|]. simpl.
  eapply proc_out; [apply Hi|done..].
Qed.

(** The process of a CPU. *)
Lemma cinv_proc cf c w k i : cinv cf → cf_at cf !! c = Some (w, k) → cur w = Some i → ∃ p, ss_proc (cf_s cf) !! i = Some p ∧ p_state p = RUNNING.
Proof. intros Hi Hw Hc. exact (po_cur _ _ _ (ci_proc _ Hi) c (w, k) i Hw Hc). Qed.

Lemma top_inv cf c k pcs s' :
  cinv cf → cf_at cf !! c = Some (Top, k) → scheduler_top pcs (Z.of_nat c) (cf_s cf) = Ret tt s' → cinv (go cf c Scan 0 s' (cf_saved cf)).
Proof.
  intros Hi Hw E. destruct (cinv_at _ _ _ _ Hi Hw) as (u & Ha). unfold scheduler_top in E.
  rewrite (bind_Ret _ _ _ _ _ _ (sp_ret c _ _ _ _ (cpu_set_run c _ u (oa_cpu _ _ _ _ Ha) (set_if true)))) in E.
  set (s1 := ss_set_sp _ _) in E. set (cf1 := mk_config s1 (cf_at cf) (cf_saved cf)).
  assert (on_at cf1 c Top (set_if true u)) as Ha1.
  { destruct Ha as [Hu Hn _ Hp _ Hh]. split; try done. by eapply sp_put_lookup. }
  pose proof (acquire_free cf1 c Top _ pcs s' Ha1 ltac:(done) eq_refl E) as Hl.
  rewrite (sp_acquire_run c s1 _ (oa_cpu _ _ _ _ Ha1) pcs ltac:(rewrite (oa_ncli _ _ _ _ Ha1); done) Hl) in E. injection E as <-.
  eapply (cinv_go cf c Top k Scan 0 _ (push (set_if true u))); try done.
  - simpl. by rewrite list_insert_insert_eq.
  - simpl. rewrite (oa_ncli _ _ _ _ Ha). done.
  - right. left. split_and!; done.
  - simpl. symmetry. apply list_insert_id, Ha.
  - eapply proc_place; [apply Hi|exact Hw|done|done|lia|done].
Qed.

Lemma scan_inv cf c k b s' :
  cinv cf → cf_at cf !! c = Some (Scan, k) → scheduler_pick k (Z.of_nat c) (cf_s cf) = Ret b s' →
  cinv (if b then go cf c (Resumed k (cf_saved cf k)) k s' (cf_saved cf) else go cf c Scan (S k) s' (cf_saved cf)).
Proof.
  intros Hi Hw E. destruct (cinv_at _ _ _ _ Hi Hw) as (u & Ha). pose proof (oa_cpu _ _ _ _ Ha) as Hu.
  destruct (ss_proc (cf_s cf) !! k) as [p|] eqn:Hp.
  2:{ unfold scheduler_pick in E. apply bind_inv_Ret in E as (p & s1 & E1 & E). unfold pr in E1.
      rewrite (bind_Ret get _ _ (cf_s cf) _ _ eq_refl), Hp in E1. done. }
  rewrite (pick_run c _ u k p Hu Hp (oa_ncli _ _ _ _ Ha) (oa_if _ _ _ _ Ha ltac:(done))) in E.
  2:{ intros Hr. apply (po_mem _ _ _ (ci_proc _ Hi) k p Hp). by left. }
  destruct (decide _) as [Hr|Hr]; injection E as <- <-.
  - eapply (cinv_go cf c Scan k _ k _ u); try done; simpl.
    + symmetry. by apply list_insert_id.
    + apply Ha.
    + apply Ha.
    + by left.
    + eapply proc_in; [apply Hi|done..].
  - eapply (cinv_go cf c Scan k Scan (S k) _ u); try done.
    + symmetry. by apply list_insert_id.
    + apply Ha.
    + apply Ha.
    + by left.
    + symmetry. apply list_insert_id, Ha.
    + eapply proc_place; [apply Hi|exact Hw|done|done| |done]. intros _. apply lookup_lt_Some in Hp. lia.
Qed.

Lemma end_inv cf c w k w' s' :
  cinv cf → cf_at cf !! c = Some (w, k) → (w = Scan ∧ w' = Top ∨ ∃ i, w = Locked i ∧ w' = Running i 0) →
  sp release (Z.of_nat c) (cf_s cf) = Ret tt s' → cinv (go cf c w' k s' (cf_saved cf)).
Proof.
  intros Hi Hw Hww E. destruct (cinv_at _ _ _ _ Hi Hw) as (u & Ha).
  assert (nest w = 1 ∧ holds w = true ∧ nest w' = 0 ∧ holds w' = false ∧ cur w' = cur w ∧ w' ≠ Scan ∧ ∀ i kt, w' ≠ Resumed i kt)
    as (N & Hh & N' & Hh' & Hc & Hs & Hr) by (destruct Hww as [[-> ->]|(i & -> & ->)]; done).
  pose proof (oa_ncli _ _ _ _ Ha) as Hn. rewrite N in Hn.
  rewrite (sp_release_run c _ u (oa_cpu _ _ _ _ Ha) (oa_if _ _ _ _ Ha ltac:(lia)) ltac:(lia) (oa_held _ _ _ _ Ha Hh)) in E. injection E as <-.
  eapply (cinv_same cf c w k w' _ (pop u)); try done.
  - rewrite N'. simpl. lia.
  - rewrite N'. lia.
  - right. right. split_and!; done.
Qed.

Lemma intr_inv cf c k pcs ch s' :
  cinv cf → cf_at cf !! c = Some (Top, k) →
  (sp (acquire pcs) ;; modify (λ s, ss_set_proc (wake ch <$> ss_proc s) s) ;; sp release) (Z.of_nat c) (cf_s cf) = Ret tt s' →
  cinv (go cf c Top k s' (cf_saved cf)).
Proof.
  intros Hi Hw E. destruct (cinv_at _ _ _ _ Hi Hw) as (u & Ha). pose proof (oa_cpu _ _ _ _ Ha) as Hu. pose proof (oa_ncli _ _ _ _ Ha) as Hn. simpl in Hn.
  assert (lk_locked (sp_lk (ss_sp (cf_s cf))) = 0) as Hl.
  { pose proof E as ([] & s1 & E1 & _)%bind_inv_Ret. exact (acquire_free cf c Top u pcs s1 Ha ltac:(done) eq_refl E1). }
  rewrite (bind_Ret _ _ _ _ _ _ (sp_acquire_run c _ u Hu pcs ltac:(lia) Hl)) in E. set (s1 := on_cpu _ _ _ _) in E.
  apply bind_inv_Ret in E as ([] & s2 & E2 & E). injection E2 as <-. set (s2 := ss_set_proc _ s1) in E.
  pose proof (on_cpu_lookup c (cf_s cf) u (push u) (taken c pcs) Hu : sp_cpus (ss_sp s2) !! c = Some _) as Hu2.
  rewrite (sp_release_run c s2 _ Hu2 eq_refl ltac:(simpl; lia) (taken_held c (cf_s cf) (push u) pcs)) in E. injection E as <-.
  destruct (op_tame _ _ _ _ (op_wakeup (ss_proc (cf_s cf)) (cf_saved cf) ch)) as [Hlen Ht].
  eapply (cinv_go cf c Top k Top k _ (pop (push u))); try done.
  - simpl. by rewrite list_insert_insert_eq.
  - simpl. lia.
  - left. split; [done|]. split; [done|]. simpl. intros d. rewrite (lo_owner _ _ (ci_lock _ Hi)). split; [done|].
    intros (v & Hv & Hv'). destruct (proj2 (lo_locked _ _ (ci_lock _ Hi))); eauto.
  - simpl. symmetry. apply list_insert_id, Ha.
  - simpl. eapply proc_place; [|exact Hw|done..]. by eapply (proc_tame (ss_proc (cf_s cf))); [apply Hi| |].
Qed.

Lemma resume_inv cf c i kt k s' :
  cinv cf → cf_at cf !! c = Some (Resumed i kt, k) → resume i kt (Z.of_nat c) (cf_s cf) = Ret tt s' →
  cinv (go cf c (resumed i kt) k s' (cf_saved cf)).
Proof.
  intros Hi Hw E. destruct (cinv_at _ _ _ _ Hi Hw) as (u & Ha). destruct (cinv_proc _ _ _ _ i Hi Hw eq_refl) as (p & Hp & Hr).
  destruct (resume_run c (cf_s cf) u i p kt) as (u' & l & q & E' & Hn & Hif & Hmv & Hq & Hm); try (by apply Ha); try done.
  { by apply (po_resumed _ _ _ (ci_proc _ Hi) c i kt k). }
  rewrite E' in E. injection E as <-. assert (cur (resumed i kt) = Some i) as Hc by (by destruct kt).
  destruct (op_tame _ _ _ _ (op_entry (ss_proc (cf_s cf)) (cf_saved cf) i p q Hp Hq Hm)) as [Hlen Ht].
  eapply (cinv_go cf c _ k _ k _ u'); try done; simpl.
  - rewrite Hc. symmetry. apply list_insert_id, Ha.
  - eapply proc_place; [|exact Hw|done|..].
    + by eapply (proc_tame (ss_proc (cf_s cf))); [apply Hi| |].
    + by destruct kt.
    + by destruct kt.
    + done.
Qed.

Lemma yield_inv cf c i k pcs e s' :
  cinv cf → cf_at cf !! c = Some (Running i 0, k) →
  (e ← yield_out pcs; scheduler_back ;; mret e) (Z.of_nat c) (cf_s cf) = Ret e s' →
  cinv (go cf c Scan (S k) s' (<[i := KYield e]> (cf_saved cf))).
Proof.
  intros Hi Hw E. destruct (cinv_at _ _ _ _ Hi Hw) as (u & Ha). destruct (cinv_proc _ _ _ _ i Hi Hw eq_refl) as (p & Hp & Hr).
  assert (lk_locked (sp_lk (ss_sp (cf_s cf))) = 0) as Hl.
  { pose proof E as (x & s1 & E1 & _)%bind_inv_Ret. apply bind_inv_Ret in E1 as ([] & s2 & E1 & _). by eapply acquire_free. }
  pose proof (oa_ncli _ _ _ _ Ha) as Hn. simpl in Hn.
  rewrite (yield_run c _ u i p (oa_cpu _ _ _ _ Ha) Hp (oa_proc _ _ _ _ Ha) pcs Hn Hl) in E. injection E as <- <-.
  eapply cinv_gave; try done; [simpl; lia|]. right. left. done.
Qed.

Lemma sleep_inv cf c i k pcs ch e s' :
  cinv cf → cf_at cf !! c = Some (Running i 1, k) →
  (e ← sleep_out pcs ch; scheduler_back ;; mret e) (Z.of_nat c) (cf_s cf) = Ret e s' →
  cinv (go cf c Scan (S k) s' (<[i := KSleep e]> (cf_saved cf))).
Proof.
  intros Hi Hw E. destruct (cinv_at _ _ _ _ Hi Hw) as (u & Ha). destruct (cinv_proc _ _ _ _ i Hi Hw eq_refl) as (p & Hp & Hr).
  pose proof (oa_ncli _ _ _ _ Ha) as Hn. simpl in Hn. pose proof (oa_if _ _ _ _ Ha ltac:(done)) as Hif.
  assert (lk_locked (sp_lk (ss_sp (cf_s cf))) = 0) as Hl.
  { pose proof E as (x & s1 & E1 & _)%bind_inv_Ret. unfold sleep_out in E1.
    rewrite (bind_Ret _ _ _ _ _ _ (cpu_proc_run c _ u (Some i) (oa_cpu _ _ _ _ Ha) (oa_proc _ _ _ _ Ha) Hif ltac:(lia))) in E1.
    apply bind_inv_Ret in E1 as ([] & s2 & E1 & _). by eapply acquire_free. }
  rewrite (sleep_run c _ u i p (oa_cpu _ _ _ _ Ha) Hp (oa_proc _ _ _ _ Ha) pcs ch Hn Hif Hl) in E. injection E as <- <-.
  eapply cinv_gave; try done. right. left. done.
Qed.

Lemma wait_inv cf c i k ch e s' :
  cinv cf → cf_at cf !! c = Some (Locked i, k) →
  (e ← wait_out ch; scheduler_back ;; mret e) (Z.of_nat c) (cf_s cf) = Ret e s' →
  cinv (go cf c Scan (S k) s' (<[i := KWait e]> (cf_saved cf))).
Proof.
  intros Hi Hw E. destruct (cinv_at _ _ _ _ Hi Hw) as (u & [Hu Hn Hif Hc Hh _]). destruct (cinv_proc _ _ _ _ i Hi Hw eq_refl) as (p & Hp & Hr).
  rewrite (wait_run c _ u i p Hu Hp Hc Hn (Hif ltac:(done)) (Hh eq_refl)) in E. injection E as <- <-.
  eapply cinv_gave; try done; [by apply Hif|]. left. done.
Qed.

Lemma exit_inv cf c i k e s' :
  cinv cf → cf_at cf !! c = Some (Locked i, k) →
  (e ← exit_out; scheduler_back ;; mret e) (Z.of_nat c) (cf_s cf) = Ret e s' →
  cinv (go cf c Scan (S k) s' (<[i := KZombie]> (cf_saved cf))).
Proof.
  intros Hi Hw E. destruct (cinv_at _ _ _ _ Hi Hw) as (u & [Hu Hn Hif Hc Hh _]). destruct (cinv_proc _ _ _ _ i Hi Hw eq_refl) as (p & Hp & Hr).
  rewrite (exit_run_out c _ u i p Hu Hp Hc Hn (Hif ltac:(done)) (Hh eq_refl)) in E. injection E as <- <-.
  eapply cinv_gave; try done; [by apply Hif|]. left. done.
Qed.

Lemma lock_inv cf c i k pcs s' :
  cinv cf → cf_at cf !! c = Some (Running i 0, k) → sp (acquire pcs) (Z.of_nat c) (cf_s cf) = Ret tt s' →
  cinv (go cf c (Locked i) k s' (cf_saved cf)).
Proof.
  intros Hi Hw E. destruct (cinv_at _ _ _ _ Hi Hw) as (u & Ha). pose proof (oa_ncli _ _ _ _ Ha) as Hn. simpl in Hn.
  pose proof (acquire_free cf c _ u pcs s' Ha ltac:(done) eq_refl E) as Hl.
  rewrite (sp_acquire_run c _ u (oa_cpu _ _ _ _ Ha) pcs ltac:(lia) Hl) in E. injection E as <-.
  eapply (cinv_same cf c _ k _ _ (push u)); try done; [simpl; lia|]. right. left. done.
Qed.

Lemma table_inv cf c i k l saved :
  cinv cf → cf_at cf !! c = Some (Locked i, k) → table_op (ss_proc (cf_s cf)) (cf_saved cf) l saved →
  cinv (go cf c (Locked i) k (ss_set_proc l (cf_s cf)) saved).
Proof.
  intros Hi Hw [Hlen Ht]%op_tame. destruct (cinv_at _ _ _ _ Hi Hw) as (u & Ha).
  eapply (cinv_go cf c _ k _ k _ u); try done; try (by apply Ha).
  - symmetry. apply list_insert_id, Ha.
  - by left.
  - symmetry. apply list_insert_id, Ha.
  - eapply proc_place; [|exact Hw|done..]. by eapply (proc_tame (ss_proc (cf_s cf))); [apply Hi| |].
Qed.

(** The interrupts of a CPU that runs a process. *)
Lemma run_inv cf c i n n' k u' :
  cinv cf → cf_at cf !! c = Some (Running i n, k) → c_ncli u' = Z.of_nat n' → (0 < Z.of_nat n' → c_if u' = false) →
  cinv (go cf c (Running i n') k (ss_set_sp (sp_put c u' (ss_sp (cf_s cf))) (cf_s cf)) (cf_saved cf)).
Proof. intros Hi Hw Hn Hif. eapply (cinv_same cf c _ k _ _ u'); try done. by left. Qed.

Lemma cstep_inv cf cf' : cstep cf cf' → cinv cf → cinv cf'.
Proof.
  intros [c k pcs s' Hw E|c k s' Hw E|c k s' Hw E|c k s' Hw Hk E|c k pcs ch s' Hw E|c i kt k s' Hw E|c i k pcs e s' Hw E|c i k pcs ch e s' Hw E
    |c i k pcs s' Hw E|c i k l saved Hw E|c i k s' Hw E|c i k ch e s' Hw E|c i k e s' Hw E|c i n k s' Hw E|c i n k s' Hw E|c i k b s' Hw E] Hi.
  - by eapply top_inv.
  - exact (scan_inv cf c k false s' Hi Hw E).
  - exact (scan_inv cf c k true s' Hi Hw E).
  - apply (end_inv cf c Scan k Top s' Hi Hw); [by left|done].
  - by eapply intr_inv.
  - by apply resume_inv.
  - by eapply yield_inv.
  - by eapply sleep_inv.
  - by eapply lock_inv.
  - by apply table_inv.
  - apply (end_inv cf c (Locked i) k (Running i 0) s' Hi Hw); [right; by exists i|done].
  - by eapply wait_inv.
  - by eapply exit_inv.
  - destruct (cinv_at _ _ _ _ Hi Hw) as (u & [Hu Hn _ _ _ _]). rewrite (sp_ret c _ _ _ _ (pushcli_run c _ u Hu)) in E. injection E as <-.
    eapply run_inv; [done|exact Hw|simpl in *; lia|done].
  - destruct (cinv_at _ _ _ _ Hi Hw) as (u & [Hu Hn Hif _ _ _]). simpl nest in *.
    rewrite (sp_ret c _ _ _ _ (popcli_run c _ u Hu (Hif ltac:(lia)) ltac:(lia))) in E. injection E as <-.
    eapply run_inv; [done|exact Hw|simpl in *; lia|]. intros Hn'. simpl. rewrite (proj2 (Z.eqb_neq _ _)) by lia. done.
  - destruct (cinv_at _ _ _ _ Hi Hw) as (u & [Hu Hn _ _ _ _]). rewrite (sp_ret c _ _ _ _ (cpu_set_run c _ u Hu (set_if b))) in E. injection E as <-.
    eapply run_inv; [done|exact Hw|done|lia].
Qed.

Lemma boot_inv cf : sched_boot cf → cinv cf.
Proof.
  intros (Hl & Hcpu & Hlen & Hn & Hc & Hw & Hp). rewrite Forall_lookup in Hn. rewrite Forall_lookup in Hw.
  assert (∀ c w, cf_at cf !! c = Some w → w.1 = Top) as Htop by (intros c w Hcw; by apply (Hw c)).
  split; [split| |split]; try done.
  - intros c w k u Hcw Hu. rewrite (Htop c _ Hcw : w = Top). split; [by apply (Hn c)|done].
  - intros c d w v Hcw _ Hh. by rewrite (Htop c w Hcw) in Hh.
  - split; [done|]. intros (c & w & Hcw & Hh). by rewrite (Htop c w Hcw) in Hh.
  - intros c. rewrite Hcpu. split; [done|]. intros (w & Hcw & Hh). by rewrite (Htop c w Hcw) in Hh.
  - rewrite Hc. apply list_eq. intros c. rewrite list_lookup_fmap. destruct (cf_at cf !! c) as [w|] eqn:Hcw; simpl.
    + rewrite (Htop c w Hcw). apply lookup_replicate_2. by eapply lookup_lt_Some.
    + apply lookup_replicate_None. by apply lookup_ge_None.
  - intros c d w v i Hcw _ Hh. by rewrite (Htop c w Hcw) in Hh.
  - intros c w i Hcw Hh. by rewrite (Htop c w Hcw) in Hh.
  - intros i p Hip Hr. destruct (Hp i p Hip) as [E|(E & _)]; congruence.
  - intros i p Hip Hli Hr. destruct (Hp i p Hip) as [E|(_ & _ & ->)]; [by destruct Hli|done].
  - intros i p Hip Hr. destruct (Hp i p Hip) as [E|(_ & Hm & _)]; [|done]. destruct Hr as [|[|]]; congruence.
  - intros c i kt k Hcw. by apply Htop in Hcw.
  - intros c k Hcw. by apply Htop in Hcw.
  - intros c w k Hcw Hne. rewrite (Htop c _ Hcw : w = Top) in Hne. done.
Qed.

(** ** Main theorem *)

Definition returns {A} (m : M sst A) (c : nat) (s : sst) : Prop := ∃ a s', m (Z.of_nat c) s = Ret a s'.

(** What can be run at a place returns; it may have to wait for the lock. *)
Lemma cinv_progress cf c w k pcs ch :
  cinv cf → cf_at cf !! c = Some (w, k) → holds w = true ∨ lk_locked (sp_lk (ss_sp (cf_s cf))) = 0 →
  match w with
  | Top => returns (scheduler_top pcs) c (cf_s cf)
  | Scan => if decide (k = length (ss_proc (cf_s cf))) then returns scheduler_end c (cf_s cf) else returns (scheduler_pick k) c (cf_s cf)
  | Resumed i kt => returns (resume i kt) c (cf_s cf)
  | Running i n => (n = 0%nat → returns (yield_out pcs) c (cf_s cf)) ∧ (n = 1%nat → returns (sleep_out pcs ch) c (cf_s cf))
  | Locked i => returns (wait_out ch) c (cf_s cf) ∧ returns exit_out c (cf_s cf)
  end.
Proof.
  intros Hi Hw Hlk. destruct (cinv_at _ _ _ _ Hi Hw) as (u & [Hu Hn Hif Hc Hh Hnh]).
  assert (∀ (m : M sst Z) e t, (e ← m; scheduler_back ;; mret e) (Z.of_nat c) (cf_s cf) = Ret e t → returns m c (cf_s cf)) as Hret.
  { intros m e t (a & s1 & E & _)%bind_inv_Ret. by exists a, s1. }
  destruct w as [| |i kt|i n|i]; simpl in *.
  - destruct Hlk as [|Hl]; [done|]. eexists _, _. unfold scheduler_top.
    mrun (sp_ret c _ _ _ _ (cpu_set_run c _ u Hu (set_if true))). eapply (sp_acquire_run c (ss_set_sp (sp_put c (set_if true u) (ss_sp (cf_s cf))) (cf_s cf))); try done.
    + by eapply sp_put_lookup.
    + simpl. lia.
  - pose proof (po_scan _ _ _ (ci_proc _ Hi) c k Hw). case_decide as Hk.
    + eexists _, _. apply (sp_release_run c _ u Hu (Hif ltac:(done))); [lia|by apply Hh].
    + destruct (lookup_lt_is_Some_2 (ss_proc (cf_s cf)) k ltac:(lia)) as [p Hp]. unfold returns.
      rewrite (pick_run c _ u k p Hu Hp Hn (Hif ltac:(done))); [case_decide; eauto|].
      intros Hr. apply (po_mem _ _ _ (ci_proc _ Hi) k p Hp). by left.
  - destruct (cinv_proc _ _ _ _ i Hi Hw eq_refl) as (p & Hp & Hr). pose proof (po_resumed _ _ _ (ci_proc _ Hi) c i kt k Hw) as Hz.
    destruct (resume_run c (cf_s cf) u i p kt Hu Hp Hn (Hif ltac:(done)) (Hh eq_refl) Hz) as (u' & l & q & E & _). by eexists _, _.
  - destruct (cinv_proc _ _ _ _ i Hi Hw eq_refl) as (p & Hp & Hr). destruct Hlk as [|Hl]; [done|]. split; intros ->; simpl in *.
    + eapply Hret. by apply (yield_run c _ u i p).
    + eapply Hret. by apply (sleep_run c _ u i p Hu Hp Hc pcs ch Hn (Hif ltac:(done))).
  - destruct (cinv_proc _ _ _ _ i Hi Hw eq_refl) as (p & Hp & Hr). split; eapply Hret.
    + by apply (wait_run c _ u i p Hu Hp Hc Hn (Hif ltac:(done)) (Hh eq_refl)).
    + by apply (exit_run_out c _ u i p Hu Hp Hc Hn (Hif ltac:(done)) (Hh eq_refl)).
Qed.

(** C15. Scheduling is safe: however the CPUs interleave their scheduler loops,
    switches, [yield], [sleep], [wait] and [exit], a process runs on at most one
    CPU, and on one exactly when its state is [RUNNING]; at most one CPU holds
    [ptable.lock], also across a switch, with its interrupts off; and none of
    the checks of [sched], [switchuvm], [mycpu], [acquire] and [release] fails.
    Assumed of the code that runs in between ([table_op]): a process is made
    runnable only with a kernel stack and a page directory and keeps them, and
    it calls [sleep] holding one lock. *)
Theorem scheduler_safe cf0 cf pcs ch :
  sched_boot cf0 → rtc cstep cf0 cf →
  (∀ c d i, ss_cproc (cf_s cf) !! c = Some (Some i) → ss_cproc (cf_s cf) !! d = Some (Some i) → c = d) ∧
  (∀ i p, ss_proc (cf_s cf) !! i = Some p → p_state p = RUNNING ↔ ∃ c, ss_cproc (cf_s cf) !! c = Some (Some i)) ∧
  (∀ c d w v, cf_at cf !! c = Some w → cf_at cf !! d = Some v → holds w.1 = true → holds v.1 = true → c = d) ∧
  (∀ c w, cf_at cf !! c = Some w → holds w.1 = true → ∃ u, sp_cpus (ss_sp (cf_s cf)) !! c = Some u ∧ c_if u = false) ∧
  (∀ c w k, cf_at cf !! c = Some (w, k) → holds w = true ∨ lk_locked (sp_lk (ss_sp (cf_s cf))) = 0 →
    match w with
    | Top => returns (scheduler_top pcs) c (cf_s cf)
    | Scan => if decide (k = length (ss_proc (cf_s cf))) then returns scheduler_end c (cf_s cf) else returns (scheduler_pick k) c (cf_s cf)
    | Resumed i kt => returns (resume i kt) c (cf_s cf)
    | Running i n => (n = 0%nat → returns (yield_out pcs) c (cf_s cf)) ∧ (n = 1%nat → returns (sleep_out pcs ch) c (cf_s cf))
    | Locked i => returns (wait_out ch) c (cf_s cf) ∧ returns exit_out c (cf_s cf)
    end).
Proof.
  intros H0 Hr. assert (cinv cf) as Hi.
  { pose proof (boot_inv _ H0) as Hi. clear H0. induction Hr as [|? ? ? Hs _ IH]; [done|]. by apply IH, (cstep_inv _ _ Hs). }
  assert (∀ c i, ss_cproc (cf_s cf) !! c = Some (Some i) ↔ ∃ w, cf_at cf !! c = Some w ∧ cur w.1 = Some i) as Hcur.
  { intros c i. rewrite (ci_cproc _ Hi), list_lookup_fmap. destruct (cf_at cf !! c) as [w|]; simpl.
    - split; [intros E; injection E as E; by exists w|]. intros (v & E & Hv). injection E as <-. by rewrite Hv.
    - split; [done|]. by intros (v & E & _). }
  split_and!.
  - intros c d i (w & Hw & Hc)%Hcur (v & Hv & Hd)%Hcur. by apply (po_one _ _ _ (ci_proc _ Hi) c d w v i).
  - intros i p Hp. split.
    + intros Hpr. destruct (po_running _ _ _ (ci_proc _ Hi) i p Hp Hpr) as (c & w & Hw & Hc). exists c. apply Hcur. eauto.
    + intros (c & (w & Hw & Hc)%Hcur). destruct (po_cur _ _ _ (ci_proc _ Hi) c w i Hw Hc) as (q & Hq & Hqr). congruence.
  - apply (lo_one _ _ (ci_lock _ Hi)).
  - intros c [w k] Hw Hh. destruct (cinv_at _ _ _ _ Hi Hw) as (u & [Hu _ Hif _ _ _]). exists u. split; [done|]. apply Hif. by destruct w.
  - intros c w k Hw. by apply cinv_progress.
Qed.

(** Two CPUs and one process, on the first CPU. *)
Definition sched_proc : proc := p_set_state RUNNABLE (p_set_kstack 4096 (p_set_mem 0 8192 proc_zero)).
Definition sched_ex : config :=
  mk_config (mk_sst (sp_init [mk_cpu 0 0 true; mk_cpu 0 0 true]) [None; None] [sched_proc]) [(Top, 0%nat); (Top, 0%nat)] (λ _, KForkret).

Definition after {A} (m : M sst A) (s : sst) : sst := match m 0 s with Ret _ s' => s' | _ => s end.
Definition sched_ex1 : config := go sched_ex 0 Scan 0 (after (scheduler_top []) (cf_s sched_ex)) (cf_saved sched_ex).
Definition sched_ex2 : config := go sched_ex1 0 (Resumed 0 KForkret) 0 (after (scheduler_pick 0) (cf_s sched_ex1)) (cf_saved sched_ex1).
Definition sched_ex3 : config := go sched_ex2 0 (Running 0 0) 0 (after (resume 0 KForkret) (cf_s sched_ex2)) (cf_saved sched_ex2).

Lemma scheduler_safe_witness : cf_at sched_ex3 = [(Running 0 0, 0%nat); (Top, 0%nat)] ∧
  ∀ i p, ss_proc (cf_s sched_ex3) !! i = Some p → p_state p = RUNNING ↔ ∃ c, ss_cproc (cf_s sched_ex3) !! c = Some (Some i).
Proof.
  split; [reflexivity|]. refine (proj1 (proj2 (scheduler_safe sched_ex sched_ex3 [] ChNone _ _))).
  - split; [reflexivity|]. split; [reflexivity|]. split; [reflexivity|]. split; [repeat constructor|]. split; [reflexivity|].
    split; [repeat constructor|]. intros [|i] p Hp; [|discriminate Hp]. injection Hp as <-. right. split; [reflexivity|]. split; [split; discriminate|reflexivity].
  - apply rtc_l with sched_ex1; [apply (cs_top sched_ex 0 0 []); [reflexivity|vm_compute; reflexivity]|].
    apply rtc_l with sched_ex2; [apply (cs_pick sched_ex1 0 0); [reflexivity|vm_compute; reflexivity]|].
    apply rtc_l with sched_ex3; [apply (cs_resume sched_ex2 0 0 KForkret 0); [reflexivity|vm_compute; reflexivity]|]. apply rtc_refl.
Defined.
