(* ===== verification/Console.v ===== *)
(** * The console (console.c, kbd.c, kbd.h, uart.c)

    Output goes to the serial port and to the text screen; input is edited in
    a ring of 128 bytes before a reader gets it.  The keyboard and the serial
    port are the values their ports are read with. *)

From S2P Require Import Prelude Layout CString Mem.

Set Default Proof Using "Type".

Definition BACKSPACE : Z := 0x100.
Definition INPUT_BUF : Z := 128.
Definition CRTPORT : Z := 0x3d4.
Definition NL : Z := 10.
Definition CR : Z := 13.
Definition DEL : Z := 0x7f.
(** [C(x)] *)
Definition Ctl (x : Z) : Z := x - 64.
Definition CTL_D : Z := Ctl 68.
Definition CTL_H : Z := Ctl 72.
Definition CTL_P : Z := Ctl 80.
Definition CTL_U : Z := Ctl 85.

(** The input ring; the screen memory, and the index register and the
    registers of its controller; what has been sent to the serial port, and
    whether there is one; [panicked]; how often readers have been woken. *)
Record cons := mk_cons {
  co_buf : list Z;
  co_r : Z;
  co_w : Z;
  co_e : Z;
  co_crt : list Z;
  co_index : Z;
  co_regs : Z → Z;
  co_uart : bool;
  co_tx : list Z;
  co_panicked : Z;
  co_wakes : nat;
}.
Definition co_set_input buf r w e s := mk_cons buf r w e (co_crt s) (co_index s) (co_regs s) (co_uart s) (co_tx s) (co_panicked s) (co_wakes s).
Definition co_set_crt crt s := mk_cons (co_buf s) (co_r s) (co_w s) (co_e s) crt (co_index s) (co_regs s) (co_uart s) (co_tx s) (co_panicked s) (co_wakes s).
Definition co_set_index i s := mk_cons (co_buf s) (co_r s) (co_w s) (co_e s) (co_crt s) i (co_regs s) (co_uart s) (co_tx s) (co_panicked s) (co_wakes s).
Definition co_set_regs r s := mk_cons (co_buf s) (co_r s) (co_w s) (co_e s) (co_crt s) (co_index s) r (co_uart s) (co_tx s) (co_panicked s) (co_wakes s).
Definition co_set_tx t s := mk_cons (co_buf s) (co_r s) (co_w s) (co_e s) (co_crt s) (co_index s) (co_regs s) (co_uart s) t (co_panicked s) (co_wakes s).
Definition co_set_panicked p s := mk_cons (co_buf s) (co_r s) (co_w s) (co_e s) (co_crt s) (co_index s) (co_regs s) (co_uart s) (co_tx s) p (co_wakes s).
Definition co_set_wakes n s := mk_cons (co_buf s) (co_r s) (co_w s) (co_e s) (co_crt s) (co_index s) (co_regs s) (co_uart s) (co_tx s) (co_panicked s) n.

(** ** The serial port *)

(** The wait for the transmitter, 128 rounds at most, changes nothing. *)
Definition uartputc (c : Z) : M cons unit :=
  s ← get;
  if negb (co_uart s) then mret tt else modify (λ s, co_set_tx (co_tx s ++ [u8 c]) s).

(** [lsr] and [data] are what the two ports are read with. *)
Definition uartgetc (uart : bool) (lsr data : Z) : Z :=
  if negb uart then -1 else
  if Z.land lsr 0x01 =? 0 then -1 else data.

(** ** The screen *)

Definition crt_outb (port v : Z) : M cons unit :=
  if port =? CRTPORT then modify (co_set_index (u8 v))
  else modify (λ s, co_set_regs (λ i, if i =? co_index s then u8 v else co_regs s i) s).
Definition crt_inb : M cons Z := s ← get; mret (co_regs s (co_index s)).
Definition crt_set (pos v : Z) : M cons unit :=
  s ← get;
  l ← aset (co_crt s) pos v;
  modify (co_set_crt l).

(** The scrolling of the memory, by cells. *)
Definition crt_scroll (crt : list Z) : list Z := splice 0 (take (23 * 80) (drop 80 crt)) crt.
Definition crt_clear (pos : Z) (crt : list Z) : list Z := splice (Z.to_nat pos) (replicate (Z.to_nat (24 * 80 - pos)) 0) crt.

(** The character at the position, the new position; scrolling; the cursor. *)
Definition cga_put (c pos : Z) : M cons Z :=
  if c =? NL then mret (pos + (80 - pos mod 80))
  else if c =? BACKSPACE then mret (if 0 <? pos then pos - 1 else pos)
  else crt_set pos (Z.lor (Z.land c 0xff) 0x0700) ;; mret (pos + 1).
Definition cga_scroll (pos : Z) : M cons Z :=
  if 24 <=? pos / 80 then
    let pos := pos - 80 in
    if 24 * 80 <? pos then undef "memset: negative size" else
    modify (λ s, co_set_crt (crt_clear pos (crt_scroll (co_crt s))) s) ;;
    mret pos
  else mret pos.
Definition cga_cursor (pos : Z) : M cons unit :=
  crt_outb CRTPORT 14 ;;
  crt_outb (CRTPORT + 1) (Z.shiftr pos 8) ;;
  crt_outb CRTPORT 15 ;;
  crt_outb (CRTPORT + 1) pos ;;
  crt_set pos (Z.lor 32 0x0700).

Definition cgaputc (c : Z) : M cons unit :=
  crt_outb CRTPORT 14 ;;
  h ← crt_inb;
  crt_outb CRTPORT 15 ;;
  l ← crt_inb;
  let pos := Z.lor (Z.shiftl h 8) l in
  pos ← cga_put c pos;
  if (pos <? 0) || (25 * 80 <? pos) then panic "pos under/overflow" else
  pos ← cga_scroll pos;
  cga_cursor pos.

(** A CPU stops once another has panicked. *)
Definition consputc (c : Z) : M cons unit :=
  s ← get;
  if negb (co_panicked s =? 0) then sleep_on ChNone else
  (if c =? BACKSPACE then uartputc 8 ;; uartputc 32 ;; uartputc 8 else uartputc c) ;;
  cgaputc c.

(** ** Formatted output *)

(** "0123456789abcdef" *)
Definition digits : list Z := [48; 49; 50; 51; 52; 53; 54; 55; 56; 57; 97; 98; 99; 100; 101; 102].

(** The loop over the digits: the bytes of [buf], the lowest digit first. *)
Fixpoint printint_loop (fuel : nat) (x base : Z) : list Z :=
  match fuel with
  | O => []
  | S fuel' =>
      let d := nth (Z.to_nat (x mod base)) digits 0 in
      if x / base =? 0 then [d] else d :: printint_loop fuel' (x / base) base
  end.
Definition printint_buf (xx base sign : Z) : list Z :=
  let neg := negb (sign =? 0) && (xx <? 0) in
  let x := if neg then u32 (- xx) else u32 xx in
  printint_loop 32 x base ++ (if neg then [45] else []).
(** [buf] has 16 bytes. *)
Definition printint (xx base sign : Z) : M cons unit :=
  let buf := printint_buf xx base sign in
  if (16 <? length buf)%nat then undef "printint: buf" else
  forM (rev buf) consputc.

(** [argp] is the words that follow the format, [str] the bytes of the string
    at an address. *)
Section format.
Context (str : Z → list Z).
Definition NULLSTR : list Z := [40; 110; 117; 108; 108; 41].

Fixpoint cprintf (fmt : list Z) (argp : list Z) : M cons unit :=
  match fmt with
  | [] => mret tt
  | c :: fmt1 =>
      if negb (c =? 37) then consputc c ;; cprintf fmt1 argp else
      match fmt1 with
      | [] => mret tt
      | c :: fmt2 =>
          if (c =? 100) then
            match argp with a :: argp' => printint (s32 a) 10 1 ;; cprintf fmt2 argp' | [] => undef "cprintf: arguments" end
          else if (c =? 120) || (c =? 112) then
            match argp with a :: argp' => printint (s32 a) 16 0 ;; cprintf fmt2 argp' | [] => undef "cprintf: arguments" end
          else if (c =? 115) then
            match argp with
            | a :: argp' => forM (if a =? 0 then NULLSTR else str a) consputc ;; cprintf fmt2 argp'
            | [] => undef "cprintf: arguments"
            end
          else if (c =? 37) then consputc 37 ;; cprintf fmt2 argp
          else consputc 37 ;; consputc c ;; cprintf fmt2 argp
      end
  end.

(** "lapicid %d: panic: ", " %p" *)
Definition PANIC_FMT : list Z := [108; 97; 112; 105; 99; 105; 100; 32; 37; 100; 58; 32; 112; 97; 110; 105; 99; 58; 32].
Definition PC_FMT : list Z := [32; 37; 112].
Definition cons_panic (lapicid : Z) (msg : list Z) (pcs : list Z) : M cons unit :=
  cprintf PANIC_FMT [lapicid] ;;
  cprintf msg [] ;;
  cprintf [NL] [] ;;
  forM (take 10 pcs) (λ pc, cprintf PC_FMT [pc]) ;;
  modify (co_set_panicked 1) ;;
  sleep_on ChNone.
End format.

(** ** Input *)

(** The loop that removes the line being edited. *)
Fixpoint kill_line (fuel : nat) : M cons unit :=
  match fuel with
  | O => undef "kill line: fuel"
  | S fuel' =>
      s ← get;
      if co_e s =? co_w s then mret tt else
      b ← aget (co_buf s) (u32 (co_e s - 1) mod INPUT_BUF);
      if b =? NL then mret tt else
      modify (λ s, co_set_input (co_buf s) (co_r s) (co_w s) (u32 (co_e s - 1)) s) ;;
      consputc BACKSPACE ;;
      kill_line fuel'
  end.

(** One turn of the loop of [consoleintr], for the character [c]; the result
    says whether the processes are to be listed. *)
Definition consoleintr_one (c : Z) : M cons bool :=
  if c =? CTL_P then mret true else
  if c =? CTL_U then kill_line (S (Z.to_nat INPUT_BUF)) ;; mret false else
  if (c =? CTL_H) || (c =? DEL) then
    s ← get;
    (if negb (co_e s =? co_w s) then
       modify (λ s, co_set_input (co_buf s) (co_r s) (co_w s) (u32 (co_e s - 1)) s) ;;
       consputc BACKSPACE
     else mret tt) ;;
    mret false
  else
    s ← get;
    (if negb (c =? 0) && (u32 (co_e s - co_r s) <? INPUT_BUF) then
       let c := if c =? CR then NL else c in
       buf ← aset (co_buf s) (co_e s mod INPUT_BUF) (u8 c);
       modify (λ s, co_set_input buf (co_r s) (co_w s) (u32 (co_e s + 1)) s) ;;
       consputc c ;;
       s ← get;
       when ((c =? NL) || (c =? CTL_D) || (co_e s =? u32 (co_r s + INPUT_BUF)))
         (modify (λ s, co_set_wakes (S (co_wakes s)) (co_set_input (co_buf s) (co_r s) (co_e s) (co_e s) s)))
     else mret tt) ;;
    mret false.

(** [cs] is what [getc] returns, up to its first negative result. *)
Fixpoint consoleintr (cs : list Z) : M cons bool :=
  match cs with
  | [] => mret false
  | c :: cs' => d ← consoleintr_one c; d' ← consoleintr cs'; mret (d || d')
  end.

(** A read returns or goes to sleep with [n] bytes to go. *)
Inductive cread := CRet (r : Z) (data : list Z) | CSleep (n : Z) (data : list Z).

(** The loop of [consoleread]; [data] is what has been stored at [dst]. *)
Fixpoint consoleread_loop (fuel : nat) (killed : bool) (target n : Z) (data : list Z) : M cons cread :=
  match fuel with
  | O => undef "consoleread: fuel"
  | S fuel' =>
      if n <=? 0 then mret (CRet (target - n) data) else
      s ← get;
      if co_r s =? co_w s then
        if killed then mret (CRet (-1) data) else mret (CSleep n data)
      else
        c ← aget (co_buf s) (co_r s mod INPUT_BUF);
        modify (λ s, co_set_input (co_buf s) (u32 (co_r s + 1)) (co_w s) (co_e s) s) ;;
        if c =? CTL_D then
          when (n <? target) (modify (λ s, co_set_input (co_buf s) (u32 (co_r s - 1)) (co_w s) (co_e s) s)) ;;
          mret (CRet (target - n) data)
        else if c =? NL then mret (CRet (target - (n - 1)) (data ++ [c]))
        else consoleread_loop fuel' killed target (n - 1) (data ++ [c])
  end.
Definition consoleread (killed : bool) (target n : Z) (data : list Z) : M cons cread :=
  consoleread_loop (S (S (Z.to_nat INPUT_BUF))) killed target n data.

Definition consolewrite (buf : list Z) (n : Z) : M cons Z :=
  forM (take (Z.to_nat n) buf) consputc ;;
  mret n.

(** ** The line discipline, abstractly *)

(** The bytes for readers, and the line being edited. *)
Record tty := mk_tty { t_ready : list Z; t_line : list Z }.

Definition tty_key (t : tty) (c : Z) : tty :=
  if c =? CTL_P then t else
  if c =? CTL_U then mk_tty (t_ready t) [] else
  if (c =? CTL_H) || (c =? DEL) then mk_tty (t_ready t) (take (pred (length (t_line t))) (t_line t)) else
  if negb (c =? 0) && (length (t_ready t) + length (t_line t) <? 128)%nat then
    let c := if c =? CR then NL else c in
    let line := t_line t ++ [c] in
    if (c =? NL) || (c =? CTL_D) || (length (t_ready t) + length line =? 128)%nat then mk_tty (t_ready t ++ line) []
    else mk_tty (t_ready t) line
  else t.

Fixpoint tty_read (killed : bool) (target n : Z) (data ready : list Z) : cread * list Z :=
  if n <=? 0 then (CRet (target - n) data, ready) else
  match ready with
  | [] => (if killed then CRet (-1) data else CSleep n data, [])
  | c :: rest =>
      if c =? CTL_D then (CRet (target - n) data, if n <? target then ready else rest)
      else if c =? NL then (CRet (target - (n - 1)) (data ++ [c]), rest)
      else tty_read killed target (n - 1) (data ++ [c]) rest
  end.

(** The ring holds the two, in order. *)
Record ring (s : cons) (t : tty) : Prop := mk_ring {
  rg_r : 0 ≤ co_r s < 2 ^ 32;
  rg_w : co_w s = u32 (co_r s + Z.of_nat (length (t_ready t)));
  rg_e : co_e s = u32 (co_r s + Z.of_nat (length (t_ready t) + length (t_line t)));
  rg_len : length (co_buf s) = 128%nat;
  rg_size : (length (t_ready t) + length (t_line t) ≤ 128)%nat;
  rg_bytes : ∀ (k : nat) x, (t_ready t ++ t_line t) !! k = Some x → co_buf s !! Z.to_nat ((co_r s + Z.of_nat k) mod 128) = Some x;
}.

(** The screen: 25 rows of 80 cells, the cursor on it. *)
Definition cursor (s : cons) : Z := Z.lor (Z.shiftl (co_regs s 14) 8) (co_regs s 15).
Record screen (s : cons) : Prop := mk_screen {
  sc_len : length (co_crt s) = 2000%nat;
  sc_cursor : 0 ≤ cursor s < 25 * 80;
  sc_panicked : co_panicked s = 0;
}.

(** ** Output *)

Definition input_of (s : cons) := (co_buf s, co_r s, co_w s, co_e s, co_wakes s).

Lemma cursor_split : Forall (λ p, Z.lor (Z.shiftl (u8 (Z.shiftr p 8)) 8) (u8 p) = p) (seqZ 0 2001).
Proof. apply (bool_decide_eq_true_1 _). vm_compute. reflexivity. Qed.

Lemma crt_set_run pos v pid s :
  0 ≤ pos < Z.of_nat (length (co_crt s)) → crt_set pos v pid s = Ret tt (co_set_crt (<[Z.to_nat pos := v]> (co_crt s)) s).
Proof.
  intros Hp. unfold crt_set. rewrite (bind_Ret get _ pid s s s eq_refl). rewrite <- (Z2Nat.id pos) at 1 by lia.
  by rewrite (bind_Ret _ _ _ _ _ _ (aset_Ret (co_crt s) (Z.to_nat pos) v pid s ltac:(lia))).
Qed.

Lemma length_scroll pos crt : length crt = 2000%nat → 0 ≤ pos ≤ 1920 → length (crt_clear pos (crt_scroll crt)) = 2000%nat.
Proof.
  intros Hl Hp. assert (length (crt_scroll crt) = 2000%nat) as Hs.
  { unfold crt_scroll. rewrite length_splice; [done|]. rewrite length_take, length_drop. lia. }
  unfold crt_clear. rewrite length_splice; [done|]. rewrite length_replicate. lia.
Qed.

(** What output leaves alone. *)
Definition out_only (s s' : cons) : Prop := input_of s' = input_of s ∧ co_tx s' = co_tx s ∧ co_uart s' = co_uart s.

Lemma cga_cursor_run pos pid s :
  length (co_crt s) = 2000%nat → co_panicked s = 0 → 0 ≤ pos < 2000 → ∃ s',
  cga_cursor pos pid s = Ret tt s' ∧ screen s' ∧ out_only s s' ∧ cursor s' = pos.
Proof.
  intros Hl Hp Hpos. set (s4 := co_set_index 15 (co_set_regs (λ i, if i =? 15 then u8 pos else if i =? 14 then u8 (Z.shiftr pos 8) else co_regs s i) s)).
  set (v := Z.lor 32 0x0700). exists (co_set_crt (<[Z.to_nat pos := v]> (co_crt s)) s4). split.
  { change (crt_set pos v pid s4 = Ret tt (co_set_crt (<[Z.to_nat pos := v]> (co_crt s4)) s4)). apply crt_set_run. simpl. lia. }
  assert (cursor (co_set_crt (<[Z.to_nat pos := v]> (co_crt s)) s4) = pos) as Hc.
  { unfold cursor. simpl. pose proof cursor_split as Hs. rewrite Forall_lookup in Hs. apply (Hs (Z.to_nat pos)).
    apply lookup_seqZ. split; lia. }
  split; [split; [simpl; by rewrite length_insert|rewrite Hc; lia|done]|done].
Qed.

Lemma cga_put_run c pos pid s : length (co_crt s) = 2000%nat → 0 ≤ pos < 2000 → ∃ pos' crt,
  cga_put c pos pid s = Ret pos' (co_set_crt crt s) ∧ 0 ≤ pos' ≤ 2000 ∧ length crt = 2000%nat.
Proof.
  intros Hl Hp. unfold cga_put. assert (co_set_crt (co_crt s) s = s) as Hid by (by destruct s).
  destruct (c =? NL); [|destruct (c =? BACKSPACE)].
  - eexists _, (co_crt s). rewrite Hid. split; [done|]. split; [dlia|done].
  - eexists _, (co_crt s). rewrite Hid. split; [done|]. split; [|done]. destruct (0 <? pos) eqn:E; lia.
  - eexists _, _. mrun (crt_set_run pos (Z.lor (Z.land c 255) 1792) pid s ltac:(lia)). split; [done|]. split; [lia|]. by rewrite length_insert.
Qed.

Lemma cga_scroll_run pos pid s : length (co_crt s) = 2000%nat → 0 ≤ pos ≤ 2000 → ∃ pos' crt,
  cga_scroll pos pid s = Ret pos' (co_set_crt crt s) ∧ 0 ≤ pos' ≤ 1920 ∧ length crt = 2000%nat.
Proof.
  intros Hl Hp. unfold cga_scroll. destruct (24 <=? pos / 80) eqn:E.
  - rewrite (proj2 (Z.ltb_ge (24 * 80) (pos - 80))) by lia. eexists _, _. split; [reflexivity|]. split; [dlia|]. apply length_scroll; [done|dlia].
  - exists pos, (co_crt s). replace (co_set_crt (co_crt s) s) with s by (by destruct s). split; [done|]. split; [dlia|done].
Qed.

Lemma cgaputc_run c pid s : screen s → ∃ s', cgaputc c pid s = Ret tt s' ∧ screen s' ∧ out_only s s' ∧ cursor s' ≤ 24 * 80.
Proof.
  intros [Hl Hc Hp]. set (s2 := co_set_index 15 s). destruct (cga_put_run c (cursor s) pid s2 Hl Hc) as (p1 & crt1 & E1 & P1 & L1).
  set (s3 := co_set_crt crt1 s2) in E1. destruct (cga_scroll_run p1 pid s3 L1 P1) as (p2 & crt2 & E2 & P2 & L2).
  set (s4 := co_set_crt crt2 s3) in E2. destruct (cga_cursor_run p2 pid s4 L2 Hp ltac:(lia)) as (s5 & E3 & Hs & Ho & Hc5).
  exists s5. split; [|split; [done|split; [exact Ho|lia]]].
  change (cgaputc c pid s) with ((pos ← cga_put c (cursor s); if (pos <? 0) || (25 * 80 <? pos) then panic "pos under/overflow" else
    pos ← cga_scroll pos; cga_cursor pos) pid s2).
  mrun E1. rewrite (proj2 (Z.ltb_ge p1 0)), (proj2 (Z.ltb_ge (25 * 80) p1)) by lia. cbn [orb]. by mrun E2.
Qed.

(** What a character does to the serial line. *)
Definition tx_of (uart : bool) (c : Z) : list Z := if uart then (if c =? BACKSPACE then [8; 32; 8] else [u8 c]) else [].

Lemma consputc_run c pid s : screen s → ∃ s',
  consputc c pid s = Ret tt s' ∧ screen s' ∧ input_of s' = input_of s ∧ co_tx s' = co_tx s ++ tx_of (co_uart s) c ∧ co_uart s' = co_uart s.
Proof.
  intros Hs. set (s1 := co_set_tx (co_tx s ++ tx_of (co_uart s) c) s).
  destruct (cgaputc_run c pid s1) as (s2 & E & Hs2 & (H1 & H2 & H3) & _); [by destruct Hs|].
  exists s2. split; [|done]. unfold consputc. mstep. rewrite (sc_panicked _ Hs). cbn [negb Z.eqb].
  rewrite (bind_Ret _ _ _ _ tt s1); [done|]. unfold s1, tx_of. destruct (c =? BACKSPACE).
  - unfold uartputc. munfold. destruct (co_uart s) eqn:Eu; simpl; rewrite ?Eu; simpl; rewrite ?Eu; simpl.
    + rewrite <- !app_assoc. reflexivity.
    + rewrite app_nil_r. by destruct s.
  - unfold uartputc. munfold. destruct (co_uart s); simpl; [done|]. rewrite app_nil_r. by destruct s.
Qed.

Lemma consputs_run cs pid : ∀ s, screen s → ∃ s',
  forM cs consputc pid s = Ret tt s' ∧ screen s' ∧ input_of s' = input_of s ∧ co_tx s' = co_tx s ++ (cs ≫= tx_of (co_uart s)) ∧ co_uart s' = co_uart s.
Proof.
  induction cs as [|c cs IH]; intros s Hs; cbn [forM].
  - exists s. rewrite app_nil_r. done.
  - destruct (consputc_run c pid s Hs) as (s1 & E1 & Hs1 & I1 & T1 & U1). destruct (IH s1 Hs1) as (s2 & E2 & Hs2 & I2 & T2 & U2).
    exists s2. mrun E1. split; [done|]. split; [done|]. split; [congruence|]. split; [|congruence].
    rewrite T2, T1, U1, <- app_assoc. done.
Qed.

(** ** Input *)

Lemma ring_input s s' t : input_of s' = input_of s → ring s t → ring s' t.
Proof. unfold input_of. intros [= H1 H2 H3 H4 H5] []. split; rewrite ?H1, ?H2, ?H3, ?H4; done. Qed.

Lemma u32_idx x : u32 x mod 128 = x mod 128.
Proof. unfold u32. dlia. Qed.
Lemma u32_pred x : u32 (u32 x - 1) = u32 (x - 1).
Proof. unfold u32. dlia. Qed.
Lemma u32_eqb x a b : 0 ≤ a < 2 ^ 32 → 0 ≤ b < 2 ^ 32 → (u32 (x + a) =? u32 (x + b)) = (a =? b).
Proof. intros Ha Hb. unfold u32. destruct (Z.eqb_spec a b) as [->|Hn]; [by apply Z.eqb_refl|]. apply Z.eqb_neq. dlia. Qed.

Lemma aget_idx {S A} (l : list A) i pid (s : S) x : 0 ≤ i → l !! Z.to_nat i = Some x → aget l i pid s = Ret x s.
Proof. intros Hi Hx. rewrite <- (Z2Nat.id i Hi) at 1. by apply aget_Ret. Qed.
Lemma aset_idx {S A} (l : list A) i v pid (s : S) : 0 ≤ i < Z.of_nat (length l) → aset l i v pid s = Ret (<[Z.to_nat i := v]> l) s.
Proof. intros Hi. rewrite <- (Z2Nat.id i) at 1 by lia. apply aset_Ret. lia. Qed.

Lemma bind_modify {S A} (f : S → S) (k : unit → M S A) pid s : (modify f ≫= k) pid s = k tt pid (f s).
Proof. reflexivity. Qed.

Lemma last_lookup {A} (l l' : list A) : l' ≠ [] → ∃ x, (l ++ l') !! (length l + length l' - 1)%nat = Some x ∧ l' !! (length l' - 1)%nat = Some x.
Proof.
  intros Hn. assert (0 < length l')%nat by (destruct l'; simpl; [done|lia]).
  destruct (lookup_lt_is_Some_2 l' (length l' - 1)) as [x Hx]; [lia|]. exists x. split; [|done].
  rewrite lookup_app_r by lia. by replace (length l + length l' - 1 - length l)%nat with (length l' - 1)%nat by lia.
Qed.

(** The last byte of the line is taken back. *)
Lemma ring_back s ready line :
  ring s (mk_tty ready line) → line ≠ [] →
  ring (co_set_input (co_buf s) (co_r s) (co_w s) (u32 (co_e s - 1)) s) (mk_tty ready (take (pred (length line)) line)).
Proof.
  intros [H1 H2 H3 H4 H5 H6] Hn. simpl in *. assert (0 < length line)%nat by (destruct line; simpl; [done|lia]).
  split; simpl; try done.
  - rewrite H3, u32_pred. f_equal. rewrite length_take. lia.
  - rewrite length_take. lia.
  - intros k x Hk. apply H6. rewrite <- (take_drop (pred (length line)) line), app_assoc. by apply lookup_app_l_Some.
Qed.

Lemma ring_empty s ready line : ring s (mk_tty ready line) → (co_e s =? co_w s) = bool_decide (line = []).
Proof.
  intros [H1 H2 H3 H4 H5 H6]. simpl in *. rewrite H2, H3, u32_eqb by lia. destruct line; simpl.
  - apply Z.eqb_eq. lia.
  - apply Z.eqb_neq. lia.
Qed.

Lemma kill_line_run pid n : ∀ s ready line, ring s (mk_tty ready line) → screen s → NL ∉ line → (length line < n)%nat → ∃ s',
  kill_line n pid s = Ret tt s' ∧ ring s' (mk_tty ready []) ∧ screen s'.
Proof.
  induction n as [|n IH]; intros s ready line Hr Hs Hnl Hn; [lia|]. cbn [kill_line]. rewrite (bind_Ret get _ pid s s s eq_refl), (ring_empty _ _ _ Hr).
  case_bool_decide as E; [subst line; by exists s|]. destruct (last_lookup ready line E) as (x & Hx & Hl).
  assert (0 < length line)%nat by (destruct line; simpl; [done|lia]).
  rewrite (rg_e _ _ Hr), u32_pred. unfold INPUT_BUF. rewrite u32_idx. simpl.
  replace (co_r s + Z.of_nat (length ready + length line) - 1) with (co_r s + Z.of_nat (length ready + length line - 1)) by lia.
  pose proof (rg_bytes _ _ Hr _ _ Hx) as Hb.
  mrun (aget_idx (co_buf s) ((co_r s + Z.of_nat (length ready + length line - 1)) mod 128) pid s x ltac:(dlia) Hb). rewrite (proj2 (Z.eqb_neq x NL)).
  2:{ intros ->. apply Hnl. by eapply list_elem_of_lookup_2. }
  rewrite bind_modify. pose proof (ring_back _ _ _ Hr E) as Hr1. set (s1 := co_set_input _ _ _ _ s) in *.
  destruct (consputc_run BACKSPACE pid s1) as (s2 & E2 & Hs2 & I2 & _ & _); [by destruct Hs|]. mrun E2.
  apply (IH s2 ready (take (pred (length line)) line)); [by eapply ring_input|done| |].
  - intros Hin. apply Hnl. rewrite <- (take_drop (pred (length line)) line). apply elem_of_app. by left.
  - rewrite length_take. lia.
Qed.

(** A byte is added to the line. *)
Lemma ring_push s ready line c :
  ring s (mk_tty ready line) → (length ready + length line < 128)%nat →
  ring (co_set_input (<[Z.to_nat (co_e s mod 128) := c]> (co_buf s)) (co_r s) (co_w s) (u32 (co_e s + 1)) s) (mk_tty ready (line ++ [c])).
Proof.
  intros [H1 H2 H3 H4 H5 H6] Hn. simpl in *. split; simpl; try done.
  - rewrite H3, length_app. simpl. unfold u32. rewrite Zplus_mod_idemp_l. f_equal. lia.
  - by rewrite length_insert.
  - rewrite length_app. simpl. lia.
  - intros k x Hk. rewrite app_assoc in Hk. apply lookup_app_Some in Hk as [Hk|[Hge Hk]].
    + pose proof (lookup_lt_Some _ _ _ Hk) as Hlt. rewrite length_app in Hlt. rewrite list_lookup_insert_ne; [by apply H6|].
      rewrite H3, u32_idx. intros E. apply Z2Nat.inj in E; [|dlia|dlia]. dlia.
    + rewrite length_app in Hge, Hk. destruct (k - _)%nat eqn:E; [|done]. injection Hk as <-.
      replace (co_r s + Z.of_nat k) with (co_r s + Z.of_nat (length ready + length line)) by lia.
      rewrite H3, u32_idx. apply list_lookup_insert_eq. rewrite H4. dlia.
Qed.

(** The line is handed to the readers. *)
Lemma ring_commit s ready line n :
  ring s (mk_tty ready line) → ring (co_set_wakes n (co_set_input (co_buf s) (co_r s) (co_e s) (co_e s) s)) (mk_tty (ready ++ line) []).
Proof.
  intros [H1 H2 H3 H4 H5 H6]. simpl in *. split; simpl; rewrite ?length_app, ?app_nil_r; try done.
  - by rewrite Nat.add_0_r.
  - lia.
Qed.

(** No line being edited has a newline. *)
Lemma tty_key_line t c : NL ∉ t_line t → NL ∉ t_line (tty_key t c).
Proof.
  intros Hn. unfold tty_key. repeat case_match; simpl; try done; try set_solver.
  - intros Hin. apply Hn. rewrite <- (take_drop (pred (length (t_line t))) (t_line t)). apply elem_of_app. by left.
Qed.

Lemma consoleintr_one_run c pid s t :
  ring s t → NL ∉ t_line t → screen s → is_byte c → ∃ d s',
  consoleintr_one c pid s = Ret d s' ∧ ring s' (tty_key t c) ∧ screen s'.
Proof.
  intros Hr Hnl Hs Hc. destruct t as [ready line]. simpl in *. unfold consoleintr_one, tty_key. simpl.
  destruct (c =? CTL_P); [by exists true, s|]. destruct (c =? CTL_U).
  { destruct (kill_line_run pid (S (Z.to_nat INPUT_BUF)) s ready line Hr Hs Hnl) as (s' & E & Hr' & Hs').
    { pose proof (rg_size _ _ Hr). simpl in *. unfold INPUT_BUF. lia. }
    exists false, s'. by mrun E. }
  destruct (_ || _).
  { rewrite (bind_Ret get _ pid s s s eq_refl), (ring_empty _ _ _ Hr). case_bool_decide as E; simpl.
    - subst line. exists false, s. done.
    - pose proof (ring_back _ _ _ Hr E) as Hr1. set (s1 := co_set_input _ _ _ _ s) in *.
      destruct (consputc_run BACKSPACE pid s1) as (s2 & E2 & Hs2 & I2 & _ & _); [by destruct Hs|].
      exists false, s2. rewrite bind_assoc, bind_modify. fold s1. mrun E2. split; [done|]. split; [by eapply ring_input|done]. }
  rewrite (bind_Ret get _ pid s s s eq_refl).
  assert ((u32 (co_e s - co_r s) <? INPUT_BUF) = (length ready + length line <? 128)%nat) as ->.
  { pose proof (rg_size _ _ Hr). simpl in *. rewrite (rg_e _ _ Hr). simpl. unfold INPUT_BUF, u32. rewrite Zminus_mod_idemp_l.
    rewrite Z.mod_small by lia. apply eq_true_iff_eq. rewrite Z.ltb_lt, Nat.ltb_lt. lia. }
  destruct (negb (c =? 0) && _) eqn:Eg; [|by exists false, s]. apply andb_prop in Eg as [_ Hlt%Nat.ltb_lt].
  set (c' := if c =? CR then NL else c). assert (u8 c' = c') as ->.
  { unfold u8, c', NL. unfold is_byte in Hc. destruct (c =? CR); [done|]. apply Z.mod_small. lia. }
  pose proof (ring_push s ready line c' Hr Hlt) as Hr1. set (s1 := co_set_input _ _ _ _ s) in Hr1.
  destruct (consputc_run c' pid s1) as (s2 & E2 & Hs2 & I2 & _ & _); [by destruct Hs|]. pose proof (ring_input _ _ _ I2 Hr1) as Hr2.
  rewrite bind_assoc. mrun (aset_idx (co_buf s) (co_e s mod INPUT_BUF) c' pid s ltac:(rewrite (rg_len _ _ Hr); unfold INPUT_BUF; dlia)).
  rewrite bind_assoc, bind_modify. fold s1. rewrite bind_assoc. mrun E2. rewrite bind_assoc, (bind_Ret get _ pid s2 s2 s2 eq_refl).
  assert ((co_e s2 =? u32 (co_r s2 + INPUT_BUF)) = (length ready + length (line ++ [c']) =? 128)%nat) as ->.
  { rewrite (rg_e _ _ Hr2). simpl. unfold INPUT_BUF. rewrite length_app. simpl. rewrite u32_eqb by lia. apply eq_true_iff_eq. rewrite Z.eqb_eq, Nat.eqb_eq. lia. }
  destruct (_ || _ || _); cbn [when].
  - rewrite bind_modify. eexists false, _. split; [reflexivity|]. split; [by apply ring_commit|by destruct Hs2].
  - by exists false, s2.
Qed.

Lemma consoleintr_run cs pid : ∀ s t,
  ring s t → NL ∉ t_line t → screen s → Forall is_byte cs → ∃ d s',
  consoleintr cs pid s = Ret d s' ∧ ring s' (fold_left tty_key cs t) ∧ NL ∉ t_line (fold_left tty_key cs t) ∧ screen s'.
Proof.
  induction cs as [|c cs IH]; intros s t Hr Hnl Hs Hc; [by exists false, s|]. inversion_clear Hc as [|? ? H1 H2].
  destruct (consoleintr_one_run c pid s t Hr Hnl Hs H1) as (d & s1 & E1 & Hr1 & Hs1).
  destruct (IH s1 (tty_key t c) Hr1 (tty_key_line t c Hnl) Hs1 H2) as (d' & s2 & E2 & Hr2 & Hnl2 & Hs2).
  exists (d || d'), s2. split; [|done]. cbn [consoleintr]. mrun E1. by mrun E2.
Qed.

(** The next byte for readers is taken. *)
Lemma ring_pop s c ready line :
  ring s (mk_tty (c :: ready) line) → ring (co_set_input (co_buf s) (u32 (co_r s + 1)) (co_w s) (co_e s) s) (mk_tty ready line).
Proof.
  intros [H1 H2 H3 H4 H5 H6]. simpl in *. split; simpl; try done.
  - apply u32_range.
  - rewrite H2. unfold u32. rewrite Zplus_mod_idemp_l. f_equal. lia.
  - rewrite H3. unfold u32. rewrite Zplus_mod_idemp_l. f_equal. lia.
  - lia.
  - intros k x Hk. assert ((u32 (co_r s + 1) + Z.of_nat k) mod 128 = (co_r s + Z.of_nat (S k)) mod 128) as -> by (unfold u32; dlia).
    by apply H6.
Qed.
Lemma unread r : 0 ≤ r < 2 ^ 32 → u32 (u32 (r + 1) - 1) = r.
Proof. intros Hr. unfold u32. dlia. Qed.
Lemma ring_first s c ready line : ring s (mk_tty (c :: ready) line) → (co_r s =? co_w s) = false ∧ co_buf s !! Z.to_nat (co_r s mod 128) = Some c.
Proof.
  intros [H1 H2 H3 H4 H5 H6]. simpl in *. split; [|rewrite <- (Z.add_0_r (co_r s)) at 1; by apply (H6 0%nat)].
  rewrite H2, <- (u32_small (co_r s)) at 1 by done. rewrite <- (Z.add_0_r (co_r s)) at 1. rewrite u32_eqb by lia. apply Z.eqb_neq. lia.
Qed.
Lemma ring_none s line : ring s (mk_tty [] line) → (co_r s =? co_w s) = true.
Proof. intros [H1 H2 H3 H4 H5 H6]. simpl in *. rewrite H2, Z.add_0_r, u32_small by done. apply Z.eqb_refl. Qed.

Lemma consoleread_run killed target pid fuel : ∀ s n data ready line,
  ring s (mk_tty ready line) → screen s → (length ready < fuel)%nat → ∃ s',
  consoleread_loop fuel killed target n data pid s = Ret (tty_read killed target n data ready).1 s' ∧
  ring s' (mk_tty (tty_read killed target n data ready).2 line) ∧ screen s'.
Proof.
  induction fuel as [|fuel IH]; intros s n data ready line Hr Hs Hf; [lia|]. cbn [consoleread_loop].
  destruct ready as [|c ready]; cbn [tty_read]; (destruct (n <=? 0); [by exists s|]); rewrite (bind_Ret get _ pid s s s eq_refl).
  - rewrite (ring_none _ _ Hr). destruct killed; by exists s.
  - destruct (ring_first _ _ _ _ Hr) as [-> Hc]. mrun (aget_idx (co_buf s) (co_r s mod INPUT_BUF) pid s c ltac:(unfold INPUT_BUF; dlia) Hc).
    rewrite bind_modify. pose proof (ring_pop _ _ _ _ Hr) as Hr1. set (s1 := co_set_input _ _ _ _ s) in *.
    assert (screen s1) as Hs1 by (by destruct Hs). destruct (c =? CTL_D).
    + destruct (n <? target); cbn [when]; [|by exists s1].
      rewrite bind_modify. eexists. split; [reflexivity|]. split; [|by destruct Hs]. eapply ring_input; [|exact Hr].
      unfold input_of. simpl. by rewrite (unread _ (rg_r _ _ Hr)).
    + destruct (c =? NL); [by exists s1|]. apply (IH s1 (n - 1) (data ++ [c]) ready line Hr1 Hs1). simpl in Hf. lia.
Qed.

(** ** Numbers *)

(** The value of a digit, and of a numeral with its lowest digit first. *)
Definition digit_val (c : Z) : Z := if c <? 58 then c - 48 else c - 87.
Fixpoint num_val (base : Z) (l : list Z) : Z :=
  match l with [] => 0 | c :: l' => digit_val c + base * num_val base l' end.

Lemma digit_ok : Forall (λ d, digit_val (nth (Z.to_nat d) digits 0) = d) (seqZ 0 16).
Proof. apply (bool_decide_eq_true_1 _). vm_compute. reflexivity. Qed.
Lemma digit_nth d : 0 ≤ d < 16 → digit_val (nth (Z.to_nat d) digits 0) = d.
Proof.
  intros Hd. pose proof digit_ok as Hf. rewrite Forall_lookup in Hf. apply (Hf (Z.to_nat d)). apply lookup_seqZ. lia.
Qed.

Lemma printint_loop_val base fuel : ∀ x, 2 ≤ base ≤ 16 → 0 ≤ x < base ^ Z.of_nat fuel → (0 < fuel)%nat →
  num_val base (printint_loop fuel x base) = x ∧ (∀ n, 0 < n → x < base ^ n → Z.of_nat (length (printint_loop fuel x base)) ≤ n).
Proof.
  induction fuel as [|fuel IH]; intros x Hb Hx Hf; [lia|]. cbn [printint_loop].
  assert (0 ≤ x mod base < base) as Hm by (apply Z.mod_pos_bound; lia). pose proof (Z.div_mod x base ltac:(lia)) as Hd.
  destruct (x / base =? 0) eqn:E.
  - cbn [num_val]. rewrite digit_nth by lia. split; [nia|]. simpl. lia.
  - assert (0 < x / base) as Hq by (pose proof (Z.div_pos x base ltac:(lia) ltac:(lia)); lia).
    rewrite Nat2Z.inj_succ, Z.pow_succ_r in Hx by lia.
    assert (x / base < base ^ Z.of_nat fuel) as Hlt by (apply Z.div_lt_upper_bound; lia).
    assert (0 < fuel)%nat as Hf' by (destruct fuel; [simpl in Hlt; lia|lia]).
    destruct (IH (x / base) Hb ltac:(lia) Hf') as [Hv Hl]. cbn [num_val length]. split; [rewrite digit_nth, Hv by lia; lia|].
    intros n Hn Hxn. assert (1 < n) as Hn1.
    { destruct (decide (n = 1)) as [->|]; [|lia]. rewrite Z.pow_1_r in Hxn. rewrite Z.div_small in Hq by lia. lia. }
    pose proof (Hl (n - 1) ltac:(lia)) as Hl1. rewrite Nat2Z.inj_succ. apply Z.le_succ_l.
    assert (x / base < base ^ (n - 1)); [|lia]. apply Z.div_lt_upper_bound; [lia|]. rewrite <- Z.pow_succ_r by lia. by replace (Z.succ (n - 1)) with n by lia.
Qed.

Lemma printint_digits xx base sign :
  (base = 10 ∨ base = 16) → - 2 ^ 31 ≤ xx < 2 ^ 31 →
  let neg := negb (sign =? 0) && (xx <? 0) in
  ∃ ds, printint_buf xx base sign = ds ++ (if neg then [45] else []) ∧ (length ds ≤ 10)%nat ∧
    num_val base ds = if neg then - xx else u32 xx.
Proof.
  intros Hb Hx neg. unfold printint_buf. fold neg. eexists. split; [reflexivity|].
  set (x := if neg then u32 (- xx) else u32 xx). assert (0 ≤ x < 2 ^ 32) as Hr by (unfold x; destruct neg; apply u32_range).
  destruct (printint_loop_val base 32 x) as [Hv Hl]; [lia| |lia|].
  { split; [lia|]. destruct Hb as [-> | ->]; (eapply Z.lt_trans; [apply Hr|done]). }
  split.
  - specialize (Hl 10 ltac:(lia)). assert (x < base ^ 10) as Hlt; [|lia]. destruct Hb as [-> | ->]; (eapply Z.lt_trans; [apply Hr|done]).
  - rewrite Hv. unfold x, neg. destruct (negb (sign =? 0) && (xx <? 0)) eqn:E; [|done]. apply u32_small. lia.
Qed.

Lemma tx_bytes uart l : Forall is_byte l → l ≫= tx_of uart = if uart then l else [].
Proof.
  induction 1 as [|c l Hc Hl IH]; [by destruct uart|]. cbn [mbind list_bind]. change (list_bind _ _ (tx_of uart) l) with (l ≫= tx_of uart). rewrite IH.
  unfold tx_of, is_byte in *. destruct uart; [|done]. rewrite (proj2 (Z.eqb_neq c BACKSPACE)) by (unfold BACKSPACE; lia).
  unfold u8. by rewrite Z.mod_small by lia.
Qed.

Lemma printint_bytes xx base sign : Forall is_byte (printint_buf xx base sign).
Proof.
  assert (∀ fuel x, Forall is_byte (printint_loop fuel x base)) as Hl.
  { induction fuel as [|fuel IH]; intros x; cbn [printint_loop]; [done|].
    assert (∀ d, is_byte (nth d digits 0)) as Hd.
    { intros d. destruct (decide (d < 16)%nat); [|rewrite nth_overflow by (simpl; lia); done].
      assert (Forall is_byte digits) as Hf by (apply (bool_decide_eq_true_1 _); reflexivity).
      rewrite Forall_forall in Hf. apply Hf, list_elem_of_In, nth_In. done. }
    destruct (_ =? 0); constructor; auto. }
  unfold printint_buf. apply Forall_app. split; [apply Hl|]. destruct (_ && _); [apply Forall_singleton; unfold is_byte; lia|constructor].
Qed.

(** ** Main theorems *)

(** C27. The console edits lines: the ring of console.c implements a queue of
    bytes for readers and a line being edited.  For every sequence of typed
    bytes, with kill and erase characters, a full ring, and indices that wrap
    around 2^32, the handler does what the abstract line discipline does, and
    a read returns, or goes to sleep, exactly as on the abstract queue; the
    handler never writes outside the screen and never panics. *)
Theorem console_refines pid s t cs :
  ring s t → NL ∉ t_line t → screen s → Forall is_byte cs →
  (∃ d s', consoleintr cs pid s = Ret d s' ∧ ring s' (fold_left tty_key cs t) ∧ NL ∉ t_line (fold_left tty_key cs t) ∧ screen s') ∧
  (∀ killed target n data, ∃ s',
     consoleread killed target n data pid s = Ret (tty_read killed target n data (t_ready t)).1 s' ∧
     ring s' (mk_tty (tty_read killed target n data (t_ready t)).2 (t_line t)) ∧ screen s').
Proof.
  intros Hr Hnl Hs Hc. split; [by apply consoleintr_run|]. intros killed target n data. destruct t as [ready line]. apply consoleread_run; [done|done|].
  pose proof (rg_size _ _ Hr). simpl in *. unfold INPUT_BUF. lia.
Qed.

Definition cons_ex : cons :=
  mk_cons (replicate 128 0) (2 ^ 32 - 2) (2 ^ 32 - 2) (2 ^ 32 - 2) (replicate 2000 0) 0 (λ _, 0) true [] 0 0.

(** "ab", erase, "c", return is read as "ac\n". *)
Lemma console_refines_witness : ∃ d s1 s2, consoleintr [97; 98; 8; 99; 13] 0 cons_ex = Ret d s1 ∧
  consoleread false 100 100 [] 0 s1 = Ret (CRet 3 [97; 99; 10]) s2.
Proof.
  assert (ring cons_ex (mk_tty [] []) ∧ screen cons_ex) as [Hr Hs].
  { split; split; simpl; try done; lia. }
  destruct (proj1 (console_refines 0 cons_ex (mk_tty [] []) [97; 98; 8; 99; 13] Hr ltac:(set_solver) Hs ltac:(by repeat constructor))) as (d & s1 & E1 & Hr1 & Hn1 & Hs1).
  destruct (proj2 (console_refines 0 s1 _ [] Hr1 Hn1 Hs1 ltac:(constructor)) false 100 100 []) as (s2 & E2 & _).
  exists d, s1, s2. split; [exact E1|exact E2].
Defined.

(** C32. Console output is safe and complete: whatever bytes are written, each
    is sent to the serial line in order, the cursor stays on the screen, no
    cell outside its 25 rows of 80 is written and the check of the position
    does not panic. *)
Theorem consolewrite_outputs pid s buf n :
  screen s → Forall is_byte buf → 0 ≤ n ≤ Z.of_nat (length buf) → ∃ s',
  consolewrite buf n pid s = Ret n s' ∧ screen s' ∧ input_of s' = input_of s ∧
  co_tx s' = co_tx s ++ (if co_uart s then take (Z.to_nat n) buf else []).
Proof.
  intros Hs Hb Hn. destruct (consputs_run (take (Z.to_nat n) buf) pid s Hs) as (s' & E & Hs' & Hi & Ht & _).
  exists s'. unfold consolewrite. mrun E. rewrite tx_bytes in Ht by (by apply Forall_take). done.
Qed.

Lemma consolewrite_outputs_witness : ∃ s', consolewrite [104; 105; 10] 3 0 cons_ex = Ret 3 s' ∧ co_tx s' = [104; 105; 10].
Proof.
  destruct (consolewrite_outputs 0 cons_ex [104; 105; 10] 3) as (s' & E & _ & _ & Ht); [split; simpl; done || lia|by repeat constructor|simpl; lia|].
  exists s'. split; [exact E|exact Ht].
Defined.

(** Numbers print as numerals: for every 32-bit integer, the most negative
    one included, the buffer of [printint] does not overflow and what is
    printed, a sign and digits in base 10 or 16, denotes the number. *)
Theorem printint_prints pid s xx base sign :
  screen s → (base = 10 ∨ base = 16) → - 2 ^ 31 ≤ xx < 2 ^ 31 →
  let neg := negb (sign =? 0) && (xx <? 0) in
  ∃ s' ds, printint xx base sign pid s = Ret tt s' ∧ (length ds ≤ 10)%nat ∧
    num_val base ds = (if neg then - xx else u32 xx) ∧
    co_tx s' = co_tx s ++ (if co_uart s then rev (ds ++ (if neg then [45] else [])) else []).
Proof.
  intros Hs Hb Hx neg. destruct (printint_digits xx base sign Hb Hx) as (ds & E & Hl & Hv). fold neg in E, Hv.
  destruct (consputs_run (rev (printint_buf xx base sign)) pid s Hs) as (s' & Er & _ & _ & Ht & _).
  exists s', ds. split; [|split; [done|split; [done|]]].
  - unfold printint. rewrite (proj2 (Nat.ltb_ge _ _)); [exact Er|]. rewrite E, length_app. destruct neg; simpl; lia.
  - rewrite Ht, tx_bytes; [by rewrite E|]. apply Forall_rev, printint_bytes.
Qed.

Lemma printint_prints_witness : ∃ s' ds, printint (- 2 ^ 31) 10 1 0 cons_ex = Ret tt s' ∧ num_val 10 ds = 2 ^ 31 ∧ co_tx s' = rev (ds ++ [45]).
Proof.
  destruct (printint_prints 0 cons_ex (- 2 ^ 31) 10 1) as (s' & ds & E & _ & Hv & Ht); [split; simpl; done || lia|by left|lia|].
  exists s', ds. split; [exact E|]. split; [exact Hv|exact Ht].
Defined.
