(* ===== verification/Kbd.v ===== *)
(** * The keyboard (kbd.c, kbd.h)

    [kbdgetc] turns scan codes into characters; its static variable [shift]
    is threaded through, and the two ports are the values they are read
    with. *)

From S2P Require Import Prelude Layout CString Mem Console.

Set Default Proof Using "Type".

Definition KBS_DIB : Z := 0x01.
Definition SHIFT : Z := 1.
Definition CTL : Z := 2.
Definition ALT : Z := 4.
Definition CAPSLOCK : Z := 8.
Definition NUMLOCK : Z := 16.
Definition SCROLLLOCK : Z := 32.
Definition E0ESC : Z := 64.

(** An array of 256 bytes: its first elements, and the designated ones. *)
Definition table (l : list Z) (d : list (Z * Z)) : list Z :=
  fold_left (λ t e, <[Z.to_nat (e.1) := e.2]> t) d (l ++ replicate (256 - length l) 0).

Definition shiftcode : list Z := table
  []
  [(0x1D, 2); (0x2A, 1); (0x36, 1); (0x38, 4); (0x9D, 2); (0xB8, 4)].
Definition togglecode : list Z := table
  []
  [(0x3A, 8); (0x45, 16); (0x46, 32)].
Definition normalmap : list Z := table
  [0; 27; 49; 50; 51; 52; 53; 54; 55; 56; 57; 48; 45; 61; 8; 9;
   113; 119; 101; 114; 116; 121; 117; 105; 111; 112; 91; 93; 10; 0; 97; 115;
   100; 102; 103; 104; 106; 107; 108; 59; 39; 96; 0; 92; 122; 120; 99; 118;
   98; 110; 109; 44; 46; 47; 0; 42; 0; 32; 0; 0; 0; 0; 0; 0;
   0; 0; 0; 0; 0; 0; 0; 55; 56; 57; 45; 52; 53; 54; 43; 49;
   50; 51; 48; 46; 0; 0; 0; 0]
  [(0x9C, 10); (0xB5, 47); (0xC8, 226); (0xD0, 227); (0xC9, 230); (0xD1, 231); (0xCB, 228); (0xCD, 229); (0x97, 224); (0xCF, 225); (0xD2, 232); (0xD3, 233)].
Definition shiftmap : list Z := table
  [0; 27; 33; 64; 35; 36; 37; 94; 38; 42; 40; 41; 95; 43; 8; 9;
   81; 87; 69; 82; 84; 89; 85; 73; 79; 80; 123; 125; 10; 0; 65; 83;
   68; 70; 71; 72; 74; 75; 76; 58; 34; 126; 0; 124; 90; 88; 67; 86;
   66; 78; 77; 60; 62; 63; 0; 42; 0; 32; 0; 0; 0; 0; 0; 0;
   0; 0; 0; 0; 0; 0; 0; 55; 56; 57; 45; 52; 53; 54; 43; 49;
   50; 51; 48; 46; 0; 0; 0; 0]
  [(0x9C, 10); (0xB5, 47); (0xC8, 226); (0xD0, 227); (0xC9, 230); (0xD1, 231); (0xCB, 228); (0xCD, 229); (0x97, 224); (0xCF, 225); (0xD2, 232); (0xD3, 233)].
Definition ctlmap : list Z := table
  [0; 0; 0; 0; 0; 0; 0; 0; 0; 0; 0; 0; 0; 0; 0; 0;
   17; 23; 5; 18; 20; 25; 21; 9; 15; 16; 0; 0; 13; 0; 1; 19;
   4; 6; 7; 8; 10; 11; 12; 0; 0; 0; 0; 28; 26; 24; 3; 22;
   2; 14; 13; 0; 0; 239; 0; 0]
  [(0x9C, 13); (0xB5, 239); (0xC8, 226); (0xD0, 227); (0xC9, 230); (0xD1, 231); (0xCB, 228); (0xCD, 229); (0x97, 224); (0xCF, 225); (0xD2, 232); (0xD3, 233)].

Definition at_table (t : list Z) (i : Z) : Z := nth (Z.to_nat i) t 0.
Definition charcode (k : Z) : list Z := if k =? 0 then normalmap else if k =? 1 then shiftmap else ctlmap.

(** [st] and [data] are what the status and the data port are read with. *)
Definition kbdgetc (shift st data : Z) : Z * Z :=
  if Z.land st KBS_DIB =? 0 then (shift, -1) else
  if data =? 0xE0 then (Z.lor shift E0ESC, 0)
  else if negb (Z.land data 0x80 =? 0) then
    let data := if negb (Z.land shift E0ESC =? 0) then data else Z.land data 0x7F in
    (Z.ldiff shift (Z.lor (at_table shiftcode data) E0ESC), 0)
  else
    let '(data, shift) := if negb (Z.land shift E0ESC =? 0) then (Z.lor data 0x80, Z.ldiff shift E0ESC) else (data, shift) in
    let shift := Z.lor shift (at_table shiftcode data) in
    let shift := Z.lxor shift (at_table togglecode data) in
    let c := at_table (charcode (Z.land shift (Z.lor CTL SHIFT))) data in
    let c := if negb (Z.land shift CAPSLOCK =? 0) then
               if (97 <=? c) && (c <=? 122) then c + (65 - 97)
               else if (65 <=? c) && (c <=? 90) then c + (97 - 65) else c
             else c in
    (shift, c).

(** The characters the handler gets from successive reads of the ports, up to
    the first that finds no data. *)
Fixpoint kbd_chars (shift : Z) (ports : list (Z * Z)) : Z * list Z :=
  match ports with
  | [] => (shift, [])
  | (st, data) :: ports' =>
      let '(shift', c) := kbdgetc shift st data in
      if c <? 0 then (shift', []) else let '(shift'', cs) := kbd_chars shift' ports' in (shift'', c :: cs)
  end.
Definition kbdintr (shift : Z) (ports : list (Z * Z)) : M cons (Z * bool) :=
  let '(shift', cs) := kbd_chars shift ports in
  d ← consoleintr cs;
  mret (shift', d).

(** The serial port's handler. *)
Fixpoint uart_chars (uart : bool) (ports : list (Z * Z)) : list Z :=
  match ports with
  | [] => []
  | (lsr, data) :: ports' => let c := uartgetc uart lsr data in if c <? 0 then [] else c :: uart_chars uart ports'
  end.
Definition uartintr (ports : list (Z * Z)) : M cons bool := s ← get; consoleintr (uart_chars (co_uart s) ports).

(** ** Lemmas *)

(** The scan codes of the keys a to z. *)
Definition letter_keys : list Z :=
  [0x1E; 0x30; 0x2E; 0x20; 0x12; 0x21; 0x22; 0x23; 0x17; 0x24; 0x25; 0x26; 0x32; 0x31; 0x18; 0x19; 0x10; 0x13; 0x1F; 0x14; 0x16; 0x2F; 0x11; 0x2D; 0x15; 0x2C].

(** What a letter key gives: a control character, a capital or a small letter. *)
Definition letter_char (shift k : Z) : Z :=
  if negb (Z.land shift CTL =? 0) then k + 1
  else if xorb (negb (Z.land shift SHIFT =? 0)) (negb (Z.land shift CAPSLOCK =? 0)) then k + 65 else k + 97.

Definition letters_ok (shift : Z) : bool :=
  forallb (λ '(k, d), bool_decide (kbdgetc shift 1 d = (shift, letter_char shift (Z.of_nat k)))) (imap pair letter_keys).
Definition modifier_ok (shift : Z) : bool :=
  forallb (λ '(d, b), bool_decide (kbdgetc shift 1 d = (Z.lor shift b, 0) ∧ kbdgetc shift 1 (Z.lor d 0x80) = (Z.ldiff shift b, 0)))
    [(0x2A, SHIFT); (0x36, SHIFT); (0x1D, CTL); (0x38, ALT)].
Definition range_ok (shift : Z) : bool :=
  forallb (λ d, let '(shift', c) := kbdgetc shift 1 d in bool_decide (0 ≤ shift' < 128 ∧ is_byte c)) (seqZ 0 256).

Lemma all_shifts (P : Z → bool) n : forallb P (seqZ 0 n) = true → ∀ x, 0 ≤ x < n → P x = true.
Proof. intros H x Hx. rewrite forallb_forall in H. apply H, list_elem_of_In, elem_of_seqZ. lia. Qed.

Lemma letters_all : forallb letters_ok (seqZ 0 64) = true.
Proof. vm_compute. reflexivity. Qed.
Lemma modifiers_all : forallb modifier_ok (seqZ 0 64) = true.
Proof. vm_compute. reflexivity. Qed.
Lemma range_all : forallb range_ok (seqZ 0 128) = true.
Proof. vm_compute. reflexivity. Qed.

Lemma kbdgetc_range shift st data :
  0 ≤ shift < 128 → is_byte data → 0 ≤ (kbdgetc shift st data).1 < 128 ∧ ((kbdgetc shift st data).2 = -1 ∨ is_byte (kbdgetc shift st data).2).
Proof.
  intros Hs Hd. unfold kbdgetc. destruct (Z.land st KBS_DIB =? 0) eqn:E; [simpl; lia|].
  pose proof (all_shifts _ _ range_all shift Hs) as Hr. unfold range_ok in Hr. pose proof (all_shifts _ _ Hr data Hd) as Hb. clear Hr.
  unfold kbdgetc in Hb. change (Z.land 1 KBS_DIB =? 0) with false in Hb. cbv iota in Hb.
  destruct (if data =? 0xE0 then _ else _) as [shift' c]. apply bool_decide_eq_true in Hb as [H1 H2]. split; [done|by right].
Qed.

Lemma kbd_chars_bytes ports : ∀ shift, 0 ≤ shift < 128 → Forall (λ p, is_byte p.2) ports →
  0 ≤ (kbd_chars shift ports).1 < 128 ∧ Forall is_byte (kbd_chars shift ports).2.
Proof.
  induction ports as [|[st data] ports IH]; intros shift Hs Hp; [done|]. inversion_clear Hp as [|? ? H1 H2]. cbn [kbd_chars].
  pose proof (kbdgetc_range shift st data Hs H1) as [Hr Hc]. destruct (kbdgetc shift st data) as [shift' c]. simpl in *.
  destruct (c <? 0) eqn:E; [done|]. destruct (IH shift' Hr H2) as [H3 H4]. destruct (kbd_chars shift' ports) as [shift'' cs]. simpl in *.
  split; [done|]. constructor; [|done]. destruct Hc; [lia|done].
Qed.

(** The keyboard: with no pending escape, a letter key gives the control
    character, the capital or the small letter, by the state of the control,
    shift and caps-lock keys; pressing and releasing a modifier key sets and
    clears its bit and nothing else; and the handler, for whatever bytes the
    keyboard sends, keeps the console's invariant without panicking. *)
Theorem keyboard_types shift :
  0 ≤ shift < 64 →
  (∀ k d, letter_keys !! k = Some d → kbdgetc shift 1 d = (shift, letter_char shift (Z.of_nat k))) ∧
  (∀ d b, (d, b) ∈ [(0x2A, SHIFT); (0x36, SHIFT); (0x1D, CTL); (0x38, ALT)] →
     kbdgetc shift 1 d = (Z.lor shift b, 0) ∧ kbdgetc shift 1 (Z.lor d 0x80) = (Z.ldiff shift b, 0)) ∧
  (∀ ports pid s t, ring s t → NL ∉ t_line t → screen s → Forall (λ p, is_byte p.2) ports →
     ∃ shift' d s' t', kbdintr shift ports pid s = Ret (shift', d) s' ∧ 0 ≤ shift' < 128 ∧ ring s' t' ∧ screen s').
Proof.
  intros Hs. split_and!.
  - intros k d Hk. pose proof (all_shifts _ _ letters_all shift Hs) as Hl. unfold letters_ok in Hl. rewrite forallb_forall in Hl.
    specialize (Hl (k, d)). cbv beta iota in Hl. apply bool_decide_eq_true in Hl; [done|]. apply list_elem_of_In, elem_of_lookup_imap. by exists k, d.
  - intros d b Hin. pose proof (all_shifts _ _ modifiers_all shift Hs) as Hl. unfold modifier_ok in Hl. rewrite forallb_forall in Hl.
    specialize (Hl (d, b)). cbv beta iota in Hl. apply bool_decide_eq_true in Hl; [done|]. by apply list_elem_of_In.
  - intros ports pid s t Hr Hn Hc Hp. destruct (kbd_chars_bytes ports shift ltac:(lia) Hp) as [H1 H2].
    unfold kbdintr. destruct (kbd_chars shift ports) as [shift' cs]. simpl in *.
    destruct (consoleintr_run cs pid s t Hr Hn Hc H2) as (d & s' & E & Hr' & _ & Hs'). exists shift', d, s', (fold_left tty_key cs t). by mrun E.
Qed.

Lemma keyboard_types_witness : kbdgetc 1 1 0x1E = (1, 65).
Proof. refine (proj1 (keyboard_types 1 _) 0%nat 0x1E eq_refl). lia. Defined.
