(* ===== verification/Grep.v ===== *)
(** * grep (grep.c)

    The matcher of regular expressions, and the loop that splits its input
    into lines.  Strings are lists of bytes without their terminator; [read]
    is a parameter. *)

From S2P Require Import Prelude Layout CString.

Set Default Proof Using "Type".

Definition CARET : Z := 94.
Definition STAR : Z := 42.
Definition DOLLAR : Z := 36.
Definition PERIOD : Z := 46.
Definition NEWLINE : Z := 10.

(** ** The matcher *)

(** [c*rest] at the beginning of the text, for a matcher of the rest. *)
Fixpoint matchstar (c : Z) (matchrest : list Z → bool) (text : list Z) : bool :=
  if matchrest text then true else
  match text with
  | [] => false
  | x :: text' => if (x =? c) || (c =? PERIOD) then matchstar c matchrest text' else false
  end.

Fixpoint matchhere (re text : list Z) : bool :=
  match re with
  | [] => true
  | c :: re1 =>
      match re1 with
      | c1 :: re2 =>
          if c1 =? STAR then matchstar c (matchhere re2) text else
          match text with
          | x :: text' => if (c =? PERIOD) || (c =? x) then matchhere re1 text' else false
          | [] => false
          end
      | [] =>
          if c =? DOLLAR then bool_decide (text = []) else
          match text with
          | x :: text' => if (c =? PERIOD) || (c =? x) then matchhere re1 text' else false
          | [] => false
          end
      end
  end.

(** The loop of [match] over the text. *)
Fixpoint match_loop (re text : list Z) : bool :=
  if matchhere re text then true else
  match text with [] => false | _ :: text' => match_loop re text' end.
Definition match_ (re text : list Z) : bool :=
  match re with
  | c :: re1 => if c =? CARET then matchhere re1 text else match_loop re text
  | [] => match_loop re text
  end.

(** ** The loop over lines *)

(** [strchr(p, '\n')] in the contents of [buf] from [p] on: what precedes and
    what follows the newline. *)
Fixpoint split_line (p : list Z) : option (list Z * list Z) :=
  match p with
  | [] => None
  | x :: p' =>
      if x =? 0 then None else
      if x =? NEWLINE then Some ([], p') else '(l, q) ← split_line p'; Some (x :: l, q)
  end.

(** The inner loop: the output and the rest of the buffer. *)
Fixpoint grep_lines (fuel : nat) (pattern p : list Z) : list Z * list Z :=
  match fuel with
  | O => ([], p)
  | S fuel' =>
      match split_line p with
      | None => ([], p)
      | Some (line, q) =>
          let '(out, rest) := grep_lines fuel' pattern q in
          ((if match_ pattern line then line ++ [NEWLINE] else []) ++ out, rest)
      end
  end.

Definition BUFSIZE : nat := 1024.

Section grep.
Context {S : Type} (read : S → nat → list Z * S).

(** [m] is the beginning of a line that is kept in [buf]; [None]: the fuel was
    not enough. *)
Fixpoint grep (fuel : nat) (pattern m : list Z) (fd : S) : option (list Z) :=
  match fuel with
  | O => None
  | Datatypes.S fuel' =>
      let '(d, fd') := read fd (BUFSIZE - length m - 1) in
      match d with
      | [] => Some []
      | _ =>
          let p := m ++ d in
          let '(out, rest) := grep_lines (length p) pattern p in
          let m' := if (length rest =? length p)%nat then [] else rest in
          o ← grep fuel' pattern m' fd';
          Some (out ++ o)
      end
  end.
End grep.

(** A file that is read from its beginning; a pipe whose reads return what was
    written piece by piece. *)
Definition read_file (f : list Z) (n : nat) : list Z * list Z := (take n f, drop n f).
Definition read_pieces (f : list (list Z)) (n : nat) : list Z * list (list Z) :=
  match f with
  | [] => ([], [])
  | d :: f' => (take n d, if decide (drop n d = []) then f' else drop n d :: f')
  end.

(** ** What a pattern means *)

(** A character or the period, possibly repeated. *)
Inductive item := One (c : Z) | Many (c : Z).
Definition fits (c x : Z) : Prop := c = PERIOD ∨ c = x.

(** The strings of a sequence of items. *)
Inductive lang : list item → list Z → Prop :=
| lang_nil : lang [] []
| lang_one c x re u : fits c x → lang re u → lang (One c :: re) (x :: u)
| lang_many c u re v : Forall (fits c) u → lang re v → lang (Many c :: re) (u ++ v).

(** The items of a pattern without its caret, and whether a dollar ends it. *)
Fixpoint items (re : list Z) : list item * bool :=
  match re with
  | [] => ([], false)
  | c :: re1 =>
      match re1 with
      | c1 :: re2 => if c1 =? STAR then let '(l, e) := items re2 in (Many c :: l, e) else let '(l, e) := items re1 in (One c :: l, e)
      | [] => if c =? DOLLAR then ([], true) else ([One c], false)
      end
  end.

(** A string of the pattern stands at the beginning of the text. *)
Definition begins (p : list item * bool) (text : list Z) : Prop :=
  ∃ u v, text = u ++ v ∧ lang p.1 u ∧ (p.2 = true → v = []).
Definition here (re text : list Z) : Prop := begins (items re) text.
Definition matches (re text : list Z) : Prop :=
  match re with
  | c :: re1 => if c =? CARET then here re1 text else ∃ u v, text = u ++ v ∧ here re v
  | [] => ∃ u v, text = u ++ v ∧ here re v
  end.

(** ** The matcher is correct *)

Lemma fits_test c x : (x =? c) || (c =? PERIOD) = true ↔ fits c x.
Proof. unfold fits. rewrite orb_true_iff, !Z.eqb_eq. naive_solver. Qed.
Lemma fits_test' c x : (c =? PERIOD) || (c =? x) = true ↔ fits c x.
Proof. unfold fits. rewrite orb_true_iff, !Z.eqb_eq. naive_solver. Qed.

Lemma matchstar_spec c (f : list Z → bool) text :
  matchstar c f text = true ↔ ∃ u v, text = u ++ v ∧ Forall (fits c) u ∧ f v = true.
Proof.
  induction text as [|x text IH]; cbn [matchstar].
  - destruct (f []) eqn:E; split; try done; [intros _; by exists [], []|]. intros (u & v & Hn & _ & Hf). destruct u, v; try done. congruence.
  - destruct (f (x :: text)) eqn:E; [split; [intros _; by exists [], (x :: text)|done]|].
    destruct ((x =? c) || (c =? PERIOD)) eqn:Ef; [rewrite IH|]; split.
    + intros (u & v & -> & Hu & Hf). exists (x :: u), v. split; [done|]. split; [|done]. constructor; [by apply fits_test|done].
    + intros (u & v & Hn & Hu & Hf). destruct u as [|y u]; [simpl in Hn; subst v; congruence|]. injection Hn as -> ->.
      inversion_clear Hu. by exists u, v.
    + done.
    + intros (u & v & Hn & Hu & Hf). destruct u as [|y u]; [simpl in Hn; subst v; congruence|]. injection Hn as -> ->.
      inversion_clear Hu as [|? ? Hy _]. apply fits_test in Hy. congruence.
Qed.

Lemma begins_nil text : begins ([], false) text.
Proof. exists [], text. split; [done|]. split; [constructor|done]. Qed.
Lemma begins_end text : begins ([], true) text ↔ text = [].
Proof.
  split.
  - intros (u & v & -> & Hu & Hv). inversion Hu; subst. by rewrite (Hv eq_refl).
  - intros ->. exists [], []. split; [done|]. split; [constructor|done].
Qed.
Lemma begins_one c l e text : begins (One c :: l, e) text ↔ ∃ x t, text = x :: t ∧ fits c x ∧ begins (l, e) t.
Proof.
  split.
  - intros (u & v & -> & Hu & Hv). inversion Hu; subst. eexists _, _. split; [done|]. split; [done|]. by eexists _, v.
  - intros (x & t & -> & Hf & (u & v & -> & Hu & Hv)). exists (x :: u), v. split; [done|]. split; [by constructor|done].
Qed.
Lemma begins_many c l e text : begins (Many c :: l, e) text ↔ ∃ u v, text = u ++ v ∧ Forall (fits c) u ∧ begins (l, e) v.
Proof.
  split.
  - intros (u & v & -> & Hu & Hv). inversion Hu; subst. eexists _, _. rewrite <- app_assoc. split; [done|]. split; [done|]. by eexists _, v.
  - intros (u & t & -> & Hf & (w & v & -> & Hw & Hv)). exists (u ++ w), v. rewrite app_assoc. split; [done|]. split; [by constructor|done].
Qed.

(** One character that is not followed by a star. *)
Lemma one_spec c re1 l e text : items re1 = (l, e) → (∀ t, matchhere re1 t = true ↔ begins (l, e) t) →
  match text with x :: text' => if (c =? PERIOD) || (c =? x) then matchhere re1 text' else false | [] => false end = true ↔ begins (One c :: l, e) text.
Proof.
  intros Hi IH. rewrite begins_one. destruct text as [|x text]; [split; [done|by intros (? & ? & ? & _)]|].
  destruct ((c =? PERIOD) || (c =? x)) eqn:Ef.
  - rewrite IH. split; [intros Hb; exists x, text; split; [done|]; split; [by apply fits_test'|done]|]. by intros (? & ? & [= <- <-] & _ & ?).
  - split; [done|]. intros (y & t & [= <- <-] & Hf%fits_test' & _). congruence.
Qed.

Lemma matchhere_two c c1 re text : matchhere (c :: c1 :: re) text =
  if c1 =? STAR then matchstar c (matchhere re) text else
  match text with x :: text' => if (c =? PERIOD) || (c =? x) then matchhere (c1 :: re) text' else false | [] => false end.
Proof. reflexivity. Qed.
Lemma items_two c c1 re : items (c :: c1 :: re) =
  if c1 =? STAR then let '(l, e) := items re in (Many c :: l, e) else let '(l, e) := items (c1 :: re) in (One c :: l, e).
Proof. reflexivity. Qed.

Lemma matchhere_spec n : ∀ re text, (length re ≤ n)%nat → matchhere re text = true ↔ here re text.
Proof.
  unfold here. induction n as [|n IH]; intros re text Hn; (destruct re as [|c re1]; [split; [intros _; apply begins_nil|done]|]); simpl in Hn; [lia|].
  destruct re1 as [|c1 re2]; [cbn [matchhere items]|rewrite matchhere_two, items_two].
  - destruct (c =? DOLLAR); [rewrite begins_end; apply bool_decide_eq_true|].
    apply (one_spec c [] [] false text); [done|]. intros t. split; [intros _; apply begins_nil|done].
  - destruct (c1 =? STAR).
    + destruct (items re2) as [l e] eqn:Ei. rewrite begins_many, matchstar_spec. simpl in Hn.
      split; intros (u & v & -> & Hu & Hv); exists u, v; (split; [done|]); (split; [done|]); (rewrite <- Ei || rewrite <- Ei in Hv); apply (IH re2); [lia|done|lia|done].
    + destruct (items (c1 :: re2)) as [l e] eqn:Ei.
      apply (one_spec c (c1 :: re2) l e text Ei). intros t. rewrite <- Ei. apply IH. simpl in *. lia.
Qed.

Lemma match_loop_spec re text : match_loop re text = true ↔ ∃ u v, text = u ++ v ∧ here re v.
Proof.
  induction text as [|x text IH]; cbn [match_loop].
  - destruct (matchhere re []) eqn:E; split; try done.
    + intros _. exists [], []. split; [done|]. by apply (matchhere_spec (length re)).
    + intros (u & v & Hn & Hh). destruct u, v; try done. apply (matchhere_spec (length re)) in Hh; [congruence|done].
  - destruct (matchhere re (x :: text)) eqn:E.
    + split; [intros _; exists [], (x :: text)|done]. split; [done|]. by apply (matchhere_spec (length re)).
    + rewrite IH. split; intros (u & v & Hn & Hh).
      * exists (x :: u), v. split; [by rewrite Hn|done].
      * destruct u as [|y u]; [simpl in Hn; subst v; apply (matchhere_spec (length re)) in Hh; [congruence|done]|]. injection Hn as -> ->. by exists u, v.
Qed.

Lemma match_spec re text : match_ re text = true ↔ matches re text.
Proof.
  unfold match_, matches. destruct re as [|c re]; [apply match_loop_spec|]. destruct (c =? CARET); [by apply (matchhere_spec (length re))|apply match_loop_spec].
Qed.

(** ** The loop is correct *)

(** A line without its newline; a text. *)
Definition plain (l : list Z) : Prop := Forall (λ x, x ≠ 0 ∧ x ≠ NEWLINE) l.
Definition text_of (ls : list (list Z)) : list Z := ls ≫= λ l, l ++ [NEWLINE].
Definition selected (pattern : list Z) (ls : list (list Z)) : list Z := ls ≫= λ l, if match_ pattern l then l ++ [NEWLINE] else [].

Lemma text_cons l ls : text_of (l :: ls) = l ++ NEWLINE :: text_of ls.
Proof. unfold text_of. cbn. by rewrite <- app_assoc. Qed.

Lemma split_line_plain l : plain l → split_line l = None.
Proof.
  induction 1 as [|x l [H0 H1] _ IH]; [done|]. cbn [split_line]. rewrite (proj2 (Z.eqb_neq x 0)), (proj2 (Z.eqb_neq x NEWLINE)), IH by done. done.
Qed.
Lemma split_line_line l q : plain l → split_line (l ++ NEWLINE :: q) = Some (l, q).
Proof.
  induction 1 as [|x l [H0 H1] _ IH]; [done|]. cbn [split_line app]. rewrite (proj2 (Z.eqb_neq x 0)), (proj2 (Z.eqb_neq x NEWLINE)), IH by done. done.
Qed.

Lemma grep_lines_spec pattern ls t fuel :
  Forall plain ls → plain t → (length ls ≤ fuel)%nat → grep_lines fuel pattern (text_of ls ++ t) = (selected pattern ls, t).
Proof.
  intros Hls Ht. revert fuel. induction Hls as [|l ls Hl Hls IH]; intros fuel Hf.
  - change (text_of [] ++ t) with t. destruct fuel as [|fuel]; [done|]. cbn [grep_lines]. by rewrite split_line_plain.
  - destruct fuel as [|fuel]; simpl in Hf; [lia|]. cbn [grep_lines]. rewrite text_cons, <- app_assoc. cbn [app].
    rewrite split_line_line by done. by rewrite IH by lia.
Qed.

(** The part of a text in the buffer: some lines and the beginning of one. *)
Lemma cut_text ls t : Forall plain ls → plain t → ∀ n, ∃ ls1 ls2 t1,
  ls = ls1 ++ ls2 ∧ take n (text_of ls ++ t) = text_of ls1 ++ t1 ∧ plain t1 ∧ t1 ++ drop n (text_of ls ++ t) = text_of ls2 ++ t ∧
  match ls with l :: _ => (length l < n)%nat → ls1 ≠ [] | [] => True end.
Proof.
  intros Hls Ht. induction Hls as [|l ls Hl Hls IH]; intros n.
  - exists [], [], (take n t). split_and!; try done; [by apply Forall_take|]. apply take_drop.
  - rewrite text_cons, <- app_assoc. cbn [app]. destruct (decide (length l < n)%nat) as [Hlt|Hge].
    + destruct (IH (n - length l - 1)%nat) as (ls1 & ls2 & t1 & -> & E1 & H1 & E2 & _). exists (l :: ls1), ls2, t1.
      replace n with (length l + S (n - length l - 1))%nat by lia. rewrite take_app_add, drop_app_add. cbn [take drop].
      replace (length l + S (n - length l - 1) - length l - 1)%nat with (n - length l - 1)%nat by lia.
      rewrite E1, text_cons, <- app_assoc. split_and!; done.
    + exists [], (l :: ls), (take n l). rewrite take_app_le, drop_app_le by lia. split_and!; try done; [by apply Forall_take|].
      rewrite text_cons, <- app_assoc, app_assoc, take_drop. done.
Qed.

Lemma text_length ls : (length ls ≤ length (text_of ls))%nat.
Proof. induction ls as [|l ls IH]; [done|]. rewrite text_cons, length_app. simpl. lia. Qed.
Lemma text_plain ls t : plain (text_of ls ++ t) → ls = [].
Proof.
  destruct ls as [|l ls]; [done|]. rewrite text_cons, <- app_assoc. intros [_ H]%Forall_app. by inversion H as [|? ? [_ Hn] _].
Qed.

Lemma grep_file_run pattern fuel : ∀ ls t m f,
  Forall plain ls → Forall (λ l, length l < 1023)%nat ls → plain t → m ++ f = text_of ls ++ t → plain m → (length m < 1023)%nat →
  (length f < fuel)%nat → grep read_file fuel pattern m f = Some (selected pattern ls).
Proof.
  induction fuel as [|fuel IH]; intros ls t m f Hls Hlen Ht E Hm Hml Hf; [lia|]. cbn [grep]. unfold read_file at 1. unfold BUFSIZE.
  assert (m ++ take (1024 - length m - 1) f = take 1023 (text_of ls ++ t)) as Ep.
  { rewrite <- E, take_app. rewrite (take_ge m) by lia. do 2 f_equal. lia. }
  assert (drop (1024 - length m - 1) f = drop 1023 (text_of ls ++ t)) as Ed.
  { rewrite <- E, drop_app. rewrite (drop_ge m) by lia. simpl. f_equal. lia. }
  destruct (take (1024 - length m - 1) f) as [|x d] eqn:Et.
  { assert (f = []) as ->. { destruct f; [done|]. destruct (1024 - length m - 1)%nat eqn:En; [lia|done]. }
    rewrite app_nil_r in E. subst m. by rewrite (text_plain _ _ Hm). }
  rewrite <- Et in *. rewrite Ep. destruct (cut_text ls t Hls Ht 1023) as (ls1 & ls2 & t1 & -> & E1 & H1 & E2 & Hfit). rewrite E1.
  apply Forall_app in Hls as [Hls1 Hls2]. apply Forall_app in Hlen as [Hlen1 Hlen2].
  assert (length (drop (1024 - length m - 1) f) < fuel)%nat as Hfu.
  { rewrite length_drop. assert (0 < length (take (1024 - length m - 1) f))%nat by (rewrite Et; simpl; lia). rewrite length_take in *. lia. }
  rewrite grep_lines_spec; [|done|done|rewrite length_app; pose proof (text_length ls1); lia].
  assert (length (take 1023 (text_of (ls1 ++ ls2) ++ t)) ≤ 1023)%nat as Hp by (rewrite length_take; lia). rewrite E1, length_app in Hp.
  destruct ls1 as [|l1 ls1].
  - cbn [text_of mbind list_bind app length]. rewrite Nat.eqb_refl. destruct ls2 as [|l2 ls2]; [|by inversion_clear Hlen2 as [|? ? Hl _]; destruct Hfit].
    assert (plain (drop (1024 - length m - 1) f)) as Hpl by (rewrite Ed; by apply Forall_drop).
    by rewrite (IH [] (drop (1024 - length m - 1) f) [] (drop (1024 - length m - 1) f)) by first [done | by apply Forall_nil | simpl; lia].
  - pose proof (text_length (l1 :: ls1)) as Hne. cbn [length] in Hne. rewrite length_app, (proj2 (Nat.eqb_neq _ _)) by lia.
    rewrite (IH ls2 t t1 _ Hls2 Hlen2 Ht); [|by rewrite Ed|done|lia|done]. cbn [mbind option_bind]. unfold selected. by rewrite bind_app.
Qed.

(** ** Main theorems *)

(** C28. The matcher is correct: [match] accepts exactly the texts in which a
    string of the pattern's language occurs, at the beginning if the pattern
    starts with a caret and at the end if it ends with a dollar. *)
Theorem match_correct re text : match_ re text = true ↔ matches re text.
Proof. apply match_spec. Qed.

(** Grep prints the matching lines: for a file whose lines fit the buffer,
    whatever the reads split, the output is exactly the lines that match, in
    order; what follows the last newline is ignored. *)
Theorem grep_prints pattern ls t :
  Forall plain ls → Forall (λ l, length l < 1023)%nat ls → plain t →
  ∃ fuel out, grep read_file fuel pattern [] (text_of ls ++ t) = Some out ∧
    out = ls ≫= λ l, if match_ pattern l then l ++ [NEWLINE] else [].
Proof.
  intros Hls Hlen Ht. exists (S (length (text_of ls ++ t))), (selected pattern ls). split; [|done].
  apply (grep_file_run pattern _ ls t); try done; [by apply Forall_nil|simpl; lia|lia].
Qed.

Lemma grep_prints_witness : ∃ fuel out, grep read_file fuel [98; 42; 36] [] [97; 98; 10; 99; 10; 98] = Some out ∧
  out = [[97; 98]; [99]] ≫= λ l, if match_ [98; 42; 36] l then l ++ [NEWLINE] else [].
Proof.
  refine (grep_prints [98; 42; 36] [[97; 98]; [99]] [98] _ _ _); repeat constructor; done || (simpl; lia).
Defined.

(** Grep on a pipe loses text: when a read returns the beginning of a line,
    without a newline, it is dropped, and the rest of the line is taken for a
    line of its own.  The line "hello" written in two pieces is not found by
    the pattern "hello", and is found by the pattern "^lo". *)
Theorem grep_drops_partial :
  grep read_pieces 10 [104; 101; 108; 108; 111] [] [[104; 101; 108]; [108; 111; 10]] = Some [] ∧
  grep read_pieces 10 [94; 108; 111] [] [[104; 101; 108]; [108; 111; 10]] = Some [108; 111; 10] ∧
  grep read_pieces 10 [104; 101; 108; 108; 111] [] [[104; 101; 108; 108; 111; 10]] = Some [104; 101; 108; 108; 111; 10].
Proof. split_and!; reflexivity. Qed.
