(* ===== verification/Umalloc.v ===== *)
(** * The user library's allocator (umalloc.c)

    The memory is seen in units of a header: the two words at an address.  The
    blocks of the heap tile the memory between its beginning and the program
    break; the free ones are linked, by address, in a ring that starts at the
    static variable [base]. *)

From stdpp Require Import sorting.
From S2P Require Import Prelude Layout CString Mem.

Set Default Proof Using "Type".

Definition HSIZE : Z := 8.

(** [ptr] and [size] of the header at an address; [freep]; the program break. *)
Record heap := mk_heap { h_ptr : Z → Z; h_size : Z → Z; h_freep : Z; h_brk : Z }.
Definition h_set_freep p s := mk_heap (h_ptr s) (h_size s) p (h_brk s).
Definition h_set_brk b s := mk_heap (h_ptr s) (h_size s) (h_freep s) b.

Definition get_ptr (p : Z) : M heap Z := gets (λ s, h_ptr s p).
Definition get_size (p : Z) : M heap Z := gets (λ s, h_size s p).
Definition set_ptr (p v : Z) : M heap unit := modify (λ s, mk_heap (<[p := v]> (h_ptr s)) (h_size s) (h_freep s) (h_brk s)).
Definition set_size (p v : Z) : M heap unit := modify (λ s, mk_heap (h_ptr s) (<[p := v]> (h_size s)) (h_freep s) (h_brk s)).
Definition set_freep (p : Z) : M heap unit := modify (h_set_freep p).
(** [p + n] on header pointers *)
Definition padd (p n : Z) : Z := u32 (p + HSIZE * n).

Section umalloc.
(** The address of [base]; whether the kernel has the memory for a break. *)
Context (base : Z) (granted : Z → bool).

(** The loop of [free] that looks for the place of [bp]. *)
Fixpoint free_loop (fuel : nat) (bp p : Z) : M heap Z :=
  match fuel with
  | O => undef "free: fuel"
  | S fuel' =>
      q ← get_ptr p;
      if (p <? bp) && (bp <? q) then mret p else
      if (q <=? p) && ((p <? bp) || (bp <? q)) then mret p else
      free_loop fuel' bp q
  end.

(** The two joins of [free]: with the block after, and with the one before. *)
Definition free_up (bp n q : Z) : M heap unit :=
  if padd bp n =? q then
    m ← get_size q;
    set_size bp (u32 (n + m)) ;;
    r ← get_ptr q;
    set_ptr bp r
  else set_ptr bp q.
Definition free_down (bp p : Z) : M heap unit :=
  k ← get_size p;
  if padd p k =? bp then
    n ← get_size bp;
    set_size p (u32 (k + n)) ;;
    r ← get_ptr bp;
    set_ptr p r
  else set_ptr p bp.

Definition free (fuel : nat) (ap : Z) : M heap unit :=
  let bp := u32 (ap - HSIZE) in
  s ← get;
  p ← free_loop fuel bp (h_freep s);
  n ← get_size bp;
  q ← get_ptr p;
  free_up bp n q ;;
  free_down bp p ;;
  set_freep p.

(** [sbrk]: [growproc] on the argument as a signed integer, as the break sees
    it; [None] is the result -1. *)
Definition sbrk (n : Z) : M heap (option Z) :=
  s ← get;
  let b := h_brk s in
  let b' := u32 (b + n) in
  if 0 <? s32 n then
    if KERNBASE <=? b' then mret None else
    if b' <? b then mret (Some b) else
    if granted b' then modify (h_set_brk b') ;; mret (Some b) else mret None
  else if s32 n <? 0 then
    if b <=? b' then mret (Some b) else
    if b' =? 0 then mret None else modify (h_set_brk b') ;; mret (Some b)
  else mret (Some b).

Definition morecore (fuel : nat) (nu : Z) : M heap Z :=
  let nu := if nu <? 4096 then 4096 else nu in
  o ← sbrk (u32 (nu * HSIZE));
  match o with
  | None => mret 0
  | Some hp =>
      set_size hp nu ;;
      free fuel (padd hp 1) ;;
      s ← get;
      mret (h_freep s)
  end.

(** A block [p] of [n] units is big enough: it, or its tail, is taken. *)
Definition malloc_take (nunits prevp p n : Z) : M heap Z :=
  p ← (if n =? nunits then q ← get_ptr p; set_ptr prevp q ;; mret p
       else set_size p (n - nunits) ;; let p := padd p (n - nunits) in set_size p nunits ;; mret p);
  set_freep prevp ;;
  mret (padd p 1).

Fixpoint malloc_loop (fuel : nat) (nunits prevp p : Z) : M heap Z :=
  match fuel with
  | O => undef "malloc: fuel"
  | S fuel' =>
      n ← get_size p;
      if nunits <=? n then malloc_take nunits prevp p n
      else
        s ← get;
        o ← (if p =? h_freep s then m ← morecore fuel nunits; mret (if m =? 0 then None else Some m) else mret (Some p));
        match o with
        | None => mret 0
        | Some p => q ← get_ptr p; malloc_loop fuel' nunits p q
        end
  end.
Definition nunits (nbytes : Z) : Z := u32 (nbytes + HSIZE - 1) / HSIZE + 1.
Definition malloc (fuel : nat) (nbytes : Z) : M heap Z :=
  s ← get;
  (if h_freep s =? 0 then set_ptr base base ;; set_freep base ;; set_size base 0 else mret tt) ;;
  s ← get;
  let prevp := h_freep s in
  p ← get_ptr prevp;
  malloc_loop fuel (nunits nbytes) prevp p.

End umalloc.

(** ** The heap, abstractly *)

(** The blocks from an address on, without gaps: whether a block is free, and
    its size in units. *)
Fixpoint tiled (s : heap) (a : Z) (bl : list (bool * Z)) (e : Z) : Prop :=
  match bl with
  | [] => a = e
  | (_, n) :: bl' => 1 ≤ n ∧ h_size s a = n ∧ tiled s (a + HSIZE * n) bl' e
  end.
Definition units (bl : list (bool * Z)) : Z := foldr (λ b t, b.2 + t) 0 bl.
Fixpoint frees (a : Z) (bl : list (bool * Z)) : list Z :=
  match bl with
  | [] => []
  | (f, n) :: bl' => if (f : bool) then a :: frees (a + HSIZE * n) bl' else frees (a + HSIZE * n) bl'
  end.
(** No two free blocks touch. *)
Fixpoint coalesced (bl : list (bool * Z)) : Prop :=
  match bl with
  | (true, _) :: ((true, _) :: _) => False
  | _ :: bl' => coalesced bl'
  | [] => True
  end.
(** The pointers from [p] through [l] to [e]. *)
Fixpoint linked (s : heap) (p : Z) (l : list Z) (e : Z) : Prop :=
  match l with
  | [] => h_ptr s p = e
  | q :: l' => h_ptr s p = q ∧ linked s q l' e
  end.

Record heap_ok (base lo : Z) (s : heap) (bl : list (bool * Z)) : Prop := mk_heap_ok {
  ho_base : 0 < base ∧ base + HSIZE ≤ lo;
  ho_brk : h_brk s ≤ KERNBASE;
  ho_tiled : tiled s lo bl (h_brk s);
  ho_coalesced : coalesced bl;
  ho_size : h_size s base = 0;
  ho_ring : linked s base (frees lo bl) base;
  ho_freep : h_freep s ∈ base :: frees lo bl;
}.

(** [lia] with the size of a header. *)
Ltac hlia := unfold HSIZE in *; lia.

(** ** Tilings *)

Lemma units_app bl1 bl2 : units (bl1 ++ bl2) = units bl1 + units bl2.
Proof. induction bl1 as [|[f n] bl1 IH]; simpl; [done|]. rewrite IH. lia. Qed.

Lemma tiled_app s a bl1 bl2 e :
  tiled s a (bl1 ++ bl2) e ↔ tiled s a bl1 (a + HSIZE * units bl1) ∧ tiled s (a + HSIZE * units bl1) bl2 e.
Proof.
  revert a. induction bl1 as [|[f n] bl1 IH]; intros a; simpl.
  - replace (a + HSIZE * 0) with a by lia. naive_solver.
  - rewrite IH. replace (a + HSIZE * n + HSIZE * units bl1) with (a + HSIZE * (n + units bl1)) by lia. naive_solver.
Qed.
Lemma frees_app a bl1 bl2 : frees a (bl1 ++ bl2) = frees a bl1 ++ frees (a + HSIZE * units bl1) bl2.
Proof.
  revert a. induction bl1 as [|[[] n] bl1 IH]; intros a; simpl.
  - f_equal. lia.
  - rewrite IH. do 3 f_equal. lia.
  - rewrite IH. do 2 f_equal. lia.
Qed.
Lemma tiled_end s a bl e : tiled s a bl e → e = a + HSIZE * units bl ∧ 0 ≤ units bl.
Proof. revert a. induction bl as [|[f n] bl IH]; intros a; simpl; [lia|]. intros (? & _ & [-> ?]%IH). unfold HSIZE in *. lia. Qed.
Lemma tiled_frame s s' a bl e : (∀ x, a ≤ x < e → h_size s' x = h_size s x) → tiled s a bl e → tiled s' a bl e.
Proof.
  revert a. induction bl as [|[f n] bl IH]; intros a Hf; simpl; [done|]. intros (Hn & Hs & Ht). destruct (tiled_end _ _ _ _ Ht) as [-> Hu].
  unfold HSIZE in *. split; [done|]. split; [rewrite Hf; [done|lia]|]. apply IH; [|done]. intros x Hx. apply Hf. lia.
Qed.

Lemma frees_range s a bl e x : tiled s a bl e → x ∈ frees a bl → a ≤ x ∧ x + HSIZE ≤ e.
Proof.
  revert a. induction bl as [|[f n] bl IH]; intros a; simpl; [set_solver|]. intros (Hn & _ & Ht). pose proof (tiled_end _ _ _ _ Ht). specialize (IH _ Ht).
  unfold HSIZE in *. destruct f; [|intros ?%IH; lia]. rewrite elem_of_cons. intros [->|?%IH]; lia.
Qed.
Lemma frees_size s a bl e x : tiled s a bl e → x ∈ frees a bl → 1 ≤ h_size s x.
Proof.
  revert a. induction bl as [|[[] n] bl IH]; intros a; simpl; [set_solver| |]; intros (Hn & Hs & Ht).
  - rewrite elem_of_cons. intros [->|Hin]; [lia|by eapply IH].
  - intros Hin. by eapply IH.
Qed.
Lemma frees_length a bl : (length (frees a bl) ≤ length bl)%nat.
Proof. revert a. induction bl as [|[[] m] l IH]; intros a; simpl; [lia|specialize (IH (a + HSIZE * m)); lia..]. Qed.
Lemma frees_above s a bl e : tiled s a bl e → Forall (λ x, a ≤ x) (frees a bl).
Proof. intros Ht. apply Forall_forall. intros x Hx. by apply (frees_range s a bl e). Qed.
Lemma frees_sorted s a bl e : tiled s a bl e → StronglySorted Z.lt (frees a bl).
Proof.
  revert a. induction bl as [|[f n] bl IH]; intros a; simpl; [constructor|]. intros (Hn & _ & Ht). destruct f; [|by apply IH].
  constructor; [by apply IH|]. eapply Forall_impl; [by eapply frees_above|]. simpl. unfold HSIZE. lia.
Qed.

(** *** Chains *)

Lemma linked_app s p l1 q l2 e : linked s p (l1 ++ q :: l2) e ↔ linked s p l1 q ∧ linked s q l2 e.
Proof. revert p. induction l1 as [|x l1 IH]; intros p; simpl; [done|]. rewrite IH. naive_solver. Qed.
Lemma linked_frame s s' p l e : (∀ x, x ∈ p :: l → h_ptr s' x = h_ptr s x) → linked s p l e → linked s' p l e.
Proof.
  revert p. induction l as [|q l IH]; intros p Hf; simpl; [by rewrite Hf by set_solver|]. intros [<- Hl].
  split; [apply Hf; set_solver|]. apply IH; [|done]. intros x Hx. apply Hf. set_solver.
Qed.
(** A chain up to its last element, and that element. *)
Fixpoint final (p : Z) (l : list Z) : Z := match l with [] => p | q :: l' => final q l' end.
Lemma final_app p l x l' : final p (l ++ x :: l') = final x l'.
Proof. revert p. induction l as [|q l IH]; intros p; [done|]. apply IH. Qed.
Lemma linked_final s p l e : linked s p l e → h_ptr s (final p l) = e.
Proof. revert p. induction l as [|q l IH]; intros p; simpl; [done|]. intros [_ Hl]. by apply IH. Qed.
Lemma final_elem p l : final p l ∈ p :: l.
Proof. revert p. induction l as [|q l IH]; intros p; [set_solver|]. specialize (IH q). simpl. set_solver. Qed.
(** The last pointer of a chain is changed. *)
Lemma linked_set s s' p l e e' :
  NoDup (p :: l) → (∀ x, x ∈ p :: l → x ≠ final p l → h_ptr s' x = h_ptr s x) → h_ptr s' (final p l) = e' → linked s p l e → linked s' p l e'.
Proof.
  revert p. induction l as [|q l IH]; intros p Hnd Hf He; simpl; [done|]. intros [Hq Hl]. simpl in Hf, He.
  apply NoDup_cons in Hnd as [Hni Hnd]. split.
  - rewrite Hf; [done|set_solver|]. intros ->. apply Hni. apply final_elem.
  - apply IH; try done. intros x Hx Hne. apply Hf; [set_solver|done].
Qed.

(** ** The place of a block *)

(** From an element below it. *)
Lemma free_loop_below bp pid s : ∀ l p e fuel,
  linked s p l e → StronglySorted Z.lt (p :: l) → Forall (λ x, x < bp) (p :: l) → bp < e ∨ e ≤ p → (length l < fuel)%nat →
  free_loop fuel bp p pid s = Ret (final p l) s.
Proof.
  induction l as [|q l IH]; intros p e fuel Hl Hs Hb He Hf; (destruct fuel as [|fuel]; simpl in Hf; [lia|]); cbn [free_loop]; simpl in Hl.
  - unfold get_ptr. munfold. rewrite Hl. inversion_clear Hb as [|? ? Hp _]. rewrite (proj2 (Z.ltb_lt p bp)) by done. simpl.
    destruct (bp <? e) eqn:E; [done|]. destruct He as [|He]; [lia|]. rewrite (proj2 (Z.leb_le e p)) by done. done.
  - destruct Hl as [Hq Hl]. unfold get_ptr. munfold. rewrite Hq. inversion_clear Hb as [|? ? Hp Hb'].
    assert (q < bp) as Hqb by (by inversion Hb'). inversion_clear Hs as [|? ? Hs' Hlt]. assert (p < q) as Hpq by (by inversion Hlt).
    rewrite (proj2 (Z.ltb_ge bp q)), andb_false_r by lia. rewrite (proj2 (Z.leb_gt q p)) by lia. simpl.
    rewrite (IH q e fuel); try done; lia.
Qed.

(** From an element above it, the loop comes to the end of the chain. *)
Lemma free_loop_above bp pid s base : ∀ l p fuel,
  linked s p l base → StronglySorted Z.lt (p :: l) → Forall (λ x, bp < x) (p :: l) → base < bp →
  free_loop (S (length l) + fuel) bp p pid s = free_loop fuel bp base pid s.
Proof.
  induction l as [|q l IH]; intros p fuel Hl Hs Hb Hbb; cbn [length Nat.add free_loop]; simpl in Hl; inversion_clear Hb as [|? ? Hp Hb'];
    unfold get_ptr; munfold.
  - rewrite Hl. rewrite (proj2 (Z.ltb_ge p bp)), (proj2 (Z.ltb_ge bp base)) by lia. cbn [andb orb]. by rewrite andb_false_r.
  - destruct Hl as [Hq Hl]. rewrite Hq. inversion_clear Hs as [|? ? Hs' Hlt]. assert (p < q) as Hpq by (by inversion Hlt).
    rewrite (proj2 (Z.ltb_ge p bp)) by lia. rewrite (proj2 (Z.leb_gt q p)) by lia. simpl. apply (IH q fuel); try done.
Qed.

Definition first (e : Z) (l : list Z) : Z := match l with [] => e | x :: _ => x end.
Lemma linked_prefix s p l1 l2 e : linked s p (l1 ++ l2) e → linked s p l1 (first e l2).
Proof. destruct l2 as [|x l2]; [by rewrite app_nil_r|]. by intros [? _]%linked_app. Qed.
Lemma linked_suffix s p l e a x b : linked s p l e → p :: l = a ++ x :: b → linked s x b e.
Proof.
  revert p a. induction l as [|q l IH]; intros p a Hl E.
  - destruct a as [|y a]; [by injection E as <- <-|]. injection E as _ E. by destruct a.
  - destruct a as [|y a]; [by injection E as <- <-|]. destruct Hl as [_ Hl]. injection E as _ E. by apply (IH q a).
Qed.

(** [free] looks for the free block, or [base], before the block at [bp]. *)
Lemma free_loop_run base bp l1 l2 p pid s fuel :
  linked s base (l1 ++ l2) base → StronglySorted Z.lt (base :: l1 ++ l2) →
  Forall (λ x, x < bp) (base :: l1) → Forall (λ x, bp < x) l2 → p ∈ base :: l1 ++ l2 → (length l1 + length l2 + 1 < fuel)%nat →
  free_loop fuel bp p pid s = Ret (final base l1) s.
Proof.
  intros Hl Hs Hb1 Hb2 Hp Hf. assert (base < bp) as Hbb by (by inversion Hb1). rewrite app_comm_cons in Hs, Hp.
  assert (∀ x b a f, base :: l1 = a ++ x :: b → (length l1 < f)%nat → free_loop f bp x pid s = Ret (final base l1) s) as Hbelow.
  { intros x b a f E Hf'. assert (final base l1 = final x b) as ->.
    { change (final base (base :: l1) = final x b). rewrite E. apply final_app. }
    apply StronglySorted_app_1_l in Hs. pose proof Hs as Hlt. rewrite E in Hs, Hb1.
    apply (free_loop_below bp pid s b x (first base l2)).
    - eapply linked_suffix; [by apply linked_prefix|exact E].
    - by apply StronglySorted_app_1_r in Hs.
    - by apply Forall_app in Hb1 as [_ ?].
    - destruct l2 as [|y l2]; simpl; [right|left; by inversion Hb2]. destruct a as [|z a]; injection E as <- E; [done|].
      apply StronglySorted_inv in Hlt as [_ Hlt]. rewrite E, Forall_app in Hlt. destruct Hlt as [_ Hlt]. inversion Hlt. lia.
    - assert (length (base :: l1) = length (a ++ x :: b)) as El by (by rewrite E). rewrite length_app in El. simpl in El. lia. }
  apply elem_of_app in Hp as [Hp|Hp].
  - apply list_elem_of_split in Hp as (a & b & E). apply (Hbelow p b a); [done|lia].
  - apply list_elem_of_split in Hp as (a & b & E). subst l2. rewrite length_app in Hf. simpl in Hf.
    replace fuel with (S (length b) + (fuel - S (length b)))%nat by lia. rewrite (free_loop_above bp pid s base b p).
    + apply (Hbelow base l1 []); [done|lia].
    + rewrite app_assoc in Hl. by apply linked_app in Hl as [_ ?].
    + apply StronglySorted_app_1_r in Hs. by apply StronglySorted_app_1_r in Hs.
    + by apply Forall_app in Hb2 as [_ ?].
    + done.
Qed.

(** ** [free] *)

Definition free_first (bl : list (bool * Z)) : bool := match bl with (f, _) :: _ => f | [] => false end.
Fixpoint free_last (bl : list (bool * Z)) : bool := match bl with [] => false | [(f, _)] => f | _ :: bl' => free_last bl' end.

Lemma coalesced_app bl1 bl2 :
  coalesced (bl1 ++ bl2) ↔ coalesced bl1 ∧ coalesced bl2 ∧ (free_last bl1 && free_first bl2) = false.
Proof.
  induction bl1 as [|[f n] bl1 IH]; [simpl; naive_solver|]. destruct bl1 as [|[g m] bl1].
  - destruct bl2 as [|[[] m] bl2], f; simpl; naive_solver.
  - change (coalesced ((f, n) :: (g, m) :: bl1 ++ bl2) ↔ coalesced ((f, n) :: (g, m) :: bl1) ∧ coalesced bl2 ∧ free_last ((g, m) :: bl1) && free_first bl2 = false).
    destruct f, g; cbn [coalesced]; [naive_solver|apply IH..].
Qed.

(** What an assignment does, pointwise. *)
Definition upd (s s' : heap) (a ptr size : Z) : Prop :=
  (∀ x, h_ptr s' x = if decide (x = a) then ptr else h_ptr s x) ∧
  (∀ x, h_size s' x = if decide (x = a) then size else h_size s x) ∧ h_freep s' = h_freep s ∧ h_brk s' = h_brk s.

Lemma fn_upd {A} (f : Z → A) a v x : <[a := v]> f x = if decide (x = a) then v else f x.
Proof. destruct (decide (x = a)) as [->|]; [by rewrite fn_lookup_insert|by rewrite fn_lookup_insert_ne]. Qed.
Lemma same_upd (f : Z → Z) a x : f x = if decide (x = a) then f a else f x.
Proof. by destruct (decide (x = a)) as [->|]. Qed.

Lemma padd_small p n : 0 ≤ p → 0 ≤ n → p + HSIZE * n < 2 ^ 32 → padd p n = p + HSIZE * n.
Proof. intros. apply u32_small. unfold HSIZE in *. lia. Qed.

(** The size and the rest after a join with the block after. *)
Definition join (n : Z) (bl : list (bool * Z)) : Z * list (bool * Z) :=
  match bl with (true, m) :: bl' => (n + m, bl') | _ => (n, bl) end.

Lemma first_frees s a bl e b : tiled s a bl e → free_first bl = false → b < a → first b (frees a bl) = a → False.
Proof.
  intros Ht Hf Hb. destruct bl as [|[[] n] bl]; simpl in *; [lia|done|]. destruct Ht as (Hn & _ & Ht). unfold HSIZE in *.
  destruct (frees (a + 8 * n) bl) as [|x l] eqn:E; simpl; [lia|]. pose proof (frees_range _ _ _ _ x Ht) as Hx. rewrite E in Hx. specialize (Hx ltac:(set_solver)). lia.
Qed.

Lemma free_up_run base bp n bl2 e pid s :
  0 ≤ base < bp → 1 ≤ n → e ≤ KERNBASE → tiled s (bp + HSIZE * n) bl2 e →
  (∀ q l, frees (bp + HSIZE * n) bl2 = q :: l → h_ptr s q = first base l) →
  ∃ s', free_up bp n (first base (frees (bp + HSIZE * n) bl2)) pid s = Ret tt s' ∧
    upd s s' bp (first base (frees (bp + HSIZE * (join n bl2).1) (join n bl2).2)) (if free_first bl2 then (join n bl2).1 else h_size s bp).
Proof.
  intros Hb Hn He Ht Hl. destruct (tiled_end _ _ _ _ Ht) as [-> Hu]. unfold KERNBASE, HSIZE in *.
  unfold free_up. rewrite padd_small by (unfold HSIZE; lia). unfold HSIZE. destruct (free_first bl2) eqn:Ef.
  - destruct bl2 as [|[[] m] bl2]; [done| |done]. simpl in *. destruct Ht as (Hm & Hsz & Ht). destruct (tiled_end _ _ _ _ Ht) as [_ Hu'].
    rewrite Z.eqb_refl. unfold get_size, set_size, get_ptr, set_ptr. munfold. eexists. split; [done|].
    replace (bp + 8 * (n + m)) with (bp + 8 * n + 8 * m) by lia. rewrite Hsz, (Hl _ _ eq_refl), u32_small by lia.
    split_and!; try done; intros x; simpl; apply fn_upd.
  - rewrite (proj2 (Z.eqb_neq _ _)).
    2:{ intros E. symmetry in E. eapply first_frees; [exact Ht|done| |exact E]. lia. }
    unfold set_ptr. munfold. eexists. split; [done|]. assert (join n bl2 = (n, bl2)) as -> by (by destruct bl2 as [|[[] ?] ?]).
    split_and!; try done; intros x; simpl; [apply fn_upd|apply same_upd].
Qed.

Lemma free_below s a bl e x : tiled s a bl e → free_last bl = false → x ∈ frees a bl → x + HSIZE * h_size s x < e.
Proof.
  revert a. induction bl as [|[f n] bl IH]; intros a; [simpl; set_solver|]. intros (Hn & Hs & Ht) Hf Hx. destruct bl as [|[g m] bl].
  - simpl in Hf. subst f. simpl in Hx. set_solver.
  - change (free_last ((g, m) :: bl) = false) in Hf. specialize (IH _ Ht Hf). destruct f.
    + change (x ∈ a :: frees (a + HSIZE * n) ((g, m) :: bl)) in Hx. apply elem_of_cons in Hx as [->|Hx]; [|by apply IH].
      rewrite Hs. destruct Ht as (Hm & _ & Ht). destruct (tiled_end _ _ _ _ Ht) as [-> ?]. unfold HSIZE in *. lia.
    + by apply IH.
Qed.

Lemma free_last_split bl : free_last bl = true → ∃ bl' k, bl = bl' ++ [(true, k)].
Proof.
  induction bl as [|[f n] bl IH]; [done|]. destruct bl as [|b bl]; [simpl; intros ->; by exists [], n|].
  intros (bl' & k & E)%IH. exists ((f, n) :: bl'), k. by rewrite E.
Qed.

Definition chain (s : heap) (e : Z) (l : list Z) : Prop := match l with [] => True | q :: l' => linked s q l' e end.
Lemma linked_chain s p l e : linked s p l e ↔ h_ptr s p = first e l ∧ chain s e l.
Proof. destruct l; simpl; naive_solver. Qed.
Lemma chain_frame s s' e l : (∀ x, x ∈ l → h_ptr s' x = h_ptr s x) → chain s e l → chain s' e l.
Proof. destruct l as [|q l]; [done|]. simpl. intros Hf. by apply linked_frame. Qed.
Lemma chain_app s e l1 l2 : chain s e (l1 ++ l2) → chain s e l2.
Proof. destruct l2 as [|q l2]; [done|]. destruct l1 as [|x l1]; [done|]. simpl. by intros [_ ?]%linked_app. Qed.

Lemma join_ok n bl a s e :
  tiled s (a + HSIZE * n) bl e → coalesced bl → 1 ≤ n →
  let '(n', bl') := join n bl in
  tiled s (a + HSIZE * n') bl' e ∧ coalesced bl' ∧ free_first bl' = false ∧ n ≤ n' ∧
  frees (a + HSIZE * n) bl = (if free_first bl then [a + HSIZE * n] else []) ++ frees (a + HSIZE * n') bl'.
Proof.
  intros Ht Hc Hn. destruct bl as [|[[] m] bl]; simpl; try done.
  destruct Ht as (Hm & _ & Ht). replace (a + HSIZE * (n + m)) with (a + HSIZE * n + HSIZE * m) by lia.
  assert (coalesced bl ∧ free_first bl = false) as [Hc1 Hc2].
  { pose proof (coalesced_app [(true, m)] bl) as [H _]. destruct (H Hc) as (_ & H1 & H2). done. }
  split_and!; try done. lia.
Qed.

(** A block handed to [free] joins its free neighbours. *)
Inductive gives (n : Z) (bl1 bl2 : list (bool * Z)) : list (bool * Z) → Prop :=
| gives_join bl1' k : bl1 = bl1' ++ [(true, k)] → gives n bl1 bl2 (bl1' ++ (true, k + (join n bl2).1) :: (join n bl2).2)
| gives_alone : free_last bl1 = false → gives n bl1 bl2 (bl1 ++ (true, (join n bl2).1) :: (join n bl2).2).

Lemma coalesced_true n bl : coalesced bl → free_first bl = false → coalesced ((true, n) :: bl).
Proof. destruct bl as [|[[] m] bl]; done. Qed.

Section free.
Context (base lo : Z) (s s1 : heap) (bl1 bl2 : list (bool * Z)) (n : Z).
Context (Hok : heap_ok base lo s (bl1 ++ (false, n) :: bl2)).
Notation bp := (lo + HSIZE * units bl1).
Notation n' := (join n bl2).1.
Notation bl2' := (join n bl2).2.
Notation r := (first base (frees (bp + HSIZE * n') bl2')).
Context (Hup : upd s s1 bp r n').

(** The parts of the heap before and after the block. *)
Lemma free_parts :
  tiled s lo bl1 bp ∧ 1 ≤ n ∧ h_size s bp = n ∧ tiled s (bp + HSIZE * n) bl2 (h_brk s) ∧
  coalesced bl1 ∧ coalesced bl2 ∧ linked s base (frees lo bl1) (first base (frees (bp + HSIZE * n) bl2)) ∧ chain s base (frees (bp + HSIZE * n) bl2).
Proof using Hok.
  destruct Hok as [Hb Hbrk Ht Hc Hs Hl Hf]. apply tiled_app in Ht as [Ht1 (Hn & Hsz & Ht2)].
  apply coalesced_app in Hc as (Hc1 & Hc2 & _). rewrite frees_app in Hl. simpl in Hl. split_and!; try done.
  - by apply linked_prefix.
  - apply (chain_app s base (frees lo bl1)). by apply linked_chain in Hl as [_ ?].
Qed.

Lemma free_new_tail : tiled s1 (bp + HSIZE * n') bl2' (h_brk s) ∧ chain s1 base (frees (bp + HSIZE * n') bl2') ∧ 1 ≤ n' ∧ coalesced ((true, n') :: bl2').
Proof using Hok Hup.
  destruct free_parts as (Ht1 & Hn & Hsz & Ht2 & Hc1 & Hc2 & Hl & Hch). pose proof (join_ok n bl2 bp s (h_brk s) Ht2 Hc2 Hn) as J.
  destruct (join n bl2) as [m bl3] eqn:Ej. simpl in *. destruct J as (Ht3 & Hc3 & Hf3 & Hm & Efr). destruct Hup as (Hp & Hs & _ & _).
  split_and!.
  - eapply tiled_frame; [|exact Ht3]. intros x Hx. rewrite Hs, decide_False; [done|]. unfold HSIZE in *. lia.
  - eapply chain_frame; [|rewrite Efr in Hch; by eapply chain_app]. intros x Hx. apply (frees_range _ _ _ _ _ Ht3) in Hx.
    rewrite Hp, decide_False; [done|]. unfold HSIZE in *. lia.
  - lia.
  - by apply coalesced_true.
Qed.
End free.

Lemma below_all base lo s bl e : 0 < base ∧ base + HSIZE ≤ lo → tiled s lo bl e → lo ≤ e →
  StronglySorted Z.lt (base :: frees lo bl) ∧ Forall (λ x, x < e) (base :: frees lo bl) ∧ NoDup (base :: frees lo bl).
Proof.
  intros Hb Ht Hle. assert (Forall (λ x, lo ≤ x < e) (frees lo bl)) as Hr.
  { apply Forall_forall. intros x Hx. apply (frees_range _ _ _ _ _ Ht) in Hx. unfold HSIZE in *. lia. }
  assert (StronglySorted Z.lt (base :: frees lo bl)) as Hs.
  { constructor; [by eapply frees_sorted|]. eapply Forall_impl; [exact Hr|]. simpl. unfold HSIZE in *. lia. }
  split; [done|]. split.
  - constructor; [unfold HSIZE in *; lia|]. eapply Forall_impl; [exact Hr|]. simpl. lia.
  - clear -Hs. induction Hs as [|x l Hs IH Hx]; [constructor|]. constructor; [|done]. intros Hin.
    rewrite Forall_forall in Hx. specialize (Hx x Hin). lia.
Qed.

Lemma heap_end base lo s bl : heap_ok base lo s bl → h_brk s = lo + HSIZE * units bl ∧ 0 ≤ units bl.
Proof. intros H. by eapply tiled_end, ho_tiled. Qed.

(** The join with the block before, when that one is free. *)
Lemma free_down_join base lo s s1 bl1' k bl2 n pid :
  let bl1 := bl1' ++ [(true, k)] in let bp := lo + HSIZE * units bl1 in
  let n' := (join n bl2).1 in let bl2' := (join n bl2).2 in
  heap_ok base lo s (bl1 ++ (false, n) :: bl2) → upd s s1 bp (first base (frees (bp + HSIZE * n') bl2')) n' →
  let p := final base (frees lo bl1) in
  ∃ s2, free_down bp p pid s1 = Ret tt s2 ∧ heap_ok base lo (h_set_freep p s2) (bl1' ++ (true, k + n') :: bl2') ∧ h_brk s2 = h_brk s.
Proof.
  intros bl1 bp n' bl2' Hok Hup p. destruct (free_parts _ _ _ _ _ _ Hok) as (Ht1 & Hn & Hsz & Ht2 & Hc1 & Hc2 & Hl & Hch).
  destruct (free_new_tail _ _ _ _ _ _ _ Hok Hup) as (Ht3 & Hch3 & Hn3 & Hc3). fold n' bl2' bp in Ht3, Hch3, Hn3, Hc3. fold bp in Ht1, Hsz, Ht2, Hl, Hch.
  destruct (heap_end _ _ _ _ Hok) as [Hend Hu]. pose proof (ho_brk _ _ _ _ Hok) as Hbrk. pose proof (ho_base _ _ _ _ Hok) as Hbase.
  destruct (tiled_end _ _ _ _ Ht3) as [He3 Hu3].
  unfold bl1 in Ht1, Hc1, Hl. apply tiled_app in Ht1 as [Ht1 (Hk & Hszp & _)]. destruct (tiled_end _ _ _ _ Ht1) as [_ Hu1].
  apply coalesced_app in Hc1 as (Hc1 & _ & Hlast). simpl in Hlast. rewrite andb_true_r in Hlast.
  rewrite frees_app in Hl. simpl in Hl. apply linked_app in Hl as [Hl _]. set (a := lo + HSIZE * units bl1') in *.
  assert (p = a) as Ep by (unfold p, bl1; rewrite frees_app; simpl; by rewrite final_app).
  assert (bp = a + HSIZE * k) as Ebp by (unfold bp, bl1, a; rewrite units_app; simpl; lia).
  destruct Hup as (Hp & Hs & Hfp & Hb). unfold HSIZE, KERNBASE in *.
  unfold free_down, get_size, set_size, get_ptr, set_ptr. munfold. rewrite Ep, (Hs a), decide_False, Hszp by hlia.
  rewrite padd_small by (unfold HSIZE; lia). unfold HSIZE. rewrite (proj2 (Z.eqb_eq _ _)) by hlia. simpl. eexists. split; [reflexivity|].
  rewrite (Hs bp), (Hp bp), !decide_True by done. rewrite u32_small by hlia. split; [|done]. split; simpl; try done.
  - by rewrite Hb.
  - rewrite Hb. apply tiled_app. split; [eapply tiled_frame; [|exact Ht1]; intros x Hx|].
    + simpl. rewrite fn_upd, decide_False, Hs, decide_False by hlia. done.
    + split; [lia|]. split; [simpl; by rewrite fn_upd, decide_True|].
      replace (lo + HSIZE * units bl1' + HSIZE * (k + n')) with (bp + 8 * n') by hlia. eapply tiled_frame; [|exact Ht3]. intros x Hx. simpl. by rewrite fn_upd, decide_False by hlia.
  - apply coalesced_app. split; [done|]. split; [|by rewrite Hlast]. by destruct bl2' as [|[[] ?] ?].
  - rewrite fn_upd, decide_False, Hs, decide_False by hlia. apply Hok.
  - rewrite frees_app. simpl. apply linked_app. replace (lo + HSIZE * units bl1' + HSIZE * (k + n')) with (bp + 8 * n') by hlia. split.
    + eapply linked_frame; [|exact Hl]. intros x Hx. simpl. assert (x < a).
      { apply elem_of_cons in Hx as [->|Hx]; [hlia|]. apply (frees_range _ _ _ _ _ Ht1) in Hx. hlia. }
      by rewrite fn_upd, decide_False, Hp, decide_False by hlia.
    + apply linked_chain. split; [simpl; by rewrite fn_upd, decide_True|]. eapply chain_frame; [|exact Hch3]. intros x Hx.
      apply (frees_range _ _ _ _ _ Ht3) in Hx. simpl. by rewrite fn_upd, decide_False by hlia.
  - rewrite frees_app. simpl. apply elem_of_cons. right. apply elem_of_app. right. apply elem_of_cons. by left.
Qed.

(** The block before is not free. *)
Lemma free_down_alone base lo s s1 bl1 bl2 n pid :
  let bp := lo + HSIZE * units bl1 in
  let n' := (join n bl2).1 in let bl2' := (join n bl2).2 in
  heap_ok base lo s (bl1 ++ (false, n) :: bl2) → upd s s1 bp (first base (frees (bp + HSIZE * n') bl2')) n' → free_last bl1 = false →
  let p := final base (frees lo bl1) in
  ∃ s2, free_down bp p pid s1 = Ret tt s2 ∧ heap_ok base lo (h_set_freep p s2) (bl1 ++ (true, n') :: bl2') ∧ h_brk s2 = h_brk s.
Proof.
  intros bp n' bl2' Hok Hup Hlast p. destruct (free_parts _ _ _ _ _ _ Hok) as (Ht1 & Hn & Hsz & Ht2 & Hc1 & Hc2 & Hl & Hch).
  destruct (free_new_tail _ _ _ _ _ _ _ Hok Hup) as (Ht3 & Hch3 & Hn3 & Hc3). fold n' bl2' bp in Ht3, Hch3, Hn3, Hc3. fold bp in Ht1, Hsz, Ht2, Hl, Hch.
  destruct (heap_end _ _ _ _ Hok) as [Hend Hu]. pose proof (ho_brk _ _ _ _ Hok) as Hbrk. pose proof (ho_base _ _ _ _ Hok) as Hbase.
  destruct (tiled_end _ _ _ _ Ht3) as [He3 Hu3]. destruct (tiled_end _ _ _ _ Ht1) as [_ Hu1]. assert (lo ≤ bp) as Hbp by (unfold bp; hlia).
  destruct (below_all base lo s bl1 bp Hbase Ht1 Hbp) as (Hsrt & Hblw & Hnd).
  assert (p ∈ base :: frees lo bl1) as Hpin by apply final_elem. rewrite Forall_forall in Hblw. pose proof (Hblw p Hpin) as Hpb.
  destruct Hup as (Hp & Hs & Hfp & Hb).
  assert (0 ≤ p ∧ 0 ≤ h_size s p ∧ p + HSIZE * h_size s p < bp) as (Hp0 & Hk0 & Hpk).
  { apply elem_of_cons in Hpin as [->|Hpin]; [rewrite (ho_size _ _ _ _ Hok); hlia|]. pose proof (frees_range _ _ _ _ _ Ht1 Hpin).
    pose proof (free_below _ _ _ _ _ Ht1 Hlast Hpin). pose proof (frees_size _ _ _ _ _ Ht1 Hpin). split_and!; hlia. }
  unfold free_down, get_size, set_ptr. munfold. rewrite (Hs p), decide_False by lia. unfold KERNBASE in *.
  rewrite padd_small by hlia. rewrite (proj2 (Z.eqb_neq _ _)) by lia. simpl. eexists. split; [reflexivity|]. split; [|done].
  split; simpl; try done; rewrite ?Hb; try done.
  - apply tiled_app. split; [eapply tiled_frame; [|exact Ht1]; intros x Hx; simpl; by rewrite Hs, decide_False by (fold bp in Hx; lia)|].
    fold bp. split; [done|]. split; [simpl; by rewrite Hs, decide_True|]. eapply tiled_frame; [|exact Ht3]. done.
  - apply coalesced_app. split; [done|]. split; [exact Hc3|by rewrite Hlast].
  - rewrite Hs, decide_False by hlia. apply Hok.
  - rewrite frees_app. simpl. fold bp. apply linked_app. split.
    + eapply linked_set; [exact Hnd| |simpl; by rewrite fn_upd, decide_True|exact Hl]. intros x Hx Hne. simpl. pose proof (Hblw x Hx).
      by rewrite fn_upd, decide_False, Hp, decide_False by (done || lia).
    + apply linked_chain. split; [simpl; rewrite fn_upd, decide_False, Hp, decide_True by (done || lia); done|].
      eapply chain_frame; [|exact Hch3]. intros x Hx. apply (frees_range _ _ _ _ _ Ht3) in Hx. simpl. by rewrite fn_upd, decide_False by hlia.
  - rewrite frees_app. set_solver.
Qed.

Lemma free_run base lo s bl1 n bl2 pid fuel :
  heap_ok base lo s (bl1 ++ (false, n) :: bl2) → (length (bl1 ++ (false, n) :: bl2) + 1 < fuel)%nat →
  ∃ s' bl', free fuel (lo + HSIZE * units bl1 + HSIZE) pid s = Ret tt s' ∧ gives n bl1 bl2 bl' ∧ heap_ok base lo s' bl' ∧ h_brk s' = h_brk s.
Proof.
  intros Hok Hf. destruct (free_parts _ _ _ _ _ _ Hok) as (Ht1 & Hn & Hsz & Ht2 & Hc1 & Hc2 & Hl & Hch).
  destruct (heap_end _ _ _ _ Hok) as [Hend Hu]. pose proof (ho_brk _ _ _ _ Hok) as Hbrk. pose proof (ho_base _ _ _ _ Hok) as Hbase.
  destruct (tiled_end _ _ _ _ Ht1) as [_ Hu1]. destruct (tiled_end _ _ _ _ Ht2) as [He2 Hu2]. set (bp := lo + HSIZE * units bl1) in *.
  assert (lo ≤ bp) as Hbp by (unfold bp; hlia). destruct (below_all base lo s bl1 bp Hbase Ht1 Hbp) as (Hsrt & Hblw & Hnd).
  destruct (below_all base lo s _ (h_brk s) Hbase (ho_tiled _ _ _ _ Hok) ltac:(unfold KERNBASE in *; hlia)) as (Hsrt2 & _ & _).
  unfold KERNBASE in *. unfold free. rewrite (u32_small (bp + HSIZE - HSIZE)) by hlia. replace (bp + HSIZE - HSIZE) with bp by lia.
  pose proof (ho_ring _ _ _ _ Hok) as Hring. pose proof (ho_freep _ _ _ _ Hok) as Hfp. rewrite frees_app in Hring, Hfp, Hsrt2. simpl in Hring, Hfp, Hsrt2. fold bp in Hring, Hfp, Hsrt2.
  rewrite length_app in Hf. simpl in Hf. pose proof (frees_length lo bl1). pose proof (frees_length (bp + HSIZE * n) bl2).
  rewrite (bind_Ret get _ pid s s s eq_refl).
  rewrite (bind_Ret _ _ _ _ _ _ (free_loop_run base bp (frees lo bl1) (frees (bp + HSIZE * n) bl2) (h_freep s) pid s fuel Hring Hsrt2 Hblw
    ltac:(eapply Forall_impl; [by eapply frees_above|]; simpl; hlia) Hfp ltac:(lia))).
  set (p := final base (frees lo bl1)). rewrite (bind_Ret (get_size bp) _ pid s n s) by (unfold get_size; munfold; by rewrite Hsz).
  rewrite (bind_Ret (get_ptr p) _ pid s (first base (frees (bp + HSIZE * n) bl2)) s) by (unfold get_ptr; munfold; unfold p; by rewrite (linked_final _ _ _ _ Hl)).
  destruct (free_up_run base bp n bl2 (h_brk s) pid s) as (s1 & E1 & Hup); [hlia|done|unfold KERNBASE; lia|done| |].
  { intros q l Eq. rewrite Eq in Hch. simpl in Hch. by apply linked_chain in Hch as [? _]. }
  mrun E1. assert (upd s s1 bp (first base (frees (bp + HSIZE * (join n bl2).1) (join n bl2).2)) (join n bl2).1) as Hup'.
  { destruct (free_first bl2) eqn:Ef; [exact Hup|]. rewrite Hsz in Hup. assert ((join n bl2).1 = n) as -> by (by destruct bl2 as [|[[] ?] ?]). by destruct bl2 as [|[[] ?] ?]. }
  destruct (free_last bl1) eqn:Elast.
  - destruct (free_last_split bl1 Elast) as (bl1' & k & ->).
    destruct (free_down_join base lo s s1 bl1' k bl2 n pid Hok Hup') as (s2 & E2 & Hok2 & Hb2). fold bp p in E2, Hok2.
    mrun E2. eexists _, _. split; [reflexivity|]. split; [by apply (gives_join n _ bl2 bl1' k)|]. by split.
  - destruct (free_down_alone base lo s s1 bl1 bl2 n pid Hok Hup' Elast) as (s2 & E2 & Hok2 & Hb2). fold bp p in E2, Hok2.
    mrun E2. eexists _, _. split; [reflexivity|]. split; [by apply gives_alone|]. by split.
Qed.

(** ** [malloc] *)

(** *** The ring *)

Lemma linked_ptr s p l e y : linked s p l e → y ∈ p :: l → y ≠ final p l → h_ptr s y ∈ l.
Proof.
  revert p. induction l as [|q l IH]; intros p; simpl; [set_solver|]. intros [Hq Hl] Hy Hne. apply elem_of_cons in Hy as [->|Hy]; [rewrite Hq; set_solver|].
  apply elem_of_cons. right. by apply (IH q).
Qed.

(** Only the element before it points to an element. *)
Lemma pred_unique s b l1 x l2 y :
  linked s b (l1 ++ x :: l2) b → NoDup (b :: l1 ++ x :: l2) → y ∈ b :: l1 ++ x :: l2 → h_ptr s y = x → y = final b l1.
Proof.
  intros [Hl1 Hl2]%linked_app Hnd Hy Hp. apply NoDup_cons in Hnd as [Hb Hnd]. apply NoDup_app in Hnd as (Hnd1 & Hd & Hnd2).
  apply NoDup_cons in Hnd2 as [Hx _]. rewrite app_comm_cons in Hy. apply elem_of_app in Hy as [Hy|Hy].
  - destruct (decide (y = final b l1)) as [|Hne]; [done|]. pose proof (linked_ptr _ _ _ _ _ Hl1 Hy Hne) as Hin. rewrite Hp in Hin. destruct (Hd x Hin). set_solver.
  - destruct (decide (y = final x l2)) as [->|Hne].
    + rewrite (linked_final _ _ _ _ Hl2) in Hp. subst b. destruct Hb. set_solver.
    + pose proof (linked_ptr _ _ _ _ _ Hl2 Hy Hne) as Hin. rewrite Hp in Hin. done.
Qed.

(** The ring from an element on: once around. *)
Lemma ring_from s b l f : linked s b l b → f ∈ b :: l →
  ∃ l' e, linked s f l' e ∧ final f l' = f ∧ l' ≡ₚ b :: l.
Proof.
  intros Hl Hf. apply list_elem_of_split in Hf as (a & c & E).
  assert (linked s f c b) as Hc by (by eapply linked_suffix). destruct a as [|y a].
  - injection E as <- <-. exists (l ++ [b]), (h_ptr s b). split; [by apply linked_app|]. split; [by rewrite final_app|]. by rewrite Permutation_app_comm.
  - injection E as <- ->. exists (c ++ b :: a ++ [f]), (h_ptr s f). apply linked_app in Hl as [Hla _]. split.
    + apply linked_app. split; [done|]. by apply linked_app.
    + split; [by rewrite app_comm_cons, app_assoc, final_app|]. rewrite (Permutation_app_comm c). simpl. by rewrite <- app_assoc.
Qed.

(** *** The search *)

(** Once around the ring: a block that is big enough is taken, or the kernel is
    asked for more. *)
Lemma search granted k pid s : ∀ l p e fuel,
  linked s p l e → l ≠ [] → final p l = h_freep s → NoDup l →
  (∃ l1 x l2, l = l1 ++ x :: l2 ∧ k ≤ h_size s x ∧
     malloc_loop granted (length l + fuel) k p (h_ptr s p) pid s = malloc_take k (final p l1) x (h_size s x) pid s) ∨
  (Forall (λ x, h_size s x < k) l ∧
   malloc_loop granted (length l + fuel) k p (h_ptr s p) pid s =
     (m ← morecore granted (S fuel) k; match (if m =? 0 then None else Some m) with None => mret 0 | Some p => q ← get_ptr p; malloc_loop granted fuel k p q end) pid s).
Proof.
  induction l as [|x l IH]; intros p e fuel Hl Hne Hfin Hnd; [done|]. simpl in Hl. destruct Hl as [-> Hl].
  cbn [length Nat.add malloc_loop]. rewrite (bind_Ret (get_size x) _ pid s (h_size s x) s eq_refl).
  destruct (k <=? h_size s x) eqn:E.
  - left. exists [], x, l. split; [done|]. split; [lia|done].
  - rewrite (bind_Ret get _ pid s s s eq_refl). apply NoDup_cons in Hnd as [Hx Hnd]. simpl in Hfin. destruct l as [|y l].
    + right. split; [repeat constructor; lia|]. simpl in Hfin. rewrite Hfin, Z.eqb_refl, bind_assoc. reflexivity.
    + rewrite (proj2 (Z.eqb_neq x (h_freep s))).
      2:{ rewrite <- Hfin. intros Ex. apply Hx. rewrite Ex. apply (final_elem y l). }
      cbn [mret]. rewrite (bind_Ret (mret (Some x)) _ pid s (Some x) s eq_refl), (bind_Ret (get_ptr x) _ pid s (h_ptr s x) s eq_refl).
      destruct (IH x e fuel Hl ltac:(done) Hfin Hnd) as [(l1 & z & l2 & El & Hz & Er)|[Hall Er]].
      * left. exists (x :: l1), z, l2. rewrite El. split; [done|]. split; [done|]. rewrite <- El. exact Er.
      * right. split; [constructor; [lia|done]|exact Er].
Qed.

Lemma linked_join s p l1 l2 e : linked s p l1 (first e l2) → chain s e l2 → linked s p (l1 ++ l2) e.
Proof. destruct l2 as [|x l2]; simpl; [by rewrite app_nil_r|]. intros. by apply linked_app. Qed.

(** The blocks in use: address and size. *)
Fixpoint live (a : Z) (bl : list (bool * Z)) : list (Z * Z) :=
  match bl with
  | [] => []
  | (f, n) :: bl' => if (f : bool) then live (a + HSIZE * n) bl' else (a, n) :: live (a + HSIZE * n) bl'
  end.
Lemma live_app a bl1 bl2 : live a (bl1 ++ bl2) = live a bl1 ++ live (a + HSIZE * units bl1) bl2.
Proof.
  revert a. induction bl1 as [|[[] n] bl1 IH]; intros a; simpl.
  - f_equal. lia.
  - rewrite IH. do 2 f_equal. lia.
  - rewrite IH. do 3 f_equal. lia.
Qed.

Section take.
Context (base lo : Z) (s : heap) (bl1 bl2 : list (bool * Z)) (n k : Z).
Context (Hok : heap_ok base lo s (bl1 ++ (true, n) :: bl2)).
Notation p := (lo + HSIZE * units bl1).

Lemma take_parts :
  tiled s lo bl1 p ∧ 1 ≤ n ∧ h_size s p = n ∧ tiled s (p + HSIZE * n) bl2 (h_brk s) ∧
  coalesced bl1 ∧ coalesced bl2 ∧ free_last bl1 = false ∧ linked s base (frees lo bl1) p ∧ linked s p (frees (p + HSIZE * n) bl2) base ∧ lo ≤ p.
Proof using Hok.
  destruct Hok as [Hb Hbrk Ht Hc Hs Hl Hf]. apply tiled_app in Ht as [Ht1 (Hn & Hsz & Ht2)].
  apply coalesced_app in Hc as (Hc1 & Hc2 & Hlast). simpl in Hlast. rewrite andb_true_r in Hlast. rewrite frees_app in Hl. simpl in Hl.
  apply linked_app in Hl as [Hl1 Hl2]. destruct (tiled_end _ _ _ _ Ht1). split_and!; try done; [|hlia].
  destruct bl2 as [|[[] m] bl3]; done.
Qed.

(** The whole block. *)
Lemma take_all pid : k = n → ∃ s',
  malloc_take k (final base (frees lo bl1)) p n pid s = Ret (p + HSIZE) s' ∧ heap_ok base lo s' (bl1 ++ (false, k) :: bl2) ∧ h_brk s' = h_brk s.
Proof using Hok.
  intros ->. destruct take_parts as (Ht1 & Hn & Hsz & Ht2 & Hc1 & Hc2 & Hlast & Hl1 & Hl2 & Hlo).
  pose proof (ho_base _ _ _ _ Hok) as Hbase. pose proof (ho_brk _ _ _ _ Hok) as Hbrk. destruct (tiled_end _ _ _ _ Ht2) as [He2 Hu2].
  destruct (below_all base lo s bl1 _ Hbase Ht1 Hlo) as (Hsrt & Hblw & Hnd). rewrite Forall_forall in Hblw.
  unfold malloc_take, get_ptr, set_ptr, set_freep. munfold. rewrite Z.eqb_refl. eexists. unfold KERNBASE in *.
  rewrite padd_small by hlia. rewrite Z.mul_1_r. split; [reflexivity|]. split; [|done].
  apply linked_chain in Hl2 as [Hp Hch]. split; simpl; try done.
  - apply tiled_app. split; [by eapply tiled_frame; [|exact Ht1]|]. split; [done|]. split; [done|]. by eapply tiled_frame; [|exact Ht2].
  - apply coalesced_app. by rewrite Hlast.
  - apply Hok.
  - rewrite frees_app. simpl. apply linked_join.
    + eapply linked_set; [exact Hnd| |simpl; by rewrite fn_upd, decide_True|exact Hl1]. intros x _ Hne. simpl. by rewrite fn_upd, decide_False.
    + eapply chain_frame; [|exact Hch]. intros x Hx. simpl. rewrite fn_upd, decide_False; [done|]. intros ->.
      pose proof (Hblw _ (final_elem base (frees lo bl1))). apply (frees_range _ _ _ _ _ Ht2) in Hx. hlia.
  - rewrite frees_app. pose proof (final_elem base (frees lo bl1)). set_solver.
Qed.

(** Its tail. *)
Lemma take_tail pid : 1 ≤ k < n → ∃ s',
  malloc_take k (final base (frees lo bl1)) p n pid s = Ret (p + HSIZE * (n - k) + HSIZE) s' ∧
  heap_ok base lo s' (bl1 ++ (true, n - k) :: (false, k) :: bl2) ∧ h_brk s' = h_brk s.
Proof using Hok.
  intros Hk. destruct take_parts as (Ht1 & Hn & Hsz & Ht2 & Hc1 & Hc2 & Hlast & Hl1 & Hl2 & Hlo).
  pose proof (ho_base _ _ _ _ Hok) as Hbase. pose proof (ho_brk _ _ _ _ Hok) as Hbrk. destruct (tiled_end _ _ _ _ Ht2) as [He2 Hu2].
  unfold malloc_take, set_size, set_freep. munfold. rewrite (proj2 (Z.eqb_neq n k)) by lia. eexists. unfold KERNBASE in *.
  rewrite (padd_small p) by hlia. rewrite padd_small by hlia. rewrite Z.mul_1_r. split; [reflexivity|]. split; [|done].
  split; simpl; try done.
  - apply tiled_app. split; [eapply tiled_frame; [|exact Ht1]; intros x Hx; simpl; by rewrite !fn_upd, !decide_False by hlia|].
    split; [lia|]. split; [simpl; by rewrite !fn_upd, decide_False, decide_True by hlia|]. split; [lia|].
    split; [simpl; by rewrite fn_upd, decide_True|]. replace (p + HSIZE * (n - k) + HSIZE * k) with (p + HSIZE * n) by lia.
    eapply tiled_frame; [|exact Ht2]. intros x Hx. simpl. by rewrite !fn_upd, !decide_False by hlia.
  - apply coalesced_app. by rewrite Hlast.
  - rewrite !fn_upd, !decide_False by hlia. apply Hok.
  - rewrite frees_app. simpl. replace (p + HSIZE * (n - k) + HSIZE * k) with (p + HSIZE * n) by lia.
    eapply linked_frame; [|apply linked_app; split; [exact Hl1|exact Hl2]]. done.
  - rewrite frees_app. pose proof (final_elem base (frees lo bl1)). set_solver.
Qed.
End take.

Lemma frees_split a bl x : x ∈ frees a bl → ∃ bl1 n bl2, bl = bl1 ++ (true, n) :: bl2 ∧ x = a + HSIZE * units bl1.
Proof.
  revert a. induction bl as [|[[] n] bl IH]; intros a; simpl; [set_solver| |].
  - rewrite elem_of_cons. intros [->|(bl1 & m & bl2 & -> & ->)%IH]; [exists [], n, bl; split; [done|]; simpl; lia|].
    exists ((true, n) :: bl1), m, bl2. split; [done|]. simpl. lia.
  - intros (bl1 & m & bl2 & -> & ->)%IH. exists ((false, n) :: bl1), m, bl2. split; [done|]. simpl. lia.
Qed.

Lemma heap_nodup base lo s bl : heap_ok base lo s bl → NoDup (base :: frees lo bl) ∧ Forall (λ x, 0 < x) (base :: frees lo bl).
Proof.
  intros Hok. pose proof (ho_base _ _ _ _ Hok) as Hb. destruct (heap_end _ _ _ _ Hok) as [He Hu].
  destruct (below_all base lo s bl (h_brk s) Hb (ho_tiled _ _ _ _ Hok)) as (_ & _ & Hnd); [hlia|]. split; [done|].
  constructor; [lia|]. eapply Forall_impl; [eapply frees_above, Hok|]. simpl. hlia.
Qed.

(** A block that is big enough, after the element [y] of the ring. *)
Lemma take_run base lo s bl x y k pid :
  heap_ok base lo s bl → x ∈ base :: frees lo bl → y ∈ base :: frees lo bl → h_ptr s y = x → 1 ≤ k ≤ h_size s x →
  ∃ r s' bl', malloc_take k y x (h_size s x) pid s = Ret (r + HSIZE) s' ∧ heap_ok base lo s' bl' ∧ h_brk s' = h_brk s ∧
    live lo bl' ≡ₚ (r, k) :: live lo bl.
Proof.
  intros Hok Hx Hy Hp Hk. apply elem_of_cons in Hx as [->|Hx]; [rewrite (ho_size _ _ _ _ Hok) in Hk; lia|].
  destruct (heap_nodup _ _ _ _ Hok) as [Hnd _]. apply frees_split in Hx as (bl1 & n & bl2 & -> & ->).
  destruct (take_parts _ _ _ _ _ _ Hok) as (_ & _ & Hsz & _). rewrite Hsz in *.
  assert (y = final base (frees lo bl1)) as ->.
  { pose proof (ho_ring _ _ _ _ Hok) as Hl. rewrite frees_app in Hl, Hnd, Hy. simpl in Hl, Hnd, Hy. by eapply pred_unique. }
  destruct (decide (k = n)) as [Hkn|Hkn].
  - destruct (take_all base lo s bl1 bl2 n k Hok pid Hkn) as (s' & E & Hok' & Hb). exists (lo + HSIZE * units bl1), s', (bl1 ++ (false, k) :: bl2).
    split_and!; try done. rewrite !live_app. simpl. rewrite Hkn. symmetry. apply Permutation_middle.
  - destruct (take_tail base lo s bl1 bl2 n k Hok pid ltac:(lia)) as (s' & E & Hok' & Hb). eexists _, s', _. split; [exact E|]. split_and!; try done.
    rewrite !live_app. simpl. replace (lo + HSIZE * units bl1 + HSIZE * (n - k) + HSIZE * k) with (lo + HSIZE * units bl1 + HSIZE * n) by lia.
    symmetry. apply Permutation_middle.
Qed.

Lemma gives_live n bl1 bl2 bl' lo : gives n bl1 bl2 bl' → live lo bl' = live lo bl1 ++ live (lo + HSIZE * units bl1 + HSIZE * n) bl2.
Proof.
  assert (∀ a, live (a + HSIZE * (join n bl2).1) (join n bl2).2 = live (a + HSIZE * n) bl2) as Hj.
  { intros a. destruct bl2 as [|[[] m] bl2]; try done. simpl. f_equal. lia. }
  intros [bl1' k ->|Hl]; rewrite !live_app; simpl.
  - rewrite app_nil_r, units_app. simpl. f_equal. rewrite <- (Hj (lo + HSIZE * (units bl1' + (k + 0)))). f_equal. lia.
  - by rewrite Hj.
Qed.

(** The block is in the new tiling, and at least as big. *)
Lemma gives_free base lo s0 s n bl1 bl' :
  tiled s0 lo bl1 (lo + HSIZE * units bl1) → heap_ok base lo s bl' → gives n bl1 [] bl' → ∃ x, x ∈ frees lo bl' ∧ n ≤ h_size s x.
Proof.
  intros Ht Hok Hg. destruct Hg as [bl1' k E|Hl]; [subst bl1|]; simpl in *.
  - apply tiled_app in Ht as [_ (Hk & _ & _)]. destruct (take_parts _ _ _ _ _ _ Hok) as (_ & H1 & Hsz & _).
    exists (lo + HSIZE * units bl1'). rewrite frees_app. simpl. split; [set_solver|]. lia.
  - destruct (take_parts _ _ _ _ _ _ Hok) as (_ & H1 & Hsz & _). exists (lo + HSIZE * units bl1). rewrite frees_app. simpl. split; [set_solver|]. lia.
Qed.

Lemma gives_length n bl1 bl' : gives n bl1 [] bl' → (length bl' ≤ S (length bl1))%nat.
Proof. intros [bl1' k ->|Hl]; simpl; rewrite !length_app; simpl; lia. Qed.

(** The kernel does not grow the heap by what [k] units need. *)
Definition refused (granted : Z → bool) (k b : Z) : Prop := let b' := b + Z.max 4096 k * HSIZE in KERNBASE ≤ b' ∨ granted b' = false.

Lemma morecore_run granted base lo s bl k fuel pid :
  heap_ok base lo s bl → 1 ≤ k → k * HSIZE < 2 ^ 31 → (length bl + 3 < fuel)%nat →
  (morecore granted fuel k pid s = Ret 0 s ∧ refused granted k (h_brk s)) ∨
  ∃ s' bl', morecore granted fuel k pid s = Ret (h_freep s') s' ∧ heap_ok base lo s' bl' ∧ live lo bl' = live lo bl ∧
    (length bl' ≤ S (length bl))%nat ∧ ∃ x, x ∈ frees lo bl' ∧ k ≤ h_size s' x.
Proof.
  intros Hok Hk Hk2 Hf. set (nu := if k <? 4096 then 4096 else k). assert (k ≤ nu ∧ nu * HSIZE < 2 ^ 31 ∧ 1 ≤ nu ∧ Z.max 4096 k = nu) as (Hnu1 & Hnu2 & Hnu3 & Hmax).
  { unfold nu. destruct (k <? 4096) eqn:E; hlia. }
  pose proof (ho_base _ _ _ _ Hok) as Hbase. pose proof (ho_brk _ _ _ _ Hok) as Hbrk. destruct (heap_end _ _ _ _ Hok) as [He Hu].
  unfold morecore. fold nu. rewrite (u32_small (nu * HSIZE)) by hlia. unfold sbrk. unfold KERNBASE in *.
  assert (s32 (nu * HSIZE) = nu * HSIZE) as Es by (unfold s32; rewrite Z.mod_small by hlia; lia).
  rewrite bind_assoc, (bind_Ret get _ pid s s s eq_refl), Es, (proj2 (Z.ltb_lt 0 _)), (u32_small (h_brk s + _)) by hlia.
  destruct (2147483648 <=? h_brk s + nu * HSIZE) eqn:E1; [left; split; [done|]; left; rewrite Hmax; unfold KERNBASE; lia|]. rewrite (proj2 (Z.ltb_ge _ _)) by hlia.
  destruct (granted (h_brk s + nu * HSIZE)) eqn:Eg; [|left; split; [done|]; right; by rewrite Hmax]. right. munfold. set (b := h_brk s) in *.
  set (s1 := mk_heap (h_ptr s) (<[b := nu]> (h_size s)) (h_freep s) (b + nu * HSIZE)).
  assert (heap_ok base lo s1 (bl ++ [(false, nu)])) as Hok1.
  { destruct Hok as [H1 H2 H3 H4 H5 H6 H7]. split; simpl; try done.
    - unfold KERNBASE. lia.
    - apply tiled_app. rewrite <- He. split; [eapply tiled_frame; [|exact H3]; intros x Hx; simpl; by rewrite fn_upd, decide_False by (fold b in Hx; lia)|].
      split; [done|]. split; [simpl; by rewrite fn_upd, decide_True|]. simpl. lia.
    - apply coalesced_app. split; [done|]. split; [done|]. by rewrite andb_false_r.
    - rewrite fn_upd, decide_False; [done|hlia].
    - rewrite frees_app. simpl. rewrite app_nil_r. by eapply linked_frame; [|exact H6].
    - rewrite frees_app. simpl. by rewrite app_nil_r. }
  destruct (free_run base lo s1 bl nu [] pid fuel Hok1) as (s2 & bl2 & Er & Hg & Hok2 & Hb2); [rewrite length_app; simpl; lia|].
  exists s2, bl2. rewrite padd_small by hlia. rewrite Z.mul_1_r, He, Er. split; [done|]. split; [done|].
  rewrite (gives_live _ _ _ _ lo Hg). simpl. rewrite app_nil_r. split; [done|]. split; [by eapply gives_length|].
  destruct (gives_free base lo s s2 nu bl bl2) as (x & Hx & Hs); [rewrite <- He; apply Hok|done|done|]. exists x. split; [done|lia].
Qed.

(** What [malloc] returns: null, or a block that was not in use. *)
Definition malloc_result (granted : Z → bool) (base lo : Z) (b : Z) (bl : list (bool * Z)) (k r : Z) (s' : heap) : Prop :=
  (r = 0 ∧ heap_ok base lo s' bl ∧ refused granted k b) ∨
  ∃ a bl', r = a + HSIZE ∧ heap_ok base lo s' bl' ∧ live lo bl' ≡ₚ (a, k) :: live lo bl.

Lemma search_around granted base lo s bl k pid fuel :
  heap_ok base lo s bl → 1 ≤ k →
  let len := S (length (frees lo bl)) in
  (∃ r s' bl', malloc_loop granted (len + fuel) k (h_freep s) (h_ptr s (h_freep s)) pid s = Ret (r + HSIZE) s' ∧
     heap_ok base lo s' bl' ∧ live lo bl' ≡ₚ (r, k) :: live lo bl) ∨
  (Forall (λ x, h_size s x < k) (frees lo bl) ∧
   malloc_loop granted (len + fuel) k (h_freep s) (h_ptr s (h_freep s)) pid s =
     (m ← morecore granted (S fuel) k; match (if m =? 0 then None else Some m) with None => mret 0 | Some p => q ← get_ptr p; malloc_loop granted fuel k p q end) pid s).
Proof.
  intros Hok Hk len. destruct (ring_from s base (frees lo bl) (h_freep s) (ho_ring _ _ _ _ Hok) (ho_freep _ _ _ _ Hok)) as (l & e & Hl & Hfin & Hperm).
  assert (length l = len) as <- by (by rewrite Hperm). destruct (heap_nodup _ _ _ _ Hok) as [Hnd _]. rewrite <- Hperm in Hnd.
  assert (l ≠ []) as Hne by (intros ->; by apply Permutation_nil_cons in Hperm).
  destruct (search granted k pid s l (h_freep s) e fuel Hl Hne Hfin Hnd) as [(l1 & x & l2 & -> & Hx & ->)|[Hall ->]].
  - left. assert (∀ y, y ∈ h_freep s :: l1 ++ x :: l2 → y ∈ base :: frees lo bl) as Hin.
    { intros y [->|Hy]%elem_of_cons; [apply Hok|by rewrite <- Hperm]. }
    destruct (take_run base lo s bl x (final (h_freep s) l1) k pid Hok) as (r & s' & bl' & E & Hok' & _ & Hlive); [..|by exists r, s', bl'].
    + apply Hin. set_solver.
    + apply Hin. pose proof (final_elem (h_freep s) l1). set_solver.
    + apply linked_app in Hl as [Hl _]. by apply linked_final in Hl.
    + lia.
  - right. split; [|done]. rewrite Hperm in Hall. by inversion Hall.
Qed.

Lemma malloc_loop_run granted base lo s bl k pid fuel :
  heap_ok base lo s bl → 1 ≤ k → k * HSIZE < 2 ^ 31 → (2 * length bl + 10 ≤ fuel)%nat →
  ∃ r s', malloc_loop granted fuel k (h_freep s) (h_ptr s (h_freep s)) pid s = Ret r s' ∧ malloc_result granted base lo (h_brk s) bl k r s'.
Proof.
  intros Hok Hk Hk2 Hf. pose proof (frees_length lo bl) as Hlen.
  replace fuel with (S (length (frees lo bl)) + (fuel - S (length (frees lo bl))))%nat by lia. set (fuel1 := (fuel - S (length (frees lo bl)))%nat).
  destruct (search_around granted base lo s bl k pid fuel1 Hok Hk) as [(r & s' & bl' & E & Hok' & Hl)|[_ E]]; rewrite E.
  { exists (r + HSIZE), s'. split; [done|]. right. by exists r, bl'. }
  destruct (morecore_run granted base lo s bl k (S fuel1) pid Hok Hk Hk2 ltac:(unfold fuel1; lia)) as [[E1 Hrf]|(s1 & bl1 & E1 & Hok1 & Hl1 & Hlen1 & x & Hx & Hs)]; mrun E1.
  { exists 0, s. split; [done|]. by left. }
  destruct (heap_nodup _ _ _ _ Hok1) as [_ Hpos]. rewrite Forall_forall in Hpos. pose proof (Hpos _ (ho_freep _ _ _ _ Hok1)) as Hfp.
  rewrite (proj2 (Z.eqb_neq (h_freep s1) 0)) by lia. rewrite (bind_Ret (get_ptr _) _ pid s1 (h_ptr s1 (h_freep s1)) s1 eq_refl).
  pose proof (frees_length lo bl1) as Hlen2.
  replace fuel1 with (S (length (frees lo bl1)) + (fuel1 - S (length (frees lo bl1))))%nat by (unfold fuel1; lia).
  destruct (search_around granted base lo s1 bl1 k pid (fuel1 - S (length (frees lo bl1))) Hok1 Hk) as [(r & s' & bl' & E2 & Hok' & Hl)|[Hall _]].
  - rewrite E2. exists (r + HSIZE), s'. split; [done|]. right. exists r, bl'. split; [done|]. split; [done|]. by rewrite Hl, Hl1.
  - rewrite Forall_forall in Hall. specialize (Hall x Hx). lia.
Qed.

Lemma nunits_ok nbytes : 0 ≤ nbytes < 2 ^ 31 - 16 → 1 ≤ nunits nbytes ∧ nunits nbytes * HSIZE < 2 ^ 31 ∧ nbytes ≤ HSIZE * (nunits nbytes - 1).
Proof. intros Hn. unfold nunits, HSIZE. rewrite u32_small by lia. dlia. Qed.

(** The heap before the first call. *)
Definition heap_new (base lo : Z) (s : heap) : Prop := h_freep s = 0 ∧ h_brk s = lo ∧ 0 < base ∧ base + HSIZE ≤ lo ∧ lo ≤ KERNBASE.
Definition heap_inv (base lo : Z) (s : heap) (al : list (Z * Z)) : Prop :=
  (heap_new base lo s ∧ al = []) ∨ ∃ bl, heap_ok base lo s bl ∧ al ≡ₚ live lo bl.
(** Enough steps for the loops: they go round the ring at most twice. *)
Definition fuel_for (lo : Z) (s : heap) : nat := 2 * Z.to_nat ((h_brk s - lo) / HSIZE) + 10.

Lemma units_length s a bl e : tiled s a bl e → Z.of_nat (length bl) ≤ units bl.
Proof. revert a. induction bl as [|[f n] bl IH]; intros a; simpl; [lia|]. intros (Hn & _ & Ht%IH). lia. Qed.

Lemma malloc_run granted base lo s al nbytes pid fuel :
  heap_inv base lo s al → 0 ≤ nbytes < 2 ^ 31 - 16 → (fuel_for lo s ≤ fuel)%nat →
  ∃ r s', malloc base granted fuel nbytes pid s = Ret r s' ∧
    ((r = 0 ∧ heap_inv base lo s' al ∧ refused granted (nunits nbytes) (h_brk s)) ∨ ∃ a, r = a + HSIZE ∧ heap_inv base lo s' ((a, nunits nbytes) :: al)).
Proof.
  unfold fuel_for. intros Hi Hn Hf. destruct (nunits_ok nbytes Hn) as (H1 & H2 & _).
  assert (∃ s1 bl, (s ← get; if h_freep s =? 0 then set_ptr base base ;; set_freep base ;; set_size base 0 else mret tt) pid s = Ret tt s1 ∧
    heap_ok base lo s1 bl ∧ h_brk s1 = h_brk s ∧ al ≡ₚ live lo bl) as (s1 & bl & E1 & Hok & Hb & Hal).
  { destruct Hi as [[(Hfp & Hbrk & Hb & Hb2 & Hk) ->]|(bl & Hok & Hal)].
    - eexists _, []. unfold set_ptr, set_freep, set_size. munfold. rewrite Hfp. split; [reflexivity|]. split; [|done].
      split; simpl; try done; [by rewrite Hbrk|by rewrite fn_upd, decide_True|by rewrite fn_upd, decide_True|set_solver].
    - exists s, bl. rewrite (bind_Ret get _ pid s s s eq_refl). destruct (heap_nodup _ _ _ _ Hok) as [_ Hpos]. rewrite Forall_forall in Hpos.
      pose proof (Hpos _ (ho_freep _ _ _ _ Hok)). rewrite (proj2 (Z.eqb_neq (h_freep s) 0)) by lia. done. }
  unfold malloc. rewrite (bind_Ret get _ pid s s s eq_refl) in E1. rewrite (bind_Ret get _ pid s s s eq_refl). mrun E1.
  rewrite (bind_Ret get _ pid s1 s1 s1 eq_refl), (bind_Ret (get_ptr _) _ pid s1 (h_ptr s1 (h_freep s1)) s1 eq_refl).
  destruct (malloc_loop_run granted base lo s1 bl (nunits nbytes) pid fuel Hok H1 H2) as (r & s' & E & Hr).
  { destruct (heap_end _ _ _ _ Hok) as [He _]. pose proof (units_length _ _ _ _ (ho_tiled _ _ _ _ Hok)). rewrite <- Hb, He in Hf.
    replace ((lo + HSIZE * units bl - lo) / HSIZE) with (units bl) in Hf by (unfold HSIZE; dlia). lia. }
  exists r, s'. split; [done|]. destruct Hr as [(-> & Hok' & Hrf)|(a & bl' & -> & Hok' & Hl)].
  - left. split; [done|]. rewrite <- Hb. split; [|done]. right. by exists bl.
  - right. exists a. split; [done|]. right. exists bl'. split; [done|]. by rewrite Hl, Hal.
Qed.

(** ** A program that uses the heap *)

Lemma live_split a bl x n : (x, n) ∈ live a bl → ∃ bl1 bl2, bl = bl1 ++ (false, n) :: bl2 ∧ x = a + HSIZE * units bl1.
Proof.
  revert a. induction bl as [|[[] m] bl IH]; intros a; simpl; [by intros ?%elem_of_nil| |].
  - intros (bl1 & bl2 & -> & ->)%IH. exists ((true, m) :: bl1), bl2. split; [done|]. simpl. lia.
  - intros [[= -> ->]|(bl1 & bl2 & -> & ->)%IH]%elem_of_cons.
    + exists [], bl. split; [done|]. simpl. lia.
    + exists ((false, m) :: bl1), bl2. split; [done|]. simpl. lia.
Qed.

Lemma free_inv base lo s al a n pid fuel :
  heap_inv base lo s ((a, n) :: al) → (fuel_for lo s ≤ fuel)%nat →
  ∃ s', free fuel (a + HSIZE) pid s = Ret tt s' ∧ heap_inv base lo s' al.
Proof.
  unfold fuel_for. intros [[_ [=]]|(bl & Hok & Hal)] Hf. assert ((a, n) ∈ live lo bl) as (bl1 & bl2 & -> & ->)%live_split by (rewrite <- Hal; set_solver).
  destruct (free_run base lo s bl1 n bl2 pid fuel Hok) as (s' & bl' & E & Hg & Hok' & _).
  { destruct (heap_end _ _ _ _ Hok) as [He _]. pose proof (units_length _ _ _ _ (ho_tiled _ _ _ _ Hok)) as Hu. rewrite He in Hf.
    rewrite Z.add_simpl_l, Z.mul_comm, Z.div_mul in Hf by done. lia. }
  exists s'. split; [done|]. right. exists bl'. split; [done|]. rewrite (gives_live _ _ _ _ lo Hg).
  rewrite live_app in Hal. simpl in Hal. rewrite <- Permutation_middle in Hal. by apply Permutation_cons_inv in Hal.
Qed.

(** A write of the program within a block it holds leaves the headers. *)
Definition written (a n : Z) (s s' : heap) : Prop :=
  h_freep s' = h_freep s ∧ h_brk s' = h_brk s ∧ ∀ x, ¬ (a < x < a + HSIZE * n) → h_ptr s' x = h_ptr s x ∧ h_size s' x = h_size s x.
Lemma written_inv base lo s s' al a n : heap_inv base lo s al → (a, n) ∈ al → written a n s s' → heap_inv base lo s' al.
Proof.
  intros [[_ ->]|(bl & Hok & Hal)] Hin (Hfp & Hbrk & Hout); [by apply elem_of_nil in Hin|]. right. exists bl. split; [|done].
  rewrite Hal in Hin. apply live_split in Hin as (bl1 & bl2 & -> & Ea). destruct Hok as [H1 H2 H3 H4 H5 H6 H7].
  pose proof H3 as Ht. apply tiled_app in Ht as [Ht1 (Hn & Hsz & Ht2)]. rewrite <- Ea in Ht1, Hsz, Ht2.
  destruct (tiled_end _ _ _ _ Ht1) as [_ Hu1]. split; rewrite ?Hfp, ?Hbrk; try done.
  - apply tiled_app. rewrite <- Ea. split; [|split; [done|split]].
    + eapply tiled_frame; [|exact Ht1]. intros x Hx. apply Hout. hlia.
    + rewrite <- Hsz. apply Hout. hlia.
    + eapply tiled_frame; [|exact Ht2]. intros x Hx. apply Hout. hlia.
  - rewrite <- H5. apply Hout. hlia.
  - eapply linked_frame; [|exact H6]. intros x Hx. apply Hout. rewrite frees_app in Hx. simpl in Hx. rewrite <- Ea in Hx.
    rewrite elem_of_cons, elem_of_app in Hx. destruct Hx as [->|[Hx|Hx]]; [hlia| |].
    + pose proof (frees_range _ _ _ _ _ Ht1 Hx). hlia.
    + pose proof (frees_range _ _ _ _ _ Ht2 Hx). hlia.
Qed.

(** The blocks in use do not touch each other's units. *)
Definition apart (p q : Z * Z) : Prop := p.1 + HSIZE * p.2 ≤ q.1 ∨ q.1 + HSIZE * q.2 ≤ p.1.
Lemma live_apart s a bl e : tiled s a bl e →
  StronglySorted apart (live a bl) ∧ Forall (λ p, a ≤ p.1 ∧ p.1 + HSIZE * p.2 ≤ e ∧ (p.1 - a) mod HSIZE = 0) (live a bl).
Proof.
  revert a. induction bl as [|[f n] bl IH]; intros a; simpl; [by repeat constructor|]. intros (Hn & Hs & Ht).
  destruct (IH _ Ht) as [Hsrt Hall]. destruct (tiled_end _ _ _ _ Ht) as [He Hu].
  assert (Forall (λ p : Z * Z, a ≤ p.1 ∧ p.1 + HSIZE * p.2 ≤ e ∧ (p.1 - a) mod HSIZE = 0) (live (a + HSIZE * n) bl)) as Hall'.
  { eapply Forall_impl; [exact Hall|]. intros p (H1 & H2 & H3). unfold HSIZE in *. split_and!; [lia|done|].
    rewrite <- (Z.mod_add _ (- n)) by done. by replace (p.1 - a + - n * 8) with (p.1 - (a + 8 * n)) by lia. }
  destruct f; [done|]. split; constructor; try done.
  - eapply Forall_impl; [exact Hall|]. intros p (Hp & _ & _). left. simpl. lia.
  - simpl. rewrite Z.sub_diag. unfold HSIZE in *. split_and!; [lia|lia|done].
Qed.
Lemma sorted_perm {A} (R : A → A → Prop) l l' : (∀ x y, R x y → R y x) → l ≡ₚ l' → StronglySorted R l → StronglySorted R l'.
Proof.
  intros Hsym. induction 1 as [|x l l' Hp IH|x y l|l1 l2 l3 _ IH1 _ IH2]; auto.
  - intros [Hs Hf]%StronglySorted_inv. constructor; [auto|by rewrite <- Hp].
  - intros [[Hs Hy]%StronglySorted_inv [Hxy Hx]%Forall_cons]%StronglySorted_inv. repeat constructor; auto.
Qed.
Lemma sorted_lookup {A} (R : A → A → Prop) l : (∀ x y, R x y → R y x) → StronglySorted R l →
  ∀ i j x y, i ≠ j → l !! i = Some x → l !! j = Some y → R x y.
Proof.
  intros Hsym. induction 1 as [|z l Hs IH Hf]; intros i j x y Hne Hi Hj; [done|]. rewrite Forall_lookup in Hf.
  destruct i, j; simplify_eq/=; eauto.
Qed.

(** Everything freed is one block again. *)
Lemma all_free bl lo : coalesced bl → live lo bl = [] → bl = [] ∨ ∃ n, bl = [(true, n)].
Proof. destruct bl as [|[[] n] [|[[] m] bl]]; simpl; try done; [by left|right; by exists n]. Qed.

Section program.
Context (base lo : Z).

(** The calls and the writes of a program, with the pointers it holds and the
    bytes it asked for.  The kernel may answer each request for memory as it
    likes. *)
Inductive ustep : heap * list (Z * Z) → heap * list (Z * Z) → Prop :=
  | ust_malloc granted s held n fuel pid r s' : 0 ≤ n < 2 ^ 31 - 16 → (fuel_for lo s ≤ fuel)%nat →
      malloc base granted fuel n pid s = Ret r s' → ustep (s, held) (s', if r =? 0 then held else (r, n) :: held)
  | ust_free s held held' fuel pid r n s' : held ≡ₚ (r, n) :: held' → (fuel_for lo s ≤ fuel)%nat →
      free fuel r pid s = Ret tt s' → ustep (s, held) (s', held')
  | ust_write s s' held r n : (r, n) ∈ held → h_freep s' = h_freep s → h_brk s' = h_brk s →
      (∀ x, ¬ (r - HSIZE < x < r + n) → h_ptr s' x = h_ptr s x ∧ h_size s' x = h_size s x) → ustep (s, held) (s', held).

Definition block (p : Z * Z) : Z * Z := (p.1 - HSIZE, nunits p.2).
Definition uinv (c : heap * list (Z * Z)) : Prop :=
  heap_inv base lo c.1 (map block c.2) ∧ Forall (λ p, 0 ≤ p.2 < 2 ^ 31 - 16) c.2.

Lemma ustep_inv c c' : ustep c c' → uinv c → uinv c'.
Proof.
  intros Hst [Hi Hr]. destruct Hst as [granted s held n fuel pid r s' Hn Hf E|s held held' fuel pid r n s' Hp Hf E|s s' held r n Hin Hfp Hb Hw]; simpl in *.
  - destruct (malloc_run granted base lo s _ n pid fuel Hi Hn Hf) as (r' & s1 & E' & Hres). rewrite E in E'. injection E' as <- <-.
    destruct Hres as [(-> & Hi' & _)|(a & -> & Hi')]; [done|]. destruct (a + HSIZE =? 0) eqn:Ez.
    + destruct Hi' as [[_ [=]]|(bl & Hok & Hal)]. destruct (live_apart _ _ _ _ (ho_tiled _ _ _ _ Hok)) as [_ Hall]. rewrite <- Hal in Hall.
      apply Forall_cons in Hall as [Ha _]. pose proof (ho_base _ _ _ _ Hok). simpl in Ha. hlia.
    + split; [|by constructor]. simpl. unfold block at 1. simpl. by rewrite Z.add_simpl_r.
  - assert (heap_inv base lo s ((r - HSIZE, nunits n) :: map block held')) as Hi2.
    { destruct Hi as [[_ Hm]|(bl & Hok & Hal)].
      - apply map_eq_nil in Hm as ->. by apply Permutation_nil_cons in Hp.
      - right. exists bl. split; [done|]. by rewrite <- Hal, Hp. }
    destruct (free_inv base lo s _ _ _ pid fuel Hi2 Hf) as (s1 & E' & Hi'). rewrite Z.sub_simpl_r, E in E'. injection E' as <-.
    split; [done|]. rewrite Hp in Hr. by inversion Hr.
  - split; [|done]. eapply (written_inv base lo s s' _ (r - HSIZE) (nunits n)); [done| |split; [done|]].
    + change (r - HSIZE, nunits n) with (block (r, n)). by apply list_elem_of_fmap_2.
    + split; [done|]. rewrite Forall_forall in Hr. destruct (nunits_ok n (Hr _ Hin)) as (_ & _ & Hn). intros x Hx. apply Hw. hlia.
Qed.

Lemma uinv_reach s0 c : heap_new base lo s0 → rtc ustep (s0, []) c → uinv c.
Proof. intros H0 Hr. revert c Hr. apply rtc_ind_r; [split; [by left|by constructor]|]. eauto using ustep_inv. Qed.

Lemma uinv_apart s held : uinv (s, held) →
  (∀ i j p q, i ≠ j → held !! i = Some p → held !! j = Some q → p.1 + p.2 ≤ q.1 - HSIZE ∨ q.1 + q.2 ≤ p.1 - HSIZE) ∧
  (∀ r n, (r, n) ∈ held → lo + HSIZE ≤ r ∧ r + n ≤ h_brk s ∧ (r - lo) mod HSIZE = 0).
Proof.
  intros [Hi Hr]. simpl in *. rewrite Forall_forall in Hr.
  assert (∀ r n, (r, n) ∈ held → n ≤ HSIZE * (nunits n - 1)) as Hu. { intros r n Hin. by destruct (nunits_ok n (Hr _ Hin)) as (_ & _ & Hn). }
  destruct Hi as [[_ ->%map_eq_nil]|(bl & Hok & Hal)]; [split; [done|by intros ?? ?%elem_of_nil]|].
  destruct (live_apart _ _ _ _ (ho_tiled _ _ _ _ Hok)) as [Hs Hall]. rewrite <- Hal in Hall. rewrite Forall_forall in Hall.
  assert (∀ x y, apart x y → apart y x) as Hsym by (unfold apart; tauto). eapply sorted_perm in Hs; [|exact Hsym|by symmetry]. split.
  - intros i j [p m] [q n] Hne Hp Hq. pose proof (Hu _ _ (list_elem_of_lookup_2 _ _ _ Hp)). pose proof (Hu _ _ (list_elem_of_lookup_2 _ _ _ Hq)).
    destruct (sorted_lookup _ _ Hsym Hs i j (block (p, m)) (block (q, n)) Hne) as [H1|H1]; [by rewrite list_lookup_fmap, ?Hp, ?Hq..| |]; simpl in *; hlia.
  - intros r n Hin. pose proof (Hu _ _ Hin) as Hn. destruct (Hall (block (r, n))) as (H1 & H2 & H3); [by apply list_elem_of_fmap_2|]. simpl in *.
    unfold HSIZE in *. split_and!; [lia|lia|]. rewrite <- H3, <- (Z.mod_add (r - 8 - lo) 1) by done. f_equal. lia.
Qed.

Lemma uinv_free s : uinv (s, []) → h_freep s ≠ 0 → lo < h_brk s →
  h_ptr s base = lo ∧ h_ptr s lo = base ∧ lo + HSIZE * h_size s lo = h_brk s.
Proof.
  intros [[[(Hf & _) _]|(bl & Hok & Hal)] _] Hne Hlt; [done|]. simpl in Hal. symmetry in Hal. apply Permutation_nil_r in Hal.
  destruct (all_free bl lo (ho_coalesced _ _ _ _ Hok) Hal) as [->|[n ->]].
  - pose proof (ho_tiled _ _ _ _ Hok) as Ht. simpl in Ht. lia.
  - destruct (ho_tiled _ _ _ _ Hok) as (_ & Hs & He). simpl in Hs, He. destruct (ho_ring _ _ _ _ Hok) as [H1 H2]. simpl in H2. split_and!; [done..|]. by rewrite Hs.
Qed.
End program.

(** ** The theorem *)

(** C18. The heap of a program that has only used [malloc], [free] and the
    memory it was given is sound.  The blocks it holds, headers included, are
    disjoint, lie within the heap, are aligned and have the size asked for;
    the next [malloc] of less than 2GB returns, and null only if the kernel
    refuses the memory; the next [free] of a held block returns; and when
    nothing is held the whole heap is one free block again. *)
Theorem umalloc_sound base lo s0 s held :
  heap_new base lo s0 → rtc (ustep base lo) (s0, []) (s, held) →
  (∀ i j p q, i ≠ j → held !! i = Some p → held !! j = Some q → p.1 + p.2 ≤ q.1 - HSIZE ∨ q.1 + q.2 ≤ p.1 - HSIZE) ∧
  (∀ r n, (r, n) ∈ held → lo + HSIZE ≤ r ∧ r + n ≤ h_brk s ∧ (r - lo) mod HSIZE = 0) ∧
  (∀ granted n fuel pid, 0 ≤ n < 2 ^ 31 - 16 → (fuel_for lo s ≤ fuel)%nat →
     ∃ r s', malloc base granted fuel n pid s = Ret r s' ∧ (r = 0 → refused granted (nunits n) (h_brk s))) ∧
  (∀ r n fuel pid, (r, n) ∈ held → (fuel_for lo s ≤ fuel)%nat → ∃ s', free fuel r pid s = Ret tt s') ∧
  (held = [] → h_freep s ≠ 0 → lo < h_brk s → h_ptr s base = lo ∧ h_ptr s lo = base ∧ lo + HSIZE * h_size s lo = h_brk s).
Proof.
  intros H0 Hr. pose proof (uinv_reach _ _ _ _ H0 Hr) as Hinv. destruct (uinv_apart _ _ _ _ Hinv) as [Ha Hb]. split_and!; [done..| | |].
  - intros granted n fuel pid Hn Hf. destruct (malloc_run granted base lo s _ n pid fuel (proj1 Hinv) Hn Hf) as (r & s' & E & Hres).
    exists r, s'. split; [done|]. intros ->. destruct Hres as [(_ & _ & Hrf)|(a & Ha0 & [[_ [=]]|(bl & Hok & Hal)])]; [done|].
    destruct (live_apart _ _ _ _ (ho_tiled _ _ _ _ Hok)) as [_ Hall]. rewrite <- Hal in Hall. apply Forall_cons in Hall as [Hp _].
    pose proof (ho_base _ _ _ _ Hok). simpl in Hp. hlia.
  - intros r n fuel pid (l1 & l2 & ->)%list_elem_of_split Hf. destruct Hinv as [[[_ Hm]|(bl & Hok & Hal)] _].
    { apply map_eq_nil in Hm. by apply app_eq_nil in Hm as [_ [=]]. }
    simpl in Hal. rewrite map_app in Hal. simpl in Hal. rewrite <- Permutation_middle in Hal.
    destruct (free_inv base lo s (map block l1 ++ map block l2) (r - HSIZE) (nunits n) pid fuel) as (s' & E & _); [right; by exists bl|done|].
    exists s'. by rewrite Z.sub_simpl_r in E.
  - intros ->. by apply uinv_free.
Qed.

(** Two blocks taken, one written and both given back. *)
Definition heap_ex (l : list (Z * Z * Z)) (freep brk : Z) : heap :=
  mk_heap (λ x, match list_find (λ t, t.1.1 = x) l with Some (_, t) => t.1.2 | None => 0 end)
          (λ x, match list_find (λ t, t.1.1 = x) l with Some (_, t) => t.2 | None => 0 end) freep brk.
Definition umalloc_ex0 : heap := heap_ex [] 0 4096.
Definition umalloc_after (m : M heap Z) (s : heap) : heap := match m 0 s with Ret _ s' => s' | _ => s end.
Definition umalloc_ex1 : heap := umalloc_after (malloc 1024 (λ _, true) 10 100) umalloc_ex0.
Definition umalloc_ex2 : heap := umalloc_after (malloc 1024 (λ _, true) 9000 50) umalloc_ex1.
Lemma umalloc_sound_witness :
  (heap_new 1024 4096 umalloc_ex0 ∧ rtc (ustep 1024 4096) (umalloc_ex0, []) (umalloc_ex2, [(36696, 50); (36760, 100)])) ∧
  (∀ r n fuel pid, (r, n) ∈ [(36696, 50); (36760, 100)] → (fuel_for 4096 umalloc_ex2 ≤ fuel)%nat → ∃ s', free fuel r pid umalloc_ex2 = Ret tt s').
Proof.
  assert (heap_new 1024 4096 umalloc_ex0) as H0 by (repeat split; unfold HSIZE, KERNBASE; simpl; lia).
  assert (rtc (ustep 1024 4096) (umalloc_ex0, []) (umalloc_ex2, [(36696, 50); (36760, 100)])) as Hr.
  { apply rtc_l with (umalloc_ex1, [(36760, 100)]).
    - refine (ust_malloc _ _ (λ _, true) _ _ 100 10 0 36760 _ _ _ _); [lia|apply Nat.leb_le; vm_compute; reflexivity|].
      vm_compute. reflexivity.
    - apply rtc_once. refine (ust_malloc _ _ (λ _, true) _ _ 50 9000 0 36696 _ _ _ _); [lia|apply Nat.leb_le; vm_compute; reflexivity|].
      vm_compute. reflexivity. }
  split; [by split|]. exact (proj1 (proj2 (proj2 (proj2 (umalloc_sound _ _ _ _ _ H0 Hr))))).
Defined.

(** A request of nearly 2^32 bytes: the sum wraps and one unit is handed out,
    the header alone. *)
Theorem malloc_wraps : ∃ s', malloc 1024 (λ _, true) 10 4294967295 0 umalloc_ex0 = Ret (h_brk s') s' ∧ h_brk s' = 36864.
Proof. exists (umalloc_after (malloc 1024 (λ _, true) 10 4294967295) umalloc_ex0). split; vm_compute; reflexivity. Qed.

(** A request of 2GB: [sbrk] takes the number for a negative one; the kernel
    finds the new size above the old one, shrinks nothing and reports success.
    The block handed out starts past the break. *)
Theorem malloc_past_break : ∃ r s', malloc 1024 (λ _, true) 10 2147483648 0 umalloc_ex0 = Ret r s' ∧ r ≠ 0 ∧ h_brk s' ≤ r.
Proof. eexists _, (umalloc_after (malloc 1024 (λ _, true) 10 2147483648) umalloc_ex0). split; [vm_compute; reflexivity|]. split; vm_compute; discriminate. Qed.
