(* ===== verification/Sh.v ===== *)
(** * The shell (sh.c): its parser

    The line is an array of characters that ends in a NUL; a pointer into it is
    an offset.  The state of the monad is the parser's position [*ps]; [panic]
    of the shell prints its message and leaves the process. *)

From S2P Require Import Prelude.

Set Default Proof Using "Type".

Definition chars (s : string) : list Z := map (λ a, Z.of_nat (Ascii.nat_of_ascii a)) (String.list_ascii_of_string s).
Definition whitespace : list Z := [32; 9; 13; 10; 11].
Definition symbols : list Z := [60; 124; 62; 38; 59; 40; 41].
Definition MAXARGS : nat := 10.
Definition TOKWORD : Z := 97.
Definition TOKAPPEND : Z := 43.
Definition GT : Z := 62.
Definition LT : Z := 60.
Definition BAR : Z := 124.
Definition AMP : Z := 38.
Definition SEMI : Z := 59.
Definition LPAREN : Z := 40.
Definition RPAREN : Z := 41.
Definition ORDONLY : Z := 0.
Definition OWRONLY_OCREATE : Z := 0x201.

(** [strchr] of ulib.c in a constant string: it does not find the NUL. *)
Definition instr (toks : list Z) (c : Z) : bool := existsb (Z.eqb c) toks.
#[global] Arguments instr : simpl never.

(** The commands; a word is where it starts and where it ends. *)
Definition span : Type := nat * nat.
Inductive cmd :=
| EXEC (argv : list span)
| REDIR (c : cmd) (file : span) (mode fd : Z)
| PIPE (left right : cmd)
| LIST (left right : cmd)
| BACK (c : cmd).

(** The constructors, where [malloc] has the memory. *)
Definition execcmd : cmd := EXEC [].
Definition redircmd (subcmd : cmd) (file : span) (mode fd : Z) : cmd := REDIR subcmd file mode fd.
Definition pipecmd (left right : cmd) : cmd := PIPE left right.
Definition listcmd (left right : cmd) : cmd := LIST left right.
Definition backcmd (subcmd : cmd) : cmd := BACK subcmd.

(** [cmd->argv[argc] = q; cmd->eargv[argc] = eq], where [cmd] is the command
    that the redirections of [ret] were put around. *)
Fixpoint add_arg (ret : cmd) (w : span) : cmd :=
  match ret with
  | EXEC argv => EXEC (argv ++ [w])
  | REDIR c f m d => REDIR (add_arg c w) f m d
  | _ => ret
  end.

Section parse.
Context (b : list Z) (es : nat).

Definition ch (s : nat) : Z := nth s b 0.

(** [while(s < es && p( *s)) s++], in at most [n] steps. *)
Fixpoint skip_while (p : Z → bool) (n s : nat) : nat :=
  match n with
  | O => s
  | S n' => if p (ch s) then skip_while p n' (S s) else s
  end.
Definition skip_space (s : nat) : nat := skip_while (instr whitespace) (es - s) s.
Definition skip_word (s : nat) : nat := skip_while (λ c, negb (instr whitespace c) && negb (instr symbols c)) (es - s) s.

Definition gettoken : M nat (Z * span) :=
  s ← get;
  let s := skip_space s in
  let q := s in
  let '(ret, s) :=
    if ch s =? 0 then (0, s)
    else if instr [BAR; LPAREN; RPAREN; SEMI; AMP; LT] (ch s) then (ch s, S s)
    else if ch s =? GT then (if ch (S s) =? GT then (TOKAPPEND, S (S s)) else (GT, S s))
    else (TOKWORD, skip_word s) in
  modify (λ _, skip_space s) ;;
  mret (ret, (q, s)).

Definition peek (toks : list Z) : M nat bool :=
  s ← get;
  let s := skip_space s in
  modify (λ _, s) ;;
  mret (negb (ch s =? 0) && instr toks (ch s)).

Definition redirect (tok : Z) (c : cmd) (w : span) : cmd :=
  if tok =? LT then redircmd c w ORDONLY 0
  else if tok =? GT then redircmd c w OWRONLY_OCREATE 1
  else if tok =? TOKAPPEND then redircmd c w OWRONLY_OCREATE 1
  else c.

Fixpoint parseredirs (fuel : nat) (c : cmd) : M nat cmd :=
  match fuel with
  | O => undef "parseredirs: fuel"
  | S fuel' =>
      p ← peek [LT; GT];
      if (p : bool) then
        t ← gettoken;
        f ← gettoken;
        if negb (f.1 =? TOKWORD) then panic "missing file for redirection" else
        parseredirs fuel' (redirect t.1 c f.2)
      else mret c
  end.

(** The loop of [parseexec] over the arguments. *)
Fixpoint parseexec_loop (fuel argc : nat) (ret : cmd) : M nat cmd :=
  match fuel with
  | O => undef "parseexec: fuel"
  | S fuel' =>
      p ← peek [BAR; RPAREN; AMP; SEMI];
      if (p : bool) then mret ret else
      t ← gettoken;
      if t.1 =? 0 then mret ret else
      if negb (t.1 =? TOKWORD) then panic "syntax" else
      let ret := add_arg ret t.2 in
      if bool_decide (MAXARGS ≤ S argc)%nat then panic "too many args" else
      ret ← parseredirs fuel' ret;
      parseexec_loop fuel' (S argc) ret
  end.

(** The loop of [parseline] over the [&]s. *)
Fixpoint parseback (fuel : nat) (c : cmd) : M nat cmd :=
  match fuel with
  | O => undef "parseline: fuel"
  | S fuel' =>
      p ← peek [AMP];
      if (p : bool) then gettoken ;; parseback fuel' (backcmd c) else mret c
  end.

Fixpoint parseline (fuel : nat) : M nat cmd :=
  match fuel with
  | O => undef "parseline: fuel"
  | S fuel' =>
      c ← parsepipe fuel';
      c ← parseback fuel' c;
      p ← peek [SEMI];
      if (p : bool) then gettoken ;; d ← parseline fuel'; mret (listcmd c d) else mret c
  end
with parsepipe (fuel : nat) : M nat cmd :=
  match fuel with
  | O => undef "parsepipe: fuel"
  | S fuel' =>
      c ← parseexec fuel';
      p ← peek [BAR];
      if (p : bool) then gettoken ;; d ← parsepipe fuel'; mret (pipecmd c d) else mret c
  end
with parseexec (fuel : nat) : M nat cmd :=
  match fuel with
  | O => undef "parseexec: fuel"
  | S fuel' =>
      p ← peek [LPAREN];
      if (p : bool) then parseblock fuel' else
      ret ← parseredirs fuel' execcmd;
      parseexec_loop fuel' 0 ret
  end
with parseblock (fuel : nat) : M nat cmd :=
  match fuel with
  | O => undef "parseblock: fuel"
  | S fuel' =>
      p ← peek [LPAREN];
      if negb p then panic "parseblock" else
      gettoken ;;
      c ← parseline fuel';
      p ← peek [RPAREN];
      if negb p then panic "syntax - missing )" else
      gettoken ;;
      parseredirs fuel' c
  end.
End parse.

(** [nulterminate], on the line. *)
Fixpoint nulterminate (c : cmd) (b : list Z) : list Z :=
  match c with
  | EXEC argv => foldl (λ b w, <[w.2 := 0]> b) b argv
  | REDIR c f _ _ => <[f.2 := 0]> (nulterminate c b)
  | PIPE l r => nulterminate r (nulterminate l b)
  | LIST l r => nulterminate r (nulterminate l b)
  | BACK c => nulterminate c b
  end.

(** The characters before the first NUL. *)
Fixpoint string_at (l : list Z) : list Z :=
  match l with [] => [] | c :: l' => if c =? 0 then [] else c :: string_at l' end.

Definition parsecmd (b : list Z) : M nat (cmd * list Z) :=
  let es := length (string_at b) in
  modify (λ _, O) ;;
  c ← parseline b es (4 * es + 8);
  peek b es [] ;;
  s ← get;
  if bool_decide (s ≠ es) then panic "syntax" else
  mret (c, nulterminate c b).

(** ** What a line means

    The tokens of a line, and the grammar of commands over them. *)

Inductive token := TSym (c : Z) | TAppend | TWord (w : list Z).

Definition flush (w : list Z) : list token := match w with [] => [] | _ => [TWord w] end.
Fixpoint lex (w t : list Z) : list token :=
  match t with
  | [] => flush w
  | c :: t' =>
      if instr whitespace c then flush w ++ lex [] t'
      else if c =? GT then
        match t' with
        | d :: t'' => if d =? GT then flush w ++ TAppend :: lex [] t'' else flush w ++ TSym c :: lex [] t'
        | [] => flush w ++ [TSym c]
        end
      else if instr symbols c then flush w ++ TSym c :: lex [] t'
      else lex (w ++ [c]) t'
  end.

Inductive ast :=
| AExec (args : list (list Z))
| ARedir (a : ast) (file : list Z) (mode fd : Z)
| APipe (a1 a2 : ast)
| AList (a1 a2 : ast)
| ABack (a : ast).

(** [< f], [> f] and [>> f]. *)
Inductive redir_tok : token → Z * Z → Prop :=
| rt_in : redir_tok (TSym LT) (ORDONLY, 0)
| rt_out : redir_tok (TSym GT) (OWRONLY_OCREATE, 1)
| rt_append : redir_tok TAppend (OWRONLY_OCREATE, 1).
Definition around (a : ast) (r : list Z * (Z * Z)) : ast := ARedir a r.1 r.2.1 r.2.2.

(** Words and redirections in any order: the words, the redirections. *)
Inductive g_args : list token → list (list Z) → list (list Z * (Z * Z)) → Prop :=
| ga_nil : g_args [] [] []
| ga_word w ts ws rs : g_args ts ws rs → g_args (TWord w :: ts) (w :: ws) rs
| ga_redir t w k ts ws rs : redir_tok t k → g_args ts ws rs → g_args (t :: TWord w :: ts) ws ((w, k) :: rs).

Definition amps (n : nat) : list token := replicate n (TSym AMP).
Inductive g_line : list token → ast → Prop :=
| gl_one ts a n : g_pipe ts a → g_line (ts ++ amps n) (Nat.iter n ABack a)
| gl_list ts a n ts' a' : g_pipe ts a → g_line ts' a' → g_line (ts ++ amps n ++ TSym SEMI :: ts') (AList (Nat.iter n ABack a) a')
with g_pipe : list token → ast → Prop :=
| gp_one ts a : g_cmd ts a → g_pipe ts a
| gp_pipe ts a ts' a' : g_cmd ts a → g_pipe ts' a' → g_pipe (ts ++ TSym BAR :: ts') (APipe a a')
with g_cmd : list token → ast → Prop :=
| gc_exec ts ws rs : g_args ts ws rs → (length ws < MAXARGS)%nat → g_cmd ts (foldl around (AExec ws) rs)
| gc_block ts a ts' rs : g_line ts a → g_args ts' [] rs → g_cmd (TSym LPAREN :: ts ++ TSym RPAREN :: ts') (foldl around a rs).

Scheme g_line_min := Minimality for g_line Sort Prop
  with g_pipe_min := Minimality for g_pipe Sort Prop
  with g_cmd_min := Minimality for g_cmd Sort Prop.

(** The command that the shell executes: its words are the strings in the line
    after [nulterminate]. *)
Definition word_at (b : list Z) (w : span) : list Z := string_at (drop w.1 b).
Fixpoint meaning (b : list Z) (c : cmd) : ast :=
  match c with
  | EXEC argv => AExec (map (word_at b) argv)
  | REDIR c f m d => ARedir (meaning b c) (word_at b f) m d
  | PIPE l r => APipe (meaning b l) (meaning b r)
  | LIST l r => AList (meaning b l) (meaning b r)
  | BACK c => ABack (meaning b c)
  end.

(** ** Tokens *)

Definition wordc (c : Z) : bool := negb (instr whitespace c) && negb (instr symbols c).
Definition tok_ok (t : token) : Prop := match t with TSym c => instr symbols c = true | _ => True end.
Definition code (t : token) : Z := match t with TSym c => c | TAppend => TOKAPPEND | TWord _ => TOKWORD end.
Definition head_in (toks : list Z) (ts : list token) : bool :=
  match ts with TSym c :: _ => instr toks c | TAppend :: _ => instr toks GT | _ => false end.

Lemma instr_in toks c : instr toks c = true ↔ c ∈ toks.
Proof.
  unfold instr. rewrite existsb_exists. setoid_rewrite Z.eqb_eq. setoid_rewrite <- list_elem_of_In. naive_solver.
Qed.
Lemma symbol_cases c : instr symbols c = true → c = LT ∨ c = BAR ∨ c = GT ∨ c = AMP ∨ c = SEMI ∨ c = LPAREN ∨ c = RPAREN.
Proof. rewrite instr_in. unfold symbols, LT, BAR, GT, AMP, SEMI, LPAREN, RPAREN. rewrite !elem_of_cons. intros H. decompose [or] H; try (by apply elem_of_nil in H0); lia || set_solver. Qed.

Lemma flush_ok w : Forall tok_ok (flush w).
Proof. destruct w; repeat constructor. Qed.
Lemma flush_length w : (length (flush w) ≤ length w)%nat.
Proof. destruct w; simpl; lia. Qed.
Lemma lex_ind (P : list Z → list Z → list token → Prop) :
  (∀ w, P w [] (flush w)) →
  (∀ w c t, instr whitespace c = true → P [] t (lex [] t) → P w (c :: t) (flush w ++ lex [] t)) →
  (∀ w t, P [] t (lex [] t) → P w (GT :: GT :: t) (flush w ++ TAppend :: lex [] t)) →
  (∀ w c t, instr whitespace c = false → instr symbols c = true → P [] t (lex [] t) → P w (c :: t) (flush w ++ TSym c :: lex [] t)) →
  (∀ w c t, wordc c = true → P (w ++ [c]) t (lex (w ++ [c]) t) → P w (c :: t) (lex (w ++ [c]) t)) →
  ∀ n t w, (length t ≤ n)%nat → P w t (lex w t).
Proof.
  intros H0 H1 H2 H3 H4. induction n as [|n IH]; intros [|c t] w Hn; simpl in Hn; try lia; [apply H0..|]. simpl.
  destruct (instr whitespace c) eqn:Ew; [apply H1; [done|apply IH; lia]|].
  destruct (c =? GT) eqn:Eg.
  - apply Z.eqb_eq in Eg as ->. destruct t as [|d t]; [apply (H3 w GT []); [done..|apply H0]|]. destruct (d =? GT) eqn:Ed.
    + apply Z.eqb_eq in Ed as ->. apply H2. apply IH. simpl in Hn. lia.
    + apply H3; [done..|]. apply IH. lia.
  - destruct (instr symbols c) eqn:Es; [apply H3; [done..|apply IH; lia]|]. apply H4; [by unfold wordc; rewrite Ew, Es|]. apply IH. lia.
Qed.
Lemma lex_ok w t : Forall tok_ok (lex w t) ∧ (length (lex w t) ≤ length w + length t)%nat.
Proof.
  apply (lex_ind (λ w t ts, Forall tok_ok ts ∧ (length ts ≤ length w + length t)%nat)) with (n := length t); [..|done]; clear; simpl.
  - intros w. split; [apply flush_ok|]. pose proof (flush_length w). lia.
  - intros w c t _ [Ht Hl]. split; [apply Forall_app; split; [apply flush_ok|done]|]. rewrite length_app. pose proof (flush_length w). lia.
  - intros w t [Ht Hl]. split; [apply Forall_app; split; [apply flush_ok|by constructor]|]. rewrite length_app. pose proof (flush_length w). simpl. lia.
  - intros w c t _ Hc [Ht Hl]. split; [apply Forall_app; split; [apply flush_ok|by constructor]|]. rewrite length_app. pose proof (flush_length w). simpl. lia.
  - intros w c t _ [Ht Hl]. rewrite length_app in Hl. simpl in Hl. split; [done|lia].
Qed.
(** A word ends where a character is not one of a word. *)
Lemma lex_flush w t : match t with [] => True | c :: _ => wordc c = false end → lex w t = flush w ++ lex [] t.
Proof.
  destruct t as [|c t]; simpl; [by rewrite app_nil_r|]. unfold wordc. destruct (instr whitespace c) eqn:Ew; simpl; [done|].
  destruct (c =? GT) eqn:Eg; [destruct t as [|d t]; [done|by destruct (d =? GT)]|]. by destruct (instr symbols c).
Qed.

(** ** Positions in a line *)

Section line.
Context (text rest : list Z) (Hnul : 0 ∉ text).
Local Notation b := (text ++ 0 :: rest).
Local Notation es := (length text).

Lemma ch_text s : (s < es)%nat → ∃ c, ch b s = c ∧ c ≠ 0 ∧ text !! s = Some c ∧ drop s text = c :: drop (S s) text.
Proof using Hnul.
  intros Hs. destruct (lookup_lt_is_Some_2 text s Hs) as [c Hc]. exists c. unfold ch. rewrite app_nth1 by done. rewrite (nth_lookup_Some _ _ _ _ Hc).
  split; [done|]. split; [|split; [done|by apply drop_S]]. intros ->. apply Hnul. by eapply list_elem_of_lookup_2.
Qed.
Lemma ch_end : ch b es = 0.
Proof. unfold ch. rewrite app_nth2, Nat.sub_diag by lia. done. Qed.

(** [at_tok s ts]: the tokens from [s] on. *)
Definition at_tok (s : nat) (ts : list token) : Prop := (s ≤ es)%nat ∧ lex [] (drop s text) = ts.

Lemma at_tok_ok s ts : at_tok s ts → Forall tok_ok ts ∧ (length ts ≤ es - s)%nat.
Proof. intros [Hs <-]. destruct (lex_ok [] (drop s text)) as [H1 H2]. split; [done|]. len. Qed.

Lemma skip_while_spec p n s : (s + n = es)%nat →
  ∃ k, skip_while b p n s = (s + k)%nat ∧ (s + k ≤ es)%nat ∧ Forall (λ c, p c = true) (take k (drop s text)) ∧
    ((s + k)%nat = es ∨ (s + k < es)%nat ∧ p (ch b (s + k)) = false).
Proof using Hnul.
  revert s. induction n as [|n IH]; intros s Hn.
  - exists 0%nat. rewrite Nat.add_0_r. split; [done|]. split; [lia|]. split; [constructor|left; lia].
  - cbn [skip_while]. destruct (ch_text s) as (c & Ec & _ & _ & Ed); [lia|]. rewrite Ec. destruct (p c) eqn:Ep.
    + destruct (IH (S s)) as (k & E & Hk & Hf & Hend); [lia|]. exists (S k). rewrite E, <- Nat.add_succ_comm. split; [done|]. split; [done|].
      split; [|done]. rewrite Ed. simpl. by constructor.
    + exists 0%nat. rewrite Nat.add_0_r. split; [done|]. split; [lia|]. split; [constructor|]. right. split; [lia|by rewrite Ec].
Qed.

Lemma lex_spaces l t : Forall (λ c, instr whitespace c = true) l → lex [] (l ++ t) = lex [] t.
Proof. induction 1 as [|c l Hc Hl IH]; [done|]. simpl. by rewrite Hc. Qed.
Lemma lex_word w l t : Forall (λ c, wordc c = true) l → lex w (l ++ t) = lex (w ++ l) t.
Proof.
  intros Hl. revert w. induction Hl as [|c l Hc Hl IH]; intros w; simpl; [by rewrite app_nil_r|].
  unfold wordc in Hc. apply andb_true_iff in Hc as [Hw Hs]. apply negb_true_iff in Hw, Hs. rewrite Hw. destruct (c =? GT) eqn:Eg; [apply Z.eqb_eq in Eg as ->; done|].
  rewrite Hs, IH, <- app_assoc. done.
Qed.

Lemma skip_space_at s ts : at_tok s ts →
  at_tok (skip_space b es s) ts ∧ (skip_space b es s = es ∨ (skip_space b es s < es)%nat ∧ instr whitespace (ch b (skip_space b es s)) = false).
Proof using Hnul.
  intros [Hs <-]. unfold skip_space. destruct (skip_while_spec (instr whitespace) (es - s) s) as (k & -> & Hk & Hf & Hend); [lia|]. split; [|done].
  split; [done|]. rewrite <- (take_drop k (drop s text)), lex_spaces by done. by rewrite drop_drop.
Qed.

(** [w] is the word [x] of the line. *)
Definition is_span (w : span) (x : list Z) : Prop :=
  (w.1 < w.2)%nat ∧ (w.2 ≤ es)%nat ∧ x = take (w.2 - w.1) (drop w.1 text) ∧ Forall (λ c, wordc c = true) x ∧
  (w.2 = es ∨ (w.2 < es)%nat ∧ wordc (ch b w.2) = false).

Lemma first_token s ts : at_tok s ts → s = es ∨ (s < es)%nat ∧ instr whitespace (ch b s) = false →
  (ts = [] ∧ s = es ∧ ch b s = 0) ∨
  (∃ ts', ts = TAppend :: ts' ∧ ch b s = GT ∧ ch b (S s) = GT ∧ at_tok (S (S s)) ts') ∨
  (∃ c ts', ts = TSym c :: ts' ∧ ch b s = c ∧ instr symbols c = true ∧ (c = GT → ch b (S s) ≠ GT) ∧ at_tok (S s) ts') ∨
  (∃ x ts', ts = TWord x :: ts' ∧ ch b s ≠ 0 ∧ wordc (ch b s) = true ∧ is_span (s, skip_word b es s) x ∧ at_tok (skip_word b es s) ts').
Proof using Hnul.
  intros [Hs <-] [->|[Hlt Hw]]; [left; rewrite drop_ge by done; split; [done|]; split; [done|apply ch_end]|]. right.
  destruct (ch_text s Hlt) as (c & Ec & Hc & Hl & Ed). rewrite Ec in *. destruct (instr symbols c) eqn:Es.
  - destruct (decide (c = GT ∧ (S s < es)%nat ∧ ch b (S s) = GT)) as [(-> & Hlt2 & E2)|Hn].
    + left. destruct (ch_text (S s) Hlt2) as (d & Ed2 & _ & _ & Ed3). rewrite E2 in Ed2. subst d. exists (lex [] (drop (S (S s)) text)).
      rewrite Ed, Ed3. split_and!; done.
    + right; left. exists c, (lex [] (drop (S s) text)). rewrite Ed. split_and!; try done; try lia.
      * simpl. rewrite Hw. destruct (c =? GT) eqn:Eg; [|by rewrite Es]. apply Z.eqb_eq in Eg as ->.
        destruct (drop (S s) text) as [|d t] eqn:Et; [done|]. destruct (d =? GT) eqn:Edg; [|done]. exfalso. apply Hn. apply Z.eqb_eq in Edg as ->.
        assert (S s < es)%nat as Hlt2 by (apply (f_equal length) in Et; revert Et; len). destruct (ch_text (S s) Hlt2) as (d & Ed2 & _ & _ & Ed3).
        rewrite Et in Ed3. injection Ed3 as <- _. done.
      * intros -> E. destruct (decide (S s < es)%nat) as [Hlt2|Hge]; [naive_solver|]. replace (S s) with es in E by lia. rewrite ch_end in E. done.
  - right; right. assert (wordc c = true) as Hwc by (unfold wordc; by rewrite Hw, Es). unfold skip_word.
    destruct (skip_while_spec wordc (es - s) s) as (k & E & Hk & Hf & Hend); [lia|]. change (λ c, negb (instr whitespace c) && negb (instr symbols c)) with wordc.
    rewrite E. assert (0 < k)%nat as Hk0. { destruct k; [|lia]. rewrite Nat.add_0_r, Ec in Hend. destruct Hend as [?|[_ ?]]; [lia|congruence]. }
    exists (take k (drop s text)), (lex [] (drop (s + k) text)). split_and!; try done; try (simpl; lia).
    + rewrite <- (take_drop k (drop s text)) at 1. rewrite lex_word by done. simpl. rewrite drop_drop, lex_flush.
      * rewrite Ed. destruct k; [lia|]. done.
      * destruct Hend as [He|[Hl2 He]]; [by rewrite He, drop_ge|]. destruct (ch_text (s + k) Hl2) as (d & Ed2 & _ & _ & ->). by rewrite <- Ed2.
    + split_and!; simpl; try done; try lia. f_equal. lia.
Qed.

Lemma peek_run toks pid s ts : forallb (instr symbols) toks = true → at_tok s ts →
  ∃ s', peek b es toks pid s = Ret (head_in toks ts) s' ∧ at_tok s' ts ∧ (ts = [] → s' = es).
Proof using Hnul.
  intros Ht0 [Hat Hst]%skip_space_at. assert (∀ c, instr toks c = true → instr symbols c = true) as Ht.
  { intros c Hc%instr_in. rewrite forallb_forall in Ht0. apply Ht0. by apply list_elem_of_In. }
  exists (skip_space b es s). unfold peek. rewrite (bind_Ret get _ pid s s s eq_refl). split; [|split; [done|]].
  - change (Ret (negb (ch b (skip_space b es s) =? 0) && instr toks (ch b (skip_space b es s))) (skip_space b es s) = Ret (head_in toks ts) (skip_space b es s)).
    f_equal. destruct (first_token _ _ Hat Hst) as [(-> & _ & ->)|[(ts' & -> & -> & _)|[(c & ts' & -> & -> & Hc & _)|(x & ts' & -> & Hz & Hwc & _)]]]; [done|done| |].
    + simpl. destruct (c =? 0) eqn:E; [apply Z.eqb_eq in E as ->; done|done].
    + simpl. apply Z.eqb_neq in Hz. rewrite Hz. simpl. destruct (instr toks _) eqn:E; [|done]. apply Ht in E. unfold wordc in Hwc. rewrite E, andb_false_r in Hwc. done.
  - intros ->. destruct (first_token _ _ Hat Hst) as [(_ & -> & _)|[(? & [=] & _)|[(? & ? & [=] & _)|(? & ? & [=] & _)]]]. done.
Qed.

Lemma gettoken_nil pid s : at_tok s [] → ∃ w, gettoken b es pid s = Ret (0, w) es.
Proof using Hnul.
  intros [Hat Hst]%skip_space_at. destruct (first_token _ _ Hat Hst) as [(_ & E & Ez)|[(? & [=] & _)|[(? & ? & [=] & _)|(? & ? & [=] & _)]]].
  exists (es, es). unfold gettoken. rewrite (bind_Ret get _ pid s s s eq_refl), Ez. simpl. unfold mbind, M_bind, modify. rewrite E.
  unfold skip_space. rewrite Nat.sub_diag. done.
Qed.

Lemma gettoken_run pid s t ts : at_tok s (t :: ts) →
  ∃ w s', gettoken b es pid s = Ret (code t, w) s' ∧ at_tok s' ts ∧ ∀ x, t = TWord x → is_span w x.
Proof using Hnul.
  intros [Hat Hst]%skip_space_at. set (q := skip_space b es s) in *.
  assert (∀ s1, at_tok s1 ts → at_tok (skip_space b es s1) ts) as Hsk by (intros s1 H1; by apply skip_space_at).
  assert (∀ (r : Z) s1, (modify (λ _, skip_space b es s1) ;; mret (r, (q, s1))) pid s = Ret (r, (q, s1)) (skip_space b es s1)) as Hend by done.
  unfold gettoken. rewrite (bind_Ret get _ pid s s s eq_refl). fold q.
  destruct (first_token _ _ Hat Hst) as [([=] & _)|[(ts' & [= -> ->] & Ec & E2 & H2)|[(c & ts' & [= -> ->] & Ec & Hc & Hgt & H2)|(x & ts' & [= -> ->] & Hz & Hwc & Hsp & H2)]]].
  - rewrite Ec, E2. simpl. exists (q, S (S q)), (skip_space b es (S (S q))). split; [apply Hend|]. split; [auto|done].
  - rewrite Ec. exists (q, S q), (skip_space b es (S q)). split; [|split; [auto|done]].
    destruct (symbol_cases c Hc) as [->|[->|[->|[->|[->|[->| ->]]]]]]; try apply Hend. simpl.
    specialize (Hgt eq_refl). apply Z.eqb_neq in Hgt. rewrite Hgt. apply Hend.
  - apply Z.eqb_neq in Hz. rewrite Hz. assert (∀ l, (∀ c, c ∈ l → c ∈ symbols) → instr l (ch b q) = false) as Hno.
    { intros l Hl. destruct (instr l _) eqn:E; [|done]. apply instr_in, Hl, instr_in in E. unfold wordc in Hwc. by rewrite E, andb_false_r in Hwc. }
    rewrite (Hno [BAR; LPAREN; RPAREN; SEMI; AMP; LT]) by (unfold BAR, LPAREN, RPAREN, SEMI, AMP, LT, symbols; set_solver).
    destruct (ch b q =? GT) eqn:Eg. { apply Z.eqb_eq in Eg. specialize (Hno [GT]). rewrite Eg in Hno. discriminate Hno. unfold GT, symbols. set_solver. }
    exists (q, skip_word b es q), (skip_space b es (skip_word b es q)). split; [apply Hend|]. split; [auto|]. by intros ? [= <-].
Qed.

(** The command [c] stands for [a] in the line. *)
Fixpoint means (c : cmd) (a : ast) : Prop :=
  match c, a with
  | EXEC argv, AExec ws => Forall2 is_span argv ws
  | REDIR c f m d, ARedir a w m' d' => means c a ∧ is_span f w ∧ m = m' ∧ d = d'
  | PIPE l r, APipe a1 a2 => means l a1 ∧ means r a2
  | LIST l r, AList a1 a2 => means l a1 ∧ means r a2
  | BACK c, ABack a => means c a
  | _, _ => False
  end.

Lemma means_around c a r : means c (around a r) ↔ ∃ c' f, c = REDIR c' f r.2.1 r.2.2 ∧ means c' a ∧ is_span f r.1.
Proof. split; [destruct c; simpl; naive_solver|]. intros (c' & f & -> & H1 & H2). simpl. naive_solver. Qed.
Lemma means_add ret ws rs w x :
  means ret (foldl around (AExec ws) rs) → is_span w x → means (add_arg ret w) (foldl around (AExec (ws ++ [x])) rs).
Proof.
  intros H Hw. revert ret H. induction rs as [|r rs IH] using rev_ind; intros ret; simpl.
  - destruct ret; simpl; try done. intros. apply Forall2_app; [done|by constructor].
  - rewrite !foldl_app. simpl. rewrite !means_around. intros (c' & f & -> & H1 & H2). exists (add_arg c' w), f. auto.
Qed.

(** ** [nulterminate] *)

Fixpoint ends (c : cmd) : list nat :=
  match c with
  | EXEC argv => map snd argv
  | REDIR c f _ _ => ends c ++ [f.2]
  | PIPE l r | LIST l r => ends l ++ ends r
  | BACK c => ends c
  end.
Definition zeros (es : list nat) (b : list Z) : list Z := foldl (λ b e, <[e := 0]> b) b es.
Lemma nulterminate_zeros c l : nulterminate c l = zeros (ends c) l.
Proof.
  revert l. unfold zeros. induction c as [argv|c IH f m d|l1 IH1 l2 IH2|l1 IH1 l2 IH2|c IH]; intros l; simpl.
  - revert l. induction argv as [|w argv IH]; intros l; simpl; [done|]. apply IH.
  - rewrite foldl_app. simpl. by rewrite IH.
  - by rewrite foldl_app, <- IH1, <- IH2.
  - by rewrite foldl_app, <- IH1, <- IH2.
  - apply IH.
Qed.
Lemma zeros_lookup l b' i : (i < length b')%nat → zeros l b' !! i = if decide (i ∈ l) then Some 0 else b' !! i.
Proof.
  clear Hnul rest text. unfold zeros. revert b'. induction l as [|e l IH]; intros b' Hi; [by rewrite decide_False by (by intros ?%elem_of_nil)|]. cbn [foldl].
  rewrite IH by (by rewrite length_insert). destruct (decide (i ∈ l)) as [H1|H1]; [rewrite decide_True by set_solver; done|].
  destruct (decide (i = e)) as [->|Hne]; [rewrite decide_True by set_solver; by apply list_lookup_insert_eq|].
  rewrite decide_False by set_solver. by apply list_lookup_insert_ne.
Qed.
Lemma zeros_length l b' : length (zeros l b') = length b'.
Proof. unfold zeros. revert b'. induction l as [|e l IH]; intros b'; simpl; [done|]. by rewrite IH, length_insert. Qed.

Definition stop (e : nat) : Prop := e = es ∨ (e < es)%nat ∧ wordc (ch b e) = false.
Lemma means_ends c a : means c a → Forall stop (ends c).
Proof.
  revert a. induction c as [argv|c IH f m d|l1 IH1 l2 IH2|l1 IH1 l2 IH2|c IH]; intros [ws|a w m' d'|a1 a2|a1 a2|a]; simpl; try done.
  - induction 1 as [|w x argv ws (_ & _ & _ & _ & Hw) _ IH]; simpl; by constructor.
  - intros (H1 & (_ & _ & _ & _ & Hw) & _). apply Forall_app. split; [eauto|by apply Forall_singleton].
  - intros [H1 H2]. apply Forall_app. eauto.
  - intros [H1 H2]. apply Forall_app. eauto.
  - apply IH.
Qed.

Lemma string_at_word x l : Forall (λ c, wordc c = true) x → 0 ∉ x → string_at (x ++ 0 :: l) = x.
Proof.
  clear Hnul rest text. induction 1 as [|c x Hc Hx IH]; intros H0; simpl; [done|]. rewrite (proj2 (Z.eqb_neq c 0)) by set_solver. f_equal. apply IH. set_solver.
Qed.
Lemma word_zeros l w x : Forall stop l → w.2 ∈ l → is_span w x → word_at (zeros l b) w = x.
Proof using Hnul.
  intros Hl Hin (H1 & H2 & -> & Hw & _). set (x := take (w.2 - w.1) (drop w.1 text)) in *. rewrite Forall_forall in Hl.
  assert (length x = w.2 - w.1)%nat as Hlen by (unfold x; len).
  assert (zeros l b = take w.1 (zeros l b) ++ x ++ 0 :: drop (S w.2) (zeros l b)) as E.
  { apply list_eq. intros i. assert (length (zeros l b) = S (es + length rest)) as Hz by (rewrite zeros_length; len).
    destruct (decide (i < w.1)%nat) as [Hi|Hi]; [rewrite lookup_app_l by len; by rewrite lookup_take_lt by lia|].
    rewrite lookup_app_r by len. rewrite length_take, Nat.min_l by lia. destruct (decide (i < w.2)%nat) as [Hi2|Hi2].
    - rewrite lookup_app_l by lia. rewrite zeros_lookup by len. unfold x. rewrite lookup_take_lt by lia. rewrite lookup_drop, Nat.add_comm, Nat.sub_add by lia.
      rewrite decide_False; [by rewrite lookup_app_l by lia|]. intros [->|[Hlt Hwc]]%Hl; [lia|].
      assert (x !! (i - w.1)%nat = text !! i) as Ex by (unfold x; rewrite lookup_take_lt by lia; rewrite lookup_drop; f_equal; lia).
      destruct (ch_text i Hlt) as (c & Ec & _ & Et & _). rewrite Et in Ex. apply (Forall_lookup_1 _ _ _ _ Hw) in Ex. congruence.
    - rewrite lookup_app_r by lia. rewrite Hlen. destruct (decide (i = w.2)) as [->|Hne].
      + rewrite Nat.sub_diag. simpl. rewrite zeros_lookup by len. by rewrite decide_True.
      + replace (i - w.1 - (w.2 - w.1))%nat with (S (i - S w.2))%nat by lia. simpl. rewrite lookup_drop. f_equal. lia. }
  unfold word_at. rewrite E, drop_app_length' by (rewrite length_take, zeros_length; len). apply string_at_word; [done|].
  intros Hx. apply Hnul. unfold x in Hx. eapply elem_of_sublist; [exact Hx|]. etrans; [apply sublist_take|apply sublist_drop].
Qed.

Lemma meaning_means c a l : means c a → Forall stop l → (∀ e, e ∈ ends c → e ∈ l) → meaning (zeros l b) c = a.
Proof using Hnul.
  intros Hm Hl. revert a Hm. induction c as [argv|c IH f m d|l1 IH1 l2 IH2|l1 IH1 l2 IH2|c IH]; intros [ws|a w m' d'|a1 a2|a1 a2|a]; simpl; try done.
  - intros Hws Hin. f_equal. revert Hin. induction Hws as [|w x argv ws Hw _ IHw]; intros Hin; simpl; [done|]. simpl in Hin.
    f_equal; [apply word_zeros; set_solver|apply IHw; set_solver].
  - intros (H1 & H2 & -> & ->) Hin. f_equal; [apply IH; set_solver|apply word_zeros; set_solver].
  - intros [H1 H2] Hin. f_equal; [apply IH1|apply IH2]; set_solver.
  - intros [H1 H2] Hin. f_equal; [apply IH1|apply IH2]; set_solver.
  - intros H1 Hin. f_equal. by apply IH.
Qed.
Lemma nulterminate_means c a : means c a → meaning (nulterminate c b) c = a.
Proof using Hnul. intros H. rewrite nulterminate_zeros. by apply meaning_means; [|eapply means_ends|]. Qed.

(** ** The parser and the grammar *)

Lemma code_word t : tok_ok t → code t = TOKWORD → ∃ x, t = TWord x.
Proof.
  destruct t as [c| |x]; simpl; [|done|eauto]. intros Hc ->. done.
Qed.
Lemma code_nonzero t : tok_ok t → code t =? 0 = false.
Proof. destruct t as [c| |x]; simpl; [|done..]. intros Hc. apply Z.eqb_neq. by intros ->. Qed.

Lemma head_redir ts : Forall tok_ok ts → head_in [LT; GT] ts = true →
  ∃ t ts' k, ts = t :: ts' ∧ redir_tok t k ∧ ∀ c f, redirect (code t) c f = REDIR c f k.1 k.2.
Proof.
  intros Hok. destruct ts as [|[c| |x] ts]; simpl; try done.
  - rewrite instr_in. intros [->|[->|[]%elem_of_nil]%elem_of_cons]%elem_of_cons.
    + exists (TSym LT), ts, (ORDONLY, 0). split; [done|]. split; [constructor|done].
    + exists (TSym GT), ts, (OWRONLY_OCREATE, 1). split; [done|]. split; [constructor|done].
  - intros _. exists TAppend, ts, (OWRONLY_OCREATE, 1). split; [done|]. split; [constructor|done].
Qed.
Lemma redir_head t k ts : redir_tok t k → head_in [LT; GT] (t :: ts) = true ∧ ∀ c f, redirect (code t) c f = REDIR c f k.1 k.2.
Proof. by destruct 1. Qed.
Lemma g_args_app ts1 ws1 rs1 ts2 ws2 rs2 : g_args ts1 ws1 rs1 → g_args ts2 ws2 rs2 → g_args (ts1 ++ ts2) (ws1 ++ ws2) (rs1 ++ rs2).
Proof. intros H1 H2. induction H1; simpl; [done|by constructor|by constructor]. Qed.
Lemma means_redir c a f x k : means c a → is_span f x → means (REDIR c f k.1 k.2) (around a (x, k)).
Proof. intros H1 H2. by apply means_around; exists c, f. Qed.

Definition panics {A} (m : M nat A) (pid : Z) (s : nat) : Prop := ∃ msg s', m pid s = Panicked msg s'.

Lemma redirs_sound pid : ∀ fuel s ts c a, (length ts < fuel)%nat → at_tok s ts → means c a →
  panics (parseredirs b es fuel c) pid s ∨
  ∃ c' s' ts1 ts2 rs, parseredirs b es fuel c pid s = Ret c' s' ∧ ts = ts1 ++ ts2 ∧ at_tok s' ts2 ∧ g_args ts1 [] rs ∧ means c' (foldl around a rs).
Proof using Hnul.
  induction fuel as [|fuel IH]; intros s ts c a Hf Hat Hm; [lia|]. unfold panics. cbn [parseredirs].
  destruct (peek_run [LT; GT] pid s ts eq_refl Hat) as (s1 & E1 & Hat1 & _). mrun E1. destruct (head_in [LT; GT] ts) eqn:Eh.
  - destruct (head_redir ts (proj1 (at_tok_ok _ _ Hat)) Eh) as (t & ts' & k & -> & Hk & Hred).
    destruct (gettoken_run pid s1 t ts' Hat1) as (w & s2 & E2 & Hat2 & _). mrun E2. simpl in Hf.
    destruct ts' as [|t2 ts']. { destruct (gettoken_nil pid s2 Hat2) as [w2 E3]. mrun E3. left. by eexists _, _. }
    destruct (gettoken_run pid s2 t2 ts' Hat2) as (f & s3 & E3 & Hat3 & Hsp). mrun E3. cbn [fst snd].
    destruct (code t2 =? TOKWORD) eqn:Ew; [|left; by eexists _, _]. cbn [negb]. apply Z.eqb_eq, code_word in Ew as [x ->].
    2: { destruct (at_tok_ok _ _ Hat2) as [Hok _]. by inversion Hok. }
    rewrite Hred. destruct (IH s3 ts' (REDIR c f k.1 k.2) (around a (x, k))) as [Hp|(c' & s' & ts1 & ts2 & rs & E & -> & Hat' & Hg & Hm')].
    + simpl in Hf. lia.
    + done.
    + apply means_redir; auto.
    + by left.
    + right. exists c', s', (t :: TWord x :: ts1), ts2, ((x, k) :: rs). split_and!; try done. by constructor.
  - right. exists c, s1, [], ts, []. split_and!; try done. constructor.
Qed.

Lemma redirs_complete pid ts1 rs : g_args ts1 [] rs → ∀ fuel s ts2 c a, (length (ts1 ++ ts2) < fuel)%nat → at_tok s (ts1 ++ ts2) →
  head_in [LT; GT] ts2 = false → means c a →
  ∃ c' s', parseredirs b es fuel c pid s = Ret c' s' ∧ at_tok s' ts2 ∧ means c' (foldl around a rs).
Proof using Hnul.
  intros Hg. remember [] as ws eqn:Ews. induction Hg as [|w ts ws rs Hg _|t w k ts ws rs Hk Hg IH]; [|done|]; intros [|fuel] s ts2 c a Hf Hat Hh Hm; try lia; cbn [parseredirs app] in *.
  - destruct (peek_run [LT; GT] pid s ts2 eq_refl Hat) as (s1 & E1 & Hat1 & _). mrun E1. rewrite Hh. exists c, s1. done.
  - destruct (redir_head t k (TWord w :: ts ++ ts2) Hk) as [Hh1 Hred]. destruct (peek_run [LT; GT] pid s _ eq_refl Hat) as (s1 & E1 & Hat1 & _). mrun E1. rewrite Hh1.
    destruct (gettoken_run pid s1 _ _ Hat1) as (w1 & s2 & E2 & Hat2 & _). mrun E2.
    destruct (gettoken_run pid s2 _ _ Hat2) as (f & s3 & E3 & Hat3 & Hsp). mrun E3. cbn [fst snd code]. rewrite Z.eqb_refl. cbn [negb]. rewrite Hred.
    apply (IH Ews fuel s3 ts2 _ (around a (w, k))); [simpl in Hf; lia|done|done|]. apply means_redir; auto.
Qed.

Lemma args_sound pid : ∀ fuel s ts ret ws0 rs0, (length ts < fuel)%nat → at_tok s ts →
  means ret (foldl around (AExec ws0) rs0) → (length ws0 < MAXARGS)%nat →
  panics (parseexec_loop b es fuel (length ws0) ret) pid s ∨
  ∃ c' s' ts1 ts2 ws rs, parseexec_loop b es fuel (length ws0) ret pid s = Ret c' s' ∧ ts = ts1 ++ ts2 ∧ at_tok s' ts2 ∧
    g_args ts1 ws rs ∧ means c' (foldl around (AExec (ws0 ++ ws)) (rs0 ++ rs)) ∧ (length (ws0 ++ ws) < MAXARGS)%nat.
Proof using Hnul.
  induction fuel as [|fuel IH]; intros s ts ret ws0 rs0 Hf Hat Hm Hl; [lia|]. cbn [parseexec_loop]. unfold panics.
  assert (∀ s', at_tok s' ts → ∃ c' s'0 ts1 ts2 ws rs, Ret ret s' = Ret (S := nat) c' s'0 ∧ ts = ts1 ++ ts2 ∧ at_tok s'0 ts2 ∧
    g_args ts1 ws rs ∧ means c' (foldl around (AExec (ws0 ++ ws)) (rs0 ++ rs)) ∧ (length (ws0 ++ ws) < MAXARGS)%nat) as Hdone.
  { intros s' Hs'. exists ret, s', [], ts, [], []. rewrite !app_nil_r. split_and!; try done. constructor. }
  destruct (peek_run [BAR; RPAREN; AMP; SEMI] pid s ts eq_refl Hat) as (s1 & E1 & Hat1 & _). mrun E1.
  destruct (head_in _ ts) eqn:Eh; [right; by apply Hdone|]. destruct ts as [|t ts].
  { destruct (gettoken_nil pid s1 Hat1) as [w E2]. mrun E2. cbn [fst]. rewrite Z.eqb_refl. right. apply Hdone. split; [done|]. by rewrite drop_ge. }
  destruct (gettoken_run pid s1 t ts Hat1) as (w & s2 & E2 & Hat2 & Hsp). mrun E2. cbn [fst snd].
  destruct (at_tok_ok _ _ Hat) as [Hok _]. apply Forall_cons in Hok as [Ht Hok]. rewrite (code_nonzero t Ht).
  destruct (code t =? TOKWORD) eqn:Ew; [|left; by eexists _, _]. cbn [negb]. apply Z.eqb_eq, code_word in Ew as [x ->]; [|done].
  case_bool_decide as Hmax; [left; by eexists _, _|]. specialize (Hsp x eq_refl). simpl in Hf.
  destruct (redirs_sound pid fuel s2 ts (add_arg ret w) (foldl around (AExec (ws0 ++ [x])) rs0)) as [(msg & s' & E)|(c' & s' & ts1 & ts2 & rs & E & -> & Hat' & Hg & Hm')].
  - lia.
  - done.
  - by apply means_add.
  - left. rewrite (bind_Panicked _ _ _ _ _ _ E). by eexists _, _.
  - mrun E. rewrite <- foldl_app in Hm'. replace (S (length ws0)) with (length (ws0 ++ [x])) by len.
    destruct (IH s' ts2 c' (ws0 ++ [x]) (rs0 ++ rs)) as [Hp|(c2 & s3 & ts3 & ts4 & ws & rs2 & E3 & -> & Hat3 & Hg3 & Hm3 & Hl3)]; [len|done|done|len|by left|].
    right. exists c2, s3, (TWord x :: ts1 ++ ts3), ts4, (x :: ws), (rs ++ rs2). rewrite <- (app_assoc ws0), <- (app_assoc rs0) in Hm3. rewrite <- app_assoc in Hl3. split_and!; try done.
    + simpl. by rewrite app_assoc.
    + constructor. by apply (g_args_app ts1 [] rs).
Qed.

Lemma g_args_split ts ws rs : g_args ts ws rs → ∃ tsr rsr ts' rs', ts = tsr ++ ts' ∧ rs = rsr ++ rs' ∧ g_args tsr [] rsr ∧ g_args ts' ws rs' ∧
  (ts' = [] ∨ ∃ w ts'', ts' = TWord w :: ts'').
Proof.
  induction 1 as [|w ts ws rs Hg _|t w k ts ws rs Hk Hg (tsr & rsr & ts' & rs' & -> & -> & H1 & H2 & H3)].
  - exists [], [], [], []. split_and!; [done|done|constructor|constructor|by left].
  - exists [], [], (TWord w :: ts), rs. split_and!; [done|done|constructor|by constructor|right; by eexists _, _].
  - exists (t :: TWord w :: tsr), ((w, k) :: rsr), ts', rs'. split_and!; try done. by constructor.
Qed.

(** What may follow a command. *)
Definition followed (l : list Z) (ts : list token) : Prop := ts = [] ∨ head_in l ts = true.
Notation follows := (followed [BAR; RPAREN; AMP; SEMI]).
Lemma follows_redir ts' ts : ts' = [] ∨ (∃ w ts'', ts' = TWord w :: ts'') → follows ts → head_in [LT; GT] (ts' ++ ts) = false.
Proof.
  intros [->|(w & ts'' & ->)] [->|Hh]; try done. destruct ts as [|[c| |x] ts]; try done. simpl in *. destruct (instr [LT; GT] c) eqn:E; [|done].
  apply instr_in in E, Hh. revert E Hh. rewrite !elem_of_cons, !elem_of_nil. unfold LT, GT, BAR, RPAREN, AMP, SEMI. lia.
Qed.

Lemma args_complete pid : ∀ ws ts1 rs fuel s ts2 ret ws0 rs0, g_args ts1 ws rs → (ts1 = [] ∨ ∃ w ts', ts1 = TWord w :: ts') →
  follows ts2 → (length (ts1 ++ ts2) < fuel)%nat → at_tok s (ts1 ++ ts2) →
  means ret (foldl around (AExec ws0) rs0) → (length (ws0 ++ ws) < MAXARGS)%nat →
  ∃ c' s', parseexec_loop b es fuel (length ws0) ret pid s = Ret c' s' ∧ at_tok s' ts2 ∧ means c' (foldl around (AExec (ws0 ++ ws)) (rs0 ++ rs)).
Proof using Hnul.
  induction ws as [|w0 ws IH]; intros ts1 rs [|fuel] s ts2 ret ws0 rs0 Hg Hs Hfo Hf Hat Hm Hl; try lia; cbn [parseexec_loop].
  all: destruct (peek_run [BAR; RPAREN; AMP; SEMI] pid s _ eq_refl Hat) as (s1 & E1 & Hat1 & _); mrun E1.
  - destruct Hs as [->|(w & ts' & ->)]; [|inversion Hg; by match goal with H : redir_tok _ _ |- _ => inversion H end]. inversion Hg; subst. simpl in *. rewrite !app_nil_r. destruct Hfo as [->|Hh].
    + destruct (gettoken_nil pid s1 Hat1) as [w E2]. simpl. mrun E2. simpl. eexists _, _. split; [done|]. split; [|done]. split; [done|]. by rewrite drop_ge.
    + rewrite Hh. by exists ret, s1.
  - destruct Hs as [->|(w & ts' & ->)]; [by inversion Hg|]. inversion Hg; subst; clear Hg; [|match goal with H : redir_tok _ _ |- _ => inversion H end].
    cbn [app head_in] in *. destruct (gettoken_run pid s1 _ _ Hat1) as (w & s2 & E2 & Hat2 & Hsp). mrun E2. cbn [fst snd code]. specialize (Hsp w0 eq_refl).
    change (TOKWORD =? 0) with false. rewrite Z.eqb_refl. cbn [negb]. rewrite bool_decide_false by len.
    match goal with H : g_args _ _ _ |- _ => destruct (g_args_split _ _ _ H) as (tsr & rsr & ts & rs' & -> & -> & Hg1 & Hg2 & Hs2) end.
    simpl in Hf. rewrite !length_app in Hf.
    destruct (redirs_complete pid tsr rsr Hg1 fuel s2 (ts ++ ts2) (add_arg ret w) (foldl around (AExec (ws0 ++ [w0])) rs0)) as (c' & s' & E & Hat' & Hm').
    + len.
    + by rewrite app_assoc.
    + by apply follows_redir.
    + by apply means_add.
    + mrun E. rewrite <- foldl_app in Hm'. replace (S (length ws0)) with (length (ws0 ++ [w0])) by len.
      destruct (IH ts rs' fuel s' ts2 c' (ws0 ++ [w0]) (rs0 ++ rsr)) as (c2 & s3 & E3 & Hat3 & Hm3); [done|done|done|len|done|done|len|].
      exists c2, s3. rewrite <- (app_assoc ws0), <- (app_assoc rs0) in Hm3. done.
Qed.

Lemma followed_not l c ts : followed l ts → c ≠ GT → c ∉ l → head_in [c] ts = false.
Proof.
  intros [->|Hh] Hgt Hc; [done|]. destruct ts as [|[d| |x] ts]; try done; simpl in *; apply instr_in in Hh.
  - destruct (instr [c] d) eqn:E; [|done]. apply instr_in, list_elem_of_singleton in E. naive_solver.
  - destruct (instr [c] GT) eqn:E; [|done]. apply instr_in, list_elem_of_singleton in E. naive_solver.
Qed.
Lemma followed_sym l c ts : c ∈ l → followed l (TSym c :: ts).
Proof. intros Hc. right. by apply instr_in. Qed.
Lemma followed_mono l l' ts : (∀ c, c ∈ l → c ∈ l') → followed l ts → followed l' ts.
Proof. intros Hl [->|Hh]; [by left|]. right. destruct ts as [|[d| |x] ts]; try done; simpl in *; apply instr_in; by apply Hl, instr_in. Qed.

Lemma sym_step pid s c ts : c ≠ GT → instr symbols c = true → at_tok s ts →
  (head_in [c] ts = false ∧ ∃ s1, peek b es [c] pid s = Ret false s1 ∧ at_tok s1 ts) ∨
  (∃ ts' s1 w s2, ts = TSym c :: ts' ∧ peek b es [c] pid s = Ret true s1 ∧ at_tok s1 ts ∧ gettoken b es pid s1 = Ret w s2 ∧ at_tok s2 ts').
Proof using Hnul.
  intros Hgt Hc Hat. destruct (peek_run [c] pid s ts) as (s1 & E1 & Hat1 & _); [simpl; by rewrite Hc|done|]. destruct (head_in [c] ts) eqn:Eh; [right|left; eauto].
  destruct ts as [|[d| |x] ts]; try done; simpl in Eh; apply instr_in, list_elem_of_singleton in Eh; [|by subst]. subst d.
  destruct (gettoken_run pid s1 _ _ Hat1) as (w & s2 & E2 & Hat2 & _). by exists ts, s1, (code (TSym c), w), s2.
Qed.

Lemma iter_back n a : Nat.iter n ABack (ABack a) = Nat.iter (S n) ABack a.
Proof. induction n as [|n IH]; [done|]. simpl in *. by rewrite IH. Qed.
Lemma back_run pid : ∀ n fuel s ts2 c a, (length (amps n ++ ts2) < fuel)%nat → at_tok s (amps n ++ ts2) → head_in [AMP] ts2 = false → means c a →
  ∃ c' s', parseback b es fuel c pid s = Ret c' s' ∧ at_tok s' ts2 ∧ means c' (Nat.iter n ABack a).
Proof using Hnul.
  induction n as [|n IH]; intros [|fuel] s ts2 c a Hf Hat Hh Hm; try lia; cbn [parseback].
  - destruct (sym_step pid s AMP ts2) as [(_ & s1 & E1 & Hat1)|(ts' & ? & ? & ? & -> & _)]; [done..| |done]. mrun E1. by exists c, s1.
  - destruct (sym_step pid s AMP _ ltac:(done) eq_refl Hat) as [[[=] _]|(ts' & s1 & w & s2 & [= <-] & E1 & Hat1 & E2 & Hat2)]. mrun E1. mrun E2.
    destruct (IH fuel s2 ts2 (BACK c) (ABack a)) as (c' & s' & E & Hat' & Hm'); [unfold amps in *; simpl in Hf; lia|done..|].
    exists c', s'. by rewrite iter_back in Hm'.
Qed.
Lemma amps_split ts : ∃ n ts2, ts = amps n ++ ts2 ∧ head_in [AMP] ts2 = false.
Proof.
  induction ts as [|t ts (n & ts2 & -> & Hh)]; [by exists 0%nat, []|]. destruct (head_in [AMP] (t :: amps n ++ ts2)) eqn:E.
  - destruct t as [c| |x]; try done. simpl in E. apply instr_in, list_elem_of_singleton in E as ->. by exists (S n), ts2.
  - by exists 0%nat, (t :: amps n ++ ts2).
Qed.

Definition parses (m : M nat cmd) (G : list token → ast → Prop) (pid : Z) (s : nat) (ts : list token) : Prop :=
  panics m pid s ∨ ∃ c s' ts1 ts2 a, m pid s = Ret c s' ∧ ts = ts1 ++ ts2 ∧ at_tok s' ts2 ∧ means c a ∧ G ts1 a.

Lemma parseline_S fuel : parseline b es (S fuel) =
  (c ← parsepipe b es fuel; c ← parseback b es fuel c; p ← peek b es [SEMI];
   if (p : bool) then gettoken b es ;; d ← parseline b es fuel; mret (LIST c d) else mret c).
Proof. reflexivity. Qed.
Lemma parsepipe_S fuel : parsepipe b es (S fuel) =
  (c ← parseexec b es fuel; p ← peek b es [BAR]; if (p : bool) then gettoken b es ;; d ← parsepipe b es fuel; mret (PIPE c d) else mret c).
Proof. reflexivity. Qed.
Lemma parseexec_S fuel : parseexec b es (S fuel) =
  (p ← peek b es [LPAREN]; if (p : bool) then parseblock b es fuel else ret ← parseredirs b es fuel (EXEC []); parseexec_loop b es fuel 0 ret).
Proof. reflexivity. Qed.
Lemma parseblock_S fuel : parseblock b es (S fuel) =
  (p ← peek b es [LPAREN]; if negb p then panic "parseblock" else gettoken b es ;; c ← parseline b es fuel; p ← peek b es [RPAREN];
   if negb p then panic "syntax - missing )" else gettoken b es ;; parseredirs b es fuel c).
Proof. reflexivity. Qed.

Section sound.
Context (pid : Z) (fuel : nat).
Context (IHline : ∀ s ts, (4 * length ts + 4 ≤ fuel)%nat → at_tok s ts → parses (parseline b es fuel) g_line pid s ts).
Context (IHpipe : ∀ s ts, (4 * length ts + 3 ≤ fuel)%nat → at_tok s ts → parses (parsepipe b es fuel) g_pipe pid s ts).
Context (IHexec : ∀ s ts, (4 * length ts + 2 ≤ fuel)%nat → at_tok s ts → parses (parseexec b es fuel) g_cmd pid s ts).
Context (IHblock : ∀ s ts, (4 * length ts + 1 ≤ fuel)%nat → at_tok s ts → parses (parseblock b es fuel) g_cmd pid s ts).

Lemma line_sound s ts : (4 * length ts + 4 ≤ S fuel)%nat → at_tok s ts → parses (parseline b es (S fuel)) g_line pid s ts.
Proof using Hnul IHline IHpipe.
  intros Hf Hat. unfold parses, panics. rewrite parseline_S. destruct (IHpipe s ts) as [(msg & s' & E)|(c & s1 & ts1 & ts2 & a & E & -> & Hat1 & Hm & Hg)]; [lia|done|..].
  { left. rewrite (bind_Panicked _ _ _ _ _ _ E). by eexists _, _. }
  mrun E. rewrite length_app in Hf. destruct (amps_split ts2) as (n & ts3 & -> & Hh).
  destruct (back_run pid n fuel s1 ts3 c a) as (c2 & s2 & E2 & Hat2 & Hm2); [lia|done..|]. mrun E2.
  destruct (sym_step pid s2 SEMI ts3) as [(_ & s3 & E3 & Hat3)|(ts4 & s3 & w & s4 & -> & E3 & Hat3 & E4 & Hat4)]; [done..| |].
  - mrun E3. right. exists c2, s3, (ts1 ++ amps n), ts3, (Nat.iter n ABack a). split_and!; try done; [by rewrite app_assoc|by constructor].
  - mrun E3. mrun E4. destruct (IHline s4 ts4) as [(msg & s' & E5)|(d & s5 & ts5 & ts6 & a2 & E5 & -> & Hat5 & Hm5 & Hg5)]; [rewrite length_app in Hf; simpl in Hf; lia|done|..].
    { left. rewrite (bind_Panicked _ _ _ _ _ _ E5). by eexists _, _. }
    mrun E5. right. exists (LIST c2 d), s5, (ts1 ++ amps n ++ TSym SEMI :: ts5), ts6, (AList (Nat.iter n ABack a) a2). split_and!; try done.
    + by rewrite <- !app_assoc.
    + by constructor.
Qed.

Lemma pipe_sound s ts : (4 * length ts + 3 ≤ S fuel)%nat → at_tok s ts → parses (parsepipe b es (S fuel)) g_pipe pid s ts.
Proof using Hnul IHpipe IHexec.
  intros Hf Hat. unfold parses, panics. rewrite parsepipe_S. destruct (IHexec s ts) as [(msg & s' & E)|(c & s1 & ts1 & ts2 & a & E & -> & Hat1 & Hm & Hg)]; [lia|done|..].
  { left. rewrite (bind_Panicked _ _ _ _ _ _ E). by eexists _, _. }
  mrun E. rewrite length_app in Hf. destruct (sym_step pid s1 BAR ts2) as [(_ & s3 & E3 & Hat3)|(ts4 & s3 & w & s4 & -> & E3 & Hat3 & E4 & Hat4)]; [done..| |].
  - mrun E3. right. exists c, s3, ts1, ts2, a. split_and!; try done. by constructor.
  - mrun E3. mrun E4. destruct (IHpipe s4 ts4) as [(msg & s' & E5)|(d & s5 & ts5 & ts6 & a2 & E5 & -> & Hat5 & Hm5 & Hg5)]; [simpl in Hf; lia|done|..].
    { left. rewrite (bind_Panicked _ _ _ _ _ _ E5). by eexists _, _. }
    mrun E5. right. exists (PIPE c d), s5, (ts1 ++ TSym BAR :: ts5), ts6, (APipe a a2). split_and!; try done; [by rewrite <- app_assoc|by constructor].
Qed.

Lemma exec_sound s ts : (4 * length ts + 2 ≤ S fuel)%nat → at_tok s ts → parses (parseexec b es (S fuel)) g_cmd pid s ts.
Proof using Hnul IHblock.
  intros Hf Hat. unfold parses, panics. rewrite parseexec_S.
  destruct (sym_step pid s LPAREN ts) as [(_ & s1 & E1 & Hat1)|(ts1 & s1 & w & s2 & -> & E1 & Hat1 & _)]; [done..| |]; mrun E1; [|apply IHblock; [lia|done]].
  destruct (redirs_sound pid fuel s1 ts (EXEC []) (AExec [])) as [(msg & s' & E)|(c' & s' & ts1 & ts2 & rs & E & -> & Hat' & Hg & Hm)]; [lia|done|constructor|..].
  { left. rewrite (bind_Panicked _ _ _ _ _ _ E). by eexists _, _. }
  mrun E. rewrite length_app in Hf. destruct (args_sound pid fuel s' ts2 c' [] rs) as [Hp|(c2 & s2 & ts3 & ts4 & ws & rs2 & E2 & -> & Hat2 & Hg2 & Hm2 & Hl)]; [lia|done|done|unfold MAXARGS; simpl; lia|by left|].
  right. exists c2, s2, (ts1 ++ ts3), ts4, (foldl around (AExec ws) (rs ++ rs2)). split_and!; try done; [by rewrite app_assoc|].
  constructor; [|done]. by apply (g_args_app ts1 []).
Qed.

Lemma block_sound s ts : (4 * length ts + 1 ≤ S fuel)%nat → at_tok s ts → parses (parseblock b es (S fuel)) g_cmd pid s ts.
Proof using Hnul IHline.
  intros Hf Hat. unfold parses, panics. rewrite parseblock_S.
  destruct (sym_step pid s LPAREN ts) as [(_ & s1 & E1 & Hat1)|(ts1 & s1 & w & s2 & -> & E1 & Hat1 & E2 & Hat2)]; [done..| |]; mrun E1; [left; by eexists _, _|].
  cbn [negb]. mrun E2. simpl in Hf. destruct (IHline s2 ts1) as [(msg & s' & E3)|(c & s3 & ts2 & ts3 & a & E3 & -> & Hat3 & Hm & Hg)]; [lia|done|..].
  { left. rewrite (bind_Panicked _ _ _ _ _ _ E3). by eexists _, _. }
  mrun E3. destruct (sym_step pid s3 RPAREN ts3) as [(_ & s4 & E4 & Hat4)|(ts4 & s4 & w4 & s5 & -> & E4 & Hat4 & E5 & Hat5)]; [done..| |]; mrun E4; [left; by eexists _, _|].
  cbn [negb]. mrun E5. rewrite length_app in Hf. simpl in Hf.
  destruct (redirs_sound pid fuel s5 ts4 c a) as [Hp|(c' & s' & ts5 & ts6 & rs & E & -> & Hat' & Hg' & Hm')]; [lia|done|done|by left|].
  right. exists c', s', (TSym LPAREN :: ts2 ++ TSym RPAREN :: ts5), ts6, (foldl around a rs). split_and!; try done; [simpl; by rewrite <- app_assoc|by constructor].
Qed.
End sound.

Lemma parse_sound pid : ∀ fuel,
  (∀ s ts, (4 * length ts + 4 ≤ fuel)%nat → at_tok s ts → parses (parseline b es fuel) g_line pid s ts) ∧
  (∀ s ts, (4 * length ts + 3 ≤ fuel)%nat → at_tok s ts → parses (parsepipe b es fuel) g_pipe pid s ts) ∧
  (∀ s ts, (4 * length ts + 2 ≤ fuel)%nat → at_tok s ts → parses (parseexec b es fuel) g_cmd pid s ts) ∧
  (∀ s ts, (4 * length ts + 1 ≤ fuel)%nat → at_tok s ts → parses (parseblock b es fuel) g_cmd pid s ts).
Proof using Hnul.
  induction fuel as [|fuel (IH1 & IH2 & IH3 & IH4)]; [split_and!; intros; lia|].
  split_and!; [by apply line_sound|by apply pipe_sound|by apply exec_sound|by apply block_sound].
Qed.

(** A parser takes the tokens [ts1] of a phrase that means [a] and leaves what
    follows. *)
Definition takes (m : nat → M nat cmd) (k : nat) (l : list Z) (pid : Z) (ts1 : list token) (a : ast) : Prop :=
  ∀ fuel s ts2, (4 * length (ts1 ++ ts2) + k ≤ fuel)%nat → at_tok s (ts1 ++ ts2) → followed l ts2 →
    ∃ c s', m fuel pid s = Ret c s' ∧ at_tok s' ts2 ∧ means c a.
Definition line_takes := takes (parseline b es) 4 [RPAREN].
Definition pipe_takes := takes (parsepipe b es) 3 [RPAREN; AMP; SEMI].
Definition cmd_takes := takes (parseexec b es) 2 [BAR; RPAREN; AMP; SEMI].

Lemma amps_followed n l ts2 : AMP ∈ l → followed l ts2 → followed l (amps n ++ ts2).
Proof. intros Hl Hf. destruct n; [done|]. by apply followed_sym. Qed.
Ltac follow := first [apply followed_sym; set_solver|eapply followed_mono; [|eassumption]; set_solver].
Ltac nofollow := eapply followed_not; [eassumption|done|]; rewrite ?elem_of_cons, ?elem_of_nil; unfold BAR, LPAREN, RPAREN, AMP, SEMI; lia.

Lemma pipe_back pid ts a n fuel s ts2 : pipe_takes pid ts a → (4 * length (ts ++ amps n ++ ts2) + 3 ≤ fuel)%nat → at_tok s (ts ++ amps n ++ ts2) →
  followed [RPAREN; SEMI] ts2 →
  ∃ c s', (c ← parsepipe b es fuel; parseback b es fuel c) pid s = Ret c s' ∧ at_tok s' ts2 ∧ means c (Nat.iter n ABack a).
Proof using Hnul.
  intros H Hf Hat Hfo. destruct (H fuel s (amps n ++ ts2) Hf Hat) as (c & s1 & E1 & Hat1 & Hm); [apply amps_followed; [set_solver|follow]|].
  mrun E1. apply back_run; [rewrite length_app in Hf; lia|done|nofollow|done].
Qed.

Lemma line_one pid ts a n : pipe_takes pid ts a → line_takes pid (ts ++ amps n) (Nat.iter n ABack a).
Proof using Hnul.
  intros H [|fuel] s ts2 Hf Hat Hfo; [lia|]. rewrite <- app_assoc in Hf, Hat. rewrite parseline_S.
  destruct (pipe_back pid ts a n fuel s ts2 H) as (c & s1 & E1 & Hat1 & Hm); [lia|done|follow|]. rewrite <- bind_assoc. mrun E1.
  destruct (sym_step pid s1 SEMI ts2) as [(_ & s3 & E3 & Hat3)|(ts4 & ? & ? & ? & -> & _)]; [done..| |].
  - mrun E3. by exists c, s3.
  - assert (head_in [SEMI] (TSym SEMI :: ts4) = false) as [=] by nofollow.
Qed.
Lemma line_list pid ts a n ts' a' : pipe_takes pid ts a → line_takes pid ts' a' →
  line_takes pid (ts ++ amps n ++ TSym SEMI :: ts') (AList (Nat.iter n ABack a) a').
Proof using Hnul.
  intros H H' [|fuel] s ts2 Hf Hat Hfo; [lia|]. rewrite <- !app_assoc in Hf, Hat. cbn [app] in Hf, Hat. rewrite parseline_S.
  destruct (pipe_back pid ts a n fuel s (TSym SEMI :: ts' ++ ts2) H) as (c & s1 & E1 & Hat1 & Hm); [lia|done|follow|]. rewrite <- bind_assoc. mrun E1.
  destruct (sym_step pid s1 SEMI _ ltac:(done) eq_refl Hat1) as [[[=] _]|(ts4 & s3 & w & s4 & [= <-] & E3 & Hat3 & E4 & Hat4)]. mrun E3. mrun E4.
  destruct (H' fuel s4 ts2) as (d & s5 & E5 & Hat5 & Hm5); [do 4 (autorewrite with len in Hf |- *; cbn [length] in Hf); lia|done..|]. mrun E5. by exists (LIST c d), s5.
Qed.
Lemma pipe_one pid ts a : cmd_takes pid ts a → pipe_takes pid ts a.
Proof using Hnul.
  intros H [|fuel] s ts2 Hf Hat Hfo; [lia|]. rewrite parsepipe_S.
  destruct (H fuel s ts2) as (c & s1 & E1 & Hat1 & Hm); [lia|done|follow|]. mrun E1.
  destruct (sym_step pid s1 BAR ts2) as [(_ & s3 & E3 & Hat3)|(ts4 & ? & ? & ? & -> & _)]; [done..| |].
  - mrun E3. by exists c, s3.
  - assert (head_in [BAR] (TSym BAR :: ts4) = false) as [=] by nofollow.
Qed.
Lemma pipe_pipe pid ts a ts' a' : cmd_takes pid ts a → pipe_takes pid ts' a' → pipe_takes pid (ts ++ TSym BAR :: ts') (APipe a a').
Proof using Hnul.
  intros H H' [|fuel] s ts2 Hf Hat Hfo; [lia|]. rewrite <- !app_assoc in Hf, Hat. cbn [app] in Hf, Hat. rewrite parsepipe_S.
  destruct (H fuel s (TSym BAR :: ts' ++ ts2)) as (c & s1 & E1 & Hat1 & Hm); [lia|done|follow|]. mrun E1.
  destruct (sym_step pid s1 BAR _ ltac:(done) eq_refl Hat1) as [[[=] _]|(ts4 & s3 & w & s4 & [= <-] & E3 & Hat3 & E4 & Hat4)]. mrun E3. mrun E4.
  destruct (H' fuel s4 ts2) as (d & s5 & E5 & Hat5 & Hm5); [do 4 (autorewrite with len in Hf |- *; cbn [length] in Hf); lia|done..|]. mrun E5. by exists (PIPE c d), s5.
Qed.
Lemma cmd_exec pid ts ws rs : g_args ts ws rs → (length ws < MAXARGS)%nat → cmd_takes pid ts (foldl around (AExec ws) rs).
Proof using Hnul.
  intros Hg Hl [|fuel] s ts2 Hf Hat Hfo; [lia|]. rewrite parseexec_S.
  destruct (g_args_split _ _ _ Hg) as (tsr & rsr & ts' & rs' & -> & -> & Hg1 & Hg2 & Hs). rewrite <- app_assoc in Hf, Hat.
  assert (head_in [LPAREN] (tsr ++ ts' ++ ts2) = false) as Hh.
  { inversion Hg1 as [| |t w k ? ? ? Hk]; subst; [|destruct Hk; done]. destruct Hs as [->|(w & ts'' & ->)]; [|done]. simpl. nofollow. }
  destruct (sym_step pid s LPAREN _ ltac:(done) eq_refl Hat) as [(_ & s1 & E1 & Hat1)|(ts4 & ? & ? & ? & E & _)]; [|rewrite E in Hh; done]. mrun E1.
  destruct (redirs_complete pid tsr rsr Hg1 fuel s1 (ts' ++ ts2) (EXEC []) (AExec [])) as (c & s2 & E2 & Hat2 & Hm); [lia|done|by apply follows_redir|constructor|]. mrun E2.
  rewrite length_app in Hf. destruct (args_complete pid ws ts' rs' fuel s2 ts2 c [] rsr) as (c' & s' & E & Hat' & Hm'); [done..|lia|done|done|done|].
  by exists c', s'.
Qed.
Lemma cmd_block pid ts a ts' rs : line_takes pid ts a → g_args ts' [] rs → cmd_takes pid (TSym LPAREN :: ts ++ TSym RPAREN :: ts') (foldl around a rs).
Proof using Hnul.
  intros H Hg [|[|fuel]] s ts2 Hf Hat Hfo; [lia|simpl in Hf; lia|]. rewrite parseexec_S. cbn [app] in Hf, Hat. rewrite <- app_assoc in Hf, Hat. cbn [app] in Hf, Hat.
  destruct (sym_step pid s LPAREN _ ltac:(done) eq_refl Hat) as [[[=] _]|(? & s1 & w & s2 & [= <-] & E1 & Hat1 & _)]. mrun E1. rewrite parseblock_S.
  destruct (sym_step pid s1 LPAREN _ ltac:(done) eq_refl Hat1) as [[[=] _]|(? & s3 & w3 & s4 & [= <-] & E3 & Hat3 & E4 & Hat4)]. mrun E3. cbn [negb]. mrun E4.
  destruct (H fuel s4 (TSym RPAREN :: ts' ++ ts2)) as (c & s5 & E5 & Hat5 & Hm); [simpl in Hf; lia|done|follow|]. mrun E5.
  destruct (sym_step pid s5 RPAREN _ ltac:(done) eq_refl Hat5) as [[[=] _]|(? & s6 & w6 & s7 & [= <-] & E6 & Hat6 & E7 & Hat7)]. mrun E6. cbn [negb]. mrun E7.
  apply (redirs_complete pid ts' rs Hg); [|done|apply (follows_redir []); [by left|done]|done]. simpl in Hf. rewrite length_app in Hf. simpl in Hf. lia.
Qed.
Lemma parse_complete pid ts a : g_line ts a → line_takes pid ts a.
Proof using Hnul.
  apply (g_line_min (line_takes pid) (pipe_takes pid) (cmd_takes pid));
    eauto using line_one, line_list, pipe_one, pipe_pipe, cmd_exec, cmd_block.
Qed.

Lemma string_at_text : string_at b = text.
Proof using Hnul.
  clear -Hnul. induction text as [|c t IH]; simpl; [done|]. rewrite (proj2 (Z.eqb_neq c 0)) by set_solver. f_equal. apply IH. set_solver.
Qed.

Lemma peek_none pid s ts : at_tok s ts → ∃ s', peek b es [] pid s = Ret false s' ∧ at_tok s' ts ∧ (s' = es ↔ ts = []).
Proof using Hnul.
  intros Hat. destruct (peek_run [] pid s ts eq_refl Hat) as (s' & E & Hat' & He). exists s'. split; [|split; [done|split; [|done]]].
  - rewrite E. f_equal. by destruct ts as [|[] ?].
  - intros ->. destruct Hat' as [_ <-]. by rewrite drop_ge.
Qed.

Lemma parsecmd_run pid s0 :
  panics (parsecmd b) pid s0 ∨ ∃ c b' s', parsecmd b pid s0 = Ret (c, b') s' ∧ g_line (lex [] text) (meaning b' c).
Proof using Hnul.
  unfold panics, parsecmd. rewrite string_at_text. rewrite (bind_Ret (modify _) _ pid s0 tt 0%nat eq_refl). assert (at_tok 0 (lex [] text)) as Hat by (split; [lia|done]).
  destruct (at_tok_ok _ _ Hat) as [_ Hlen]. destruct (proj1 (parse_sound pid (4 * es + 8)) 0%nat (lex [] text)) as [(msg & s' & E)|(c & s1 & ts1 & ts2 & a & E & Ets & Hat1 & Hm & Hg)].
  - lia.
  - done.
  - left. rewrite (bind_Panicked _ _ _ _ _ _ E). by eexists _, _.
  - mrun E. destruct (peek_none pid s1 ts2 Hat1) as (s2 & E2 & Hat2 & He). mrun E2. rewrite (bind_Ret get _ pid s2 s2 s2 eq_refl).
    case_bool_decide as Hs; [left; by eexists _, _|]. right. eexists _, _, _. split; [done|]. rewrite (nulterminate_means c a Hm), Ets.
    assert (ts2 = []) as -> by (apply He; destruct (decide (s2 = es)); naive_solver). by rewrite app_nil_r.
Qed.

Lemma parsecmd_complete pid s0 a : g_line (lex [] text) a → ∃ c b' s', parsecmd b pid s0 = Ret (c, b') s' ∧ meaning b' c = a.
Proof using Hnul.
  intros Hg. unfold parsecmd. rewrite string_at_text. rewrite (bind_Ret (modify _) _ pid s0 tt 0%nat eq_refl). assert (at_tok 0 (lex [] text)) as Hat by (split; [lia|done]).
  destruct (at_tok_ok _ _ Hat) as [_ Hlen]. destruct (parse_complete pid _ a Hg (4 * es + 8)%nat 0%nat []) as (c & s1 & E & Hat1 & Hm); [rewrite app_nil_r; lia|by rewrite app_nil_r|by left|].
  mrun E. destruct (peek_none pid s1 [] Hat1) as (s2 & E2 & Hat2 & He). mrun E2. rewrite (bind_Ret get _ pid s2 s2 s2 eq_refl).
  rewrite bool_decide_false by (intros Hn; by apply Hn, He). eexists _, _, _. split; [done|]. by apply nulterminate_means.
Qed.
End line.

(** C16. [parsecmd] accepts exactly the lines of the grammar, and the command
    it returns is the one the grammar gives: pipelines, lists, background
    commands, blocks and redirections nest as they should, and every word and
    file name, read from the line after [nulterminate] has cut it up, is the
    word that was typed.  On any other line it reports an error; it never runs
    off the line. *)
Theorem parsecmd_grammar text rest pid s0 : 0 ∉ text →
  (∀ a, (∃ c b' s', parsecmd (text ++ 0 :: rest) pid s0 = Ret (c, b') s' ∧ meaning b' c = a) ↔ g_line (lex [] text) a) ∧
  ((∃ msg s', parsecmd (text ++ 0 :: rest) pid s0 = Panicked msg s') ∨ ∃ c b' s', parsecmd (text ++ 0 :: rest) pid s0 = Ret (c, b') s').
Proof.
  intros Hnul. destruct (parsecmd_run text rest Hnul pid s0) as [(msg & s' & E)|(c & b' & s' & E & Hg)]; (split; [intros a; split|]); try (by apply parsecmd_complete).
  - intros (c & b' & s1 & E1 & _). congruence.
  - left. by eexists _, _.
  - intros (c1 & b1 & s1 & E1 & <-). rewrite E in E1. by injection E1 as <- <- <-.
  - right. by eexists _, _, _.
Qed.
Lemma parsecmd_grammar_witness : 0 ∉ chars "(a b; c <d) | e>>f &" ∧
  ∃ c b' s', parsecmd (chars "(a b; c <d) | e>>f &" ++ [0]) 0 0%nat = Ret (c, b') s' ∧
    meaning b' c = ABack (APipe (AList (AExec [chars "a"; chars "b"]) (ARedir (AExec [chars "c"]) (chars "d") ORDONLY 0))
                               (ARedir (AExec [chars "e"]) (chars "f") OWRONLY_OCREATE 1)).
Proof.
  assert (0 ∉ chars "(a b; c <d) | e>>f &") as H0 by (apply (bool_decide_unpack _); vm_compute; exact I). split; [exact H0|].
  destruct (proj2 (parsecmd_grammar _ [] 0 0%nat H0)) as [(msg & s' & E)|(c & b' & s' & E)]; [vm_compute in E; discriminate E|].
  exists c, b', s'. split; [exact E|]. vm_compute in E. injection E as <- <- <-. vm_compute. reflexivity.
Defined.

(** [>>] is [>]: the two redirections give the same command, which opens the
    file without moving to its end. *)
Theorem append_same_as_write :
  ∃ c b' s c2 b2 s2,
    parsecmd (chars "echo x >> f" ++ [10; 0]) 0 0%nat = Ret (c, b') s ∧
    parsecmd (chars "echo x > f" ++ [10; 0]) 0 0%nat = Ret (c2, b2) s2 ∧
    meaning b' c = meaning b2 c2.
Proof. do 6 eexists. split; [vm_compute; reflexivity|]. split; [vm_compute; reflexivity|]. vm_compute. reflexivity. Qed.
