(* ===== verification/ShRun.v ===== *)
(** * The shell (sh.c): running commands

    [runcmd] and [main] are programs over system calls.  A process has a table
    of descriptors; the calls change it as the kernel does ([fdalloc] takes the
    lowest free one).  The relation [runs] collects the programs that the
    processes of the shell execute, each with the descriptors it starts with. *)

From S2P Require Import Prelude Sh.

Set Default Proof Using "Type".

(** What a process does next; [fork] returns twice. *)
Inductive prog :=
| PExit
| PExec (path : list Z) (argv : list (list Z)) (k : prog)
| PPrintf (fd : Z) (fmt : string) (args : list (list Z)) (k : prog)
| PClose (fd : nat) (k : prog)
| POpen (file : list Z) (mode : Z) (k : option nat → prog)
| PPipe (k : option (nat * nat) → prog)
| PDup (fd : nat) (k : prog)
| PFork (k : option nat → prog)
| PWait (k : prog)
| PChdir (path : list Z) (k : bool → prog).

(** [panic]: the message, and out. *)
Definition sh_panic (s : string) : prog := PPrintf 2 s [] PExit.
(** [fork1]: the continuation takes the pid. *)
Definition fork1 (k : nat → prog) : prog :=
  PFork (λ pid, match pid with None => sh_panic "fork" | Some pid => k pid end).

Fixpoint runcmd (b : list Z) (c : cmd) : prog :=
  match c with
  | EXEC argv =>
      match argv with
      | [] => PExit
      | w :: _ => PExec (word_at b w) (map (word_at b) argv) (PPrintf 2 "exec %s failed" [word_at b w] PExit)
      end
  | REDIR c f m d =>
      PClose (Z.to_nat d) (POpen (word_at b f) m (λ r,
        match r with
        | None => PPrintf 2 "open %s failed" [word_at b f] PExit
        | Some _ => runcmd b c
        end))
  | LIST l r => fork1 (λ pid, if decide (pid = 0%nat) then runcmd b l else PWait (runcmd b r))
  | PIPE l r =>
      PPipe (λ p,
        match p with
        | None => sh_panic "pipe"
        | Some (p0, p1) =>
            fork1 (λ pid,
              if decide (pid = 0%nat) then PClose 1 (PDup p1 (PClose p0 (PClose p1 (runcmd b l))))
              else fork1 (λ pid,
                if decide (pid = 0%nat) then PClose 0 (PDup p0 (PClose p0 (PClose p1 (runcmd b r))))
                else PClose p0 (PClose p1 (PWait (PWait PExit)))))
        end)
  | BACK c => fork1 (λ pid, if decide (pid = 0%nat) then runcmd b c else PExit)
  end.

(** [main]: [console] is opened until descriptor 3 comes back, then the lines
    that [getcmd] reads, each with its newline, are run. *)
Definition CONSOLE : list Z := chars "console".
Definition O_RDWR : Z := 2.
Fixpoint open_console (fuel : nat) (k : prog) : prog :=
  match fuel with
  | O => k
  | S fuel' =>
      POpen CONSOLE O_RDWR (λ r,
        match r with
        | None => k
        | Some fd => if decide (3 ≤ fd)%nat then PClose fd k else open_console fuel' k
        end)
  end.
Definition runline (text : list Z) : prog :=
  match parsecmd (text ++ [0]) 0 0%nat with
  | Ret (c, b') _ => runcmd b' c
  | Panicked msg _ => sh_panic msg
  | _ => PExit
  end.
Fixpoint mainloop (lines : list (list Z)) : prog :=
  match lines with
  | [] => PExit
  | [] :: _ => PExit
  | text :: lines' =>
      if bool_decide (take 3 text = chars "cd ") then
        PChdir (drop 3 (take (length text - 1) text)) (λ ok,
          if (ok : bool) then mainloop lines' else PPrintf 2 "cannot cd %s" [drop 3 (take (length text - 1) text)] (mainloop lines'))
      else fork1 (λ pid, if decide (pid = 0%nat) then runline text else PWait (mainloop lines'))
  end.
Definition sh_main (lines : list (list Z)) : prog := open_console 17 (mainloop lines).

(** ** System calls *)

(** What a descriptor refers to. *)
Inductive obj := Inherited (n : nat) | Opened (file : list Z) (mode : Z) | PipeRead (id : nat) | PipeWrite (id : nat).
Notation table := (list (option obj)).
Definition lowest (t : table) : option nat := fst <$> list_find (λ o, o = None) t.
Definition tclose (fd : nat) (t : table) : table := <[fd := None]> t.
Definition tdup (fd : nat) (t : table) : table :=
  match t !! fd, lowest t with Some (Some o), Some i => <[i := Some o]> t | _, _ => t end.

(** [runs fails p t out]: [out] are the programs executed by [p] and by the
    processes it creates; calls fail only if [fails]. *)
Inductive runs (fails : bool) : prog → table → list (list (list Z) * table) → Prop :=
| r_exit t : runs fails PExit t []
| r_exec path argv k t : runs fails (PExec path argv k) t [(argv, t)]
| r_exec_fail path argv k t out : fails = true → runs fails k t out → runs fails (PExec path argv k) t out
| r_printf fd fmt args k t out : runs fails k t out → runs fails (PPrintf fd fmt args k) t out
| r_close fd k t out : runs fails k (tclose fd t) out → runs fails (PClose fd k) t out
| r_open file mode k t fd out : lowest t = Some fd → runs fails (k (Some fd)) (<[fd := Some (Opened file mode)]> t) out → runs fails (POpen file mode k) t out
| r_open_fail file mode k t out : fails = true → runs fails (k None) t out → runs fails (POpen file mode k) t out
| r_pipe k t p0 p1 id out : lowest t = Some p0 → lowest (<[p0 := Some (PipeRead id)]> t) = Some p1 →
    runs fails (k (Some (p0, p1))) (<[p1 := Some (PipeWrite id)]> (<[p0 := Some (PipeRead id)]> t)) out → runs fails (PPipe k) t out
| r_pipe_fail k t out : fails = true → runs fails (k None) t out → runs fails (PPipe k) t out
| r_dup fd k t out : runs fails k (tdup fd t) out → runs fails (PDup fd k) t out
| r_fork k t pid out1 out2 : pid ≠ 0%nat → runs fails (k (Some 0%nat)) t out1 → runs fails (k (Some pid)) t out2 → runs fails (PFork k) t (out1 ++ out2)
| r_fork_fail k t out : fails = true → runs fails (k None) t out → runs fails (PFork k) t out
| r_wait k t out : runs fails k t out → runs fails (PWait k) t out
| r_chdir path k t ok out : fails = true ∨ ok = true → runs fails (k ok) t out → runs fails (PChdir path k) t out.

(** ** What a command should start *)

(** The programs of a command, with the descriptors of each: the table the
    command got, with what its redirections and pipes put in place and nothing
    else.  If calls may fail, some may not be started. *)
Inductive plumbed (fails : bool) : ast → table → list (list (list Z) * table) → Prop :=
| pl_none a t : fails = true → plumbed fails a t []
| pl_empty t : plumbed fails (AExec []) t []
| pl_exec ws t : ws ≠ [] → plumbed fails (AExec ws) t [(ws, t)]
| pl_redir a f m d t out : plumbed fails a (<[Z.to_nat d := Some (Opened f m)]> t) out → plumbed fails (ARedir a f m d) t out
| pl_pipe a1 a2 t id out1 out2 : plumbed fails a1 (<[1%nat := Some (PipeWrite id)]> t) out1 → plumbed fails a2 (<[0%nat := Some (PipeRead id)]> t) out2 →
    plumbed fails (APipe a1 a2) t (out1 ++ out2)
| pl_list a1 a2 t out1 out2 : plumbed fails a1 t out1 → plumbed fails a2 t out2 → plumbed fails (AList a1 a2) t (out1 ++ out2)
| pl_back a t out : plumbed fails a t out → plumbed fails (ABack a) t out.

(** The lines of a session: a [cd], a line that is not a command, a command. *)
Inductive session (fails : bool) (t : table) : list (list Z) → list (list (list Z) * table) → Prop :=
| se_nil : session fails t [] []
| se_stop lines : fails = true → session fails t lines []
| se_cd text lines out : take 3 text = chars "cd " → session fails t lines out → session fails t (text :: lines) out
| se_bad text lines out : (∀ a, ¬ g_line (lex [] text) a) → session fails t lines out → session fails t (text :: lines) out
| se_run text lines a out1 out2 : g_line (lex [] text) a → plumbed fails a t out1 → session fails t lines out2 → session fails t (text :: lines) (out1 ++ out2).

(** ** Tables *)

Definition open_at (t : table) (i : nat) : Prop := ∃ o, t !! i = Some (Some o).
(** Descriptors 0 and 1 are open. *)
Definition good (t : table) : Prop := open_at t 0 ∧ open_at t 1.
Definition free2 (t : table) : Prop := ∃ p q, p ≠ q ∧ t !! p = Some None ∧ t !! q = Some None.

Lemma lowest_Some t i : lowest t = Some i ↔ t !! i = Some None ∧ ∀ j, (j < i)%nat → open_at t j.
Proof.
  unfold lowest. rewrite fmap_Some. split.
  - intros ([k x] & (H1 & -> & H2)%list_find_Some & ->). split; [done|]. intros j Hj. simpl in Hj.
    destruct (lookup_lt_is_Some_2 t j) as [[o|] E]; [apply lookup_lt_Some in H1; lia|by exists o|]. by destruct (H2 j None E).
  - intros [H1 H2]. exists (i, None). split; [|done]. apply list_find_Some. split; [done|]. split; [done|]. intros j y Hj Hlt ->. destruct (H2 j Hlt) as [o Ho]. congruence.
Qed.
Lemma lowest_exists t i : t !! i = Some None → ∃ j, lowest t = Some j.
Proof.
  intros Hi. unfold lowest. destruct (list_find (λ o, o = None) t) as [[j x]|] eqn:E; [by exists j|]. apply list_find_None in E.
  rewrite Forall_lookup in E. by destruct (E i None Hi).
Qed.
Lemma open_insert t i j o : open_at t i → open_at (<[j := Some o]> t) i.
Proof.
  intros [x Hx]. destruct (decide (i = j)) as [->|Hne]; [exists o; apply list_lookup_insert_eq; by eapply lookup_lt_Some|].
  exists x. by rewrite list_lookup_insert_ne.
Qed.
Lemma good_insert t j o : good t → good (<[j := Some o]> t).
Proof. intros [H0 H1]. split; by apply open_insert. Qed.
Lemma open_not t i : open_at t i → t !! i ≠ Some None.
Proof. intros [o E]. congruence. Qed.
Lemma good_lowest t i : good t → lowest t = Some i → (2 ≤ i)%nat.
Proof. intros [H0%open_not H1%open_not] [H _]%lowest_Some. destruct i as [|[|i]]; [done..|lia]. Qed.
Lemma free2_insert t j o : open_at t j → free2 t → free2 (<[j := Some o]> t).
Proof.
  intros Hj%open_not (p & q & Hne & Hp & Hq). exists p, q. split; [done|]. rewrite !list_lookup_insert_ne by congruence. done.
Qed.

(** Closing 0 or 1 makes it the lowest. *)
Lemma close_lowest t d : good t → d = 0%nat ∨ d = 1%nat → lowest (tclose d t) = Some d.
Proof.
  intros [[o0 H0] [o1 H1]] Hd. apply lowest_Some. unfold tclose. split.
  - apply list_lookup_insert_eq. destruct Hd as [->| ->]; by eapply lookup_lt_Some.
  - intros j Hj. destruct Hd as [->| ->]; [lia|]. assert (j = 0%nat) as -> by lia. exists o0. by rewrite list_lookup_insert_ne.
Qed.
(** A pipe, one end of it moved to [d], and both closed. *)
Lemma pipe_child t p0 p1 p d x y o : good t → d = 0%nat ∨ d = 1%nat → lowest t = Some p0 → lowest (<[p0 := Some x]> t) = Some p1 →
  (p = p0 ∧ o = x ∨ p = p1 ∧ o = y) →
  tclose p1 (tclose p0 (tdup p (tclose d (<[p1 := Some y]> (<[p0 := Some x]> t))))) = <[d := Some o]> t.
Proof.
  intros Hg Hd H0 H1 Hp. pose proof (good_lowest _ _ Hg H0) as Hp0. pose proof (good_lowest _ _ (good_insert t p0 x Hg) H1) as Hp1.
  apply lowest_Some in H0 as [E0 _], H1 as [E1 _].
  assert (p0 ≠ p1) as Hne. { intros ->. rewrite list_lookup_insert_eq in E1 by (by eapply lookup_lt_Some). done. }
  rewrite list_lookup_insert_ne in E1 by done. pose proof (lookup_lt_Some _ _ _ E0). pose proof (lookup_lt_Some _ _ _ E1). set (t1 := <[p1 := Some y]> (<[p0 := Some x]> t)).
  assert (good t1) as Hg1 by (by apply good_insert, good_insert). assert (tdup p (tclose d t1) = <[d := Some o]> (tclose d t1)) as ->.
  { unfold tdup. rewrite (close_lowest t1 d Hg1 Hd). assert (tclose d t1 !! p = Some (Some o)) as ->; [|done]. unfold tclose, t1.
    destruct Hp as [[-> ->]|[-> ->]]; rewrite list_lookup_insert_ne by lia; [|by rewrite list_lookup_insert_eq by len]. rewrite list_lookup_insert_ne by lia. by rewrite list_lookup_insert_eq. }
  unfold tclose, t1. rewrite list_insert_insert_eq. apply list_eq. intros i. destruct (decide (i = p1)) as [->|N1].
  { rewrite list_lookup_insert_eq by len. by rewrite list_lookup_insert_ne by lia. }
  rewrite list_lookup_insert_ne by done. destruct (decide (i = p0)) as [->|N0]; [rewrite list_lookup_insert_eq by len; by rewrite list_lookup_insert_ne by lia|].
  rewrite list_lookup_insert_ne by done. destruct (decide (i = d)) as [->|Nd].
  - assert (d < length t)%nat by lia. by rewrite !list_lookup_insert_eq by len.
  - by rewrite !list_lookup_insert_ne by done.
Qed.

(** ** Commands *)

(** Redirections are of descriptor 0 or 1. *)
Fixpoint redirs_ok (a : ast) : Prop :=
  match a with
  | AExec _ => True
  | ARedir a _ _ d => redirs_ok a ∧ (d = 0 ∨ d = 1)
  | APipe a1 a2 | AList a1 a2 => redirs_ok a1 ∧ redirs_ok a2
  | ABack a => redirs_ok a
  end.
Lemma args_redirs_ok ts ws rs a : g_args ts ws rs → redirs_ok a → redirs_ok (foldl around a rs).
Proof.
  intros Hg. revert a. induction Hg as [|w ts ws rs Hg IH|t w k ts ws rs Hk Hg IH]; intros a Ha; simpl; [done|auto|]. apply IH. split; [done|].
  destruct Hk; simpl; auto.
Qed.
Lemma back_redirs_ok n a : redirs_ok a → redirs_ok (Nat.iter n ABack a).
Proof. intros. by induction n. Qed.
Lemma line_redirs_ok ts a : g_line ts a → redirs_ok a.
Proof.
  apply (g_line_min (λ _, redirs_ok) (λ _, redirs_ok) (λ _, redirs_ok)); simpl; eauto using args_redirs_ok, back_redirs_ok.
  intros ts' ws rs Hg _. by eapply args_redirs_ok.
Qed.

Lemma runs_exit fails t out : runs fails PExit t out → out = [].
Proof. by inversion 1. Qed.
Lemma runs_panic fails s t out : runs fails (sh_panic s) t out → out = [].
Proof. inversion 1; subst. by eapply runs_exit. Qed.
Lemma runs_fork1 fails k t out : runs fails (fork1 k) t out →
  (fails = true ∧ out = []) ∨ ∃ pid out1 out2, pid ≠ 0%nat ∧ out = out1 ++ out2 ∧ runs fails (k 0%nat) t out1 ∧ runs fails (k pid) t out2.
Proof. inversion 1; subst; [right; eauto 10|left]. split; [done|by eapply runs_panic]. Qed.

Lemma runs_message fails fd fmt args t out : runs fails (PPrintf fd fmt args PExit) t out → out = [].
Proof. inversion 1; subst. by eapply runs_exit. Qed.
Lemma runs_close fails fd k t out : runs fails (PClose fd k) t out → runs fails k (tclose fd t) out.
Proof. by inversion 1. Qed.
Lemma runs_dup fails fd k t out : runs fails (PDup fd k) t out → runs fails k (tdup fd t) out.
Proof. by inversion 1. Qed.
Lemma runs_wait fails k t out : runs fails (PWait k) t out → runs fails k t out.
Proof. by inversion 1. Qed.
Lemma runs_open fails f m k t out : runs fails (POpen f m k) t out →
  (∃ fd, lowest t = Some fd ∧ runs fails (k (Some fd)) (<[fd := Some (Opened f m)]> t) out) ∨ (fails = true ∧ runs fails (k None) t out).
Proof. inversion 1; subst; eauto. Qed.
Lemma runs_pipe fails k t out : runs fails (PPipe k) t out →
  (∃ p0 p1 id, lowest t = Some p0 ∧ lowest (<[p0 := Some (PipeRead id)]> t) = Some p1 ∧
     runs fails (k (Some (p0, p1))) (<[p1 := Some (PipeWrite id)]> (<[p0 := Some (PipeRead id)]> t)) out) ∨ (fails = true ∧ runs fails (k None) t out).
Proof. inversion 1; subst; [left; by eexists _, _, _|by right]. Qed.

Lemma runcmd_plumbed fails b c : ∀ t out, redirs_ok (meaning b c) → good t → runs fails (runcmd b c) t out → plumbed fails (meaning b c) t out.
Proof.
  induction c as [argv|c IH f m d|l IHl r IHr|l IHl r IHr|c IH]; intros t out Hok Hg Hr; simpl in *.
  - destruct argv as [|w argv]; [rewrite (runs_exit _ _ _ Hr); apply pl_empty|]. inversion Hr; subst; [by constructor|].
    match goal with H : runs _ (PPrintf _ _ _ _) _ _ |- _ => rewrite (runs_message _ _ _ _ _ _ H) end. by constructor.
  - destruct Hok as [Hok Hd]. constructor. apply runs_close in Hr. destruct (runs_open _ _ _ _ _ _ Hr) as [(fd & E & Hr2)|[Hf Hr2]].
    + rewrite close_lowest in E by (done || lia). injection E as <-. unfold tclose in Hr2. rewrite list_insert_insert_eq in Hr2. apply IH; [done|by apply good_insert|done].
    + rewrite (runs_message _ _ _ _ _ _ Hr2). by constructor.
  - destruct Hok as [Hok1 Hok2]. destruct (runs_pipe _ _ _ _ Hr) as [(p0 & p1 & id & E0 & E1 & Hr1)|[Hf Hr1]]; [|rewrite (runs_panic _ _ _ _ Hr1); by constructor].
    destruct (runs_fork1 _ _ _ _ Hr1) as [[Hf ->]|(pid & out1 & out2 & Hpid & -> & Hc & Hp)]; [by constructor|]. simpl in Hc. rewrite decide_False in Hp by done.
    assert (plumbed fails (meaning b l) (<[1%nat := Some (PipeWrite id)]> t) out1) as Hl.
    { apply IHl; [done|by apply good_insert|]. rewrite <- (pipe_child t p0 p1 p1 1 (PipeRead id) (PipeWrite id)) by auto.
      by apply runs_close, runs_close, runs_dup, runs_close. }
    destruct (runs_fork1 _ _ _ _ Hp) as [[Hf ->]|(pid2 & out3 & out4 & Hpid2 & -> & Hc2 & Hp2)]; [eapply pl_pipe; [done|by constructor]|].
    simpl in Hc2. rewrite decide_False in Hp2 by done. apply runs_close, runs_close, runs_wait, runs_wait, runs_exit in Hp2 as ->.
    rewrite app_nil_r. eapply pl_pipe; [done|]. apply IHr; [done|by apply good_insert|]. rewrite <- (pipe_child t p0 p1 p0 0 (PipeRead id) (PipeWrite id)) by auto.
    by apply runs_close, runs_close, runs_dup, runs_close.
  - destruct Hok as [Hok1 Hok2]. destruct (runs_fork1 _ _ _ _ Hr) as [[Hf ->]|(pid & out1 & out2 & Hpid & -> & Hc & Hp)]; [by constructor|].
    simpl in Hc. rewrite decide_False in Hp by done. apply runs_wait in Hp. constructor; auto.
  - destruct (runs_fork1 _ _ _ _ Hr) as [[Hf ->]|(pid & out1 & out2 & Hpid & -> & Hc & Hp)]; [by constructor|].
    simpl in Hc. rewrite decide_False in Hp by done. rewrite (runs_exit _ _ _ Hp), app_nil_r. constructor. auto.
Qed.

(** If no call fails, the command runs. *)
Lemma fork1_runs fails k t out1 out2 : runs fails (k 0%nat) t out1 → runs fails (k 1%nat) t out2 → runs fails (fork1 k) t (out1 ++ out2).
Proof. intros H1 H2. by eapply (r_fork _ _ _ 1%nat). Qed.
Lemma runcmd_runs b c : ∀ t, redirs_ok (meaning b c) → good t → free2 t → ∃ out, runs false (runcmd b c) t out.
Proof.
  induction c as [argv|c IH f m d|l IHl r IHr|l IHl r IHr|c IH]; intros t Hok Hg Hf; simpl in *.
  - destruct argv as [|w argv]; eexists; constructor.
  - destruct Hok as [Hok Hd]. set (t' := <[Z.to_nat d := Some (Opened (word_at b f) m)]> t).
    destruct (IH t') as [out Hr]; [done|by apply good_insert|apply free2_insert; [|done]; destruct Hd as [->| ->]; apply Hg|]. exists out. constructor.
    econstructor; [apply close_lowest; [done|lia]|]. unfold tclose. by rewrite list_insert_insert_eq.
  - destruct Hok as [Hok1 Hok2]. pose proof Hf as (p & q & Hne & Hp & Hq). destruct (lowest_exists t p Hp) as [p0 E0].
    assert (∃ p1, lowest (<[p0 := Some (PipeRead 0)]> t) = Some p1) as [p1 E1].
    { destruct (decide (p0 = p)) as [->|N]; [apply (lowest_exists _ q); by rewrite list_lookup_insert_ne|apply (lowest_exists _ p); by rewrite list_lookup_insert_ne]. }
    destruct (IHl (<[1%nat := Some (PipeWrite 0)]> t)) as [out1 H1]; [done|by apply good_insert|apply free2_insert; [apply Hg|done]|].
    destruct (IHr (<[0%nat := Some (PipeRead 0)]> t)) as [out2 H2]; [done|by apply good_insert|apply free2_insert; [apply Hg|done]|].
    exists (out1 ++ out2 ++ []). eapply (r_pipe _ _ _ p0 p1 0); [done..|]. apply fork1_runs; simpl; [|apply fork1_runs; simpl; [|repeat constructor]].
    + rewrite <- (pipe_child t p0 p1 p1 1 (PipeRead 0) (PipeWrite 0)) in H1 by auto. by repeat constructor.
    + rewrite <- (pipe_child t p0 p1 p0 0 (PipeRead 0) (PipeWrite 0)) in H2 by auto. by repeat constructor.
  - destruct Hok as [Hok1 Hok2]. destruct (IHl t) as [out1 H1]; [done..|]. destruct (IHr t) as [out2 H2]; [done..|].
    exists (out1 ++ out2). apply fork1_runs; simpl; [done|by constructor].
  - destruct (IH t) as [out Hr]; [done..|]. exists (out ++ []). apply fork1_runs; [done|constructor].
Qed.

(** ** Lines *)

(** A line as [gets] returns it. *)
Definition is_line (text : list Z) : Prop := text ≠ [] ∧ 0 ∉ text.

Lemma runline_cases text : 0 ∉ text →
  (∃ b c, runline text = runcmd b c ∧ g_line (lex [] text) (meaning b c)) ∨
  ((∃ msg, runline text = sh_panic msg) ∧ ∀ a, ¬ g_line (lex [] text) a).
Proof.
  intros H0. unfold runline. destruct (parsecmd_run text [] H0 0 0%nat) as [(msg & s' & E)|(c & b & s' & E & Hg)]; rewrite E.
  - right. split; [by exists msg|]. intros a Ha. destruct (parsecmd_complete text [] H0 0 0%nat a Ha) as (c & b' & s1 & E1 & _). congruence.
  - left. by exists b, c.
Qed.

Lemma mainloop_cons text lines : is_line text → mainloop (text :: lines) =
  if bool_decide (take 3 text = chars "cd ") then
    PChdir (drop 3 (take (length text - 1) text)) (λ ok,
      if (ok : bool) then mainloop lines else PPrintf 2 "cannot cd %s" [drop 3 (take (length text - 1) text)] (mainloop lines))
  else fork1 (λ pid, if decide (pid = 0%nat) then runline text else PWait (mainloop lines)).
Proof. intros [Hne _]. by destruct text. Qed.

Lemma mainloop_session fails t lines : good t → Forall is_line lines → ∀ out, runs fails (mainloop lines) t out → session fails t lines out.
Proof.
  intros Hg. induction 1 as [|text lines Hl Hls IH]; intros out Hr; [rewrite (runs_exit _ _ _ Hr); apply se_nil|].
  rewrite (mainloop_cons text lines Hl) in Hr. case_bool_decide as Hcd.
  - apply se_cd; [done|]. apply IH. inversion Hr as [| | | | | | | | | | | | |path k t' ok out' Hok Hk]; subst. destruct ok; [done|]. by inversion Hk.
  - destruct (runs_fork1 _ _ _ _ Hr) as [[Hf ->]|(pid & out1 & out2 & Hpid & -> & Hc & Hp)]; [by apply se_stop|].
    simpl in Hc. rewrite decide_False in Hp by done. apply runs_wait, IH in Hp. destruct (runline_cases text (proj2 Hl)) as [(b & c & E & Hgl)|[[msg E] Hno]]; rewrite E in Hc.
    + eapply se_run; [done| |done]. apply runcmd_plumbed; [by eapply line_redirs_ok|done|done].
    + rewrite (runs_panic _ _ _ _ Hc). by apply se_bad.
Qed.

Lemma mainloop_runs t lines : good t → free2 t → Forall is_line lines → ∃ out, runs false (mainloop lines) t out.
Proof.
  intros Hg Hf. induction 1 as [|text lines Hl Hls [out IH]]; [eexists; constructor|]. rewrite (mainloop_cons text lines Hl). case_bool_decide as Hcd.
  - exists out. apply (r_chdir _ _ _ _ true); [by right|done].
  - destruct (runline_cases text (proj2 Hl)) as [(b & c & E & Hgl)|[[msg E] Hno]].
    + destruct (runcmd_runs b c t) as [out1 H1]; [by eapply line_redirs_ok|done|done|]. exists (out1 ++ out). apply fork1_runs; simpl; [by rewrite E|by constructor].
    + exists ([] ++ out). apply fork1_runs; simpl; [rewrite E; repeat constructor|by constructor].
Qed.

(** The descriptors that the shell starts with: those it was given, and the
    console where one of the first three was closed. *)
Definition with_console (t t' : table) : Prop :=
  (∀ i, (i < 3)%nat → open_at t' i) ∧ (∀ i, (3 ≤ i)%nat → t' !! i = t !! i) ∧
  ∀ i, (i < 3)%nat → t' !! i = t !! i ∨ t !! i = Some None ∧ t' !! i = Some (Some (Opened CONSOLE O_RDWR)).

Lemma open_console_runs k out : ∀ n j t, (j ≤ 3)%nat → (4 ≤ n + j)%nat → (∀ i, (i < j)%nat → open_at t i) → runs false (open_console n k) t out →
  ∃ t', with_console t t' ∧ runs false k t' out.
Proof.
  induction n as [|n IH]; intros j t Hj Hn Ho Hr; [lia|]. simpl in Hr. destruct (runs_open _ _ _ _ _ _ Hr) as [(fd & E & Hr2)|[[=] _]].
  pose proof E as [Efd Hlow]%lowest_Some. pose proof (lookup_lt_Some _ _ _ Efd) as Hfd. destruct (decide (3 ≤ fd)%nat) as [H3|H3].
  - apply runs_close in Hr2. unfold tclose in Hr2. rewrite list_insert_insert_eq, list_insert_id in Hr2 by done. exists t. split; [|done].
    split; [intros i Hi; apply Hlow; lia|]. split; [done|]. by left.
  - assert (j ≤ fd)%nat as Hjf. { destruct (decide (j ≤ fd)%nat); [done|]. assert (open_at t fd) as [o Hofd] by (apply Ho; lia). congruence. }
    apply (IH (S fd)) in Hr2 as (t' & (H1 & H2 & H4) & Hk); [|lia|lia|].
    + exists t'. split; [|done]. split; [done|]. split; [intros i Hi; rewrite H2 by done; by rewrite list_lookup_insert_ne by lia|].
      intros i Hi. destruct (H4 i Hi) as [E4|[E4 E5]]; destruct (decide (i = fd)) as [->|Hne].
      * right. by rewrite E4, list_lookup_insert_eq.
      * left. by rewrite E4, list_lookup_insert_ne.
      * by rewrite list_lookup_insert_eq in E4.
      * right. by rewrite list_lookup_insert_ne in E4.
    + intros i Hi. destruct (decide (i = fd)) as [->|Hne]; [eexists; by rewrite list_lookup_insert_eq|]. apply open_insert, Hlow. lia.
Qed.

(** C17. Every program that the shell starts has the descriptors its command
    line says.  In a session that begins with descriptors 0 and 1 open, the
    programs started are those of the commands typed, each with the shell's own
    table in which redirections and the ends of its pipe have been put in
    place, and nothing else: the other ends of the pipes are closed.  This
    holds whatever calls fail; when none fails every program of every command
    is started.  The first three descriptors are opened by [main]. *)
Theorem shell_plumbing t lines : Forall is_line lines →
  (∀ fails out, good t → runs fails (mainloop lines) t out → session fails t lines out) ∧
  (good t → free2 t → ∃ out, runs false (mainloop lines) t out) ∧
  (∀ out, runs false (sh_main lines) t out → ∃ t', with_console t t' ∧ session false t' lines out).
Proof.
  intros Hl. split; [eauto using mainloop_session|]. split; [eauto using mainloop_runs|].
  intros out Hr. apply (open_console_runs _ _ _ 0) in Hr as (t' & Ht' & Hr); [|lia|lia|lia]. exists t'. split; [done|].
  apply mainloop_session; [|done|done]. split; apply (proj1 Ht'); lia.
Qed.
Definition sh_table : table := [Some (Inherited 0); Some (Inherited 1); Some (Inherited 2); None; None; None].
Lemma shell_plumbing_witness : Forall is_line [chars "ls | wc >out"] ∧ good sh_table ∧ free2 sh_table ∧ ∃ out, runs false (mainloop [chars "ls | wc >out"]) sh_table out.
Proof.
  assert (Forall is_line [chars "ls | wc >out"]) as Hl.
  { constructor; [|constructor]. split; [discriminate|]. apply (bool_decide_unpack _). vm_compute. exact I. }
  assert (good sh_table) as Hg by (split; eexists; reflexivity).
  assert (free2 sh_table) as Hf by (exists 3%nat, 4%nat; split; [discriminate|]; split; reflexivity).
  split; [exact Hl|]. split; [exact Hg|]. split; [exact Hf|]. exact (proj1 (proj2 (shell_plumbing sh_table _ Hl)) Hg Hf).
Defined.
