(* ===== verification/User.v ===== *)
(** * User programs: formatted output (printf.c), wc (wc.c) and cat (cat.c)

    What a program writes to a descriptor is the list of the bytes; [read] is
    a parameter, as in the model of grep. *)

From S2P Require Import Prelude CString Console.

Set Default Proof Using "Type".

(** ** printf.c *)

(** "0123456789ABCDEF" *)
Definition udigits : list Z := [48; 49; 50; 51; 52; 53; 54; 55; 56; 57; 65; 66; 67; 68; 69; 70].
Fixpoint uprintint_loop (fuel : nat) (x base : Z) : list Z :=
  match fuel with
  | O => []
  | S fuel' =>
      let d := nth (Z.to_nat (x mod base)) udigits 0 in
      if x / base =? 0 then [d] else d :: uprintint_loop fuel' (x / base) base
  end.
(** [printint]: [None] if [buf] is too small. *)
Definition uprintint (xx base sgn : Z) : option (list Z) :=
  let neg := negb (sgn =? 0) && (xx <? 0) in
  let x := if neg then u32 (- xx) else u32 xx in
  let buf := uprintint_loop 32 x base ++ (if neg then [45] else []) in
  if (16 <? length buf)%nat then None else Some (rev buf).
#[global] Arguments uprintint : simpl never.

(** [printf]: [state] says whether the last character was a percent sign;
    [str] is the bytes of the string at an address.  [None]: an argument is
    missing. *)
Section printf.
Context (str : Z → list Z).

Fixpoint printf_loop (fmt : list Z) (state : bool) (ap : list Z) : option (list Z) :=
  match fmt with
  | [] => Some []
  | c :: fmt' =>
      if negb state then
        if c =? 37 then printf_loop fmt' true ap
        else o ← printf_loop fmt' false ap; Some (c :: o)
      else if c =? 100 then
        match ap with a :: ap' => d ← uprintint (s32 a) 10 1; o ← printf_loop fmt' false ap'; Some (d ++ o) | [] => None end
      else if (c =? 120) || (c =? 112) then
        match ap with a :: ap' => d ← uprintint (s32 a) 16 0; o ← printf_loop fmt' false ap'; Some (d ++ o) | [] => None end
      else if c =? 115 then
        match ap with a :: ap' => o ← printf_loop fmt' false ap'; Some ((if a =? 0 then NULLSTR else str a) ++ o) | [] => None end
      else if c =? 99 then
        match ap with a :: ap' => o ← printf_loop fmt' false ap'; Some (u8 a :: o) | [] => None end
      else if c =? 37 then o ← printf_loop fmt' false ap; Some (c :: o)
      else o ← printf_loop fmt' false ap; Some (37 :: c :: o)
  end.
Definition printf (fmt ap : list Z) : option (list Z) := printf_loop fmt false ap.
End printf.

(** ** wc.c and cat.c *)

Definition SPACES : list Z := [32; 13; 9; 10; 11].
Definition is_space (c : Z) : bool := existsb (Z.eqb c) SPACES.

(** The counters of [wc]: lines, words, characters, and [inword]. *)
Record counts := mk_counts { n_l : Z; n_w : Z; n_c : Z; n_in : bool }.
Definition wc_char (k : counts) (x : Z) : counts :=
  let c := s32 (n_c k + 1) in
  let l := if x =? 10 then s32 (n_l k + 1) else n_l k in
  if is_space x then mk_counts l (n_w k) c false
  else if n_in k then mk_counts l (n_w k) c true
  else mk_counts l (s32 (n_w k + 1)) c true.

Section programs.
(** [read fd n]: the bytes, [None] for an error. *)
Context {S : Type} (read : S → nat → option (list Z) * S) (str : Z → list Z).

(** "%d %d %d %s\n", "wc: read error\n", "cat: read error\n" *)
Definition WC_FMT : list Z := [37; 100; 32; 37; 100; 32; 37; 100; 32; 37; 115; 10].
Definition WC_ERR : list Z := [119; 99; 58; 32; 114; 101; 97; 100; 32; 101; 114; 114; 111; 114; 10].
Definition CAT_ERR : list Z := [99; 97; 116; 58; 32; 114; 101; 97; 100; 32; 101; 114; 114; 111; 114; 10].

Fixpoint wc_loop (fuel : nat) (k : counts) (fd : S) (name : Z) : option (list Z) :=
  match fuel with
  | O => None
  | Datatypes.S fuel' =>
      let '(d, fd') := read fd 512 in
      match d with
      | None => printf str WC_ERR []
      | Some [] => printf str WC_FMT [u32 (n_l k); u32 (n_w k); u32 (n_c k); name]
      | Some d => wc_loop fuel' (foldl wc_char k d) fd' name
      end
  end.
Definition wc (fuel : nat) (fd : S) (name : Z) : option (list Z) := wc_loop fuel (mk_counts 0 0 0 false) fd name.

(** [cat], where every write succeeds. *)
Fixpoint cat (fuel : nat) (fd : S) : option (list Z) :=
  match fuel with
  | O => None
  | Datatypes.S fuel' =>
      let '(d, fd') := read fd 512 in
      match d with
      | None => Some CAT_ERR
      | Some [] => Some []
      | Some d => o ← cat fuel' fd'; Some (d ++ o)
      end
  end.
End programs.

(** ** Reference definitions *)

(** A source that returns its contents in some pieces. *)
Definition read_chunks (f : list (list Z)) (n : nat) : option (list Z) * list (list Z) :=
  match f with
  | [] => (Some [], [])
  | d :: f' => (Some (take n d), if decide (drop n d = []) then f' else drop n d :: f')
  end.
(** The words of a text: what is between the spaces. *)
Fixpoint fields (t : list Z) : list (list Z) :=
  match t with
  | [] => [[]]
  | c :: t' =>
      if is_space c then [] :: fields t'
      else match fields t' with w :: ws => (c :: w) :: ws | [] => [[c]] end
  end.
Definition text_words (t : list Z) : list (list Z) := filter (λ w, w ≠ []) (fields t).
Definition text_lines (t : list Z) : nat := length (filter (λ c, c = 10) t).
(** [d] is a decimal numeral of [n]. *)
Definition numeral (d : list Z) (n : Z) : Prop := Forall is_digit d ∧ d ≠ [] ∧ foldl (λ n c, n * 10 + (c - 48)) 0 d = n.

(** ** Numbers *)

Lemma udigits_ok : Forall (λ d, nth (Z.to_nat d) udigits 0 = nth (Z.to_nat d) digits 0 ∧ is_digit (nth (Z.to_nat d) digits 0)) (seqZ 0 10).
Proof. repeat (constructor; [split; [reflexivity|unfold is_digit; simpl; lia]|]). constructor. Qed.
Lemma udigits_nth x : nth (Z.to_nat (x mod 10)) udigits 0 = nth (Z.to_nat (x mod 10)) digits 0 ∧ is_digit (nth (Z.to_nat (x mod 10)) digits 0).
Proof.
  pose proof udigits_ok as H. rewrite Forall_forall in H. apply H. apply elem_of_seqZ. pose proof (Z.mod_pos_bound x 10). lia.
Qed.
Lemma uprintint_loop_10 fuel : ∀ x, uprintint_loop fuel x 10 = printint_loop fuel x 10.
Proof. induction fuel as [|fuel IH]; intros x; [done|]. cbn [uprintint_loop printint_loop]. by rewrite (proj1 (udigits_nth x)), IH. Qed.
Lemma printint_loop_digits fuel : ∀ x, Forall is_digit (printint_loop fuel x 10).
Proof.
  induction fuel as [|fuel IH]; intros x; [constructor|]. cbn [printint_loop]. pose proof (proj2 (udigits_nth x)) as Hd.
  destruct (x / 10 =? 0); [by apply Forall_singleton|by constructor].
Qed.
Lemma num_val_foldl l : Forall is_digit l → foldl (λ n c, n * 10 + (c - 48)) 0 (rev l) = num_val 10 l.
Proof.
  induction 1 as [|c l Hc Hl IH]; [done|]. simpl. rewrite foldl_app, IH. simpl. unfold digit_val, is_digit in *. rewrite (proj2 (Z.ltb_lt _ _)) by lia. lia.
Qed.

Lemma uprintint_numeral n : 0 ≤ n < 2 ^ 31 → ∃ d, uprintint n 10 1 = Some d ∧ numeral d n ∧ (length d ≤ 10)%nat.
Proof.
  intros Hn. unfold uprintint. rewrite (proj2 (Z.ltb_ge n 0)), andb_false_r, app_nil_r, uprintint_loop_10 by lia.
  destruct (printint_digits n 10 0) as (ds & E & Hl & Hv); [by left|lia|]. unfold printint_buf in E. change (negb (0 =? 0) && (n <? 0)) with false in E, Hv. cbv zeta iota in E, Hv. rewrite !app_nil_r in E. rewrite E.
  rewrite (proj2 (Nat.ltb_ge _ _)) by lia. exists (rev ds). split; [done|]. rewrite length_rev. split; [|done].
  assert (Forall is_digit ds) as Hd by (rewrite <- E; apply printint_loop_digits). split; [by apply Forall_rev|]. split.
  - intros Hr. apply (f_equal (rev (A := Z))) in Hr. rewrite rev_involutive in Hr. cbn [rev] in Hr. rewrite Hr in E. cbn [printint_loop] in E. destruct (_ =? 0); discriminate E.
  - rewrite num_val_foldl, Hv by done. by apply u32_small; lia.
Qed.

(** ** Counting *)

Section chunks.
Context (str : Z → list Z).

Lemma chunks_step f d f' : f = d :: f' → d ≠ [] → Forall (λ d, d ≠ []) f' →
  ∃ x xs f1, read_chunks f 512 = (Some (x :: xs), f1) ∧ Forall (λ d, d ≠ []) f1 ∧ concat f = (x :: xs) ++ concat f1.
Proof.
  intros -> Hd Hf. destruct d as [|x d]; [done|]. exists x, (take 511 d). cbn [read_chunks]. eexists. split; [reflexivity|].
  change (x :: take 511 d) with (take 512 (x :: d)). case_decide as E.
  - split; [done|]. change (concat ((x :: d) :: f')) with ((x :: d) ++ concat f'). f_equal. rewrite <- (take_drop 512 (x :: d)) at 1. by rewrite E, app_nil_r.
  - split; [by constructor|]. change (concat ((x :: d) :: f')) with ((x :: d) ++ concat f'). change (concat (drop 512 (x :: d) :: f')) with (drop 512 (x :: d) ++ concat f').
    by rewrite app_assoc, take_drop.
Qed.

Lemma wc_loop_run name : ∀ fuel k f, Forall (λ d, d ≠ []) f → (length (concat f) < fuel)%nat →
  wc_loop read_chunks str fuel k f name =
    let k' := foldl wc_char k (concat f) in printf str WC_FMT [u32 (n_l k'); u32 (n_w k'); u32 (n_c k'); name].
Proof.
  induction fuel as [|fuel IH]; intros k f Hf Hl; [lia|]. cbn [wc_loop]. destruct f as [|d f']; [done|]. apply Forall_cons in Hf as [Hd Hf].
  destruct (chunks_step _ d f' eq_refl Hd Hf) as (x & xs & f1 & -> & Hf1 & E). rewrite E, foldl_app. apply IH; [done|].
  rewrite E, length_app in Hl. simpl in Hl. lia.
Qed.
Lemma cat_run : ∀ fuel f, Forall (λ d, d ≠ []) f → (length (concat f) < fuel)%nat → cat read_chunks fuel f = Some (concat f).
Proof.
  induction fuel as [|fuel IH]; intros f Hf Hl; [lia|]. cbn [cat]. destruct f as [|d f']; [done|]. apply Forall_cons in Hf as [Hd Hf].
  destruct (chunks_step _ d f' eq_refl Hd Hf) as (x & xs & f1 & -> & Hf1 & E). rewrite E, IH; [done|done|].
  rewrite E, length_app in Hl. simpl in Hl. lia.
Qed.
End chunks.

Lemma fields_cons t : ∃ w ws, fields t = w :: ws.
Proof. destruct t as [|c t]; simpl; [by eexists _, _|]. destruct (is_space c); [by eexists _, _|]. destruct (fields t); by eexists _, _. Qed.
(** The words that a text adds when the last one is still going on. *)
Definition new_words (inw : bool) (t : list Z) : list (list Z) :=
  filter (λ w, w ≠ []) (if inw then tail (fields t) else fields t).
Lemma wc_chars t : ∀ k, 0 ≤ n_l k → 0 ≤ n_w k → 0 ≤ n_c k →
  n_l k + Z.of_nat (length t) < 2 ^ 31 → n_w k + Z.of_nat (length t) < 2 ^ 31 → n_c k + Z.of_nat (length t) < 2 ^ 31 →
  let k' := foldl wc_char k t in
  n_l k' = n_l k + Z.of_nat (text_lines t) ∧ n_w k' = n_w k + Z.of_nat (length (new_words (n_in k) t)) ∧ n_c k' = n_c k + Z.of_nat (length t).
Proof.
  induction t as [|x t IH]; intros k Hl Hw Hc Bl Bw Bc; cbn [foldl length] in *; [unfold text_lines, new_words; destruct (n_in k); simpl; lia|].
  assert (n_l (wc_char k x) = n_l k + (if decide (x = 10) then 1 else 0) ∧ n_c (wc_char k x) = n_c k + 1 ∧ n_in (wc_char k x) = negb (is_space x) ∧
    n_w (wc_char k x) = n_w k + (if negb (is_space x) && negb (n_in k) then 1 else 0)) as (E1 & E2 & E3 & E4).
  { unfold wc_char. rewrite s32_small by lia. destruct (x =? 10) eqn:Ex; [rewrite s32_small by lia; rewrite decide_True by lia|rewrite decide_False by lia];
      destruct (is_space x); cbn; try (split_and!; lia); destruct (n_in k); cbn; rewrite ?s32_small by lia; split_and!; done || lia. }
  specialize (IH (wc_char k x)). destruct IH as (I1 & I2 & I3); try (rewrite ?E1, ?E2, ?E4; repeat case_match; lia).
  cbn zeta. rewrite I1, I2, I3, E1, E2, E3, E4. unfold text_lines. rewrite filter_cons. split_and!; [destruct (decide (x = 10)); simpl; lia| |lia].
  unfold new_words. cbn [fields]. destruct (fields_cons t) as (w & ws & Ef). rewrite Ef. destruct (is_space x), (n_in k); cbn; try lia.
  - rewrite (decide_False (P := [] ≠ [])) by (intros Hn; by apply Hn). rewrite Z.add_0_r. reflexivity.
  - rewrite decide_True by done. cbn [length]. rewrite Nat2Z.inj_succ, <- Z.add_assoc, Z.add_1_l. reflexivity.
Qed.

(** ** Main theorems *)

(** C40. What [printf] prints for a number, [atoi] reads: for every number that
    is not negative the decimal numeral of [printf]'s [%d] is read back by
    [atoi] of ulib.c as the same number. *)
Theorem printf_atoi str n : 0 ≤ n < 2 ^ 31 →
  ∃ d, printf str [37; 100] [n] = Some d ∧ (length d ≤ 10)%nat ∧ ∀ s fuel, cstr s d → (length d < fuel)%nat → atoi fuel s = Some n.
Proof.
  intros Hn. destruct (uprintint_numeral n Hn) as (d & E & (Hd & _ & Hv) & Hl). exists d. split; [|split; [done|]].
  - unfold printf. cbn [printf_loop]. simpl. rewrite s32_small, E by lia. simpl. by rewrite app_nil_r.
  - intros s fuel Hs Hf. rewrite <- Hv. apply (atoi_loop_spec s d []); rewrite ?app_nil_r; try done; lia.
Qed.
Lemma printf_atoi_witness : ∃ d, printf (λ _, []) [37; 100] [1977] = Some d ∧ d = [49; 57; 55; 55].
Proof.
  destruct (printf_atoi (λ _, []) 1977) as (d & E & _); [lia|]. exists d. split; [exact E|]. vm_compute in E. by injection E as <-.
Defined.

(** [wc] counts: whatever the pieces in which the text arrives, it prints
    the numerals of its lines, of its words, as the text between spaces, and
    of its characters, and the name. *)
Theorem wc_counts str f name fuel : Forall (λ d, d ≠ []) f → Z.of_nat (length (concat f)) < 2 ^ 31 → (length (concat f) < fuel)%nat → name ≠ 0 →
  ∃ dl dw dc, wc read_chunks str fuel f name = Some (dl ++ 32 :: dw ++ 32 :: dc ++ 32 :: str name ++ [10]) ∧
    numeral dl (Z.of_nat (text_lines (concat f))) ∧ numeral dw (Z.of_nat (length (text_words (concat f)))) ∧ numeral dc (Z.of_nat (length (concat f))).
Proof.
  intros Hf Hl Hfuel Hname. unfold wc. rewrite wc_loop_run by done. cbn zeta.
  destruct (wc_chars (concat f) (mk_counts 0 0 0 false)) as (-> & -> & ->); simpl; try lia.
  assert (∀ l : list Z, (text_lines l ≤ length l)%nat) as Bl by (intros l; apply length_filter).
  assert (∀ l : list Z, (length (new_words false l) ≤ length l)%nat) as Bw.
  { intros l. unfold new_words. induction l as [|x l IH]; [done|]. cbn [fields]. destruct (fields_cons l) as (w & ws & Ef). rewrite Ef in *.
    destruct (is_space x); rewrite ?filter_cons in *; repeat (case_decide; try done); simpl in *; lia. }
  specialize (Bl (concat f)). specialize (Bw (concat f)). change (text_words (concat f)) with (new_words false (concat f)).
  destruct (uprintint_numeral (Z.of_nat (text_lines (concat f)))) as (dl & E1 & H1 & _); [lia|].
  destruct (uprintint_numeral (Z.of_nat (length (new_words false (concat f))))) as (dw & E2 & H2 & _); [lia|].
  destruct (uprintint_numeral (Z.of_nat (length (concat f)))) as (dc & E3 & H3 & _); [lia|]. exists dl, dw, dc. split; [|done].
  unfold printf. simpl. rewrite !u32_small, !s32_small, !Z.add_0_l by lia. rewrite E1, E2, E3. simpl. rewrite (proj2 (Z.eqb_neq name 0)) by done. done.
Qed.
Lemma wc_counts_witness : ∃ dl dw dc, wc read_chunks (λ _, [102]) 20 [[97; 32; 98]; [99; 10; 100]] 7 = Some (dl ++ 32 :: dw ++ 32 :: dc ++ 32 :: [102] ++ [10]) ∧
  numeral dl 1 ∧ numeral dw 3 ∧ numeral dc 6.
Proof.
  destruct (wc_counts (λ _, [102]) [[97; 32; 98]; [99; 10; 100]] 7 20) as (dl & dw & dc & E & H1 & H2 & H3); [repeat constructor; discriminate|simpl; lia|simpl; lia|lia|].
  exists dl, dw, dc. split; [exact E|]. split; [exact H1|]. split; [exact H2|exact H3].
Defined.
