(* ===== verification/Mkfs.v ===== *)
(** * The program that builds the disk image (mkfs.c)

    The image is a file of sectors; [exit(1)] and a failed [assert] end the
    program.  The host is little endian, as the machine that runs the image:
    a structure in memory has the bytes that it has on disk. *)

From S2P Require Import Prelude Layout Sleeplock Disk Bio BioSpec Crc32 Log LogImg LogSpec LogTxn CString Fs FsTx FsBlock FsFile FsRw FsInode FsDir.

Set Default Proof Using "Type".

Definition NINODES : Z := 200.
Definition nbitmap : Z := FSSIZE / (BSIZE * 8) + 1.
Definition ninodeblocks : Z := NINODES / IPB + 1.
Definition nlog : Z := LOGSIZE.
Definition nmeta : Z := 2 + nlog + ninodeblocks + nbitmap.
Definition nblocks : Z := FSSIZE - nmeta.

(** The sectors of the image and their number, [freeinode], [freeblock]. *)
Record mkst := mk_mkst { m_img : Z → block; m_len : Z; m_freeinode : Z; m_freeblock : Z }.
Definition m_set_img i n s := mk_mkst i n (m_freeinode s) (m_freeblock s).
Definition m_set_freeinode n s := mk_mkst (m_img s) (m_len s) n (m_freeblock s).
Definition m_set_freeblock n s := mk_mkst (m_img s) (m_len s) (m_freeinode s) n.

(** The bytes of a number, lowest first, read back. *)
Definition xshort (x : Z) : Z := le_val [u8 x; u8 (Z.shiftr x 8)].
Definition xint (x : Z) : Z := le_val [u8 x; u8 (Z.shiftr x 8); u8 (Z.shiftr x 16); u8 (Z.shiftr x 24)].

Definition wsect (sec : Z) (buf : block) : M mkst unit :=
  modify (λ s, m_set_img (<[sec := buf]> (m_img s)) (Z.max (m_len s) (sec + 1)) s).
Definition rsect (sec : Z) : M mkst block :=
  s ← get; if sec <? m_len s then mret (m_img s sec) else panic "read".

Definition mkfs_sb : superblock :=
  mk_superblock (xint FSSIZE) (xint nblocks) (xint NINODES) (xint nlog) (xint 2) (xint (2 + nlog)) (xint (2 + nlog + ninodeblocks)).

Definition winode (inum : Z) (ip : dinode) : M mkst unit :=
  let bn := IBLOCK inum mkfs_sb in
  buf ← rsect bn;
  wsect bn (splice (ioff inum) (di_encode ip) buf).
Definition rinode (inum : Z) : M mkst dinode :=
  let bn := IBLOCK inum mkfs_sb in
  buf ← rsect bn;
  mret (di_decode (slice (ioff inum) (Z.to_nat SIZEOF_DINODE) buf)).

Definition mk_ialloc (type : Z) : M mkst Z :=
  s ← get;
  let inum := m_freeinode s in
  modify (m_set_freeinode (u32 (inum + 1))) ;;
  winode inum (mk_dinode (xshort type) 0 0 (xshort 1) (xint 0) (replicate 13 0)) ;;
  mret inum.

(** The map with the first [used] blocks marked. *)
Definition mk_bitmap (used : Z) : block := foldl bit_set zero_block (seqZ 0 used).
Definition mk_balloc (used : Z) : M mkst unit :=
  if negb (used <? BSIZE * 8) then panic "assert" else
  wsect (sb_bmapstart mkfs_sb) (mk_bitmap used).

(** [freeblock++] *)
Definition new_block : M mkst Z :=
  s ← get;
  modify (m_set_freeblock (u32 (m_freeblock s + 1))) ;;
  mret (xint (m_freeblock s)).
Definition di_set_addr (j : nat) (a : Z) (d : dinode) : dinode :=
  mk_dinode (di_type d) (di_major d) (di_minor d) (di_nlink d) (di_size d) (<[j := a]> (di_addrs d)).
Definition di_set_size (n : Z) (d : dinode) : dinode :=
  mk_dinode (di_type d) (di_major d) (di_minor d) (di_nlink d) n (di_addrs d).
Definition di_addr (d : dinode) (j : nat) : Z := nth j (di_addrs d) 0.

(** The block of [iappend] for block [fbn] of the file, a new one if need be:
    an entry of the indirect block, or an address of the inode. *)
Definition iappend_entry (din : dinode) (fbn : Z) : M mkst Z :=
  indirect ← rsect (xint (di_addr din 12));
  let k := (4 * Z.to_nat (fbn - NDIRECT))%nat in
  indirect ← (if rd32 k indirect =? 0 then
                a ← new_block;
                wsect (xint (di_addr din 12)) (wr32 k a indirect) ;;
                mret (wr32 k a indirect)
              else mret indirect);
  mret (xint (rd32 k indirect)).
Definition iappend_addr (din : dinode) (j : nat) : M mkst dinode :=
  if xint (di_addr din j) =? 0 then a ← new_block; mret (di_set_addr j a din) else mret din.
Definition iappend_block (fbn : Z) (din : dinode) : M mkst (dinode * Z) :=
  if fbn <? NDIRECT then
    din ← iappend_addr din (Z.to_nat fbn);
    mret (din, xint (di_addr din (Z.to_nat fbn)))
  else
    din ← iappend_addr din 12;
    x ← iappend_entry din fbn;
    mret (din, x).

Fixpoint iappend_loop (fuel : nat) (din : dinode) (off : Z) (p : list Z) : M mkst (dinode * Z) :=
  match fuel with
  | O => undef "iappend: fuel"
  | S fuel' =>
      if (length p =? 0)%nat then mret (din, off) else
      let fbn := off / BSIZE in
      if negb (fbn <? MAXFILE) then panic "assert" else
      r ← iappend_block fbn din;
      let n1 := Z.min (Z.of_nat (length p)) ((fbn + 1) * BSIZE - off) in
      buf ← rsect r.2;
      wsect r.2 (splice (Z.to_nat (off - fbn * BSIZE)) (take (Z.to_nat n1) p) buf) ;;
      iappend_loop fuel' r.1 (off + n1) (drop (Z.to_nat n1) p)
  end.
Definition iappend (inum : Z) (xp : list Z) : M mkst unit :=
  din ← rinode inum;
  let off := xint (di_size din) in
  r ← iappend_loop (S (length xp)) din off xp;
  winode inum (di_set_size (xint r.2) r.1).

(** A file of the command line: its name and what the reads of it return. *)
Record hostfile := mk_hostfile { hf_name : list Z; hf_reads : list (list Z) }.
Definition UNDERSCORE : Z := 95.
(** The name without a leading underscore. *)
Definition strip (name : list Z) : list Z :=
  match name with c :: name' => if c =? UNDERSCORE then name' else name | [] => [] end.
Definition add_file (rootino : Z) (f : hostfile) : M mkst unit :=
  if bool_decide (SLASH ∈ hf_name f) then panic "assert" else
  inum ← mk_ialloc T_FILE;
  iappend rootino (de_encode (mk_dirent (xshort inum) (strncpy (λ k, nth k (strip (hf_name f)) 0) (Z.to_nat DIRSIZ)))) ;;
  forM (hf_reads f) (iappend inum).

Definition DOT_NAME : list Z := 46 :: replicate 13 0.
Definition DOTDOT_NAME : list Z := 46 :: 46 :: replicate 12 0.
(** The size of the root directory, rounded up. *)
Definition fix_root (rootino : Z) : M mkst unit :=
  din ← rinode rootino;
  let off := xint (di_size din) in
  let off := u32 ((off / BSIZE + 1) * BSIZE) in
  winode rootino (di_set_size (xint off) din).
Definition mkfs (files : list hostfile) : M mkst unit :=
  modify (m_set_freeblock nmeta) ;;
  forM (seqZ 0 FSSIZE) (λ i, wsect i zero_block) ;;
  wsect 1 (splice 0 (sb_encode mkfs_sb) zero_block) ;;
  rootino ← mk_ialloc T_DIR;
  if negb (rootino =? ROOTINO) then panic "assert" else
  iappend rootino (de_encode (mk_dirent (xshort rootino) DOT_NAME)) ;;
  iappend rootino (de_encode (mk_dirent (xshort rootino) DOTDOT_NAME)) ;;
  forM files (add_file rootino) ;;
  fix_root rootino ;;
  s ← get;
  mk_balloc (m_freeblock s).
(** The empty file the program starts with. *)
Definition mkfs_start : mkst := mk_mkst (λ _, zero_block) 0 1 0.

(** ** Numbers and the map *)

#[local] Notation sb := mkfs_sb.

Lemma xint_small x : 0 ≤ x < 2 ^ 32 → xint x = x.
Proof. intros Hx. unfold xint, u8. rewrite !Z.shiftr_div_pow2 by lia. cbn [le_val]. dlia. Qed.
Lemma xshort_small x : 0 ≤ x < 2 ^ 16 → xshort x = x.
Proof. intros Hx. unfold xshort, u8. rewrite !Z.shiftr_div_pow2 by lia. cbn [le_val]. dlia. Qed.

Lemma sb_eq : sb = mk_superblock 1000 941 200 30 2 32 58.
Proof. reflexivity. Qed.
Lemma sb_fine : sb_ok sb.
Proof. rewrite sb_eq. split; simpl; unfold FSSIZE; change (200 / IPB) with 25; lia. Qed.

Lemma mk_bitmap_succ n : 0 ≤ n → mk_bitmap (n + 1) = bit_set (mk_bitmap n) n.
Proof.
  intros Hn. unfold mk_bitmap. rewrite seqZ_app by lia. by rewrite foldl_app.
Qed.
Lemma mk_bitmap_ok n : 0 ≤ n ≤ BPB → block_ok (mk_bitmap n) ∧ ∀ b, 0 ≤ b < BPB → bit_free (mk_bitmap n) b = negb (b <? n).
Proof.
  intros [Hn Hle]. revert Hle. revert n Hn. apply (natlike_ind (λ n, n ≤ BPB → _)).
  - intros _. split; [apply zero_block_ok|]. intros b Hb. rewrite (proj2 (Z.ltb_ge _ _)) by lia. unfold bit_free, mk_bitmap. cbn [seqZ foldl].
    assert (∀ k, nth k zero_block 0 = 0) as Hz by (intros k; unfold zero_block; rewrite nth_lookup; destruct (_ !! k) eqn:E; [by apply lookup_replicate in E as [-> _]|done]).
    change (mk_bitmap 0) with zero_block. rewrite Hz, Z.land_0_l. done.
  - intros n Hn IH Hle. destruct IH as [Hok Hb]; [lia|]. rewrite <- Z.add_1_r, mk_bitmap_succ by done. split; [apply bit_write_ok; [done|lia]|].
    intros b Hbb. rewrite bit_free_set by (done || lia). rewrite Hb by done. case_decide; destruct (b <? n) eqn:E1, (b <? n + 1) eqn:E2; simpl; done || lia.
Qed.

(** ** The image as a file system

    The blocks of the file system that is being built: those of the image, and
    the map with every block below [freeblock] marked, which [balloc] writes at
    the end. *)
Definition vview (s : mkst) (n : Z) : block := if n =? sb_bmapstart sb then mk_bitmap (m_freeblock s) else m_img s n.
Record mrep (s : mkst) (t : txv) : Prop := mk_mrep {
  mr_len : m_len s = FSSIZE;
  mr_fb : nmeta ≤ m_freeblock s ≤ FSSIZE;
  mr_ok : ∀ n, block_ok (m_img s n);
  mr_zero : ∀ n, m_freeblock s ≤ n < FSSIZE → m_img s n = zero_block;
  mr_view : ∀ n, tv_view t n = vview s n;
  mr_held : tv_held t = ∅;
}.

Lemma nmeta_59 : nmeta = 59.
Proof. reflexivity. Qed.
Lemma bmap_58 : sb_bmapstart sb = 58.
Proof. reflexivity. Qed.
#[local] Opaque mkfs_sb.
Ltac mlia := rewrite ?nmeta_59, ?bmap_58 in *; unfold FSSIZE, data_block, datastart in *; rewrite ?sb_eq in *; cbn [sb_size sb_bmapstart sb_inodestart sb_ninodes] in *; lia.

Section rep.
Context (pid : Z) (s : mkst) (t : txv) (R : mrep s t).

Lemma rep_ok n : block_ok (tv_view t n).
Proof using R.
  rewrite (mr_view _ _ R). unfold vview. case_match; [|apply R]. apply mk_bitmap_ok. pose proof (mr_fb _ _ R). change BPB with 4096. mlia.
Qed.
Lemma rep_used n : 0 ≤ n < 1000 → used sb (tv_view t) n ↔ n < m_freeblock s.
Proof using R.
  intros Hn. rewrite (used_bit sb _ n sb_fine) by (rewrite sb_eq; done). rewrite (mr_view _ _ R). unfold vview. rewrite Z.eqb_refl.
  pose proof (mr_fb _ _ R). destruct (mk_bitmap_ok (m_freeblock s)) as [_ Hb]; [change BPB with 4096; mlia|]. rewrite Hb by (change BPB with 4096; lia).
  rewrite negb_false_iff. apply Z.ltb_lt.
Qed.
Lemma rep_map : map_wf sb (tv_view t).
Proof using R. intros b Hb. pose proof (mr_fb _ _ R). apply rep_used; mlia. Qed.
Lemma rep_free : m_freeblock s < FSSIZE → m_freeblock s ∈ free_blocks sb (tv_view t).
Proof using R. intros Hlt. pose proof (mr_fb _ _ R). apply elem_of_free. split; [mlia|]. rewrite rep_used by mlia. lia. Qed.

Lemma rsect_run n : n < FSSIZE → n ≠ sb_bmapstart sb → rsect n pid s = Ret (tv_view t n) s.
Proof using R.
  intros Hn Hm. unfold rsect. rewrite (bind_Ret get _ pid s s s eq_refl). rewrite (mr_len _ _ R), (proj2 (Z.ltb_lt _ _)) by done.
  rewrite (mr_view _ _ R). unfold vview. by rewrite (proj2 (Z.eqb_neq _ _)).
Qed.

Lemma wsect_run n d t' : 0 ≤ n < m_freeblock s → n ≠ sb_bmapstart sb → block_ok d →
  (∀ k, tv_view t' k = <[n := d]> (tv_view t) k) → tv_held t' = ∅ →
  ∃ s', wsect n d pid s = Ret tt s' ∧ mrep s' t' ∧ m_freeblock s' = m_freeblock s ∧ m_freeinode s' = m_freeinode s.
Proof using R.
  intros Hn Hm Hd Hv Hh. eexists. split; [reflexivity|]. split; [|done]. pose proof (mr_fb _ _ R) as Hfb. split; simpl; try done.
  - rewrite (mr_len _ _ R). lia.
  - intros k. destruct (decide (k = n)) as [->|Hne]; [by rewrite fn_lookup_insert|]. rewrite fn_lookup_insert_ne by done. apply R.
  - intros k Hk. rewrite fn_lookup_insert_ne by lia. by apply R.
  - intros k. rewrite Hv. unfold vview. simpl. destruct (decide (k = n)) as [->|Hne].
    + by rewrite (proj2 (Z.eqb_neq n _)), !fn_lookup_insert by done.
    + rewrite !fn_lookup_insert_ne by done. apply R.
Qed.

Lemma new_block_run : m_freeblock s < FSSIZE →
  ∃ s', new_block pid s = Ret (m_freeblock s) s' ∧ mrep s' (tv_alloc sb (m_freeblock s) t) ∧ m_freeblock s' = m_freeblock s + 1 ∧ m_freeinode s' = m_freeinode s.
Proof using R.
  intros Hlt. pose proof (mr_fb _ _ R) as Hfb. unfold FSSIZE in Hlt. rewrite nmeta_59 in Hfb. exists (m_set_freeblock (u32 (m_freeblock s + 1)) s). split; [|split; [|split; [|done]]].
  - unfold new_block. mstep. mstep. rewrite xint_small by lia. reflexivity.
  - split; simpl; rewrite ?u32_small by lia; try apply R.
    + rewrite nmeta_59. unfold FSSIZE. lia.
    + intros n Hn. apply R. lia.
    + intros n. unfold vview, tv_alloc. simpl. rewrite ?u32_small, mk_bitmap_succ by lia. rewrite (mr_view _ _ R). unfold vview at 1. rewrite Z.eqb_refl.
      destruct (decide (n = m_freeblock s)) as [->|Hne]; [rewrite fn_lookup_insert, (proj2 (Z.eqb_neq _ _)) by (rewrite bmap_58; lia); symmetry; apply R; unfold FSSIZE; lia|].
      rewrite fn_lookup_insert_ne by done. destruct (decide (n = sb_bmapstart sb)) as [->|Hnb]; [by rewrite fn_lookup_insert, Z.eqb_refl|].
      rewrite fn_lookup_insert_ne, (mr_view _ _ R) by done. unfold vview. by rewrite (proj2 (Z.eqb_neq n _)).
  - simpl. by rewrite u32_small by lia.
Qed.
End rep.

(** ** A block for the file *)

Lemma addr_small view i k : file_wf sb view i → 0 ≤ k ≤ MAXFILE → 0 ≤ fslot view i k < 1000 ∧ (fslot view i k ≠ 0 → 59 ≤ fslot view i k).
Proof.
  intros W Hk. destruct (decide (fslot view i k = 0)) as [->|Hz]; [lia|]. destruct (fw_block _ _ _ W k Hk Hz) as [Hd _]. mlia.
Qed.
Lemma iaddr_small view i j : file_wf sb view i → (j ≤ 12)%nat → 0 ≤ iaddr i j < 1000 ∧ (iaddr i j ≠ 0 → 59 ≤ iaddr i j).
Proof.
  intros W Hj. destruct (decide (j = 12%nat)) as [->|Hne]; [rewrite <- (fslot_ind view); apply (addr_small _ _ _ W); rewrite maxfile_140; lia|].
  pose proof (addr_small view i (Z.of_nat j) W ltac:(rewrite maxfile_140; lia)) as H. rewrite fslot_faddr in H by (rewrite maxfile_140; lia).
  unfold faddr, NDIRECT in H. by rewrite (proj2 (Z.ltb_lt _ _)), Nat2Z.id in H by lia.
Qed.
Lemma faddr_direct view i (j : nat) : (j < 12)%nat → faddr view i (Z.of_nat j) = iaddr i j.
Proof. intros Hj. unfold faddr, NDIRECT. by rewrite (proj2 (Z.ltb_lt _ _)), Nat2Z.id by lia. Qed.
Lemma faddr_indirect view i bn : 12 ≤ bn → iaddr i 12 ≠ 0 → faddr view i bn = rd32 (4 * Z.to_nat (bn - NDIRECT)) (view (iaddr i 12)).
Proof. intros Hb Hz. unfold faddr, NDIRECT. by rewrite (proj2 (Z.ltb_ge _ _)), (proj2 (Z.eqb_neq _ _)) by lia. Qed.

(** ** Which addresses a file has *)

Definition slots_are (view : Z → block) (i : inode) (P : Z → Prop) : Prop :=
  ∀ k, 0 ≤ k ≤ MAXFILE → fslot view i k ≠ 0 ↔ P k.
(** The first byte that needs address [k]. *)
Definition spos (k : Z) : Z := if k =? MAXFILE then NDIRECT * BSIZE else k * BSIZE.
(** The blocks that a file of [n] bytes takes, the indirect one included. *)
Definition fblocks (n : Z) : Z := (n + 511) / BSIZE + (if NDIRECT * BSIZE <? n then 1 else 0).
Definition dense (view : Z → block) (i : inode) (n : Z) : Prop := slots_are view i (λ k, spos k < n).

Lemma slots_iff view i P Q : (∀ k, 0 ≤ k ≤ MAXFILE → P k ↔ Q k) → slots_are view i P → slots_are view i Q.
Proof. intros HPQ H k Hk. rewrite (H k Hk). by apply HPQ. Qed.
Lemma slots_grown view i P k a view' i' : grown sb view i k a view' i' → a ≠ 0 → slots_are view i P → slots_are view' i' (λ k', k' = k ∨ P k').
Proof.
  intros G Ha H k' Hk'. destruct (decide (k' = k)) as [->|Hne]; [rewrite (gr_slot _ _ _ _ _ _ _ G); split; [by left|done]|].
  rewrite (gr_slots _ _ _ _ _ _ _ G k' Hk' Hne), (H k' Hk'). split; [by right|by intros [?|?]].
Qed.

Lemma logged_alloc sb' a t : a ∈ tv_logged (tv_alloc sb' a t) ∧ tv_logged (tv_alloc sb' a t) ⊆ {[a]} ∪ tv_logged t ∪ {[sb_bmapstart sb']}.
Proof. unfold tv_alloc. simpl. set_solver. Qed.
Lemma logged_alloc_log sb' a b d t :
  a ∈ tv_logged (tv_log b d (tv_alloc sb' a t)) ∧ tv_logged (tv_log b d (tv_alloc sb' a t)) ⊆ {[a]} ∪ tv_logged t ∪ {[sb_bmapstart sb']} ∪ {[b]}.
Proof. unfold tv_alloc. simpl. set_solver. Qed.

Section block.
Context (pid : Z) (s : mkst) (t : txv) (i : inode) (R : mrep s t) (W : file_wf sb (tv_view t) i).

(** A block that the file has. *)
Lemma mapped_hit bn : faddr (tv_view t) i bn ≠ 0 → mapped sb t i bn (faddr (tv_view t) i bn) t i.
Proof using R W.
  intros Hz. apply mk_mapped; [apply R|reflexivity|exact Hz|exact W|apply (rep_map s t R)|apply fext_refl|left; split; reflexivity|apply Nat.le_add_r|apply Nat.add_le_mono_r, Nat.le_add_r].
Qed.

Lemma entry_hit bn : 12 ≤ bn < MAXFILE → iaddr i 12 ≠ 0 → faddr (tv_view t) i bn ≠ 0 →
  iappend_entry (i_dinode i) bn pid s = Ret (faddr (tv_view t) i bn) s.
Proof using R W.
  intros Hb H12 Hz. destruct (iaddr_small _ _ 12 W ltac:(lia)) as [Hs12 Hs12']. specialize (Hs12' H12).
  pose proof (addr_small _ _ bn W ltac:(lia)) as [Hs _]. rewrite fslot_faddr in Hs by lia.
  unfold iappend_entry. change (di_addr (i_dinode i) 12) with (iaddr i 12). rewrite xint_small by lia.
  mrun (rsect_run pid s t R (iaddr i 12) ltac:(unfold FSSIZE; lia) ltac:(rewrite bmap_58; lia)). rewrite <- faddr_indirect by lia.
  rewrite (proj2 (Z.eqb_neq _ 0)) by done. rewrite bind_ret, <- faddr_indirect, xint_small by lia. done.
Qed.

Lemma entry_new bn : 12 ≤ bn < MAXFILE → iaddr i 12 ≠ 0 → faddr (tv_view t) i bn = 0 → m_freeblock s < FSSIZE →
  ∃ a s' t', iappend_entry (i_dinode i) bn pid s = Ret a s' ∧ mrep s' t' ∧ mapped sb t i bn a t' i ∧ grown sb (tv_view t) i bn a (tv_view t') i ∧
    m_freeblock s' = m_freeblock s + 1 ∧ m_freeinode s' = m_freeinode s.
Proof using R W.
  intros Hb H12 Hz Hlt. destruct (iaddr_small _ _ 12 W ltac:(lia)) as [Hs12 Hs12']. specialize (Hs12' H12).
  pose proof (mr_fb _ _ R) as Hfb. rewrite nmeta_59 in Hfb. unfold FSSIZE in Hfb, Hlt. set (j := Z.to_nat (bn - NDIRECT)).
  assert (bn = 12 + Z.of_nat j ∧ (j < 128)%nat) as [Ej Hj] by (rewrite maxfile_140 in Hb; unfold j, NDIRECT; lia).
  pose proof (rep_free s t R Hlt) as Hfree. pose proof (rep_ok s t R (iaddr i 12)) as Hok. set (a := m_freeblock s) in *.
  destruct (grow_ind_view sb t i a W Hfree H12) as [Hiv Hia]. rewrite (Ej) in Hz.
  assert (grown sb (tv_view t) i (12 + Z.of_nat j) a (<[iaddr i 12 := wr32 (4 * j) a (tv_view t (iaddr i 12))]> (tv_view (tv_alloc sb a t))) i) as G
    by exact (grown_indirect sb t i a sb_fine (rep_ok s t R _) (rep_map s t R) W Hfree j Hj H12 Hz Hok).
  destruct (new_block_run pid s t R Hlt) as (s1 & E1 & R1 & F1 & I1). fold a in E1, R1, F1.
  assert (used sb (tv_view t) (iaddr i 12)) as Hu12. { rewrite <- (fslot_ind (tv_view t)). apply W; [rewrite maxfile_140; lia|by rewrite fslot_ind]. }
  apply (rep_used s t R) in Hu12; [|lia]. fold a in Hu12.
  assert (block_ok (wr32 (4 * j) a (tv_view t (iaddr i 12)))) as Hok2 by (apply block_ok_wr32; [change (Z.to_nat BSIZE) with 512%nat; lia|done]).
  destruct (wsect_run pid s1 _ R1 (iaddr i 12) (wr32 (4 * j) a (tv_view t (iaddr i 12))) (tv_log (iaddr i 12) (wr32 (4 * j) a (tv_view t (iaddr i 12))) (tv_alloc sb a t)))
    as (s2 & E2 & R2 & F2 & I2); [lia|rewrite bmap_58; lia|exact Hok2|reflexivity|apply R|].
  exists a, s2. eexists. split; [|split; [exact R2|split; [|split; [rewrite Ej; exact G|lia]]]].
  - unfold iappend_entry. change (di_addr (i_dinode i) 12) with (iaddr i 12). rewrite xint_small by lia. fold j.
    mrun (rsect_run pid s t R (iaddr i 12) ltac:(unfold FSSIZE; lia) ltac:(rewrite bmap_58; lia)).
    rewrite faddr_indirect in Hz by lia. replace (Z.to_nat (12 + Z.of_nat j - NDIRECT)) with j in Hz by (unfold NDIRECT; lia). rewrite Hz, Z.eqb_refl.
    rewrite bind_assoc. mrun E1. rewrite bind_assoc. mrun E2. mstep. rewrite rd32_wr32_eq by (destruct Hok as [-> _]; change (Z.to_nat BSIZE) with 512%nat; lia).
    rewrite u32_small, xint_small by lia. done.
  - rewrite Ej. apply grown_mapped; [apply sb_fine|apply (rep_map s t R)|exact W|lia|exact G|reflexivity|apply R| |].
    + apply logged_alloc_log.
    + rewrite ind_set_0 by exact H12. apply logged_alloc_log.
Qed.

(** An address of the inode. *)
Lemma addr_hit j : (j ≤ 12)%nat → iaddr i j ≠ 0 → iappend_addr (i_dinode i) j pid s = Ret (i_dinode i) s.
Proof using W.
  intros Hj Hz. destruct (iaddr_small _ _ j W Hj) as [Hs _]. unfold iappend_addr. change (di_addr (i_dinode i) j) with (iaddr i j).
  rewrite xint_small by lia. rewrite (proj2 (Z.eqb_neq _ 0)) by exact Hz. reflexivity.
Qed.
Lemma addr_new j : (j ≤ 12)%nat → iaddr i j = 0 → m_freeblock s < FSSIZE →
  let a := m_freeblock s in let i' := i_set_addrs (<[j := a]> (i_addrs i)) i in
  ∃ s', iappend_addr (i_dinode i) j pid s = Ret (i_dinode i') s' ∧ mrep s' (tv_alloc sb a t) ∧
    grown sb (tv_view t) i (if decide (j = 12%nat) then MAXFILE else Z.of_nat j) a (tv_view (tv_alloc sb a t)) i' ∧
    m_freeblock s' = a + 1 ∧ m_freeinode s' = m_freeinode s.
Proof using R W.
  intros Hj Hz Hlt a i'. destruct (new_block_run pid s t R Hlt) as (s1 & E1 & R1 & F1 & I1). exists s1.
  split; [|split; [exact R1|split; [|split; [exact F1|exact I1]]]].
  - unfold iappend_addr. change (di_addr (i_dinode i) j) with (iaddr i j). rewrite Hz. change (xint 0 =? 0) with true. cbv iota. mrun E1. reflexivity.
  - exact (grown_addr sb t i a sb_fine (rep_ok s t R _) (rep_map s t R) W (rep_free s t R Hlt) j Hj Hz).
Qed.

(** A new direct block. *)
Lemma direct_new j : (j < 12)%nat → iaddr i j = 0 → m_freeblock s < FSSIZE →
  ∃ a i' s' t', iappend_block (Z.of_nat j) (i_dinode i) pid s = Ret (i_dinode i', a) s' ∧ mrep s' t' ∧ mapped sb t i (Z.of_nat j) a t' i' ∧
    (∀ P, slots_are (tv_view t) i P → slots_are (tv_view t') i' (λ k, k = Z.of_nat j ∨ P k)) ∧
    m_freeblock s' = m_freeblock s + 1 ∧ m_freeinode s' = m_freeinode s.
Proof using R W.
  intros Hj Hz Hlt. destruct (addr_new j ltac:(lia) Hz Hlt) as (s1 & E1 & R1 & G & F1 & I1). rewrite decide_False in G by lia.
  pose proof (mr_fb _ _ R) as Hfb. rewrite nmeta_59 in Hfb. unfold FSSIZE in Hfb.
  set (i' := i_set_addrs _ i) in *. exists (m_freeblock s), i', s1, (tv_alloc sb (m_freeblock s) t).
  split; [|split; [exact R1|split; [|split; [|split; [exact F1|exact I1]]]]].
  - unfold iappend_block, NDIRECT. rewrite (proj2 (Z.ltb_lt _ _)) by lia. rewrite Nat2Z.id. mrun E1.
    change (di_addr (i_dinode i') j) with (iaddr i' j). unfold i' at 2. rewrite iaddr_insert by (rewrite (fw_len _ _ _ W); lia).
    rewrite decide_True by reflexivity. rewrite xint_small by lia. reflexivity.
  - apply grown_mapped; [apply sb_fine|apply (rep_map s t R)|exact W|rewrite maxfile_140; lia|exact G| |apply R|apply logged_alloc|].
    + unfold i'. rewrite iaddr_insert by (rewrite (fw_len _ _ _ W); lia). rewrite decide_False by lia. reflexivity.
    + etrans; [apply logged_alloc|]. apply union_subseteq_l.
  - intros P. apply (slots_grown _ _ _ _ _ _ _ G). lia.
Qed.
End block.

(** A new block behind the indirect block, and the indirect block with it. *)
Lemma indirect_new pid s t i bn : mrep s t → file_wf sb (tv_view t) i → 12 ≤ bn < MAXFILE → iaddr i 12 ≠ 0 → faddr (tv_view t) i bn = 0 → m_freeblock s < FSSIZE →
  ∃ a s' t', iappend_block bn (i_dinode i) pid s = Ret (i_dinode i, a) s' ∧ mrep s' t' ∧ mapped sb t i bn a t' i ∧
    (∀ P, slots_are (tv_view t) i P → slots_are (tv_view t') i (λ k, k = bn ∨ P k)) ∧
    m_freeblock s' = m_freeblock s + 1 ∧ m_freeinode s' = m_freeinode s.
Proof.
  intros R W Hb H12 Hz Hlt. destruct (entry_new pid s t i R W bn Hb H12 Hz Hlt) as (a & s1 & t1 & E1 & R1 & M & G & F1 & I1).
  exists a, s1, t1. split; [|split; [exact R1|split; [exact M|split; [|split; [exact F1|exact I1]]]]].
  - unfold iappend_block, NDIRECT. rewrite (proj2 (Z.ltb_ge _ _)) by lia. mrun (addr_hit pid s t i W 12 ltac:(lia) H12). mrun E1. reflexivity.
  - intros P. apply (slots_grown _ _ _ _ _ _ _ G). apply M.
Qed.
Lemma indirect_first pid s t i bn : mrep s t → file_wf sb (tv_view t) i → 12 ≤ bn < MAXFILE → iaddr i 12 = 0 → m_freeblock s + 1 < FSSIZE →
  ∃ a i' s' t', iappend_block bn (i_dinode i) pid s = Ret (i_dinode i', a) s' ∧ mrep s' t' ∧ mapped sb t i bn a t' i' ∧
    (∀ P, slots_are (tv_view t) i P → slots_are (tv_view t') i' (λ k, k = bn ∨ k = MAXFILE ∨ P k)) ∧
    m_freeblock s' = m_freeblock s + 2 ∧ m_freeinode s' = m_freeinode s.
Proof.
  intros R W Hb H12 Hlt. destruct (addr_new pid s t i R W 12 ltac:(lia) H12 ltac:(lia)) as (s1 & E1 & R1 & G & F1 & I1). rewrite decide_True in G by reflexivity.
  pose proof (mr_fb _ _ R) as Hfb. rewrite nmeta_59 in Hfb. set (i1 := i_set_addrs _ i) in *. set (t1 := tv_alloc sb (m_freeblock s) t) in *.
  assert (file_wf sb (tv_view t1) i1) as W1 by (apply (grown_wf _ _ _ MAXFILE _ _ _ sb_fine (rep_map s t R) ltac:(rewrite maxfile_140; lia) G W)).
  assert (iaddr i1 12 = m_freeblock s) as H1 by (rewrite <- (fslot_ind (tv_view t1)); apply G).
  assert (faddr (tv_view t) i bn = 0) as Hz by (unfold faddr, NDIRECT; rewrite (proj2 (Z.ltb_ge _ _)), H12 by lia; reflexivity).
  assert (faddr (tv_view t1) i1 bn = 0) as Hz1 by (rewrite <- (fslot_faddr (tv_view t1)) by lia; rewrite (gr_slots _ _ _ _ _ _ _ G bn) by lia; rewrite (fslot_faddr (tv_view t)) by lia; exact Hz).
  destruct (entry_new pid s1 t1 i1 R1 W1 bn Hb ltac:(lia) Hz1 ltac:(lia)) as (a & s2 & t2 & E2 & R2 & M & G2 & F2 & I2).
  exists a, i1, s2, t2. split; [|split; [exact R2|split; [|split; [|split; [lia|congruence]]]]].
  - unfold iappend_block, NDIRECT. rewrite (proj2 (Z.ltb_ge _ _)) by lia. mrun E1. mrun E2. reflexivity.
  - apply (mapped_ind sb t i (m_freeblock s) t1 i1 bn a t2 sb_fine (rep_map s t R) ltac:(lia) H12 Hz G); [apply logged_alloc|exact M].
  - intros P HP. apply (slots_grown _ _ _ _ _ _ _ G2); [apply M|]. apply (slots_grown _ _ _ _ _ _ _ G); [lia|exact HP].
Qed.

(** A block that is there. *)
Lemma iappend_block_hit pid s t i bn : mrep s t → file_wf sb (tv_view t) i → 0 ≤ bn < MAXFILE → faddr (tv_view t) i bn ≠ 0 →
  iappend_block bn (i_dinode i) pid s = Ret (i_dinode i, faddr (tv_view t) i bn) s.
Proof.
  intros R W Hb Hz. unfold iappend_block. change NDIRECT with 12. destruct (bn <? 12) eqn:E.
  - assert (faddr (tv_view t) i bn = iaddr i (Z.to_nat bn)) as Ea by (unfold faddr, NDIRECT; rewrite E; reflexivity). rewrite Ea in *.
    mrun (addr_hit pid s t i W (Z.to_nat bn) ltac:(lia) Hz). change (di_addr (i_dinode i) (Z.to_nat bn)) with (iaddr i (Z.to_nat bn)).
    destruct (iaddr_small _ _ (Z.to_nat bn) W ltac:(lia)) as [Hs _]. rewrite xint_small by lia. reflexivity.
  - assert (iaddr i 12 ≠ 0) as H12 by (intros E12; apply Hz; unfold faddr, NDIRECT; rewrite E, E12; reflexivity).
    mrun (addr_hit pid s t i W 12 ltac:(lia) H12). mrun (entry_hit pid s t i R W bn ltac:(lia) H12 Hz). reflexivity.
Qed.

(** What the file has of blocks after one more byte. *)
Lemma spos_step off k : 0 ≤ off < 71680 → 0 ≤ k ≤ 140 →
  spos k < off + 1 ↔ spos k < off ∨ off mod 512 = 0 ∧ (k = off / 512 ∨ k = 140 ∧ off = 6144).
Proof. intros Ho Hk. unfold spos, NDIRECT, BSIZE. rewrite maxfile_140. destruct (k =? 140) eqn:E; dlia. Qed.
Lemma fblocks_step off : 0 ≤ off →
  fblocks (off + 1) - fblocks off = (if decide (off mod 512 = 0) then 1 else 0) + (if decide (off = 6144) then 1 else 0).
Proof.
  intros Ho. unfold fblocks, NDIRECT, BSIZE.
  destruct (12 * 512 <? off + 1) eqn:E1, (12 * 512 <? off) eqn:E2; repeat case_decide; dlia.
Qed.

(** The block for the byte at [off], where the file has what its first [off]
    bytes take. *)
Lemma iappend_block_run pid s t i off : mrep s t → file_wf sb (tv_view t) i → dense (tv_view t) i off → 0 ≤ off < MAXFILE * BSIZE →
  m_freeblock s + (fblocks (off + 1) - fblocks off) ≤ FSSIZE →
  ∃ a i' s' t', iappend_block (off / BSIZE) (i_dinode i) pid s = Ret (i_dinode i', a) s' ∧ mrep s' t' ∧ mapped sb t i (off / BSIZE) a t' i' ∧
    dense (tv_view t') i' (off + 1) ∧ m_freeblock s' = m_freeblock s + (fblocks (off + 1) - fblocks off) ∧ m_freeinode s' = m_freeinode s.
Proof.
  intros R W Hd Ho. change (MAXFILE * BSIZE) with 71680 in Ho. rewrite fblocks_step by lia. intros Hlt. change BSIZE with 512.
  assert (0 ≤ off / 512 < MAXFILE) as Hbm by (rewrite maxfile_140; dlia). set (bn := off / 512) in *.
  pose proof (Hd bn ltac:(lia)) as Hdb. pose proof (Hd MAXFILE ltac:(rewrite maxfile_140; lia)) as Hdm.
  rewrite fslot_ind in Hdm. rewrite fslot_faddr in Hdb by lia. unfold spos, NDIRECT, BSIZE in Hdb, Hdm. rewrite Z.eqb_refl in Hdm. rewrite (proj2 (Z.eqb_neq bn _)) in Hdb by lia.
  pose proof (λ k Hk, spos_step off k Ho Hk) as Hst. rewrite maxfile_140 in Hbm. unfold dense.
  destruct (decide (off mod 512 = 0)) as [Hm|Hm]; [destruct (decide (off = 6144)) as [H6|H6]|].
  - destruct (indirect_first pid s t i bn R W) as (a & i' & s' & t' & E & R' & M & S' & F & I); [rewrite maxfile_140; dlia|dlia|lia|].
    exists a, i', s', t'. split_and!; [exact E|exact R'|exact M| |lia|exact I]. eapply slots_iff; [|exact (S' _ Hd)].
    intros k Hk. rewrite maxfile_140 in Hk |- *. rewrite (Hst k Hk). tauto.
  - destruct (decide (bn < 12)) as [H12|H12].
    + rewrite <- (Z2Nat.id bn) in Hdb |- * by lia. destruct (direct_new pid s t i R W (Z.to_nat bn)) as (a & i' & s' & t' & E & R' & M & S' & F & I);
        [lia|rewrite faddr_direct in Hdb by lia; dlia|lia|].
      exists a, i', s', t'. split_and!; [exact E|exact R'|exact M| |lia|exact I]. eapply slots_iff; [|exact (S' _ Hd)].
      intros k Hk. rewrite maxfile_140 in Hk. rewrite (Hst k Hk). rewrite Z2Nat.id by lia. tauto.
    + destruct (indirect_new pid s t i bn R W) as (a & s' & t' & E & R' & M & S' & F & I); [rewrite maxfile_140; lia|dlia|dlia|lia|].
      exists a, i, s', t'. split_and!; [exact E|exact R'|exact M| |lia|exact I]. eapply slots_iff; [|exact (S' _ Hd)].
      intros k Hk. rewrite maxfile_140 in Hk. rewrite (Hst k Hk). tauto.
  - rewrite decide_False in Hlt |- * by (intros ->; apply Hm; reflexivity). assert (faddr (tv_view t) i bn ≠ 0) as Hz by (apply Hdb; unfold bn; dlia).
    exists (faddr (tv_view t) i bn), i, s, t. split_and!; [apply iappend_block_hit; [exact R|exact W|rewrite maxfile_140; lia|exact Hz]|exact R|exact (mapped_hit s t i R W bn Hz)| |lia|reflexivity].
    eapply slots_iff; [|exact Hd]. intros k Hk. rewrite maxfile_140 in Hk. rewrite (Hst k Hk). tauto.
Qed.

(** ** The loop of [iappend] *)

(** What follows the end of the file in its last block is zero. *)
Definition ztail (view : Z → block) (i : inode) (n : Z) : Prop :=
  ∀ o, n ≤ o < MAXFILE * BSIZE → faddr view i (o / BSIZE) ≠ 0 → fbyte view i o = 0.

Lemma within_block off m k : 0 ≤ off → 0 < m → off mod 512 + m ≤ 512 → 0 ≤ k ≤ 140 → spos k < off + 1 ↔ spos k < off + m.
Proof. intros Ho Hm Hb Hk. unfold spos, NDIRECT, BSIZE. rewrite maxfile_140. destruct (k =? 140) eqn:E; dlia. Qed.
Lemma fblocks_within off m : 0 ≤ off → 0 < m → off mod 512 + m ≤ 512 → fblocks (off + m) = fblocks (off + 1).
Proof.
  intros Ho Hm Hb. unfold fblocks, NDIRECT, BSIZE. destruct (12 * 512 <? off + m) eqn:E1, (12 * 512 <? off + 1) eqn:E2; dlia.
Qed.
Lemma fblocks_mono m n : m ≤ n → fblocks m ≤ fblocks n.
Proof. intros Hm. unfold fblocks, NDIRECT, BSIZE. destruct (12 * 512 <? m) eqn:E1, (12 * 512 <? n) eqn:E2; dlia. Qed.

Lemma nth_zero_block k : nth k zero_block 0 = 0.
Proof. unfold zero_block. rewrite nth_lookup. destruct (_ !! k) eqn:E; [by apply lookup_replicate in E as [-> _]|done]. Qed.

Section step.
Context (t : txv) (i : inode) (off : Z) (chunk : list Z) (a : Z) (t1 : txv) (i1 : inode).
Context (W : file_wf sb (tv_view t) i) (Ho : 0 ≤ off < MAXFILE * BSIZE) (M : mapped sb t i (off / BSIZE) a t1 i1).
Context (Hc : off mod BSIZE + Z.of_nat (length chunk) ≤ BSIZE) (Hne : chunk ≠ []) (Hok : block_ok (tv_view t1 a)).
Local Notation d := (splice (Z.to_nat (off mod BSIZE)) chunk (tv_view t1 a) : block).
Local Notation t2 := (tv_log a d t1).

Lemma step_range : 0 ≤ off / BSIZE < MAXFILE.
Proof using Ho. clear -Ho. rewrite maxfile_140 in *. unfold BSIZE in *. dlia. Qed.
Lemma chunk_pos : 0 < Z.of_nat (length chunk).
Proof using Hne. clear -Hne. destruct chunk; [done|simpl; lia]. Qed.

Lemma step_wrote : wrote sb t i off chunk t2 i1.
Proof using W Ho M Hc Hne Hok.
  pose proof step_range as Hb. pose proof chunk_pos as Hp. destruct (step_wf sb t i _ a t1 i1 d sb_fine Hb M) as [W2 Hm2].
  assert (nblk off (Z.of_nat (length chunk)) = 1%nat) as Hnb.
  { pose proof (nblk_step off (Z.of_nat (length chunk)) (Z.of_nat (length chunk)) ltac:(lia) Hp ltac:(lia)) as E. rewrite Z.sub_diag in E. exact E. }
  apply mk_wrote; rewrite ?Hnb; [apply M|exact W2|exact Hm2|exact (step_wext sb t i _ a t1 i1 d sb_fine Hb M)| | | |].
  - apply (step_fwrote sb t i a t1 i1 off chunk sb_fine W); [lia|lia|exact M|exact Hok|unfold BSIZE in *; dlia].
  - apply (step_cost sb t i (off / BSIZE) a t1 i1 t2 M). reflexivity.
  - intros Hin. destruct (mp_case _ _ _ _ _ _ _ M) as [[_ ->]|(Hz & _)]; [reflexivity|]. destruct (fw_full _ _ _ W (off / BSIZE)); [lia| |exact Hz]. unfold BSIZE in *. dlia.
  - change (tv_view t2) with (<[a := d]> (tv_view t1)). rewrite (step_free sb t i _ a t1 i1 d sb_fine Hb M). apply M.
Qed.

Lemma step_dense : dense (tv_view t1) i1 (off + 1) → dense (tv_view t2) i1 (off + Z.of_nat (length chunk)).
Proof using Ho M Hc Hne.
  intros Hd k Hk. pose proof chunk_pos as Hp. change (tv_view t2) with (<[a := d]> (tv_view t1)). rewrite (step_fslot sb t i _ a t1 i1 d step_range M).
  rewrite (Hd k Hk). rewrite maxfile_140 in Hk. apply within_block; unfold BSIZE in *; lia.
Qed.

Lemma step_ztail : ztail (tv_view t) i off → dense (tv_view t2) i1 (off + Z.of_nat (length chunk)) →
  ztail (tv_view t2) i1 (off + Z.of_nat (length chunk)).
Proof using W Ho M Hc Hne Hok.
  intros Hz Hd o Hoo Hf. pose proof chunk_pos as Hp. pose proof step_range as Hb. assert (0 ≤ o / BSIZE < MAXFILE) as Hob by (rewrite maxfile_140 in *; unfold BSIZE in *; dlia).
  assert (o / BSIZE = off / BSIZE) as Eb.
  { pose proof (proj1 (Hd (o / BSIZE) ltac:(lia)) ltac:(rewrite fslot_faddr by exact Hob; exact Hf)) as Hs. unfold spos in Hs. rewrite (proj2 (Z.eqb_neq _ _)) in Hs by lia.
    unfold BSIZE in *. dlia. }
  unfold fbyte. rewrite Eb in *. change (tv_view t2) with (<[a := d]> (tv_view t1)). rewrite (step_faddr sb t i _ a t1 i1 d Hb M _ Hb), (mp_addr _ _ _ _ _ _ _ M).
  rewrite fn_lookup_insert. destruct Hok as [Hl _]. change (Z.to_nat BSIZE) with 512%nat in Hl. rewrite nth_splice by (unfold BSIZE in *; dlia).
  rewrite decide_False by (unfold BSIZE in *; dlia). destruct (mp_case _ _ _ _ _ _ _ M) as [[-> ->]|(_ & _ & -> & _)]; [|apply nth_zero_block].
  pose proof (Hz o ltac:(lia)) as H. unfold fbyte in H. rewrite Eb, (mp_addr _ _ _ _ _ _ _ M) in H. apply H, M.
Qed.
End step.

(** What [iappend] has of the image: the file with [off] bytes' worth of
    blocks, zero behind them. *)
Record appending (s : mkst) (t : txv) (i : inode) (off : Z) : Prop := mk_appending {
  ap_rep : mrep s t;
  ap_wf : file_wf sb (tv_view t) i;
  ap_dense : dense (tv_view t) i off;
  ap_zero : ztail (tv_view t) i off;
}.

Lemma iappend_step pid s t i off p : appending s t i off → p ≠ [] → bytes p → 0 ≤ off → off + Z.of_nat (length p) ≤ MAXFILE * BSIZE →
  m_freeblock s + (fblocks (off + Z.of_nat (length p)) - fblocks off) ≤ FSSIZE →
  let m := Z.min (Z.of_nat (length p)) (BSIZE - off mod BSIZE) in
  ∃ i' s' t', (∀ fuel, iappend_loop (S fuel) (i_dinode i) off p pid s = iappend_loop fuel (i_dinode i') (off + m) (drop (Z.to_nat m) p) pid s') ∧
    appending s' t' i' (off + m) ∧ wrote sb t i off (take (Z.to_nat m) p) t' i' ∧
    m_freeblock s' = m_freeblock s + (fblocks (off + m) - fblocks off) ∧ m_freeinode s' = m_freeinode s.
Proof.
  intros [R W Hd Hz] Hp Hby Ho Hmax Hlt m. assert (0 < Z.of_nat (length p)) as Hlp by (destruct p; [done|simpl; lia]).
  assert (0 < m ≤ Z.of_nat (length p) ∧ off mod 512 + m ≤ 512) as [Hm Hmb] by (unfold m, BSIZE; dlia).
  assert (0 ≤ off < MAXFILE * BSIZE) as Hoff by lia. pose proof (fblocks_within off m Ho ltac:(lia) Hmb) as Hfw.
  pose proof (fblocks_mono (off + 1) (off + Z.of_nat (length p)) ltac:(lia)) as Hfm.
  destruct (iappend_block_run pid s t i off R W Hd Hoff ltac:(lia)) as (a & i1 & s1 & t1 & E1 & R1 & M & D1 & F1 & I1).
  pose proof (step_range off Hoff) as Hb. destruct (step_slot sb t i _ a t1 i1 Hb M) as (_ & Haz & Had & Hu). set (chunk := take (Z.to_nat m) p).
  assert (length chunk = Z.to_nat m) as Hcl by (unfold chunk; rewrite length_take; lia). assert (chunk ≠ []) as Hcn by (intros E; rewrite E in Hcl; simpl in Hcl; lia).
  pose proof (rep_ok s1 t1 R1 a) as Hok. assert (59 ≤ a < 1000) as Ha by (clear -Had; mlia). apply (rep_used s1 t1 R1) in Hu; [|lia].
  assert (off mod BSIZE + Z.of_nat (length chunk) ≤ BSIZE) as Hc by (rewrite Hcl; unfold BSIZE; lia).
  set (d := splice (Z.to_nat (off mod BSIZE)) chunk (tv_view t1 a) : block).
  assert (block_ok d) as Hdok by (apply block_ok_splice; [unfold BSIZE in *; dlia|by apply Forall_take|exact Hok]).
  destruct (wsect_run pid s1 t1 R1 a d (tv_log a d t1)) as (s2 & E2 & R2 & F2 & I2); [lia|rewrite bmap_58; lia|exact Hdok|reflexivity|apply R1|].
  pose proof (step_wrote t i off chunk a t1 i1 W Hoff M Hc Hcn Hok) as Hw. pose proof (step_dense t i off chunk a t1 i1 Hoff M Hc Hcn D1) as D2.
  pose proof (step_ztail t i off chunk a t1 i1 W Hoff M Hc Hcn Hok Hz D2) as Z2.
  exists i1, s2, (tv_log a d t1). replace (Z.of_nat (length chunk)) with m in D2, Z2 by lia. split; [|split; [|split; [exact Hw|split; [lia|congruence]]]].
  - intros fuel. cbn [iappend_loop]. rewrite (proj2 (Nat.eqb_neq _ _)) by lia. rewrite (proj2 (Z.ltb_lt _ _)) by lia. cbn [negb]. mrun E1. cbn [fst snd].
    mrun (rsect_run pid s1 t1 R1 a ltac:(unfold FSSIZE; lia) ltac:(rewrite bmap_58; lia)).
    replace (off - off / BSIZE * BSIZE) with (off mod BSIZE) by (unfold BSIZE; dlia).
    replace (Z.min (Z.of_nat (length p)) ((off / BSIZE + 1) * BSIZE - off)) with m by (unfold m, BSIZE; dlia). mrun E2. reflexivity.
  - split; [exact R2|apply (wr_wf _ _ _ _ _ _ _ Hw)|exact D2|exact Z2].
Qed.

Lemma iappend_loop_run pid fuel : ∀ s t i off p, appending s t i off → bytes p → 0 ≤ off → off + Z.of_nat (length p) ≤ MAXFILE * BSIZE →
  m_freeblock s + (fblocks (off + Z.of_nat (length p)) - fblocks off) ≤ FSSIZE → (length p < fuel)%nat →
  ∃ i' s' t', iappend_loop fuel (i_dinode i) off p pid s = Ret (i_dinode i', off + Z.of_nat (length p)) s' ∧
    appending s' t' i' (off + Z.of_nat (length p)) ∧ wrote sb t i off p t' i' ∧
    m_freeblock s' = m_freeblock s + (fblocks (off + Z.of_nat (length p)) - fblocks off) ∧ m_freeinode s' = m_freeinode s.
Proof.
  induction fuel as [|fuel IH]; intros s t i off p A Hby Ho Hmax Hlt Hf; [lia|]. destruct (decide (p = [])) as [->|Hp].
  { cbn [length Z.of_nat] in *. rewrite Z.add_0_r in *. exists i, s, t. split; [reflexivity|]. split; [exact A|]. split; [|lia]. destruct A as [R W _ _].
    apply mk_wrote; [apply R|exact W|apply (rep_map s t R)|apply wext_refl|apply fwrote_nil|apply Nat.le_add_r|reflexivity|cbn; rewrite Nat.add_0_r; reflexivity]. }
  destruct (iappend_step pid s t i off p A Hp Hby Ho Hmax Hlt) as (i1 & s1 & t1 & E1 & A1 & W1 & F1 & I1). set (m := Z.min _ _) in *.
  assert (0 < m ≤ Z.of_nat (length p)) as Hm by (assert (0 < Z.of_nat (length p)) by (destruct p; [done|simpl; lia]); unfold m, BSIZE; dlia).
  assert (Z.of_nat (length (drop (Z.to_nat m) p)) = Z.of_nat (length p) - m) as Hdl by (rewrite length_drop; lia).
  assert (Z.of_nat (length (take (Z.to_nat m) p)) = m) as Htl by (rewrite length_take; lia).
  destruct (IH s1 t1 i1 (off + m) (drop (Z.to_nat m) p) A1) as (i2 & s2 & t2 & E2 & A2 & W2 & F2 & I2);
    [by apply Forall_drop|lia|lia|rewrite Hdl; replace (off + m + (Z.of_nat (length p) - m)) with (off + Z.of_nat (length p)) by lia; lia|lia|].
  rewrite Hdl in E2, A2, F2. replace (off + m + (Z.of_nat (length p) - m)) with (off + Z.of_nat (length p)) in * by lia.
  exists i2, s2, t2. split; [rewrite E1; exact E2|]. split; [exact A2|]. split; [|split; [lia|congruence]].
  rewrite <- (take_drop (Z.to_nat m) p) at 1. eapply wrote_app; [|exact W1|rewrite Htl; exact W2].
  rewrite take_drop, Htl, Hdl. pose proof (nblk_step off (Z.of_nat (length p)) m Ho ltac:(lia) ltac:(reflexivity)) as N1.
  pose proof (nblk_step off m m Ho ltac:(lia) ltac:(unfold m; lia)) as N2. rewrite Z.sub_diag in N2. change (nblk (off + m) 0) with 0%nat in N2. lia.
Qed.
