(* ===== verification/MkfsSpec.v ===== *)
(** * The image that mkfs builds

    Each inode of the image is described by its type and its content.  The
    operations of [Mkfs] keep the description, and the blocks are counted
    exactly, so that the theorem says when the program succeeds. *)

From S2P Require Import Prelude Layout Sleeplock Disk Bio BioSpec Crc32 Log LogImg LogSpec LogTxn CString Fs FsTx FsBlock FsFile FsRw FsInode FsDir Mkfs.

Set Default Proof Using "Type".

#[local] Notation sb := mkfs_sb.
#[local] Opaque mkfs_sb.

(** The inode [inum] of the image, as [ilock] would load it. *)
Definition ino (view : Z → block) (inum : Z) : inode := i_load (disk_inode sb view inum) (i_set_id ROOTDEV inum inode_zero).

(** Inode [inum] is a file of type [ty] with one link that holds [data]. *)
Record node (view : Z → block) (inum ty : Z) (data : list Z) : Prop := mk_node {
  nd_wf : file_wf sb view (ino view inum);
  nd_dense : dense view (ino view inum) (Z.of_nat (length data));
  nd_zero : ztail view (ino view inum) (Z.of_nat (length data));
  nd_dinode : disk_inode sb view inum = mk_dinode ty 0 0 1 (Z.of_nat (length data)) (i_addrs (ino view inum));
  nd_data : fbytes view (ino view inum) 0 (Z.of_nat (length data)) = data;
}.

Lemma ino_dinode view inum : i_dinode (ino view inum) = disk_inode sb view inum.
Proof. unfold ino. by destruct (disk_inode sb view inum). Qed.
Lemma ino_eq view inum i : disk_inode sb view inum = i_dinode i → i_load (i_dinode i) (i_set_id ROOTDEV inum inode_zero) = i → ino view inum = i.
Proof. intros E <-. unfold ino. by rewrite E. Qed.

Lemma inode_block inum : inum_ok sb inum → 32 ≤ IBLOCK inum sb < 58.
Proof. intros H. pose proof (iblock_range sb inum sb_fine H) as [_ Hb]. rewrite sb_eq in Hb |- *. exact Hb. Qed.

Section inode.
Context (pid : Z) (s : mkst) (t : txv) (R : mrep s t).

Lemma rinode_run inum : inum_ok sb inum → rinode inum pid s = Ret (disk_inode sb (tv_view t) inum) s.
Proof using R.
  intros Hi. pose proof (inode_block inum Hi) as Hb. unfold rinode.
  mrun (rsect_run pid s t R (IBLOCK inum sb) ltac:(unfold FSSIZE; lia) ltac:(rewrite bmap_58; lia)). reflexivity.
Qed.

Lemma winode_run i : inum_ok sb (i_inum i) → dinode_wf (i_dinode i) →
  ∃ s', winode (i_inum i) (i_dinode i) pid s = Ret tt s' ∧ mrep s' (tv_iupdate sb i t) ∧ m_freeblock s' = m_freeblock s ∧ m_freeinode s' = m_freeinode s.
Proof using R.
  intros Hi Hd. pose proof (inode_block _ Hi) as Hb. pose proof (mr_fb _ _ R) as Hfb. rewrite nmeta_59 in Hfb. pose proof (ioff_range (i_inum i)) as Ho.
  destruct (wsect_run pid s t R (IBLOCK (i_inum i) sb) (splice (ioff (i_inum i)) (di_encode (i_dinode i)) (tv_view t (IBLOCK (i_inum i) sb))) (tv_iupdate sb i t))
    as (s' & E & R' & F & I); [lia|rewrite bmap_58; lia| |reflexivity|apply R|].
  { apply block_ok_splice; [rewrite length_di_encode by exact Hd; exact Ho|apply bytes_di_encode|apply (rep_ok s t R)]. }
  exists s'. split; [|split; [exact R'|split; [exact F|exact I]]]. unfold winode.
  mrun (rsect_run pid s t R (IBLOCK (i_inum i) sb) ltac:(unfold FSSIZE; lia) ltac:(rewrite bmap_58; lia)). exact E.
Qed.
End inode.

Lemma fbytes_nth view i (l : list Z) : (∀ o, 0 ≤ o < Z.of_nat (length l) → fbyte view i o = nth (Z.to_nat o) l 0) ↔ fbytes view i 0 (Z.of_nat (length l)) = l.
Proof.
  unfold fbytes. split.
  - intros H. apply list_eq. intros k. rewrite list_lookup_fmap. destruct (decide (k < length l)%nat) as [Hk|Hk].
    + rewrite lookup_seqZ_lt by lia. simpl. rewrite H by lia. replace (Z.to_nat (0 + Z.of_nat k)) with k by lia. rewrite nth_lookup. destruct (lookup_lt_is_Some_2 l k Hk) as [x ->]. reflexivity.
    + rewrite lookup_seqZ_ge, lookup_ge_None_2 by lia. reflexivity.
  - intros H o Ho. rewrite <- H at 1. rewrite nth_lookup, list_lookup_fmap, lookup_seqZ_lt by lia. simpl. f_equal. lia.
Qed.

(** Data blocks as they were: the same file, whatever its size. *)
Lemma dense_frame view view' i sz n : file_wf sb view i → (∀ b, data_block sb b → view' b = view b) → dense view i n → dense view' (i_set_size sz i) n.
Proof. intros W Hv Hd k Hk. change (fslot view' (i_set_size sz i) k) with (fslot view' i k). rewrite (fslot_frame sb view view' i k W Hv). by apply Hd. Qed.
Lemma ztail_frame view view' i sz n : 0 ≤ n → file_wf sb view i → (∀ b, data_block sb b → view' b = view b) → ztail view i n → ztail view' (i_set_size sz i) n.
Proof.
  intros Hn W Hv Hz o Ho Hf. assert (0 ≤ o / BSIZE < MAXFILE) as Hb by (rewrite maxfile_140 in *; unfold BSIZE in *; dlia).
  change (faddr view' (i_set_size sz i)) with (faddr view' i) in Hf. rewrite <- fslot_faddr in Hf by exact Hb. rewrite (fslot_frame sb view view' i _ W Hv), fslot_faddr in Hf by exact Hb.
  rewrite (fbyte_frame sb 0 [] ltac:(done) view view' i sz o W Hv ltac:(lia) Hf). by apply Hz.
Qed.

Lemma iappend_run pid s t inum ty data xp : mrep s t → node (tv_view t) inum ty data → is_short ty → inum_ok sb inum → bytes xp → xp ≠ [] →
  let off := Z.of_nat (length data) in let n := off + Z.of_nat (length xp) in
  n ≤ MAXFILE * BSIZE → m_freeblock s + (fblocks n - fblocks off) ≤ FSSIZE →
  ∃ s' t', iappend inum xp pid s = Ret tt s' ∧ mrep s' t' ∧ written sb t (ino (tv_view t) inum) off xp t' (ino (tv_view t') inum) ∧
    node (tv_view t') inum ty (data ++ xp) ∧ m_freeblock s' = m_freeblock s + (fblocks n - fblocks off) ∧ m_freeinode s' = m_freeinode s.
Proof.
  intros R N Hty Hi Hby Hxp off n Hmax Hlt. destruct N as [W D Z0 Hdi Hdata]. set (i := ino (tv_view t) inum) in *.
  assert (0 < Z.of_nat (length xp)) as Hpos by (destruct xp; [done|simpl; lia]). change (MAXFILE * BSIZE) with 71680 in Hmax.
  assert (i_size i = off) as Hsz by (unfold i, ino; rewrite Hdi; reflexivity). assert (shorts i) as Hsh by (unfold i, ino, shorts; rewrite Hdi; split; [exact Hty|repeat split; done]).
  destruct (iappend_loop_run pid (S (length xp)) s t i off xp) as (i1 & s1 & t1 & E1 & A1 & Hw & F1 & I1);
    [split; [exact R|exact W|exact D|exact Z0]|exact Hby|lia|change (MAXFILE * BSIZE) with 71680; lia|exact Hlt|lia|].
  fold n in E1, A1, F1. pose proof (ap_rep _ _ _ _ A1) as R1. set (i2 := i_set_size n i1). pose proof (we_inode _ _ _ _ _ (wr_ext _ _ _ _ _ _ _ Hw)) as Ei1.
  destruct (written_grown sb t i off xp t1 i1 sb_fine (rep_map s t R) W ltac:(lia) ltac:(change (MAXFILE * BSIZE) with 71680; lia) Hi Hw i2 Hsh) as [Hd2 Hwn];
    [lia|reflexivity|apply (rep_ok s1 t1 R1)|].
  assert (i_inum i2 = inum) as Hin by (unfold i2; rewrite Ei1; reflexivity).
  destruct (winode_run pid s1 t1 R1 i2) as (s2 & E2 & R2 & F2 & I2); [by rewrite Hin|exact Hd2|]. rewrite Hin in E2.
  set (t2 := tv_iupdate sb i2 t1) in *. pose proof (inode_block inum Hi) as Hib.
  assert (∀ b, data_block sb b → tv_view t2 b = tv_view t1 b) as Hv.
  { intros b Hb. unfold t2, tv_iupdate. rewrite Hin. apply fn_lookup_insert_ne. clear -Hb Hib. mlia. }
  assert (ino (tv_view t2) inum = i2) as Ei2.
  { apply ino_eq; [apply (wn_disk _ _ _ _ _ _ _ Hwn); symmetry; apply ino_dinode|]. unfold i2. rewrite Ei1. reflexivity. }
  exists s2, t2. rewrite Ei2. split; [|split; [exact R2|split; [exact Hwn|split; [|split; [lia|congruence]]]]].
  - unfold iappend. mrun (rinode_run pid s t R inum Hi). rewrite <- ino_dinode. fold i. cbv zeta. change (di_size (i_dinode i)) with (i_size i). rewrite Hsz, xint_small by lia.
    mrun E1. cbn [fst snd]. rewrite xint_small by lia. exact E2.
  - assert (length (data ++ xp) = Z.to_nat n) as Hl by (rewrite length_app; lia). assert (Z.of_nat (length (data ++ xp)) = n) as Hln by lia.
    destruct A1 as [_ W1 D1 Z1]. apply mk_node; rewrite ?Ei2, ?Hln.
    + apply Hwn.
    + exact (dense_frame _ _ i1 n n W1 Hv D1).
    + exact (ztail_frame _ _ i1 n n ltac:(lia) W1 Hv Z1).
    + rewrite <- Ei2, <- ino_dinode, Ei2. unfold i2. rewrite Ei1. unfold i, ino. rewrite Hdi. reflexivity.
    + rewrite <- Hln. apply fbytes_nth. rewrite Hln. intros o Ho. rewrite (wn_bytes _ _ _ _ _ _ _ Hwn o) by (unfold i2; simpl; lia). fold off n.
      destruct (decide (off ≤ o < n)) as [Hin'|Hout].
      * rewrite app_nth2 by (unfold off in *; lia). f_equal. unfold off in *. lia.
      * rewrite app_nth1 by (unfold off, n in *; lia). apply (proj2 (fbytes_nth _ _ _) Hdata). unfold off, n in *. lia.
Qed.

(** ** All inodes *)

(** A file whose blocks are as they were, and still in use. *)
Lemma fslot_same view view' i : (∀ k, 0 ≤ k ≤ MAXFILE → fslot view i k ≠ 0 → view' (fslot view i k) = view (fslot view i k)) → ∀ k, fslot view' i k = fslot view i k.
Proof.
  intros Hv k. specialize (Hv MAXFILE ltac:(rewrite maxfile_140; lia)). rewrite fslot_ind in Hv. unfold fslot, faddr.
  repeat case_match; try reflexivity. rewrite Hv by lia. reflexivity.
Qed.
Lemma node_frame view view' inum ty data :
  disk_inode sb view' inum = disk_inode sb view inum →
  (∀ k, 0 ≤ k ≤ MAXFILE → fslot view (ino view inum) k ≠ 0 → view' (fslot view (ino view inum) k) = view (fslot view (ino view inum) k)) →
  (∀ b, 0 ≤ b < 1000 → used sb view b → used sb view' b) →
  node view inum ty data → node view' inum ty data ∧ ino view' inum = ino view inum ∧ ∀ k, fslot view' (ino view inum) k = fslot view (ino view inum) k.
Proof.
  intros Hdi Hv Hu [W D Z0 Hd Hda]. assert (ino view' inum = ino view inum) as Ei by (unfold ino; rewrite Hdi; reflexivity).
  pose proof (fslot_same _ _ _ Hv) as Hs. set (i := ino view inum) in *.
  assert (∀ o, 0 ≤ o < MAXFILE * BSIZE → faddr view i (o / BSIZE) ≠ 0 → fbyte view' i o = fbyte view i o) as Hb.
  { intros o Ho Hz. unfold fbyte. assert (0 ≤ o / BSIZE < MAXFILE) as Hr by (rewrite maxfile_140 in *; unfold BSIZE in *; dlia).
    rewrite <- !fslot_faddr in * by exact Hr. rewrite Hs, Hv by (lia || exact Hz). reflexivity. }
  assert (∀ bn, 0 ≤ bn < MAXFILE → faddr view' i bn = faddr view i bn) as Ha by (intros bn Hr; rewrite <- !fslot_faddr by exact Hr; apply Hs).
  split; [|split; [exact Ei|exact Hs]]. apply mk_node; rewrite ?Ei.
  - destruct W as [W1 W2 W3 W4 W5 W6]. split; [exact W1|exact W2| | |exact W5|].
    + intros k Hk. rewrite Hs. intros Hz. destruct (W3 k Hk Hz) as [Hdb Hub]. split; [exact Hdb|]. apply Hu; [clear -Hdb; mlia|exact Hub].
    + intros k k' Hk Hk'. rewrite !Hs. by apply W4.
    + intros bn H0 H1. rewrite Ha by (clear -H0 H1 W5; rewrite maxfile_140 in *; unfold BSIZE in *; lia). by apply W6.
  - intros k Hk. rewrite Hs. by apply D.
  - intros o Ho. assert (0 ≤ o / BSIZE < MAXFILE) as Hr by (rewrite maxfile_140 in *; unfold BSIZE in *; dlia). rewrite Ha by exact Hr. intros Hz. rewrite Hb by (lia || exact Hz). by apply Z0.
  - rewrite Hdi. exact Hd.
  - apply fbytes_nth. intros o Ho. pose proof (fw_size _ _ _ W) as Hsz. assert (i_size i = Z.of_nat (length data)) as Es by (unfold i, ino; rewrite Hd; reflexivity).
    rewrite Hb; [by apply (proj2 (fbytes_nth _ _ _) Hda)|lia|]. apply (fw_full _ _ _ W); [unfold BSIZE; dlia|unfold BSIZE; dlia].
Qed.

(** The inodes from number 1 on, each its type and its content. *)
Notation nodes := (list (Z * list Z)).
Definition total (I : nodes) : Z := foldr (λ x n, fblocks (Z.of_nat (length x.2)) + n) 0 I.
Definition free_dinode : dinode := mk_dinode 0 0 0 0 0 (replicate 13 0).
Record image (s : mkst) (t : txv) (I : nodes) : Prop := mk_image {
  im_rep : mrep s t;
  im_next : m_freeinode s = Z.of_nat (length I) + 1;
  im_max : (length I ≤ 199)%nat;
  im_node : ∀ k x, I !! k = Some x → is_short x.1 ∧ node (tv_view t) (Z.of_nat k + 1) x.1 x.2;
  im_disj : ∀ k k' j j', (k < length I)%nat → (k' < length I)%nat → k ≠ k' → 0 ≤ j ≤ MAXFILE → 0 ≤ j' ≤ MAXFILE →
    fslot (tv_view t) (ino (tv_view t) (Z.of_nat k + 1)) j ≠ 0 →
    fslot (tv_view t) (ino (tv_view t) (Z.of_nat k + 1)) j ≠ fslot (tv_view t) (ino (tv_view t) (Z.of_nat k' + 1)) j';
  im_free : ∀ n, Z.of_nat (length I) < n < 200 → disk_inode sb (tv_view t) n = free_dinode;
  im_count : m_freeblock s = nmeta + total I;
  im_boot : ∀ n, 1 ≤ n < 32 → tv_view t n = if n =? 1 then splice 0 (sb_encode sb) zero_block else zero_block;
}.

Lemma total_insert I k ty data xp : I !! k = Some (ty, data) →
  total (<[k := (ty, data ++ xp)]> I) = total I + (fblocks (Z.of_nat (length data) + Z.of_nat (length xp)) - fblocks (Z.of_nat (length data))).
Proof.
  revert k. induction I as [|x I IH]; intros [|k] E; simpl in *; try discriminate E.
  - injection E as ->. simpl. rewrite length_app, Nat2Z.inj_add. lia.
  - rewrite (IH k E). lia.
Qed.
Lemma total_nodes_app I J : total (I ++ J) = total I + total J.
Proof. induction I as [|x I IH]; simpl; lia. Qed.
Lemma inum_200 n : inum_ok sb n ↔ 0 ≤ n < 200.
Proof. unfold inum_ok. rewrite sb_eq. reflexivity. Qed.

Lemma used_mono view view' b : free_blocks sb view' ⊆ free_blocks sb view → 0 ≤ b < 1000 → used sb view b → used sb view' b.
Proof.
  intros Hf Hb Hu. destruct (decide (used sb view' b)) as [|Hn]; [done|]. exfalso. assert (b ∈ free_blocks sb view') as Hin by (apply elem_of_free; rewrite sb_eq; done).
  apply Hf, elem_of_free in Hin. by apply Hin.
Qed.
Lemma slot_block view i k : file_wf sb view i → 0 ≤ k ≤ MAXFILE → fslot view i k ≠ 0 →
  59 ≤ fslot view i k < 1000 ∧ used sb view (fslot view i k) ∧ fslot view i k ∉ free_blocks sb view.
Proof.
  intros W Hk Hz. destruct (fw_block _ _ _ W k Hk Hz) as [Hd Hu]. split; [clear -Hd; mlia|]. split; [exact Hu|]. intros [_ Hn]%elem_of_free. exact (Hn Hu).
Qed.

Section append.
Context (t t' : txv) (I : nodes) (s : mkst) (k : nat) (off : Z) (xp : list Z).
Local Notation view := (tv_view t).
Local Notation view' := (tv_view t').
Local Notation nd n := (ino view (Z.of_nat n + 1)).
Context (Im : image s t I) (Hk : (k < length I)%nat) (Hwn : written sb t (nd k) off xp t' (ino view' (Z.of_nat k + 1))).

Lemma nd_file n : (n < length I)%nat → file_wf sb view (nd n).
Proof using Im. intros Hn. destruct (lookup_lt_is_Some_2 I n Hn) as [x E]. destruct (im_node _ _ _ Im n x E) as [_ N]. apply N. Qed.
Lemma nd_inum n : (n < length I)%nat → inum_ok sb (Z.of_nat n + 1).
Proof using Im. intros Hn. apply inum_200. pose proof (im_max _ _ _ Im) as Hm. clear -Hn Hm. lia. Qed.

(** The other inodes and their blocks stay. *)
Lemma append_other n x : I !! n = Some x → n ≠ k →
  node view' (Z.of_nat n + 1) x.1 x.2 ∧ ino view' (Z.of_nat n + 1) = nd n ∧ ∀ j, fslot view' (nd n) j = fslot view (nd n) j.
Proof using Im Hk Hwn.
  intros E Hne. pose proof (lookup_lt_Some _ _ _ E) as Hn. destruct (im_node _ _ _ Im n x E) as [_ N]. apply node_frame; [| | |exact N].
  - apply (wn_inodes _ _ _ _ _ _ _ Hwn); [by apply nd_inum|]. change (i_inum (nd k)) with (Z.of_nat k + 1). lia.
  - intros j Hj Hz. destruct (slot_block _ _ j (nd_file n Hn) Hj Hz) as (Hr & _ & Hf). apply (wn_frame _ _ _ _ _ _ _ Hwn); [exact Hf|rewrite bmap_58; lia| |].
    + change (i_inum (nd k)) with (Z.of_nat k + 1). pose proof (inode_block _ (nd_inum k Hk)). lia.
    + intros j' Hj'. by apply (im_disj _ _ _ Im n k j j').
  - intros b. apply used_mono, Hwn.
Qed.

(** No block of the file is another's. *)
Lemma append_disj n j j' : (n < length I)%nat → n ≠ k → 0 ≤ j ≤ MAXFILE → 0 ≤ j' ≤ MAXFILE → fslot view (nd n) j ≠ 0 →
  fslot view (nd n) j ≠ fslot view' (ino view' (Z.of_nat k + 1)) j'.
Proof using Im Hk Hwn.
  intros Hn Hne Hj Hj' Hz. destruct (slot_block _ _ j (nd_file n Hn) Hj Hz) as (_ & _ & Hf).
  destruct (decide (fslot view' (ino view' (Z.of_nat k + 1)) j' = fslot view (nd k) j')) as [->|Hnew].
  - by apply (im_disj _ _ _ Im n k j j').
  - intros E. apply Hf. rewrite E. by apply (wn_new _ _ _ _ _ _ _ Hwn).
Qed.

Lemma append_low n : 1 ≤ n < 32 → view' n = view n.
Proof using Im Hk Hwn.
  intros Hn. apply (wn_frame _ _ _ _ _ _ _ Hwn).
  - intros [_ Hu]%elem_of_free. apply Hu, (rep_map s t (im_rep _ _ _ Im)). mlia.
  - rewrite bmap_58. lia.
  - change (i_inum (nd k)) with (Z.of_nat k + 1). pose proof (inode_block _ (nd_inum k Hk)). lia.
  - intros j Hj E. destruct (slot_block _ _ j (nd_file k Hk) Hj) as (Hr & _); lia.
Qed.
End append.

Lemma iappend_image pid s t I k ty data xp : image s t I → I !! k = Some (ty, data) → bytes xp → xp ≠ [] →
  Z.of_nat (length data) + Z.of_nat (length xp) ≤ MAXFILE * BSIZE → nmeta + total (<[k := (ty, data ++ xp)]> I) ≤ FSSIZE →
  ∃ s' t', iappend (Z.of_nat k + 1) xp pid s = Ret tt s' ∧ image s' t' (<[k := (ty, data ++ xp)]> I).
Proof.
  intros Im E Hby Hxp Hmax Htot. rewrite (total_insert _ _ _ _ _ E) in Htot. pose proof (lookup_lt_Some _ _ _ E) as Hk. destruct (im_node _ _ _ Im k _ E) as [Hty N]. cbn [fst snd] in Hty, N.
  pose proof (im_count _ _ _ Im) as Hcnt.
  destruct (iappend_run pid s t (Z.of_nat k + 1) ty data xp (im_rep _ _ _ Im) N Hty (nd_inum t I s Im k Hk) Hby Hxp Hmax ltac:(lia))
    as (s' & t' & E' & R' & Hwn & N' & F & Inx).
  pose proof (append_other t t' I s k _ xp Im Hk Hwn) as Hoth. pose proof (append_disj t t' I s k _ xp Im Hk Hwn) as Hdis.
  assert (∀ n, (n < length I)%nat → n ≠ k → ino (tv_view t') (Z.of_nat n + 1) = ino (tv_view t) (Z.of_nat n + 1) ∧
    ∀ j, fslot (tv_view t') (ino (tv_view t) (Z.of_nat n + 1)) j = fslot (tv_view t) (ino (tv_view t) (Z.of_nat n + 1)) j) as Hsame.
  { intros n Hn Hne. destruct (lookup_lt_is_Some_2 I n Hn) as [x Ex]. exact (proj2 (Hoth n x Ex Hne)). }
  exists s', t'. split; [exact E'|]. apply mk_image.
  - exact R'.
  - rewrite length_insert, Inx. apply Im.
  - rewrite length_insert. apply Im.
  - intros n x. destruct (decide (n = k)) as [->|Hne]; [rewrite list_lookup_insert_eq by exact Hk; intros [= <-]; split; [exact Hty|exact N']|].
    rewrite list_lookup_insert_ne by (intros ->; by apply Hne). intros Ex. split; [apply (im_node _ _ _ Im n x Ex)|apply (Hoth n x Ex Hne)].
  - rewrite length_insert. intros n n' j j' Hn Hn' Hne Hj Hj'. destruct (decide (n = k)) as [->|Hnk]; [|destruct (decide (n' = k)) as [->|Hnk']].
    + destruct (Hsame n' Hn' (not_eq_sym Hne)) as [-> Hs]. rewrite Hs. intros Hz Eq. apply (Hdis n' j' j Hn' (not_eq_sym Hne) Hj' Hj); [by rewrite <- Eq|by symmetry].
    + destruct (Hsame n Hn Hnk) as [-> Hs]. rewrite Hs. intros Hz. by apply Hdis.
    + destruct (Hsame n Hn Hnk) as [-> Hs], (Hsame n' Hn' Hnk') as [-> Hs']. rewrite Hs, Hs'. by apply (im_disj _ _ _ Im).
  - rewrite length_insert. intros n Hn. rewrite (wn_inodes _ _ _ _ _ _ _ Hwn); [by apply Im|apply inum_200; lia|]. change (i_inum (ino _ ?n)) with n. lia.
  - rewrite (total_insert _ _ _ _ _ E). lia.
  - intros n Hn. rewrite (append_low t t' I s k _ xp Im Hk Hwn n Hn). by apply Im.
Qed.

(** ** A new inode *)

Definition new_inode (inum ty : Z) : inode := i_load (mk_dinode ty 0 0 1 0 (replicate 13 0)) (i_set_id ROOTDEV inum inode_zero).

Lemma new_inode_slot view inum ty k : fslot view (new_inode inum ty) k = 0.
Proof.
  assert (∀ j, iaddr (new_inode inum ty) j = 0) as Hz.
  { intros j. unfold iaddr. change (i_addrs _) with (replicate 13 0). rewrite nth_lookup. destruct (_ !! j) eqn:E; [by apply lookup_replicate in E as [-> _]|done]. }
  unfold fslot, faddr. rewrite !Hz. by repeat case_match.
Qed.
Lemma new_inode_node view inum ty : disk_inode sb view inum = i_dinode (new_inode inum ty) → node view inum ty [].
Proof.
  intros E. assert (ino view inum = new_inode inum ty) as Ei by (apply ino_eq; [exact E|reflexivity]).
  pose proof (new_inode_slot view inum ty) as Hs. apply mk_node; rewrite ?Ei; cbn [length Z.of_nat].
  - split; [done|done| | |done|].
    + intros k _ Hz. by rewrite Hs in Hz.
    + intros k k' _ _ Hz. by rewrite Hs in Hz.
    + intros bn H0 H1. exfalso. change (i_size _) with 0 in H1. unfold BSIZE in H1. lia.
  - intros k Hk. rewrite Hs. unfold spos, BSIZE, NDIRECT. split; [done|]. destruct (k =? MAXFILE); lia.
  - intros o Ho. rewrite <- fslot_faddr by (rewrite maxfile_140 in *; unfold BSIZE in *; dlia). rewrite Hs. done.
  - exact E.
  - reflexivity.
Qed.

Lemma mrep_freeinode s t n : mrep s t → mrep (m_set_freeinode n s) t.
Proof. intros [? ? ? ? ? ?]. by split. Qed.

Lemma mk_ialloc_image pid s t I ty : image s t I → (length I < 199)%nat → 0 ≤ ty < 2 ^ 15 →
  ∃ s' t', mk_ialloc ty pid s = Ret (Z.of_nat (length I) + 1) s' ∧ image s' t' (I ++ [(ty, [])]).
Proof.
  intros Im Hlen Hty. pose proof (im_next _ _ _ Im) as Hnx. pose proof (im_rep _ _ _ Im) as R. set (inum := Z.of_nat (length I) + 1) in *.
  assert (inum_ok sb inum) as Hi by (apply inum_200; unfold inum; lia). set (i := new_inode inum ty).
  assert (dinode_wf (i_dinode i)) as Hd.
  { unfold dinode_wf. split_and!; try (unfold is_short; simpl; lia); [done..|]. apply Forall_replicate. done. }
  set (s1 := m_set_freeinode (u32 (inum + 1)) s). pose proof (mrep_freeinode s t (u32 (inum + 1)) R) as R1.
  destruct (winode_run pid s1 t R1 i Hi Hd) as (s2 & E2 & R2 & F2 & I2). set (t2 := tv_iupdate sb i t) in *.
  pose proof (inode_block inum Hi) as Hib. assert (∀ n, n ≠ IBLOCK inum sb → tv_view t2 n = tv_view t n) as Hv by (intros n Hn; unfold t2, tv_iupdate; apply fn_lookup_insert_ne, not_eq_sym, Hn).
  assert (∀ j, inum_ok sb j → j ≠ inum → disk_inode sb (tv_view t2) j = disk_inode sb (tv_view t) j) as Hoth
    by (intros j Hj Hne; apply (disk_inode_other sb t i j sb_fine Hi Hj Hne Hd), (rep_ok s t R)).
  assert (disk_inode sb (tv_view t2) inum = i_dinode i) as Hnew by (apply (disk_inode_iupdate sb t i Hd), (rep_ok s t R)).
  assert (∀ n x, I !! n = Some x → node (tv_view t2) (Z.of_nat n + 1) x.1 x.2 ∧ ino (tv_view t2) (Z.of_nat n + 1) = ino (tv_view t) (Z.of_nat n + 1) ∧
    ∀ j, fslot (tv_view t2) (ino (tv_view t) (Z.of_nat n + 1)) j = fslot (tv_view t) (ino (tv_view t) (Z.of_nat n + 1)) j) as Hold.
  { intros n x E. pose proof (lookup_lt_Some _ _ _ E) as Hn. destruct (im_node _ _ _ Im n x E) as [_ N]. apply node_frame; [| | |exact N].
    - apply Hoth; [exact (nd_inum t I s Im n Hn)|unfold inum; lia].
    - intros j Hj Hz. destruct (slot_block _ _ j (nd_wf _ _ _ _ N) Hj Hz) as (Hr & _). apply Hv. lia.
    - intros b Hb. rewrite (used_frame sb (tv_view t) (tv_view t2) b sb_fine); [done|apply Hv; rewrite bmap_58; lia|rewrite sb_eq; exact Hb]. }
  assert (ino (tv_view t2) inum = i) as Ei by (apply ino_eq; [exact Hnew|reflexivity]).
  exists s2, t2. split; [|apply mk_image].
  - unfold mk_ialloc. rewrite (bind_Ret get _ pid s s s eq_refl). rewrite Hnx. mstep. fold s1. rewrite xshort_small by lia. change (mk_dinode _ _ _ _ _ _) with (i_dinode i).
    change inum with (i_inum i) at 1. mrun E2. reflexivity.
  - exact R2.
  - rewrite I2, length_app. simpl. rewrite u32_small by (unfold inum; lia). unfold inum. lia.
  - rewrite length_app. simpl. lia.
  - intros n x [E|[Hge E]]%lookup_app_Some; [split; [by apply (im_node _ _ _ Im n x)|by apply Hold]|].
    apply list_lookup_singleton_Some in E as [E <-]. cbn [fst snd]. split; [unfold is_short; lia|]. replace (Z.of_nat n + 1) with inum by (unfold inum; lia). by apply new_inode_node.
  - rewrite length_app. cbn [length]. intros n n' j j' Hn Hn' Hne Hj Hj' Hz.
    destruct (decide (n = length I)) as [->|Hnl]; [fold inum in Hz; rewrite Ei in Hz; unfold i in Hz; rewrite new_inode_slot in Hz; done|].
    destruct (lookup_lt_is_Some_2 I n ltac:(lia)) as [x Ex]. destruct (Hold n x Ex) as (_ & E1 & S1). rewrite E1, S1 in *.
    destruct (decide (n' = length I)) as [->|Hnl']; [fold inum; rewrite Ei; unfold i; rewrite new_inode_slot; exact Hz|].
    destruct (lookup_lt_is_Some_2 I n' ltac:(lia)) as [x' Ex']. destruct (Hold n' x' Ex') as (_ & E1' & S1'). rewrite E1', S1'. apply (im_disj _ _ _ Im); done || lia.
  - rewrite length_app. cbn [length]. intros n Hn. rewrite Hoth; [apply Im; lia|apply inum_200; lia|unfold inum; lia].
  - rewrite F2, total_nodes_app. change (total [(ty, [])]) with 0. rewrite Z.add_0_r. apply Im.
  - intros n Hn. rewrite Hv by lia. by apply Im.
Qed.

(** ** Files and directory *)

Definition file_data (f : hostfile) : list Z := concat (hf_reads f).
Definition root_entries (fs : list hostfile) : list dirent :=
  mk_dirent 1 DOT_NAME :: mk_dirent 1 DOTDOT_NAME :: imap (λ k f, new_dirent (strip (hf_name f)) (Z.of_nat k + 2)) fs.
Definition root_data (fs : list hostfile) : list Z := concat (de_encode <$> root_entries fs).
Definition tree (fs : list hostfile) : nodes := (T_DIR, root_data fs) :: ((λ f, (T_FILE, file_data f)) <$> fs).

(** A file mkfs can take: its name has no slash, [read] returns bytes, and it
    is not too large. *)
Record host_ok (f : hostfile) : Prop := mk_host_ok {
  ho_name : SLASH ∉ hf_name f;
  ho_bytes : bytes (hf_name f);
  ho_reads : Forall (λ c, c ≠ [] ∧ bytes c) (hf_reads f);
  ho_size : Z.of_nat (length (file_data f)) ≤ MAXFILE * BSIZE;
}.

Lemma bytes_strip name : bytes name → bytes (strip name).
Proof. intros H. destruct name as [|c name]; [exact H|]. simpl. apply Forall_cons in H as [Hc Hn]. destruct (c =? UNDERSCORE); [exact Hn|by apply Forall_cons]. Qed.
Lemma dots_wf : dirent_wf (mk_dirent 1 DOT_NAME) ∧ dirent_wf (mk_dirent 1 DOTDOT_NAME).
Proof. split; (split; [done|split; [done|]]); apply (bool_decide_unpack (Forall is_byte _)); vm_compute; exact I. Qed.
Lemma root_entries_wf fs : Forall host_ok fs → Forall dirent_wf (root_entries fs).
Proof.
  intros H. destruct dots_wf as [H1 H2]. repeat (apply Forall_cons; split; [assumption|]). apply Forall_lookup. intros k de E.
  rewrite list_lookup_imap in E. destruct (fs !! k) as [f|] eqn:Ef; [|discriminate E]. injection E as <-.
  apply new_dirent_wf, bytes_strip. by apply (ho_bytes f), (Forall_lookup_1 _ _ _ _ H Ef).
Qed.
Lemma bytes_de_encode d : dirent_wf d → bytes (de_encode d).
Proof. intros (_ & _ & Hb). unfold de_encode. apply Forall_app. split; [apply bytes_le_bytes|exact Hb]. Qed.
Lemma length_entries l : Forall dirent_wf l → Z.of_nat (length (concat (de_encode <$> l))) = 16 * Z.of_nat (length l).
Proof.
  induction 1 as [|d l Hd _ IH]; [reflexivity|]. rewrite fmap_cons. cbn [concat length]. rewrite length_app, (length_de_encode d Hd). change (Z.to_nat SIZEOF_DIRENT) with 16%nat. lia.
Qed.
Lemma length_root_data fs : Forall host_ok fs → Z.of_nat (length (root_data fs)) = 16 * (Z.of_nat (length fs) + 2).
Proof. intros H. unfold root_data. rewrite length_entries by (by apply root_entries_wf). cbn [root_entries length]. rewrite length_imap. lia. Qed.
Lemma root_data_app fs f : root_data (fs ++ [f]) = root_data fs ++ de_encode (new_dirent (strip (hf_name f)) (Z.of_nat (length fs) + 2)).
Proof.
  unfold root_data, root_entries. rewrite imap_app. cbn [imap]. rewrite !fmap_cons, fmap_app. cbn [concat]. rewrite concat_app. cbn [fmap list_fmap concat].
  rewrite app_nil_r, Nat.add_0_r. by rewrite <- !app_assoc.
Qed.

(** Several appends to one inode. *)
Lemma iappend_all pid reads : ∀ s t I k ty data, image s t I → I !! k = Some (ty, data) → Forall (λ c, c ≠ [] ∧ bytes c) reads →
  Z.of_nat (length (data ++ concat reads)) ≤ MAXFILE * BSIZE → nmeta + total (<[k := (ty, data ++ concat reads)]> I) ≤ FSSIZE →
  ∃ s' t', forM reads (iappend (Z.of_nat k + 1)) pid s = Ret tt s' ∧ image s' t' (<[k := (ty, data ++ concat reads)]> I).
Proof.
  induction reads as [|c reads IH]; intros s t I k ty data Im E H Hmax Htot.
  - exists s, t. split; [reflexivity|]. cbn [concat]. rewrite app_nil_r, list_insert_id by exact E. exact Im.
  - apply Forall_cons in H as [[Hc Hb] H]. cbn [concat] in *. rewrite length_app in Hmax. rewrite length_app in Hmax. pose proof (lookup_lt_Some _ _ _ E) as Hk.
    rewrite (total_insert _ _ _ _ _ E), length_app in Htot. destruct (iappend_image pid s t I k ty data c Im E Hb Hc) as (s1 & t1 & E1 & Im1); [lia| |].
    { rewrite (total_insert _ _ _ _ _ E). pose proof (fblocks_mono (Z.of_nat (length data) + Z.of_nat (length c)) (Z.of_nat (length data) + Z.of_nat (length c + length (concat reads))) ltac:(lia)). lia. }
    destruct (IH s1 t1 _ k ty (data ++ c) Im1) as (s2 & t2 & E2 & Im2).
    + by apply list_lookup_insert_eq.
    + exact H.
    + rewrite !length_app. lia.
    + rewrite list_insert_insert_eq, <- app_assoc, (total_insert _ _ _ _ _ E), length_app. exact Htot.
    + exists s2, t2. split; [cbn [forM]; mrun E1; exact E2|]. rewrite list_insert_insert_eq, <- app_assoc in Im2. exact Im2.
Qed.

Lemma total_tree fs : total (tree fs) = fblocks (Z.of_nat (length (root_data fs))) + total ((λ f, (T_FILE, file_data f)) <$> fs).
Proof. reflexivity. Qed.
Lemma fblocks_nonneg n : 0 ≤ n → 0 ≤ fblocks n.
Proof. intros Hn. unfold fblocks, NDIRECT, BSIZE. destruct (12 * 512 <? n); dlia. Qed.
Lemma total_nonneg I : 0 ≤ total I.
Proof. induction I as [|x I IH]; simpl; [lia|]. pose proof (fblocks_nonneg (Z.of_nat (length x.2)) ltac:(lia)). lia. Qed.
Lemma total_tree_mono fs gs : Forall host_ok (fs ++ gs) → total (tree fs) ≤ total (tree (fs ++ gs)).
Proof.
  intros H. apply Forall_app in H as [Hf Hg]. rewrite !total_tree, fmap_app, total_nodes_app, !length_root_data by (done || by apply Forall_app).
  rewrite length_app. pose proof (total_nonneg ((λ f, (T_FILE, file_data f)) <$> gs)).
  pose proof (fblocks_mono (16 * (Z.of_nat (length fs) + 2)) (16 * (Z.of_nat (length fs + length gs) + 2)) ltac:(lia)). lia.
Qed.

Lemma insert_last {A} (l : list A) x y : <[length l := x]> (l ++ [y]) = l ++ [x].
Proof. induction l as [|z l IH]; [reflexivity|]. cbn [length app]. change (z :: <[length l := x]> (l ++ [y]) = z :: l ++ [x]). by rewrite IH. Qed.
Lemma tree_add fs f : <[length (tree fs) := (T_FILE, file_data f)]> (<[0%nat := (T_DIR, root_data (fs ++ [f]))]> (tree fs ++ [(T_FILE, [])])) = tree (fs ++ [f]).
Proof.
  unfold tree. set (l := _ <$> fs). rewrite fmap_app. fold l.
  change ((T_DIR, root_data (fs ++ [f])) :: <[length l := (T_FILE, file_data f)]> (l ++ [(T_FILE, [])]) = (T_DIR, root_data (fs ++ [f])) :: l ++ [(T_FILE, file_data f)]).
  by rewrite insert_last.
Qed.

Lemma add_file_image pid s t fs f : image s t (tree fs) → Forall host_ok (fs ++ [f]) → (length fs < 198)%nat → nmeta + total (tree (fs ++ [f])) ≤ FSSIZE →
  ∃ s' t', add_file 1 f pid s = Ret tt s' ∧ image s' t' (tree (fs ++ [f])).
Proof.
  intros Im H Hlen Htot. pose proof H as Hall. apply Forall_app in H as [Hfs Hf]. apply Forall_cons in Hf as [Hf _].
  assert (length (tree fs) = S (length fs)) as Hl by (cbn [tree length]; by rewrite length_fmap). set (de := new_dirent (strip (hf_name f)) (Z.of_nat (length fs) + 2)).
  assert (dirent_wf de) as Hde by (apply new_dirent_wf, bytes_strip, Hf). pose proof (length_root_data fs Hfs) as Hr. pose proof (length_root_data _ Hall) as Hr'. rewrite length_app in Hr'. cbn [length] in Hr'.
  assert (length (de_encode de) = 16%nat) as Hel by (rewrite (length_de_encode de Hde); reflexivity).
  destruct (mk_ialloc_image pid s t (tree fs) T_FILE Im ltac:(lia) ltac:(done)) as (s1 & t1 & E1 & Im1).
  rewrite total_tree, fmap_app, total_nodes_app in Htot. change (total ((λ f0, (T_FILE, file_data f0)) <$> [f])) with (fblocks (Z.of_nat (length (file_data f))) + 0) in Htot.
  pose proof (fblocks_nonneg (Z.of_nat (length (file_data f))) ltac:(lia)) as Hnn.
  destruct (iappend_image pid s1 t1 _ 0 T_DIR (root_data fs) (de_encode de) Im1 eq_refl) as (s2 & t2 & E2 & Im2).
  { by apply bytes_de_encode. }
  { intros En. rewrite En in Hel. discriminate Hel. }
  { rewrite Hr, Hel, maxfile_140. unfold BSIZE. lia. }
  { rewrite (total_insert (tree fs ++ [(T_FILE, [])]) 0%nat T_DIR (root_data fs) (de_encode de) eq_refl), total_nodes_app, total_tree. change (total [(T_FILE, [])]) with 0. rewrite Hr', Hel in *. rewrite Hr in *.
    replace (16 * (Z.of_nat (length fs) + 2) + Z.of_nat 16) with (16 * (Z.of_nat (length fs + 1) + 2)) by lia. lia. }
  unfold de in Im2. rewrite <- root_data_app in Im2.
  destruct (iappend_all pid (hf_reads f) s2 t2 _ (length (tree fs)) T_FILE [] Im2) as (s3 & t3 & E3 & Im3).
  { rewrite list_lookup_insert_ne by lia. apply list_lookup_middle. reflexivity. }
  { apply Hf. }
  { apply Hf. }
  { cbn [app]. fold (file_data f). rewrite tree_add, total_tree, fmap_app, total_nodes_app. change (total ((λ f0, (T_FILE, file_data f0)) <$> [f])) with (fblocks (Z.of_nat (length (file_data f))) + 0). exact Htot. }
  exists s3, t3. split; [|cbn [app] in Im3; fold (file_data f) in Im3; rewrite tree_add in Im3; exact Im3].
  unfold add_file. rewrite bool_decide_false by apply Hf. mrun E1. rewrite Hl in E3 |- *. unfold de, new_dirent in E2. rewrite xshort_small by lia.
  replace (Z.of_nat (S (length fs)) + 1) with (Z.of_nat (length fs) + 2) in * by lia. unfold u16 in E2. rewrite Z.mod_small in E2 by lia. change (Z.of_nat 0 + 1) with 1 in E2. mrun E2. exact E3.
Qed.

Lemma add_files_image pid rest : ∀ fs s t, image s t (tree fs) → Forall host_ok (fs ++ rest) → (length (fs ++ rest) ≤ 198)%nat → nmeta + total (tree (fs ++ rest)) ≤ FSSIZE →
  ∃ s' t', forM rest (add_file 1) pid s = Ret tt s' ∧ image s' t' (tree (fs ++ rest)).
Proof.
  induction rest as [|f rest IH]; intros fs s t Im H Hlen Htot.
  - rewrite app_nil_r. by exists s, t.
  - assert (fs ++ f :: rest = (fs ++ [f]) ++ rest) as Ea by (by rewrite <- app_assoc). rewrite Ea in *. pose proof H as H'. apply Forall_app in H' as [H1 _]. rewrite !length_app in Hlen. cbn [length] in Hlen.
    pose proof (total_tree_mono _ _ H). destruct (add_file_image pid s t fs f Im H1 ltac:(lia) ltac:(lia)) as (s1 & t1 & E1 & Im1).
    destruct (IH (fs ++ [f]) s1 t1 Im1 H) as (s2 & t2 & E2 & Im2); [rewrite !length_app; cbn [length]; lia|exact Htot|].
    exists s2, t2. split; [cbn [forM]; mrun E1; exact E2|exact Im2].
Qed.

(** ** The whole program *)

(** The image with all sectors zero, and the super block in place. *)
Definition blank (s : mkst) : Prop := (∀ n, m_img s n = zero_block) ∧ m_freeinode s = 1 ∧ m_freeblock s = nmeta.

Lemma zero_sectors pid s : blank s → m_len s = 0 → ∃ s', forM (seqZ 0 FSSIZE) (λ i, wsect i zero_block) pid s = Ret tt s' ∧ blank s' ∧ m_len s' = FSSIZE.
Proof.
  intros Hb Hl. assert (triple pid (λ s, blank s ∧ m_len s = 0) (forM (seqZ 0 FSSIZE) (λ i, wsect i zero_block)) (λ _ s, blank s ∧ m_len s = FSSIZE)) as H.
  { apply (triple_forZ pid (λ n s, blank s ∧ m_len s = Z.of_nat n)). intros n Hn s0 [(Hz & Hi & Hf) Hl0]. eexists tt, _. split; [reflexivity|].
    split; [split; [|split; [exact Hi|exact Hf]]|cbn [m_len m_set_img]; rewrite Hl0; lia]. intros k. cbn [m_img m_set_img].
    destruct (decide (k = Z.of_nat n)) as [->|Hne]; [apply fn_lookup_insert|]. rewrite fn_lookup_insert_ne by (apply not_eq_sym, Hne). apply Hz. }
  destruct (H s (conj Hb Hl)) as ([] & s' & E & H1 & H2). by exists s'.
Qed.

Lemma blank_image s s' : blank s → m_len s = FSSIZE → s' = m_set_img (<[1 := splice 0 (sb_encode sb) zero_block]> (m_img s)) FSSIZE s →
  image s' (mk_txv (vview s') ∅ ∅) [].
Proof.
  intros (Hz & Hi & Hf) Hl ->. set (s' := m_set_img _ _ s). assert (∀ n, n ≠ 1 → m_img s' n = zero_block) as Himg.
  { intros n Hn. unfold s'. cbn [m_img m_set_img]. rewrite fn_lookup_insert_ne by (apply not_eq_sym, Hn). apply Hz. }
  assert (m_img s' 1 = splice 0 (sb_encode sb) zero_block) as H1 by (apply fn_lookup_insert).
  assert (∀ n, n ≠ 58 → vview s' n = m_img s' n) as Hv by (intros n Hn; unfold vview; rewrite (proj2 (Z.eqb_neq _ _)) by (rewrite bmap_58; exact Hn); reflexivity).
  apply mk_image.
  - apply mk_mrep; [reflexivity| | | |reflexivity|reflexivity].
    + change (m_freeblock s') with (m_freeblock s). rewrite Hf, nmeta_59. unfold FSSIZE. lia.
    + intros n. destruct (decide (n = 1)) as [->|Hn]; [rewrite H1|rewrite (Himg n Hn); apply zero_block_ok].
      apply block_ok_splice; [rewrite sb_eq; apply Nat.leb_le; vm_compute; reflexivity|rewrite sb_eq; apply (bool_decide_unpack (Forall is_byte _)); vm_compute; exact I|apply zero_block_ok].
    + intros n Hn. change (m_freeblock s') with (m_freeblock s) in Hn. rewrite Hf, nmeta_59 in Hn. apply Himg. lia.
  - change (m_freeinode s') with (m_freeinode s). rewrite Hi. reflexivity.
  - cbn [length]. lia.
  - intros k x E. discriminate E.
  - intros k k' j j' Hk. cbn [length] in Hk. lia.
  - intros n Hn. cbn [length] in Hn. pose proof (inode_block n ltac:(apply inum_200; lia)) as Hb. unfold disk_inode. cbn [tv_view]. rewrite Hv, Himg by lia.
    unfold zero_block, slice. rewrite drop_replicate, take_replicate. pose proof (ioff_range n). replace (_ `min` _)%nat with 64%nat by (change (Z.to_nat SIZEOF_DINODE) with 64%nat; change (Z.to_nat BSIZE) with 512%nat; lia). reflexivity.
  - change (m_freeblock s') with (m_freeblock s). rewrite Hf. reflexivity.
  - intros n Hn. cbn [tv_view]. rewrite Hv by lia. destruct (n =? 1) eqn:E1; [apply Z.eqb_eq in E1 as ->; exact H1|]. apply Himg. lia.
Qed.

(** The root directory with its first two entries. *)
Lemma dots_image pid s t : image s t [] → ∃ s1 s2 s3 t3, mk_ialloc T_DIR pid s = Ret 1 s1 ∧ iappend 1 (de_encode (mk_dirent (xshort 1) DOT_NAME)) pid s1 = Ret tt s2 ∧
  iappend 1 (de_encode (mk_dirent (xshort 1) DOTDOT_NAME)) pid s2 = Ret tt s3 ∧ image s3 t3 (tree []).
Proof.
  intros Im. destruct dots_wf as [W1 W2]. change (xshort 1) with 1. destruct (mk_ialloc_image pid s t [] T_DIR Im ltac:(cbn; lia) ltac:(done)) as (s1 & t1 & E1 & Im1).
  destruct (iappend_image pid s1 t1 _ 0 T_DIR [] (de_encode (mk_dirent 1 DOT_NAME)) Im1 eq_refl) as (s2 & t2 & E2 & Im2);
    [by apply bytes_de_encode|discriminate|vm_compute; discriminate|vm_compute; discriminate|].
  destruct (iappend_image pid s2 t2 _ 0 T_DIR (de_encode (mk_dirent 1 DOT_NAME)) (de_encode (mk_dirent 1 DOTDOT_NAME)) Im2 eq_refl) as (s3 & t3 & E3 & Im3);
    [by apply bytes_de_encode|discriminate|vm_compute; discriminate|vm_compute; discriminate|].
  exists s1, s2, s3, t3. split; [exact E1|]. split; [exact E2|]. split; [exact E3|]. exact Im3.
Qed.

(** ** The finished image *)

Definition root_size (fs : list hostfile) : Z := (16 * (Z.of_nat (length fs) + 2) / BSIZE + 1) * BSIZE.
Definition empty_entry : dirent := mk_dirent 0 (replicate 14 0).

(** What the kernel finds on the image: the super block, an empty log, a map
    that has the blocks taken, the files, the root directory, free inodes, and
    no block that is two files'. *)
Record fs_image (view : Z → block) (fs : list hostfile) : Prop := mk_fs_image {
  fi_sb : sb_decode (view 1) = sb;
  fi_log : ∀ n, 2 ≤ n < 32 → view n = zero_block;
  fi_map : ∀ b, 0 ≤ b < FSSIZE → used sb view b ↔ b < nmeta + total (tree fs);
  fi_file : ∀ k f, fs !! k = Some f → let i := ino view (Z.of_nat k + 2) in
    file_wf sb view i ∧ i_type i = T_FILE ∧ i_nlink i = 1 ∧ i_size i = Z.of_nat (length (file_data f)) ∧ fbytes view i 0 (i_size i) = file_data f;
  fi_root : let i := ino view ROOTINO in i_type i = T_DIR ∧ i_nlink i = 1 ∧ i_size i = root_size fs ∧
    fbytes view i 0 (Z.of_nat (length (root_data fs))) = root_data fs;
  fi_dir : (Z.of_nat (length fs) + 2) mod 32 ≠ 0 → let i := ino view ROOTINO in dir_wf sb view i ∧
    dents view i = root_entries fs ++ replicate (Z.to_nat (root_size fs / DESZ) - (length fs + 2)) empty_entry;
  fi_hole : (Z.of_nat (length fs) + 2) mod 32 = 0 → faddr view (ino view ROOTINO) (root_size fs / BSIZE - 1) = 0;
  fi_disj : ∀ a b j j', 1 ≤ a ≤ Z.of_nat (length fs) + 1 → 1 ≤ b ≤ Z.of_nat (length fs) + 1 → a ≠ b → 0 ≤ j ≤ MAXFILE → 0 ≤ j' ≤ MAXFILE →
    fslot view (ino view a) j ≠ 0 → fslot view (ino view a) j ≠ fslot view (ino view b) j';
  fi_free : ∀ n, Z.of_nat (length fs) + 1 < n < NINODES → di_type (disk_inode sb view n) = 0;
}.

(** Entry [k] of the directory's data. *)
Lemma slice_entries l k de : Forall dirent_wf l → l !! k = Some de → slice (16 * k) 16 (concat (de_encode <$> l)) = de_encode de.
Proof.
  intros H. revert k. induction H as [|d l Hd H IH]; intros k E; [discriminate E|]. pose proof (length_de_encode d Hd) as Hl. change (Z.to_nat SIZEOF_DIRENT) with 16%nat in Hl.
  rewrite fmap_cons. cbn [concat]. destruct k as [|k].
  - injection E as ->. by apply slice_app_here.
  - rewrite <- (IH k E). replace (16 * S k)%nat with (length (de_encode d) + 16 * k)%nat by lia. unfold slice. by rewrite drop_app_add.
Qed.
Lemma fbytes_slice view i data a m : fbytes view i 0 (Z.of_nat (length data)) = data → (a + m ≤ length data)%nat → fbytes view i (Z.of_nat a) (Z.of_nat m) = slice a m data.
Proof.
  intros H Hm. apply list_eq. intros k. unfold fbytes, slice. rewrite list_lookup_fmap. destruct (decide (k < m)%nat) as [Hk|Hk].
  - rewrite lookup_seqZ_lt by lia. rewrite lookup_take_lt by lia. rewrite lookup_drop. simpl. rewrite (proj2 (fbytes_nth _ _ _) H) by lia.
    replace (Z.to_nat (Z.of_nat a + Z.of_nat k)) with (a + k)%nat by lia. rewrite nth_lookup. destruct (lookup_lt_is_Some_2 data (a + k) ltac:(lia)) as [x ->]. reflexivity.
  - rewrite lookup_seqZ_ge by lia. rewrite lookup_take_ge by lia. reflexivity.
Qed.

Section root.
Context (view : Z → block) (i : inode) (fs : list hostfile) (Hfs : Forall host_ok fs) (Hlen : (length fs ≤ 198)%nat).
Context (W : file_wf sb view i) (D : dense view i (Z.of_nat (length (root_data fs)))) (Zt : ztail view i (Z.of_nat (length (root_data fs)))).
Context (Hdata : fbytes view i 0 (Z.of_nat (length (root_data fs))) = root_data fs) (Hty : i_type i = T_DIR).
Local Notation L := (16 * (Z.of_nat (length fs) + 2)).

Lemma root_faddr bn : 0 ≤ bn < MAXFILE → faddr view i bn ≠ 0 ↔ bn * BSIZE < L.
Proof using D Hfs.
  clear Hlen. intros Hb. pose proof (D bn ltac:(lia)) as Hd. rewrite fslot_faddr in Hd by lia. unfold spos in Hd. rewrite (proj2 (Z.eqb_neq _ _)) in Hd by lia. by rewrite (length_root_data fs Hfs) in Hd.
Qed.
Lemma root_dent k de : root_entries fs !! k = Some de → dent view i (Z.of_nat k) = de.
Proof using Hdata Hfs.
  clear Hlen. intros E. pose proof (root_entries_wf fs Hfs) as Hw. pose proof (length_entries _ Hw) as Hl. fold (root_data fs) in Hl. pose proof (lookup_lt_Some _ _ _ E) as Hk. unfold dent, DESZ.
  replace (16 * Z.of_nat k) with (Z.of_nat (16 * k)) by lia. change (fbytes view i (Z.of_nat (16 * k)) 16) with (fbytes view i (Z.of_nat (16 * k)) (Z.of_nat 16)). rewrite (fbytes_slice view i _ _ _ Hdata) by lia.
  unfold root_data. rewrite (slice_entries _ _ _ Hw E). apply de_decode_encode. exact (Forall_lookup_1 _ _ _ _ Hw E).
Qed.
Lemma root_dent_empty k : Z.of_nat (length fs) + 2 ≤ k → k * 16 < root_size fs → L mod 512 ≠ 0 → dent view i k = empty_entry.
Proof using D Zt Hfs Hlen.
  intros H1 H2 Hm. unfold root_size, BSIZE in H2. unfold dent, DESZ. assert (fbytes view i (16 * k) 16 = replicate 16 0) as ->; [|reflexivity].
  unfold fbytes. apply list_eq. intros j. rewrite list_lookup_fmap. destruct (decide (j < 16)%nat) as [Hj|Hj];
    [|rewrite lookup_seqZ_ge by lia; rewrite lookup_ge_None_2 by (rewrite length_replicate; lia); reflexivity].
  rewrite lookup_seqZ_lt by lia. rewrite lookup_replicate_2 by lia. simpl. f_equal. apply Zt; [rewrite (length_root_data fs Hfs), maxfile_140; unfold BSIZE; dlia|].
  apply root_faddr; [rewrite maxfile_140; unfold BSIZE; dlia|unfold BSIZE; dlia].
Qed.
End root.

Lemma one_ok : inum_ok sb 1.
Proof. apply inum_200. lia. Qed.

Section finish.
Context (pid : Z) (s : mkst) (t : txv) (fs : list hostfile) (Im : image s t (tree fs)) (Hfs : Forall host_ok fs) (Hlen : (length fs ≤ 198)%nat).
Local Notation i0 := (ino (tv_view t) 1).
Local Notation i2 := (i_set_size (root_size fs) i0).
Local Notation t2 := (tv_iupdate sb i2 t).

Lemma root_node : node (tv_view t) 1 T_DIR (root_data fs).
Proof using Im. exact (proj2 (im_node _ _ _ Im 0%nat _ eq_refl)). Qed.
Lemma root_size_range : 0 ≤ root_size fs ≤ 4096.
Proof using Hlen. clear -Hlen. unfold root_size, BSIZE. dlia. Qed.
Lemma root_dinode_wf : dinode_wf (i_dinode i2).
Proof using Im Hlen.
  destruct root_node as [W _ _ Hd _]. assert (shorts i0) as Hsh by (unfold shorts, ino; rewrite Hd; repeat split; done).
  destruct (file_dinode_wf sb _ _ sb_fine W Hsh) as (H1 & H2 & H3 & H4 & _ & H6 & H7). pose proof root_size_range as Hr. split_and!; [exact H1|exact H2|exact H3|exact H4|change (is_uint (root_size fs)); unfold is_uint; lia|exact H6|exact H7].
Qed.

Lemma finish_run : ∃ s', (fix_root 1 ;; s ← get; mk_balloc (m_freeblock s)) pid s = Ret tt s' ∧
  m_len s' = FSSIZE ∧ ∀ n, m_img s' n = tv_view t2 n.
Proof using Im Hfs Hlen.
  pose proof (im_rep _ _ _ Im) as R. pose proof root_size_range as Hr. destruct (winode_run pid s t R i2 one_ok root_dinode_wf) as (s1 & E1 & R1 & F1 & _).
  pose proof (mr_fb _ _ R1) as Hfb. unfold FSSIZE in Hfb.
  assert (fix_root 1 pid s = Ret tt s1) as E0.
  { unfold fix_root. mrun (rinode_run pid s t R 1 one_ok). rewrite <- ino_dinode. change (di_size (i_dinode i0)) with (i_size i0).
    assert (i_size i0 = 16 * (Z.of_nat (length fs) + 2)) as -> by (unfold ino; rewrite (nd_dinode _ _ _ _ root_node), (length_root_data fs Hfs); reflexivity).
    rewrite (xint_small (16 * (Z.of_nat (length fs) + 2))) by lia. fold (root_size fs). rewrite u32_small, xint_small by lia. exact E1. }
  eexists. split.
  - mrun E0. rewrite (bind_Ret get _ pid s1 s1 s1 eq_refl). unfold mk_balloc. rewrite (proj2 (Z.ltb_lt _ _)) by (unfold BSIZE; lia). reflexivity.
  - cbn [m_len m_img m_set_img]. split; [rewrite (mr_len _ _ R1), bmap_58; reflexivity|]. intros n. rewrite (mr_view _ _ R1). unfold vview.
    destruct (decide (n = sb_bmapstart sb)) as [->|Hn]; [by rewrite fn_lookup_insert, Z.eqb_refl|]. rewrite fn_lookup_insert_ne by (apply not_eq_sym, Hn). by rewrite (proj2 (Z.eqb_neq _ _)).
Qed.

Context (view' : Z → block) (Hv' : ∀ n, view' n = tv_view t2 n).

Lemma fin_view n : n ≠ IBLOCK 1 sb → view' n = tv_view t n.
Proof using Im Hlen Hv'. intros Hn. rewrite Hv'. unfold tv_iupdate. apply fn_lookup_insert_ne, not_eq_sym, Hn. Qed.
Lemma fin_data b : data_block sb b → view' b = tv_view t b.
Proof using Im Hlen Hv'. intros Hb. apply fin_view. pose proof (inode_block 1 one_ok). clear -Hb H. mlia. Qed.
Lemma fin_dinode n : inum_ok sb n → n ≠ 1 → disk_inode sb view' n = disk_inode sb (tv_view t) n.
Proof using Im Hlen Hv'.
  intros Hn Hne. rewrite <- (disk_inode_other sb t i2 n sb_fine one_ok Hn Hne root_dinode_wf (rep_ok s t (im_rep _ _ _ Im) _)). unfold disk_inode. by rewrite Hv'.
Qed.
Lemma fin_root : ino view' 1 = i2.
Proof using Im Hlen Hv'.
  apply ino_eq; [|reflexivity]. rewrite <- (disk_inode_iupdate sb t i2 root_dinode_wf (rep_ok s t (im_rep _ _ _ Im) _)). unfold disk_inode. by rewrite Hv'.
Qed.
Lemma fin_used b : 0 ≤ b < 1000 → used sb view' b ↔ used sb (tv_view t) b.
Proof using Im Hlen Hv'. intros Hb. apply used_frame; [apply sb_fine| |rewrite sb_eq; exact Hb]. apply fin_view. pose proof (inode_block 1 one_ok). rewrite bmap_58. lia. Qed.

(** The inodes other than the root are as they were. *)
Lemma fin_node k x : (1 ≤ k)%nat → tree fs !! k = Some x → node view' (Z.of_nat k + 1) x.1 x.2.
Proof using Im Hlen Hv'.
  intros Hk E. destruct (im_node _ _ _ Im k x E) as [_ N]. apply (node_frame (tv_view t)); [| | |exact N].
  - apply fin_dinode; [exact (nd_inum t _ s Im k (lookup_lt_Some _ _ _ E))|lia].
  - intros j Hj Hz. apply fin_data, (fw_block _ _ _ (nd_wf _ _ _ _ N) j Hj Hz).
  - intros b Hb. by apply fin_used.
Qed.
(** Every inode has the blocks it had. *)
Lemma fin_slots a j : 1 ≤ a ≤ Z.of_nat (length fs) + 1 → fslot view' (ino view' a) j = fslot (tv_view t) (ino (tv_view t) a) j.
Proof using Im Hlen Hv'.
  intros Ha. assert (length (tree fs) = S (length fs)) as Hl by (cbn [tree length]; by rewrite length_fmap).
  pose proof (nd_file t (tree fs) s Im (Z.to_nat (a - 1)) ltac:(lia)) as W. replace (Z.of_nat (Z.to_nat (a - 1)) + 1) with a in W by lia.
  assert (fslot view' (ino (tv_view t) a) j = fslot (tv_view t) (ino (tv_view t) a) j) as E by (apply (fslot_frame sb _ _ _ _ W), fin_data).
  rewrite <- E. destruct (decide (a = 1)) as [->|Hne]; [by rewrite fin_root|]. unfold ino at 1. rewrite fin_dinode; [reflexivity|apply inum_200; lia|exact Hne].
Qed.
Lemma fin_dir : (Z.of_nat (length fs) + 2) mod 32 ≠ 0 → dir_wf sb view' i2 ∧
  dents view' i2 = root_entries fs ++ replicate (Z.to_nat (root_size fs / DESZ) - (length fs + 2)) empty_entry.
Proof using Im Hfs Hlen Hv'.
  intros Hm. destruct root_node as [W D Zt Hd Hdata]. pose proof root_size_range as Hr. pose proof (length_root_data fs Hfs) as HL.
  pose proof (dense_frame _ view' _ (root_size fs) _ W fin_data D) as D2. pose proof (ztail_frame _ view' _ (root_size fs) (Z.of_nat (length (root_data fs))) ltac:(lia) W fin_data Zt) as Z2.
  assert (fbytes view' i2 0 (Z.of_nat (length (root_data fs))) = root_data fs) as Hd2.
  { apply fbytes_nth. intros o Ho. assert (i_size i0 = Z.of_nat (length (root_data fs))) as Es by (unfold ino; rewrite Hd; reflexivity). pose proof (fw_size _ _ _ W) as Hw.
    rewrite (fbyte_frame sb 0 [] ltac:(done) (tv_view t) view' i0 (root_size fs) o W fin_data); [by apply (proj2 (fbytes_nth _ _ _) Hdata)|lia|]. apply (fw_full _ _ _ W); unfold BSIZE; dlia. }
  assert (file_wf sb view' i2) as W2.
  { apply (file_wf_frame sb (tv_view t)); [apply sb_fine|exact W|exact fin_data|apply fin_view; pose proof (inode_block 1 one_ok); rewrite bmap_58; lia|rewrite maxfile_140; unfold BSIZE; lia|].
    intros bn H0 H1. apply (root_faddr (tv_view t) i0 fs Hfs D); unfold root_size, BSIZE in *; [rewrite maxfile_140|]; dlia. }
  split; [split; [exact W2|unfold ino; rewrite Hd; reflexivity|cbn [i_size i_set_size]; unfold root_size, DESZ, BSIZE; dlia]|].
  assert (length (root_entries fs) = (length fs + 2)%nat) as Hle by (cbn [root_entries length]; rewrite length_imap; lia).
  unfold dents. cbn [i_size i_set_size]. apply list_eq. intros k. rewrite list_lookup_fmap. assert (Z.to_nat (root_size fs / DESZ) ≥ length fs + 2)%nat as Hge by (unfold root_size, DESZ, BSIZE; dlia).
  destruct (decide (k < length fs + 2)%nat) as [Hk|Hk]; [|destruct (decide (k < Z.to_nat (root_size fs / DESZ))%nat) as [Hk2|Hk2]].
  - rewrite lookup_app_l by lia. rewrite lookup_seqZ_lt by lia. destruct (lookup_lt_is_Some_2 (root_entries fs) k ltac:(lia)) as [de Ede]. rewrite Ede. simpl. f_equal.
    exact (root_dent view' i2 fs Hfs Hd2 k de Ede).
  - rewrite lookup_app_r by lia. rewrite lookup_seqZ_lt by lia. rewrite lookup_replicate_2 by lia. simpl. f_equal. apply (root_dent_empty view' i2 fs Hfs Hlen D2 Z2); [lia|unfold DESZ in Hk2; dlia|dlia].
  - rewrite lookup_seqZ_ge by lia. symmetry. apply lookup_ge_None_2. rewrite length_app, length_replicate. lia.
Qed.

Lemma fin_image : fs_image view' fs.
Proof using Im Hfs Hlen Hv'.
  pose proof (im_rep _ _ _ Im) as R. pose proof (inode_block 1 one_ok) as Hib. assert (∀ n, 1 ≤ n < 32 → view' n = tv_view t n) as Hlow by (intros n Hn; apply fin_view; lia).
  destruct root_node as [W D Zt Hd Hdata]. pose proof (length_root_data fs Hfs) as HL. pose proof root_size_range as Hr. apply mk_fs_image.
  - rewrite (Hlow 1 ltac:(lia)), (im_boot _ _ _ Im 1 ltac:(lia)). rewrite sb_eq. vm_compute. reflexivity.
  - intros n Hn. rewrite Hlow, (im_boot _ _ _ Im) by lia. by rewrite (proj2 (Z.eqb_neq n 1)) by lia.
  - intros b Hb. unfold FSSIZE in Hb. rewrite fin_used, (rep_used s t R), (im_count _ _ _ Im) by lia. reflexivity.
  - intros k f E. assert (tree fs !! S k = Some (T_FILE, file_data f)) as Et by (change (((λ f, (T_FILE, file_data f)) <$> fs) !! k = Some (T_FILE, file_data f)); rewrite list_lookup_fmap, E; reflexivity).
    pose proof (fin_node (S k) _ ltac:(lia) Et) as [Wk _ _ Hdk Hck]. cbn [fst snd] in Hdk, Hck. replace (Z.of_nat (S k) + 1) with (Z.of_nat k + 2) in * by lia.
    assert (i_size (ino view' (Z.of_nat k + 2)) = Z.of_nat (length (file_data f))) as Es by (unfold ino; rewrite Hdk; reflexivity).
    cbv zeta. rewrite Es. split_and!; [exact Wk|unfold ino; rewrite Hdk; reflexivity|unfold ino; rewrite Hdk; reflexivity|reflexivity|exact Hck].
  - change ROOTINO with 1. cbv zeta. rewrite fin_root. split_and!; [unfold ino; rewrite Hd; reflexivity|unfold ino; rewrite Hd; reflexivity|reflexivity|].
    apply fbytes_nth. intros o Ho. assert (i_size i0 = Z.of_nat (length (root_data fs))) as Es by (unfold ino; rewrite Hd; reflexivity). pose proof (fw_size _ _ _ W) as Hw.
    rewrite (fbyte_frame sb 0 [] ltac:(done) (tv_view t) view' i0 (root_size fs) o W fin_data); [by apply (proj2 (fbytes_nth _ _ _) Hdata)|lia|]. apply (fw_full _ _ _ W); unfold BSIZE; dlia.
  - change ROOTINO with 1. intros Hm. cbv zeta. rewrite fin_root. by apply fin_dir.
  - change ROOTINO with 1. intros Hm. rewrite fin_root. pose proof (dense_frame _ view' _ (root_size fs) _ W fin_data D) as D2.
    pose proof (root_faddr view' i2 fs Hfs D2 (root_size fs / BSIZE - 1) ltac:(rewrite maxfile_140; unfold root_size, BSIZE; dlia)) as Hf. destruct (decide (faddr view' i2 (root_size fs / BSIZE - 1) = 0)) as [|Hz]; [done|].
    apply Hf in Hz. unfold root_size, BSIZE in Hz. dlia.
  - intros a b j j' Ha Hb Hab Hj Hj'. rewrite !fin_slots by lia. assert (length (tree fs) = S (length fs)) as Hl by (cbn [tree length]; by rewrite length_fmap).
    pose proof (im_disj _ _ _ Im (Z.to_nat (a - 1)) (Z.to_nat (b - 1)) j j' ltac:(lia) ltac:(lia) ltac:(lia) Hj Hj') as H.
    replace (Z.of_nat (Z.to_nat (a - 1)) + 1) with a in H by lia. replace (Z.of_nat (Z.to_nat (b - 1)) + 1) with b in H by lia. exact H.
  - intros n Hn. unfold NINODES in Hn. rewrite fin_dinode; [|apply inum_200; lia|lia]. rewrite (im_free _ _ _ Im); [reflexivity|]. cbn [tree length]. rewrite length_fmap. lia.
Qed.
End finish.

Lemma mkfs_run pid files : Forall host_ok files → (length files ≤ 198)%nat → nmeta + total (tree files) ≤ FSSIZE →
  ∃ s, mkfs files pid mkfs_start = Ret tt s ∧ m_len s = FSSIZE ∧ fs_image (m_img s) files.
Proof.
  intros Hf Hlen Htot. set (s0 := m_set_freeblock nmeta mkfs_start). destruct (zero_sectors pid s0) as (s1 & E1 & B1 & L1); [done|done|].
  set (s2 := m_set_img (<[1 := splice 0 (sb_encode sb) zero_block]> (m_img s1)) FSSIZE s1). pose proof (blank_image s1 s2 B1 L1 eq_refl) as Im2.
  destruct (dots_image pid s2 _ Im2) as (s3 & s4 & s5 & t5 & E3 & E4 & E5 & Im5).
  destruct (add_files_image pid files [] s5 t5 Im5 Hf Hlen Htot) as (s6 & t6 & E6 & Im6). cbn [app] in Im6.
  destruct (finish_run pid s6 t6 files Im6 Hf Hlen) as (s7 & E7 & L7 & V7). exists s7. split; [|split; [exact L7|exact (fin_image s6 t6 files Im6 Hf Hlen _ V7)]].
  unfold mkfs. mstep. fold s0. mrun E1. assert (wsect 1 (splice 0 (sb_encode sb) zero_block) pid s1 = Ret tt s2) as E2 by (unfold s2, wsect, modify; rewrite L1; reflexivity).
  mrun E2. mrun E3. change (negb (1 =? ROOTINO)) with false. cbv iota. mrun E4. mrun E5. mrun E6. exact E7.
Qed.

(** C29. mkfs builds a file system the kernel can use.  If the files have names
    without slashes, are no larger than a file can be, and their blocks and
    those of the directory fit on the disk, the program succeeds, and on the
    image: the super block is the one the kernel's theorems assume; the log is
    empty; the free map marks exactly the blocks taken; file [k] is inode
    [k + 2], with one link, its size and its bytes; the root directory holds
    the names in order, and is a well formed directory unless its entries end
    exactly at the end of a block; no block belongs to two inodes; the other
    inodes are free. *)
Theorem mkfs_image pid files : Forall host_ok files → (length files ≤ 198)%nat → nmeta + total (tree files) ≤ FSSIZE →
  ∃ s, mkfs files pid mkfs_start = Ret tt s ∧ m_len s = FSSIZE ∧ sb_ok sb ∧ fs_image (m_img s) files.
Proof.
  intros Hf Hlen Htot. destruct (mkfs_run pid files Hf Hlen Htot) as (s & E & L & F). exists s. split; [exact E|]. split; [exact L|]. split; [apply sb_fine|exact F].
Qed.

(** Two programs: one of a block and some bytes, one empty. *)
Definition host_ex : list hostfile := [mk_hostfile [95; 115; 104] [replicate 512 7; [1; 2; 3]]; mk_hostfile [97] []].
Lemma mkfs_image_witness : ∃ s, mkfs host_ex 0 mkfs_start = Ret tt s ∧
  fbytes (m_img s) (ino (m_img s) 2) 0 515 = replicate 512 7 ++ [1; 2; 3] ∧
  dents (m_img s) (ino (m_img s) ROOTINO) !! 2%nat = Some (new_dirent [115; 104] 2).
Proof.
  assert (Forall host_ok host_ex) as Hf.
  { apply Forall_cons. split; [|apply Forall_cons; split; [|apply Forall_nil; exact I]].
    - split; [apply (bool_decide_unpack _); vm_compute; exact I|apply (bool_decide_unpack (Forall is_byte _)); vm_compute; exact I| |vm_compute; discriminate].
      apply Forall_cons. split; [split; [discriminate|apply (bool_decide_unpack (Forall is_byte _)); vm_compute; exact I]|]. apply Forall_cons. split; [split; [discriminate|apply (bool_decide_unpack (Forall is_byte _)); vm_compute; exact I]|apply Forall_nil; exact I].
    - split; [apply (bool_decide_unpack _); vm_compute; exact I|apply (bool_decide_unpack (Forall is_byte _)); vm_compute; exact I|apply Forall_nil; exact I|vm_compute; discriminate]. }
  destruct (mkfs_image 0 host_ex Hf ltac:(apply Nat.leb_le; vm_compute; reflexivity) ltac:(vm_compute; discriminate)) as (s & E & _ & _ & F). exists s. split; [exact E|].
  destruct (fi_file _ _ F 0%nat _ eq_refl) as (_ & _ & _ & Hs & Hb). change (Z.of_nat 0 + 2) with 2 in Hs, Hb. split.
  - rewrite Hs in Hb. exact Hb.
  - destruct (fi_dir _ _ F) as [_ Hd]; [vm_compute; discriminate|]. rewrite Hd. reflexivity.
Defined.

(** With thirty files the entries of the root directory fill a block exactly,
    and the size that mkfs gives the directory counts one block more, which
    the directory does not have. *)
Theorem mkfs_root_hole : ∃ s, mkfs (replicate 30 (mk_hostfile [97] [])) 0 mkfs_start = Ret tt s ∧
  i_size (ino (m_img s) ROOTINO) = 1024 ∧ faddr (m_img s) (ino (m_img s) ROOTINO) 1 = 0 ∧ ¬ file_wf sb (m_img s) (ino (m_img s) ROOTINO).
Proof.
  destruct (mkfs_run 0 (replicate 30 (mk_hostfile [97] []))) as (s & E & _ & F).
  - apply Forall_replicate. split; [apply (bool_decide_unpack _); vm_compute; exact I|apply (bool_decide_unpack (Forall is_byte _)); vm_compute; exact I|apply Forall_nil; exact I|vm_compute; discriminate].
  - apply Nat.leb_le. vm_compute. reflexivity.
  - vm_compute. discriminate.
  - destruct (fi_root _ _ F) as (_ & _ & Hs & _). pose proof (fi_hole _ _ F eq_refl) as Hh. change (root_size _) with 1024 in Hs, Hh. change (1024 / BSIZE - 1) with 1 in Hh.
    exists s. split; [exact E|]. split; [exact Hs|]. split; [exact Hh|]. intros W. apply (fw_full _ _ _ W 1); [lia|rewrite Hs; reflexivity|exact Hh].
Qed.
